(* ===== verification/_CoqProject ===== *)
-Q . S2P
Prelude.v
Bytes.v
Crypto.v
Account.v
Ids.v
ProgramCore.v
Borsh.v
MerkleTree.v
Host.v
State.v
Encryption.v
CircuitIo.v
Circuit.v
Transactions.v
Prover.v
StateDiffs.v
PublicExecution.v
CircuitFacts.v
NativePrograms.v
Approval.v
Token.v
Amm.v
TokenClients.v
TokenFacts.v
Instances.v
TokenTheorems.v
PublicTheorems.v
StateTheorems.v
PrivacyTheorems.v
CircuitTheorems.v
CircuitSamples.v
AmmTheorems.v
Chain.v
SequencerStore.v
Sequencer.v
IndexerStore.v
SequencerInvariant.v
IndexerInvariant.v
ChainTheorems.v
ChainSamples.v
ChainIndex.v
KeyDerivation.v
GroupKeys.v
KeyTree.v
UserKeyChain.v
WalletSync.v
TextForms.v
TestnetState.v
KeyTreeFacts.v
KeyTreeTheorems.v
KeySamples.v
StorageFacts.v
WalletFacts.v
SyncFacts.v
WalletTheorems.v
WalletSamples.v
WalletTx.v
WalletTxTheorems.v
WalletTxSamples.v
WalletFacades.v
TransferTheorems.v
WalletLoops.v
WalletCommands.v
AccountCommands.v
WalletCli.v
CMemory.v
WalletFfi.v
WalletFfiTheorems.v
SharedTheorems.v
AccountTheorems.v
CommandTheorems.v
AccountSamples.v
IndexerService.v
IndexerTheorems.v
IndexerFfi.v
SequencerService.v
NodeTheorems.v
TransferSamples.v
PaymentSamples.v
IndexerSamples.v
