(* ===== verification/Prelude.v ===== *)
(** * Logos Execution Zone: a verification library

    The library models the Rust workspace under [src/]: the execution of public
    and private transactions, the guest programs, the privacy circuit, the
    sequencer and the indexer, and the wallet: its keys, storage, synchronisation,
    transactions, commands and C interface.  It is a shallow embedding: Rust
    functions are Rocq functions, mutable state is passed explicitly, [Result] and
    panics are values of [outcome] (below), and machine integers are [Z] with their
    checked, wrapping or saturating operations written out.  This file is the root: it holds the error monad, the
    integer operations and the tactics that all files share.

    ** Parts and files

    _Data and encodings._  [Bytes] (bytes, little endian, cursors), [Crypto]
    (interfaces of third-party primitives and an executable SHA-256), [Account]
    ([nssa/core/src/account.rs], [account/data.rs], [encoding.rs]), [Ids]
    ([commitment.rs], [nullifier.rs], derived account ids), [ProgramCore]
    ([nssa/core/src/program.rs]: inputs and outputs of programs, validity windows,
    [validate_execution]), [Borsh] (the codec interface), [Encryption]
    ([encryption/mod.rs]), [CircuitIo] ([circuit_io.rs]), [Transactions] (messages,
    witness sets, signatures, proofs), [Host] ([nssa/src/program.rs], [error.rs]).

    _Chain state._  [MerkleTree] ([merkle_tree/mod.rs]: the heap array, its
    reallocation, paths and their soundness), [State]
    ([nssa/src/state.rs]: accounts, commitments, nullifiers, programs, genesis,
    [apply_state_diff]), [StateDiffs] ([validated_state_diff.rs] and the
    [transition_from_*] functions; [call_loop] is the loop over chained calls),
    [PublicExecution] (that loop as a relation with a trace).

    _Privacy._  [Circuit] (the guest [privacy_preserving_circuit]: [main.rs],
    [execution_state.rs], [output.rs]), [CircuitFacts] (its invariant), [Prover]
    (the execution loop of [privacy_preserving_transaction/circuit.rs]).

    _Programs._  [NativePrograms] (transfer, vault, faucet, clock, pinata),
    [Approval] ([lez-approval]), [Token] ([programs/token]), [Amm] ([programs/amm]),
    [TokenClients] (associated token accounts, token pinata); [TokenFacts] has the
    effect of each token handler.

    _Chain._  [Chain] ([common/src/transaction.rs], [block.rs]), [SequencerStore]
    ([storage/src/sequencer], [sequencer/core/src/block_store.rs]), [Sequencer]
    ([mempool], [sequencer/core/src/lib.rs], [send_transaction] of the service),
    [IndexerStore] ([storage/src/indexer], [indexer/core/src/block_store.rs]);
    [SequencerInvariant] and [IndexerInvariant] are their step relations, invariants
    and lemmas.  [IndexerService]
    ([indexer/core/src/lib.rs], [indexer/service/src/service.rs]) has the loop over
    the messages of the settlement layer and the RPC handlers, with the types of
    [indexer/service/protocol] that they answer with.  [SequencerService]
    ([sequencer/core/src/block_publisher.rs], the start and the callbacks of
    [sequencer/core/src/lib.rs], [sequencer/service/src/service.rs]) is the sequencer
    as a node: what it publishes, its checkpoint, its RPC handlers.  [TestnetState]
    ([testnet_initial_state]) are the genesis states.

    _Wallet._  [ChainIndex] (with the iteration of [BTreeMap] in key order),
    [KeyDerivation], [GroupKeys], [KeyTree] ([key_protocol/src/key_management] with
    [nssa/src/signature/private_key.rs] and [shared_key_derivation.rs]),
    [UserKeyChain] ([wallet/src/storage/key_chain.rs], [persistent.rs],
    [storage.rs]), [WalletSync] ([wallet/src/lib.rs], [poller.rs]), [TextForms] (the
    text of account ids, mentions, hashes); [KeyTreeFacts],
    [StorageFacts], [WalletFacts] and [SyncFacts] carry the proofs.  [WalletTx] is
    the account manager ([privacy_preserving_tx.rs]) and the sending of transactions,
    [WalletFacades] the requests of [program_facades], [WalletLoops] polling and the
    search of the pinata, [WalletCommands] the program commands
    ([wallet/src/cli/programs]), [AccountCommands] the commands on accounts and
    groups, [WalletCli] the configuration and the dispatch over all
    commands.

    _C interfaces._  [CMemory] is the memory that is handed out, with the reasoning
    about its parts.  [WalletFfi] ([wallet-ffi/src]) and [IndexerFfi]
    ([indexer/ffi/src]) have the null pointers, the error codes, the conversions and
    the functions that free.

    The parts call each other as in the code: a transaction of [Chain] is validated
    by [StateDiffs] on a [State], which runs programs of [Host]; the sequencer
    collects such transactions into blocks, the indexer replays the blocks and
    answers from them, and the wallet decodes the [EncryptedAccountData] of
    [Transactions] found in them with keys of its [KeyTree]s.  A command resolves the
    accounts it mentions in the [UserKeyChain], calls a facade, which builds the
    inputs of the [Prover] or signs a public message, and stores what it decodes from
    the transaction that was sent.

    ** Theorems

    [PublicTheorems]: accepted public transactions conserve balance, respect
    ownership, cannot be replayed; the loop over chained calls ends; when
    authorization can be trusted and how it can be forged.  [PrivacyTheorems],
    [CircuitTheorems]: what acceptance of a privacy preserving transaction implies,
    nullifiers are spent once, value is conserved between public and private
    accounts, spent accounts were committed, who may change what in the circuit,
    ciphertexts decrypt, the prover hands over the receipts the circuit asks for.
    [StateTheorems]: the state invariant, membership proofs, the
    Merkle tree refines a reference tree, [validate_execution] accepts exactly the
    well-behaved executions, encodings.  [TokenTheorems], [AmmTheorems]:
    transfers, mint authority, swaps whose deposit the token program carries out
    keep the product of the reserves, withdrawals without overflow are proportional,
    transfers and burns from associated accounts need their owner.  [ChainTheorems]: the sequencer's chain
    invariant through restarts and pruning, contents of blocks, the indexer follows
    the sequencer, progress of the mempool.  [IndexerTheorems]: the indexer ingests
    its channel once and in order through polls, and stops between messages after
    which its database opens again; its answers are those
    of the chain and read back at a client.  [NodeTheorems] composes the parts: a node
    answers from one chain, whatever it went through, and a healthy one has published it; wallets that
    poll it read the whole chain; an indexer behind its channel agrees with it; a
    transfer of a wallet is admitted and is in the next block; and a private payment
    of a wallet, once in a block, is found by the recipient, who can prove that it is
    a member of the state.  [KeyTreeTheorems], [GroupKeys], [WalletTheorems]: shape and generation of key trees, cleanup, sealing, the
    invariant of key chains under all wallet operations, the storage round trip,
    every block is read, and what stops or empties a wallet.  [WalletTxTheorems],
    [TransferTheorems]: private payments arrive, which requests are refused, exactly
    when a public transfer is accepted and what it changes.  [CommandTheorems],
    [AccountTheorems], [SharedTheorems]: the private paths of the program commands are one kind of request,
    and the wallet stores what it sent; local commands keep the wallet a wallet, and
    one that fails leaves it as it was unless the writing of the file is what failed;
    members of a group share accounts, which take the state of any output for their keys.  [WalletFfiTheorems]: the C calls that send are the
    requests of the wallet, and a client that frees what it is handed neither leaks
    nor reaches undefined behaviour.  [IndexerFfi]: the answers of the indexer read
    back in C, which pointers are checked, and what freeing the answers leaves.
    [Instances] and the [*Samples] files hold concrete instances and
    the witnesses.

    ** Parameters and hypotheses

    Third-party code is a class: [Sha256], [ChaCha20], [Schnorr] ([Crypto]), [ZkVm],
    [RiscZeroBinary] ([Host]), [Receipts] ([Transactions]), [Borsh], [Serde],
    [HmacSha512], [K256], [Bip39] ([KeyDerivation]), [AesGcm] ([GroupKeys]),
    [ChainIndex.Itertools], the encodings of transactions and blocks ([Chain]),
    [CircuitProver] ([Prover]), [SchnorrSign] ([WalletTx]), [Base58] and [Hex]
    ([TextForms]), [ConfigText] and [ConfigFile] ([WalletCli]), [StorageFile] ([WalletCommands]), [KeyChainJson], [AccountJson] ([WalletFfi]) and the RPC clients
    [SequencerClient] ([WalletFacades]) and [ChainClient] ([AccountCommands]),
    [ZoneIndexer] and [CursorJson] ([IndexerService]), [IndexerClient] ([IndexerFfi]), [CheckpointJson]
    ([SequencerService]).
    What is assumed of them is a class of laws next to it, used only where it is
    needed: digests have 32 bytes, codecs round-trip, receipts verify only for
    executions that happened, the virtual machine returns values of the Rust types,
    the constant table of default nodes is the chain of their hashes, multiplication
    of curve points commutes, decryption undoes AES-GCM,
    permutations and [unique] enumerate what they should, a signature made with a key
    verifies under its public key ([SchnorrSignLaws]), a prover that succeeds has run
    the circuit ([ProverRuns]), text forms read back, the zone client gives the
    messages after a cursor in the order of the channel ([ZoneIndexerLaws]).  Absence of hash
    collisions is never a law; theorems that need it name the finitely many inputs.
    Clients of the sequencer are functions whose answers are arguments; where a
    theorem needs a node that answers from a state, it says so.  Whether the
    settlement layer accepts a block is an argument too: a node is [healthy] while it
    does and while a restart finds a checkpoint.

    ** Fuel

    Loops that are not structural take fuel, and theorems show that it is enough:
    [MAX_LOOP_FUEL] = 12 for chained calls (at most 11 are run), [PROVE_LOOP_FUEL]
    = 11 in the prover (at most 10), the length of the mempool plus one when a
    block is collected, [CHILD_FUEL] = 35 in the search for children (the gap
    halves from [2^32]), the number of nodes plus one in the search for a free
    slot, [2^depth + 1] for the generation of a tree, a weight of the index stack
    for the enumeration of indices, the number of missing blocks when polling with
    a positive chunk size, [TRY_FUEL] (one more than the attempts of the settings) and
    [poll_budget] when a wallet polls for a transaction.  The search of the
    pinata over the numbers below [2^128] recurses on their binary count.

    ** Bounds and representation

    Hash maps and [BTreeMap]s are [gmap]s; where the order of an iteration matters
    it is [BTree.iter] of [ChainIndex].  Databases are maps per column family and a batch is one
    update.  Integers are [Z] with the width at the operation; [usize] is 64 bits.
    Overflow checks of the profile are the class [OverflowChecks].

    ** Not modelled

    Proving and verification inside risc0, curves, ciphers and hashes other than
    SHA-256, base58, base64 and JSON texts, borsh encodings of blocks: third-party
    code or derived encodings, which are parameters.  RocksDB, the contents of files (whether the
    wallet can write its own is a parameter of the commands; synchronisation is taken
    to write its storage), logging, printed text and the context of error messages, the transport of RPC servers and clients,
    the zone SDK and the Bedrock node, timers, the explorer: they are input and
    output or glue around third-party code.  Examples and tests.  In [IndexerStore]
    the conversions of per-account transaction counts, which fail beyond [2^64], are
    left out; in [IndexerService] failures of the database and concurrent reads while
    a block is stored.  In the C interfaces spare capacity of vectors, messages on
    the standard error and the threads behind a lock are left out.

    ** Further work

    The admission of a private transaction, so that [private_payment_settles] starts
    from the command and not from the block; the programs of [test_program_methods]. *)

From Stdlib Require Export ZArith Lia.
From Stdlib.Strings Require Byte.
From stdpp Require Export base strings countable gmap fin_maps list.

#[global] Set Default Goal Selector "!".

Declare Scope lez_scope.
Delimit Scope lez_scope with lez.
Open Scope Z_scope.

(** ** Outcomes of Rust code

    A Rust function of this code base can return a value, return an error
    ([Result::Err]), or panic ([assert!], [expect], [unwrap], [panic!]).
    Guest programs only ever return or panic; host code does all three. *)
Inductive outcome (E A : Type) : Type :=
  | Ok (a : A)
  | Err (e : E)
  | Panic (msg : string).
Arguments Ok {E A} _.
Arguments Err {E A} _.
Arguments Panic {E A} _.

#[global] Instance outcome_ret E : MRet (outcome E) := fun A => Ok.
#[global] Instance outcome_bind E : MBind (outcome E) := fun A B f m =>
  match m with
  | Ok a => f a
  | Err e => Err e
  | Panic msg => Panic msg
  end.
#[global] Instance outcome_fmap E : FMap (outcome E) := fun A B f m =>
  match m with
  | Ok a => Ok (f a)
  | Err e => Err e
  | Panic msg => Panic msg
  end.
#[global] Instance outcome_eq_dec {E A} `{EqDecision E, EqDecision A} :
  EqDecision (outcome E A).
Proof. solve_decision. Defined.

(** [assert!(c, msg)] and [assert_eq!], [ensure!(c, err)], [expect], [ok_or]. *)
Definition assert_ {E} (c : bool) (msg : string) : outcome E () :=
  if c then Ok () else Panic msg.
Definition ensure {E} (c : bool) (err : E) : outcome E () :=
  if c then Ok () else Err err.
Definition expect {E A} (o : option A) (msg : string) : outcome E A :=
  match o with Some a => Ok a | None => Panic msg end.
Definition ok_or {E A} (o : option A) (err : E) : outcome E A :=
  match o with Some a => Ok a | None => Err err end.
(** [Result::map_err] (and the conversion done by [?]). *)
Definition map_err {E F A} (f : E -> F) (m : outcome E A) : outcome F A :=
  match m with Ok a => Ok a | Err e => Err (f e) | Panic msg => Panic msg end.

(** [Result::unwrap] *)
Definition unwrap {E F A} (m : outcome F A) : outcome E A :=
  match m with
  | Ok a => Ok a
  | Err _ => Panic "called `Result::unwrap()` on an `Err` value"
  | Panic msg => Panic msg
  end.

Definition is_ok {E A} (m : outcome E A) : bool :=
  match m with Ok _ => true | _ => false end.

(** Guest programs have no [Err]: their error type is empty. *)
Abbreviation guest := (outcome Empty_set).

(** Iterating an effectful body over a slice ([for x in xs { .. }]). *)
Fixpoint fold_o {E A S} (f : S -> A -> outcome E S) (s : S) (l : list A) : outcome E S :=
  match l with
  | [] => Ok s
  | x :: l => s' ← f s x; fold_o f s' l
  end.
Definition iter_o {E A} (f : A -> outcome E ()) (l : list A) : outcome E () :=
  fold_o (fun _ x => f x) () l.

(** ** Machine integers: a [w]-bit unsigned integer is a [Z] in [0, 2^w). *)
Definition u_bound (w : Z) : Z := 2 ^ w.
Definition in_u (w : Z) (z : Z) : Prop := 0 <= z < 2 ^ w.
#[global] Instance in_u_dec w z : Decision (in_u w z).
Proof. unfold in_u. apply _. Defined.
Definition u32_max : Z := 2 ^ 32 - 1.
Definition u64_max : Z := 2 ^ 64 - 1.
Definition u128_max : Z := 2 ^ 128 - 1.

Definition checked_add (w a b : Z) : option Z :=
  if decide (a + b < 2 ^ w) then Some (a + b) else None.
Definition checked_sub (a b : Z) : option Z :=
  if decide (b <= a) then Some (a - b) else None.
Definition checked_mul (w a b : Z) : option Z :=
  if decide (a * b < 2 ^ w) then Some (a * b) else None.
(** [overflowing_add]: the wrapped sum and the carry. *)
Definition overflowing_add (w a b : Z) : Z * bool :=
  ((a + b) mod 2 ^ w, bool_decide (2 ^ w <= a + b)).

(** The plain operators [+], [-], [*] of Rust depend on the build: with
    [overflow-checks] (debug and test profiles) they panic, without them
    (release profile, the one guest artifacts are built with) they wrap. *)
Class OverflowChecks := overflow_checks : bool.

Definition plain_op {E} `{OverflowChecks} (w z : Z) (what : string) : outcome E Z :=
  if decide (in_u w z) then Ok z
  else if overflow_checks then Panic ("attempt to " +:+ what +:+ " with overflow")
  else Ok (z mod 2 ^ w).
Definition plain_add {E} `{OverflowChecks} (w a b : Z) : outcome E Z :=
  plain_op w (a + b) "add".
Definition plain_sub {E} `{OverflowChecks} (w a b : Z) : outcome E Z :=
  plain_op w (a - b) "subtract".
Definition plain_mul {E} `{OverflowChecks} (w a b : Z) : outcome E Z :=
  plain_op w (a * b) "multiply".
(** Division panics on a zero divisor in every build. *)
Definition plain_div {E} (a b : Z) : outcome E Z :=
  if decide (b = 0) then Panic "attempt to divide by zero" else Ok (a / b).
(** [div_ceil] *)
Definition plain_div_ceil {E} (a b : Z) : outcome E Z :=
  if decide (b = 0) then Panic "attempt to divide by zero"
  else Ok (a / b + (if decide (a mod b = 0) then 0 else 1)).

(** ** Lists *)
Definition sum_Z (l : list Z) : Z := foldr Z.add 0 l.

(** [HashSet] cardinality of a slice: the number of distinct elements. *)
Definition n_distinct {A} `{EqDecision A} (l : list A) : nat :=
  length (remove_dups l).

(** ** Lemmas on outcomes *)
Section OutcomeLemmas.
Context {E : Type}.

Lemma bind_ok {A B} (m : outcome E A) (f : A -> outcome E B) b :
  (m ≫= f) = Ok b <-> exists a, m = Ok a /\ f a = Ok b.
Proof. destruct m; naive_solver. Qed.

Lemma bind_err {A B} (m : outcome E A) (f : A -> outcome E B) e :
  (m ≫= f) = Err e <-> m = Err e \/ exists a, m = Ok a /\ f a = Err e.
Proof. destruct m; naive_solver. Qed.

Lemma assert_ok c msg u : assert_ (E := E) c msg = Ok u <-> c = true.
Proof. destruct c, u; naive_solver. Qed.

Lemma unwrap_ok {G A} (m : outcome G A) a : unwrap (E := E) m = Ok a -> m = Ok a.
Proof. destruct m; cbn; congruence. Qed.
Lemma ensure_ok c (e : E) u : ensure c e = Ok u <-> c = true.
Proof. destruct c, u; naive_solver. Qed.

Lemma ensure_err c (e e' : E) : ensure c e = Err e' <-> c = false /\ e' = e.
Proof. destruct c; naive_solver. Qed.

Lemma expect_ok {A} (o : option A) msg a : expect (E := E) o msg = Ok a <-> o = Some a.
Proof. destruct o; naive_solver. Qed.

Lemma ok_or_ok {A} (o : option A) (e : E) a : ok_or o e = Ok a <-> o = Some a.
Proof. destruct o; naive_solver. Qed.

Lemma ok_inj {A} (a b : A) : Ok (E := E) a = Ok b <-> a = b.
Proof. naive_solver. Qed.

Lemma map_err_ok {F A} (f : E -> F) (m : outcome E A) a :
  map_err f m = Ok a <-> m = Ok a.
Proof. destruct m; naive_solver. Qed.

(** A run that evaluates to a value with a decidable property. *)
Lemma run_ok {A} (m : outcome E A) (p : A -> bool) :
  match m with Ok a => p a | _ => false end = true -> exists a, m = Ok a /\ p a = true.
Proof. destruct m; naive_solver. Qed.

Lemma fold_o_app {A S} (f : S -> A -> outcome E S) s l k :
  fold_o f s (l ++ k) = (s' ← fold_o f s l; fold_o f s' k).
Proof.
  revert s; induction l as [|x l IH]; intros s; [done|]. cbn.
  destruct (f s x); cbn; [apply IH|done..].
Qed.

Lemma fold_o_ext {A S} (f g : S -> A -> outcome E S) s l :
  (forall s x, f s x = g s x) -> fold_o f s l = fold_o g s l.
Proof.
  intros Hfg. revert s; induction l as [|x l IH]; intros s; [done|]. cbn.
  rewrite Hfg. destruct (g s x); cbn; [apply IH|done..].
Qed.

(** Loop rule: an invariant preserved by the body holds at the exit. *)
Lemma fold_o_inv {A S} (P : S -> Prop) (f : S -> A -> outcome E S) s l s' :
  (forall s x s', x ∈ l -> P s -> f s x = Ok s' -> P s') ->
  P s -> fold_o f s l = Ok s' -> P s'.
Proof.
  revert s; induction l as [|x l IH]; intros s Hf Hs Hrun; cbn in *.
  - by simplify_eq.
  - apply bind_ok in Hrun as (s1 & H1 & H2).
    eapply (IH s1); eauto.
    + intros s2 y s3 Hy. apply Hf. by right.
    + eapply Hf; eauto. by left.
Qed.

Lemma iter_o_ok {A} (f : A -> outcome E ()) l :
  iter_o f l = Ok () <-> Forall (fun x => f x = Ok ()) l.
Proof.
  unfold iter_o. induction l as [|x l IH]; cbn; [by split|]. split.
  - intros ([] & Hx & Hl)%bind_ok. constructor; [done|by apply IH].
  - intros [Hx Hl]%Forall_cons. apply bind_ok. exists (). split; [done|by apply IH].
Qed.
End OutcomeLemmas.

(** [inv_ok] turns a hypothesis [run = Ok r] into the facts of each step. *)
Ltac inv_ok_step :=
  match goal with
  | H : Err _ = Ok _ |- _ => discriminate H
  | H : Panic _ = Ok _ |- _ => discriminate H
  | H : Ok _ = Ok _ |- _ => injection H as H; try subst
  | H : mret _ = Ok _ |- _ => injection H as H; try subst
  | H : (_, _) = (_, _) |- _ => injection H as ??; try subst
  | H : assert_ _ _ = Ok _ |- _ => apply assert_ok in H
  | H : ensure _ _ = Ok _ |- _ => apply ensure_ok in H
  | H : expect _ _ = Ok _ |- _ => apply expect_ok in H
  | H : ok_or _ _ = Ok _ |- _ => apply ok_or_ok in H
  | H : map_err _ _ = Ok _ |- _ => apply map_err_ok in H
  | H : mbind _ _ = Ok _ |- _ =>
      let a := fresh "a" in let H1 := fresh "Hs" in
      apply bind_ok in H; destruct H as (a & H1 & H)
  | H : bool_decide _ = true |- _ => apply bool_decide_eq_true in H
  | H : (_ && _) = true |- _ => apply andb_true_iff in H as [??]
  | u : unit |- _ => destruct u
  end.
Ltac inv_ok := repeat inv_ok_step.

(** ** Lemmas on machine integers *)
Lemma checked_add_Some w a b c : checked_add w a b = Some c <-> a + b < 2 ^ w /\ c = a + b.
Proof. unfold checked_add. case_decide; naive_solver. Qed.
Lemma checked_sub_Some a b c : checked_sub a b = Some c <-> b <= a /\ c = a - b.
Proof. unfold checked_sub. case_decide; naive_solver. Qed.
Lemma checked_mul_Some w a b c : checked_mul w a b = Some c <-> a * b < 2 ^ w /\ c = a * b.
Proof. unfold checked_mul. case_decide; naive_solver. Qed.

Lemma checked_add_None w a b : checked_add w a b = None <-> 2 ^ w <= a + b.
Proof. unfold checked_add. case_decide; naive_solver lia. Qed.
Lemma checked_sub_None a b : checked_sub a b = None <-> a < b.
Proof. unfold checked_sub. case_decide; naive_solver lia. Qed.

Lemma plain_op_in {E} `{OverflowChecks} w z what :
  in_u w z -> plain_op (E := E) w z what = Ok z.
Proof. intros. unfold plain_op. by rewrite decide_True. Qed.

(** The result of a plain operator is a machine integer whatever the build. *)
Lemma plain_op_range {E} `{OverflowChecks} w z what r :
  0 <= w -> plain_op (E := E) w z what = Ok r -> in_u w r /\ r = z mod 2 ^ w.
Proof.
  intros Hw. unfold plain_op. case_decide as Hd; [|destruct overflow_checks]; intros ?; inv_ok.
  - split; [done|]. symmetry. by apply Z.mod_small.
  - split; [|done]. apply Z.mod_pos_bound. lia.
Qed.

Lemma plain_op_checked {E} w z what r :
  plain_op (E := E) (H := true) w z what = Ok r -> r = z /\ in_u w z.
Proof. unfold plain_op. case_decide; cbn; naive_solver. Qed.

Lemma plain_div_ok {E} a b r : plain_div (E := E) a b = Ok r <-> b <> 0 /\ r = a / b.
Proof. unfold plain_div. case_decide; naive_solver. Qed.

Lemma plain_div_ceil_ok {E} a b r :
  0 < b -> plain_div_ceil (E := E) a b = Ok r -> a <= r * b < a + b.
Proof.
  intros Hb. unfold plain_div_ceil. rewrite decide_False by lia.
  pose proof (Z.div_mod a b ltac:(lia)). pose proof (Z.mod_pos_bound a b Hb).
  case_decide; intros ?; inv_ok; nia.
Qed.

Lemma overflowing_add_spec w a b s c :
  0 <= w -> in_u w a -> in_u w b -> overflowing_add w a b = (s, c) ->
  in_u w s /\ s + (if c then 2 ^ w else 0) = a + b.
Proof.
  unfold overflowing_add, in_u. intros Hw Ha Hb [= <- <-].
  pose proof (Z.mod_pos_bound (a + b) (2 ^ w) ltac:(lia)).
  split; [done|]. case_bool_decide.
  - rewrite <- (Z.mod_unique (a + b) (2 ^ w) 1 (a + b - 2 ^ w)); lia.
  - rewrite Z.mod_small; lia.
Qed.

(** ** Lemmas on lists *)
Lemma sum_Z_app l k : sum_Z (l ++ k) = sum_Z l + sum_Z k.
Proof. unfold sum_Z. induction l; cbn; lia. Qed.

Lemma sum_Z_cons x l : sum_Z (x :: l) = x + sum_Z l.
Proof. done. Qed.

Lemma sum_Z_perm l k : l ≡ₚ k -> sum_Z l = sum_Z k.
Proof. induction 1; cbn; unfold sum_Z in *; lia. Qed.

Lemma sum_Z_nonneg l : Forall (fun z => 0 <= z) l -> 0 <= sum_Z l.
Proof. induction 1; cbn; [done|]. fold (sum_Z l). lia. Qed.

Lemma length_remove_dups_le {A} `{EqDecision A} (l : list A) :
  (length (remove_dups l) <= length l)%nat.
Proof. induction l as [|x l IH]; cbn; [done|]. case_decide; cbn; lia. Qed.

(** [iter().collect::<HashSet<_>>().len() == len()] says the list has no duplicate. *)
Lemma n_distinct_NoDup {A} `{EqDecision A} (l : list A) :
  n_distinct l = length l <-> NoDup l.
Proof.
  unfold n_distinct. induction l as [|x l IH]; cbn; [by split; [constructor|]|].
  pose proof (length_remove_dups_le l). rewrite NoDup_cons. case_decide as Hx; cbn.
  - split; [lia|naive_solver].
  - split.
    + intros [=Hl]. split; [done|]. by apply IH.
    + intros [_ Hn]. f_equal. by apply IH.
Qed.

Create HintDb lez discriminated.
Create Rewrite HintDb lez.
#[export] Hint Resolve sum_Z_nonneg : lez.
#[export] Hint Rewrite sum_Z_app sum_Z_cons : lez.
