(* ===== verification/Bytes.v ===== *)
(** Bytes, fixed-width little-endian integers and byte cursors.

    The sources handle bytes as [u8], arrays as [[u8; N]] and readers as
    [std::io::Cursor]; here a byte is [Byte.byte], an array is a list with a
    length, and a cursor is the list of bytes that are left to read. *)

From S2P Require Import Prelude.

Abbreviation byte := Byte.byte.

#[global] Instance byte_eq_dec : EqDecision byte := Byte.byte_eq_dec.
#[global] Program Instance byte_countable : Countable byte :=
  inj_countable Byte.to_N Byte.of_N _.
Next Obligation. apply Byte.of_to_N. Qed.

Definition byte_to_Z (b : byte) : Z := Z.of_N (Byte.to_N b).
(** [as u8]: the low eight bits. *)
Definition byte_of_Z (z : Z) : byte :=
  default Byte.x00 (Byte.of_N (Z.to_N (z mod 256))).

(** [uN::to_le_bytes] on [n] bytes, and [uN::from_le_bytes]. *)
Fixpoint le_bytes (n : nat) (z : Z) : list byte :=
  match n with
  | O => []
  | S n => byte_of_Z z :: le_bytes n (z / 256)
  end.
Fixpoint le_value (l : list byte) : Z :=
  match l with
  | [] => 0
  | b :: l => byte_to_Z b + 256 * le_value l
  end.

(** [words.iter().flat_map(|w| w.to_le_bytes())] for [[u32; 8]], which is
    also what [bytemuck::cast_slice] yields on the little-endian guest. *)
Definition words_bytes (ws : list Z) : list byte := ws ≫= le_bytes 4.

(** The bytes of a Rust byte-string literal [b"..."]. *)
Definition bstr (s : string) : list byte := String.list_byte_of_string s.
Definition zeros (n : nat) : list byte := replicate n Byte.x00.

(** ** Cursors *)
Inductive IoError := UnexpectedEof | InvalidData (what : string).
#[global] Instance IoError_eq_dec : EqDecision IoError.
Proof. solve_decision. Defined.

(** [Read::read_exact] of [n] bytes: the bytes and the rest of the cursor. *)
Definition read_exact (n : nat) (cursor : list byte) : outcome IoError (list byte * list byte) :=
  if decide (n <= length cursor)%nat then Ok (take n cursor, drop n cursor)
  else Err UnexpectedEof.

(** Reads [n] consecutive little-endian [u32] words. *)
Fixpoint read_words (n : nat) (cursor : list byte) : outcome IoError (list Z * list byte) :=
  match n with
  | O => Ok ([], cursor)
  | S n =>
      '(bs, cursor) ← read_exact 4 cursor;
      '(ws, cursor) ← read_words n cursor;
      Ok (le_value bs :: ws, cursor)
  end.

(** ** Lemmas *)
Lemma byte_to_Z_range b : 0 <= byte_to_Z b < 256.
Proof.
  unfold byte_to_Z. pose proof (Byte.to_N_bounded b). lia.
Qed.

Lemma byte_to_of_Z z : byte_to_Z (byte_of_Z z) = z mod 256.
Proof.
  unfold byte_to_Z, byte_of_Z.
  pose proof (Z.mod_pos_bound z 256 ltac:(lia)).
  destruct (Byte.of_N (Z.to_N (z mod 256))) as [b|] eqn:Hb; cbn.
  - apply Byte.to_of_N in Hb. rewrite Hb. lia.
  - apply Byte.of_N_None_iff in Hb. lia.
Qed.

Lemma byte_of_to_Z b : byte_of_Z (byte_to_Z b) = b.
Proof.
  unfold byte_of_Z. pose proof (byte_to_Z_range b).
  rewrite Z.mod_small by done. unfold byte_to_Z. rewrite N2Z.id.
  by rewrite Byte.of_to_N.
Qed.

#[global] Instance byte_to_Z_inj : Inj (=) (=) byte_to_Z.
Proof. intros a b Hab. by rewrite <- (byte_of_to_Z a), Hab, byte_of_to_Z. Qed.

Lemma length_le_bytes n z : length (le_bytes n z) = n.
Proof. revert z; induction n; intros; cbn; auto. Qed.

Lemma le_value_bytes n z : le_value (le_bytes n z) = z mod 2 ^ (8 * Z.of_nat n).
Proof.
  revert z; induction n as [|n IH]; intros z; cbn [le_bytes le_value].
  - by rewrite Z.mul_0_r, Z.mod_1_r.
  - rewrite IH, byte_to_of_Z. rewrite Nat2Z.inj_succ, Z.mul_succ_r.
    rewrite Z.pow_add_r by lia. change (2 ^ 8) with 256.
    rewrite (Z.mul_comm _ 256), Z.rem_mul_r by lia. lia.
Qed.

(** Round trip of [to_le_bytes]/[from_le_bytes] at the integer's width. *)
Lemma le_value_bytes_in n w z :
  w = 8 * Z.of_nat n -> in_u w z -> le_value (le_bytes n z) = z.
Proof. intros -> Hz. rewrite le_value_bytes. by apply Z.mod_small. Qed.

Lemma le_value_range l : 0 <= le_value l < 2 ^ (8 * Z.of_nat (length l)).
Proof.
  induction l as [|b l IH]; cbn [le_value length].
  - by rewrite Z.mul_0_r.
  - pose proof (byte_to_Z_range b).
    rewrite Nat2Z.inj_succ, Z.mul_succ_r, Z.pow_add_r by lia.
    change (2 ^ 8) with 256. lia.
Qed.

Lemma le_bytes_value l : le_bytes (length l) (le_value l) = l.
Proof.
  induction l as [|b l IH]; cbn [le_value length le_bytes]; [done|].
  pose proof (byte_to_Z_range b). f_equal.
  - rewrite <- (byte_of_to_Z b) at 2. unfold byte_of_Z.
    by rewrite (Z.mul_comm 256), Z.mod_add by lia.
  - rewrite Z.mul_comm, Z.div_add, Z.div_small by lia. exact IH.
Qed.

Lemma le_bytes_inj n w z z' :
  w = 8 * Z.of_nat n -> in_u w z -> in_u w z' -> le_bytes n z = le_bytes n z' -> z = z'.
Proof.
  intros Hw Hz Hz' Heq.
  by rewrite <- (le_value_bytes_in n w z), Heq, (le_value_bytes_in n w z').
Qed.

Lemma length_words_bytes ws : length (words_bytes ws) = (4 * length ws)%nat.
Proof. unfold words_bytes. induction ws; cbn in *; lia. Qed.

Lemma read_exact_app bs rest n :
  n = length bs -> read_exact n (bs ++ rest) = Ok (bs, rest).
Proof.
  intros ->. unfold read_exact. rewrite length_app, decide_True by lia.
  by rewrite take_app_length, drop_app_length.
Qed.

Lemma read_exact_ok n c bs c' :
  read_exact n c = Ok (bs, c') <-> c = bs ++ c' /\ length bs = n.
Proof.
  unfold read_exact. split.
  - case_decide; intros ?; inv_ok. rewrite take_drop, length_take. split; [done|lia].
  - intros [-> <-]. by apply read_exact_app.
Qed.

Lemma read_words_app ws rest n :
  n = length ws -> Forall (in_u 32) ws ->
  read_words n (words_bytes ws ++ rest) = Ok (ws, rest).
Proof.
  intros ->. induction 1 as [|w ws Hw Hws IH]; [done|].
  change (words_bytes (w :: ws)) with (le_bytes 4 w ++ words_bytes ws).
  cbn [length read_words].
  rewrite <- app_assoc, read_exact_app by (by rewrite length_le_bytes).
  cbn [mbind outcome_bind]. rewrite IH.
  cbn [mbind outcome_bind]. by rewrite (le_value_bytes_in 4 32).
Qed.

#[export] Hint Rewrite length_le_bytes length_words_bytes : lez.

(** What a cursor yields re-encodes to what it consumed. *)
Lemma read_exact_value n c bs c' w :
  read_exact n c = Ok (bs, c') -> w = 8 * Z.of_nat n -> in_u w (le_value bs) /\ le_bytes n (le_value bs) = bs.
Proof.
  intros [_ <-]%read_exact_ok ->. split; [apply le_value_range|apply le_bytes_value].
Qed.

Lemma read_words_ok n c ws c' :
  read_words n c = Ok (ws, c') -> c = words_bytes ws ++ c' /\ length ws = n /\ Forall (in_u 32) ws.
Proof.
  revert c ws c'; induction n as [|n IH]; intros c ws c' Hr; cbn [read_words] in Hr.
  - by inv_ok.
  - apply bind_ok in Hr as ([bs c1] & Hb & Hr). apply bind_ok in Hr as ([ws1 c2] & Hw & Hr).
    injection Hr as <- <-. pose proof (read_exact_value 4 c bs c1 32 Hb eq_refl) as [Hin Hle].
    apply read_exact_ok in Hb as [-> _]. apply IH in Hw as (-> & Hl & Hf).
    change (words_bytes (le_value bs :: ws1)) with (le_bytes 4 (le_value bs) ++ words_bytes ws1).
    rewrite Hle, <- app_assoc. split; [done|]. split; [cbn; lia|]. by constructor.
Qed.
