(* ===== verification/Crypto.v ===== *)
(** Interfaces of the third-party code the sources call.

    SHA-256 ([risc0_zkvm::sha::Impl], [sha2]), ChaCha20 ([chacha20]), Schnorr
    signatures ([k256]) are not part of the repository: they are
    parameters of the model, declared here as classes. What a theorem needs of
    them is a law class, assumed by name where it is used.

    [sha256] is an executable SHA-256 (FIPS 180-4), used to instantiate the
    first parameter in examples and witnesses, never in a model definition. *)

From S2P Require Import Prelude Bytes.

(** ** Parameters *)

(** [Impl::hash_bytes] / [Sha256::digest]. *)
Class Sha256 := hash_bytes : list byte -> list byte.
Class Sha256Laws `{Sha256} := {
  length_hash_bytes l : length (hash_bytes l) = 32%nat;
}.

(** [ChaCha20::new(&key, &[0; 12])]: the key stream, byte by byte. *)
Class ChaCha20 := chacha_keystream : list byte -> nat -> byte.

(** [k256::schnorr::VerifyingKey::from_bytes], [Signature::try_from] and
    [verify_raw]: key bytes, prehashed message and signature bytes. *)
Class Schnorr := {
  schnorr_key_valid : list byte -> bool;
  schnorr_signature_valid : list byte -> bool;
  schnorr_verify_raw : list byte -> list byte -> list byte -> bool;
}.

(** ** An executable SHA-256 *)
Module Sha256Impl.
Definition is_prime (n : nat) : bool :=
  forallb (fun d => negb (Nat.eqb (n mod d) 0)) (seq 2 (n - 2)).
Definition primes64 : list Z := map Z.of_nat (List.filter is_prime (seq 2 310)).

(** The integer cube root, bit by bit from the bit above its highest one. *)
Definition cube_root (bits : nat) (z : Z) : Z :=
  foldl (fun r i => let r' := Z.lor r (Z.shiftl 1 (Z.of_nat i)) in if r' * r' * r' <=? z then r' else r)
    0 (rev (seq 0 bits)).

(** The round constants are the first 32 bits of the fractional parts of the
    cube roots of the first 64 primes, the initial hash those of the square
    roots of the first eight. *)
Definition k_table : list Z :=
  Eval vm_compute in map (fun p => cube_root 40 (Z.shiftl p 96) mod 2 ^ 32) primes64.
Definition h_init : list Z :=
  Eval vm_compute in map (fun p => Z.sqrt (Z.shiftl p 64) mod 2 ^ 32) (take 8 primes64).

Definition w32 (z : Z) : Z := Z.land z 0xffffffff.
Definition rotr (n x : Z) : Z := Z.lor (Z.shiftr x n) (w32 (Z.shiftl x (32 - n))).
Definition ssig0 x := Z.lxor (Z.lxor (rotr 7 x) (rotr 18 x)) (Z.shiftr x 3).
Definition ssig1 x := Z.lxor (Z.lxor (rotr 17 x) (rotr 19 x)) (Z.shiftr x 10).
Definition bsig0 x := Z.lxor (Z.lxor (rotr 2 x) (rotr 13 x)) (rotr 22 x).
Definition bsig1 x := Z.lxor (Z.lxor (rotr 6 x) (rotr 11 x)) (rotr 25 x).
Definition ch x y z := Z.lxor (Z.land x y) (Z.land (w32 (Z.lnot x)) z).
Definition maj x y z := Z.lxor (Z.lxor (Z.land x y) (Z.land x z)) (Z.land y z).

Definition be_word (l : list byte) : Z := foldl (fun a b => 256 * a + byte_to_Z b) 0 l.
Definition be_bytes (n : nat) (z : Z) : list byte := rev (le_bytes n z).

Fixpoint words (n : nat) (l : list byte) : list Z :=
  match n with O => [] | S n => be_word (take 4 l) :: words n (drop 4 l) end.

(** Message schedule; the list is kept in reverse order. *)
Fixpoint schedule (n : nat) (rw : list Z) : list Z :=
  match n with
  | O => rw
  | S n =>
      let nth i := default 0 (rw !! i) in
      schedule n (w32 (ssig1 (nth 1%nat) + nth 6%nat + ssig0 (nth 14%nat) + nth 15%nat) :: rw)
  end.

Definition round (st : list Z) (kw : Z * Z) : list Z :=
  match st with
  | [a; b; c; d; e; f; g; h] =>
      let t1 := h + bsig1 e + ch e f g + kw.1 + kw.2 in
      let t2 := bsig0 a + maj a b c in
      [w32 (t1 + t2); a; b; c; w32 (d + t1); e; f; g]
  | _ => st
  end.
Definition compress (st : list Z) (block : list byte) : list Z :=
  let ws := rev (schedule 48 (rev (words 16 block))) in
  zip_with (fun x y => w32 (x + y)) st (foldl round st (zip k_table ws)).

Fixpoint blocks (n : nat) (st : list Z) (l : list byte) : list Z :=
  match n with O => st | S n => blocks n (compress st (take 64 l)) (drop 64 l) end.

Definition pad (l : list byte) : list byte :=
  let len := Z.of_nat (length l) in
  l ++ [Byte.x80] ++ zeros (Z.to_nat ((55 - len) mod 64)) ++ be_bytes 8 (8 * len).

Definition sha256 (l : list byte) : list byte :=
  let p := pad l in
  blocks (Z.to_nat (Z.of_nat (length p) / 64)) h_init p ≫= be_bytes 4.
End Sha256Impl.

(** ** Facts about the executable SHA-256 *)
Module Sha256Facts.
Import Sha256Impl.

Lemma length_round st kw : length (round st kw) = length st.
Proof. by destruct st as [|? [|? [|? [|? [|? [|? [|? [|? [|]]]]]]]]]. Qed.

Lemma length_rounds st kws : length (foldl round st kws) = length st.
Proof. revert st; induction kws as [|kw kws IH]; intros st; cbn; [done|]. by rewrite IH, length_round. Qed.

Lemma length_blocks n st l : length st = 8%nat -> length (blocks n st l) = 8%nat.
Proof.
  revert st l; induction n as [|n IH]; intros st l Hst; cbn [blocks]; [done|].
  apply IH. unfold compress. rewrite length_zip_with, length_rounds. lia.
Qed.

Lemma sha256_laws : @Sha256Laws sha256.
Proof.
  constructor. intros l. unfold hash_bytes, sha256.
  assert (Hlen : forall ws, length (ws ≫= be_bytes 4) = (4 * length ws)%nat).
  { induction ws as [|w ws IH]; [done|].
    change ((w :: ws) ≫= be_bytes 4) with (be_bytes 4 w ++ (ws ≫= be_bytes 4)).
    rewrite length_app, IH. unfold be_bytes. rewrite length_rev, length_le_bytes. cbn. lia. }
  by rewrite Hlen, length_blocks.
Qed.

(** FIPS 180-4 test vector for the message ["abc"]. *)
Example sha256_abc :
  sha256 (bstr "abc") =
    be_bytes 32 0xba7816bf8f01cfea414140de5dae2223b00361a396177a9cb410ff61f20015ad.
Proof. vm_compute. reflexivity. Qed.
End Sha256Facts.
