(* ===== verification/Account.v ===== *)
(** Accounts: [nssa/core/src/account.rs], [account/data.rs] and the byte
    encodings of [encoding.rs].

    An [Account] is the record of the source; [Data] is a byte vector whose
    constructors enforce the 100 KiB limit; an [AccountId] is 32 bytes. *)

From S2P Require Import Prelude Bytes Crypto.

(** ** Data model *)

Abbreviation ProgramId := (list Z).
Definition DEFAULT_PROGRAM_ID : ProgramId := replicate 8 0.

Abbreviation Balance := Z.
Abbreviation Nonce := Z.
Abbreviation BlockId := Z.
Abbreviation Timestamp := Z.
Abbreviation Identifier := Z.
Abbreviation NullifierSecretKey := (list byte).

Definition GENESIS_BLOCK_ID : BlockId := 1.

Record AccountId := AccountId_new { value : list byte }.
#[global] Instance AccountId_eq_dec : EqDecision AccountId.
Proof. solve_decision. Defined.
#[global] Program Instance AccountId_countable : Countable AccountId :=
  inj_countable' value AccountId_new _.
Next Obligation. by intros []. Qed.

(** [Data(Vec<u8>)]; [DATA_MAX_LENGTH = ByteSize::kib(100)]. *)
Record Data := mk_Data { data_bytes : list byte }.
#[global] Instance Data_eq_dec : EqDecision Data.
Proof. solve_decision. Defined.
Definition DATA_MAX_LENGTH : Z := 100 * 1024.
Definition Data_default : Data := mk_Data [].
Inductive DataTooBigError := DataTooBig.

Record Account := mk_Account {
  program_owner : ProgramId;
  balance : Balance;
  data : Data;
  nonce : Nonce;
}.
#[global] Instance Account_eq_dec : EqDecision Account.
Proof. solve_decision. Defined.
(** [#[derive(Default)]] *)
Definition Account_default : Account := mk_Account DEFAULT_PROGRAM_ID 0 Data_default 0.

Record AccountWithMetadata := mk_AWM {
  account : Account;
  is_authorized : bool;
  account_id : AccountId;
}.
#[global] Instance AccountWithMetadata_eq_dec : EqDecision AccountWithMetadata.
Proof. solve_decision. Defined.
(** [AccountWithMetadata::new] *)
Definition AccountWithMetadata_new (a : Account) (auth : bool) (id : AccountId) :=
  mk_AWM a auth id.

(** Assignments to one field ([post.balance = ..]). *)
Definition set_program_owner (p : ProgramId) (a : Account) : Account :=
  mk_Account p (balance a) (data a) (nonce a).
Definition set_balance (b : Balance) (a : Account) : Account :=
  mk_Account (program_owner a) b (data a) (nonce a).
Definition set_data (d : Data) (a : Account) : Account :=
  mk_Account (program_owner a) (balance a) d (nonce a).
Definition set_nonce (n : Nonce) (a : Account) : Account :=
  mk_Account (program_owner a) (balance a) (data a) n.
(** [AccountWithMetadata { is_authorized: true, ..pre }] *)
Definition authorized (pre : AccountWithMetadata) : AccountWithMetadata :=
  mk_AWM (account pre) true (account_id pre).

(** Values that fit the Rust types. *)
Definition ProgramId_wf (p : ProgramId) : Prop := length p = 8%nat /\ Forall (in_u 32) p.
Definition Data_wf (d : Data) : Prop := Z.of_nat (length (data_bytes d)) <= DATA_MAX_LENGTH.
Definition Account_wf (a : Account) : Prop :=
  ProgramId_wf (program_owner a) /\ in_u 128 (balance a) /\ Data_wf (data a) /\ in_u 128 (nonce a).
Definition AccountId_wf (id : AccountId) : Prop := length (value id) = 32%nat.
#[global] Instance Account_wf_dec a : Decision (Account_wf a).
Proof. unfold Account_wf, ProgramId_wf, Data_wf. apply _. Defined.

(** ** data.rs *)

(** [TryFrom<Vec<u8>> for Data] *)
Definition Data_try_from (v : list byte) : outcome DataTooBigError Data :=
  if decide (Z.of_nat (length v) > DATA_MAX_LENGTH) then Err DataTooBig else Ok (mk_Data v).

Inductive NssaCoreError :=
  | DeserializationError (what : string)
  | Io (e : IoError).
#[global] Instance NssaCoreError_eq_dec : EqDecision NssaCoreError.
Proof. solve_decision. Defined.

Definition core_io {A} (m : outcome IoError A) : outcome NssaCoreError A := map_err Io m.

(** [Data::from_cursor] *)
Definition Data_from_cursor (cursor : list byte) : outcome NssaCoreError (Data * list byte) :=
  '(u32_bytes, cursor) ← core_io (read_exact 4 cursor);
  let data_length := le_value u32_bytes in
  if decide (data_length > DATA_MAX_LENGTH) then Err (Io (InvalidData "DataTooBigError"))
  else
    '(bs, cursor) ← core_io (read_exact (Z.to_nat data_length) cursor);
    Ok (mk_Data bs, cursor).

(** [DataVisitor::visit_seq]: the elements arrive one at a time and the
    length is checked before each push. *)
Fixpoint visit_seq (seq : list byte) (vec : list byte) : outcome DataTooBigError Data :=
  match seq with
  | [] => Ok (mk_Data vec)
  | b :: seq =>
      if decide (Z.of_nat (length vec) >= DATA_MAX_LENGTH) then Err DataTooBig
      else visit_seq seq (vec ++ [b])
  end.

(** ** account.rs: nonces *)
Section Nonces.
Context `{Sha256}.

(** [Nonce::public_account_nonce_increment] *)
Definition public_account_nonce_increment {E} (n : Nonce) : outcome E Nonce :=
  expect (checked_add 128 n 1) "Overflow when incrementing nonce".

(** [Nonce::private_account_nonce_init] *)
Definition private_account_nonce_init (id : AccountId) : Nonce :=
  le_value (take 16 (hash_bytes (value id ++ zeros 32))).

(** [Nonce::private_account_nonce_increment] *)
Definition private_account_nonce_increment (n : Nonce) (nsk : NullifierSecretKey) : Nonce :=
  le_value (take 16 (hash_bytes (nsk ++ le_bytes 16 n ++ zeros 16))).
End Nonces.

(** ** encoding.rs: [Account::to_bytes] and [Account::from_cursor] *)
Definition Account_to_bytes {E} (a : Account) : outcome E (list byte) :=
  let len := Z.of_nat (length (data_bytes (data a))) in
  data_length ← expect (if decide (in_u 32 len) then Some len else None) "Invalid u32";
  Ok (words_bytes (program_owner a) ++ le_bytes 16 (balance a) ++ le_bytes 16 (nonce a)
      ++ le_bytes 4 data_length ++ data_bytes (data a)).

Definition Account_from_cursor (cursor : list byte) : outcome NssaCoreError (Account * list byte) :=
  '(owner, cursor) ← core_io (read_words 8 cursor);
  '(balance_bytes, cursor) ← core_io (read_exact 16 cursor);
  '(nonce_bytes, cursor) ← core_io (read_exact 16 cursor);
  '(d, cursor) ← Data_from_cursor cursor;
  Ok (mk_Account owner (le_value balance_bytes) d (le_value nonce_bytes), cursor).

(** ** Lemmas *)
Lemma Account_default_wf : Account_wf Account_default.
Proof. by apply (bool_decide_unpack _). Qed.

Lemma Data_try_from_ok v d :
  Data_try_from v = Ok d <-> d = mk_Data v /\ Data_wf d.
Proof.
  unfold Data_try_from, Data_wf. case_decide; split.
  - intros ?; inv_ok.
  - intros [-> ?]. cbn in *. lia.
  - intros ?; inv_ok. cbn. split; [done|lia].
  - by intros [-> _].
Qed.

Lemma visit_seq_spec seq vec :
  Z.of_nat (length vec) <= DATA_MAX_LENGTH -> visit_seq seq vec = Data_try_from (vec ++ seq).
Proof.
  revert vec; induction seq as [|b seq IH]; intros vec Hvec; cbn [visit_seq].
  - unfold Data_try_from. rewrite app_nil_r, decide_False by lia. done.
  - case_decide.
    + unfold Data_try_from. rewrite length_app. cbn. by rewrite decide_True by lia.
    + rewrite IH; [by rewrite <- app_assoc|]. rewrite length_app. cbn. lia.
Qed.

Lemma Account_to_bytes_ok {E} a : Account_wf a -> is_ok (Account_to_bytes (E := E) a) = true.
Proof.
  intros (_ & _ & Hd & _). unfold Account_to_bytes, Data_wf, DATA_MAX_LENGTH in *.
  rewrite decide_True by (unfold in_u; lia). done.
Qed.

Lemma Data_from_cursor_app (v : list byte) rest :
  Z.of_nat (length v) <= DATA_MAX_LENGTH ->
  Data_from_cursor (le_bytes 4 (Z.of_nat (length v)) ++ v ++ rest) = Ok (mk_Data v, rest).
Proof.
  intros Hv. unfold Data_from_cursor.
  rewrite read_exact_app by (by rewrite length_le_bytes). cbn [core_io map_err mbind outcome_bind].
  rewrite (le_value_bytes_in 4 32) by (unfold in_u, DATA_MAX_LENGTH in *; lia).
  rewrite decide_False by lia. rewrite Nat2Z.id.
  by rewrite read_exact_app.
Qed.

(** Whatever [from_cursor] accepts respects the size limit. *)
Lemma Data_from_cursor_wf c d c' : Data_from_cursor c = Ok (d, c') -> Data_wf d.
Proof.
  unfold Data_from_cursor, core_io. intros ?; inv_ok. destruct a as [bs c1].
  case_decide; inv_ok. destruct a as [v c2]. inv_ok.
  apply read_exact_ok in Hs0 as [_ Hv]. unfold Data_wf. cbn.
  pose proof (le_value_range bs). lia.
Qed.

Lemma Account_from_to_bytes {E} a rest :
  Account_wf a ->
  exists bs, Account_to_bytes (E := E) a = Ok bs /\ Account_from_cursor (bs ++ rest) = Ok (a, rest).
Proof.
  intros ([Hp1 Hp2] & Hb & Hd & Hn). unfold Account_to_bytes.
  pose proof Hd as Hd'. unfold Data_wf, DATA_MAX_LENGTH in Hd'.
  rewrite decide_True by (unfold in_u; lia). cbn [mbind outcome_bind expect].
  eexists. split; [done|]. unfold Account_from_cursor.
  rewrite <- !app_assoc. rewrite read_words_app by done. cbn [mbind outcome_bind core_io map_err].
  rewrite read_exact_app by (by rewrite length_le_bytes). cbn [mbind outcome_bind core_io map_err].
  rewrite read_exact_app by (by rewrite length_le_bytes). cbn [mbind outcome_bind core_io map_err].
  rewrite Data_from_cursor_app by done. cbn [mbind outcome_bind].
  rewrite !(le_value_bytes_in 16 128) by done. by destruct a as [? ? [] ?].
Qed.

Lemma Data_from_cursor_ok c d c' :
  Data_from_cursor c = Ok (d, c') ->
  Data_wf d /\ c = le_bytes 4 (Z.of_nat (length (data_bytes d))) ++ data_bytes d ++ c'.
Proof.
  intros H. pose proof (Data_from_cursor_wf c d c' H) as Hwf. split; [done|].
  unfold Data_from_cursor, core_io in H. apply bind_ok in H as ([bs c1] & Hb & H). cbn in H.
  apply (proj1 (map_err_ok _ _ _)) in Hb. case_decide as Hlen; [done|].
  apply bind_ok in H as ([v c2] & Hv & H). apply (proj1 (map_err_ok _ _ _)) in Hv. injection H as <- <-.
  pose proof (read_exact_value 4 c bs c1 32 Hb eq_refl) as [Hin Hle].
  apply read_exact_ok in Hb as [-> _]. apply read_exact_ok in Hv as [-> Hl]. cbn [data_bytes].
  unfold in_u in Hin. by rewrite Hl, Z2Nat.id, Hle by lia.
Qed.

Lemma Account_from_cursor_canonical {E} c a rest :
  Account_from_cursor c = Ok (a, rest) ->
  Account_wf a /\ exists bs, Account_to_bytes (E := E) a = Ok bs /\ c = bs ++ rest.
Proof.
  unfold Account_from_cursor, core_io. intros H.
  apply bind_ok in H as ([p c1] & Hp & H). apply bind_ok in H as ([b c2] & Hb & H).
  apply bind_ok in H as ([n c3] & Hn & H). apply bind_ok in H as ([d c4] & Hd & H).
  apply (proj1 (map_err_ok _ _ _)) in Hp, Hb, Hn. injection H as <- <-.
  apply read_words_ok in Hp as (-> & Hl & Hf).
  pose proof (read_exact_value 16 c1 b c2 128 Hb eq_refl) as [Hbin Hble].
  pose proof (read_exact_value 16 c2 n c3 128 Hn eq_refl) as [Hnin Hnle].
  apply read_exact_ok in Hb as [-> _]. apply read_exact_ok in Hn as [-> _].
  apply Data_from_cursor_ok in Hd as [Hdwf ->]. split; [by split_and!|].
  unfold Account_to_bytes. pose proof Hdwf as Hd'. unfold Data_wf, DATA_MAX_LENGTH in Hd'. cbn [data].
  rewrite decide_True by (unfold in_u; lia). cbn [expect mbind outcome_bind program_owner balance nonce].
  eexists. split; [done|]. rewrite Hble, Hnle, <- !app_assoc. done.
Qed.
