(* ===== verification/Ids.v ===== *)
(** Identifiers, commitments and nullifiers: [nssa/core/src/commitment.rs],
    [nullifier.rs], the PDA section of [program.rs] and
    [nssa/src/signature/public_key.rs] (account ids of public keys).

    Every identifier is a domain-separated SHA-256 digest; the separators and
    layouts are those of the source. *)

From S2P Require Import Prelude Bytes Crypto Account.

(** ** Data *)
Record Commitment := mk_Commitment { commitment_bytes : list byte }.
Record Nullifier := mk_Nullifier { nullifier_bytes : list byte }.
Record NullifierPublicKey := mk_Npk { npk_bytes : list byte }.
Record PdaSeed := PdaSeed_new { seed_bytes : list byte }.
Abbreviation CommitmentSetDigest := (list byte).
(** [(usize, Vec<[u8; 32]>)] *)
Abbreviation MembershipProof := (Z * list (list byte))%type.

#[global] Instance Commitment_eq_dec : EqDecision Commitment.
Proof. solve_decision. Defined.
#[global] Instance Nullifier_eq_dec : EqDecision Nullifier.
Proof. solve_decision. Defined.
#[global] Instance NullifierPublicKey_eq_dec : EqDecision NullifierPublicKey.
Proof. solve_decision. Defined.
#[global] Instance PdaSeed_eq_dec : EqDecision PdaSeed.
Proof. solve_decision. Defined.
#[global] Program Instance Commitment_countable : Countable Commitment :=
  inj_countable' commitment_bytes mk_Commitment _.
Next Obligation. by intros []. Qed.
#[global] Program Instance Nullifier_countable : Countable Nullifier :=
  inj_countable' nullifier_bytes mk_Nullifier _.
Next Obligation. by intros []. Qed.
#[global] Program Instance PdaSeed_countable : Countable PdaSeed :=
  inj_countable' seed_bytes PdaSeed_new _.
Next Obligation. by intros []. Qed.

Definition of_bytes (l : list Z) : list byte := byte_of_Z <$> l.

(** [DUMMY_COMMITMENT] and [DUMMY_COMMITMENT_HASH] *)
Definition DUMMY_COMMITMENT : Commitment := mk_Commitment (of_bytes [
  55; 228; 215; 207; 112; 221; 239; 49; 238; 79; 71; 135; 155; 15; 184; 45; 104; 74; 51; 211;
  238; 42; 160; 243; 15; 124; 253; 62; 3; 229; 90; 27]).
Definition DUMMY_COMMITMENT_HASH : list byte := of_bytes [
  250; 237; 192; 113; 155; 101; 119; 30; 235; 183; 20; 84; 26; 32; 196; 229; 154; 74; 254; 249;
  129; 241; 118; 39; 41; 253; 141; 171; 184; 71; 8; 41].

(** [PrivateAccountKind] *)
Inductive PrivateAccountKind :=
  | Regular (identifier : Identifier)
  | Pda (program_id : ProgramId) (seed : PdaSeed) (identifier : Identifier).
#[global] Instance PrivateAccountKind_eq_dec : EqDecision PrivateAccountKind.
Proof. solve_decision. Defined.
Definition HEADER_LEN : nat := 81.
Definition kind_identifier (k : PrivateAccountKind) : Identifier :=
  match k with Regular i | Pda _ _ i => i end.
Definition PrivateAccountKind_wf (k : PrivateAccountKind) : Prop :=
  in_u 128 (kind_identifier k) /\
  match k with
  | Regular _ => True
  | Pda p s _ => ProgramId_wf p /\ length (seed_bytes s) = 32%nat
  end.

(** The borsh layout given in the documentation of [HEADER_LEN]. *)
Definition kind_borsh (k : PrivateAccountKind) : list byte :=
  match k with
  | Regular i => Byte.x00 :: le_bytes 16 i
  | Pda p s i => Byte.x01 :: words_bytes p ++ seed_bytes s ++ le_bytes 16 i
  end.

(** [PrivateAccountKind::to_header_bytes]: the serialisation is copied over
    the prefix of a zero array of [HEADER_LEN] bytes. *)
Definition to_header_bytes (k : PrivateAccountKind) : list byte :=
  let serialized := kind_borsh k in
  serialized ++ zeros (HEADER_LEN - length serialized).

(** [PrivateAccountKind::from_header_bytes] *)
Definition from_header_bytes (bytes : list byte) : option PrivateAccountKind :=
  let parse : outcome IoError PrivateAccountKind :=
    '(tag, bytes) ← read_exact 1 bytes;
    match tag with
    | [Byte.x00] =>
        '(i, _) ← read_exact 16 bytes;
        Ok (Regular (le_value i))
    | [Byte.x01] =>
        '(p, bytes) ← read_words 8 bytes;
        '(s, bytes) ← read_exact 32 bytes;
        '(i, _) ← read_exact 16 bytes;
        Ok (Pda p (PdaSeed_new s) (le_value i))
    | _ => Err (InvalidData "unexpected variant tag")
    end in
  match parse with Ok k => Some k | _ => None end.

Section Derivations.
Context `{Sha256}.

(** [Commitment::new] *)
Definition COMMITMENT_PREFIX : list byte := bstr "/LEE/v0.3/Commitment/" ++ zeros 11.
Definition Commitment_new (id : AccountId) (a : Account) : Commitment :=
  let hashed_data := hash_bytes (data_bytes (data a)) in
  let account_bytes_with_hashed_data :=
    words_bytes (program_owner a) ++ le_bytes 16 (balance a) ++ le_bytes 16 (nonce a)
    ++ hashed_data in
  mk_Commitment (hash_bytes (COMMITMENT_PREFIX ++ value id ++ account_bytes_with_hashed_data)).

(** [compute_digest_for_path] *)
Definition compute_digest_for_path (c : Commitment) (proof : MembershipProof) : CommitmentSetDigest :=
  let step (st : list byte * Z) (node : list byte) :=
    let '(result, level_index) := st in
    let is_left_child := Z.land level_index 1 =? 0 in
    let bytes := if is_left_child then result ++ node else node ++ result in
    (hash_bytes bytes, Z.shiftr level_index 1) in
  (foldl step (hash_bytes (commitment_bytes c), proof.1) proof.2).1.

(** [Nullifier::for_account_update], [Nullifier::for_account_initialization] *)
Definition UPDATE_PREFIX : list byte := bstr "/LEE/v0.3/Nullifier/Update/" ++ zeros 5.
Definition INIT_PREFIX : list byte := bstr "/LEE/v0.3/Nullifier/Initialize/" ++ zeros 1.
Definition for_account_update (c : Commitment) (nsk : NullifierSecretKey) : Nullifier :=
  mk_Nullifier (hash_bytes (UPDATE_PREFIX ++ commitment_bytes c ++ nsk)).
Definition for_account_initialization (id : AccountId) : Nullifier :=
  mk_Nullifier (hash_bytes (INIT_PREFIX ++ value id)).

(** [From<&NullifierSecretKey> for NullifierPublicKey] *)
Definition npk_from_nsk (nsk : NullifierSecretKey) : NullifierPublicKey :=
  mk_Npk (hash_bytes (bstr "LEE/keys" ++ nsk ++ [Byte.x07] ++ zeros 23)).

(** [AccountId::for_regular_private_account] *)
Definition PRIVATE_ACCOUNT_ID_PREFIX : list byte :=
  bstr "/LEE/v0.3/AccountId/Private/" ++ zeros 4.
Definition for_regular_private_account (npk : NullifierPublicKey) (i : Identifier) : AccountId :=
  AccountId_new (hash_bytes (PRIVATE_ACCOUNT_ID_PREFIX ++ npk_bytes npk ++ le_bytes 16 i)).

(** [AccountId::for_public_pda] *)
Definition PROGRAM_DERIVED_ACCOUNT_ID_PREFIX : list byte :=
  bstr "/NSSA/v0.2/AccountId/PDA/" ++ zeros 7.
Definition for_public_pda (p : ProgramId) (s : PdaSeed) : AccountId :=
  AccountId_new (hash_bytes (PROGRAM_DERIVED_ACCOUNT_ID_PREFIX ++ words_bytes p ++ seed_bytes s)).

(** [AccountId::for_private_pda] *)
Definition PRIVATE_PDA_PREFIX : list byte := bstr "/LEE/v0.3/AccountId/PrivatePDA/" ++ zeros 1.
Definition for_private_pda (p : ProgramId) (s : PdaSeed) (npk : NullifierPublicKey)
    (i : Identifier) : AccountId :=
  AccountId_new (hash_bytes
    (PRIVATE_PDA_PREFIX ++ words_bytes p ++ seed_bytes s ++ npk_bytes npk ++ le_bytes 16 i)).

(** [AccountId::for_private_account] *)
Definition for_private_account (npk : NullifierPublicKey) (k : PrivateAccountKind) : AccountId :=
  match k with
  | Regular i => for_regular_private_account npk i
  | Pda p s i => for_private_pda p s npk i
  end.

(** [From<&PublicKey> for AccountId] *)
Definition PUBLIC_ACCOUNT_ID_PREFIX : list byte :=
  bstr "/LEE/v0.3/AccountId/Public/" ++ zeros 5.
Definition account_id_of_public_key (key : list byte) : AccountId :=
  AccountId_new (hash_bytes (PUBLIC_ACCOUNT_ID_PREFIX ++ key)).
End Derivations.

(** ** Lemmas *)

(** The two serialisations never exceed the header, so the copy is total. *)
Lemma length_kind_borsh k :
  PrivateAccountKind_wf k -> (length (kind_borsh k) <= HEADER_LEN)%nat.
Proof.
  destruct k as [i|p s i]; intros [_ Hk]; cbn [kind_borsh length]; autorewrite with lez.
  - unfold HEADER_LEN. lia.
  - destruct Hk as [[Hp _] Hs]. rewrite !length_app, length_words_bytes, length_le_bytes.
    unfold HEADER_LEN. lia.
Qed.

Lemma length_to_header_bytes k :
  PrivateAccountKind_wf k -> length (to_header_bytes k) = HEADER_LEN.
Proof.
  intros Hk%length_kind_borsh. unfold to_header_bytes, zeros.
  rewrite length_app, length_replicate. lia.
Qed.

Lemma read_exact_1 b rest : read_exact 1 (b :: rest) = Ok ([b], rest).
Proof. by apply (read_exact_app [b]). Qed.

Lemma from_to_header_bytes k :
  PrivateAccountKind_wf k -> from_header_bytes (to_header_bytes k) = Some k.
Proof.
  destruct k as [i|p s i]; intros [Hi Hk]; unfold from_header_bytes, to_header_bytes;
    cbn [kind_borsh kind_identifier] in *; rewrite <- app_comm_cons;
    rewrite read_exact_1.
  - cbn [mbind outcome_bind].
    rewrite read_exact_app by (by rewrite length_le_bytes). cbn [mbind outcome_bind].
    by rewrite (le_value_bytes_in 16 128).
  - destruct Hk as [[Hp1 Hp2] Hs].
    cbn [mbind outcome_bind].
    rewrite <- app_assoc, read_words_app by done. cbn [mbind outcome_bind].
    rewrite <- app_assoc, read_exact_app by done. cbn [mbind outcome_bind].
    rewrite read_exact_app by (by rewrite length_le_bytes). cbn [mbind outcome_bind].
    rewrite (le_value_bytes_in 16 128) by done. by destruct s.
Qed.

(** The constants of the source agree with the recipes of their documentation,
    evaluated with the executable SHA-256. *)
Section Constants.
Import Sha256Impl.
Let hash : Sha256 := sha256.
#[local] Existing Instance hash.

(** The commitment pinned by the unit test [nothing_up_my_sleeve_dummy_commitment]
    is the one of the default account under the null account id. *)
Example dummy_commitment_ok :
  Commitment_new (AccountId_new (zeros 32)) Account_default = DUMMY_COMMITMENT.
Proof. vm_compute. reflexivity. Qed.

Example dummy_commitment_hash_ok :
  sha256 (commitment_bytes DUMMY_COMMITMENT) = DUMMY_COMMITMENT_HASH.
Proof. vm_compute. reflexivity. Qed.

(** The recipe in the documentation of [DUMMY_COMMITMENT] leaves out the
    domain separator [COMMITMENT_PREFIX] and yields another digest. *)
Example dummy_commitment_doc_recipe :
  sha256 (zeros 32 ++ zeros 32 ++ zeros 16 ++ zeros 16 ++ sha256 [])
    <> commitment_bytes DUMMY_COMMITMENT.
Proof. vm_compute. discriminate. Qed.

(** Pinned values of the unit tests. *)
Example for_private_pda_pinned :
  for_private_pda (replicate 8 1) (PdaSeed_new (replicate 32 Byte.x02))
    (mk_Npk (replicate 32 Byte.x03)) u128_max =
  AccountId_new (of_bytes [
    59; 239; 182; 97; 14; 220; 96; 115; 238; 133; 143; 33; 234; 82; 237; 255; 148; 110; 54;
    124; 98; 159; 245; 101; 146; 182; 150; 54; 37; 62; 25; 17]).
Proof. vm_compute. reflexivity. Qed.

Example for_account_update_pinned :
  for_account_update (mk_Commitment (byte_of_Z <$> seqZ 0 32)) (replicate 32 Byte.x42) =
  mk_Nullifier (of_bytes [
    70; 162; 122; 15; 33; 237; 244; 216; 89; 223; 90; 50; 94; 184; 210; 144; 174; 64; 189;
    254; 62; 255; 5; 1; 139; 227; 194; 185; 16; 30; 55; 48]).
Proof. vm_compute. reflexivity. Qed.

Example for_account_initialization_pinned :
  for_account_initialization (AccountId_new (of_bytes [
    112; 188; 193; 129; 150; 55; 228; 67; 88; 168; 29; 151; 5; 92; 23; 190; 17; 162; 164;
    255; 29; 105; 42; 186; 43; 11; 157; 168; 132; 225; 17; 163])) =
  mk_Nullifier (of_bytes [
    149; 59; 95; 181; 2; 194; 20; 143; 72; 233; 104; 243; 59; 70; 67; 243; 110; 77; 109;
    132; 139; 111; 51; 125; 128; 92; 107; 46; 252; 4; 20; 149]).
Proof. vm_compute. reflexivity. Qed.

Example npk_and_account_id_pinned :
  let nsk := of_bytes [
    57; 5; 64; 115; 153; 56; 184; 51; 207; 238; 99; 165; 147; 214; 213; 151; 30; 251; 30;
    196; 134; 22; 224; 211; 237; 120; 136; 225; 188; 220; 249; 28] in
  npk_bytes (npk_from_nsk nsk) = of_bytes [
    78; 20; 20; 5; 177; 198; 233; 100; 175; 134; 174; 200; 24; 205; 68; 215; 130; 74; 35;
    54; 154; 184; 219; 42; 168; 106; 126; 147; 133; 244; 18; 218] /\
  value (for_regular_private_account (npk_from_nsk nsk) 0x0123456789ABCDEFFEDCBA9876543210) =
  of_bytes [
    178; 16; 226; 206; 217; 38; 38; 45; 155; 240; 226; 253; 168; 87; 146; 70; 72; 32; 174;
    19; 245; 25; 214; 162; 209; 135; 252; 82; 27; 2; 174; 196].
Proof. vm_compute. split; reflexivity. Qed.
End Constants.
