(* ===== verification/ProgramCore.v ===== *)
(** Program interface and execution rules: [nssa/core/src/program.rs].

    What a guest program receives and returns, the validity windows of its
    output, and [validate_execution], the rules every program output has to
    respect whoever wrote the program. *)

From S2P Require Import Prelude Bytes Crypto Account Ids.

Definition MAX_NUMBER_CHAINED_CALLS : Z := 10.
Abbreviation InstructionData := (list Z).

(** [risc0_zkvm::serde]: the instruction codec, a parameter of the model. *)
Class Serde (I : Type) := {
  serde_to_vec : I -> InstructionData;
  serde_from_words : InstructionData -> option I;
}.
Class SerdeLaws (I : Type) `{Serde I} := {
  serde_roundtrip (i : I) : serde_from_words (serde_to_vec i) = Some i;
}.

(** ** Data *)
Inductive Claim := Authorized | ClaimPda (seed : PdaSeed).
Record AccountPostState := mk_PostState { post_account : Account; claim : option Claim }.

Record ChainedCall := mk_ChainedCall {
  cc_program_id : ProgramId;
  cc_pre_states : list AccountWithMetadata;
  cc_instruction_data : InstructionData;
  cc_pda_seeds : list PdaSeed;
}.

(** [ValidityWindow<u64>]: block ids and timestamps are both [u64]. *)
Record ValidityWindow := mk_Window { win_from : option Z; win_to : option Z }.
Inductive InvalidWindow := InvalidWindowError.

Record ProgramOutput := mk_Output {
  self_program_id : ProgramId;
  caller_program_id : option ProgramId;
  instruction_data : InstructionData;
  pre_states : list AccountWithMetadata;
  post_states : list AccountPostState;
  chained_calls : list ChainedCall;
  block_validity_window : ValidityWindow;
  timestamp_validity_window : ValidityWindow;
}.

Record ProgramInput (I : Type) := mk_Input {
  in_self_program_id : ProgramId;
  in_caller_program_id : option ProgramId;
  in_pre_states : list AccountWithMetadata;
  in_instruction : I;
}.
Arguments mk_Input {I}.
Arguments in_self_program_id {I}.
Arguments in_caller_program_id {I}.
Arguments in_pre_states {I}.
Arguments in_instruction {I}.

#[global] Instance Claim_eq_dec : EqDecision Claim.
Proof. solve_decision. Defined.
#[global] Instance AccountPostState_eq_dec : EqDecision AccountPostState.
Proof. solve_decision. Defined.
#[global] Instance ChainedCall_eq_dec : EqDecision ChainedCall.
Proof. solve_decision. Defined.
#[global] Instance ValidityWindow_eq_dec : EqDecision ValidityWindow.
Proof. solve_decision. Defined.
#[global] Instance ProgramOutput_eq_dec : EqDecision ProgramOutput.
Proof. solve_decision. Defined.

(** [ChainedCall::new] and [with_pda_seeds] *)
Definition ChainedCall_new {I} `{Serde I} (p : ProgramId) (pre : list AccountWithMetadata)
    (instruction : I) : ChainedCall :=
  mk_ChainedCall p pre (serde_to_vec instruction) [].
Definition with_pda_seeds (c : ChainedCall) (seeds : list PdaSeed) : ChainedCall :=
  mk_ChainedCall (cc_program_id c) (cc_pre_states c) (cc_instruction_data c) seeds.

(** ** [impl AccountPostState] *)
Definition PostState_new (a : Account) : AccountPostState := mk_PostState a None.
Definition new_claimed (a : Account) (c : Claim) : AccountPostState := mk_PostState a (Some c).
Definition new_claimed_if_default (a : Account) (c : Claim) : AccountPostState :=
  mk_PostState a (if decide (program_owner a = DEFAULT_PROGRAM_ID) then Some c else None).

(** ** [impl ValidityWindow] *)
Definition new_unbounded : ValidityWindow := mk_Window None None.
Definition is_valid_for (w : ValidityWindow) (v : Z) : bool :=
  match win_from w with Some start => bool_decide (start <= v) | None => true end &&
  match win_to w with Some stop => bool_decide (v < stop) | None => true end.
Definition check_window (w : ValidityWindow) : outcome InvalidWindow () :=
  match win_from w, win_to w with
  | Some from, Some to => if decide (to <= from) then Err InvalidWindowError else Ok ()
  | _, _ => Ok ()
  end.
(** [TryFrom<(Option<T>, Option<T>)>] *)
Definition window_try_from (v : option Z * option Z) : outcome InvalidWindow ValidityWindow :=
  let this := mk_Window v.1 v.2 in
  check_window this ;; Ok this.

(** ** [impl ProgramOutput] *)
Definition ProgramOutput_new (self : ProgramId) (caller : option ProgramId)
    (instr : InstructionData) (pre : list AccountWithMetadata) (post : list AccountPostState) :
    ProgramOutput :=
  mk_Output self caller instr pre post [] new_unbounded new_unbounded.
Definition with_chained_calls (o : ProgramOutput) (cs : list ChainedCall) : ProgramOutput :=
  mk_Output (self_program_id o) (caller_program_id o) (instruction_data o) (pre_states o)
    (post_states o) cs (block_validity_window o) (timestamp_validity_window o).
Definition with_timestamp_window (o : ProgramOutput) (w : ValidityWindow) : ProgramOutput :=
  mk_Output (self_program_id o) (caller_program_id o) (instruction_data o) (pre_states o)
    (post_states o) (chained_calls o) (block_validity_window o) w.
(** [valid_from_timestamp], [valid_until_timestamp] *)
Definition valid_from_timestamp (o : ProgramOutput) (ts : option Timestamp) :
    outcome InvalidWindow ProgramOutput :=
  w ← window_try_from (ts, win_to (timestamp_validity_window o));
  Ok (with_timestamp_window o w).
Definition valid_until_timestamp (o : ProgramOutput) (ts : option Timestamp) :
    outcome InvalidWindow ProgramOutput :=
  w ← window_try_from (win_from (timestamp_validity_window o), ts);
  Ok (with_timestamp_window o w).

(** ** [WrappedBalanceSum]: [lo + hi * 2^128] *)
Record WrappedBalanceSum := mk_Wrapped { lo : Z; hi : Z }.
#[global] Instance WrappedBalanceSum_eq_dec : EqDecision WrappedBalanceSum.
Proof. solve_decision. Defined.

Fixpoint from_balances_loop (wrapped : WrappedBalanceSum) (balances : list Z) :
    option WrappedBalanceSum :=
  match balances with
  | [] => Some wrapped
  | b :: balances =>
      let '(new_sum, did_overflow) := overflowing_add 128 (lo wrapped) b in
      hi' ← (if (did_overflow : bool) then checked_add 128 (hi wrapped) 1 else Some (hi wrapped));
      from_balances_loop (mk_Wrapped new_sum hi') balances
  end.
Definition from_balances (balances : list Z) : option WrappedBalanceSum :=
  from_balances_loop (mk_Wrapped 0 0) balances.

(** ** Execution validation *)
Inductive ExecutionValidationError :=
  | PreStateAccountIdsNotUnique
  | MismatchedPreStatePostStateLength (pre_state_length post_state_length : nat)
  | ModifiedNonce (id : AccountId)
  | ModifiedProgramOwner (id : AccountId)
  | UnauthorizedBalanceDecrease (id : AccountId) (owner executing : ProgramId)
  | UnauthorizedDataModification (id : AccountId) (executing : ProgramId)
  | NonDefaultAccountWithDefaultOwner (id : AccountId)
  | BalanceSumOverflow
  | MismatchedTotalBalance (pre post : WrappedBalanceSum).
#[global] Instance ExecutionValidationError_eq_dec : EqDecision ExecutionValidationError.
Proof. solve_decision. Defined.

Definition validate_uniqueness_of_account_ids (pre : list AccountWithMetadata) : bool :=
  bool_decide (length pre = n_distinct (account_id <$> pre)).

(** Rules 3 to 7, for one account. *)
Definition validate_pair (executing : ProgramId) (pp : AccountWithMetadata * AccountPostState) :
    outcome ExecutionValidationError () :=
  let pre := account pp.1 in
  let post := post_account pp.2 in
  let id := account_id pp.1 in
  ensure (bool_decide (nonce pre = nonce post)) (ModifiedNonce id) ;;
  ensure (bool_decide (program_owner pre = program_owner post)) (ModifiedProgramOwner id) ;;
  let account_program_owner := program_owner pre in
  ensure (negb (bool_decide (balance post < balance pre) &&
                bool_decide (account_program_owner <> executing)))
    (UnauthorizedBalanceDecrease id account_program_owner executing) ;;
  ensure (negb (bool_decide (data pre <> data post) &&
                bool_decide (pre <> Account_default) &&
                bool_decide (account_program_owner <> executing)))
    (UnauthorizedDataModification id executing) ;;
  ensure (negb (bool_decide (program_owner post = DEFAULT_PROGRAM_ID) &&
                bool_decide (pre <> Account_default)))
    (NonDefaultAccountWithDefaultOwner id).

Definition validate_execution (pre : list AccountWithMetadata) (post : list AccountPostState)
    (executing : ProgramId) : outcome ExecutionValidationError () :=
  ensure (validate_uniqueness_of_account_ids pre) PreStateAccountIdsNotUnique ;;
  ensure (bool_decide (length pre = length post))
    (MismatchedPreStatePostStateLength (length pre) (length post)) ;;
  iter_o (validate_pair executing) (zip pre post) ;;
  total_pre ← ok_or (from_balances (balance ∘ account <$> pre)) BalanceSumOverflow;
  total_post ← ok_or (from_balances (balance ∘ post_account <$> post)) BalanceSumOverflow;
  ensure (bool_decide (total_pre = total_post)) (MismatchedTotalBalance total_pre total_post).

(** [read_nssa_inputs]: the four values read from the guest environment. *)
Definition read_nssa_inputs {I} `{Serde I} (self : ProgramId) (caller : option ProgramId)
    (pre : list AccountWithMetadata) (instruction_words : InstructionData) :
    guest (ProgramInput I * InstructionData) :=
  i ← expect (serde_from_words instruction_words) "called `Result::unwrap()` on an `Err` value";
  Ok (mk_Input self caller pre i, instruction_words).

Section Pdas.
Context `{Sha256}.
(** [compute_public_authorized_pdas] *)
Definition compute_public_authorized_pdas (caller : option ProgramId) (seeds : list PdaSeed) :
    gset AccountId :=
  match caller with
  | None => ∅
  | Some caller => list_to_set (for_public_pda caller <$> seeds)
  end.
End Pdas.

(** ** Specification of a well-behaved execution *)

(** One account, before and after the execution of [executing]. *)
Record pair_ok (executing : ProgramId) (pre post : Account) : Prop := {
  pair_nonce : nonce post = nonce pre;
  pair_owner : program_owner post = program_owner pre;
  pair_balance : program_owner pre <> executing -> balance pre <= balance post;
  pair_data : program_owner pre <> executing -> pre <> Account_default -> data post = data pre;
  pair_default : program_owner post = DEFAULT_PROGRAM_ID -> pre = Account_default;
}.

Record well_behaved (executing : ProgramId) (pre : list AccountWithMetadata)
    (post : list AccountPostState) : Prop := {
  wb_unique : NoDup (account_id <$> pre);
  wb_pairs : Forall2 (fun a b => pair_ok executing (account a) (post_account b)) pre post;
  wb_total : sum_Z (balance ∘ account <$> pre) = sum_Z (balance ∘ post_account <$> post);
  wb_bound : sum_Z (balance ∘ account <$> pre) < 2 ^ 256;
}.

(** ** Lemmas *)
Lemma window_try_from_ok v w :
  window_try_from v = Ok w ->
  w = mk_Window v.1 v.2 /\
  (forall from to, v.1 = Some from -> v.2 = Some to -> from < to).
Proof.
  unfold window_try_from, check_window. destruct v as [[from|] [to|]]; cbn;
    try case_decide; cbn; intros ?; inv_ok; split; try done; naive_solver lia.
Qed.

Lemma is_valid_for_iff w v :
  is_valid_for w v = true <->
  (forall a, win_from w = Some a -> a <= v) /\ (forall b, win_to w = Some b -> v < b).
Proof.
  unfold is_valid_for. destruct w as [[a|] [b|]]; cbn;
    rewrite ?andb_true_iff, ?andb_true_r, ?bool_decide_eq_true; naive_solver.
Qed.

(** A window accepted by [try_from] is never empty. *)
Lemma window_try_from_inhabited v w :
  window_try_from v = Ok w -> exists t, is_valid_for w t = true.
Proof.
  intros [-> Hlt]%window_try_from_ok. destruct v as [[from|] [to|]].
  - exists from. apply is_valid_for_iff. cbn in *. specialize (Hlt _ _ eq_refl eq_refl).
    naive_solver lia.
  - exists from. apply is_valid_for_iff. cbn in *. naive_solver lia.
  - exists (to - 1). apply is_valid_for_iff. cbn in *. naive_solver lia.
  - exists 0. apply is_valid_for_iff. cbn in *. naive_solver.
Qed.

Definition wrapped_value (w : WrappedBalanceSum) : Z := lo w + hi w * 2 ^ 128.
Definition wrapped_wf (w : WrappedBalanceSum) : Prop := in_u 128 (lo w) /\ in_u 128 (hi w).

Lemma wrapped_value_inj a b :
  wrapped_wf a -> wrapped_wf b -> wrapped_value a = wrapped_value b -> a = b.
Proof.
  destruct a, b. unfold wrapped_wf, wrapped_value, in_u. cbn [lo hi]. intros ? ? ?.
  f_equal; nia.
Qed.

(** The loop computes the exact sum, and fails exactly beyond [2^256 - 1]. *)
Lemma from_balances_loop_spec bs w :
  wrapped_wf w -> Forall (in_u 128) bs ->
  match from_balances_loop w bs with
  | Some w' => wrapped_wf w' /\ wrapped_value w' = wrapped_value w + sum_Z bs
  | None => 2 ^ 256 <= wrapped_value w + sum_Z bs
  end.
Proof.
  intros Hw Hbs. revert w Hw. induction Hbs as [|b bs Hb Hbs IH]; intros w Hw; cbn [from_balances_loop].
  - split; [done|]. cbn. lia.
  - destruct (overflowing_add 128 (lo w) b) as [s c] eqn:Hadd.
    destruct Hw as [Hlo Hhi].
    destruct (overflowing_add_spec 128 (lo w) b s c ltac:(lia) Hlo Hb Hadd) as [Hs Heq].
    assert (Hnn : 0 <= sum_Z bs).
    { apply sum_Z_nonneg. eapply Forall_impl; [done|]. unfold in_u. intros. lia. }
    rewrite sum_Z_cons. unfold wrapped_value, in_u in *.
    destruct c; cbn [mbind option_bind].
    + destruct (checked_add 128 (hi w) 1) as [h|] eqn:Hh; cbn [mbind option_bind].
      * apply checked_add_Some in Hh as [? ->].
        specialize (IH (mk_Wrapped s (hi w + 1))). cbn [lo hi] in IH.
        destruct (from_balances_loop _ _).
        -- destruct IH as [? ->]; [unfold wrapped_wf, in_u; cbn; lia|]. split; [done|lia].
        -- cut (2 ^ 256 <= s + (hi w + 1) * 2 ^ 128 + sum_Z bs); [lia|].
           apply IH. unfold wrapped_wf, in_u; cbn; lia.
      * apply checked_add_None in Hh. change (2 ^ 256) with (2 ^ 128 * 2 ^ 128). nia.
    + specialize (IH (mk_Wrapped s (hi w))). cbn [lo hi] in IH.
      destruct (from_balances_loop _ _).
      * destruct IH as [? ->]; [unfold wrapped_wf, in_u; cbn; lia|]. split; [done|lia].
      * cut (2 ^ 256 <= s + hi w * 2 ^ 128 + sum_Z bs); [lia|].
        apply IH. unfold wrapped_wf, in_u; cbn; lia.
Qed.

Lemma from_balances_spec bs :
  Forall (in_u 128) bs ->
  match from_balances bs with
  | Some w => wrapped_wf w /\ wrapped_value w = sum_Z bs
  | None => 2 ^ 256 <= sum_Z bs
  end.
Proof.
  intros Hbs. apply (from_balances_loop_spec bs (mk_Wrapped 0 0)); [|done].
  unfold wrapped_wf, in_u. cbn. lia.
Qed.

Lemma wrapped_value_bound w : wrapped_wf w -> wrapped_value w < 2 ^ 256.
Proof.
  unfold wrapped_wf, wrapped_value, in_u. change (2 ^ 256) with (2 ^ 128 * 2 ^ 128). nia.
Qed.

Lemma validate_uniqueness_NoDup pre :
  validate_uniqueness_of_account_ids pre = true <-> NoDup (account_id <$> pre).
Proof.
  unfold validate_uniqueness_of_account_ids. rewrite bool_decide_eq_true.
  rewrite <- n_distinct_NoDup, length_fmap. intuition.
Qed.

Lemma validate_pair_ok executing pre post :
  validate_pair executing (pre, post) = Ok () <->
  pair_ok executing (account pre) (post_account post).
Proof.
  unfold validate_pair. cbn [fst snd]. split.
  - intros H; inv_ok. rewrite ?negb_true_iff, ?andb_false_iff, ?bool_decide_eq_false in *.
    constructor; try done; intros.
    + destruct Hs1 as [?|Hd]; [lia|by destruct Hd].
    + destruct Hs2 as [[Hd|Hd]|Hd]; [|by destruct Hd..].
      destruct (decide (data (post_account post) = data (account pre))); [done|]. exfalso.
      apply Hd. congruence.
    + destruct H as [?|Hd]; [contradiction|].
      destruct (decide (account pre = Account_default)); [done|by destruct Hd].
  - intros [Hn Ho Hb Hd Hdef].
    symmetry in Hn, Ho. rewrite (bool_decide_true _ Hn), (bool_decide_true _ Ho). cbn.
    rewrite !bool_decide_decide. repeat case_decide; cbn; try done; exfalso;
      solve [specialize (Hb ltac:(assumption)); lia | naive_solver].
Qed.

(** The pair loop is the pointwise specification. *)
Lemma validate_pairs_ok executing pre post :
  length pre = length post ->
  iter_o (validate_pair executing) (zip pre post) = Ok () <->
  Forall2 (fun a b => pair_ok executing (account a) (post_account b)) pre post.
Proof.
  intros Hlen. rewrite iter_o_ok. revert post Hlen.
  induction pre as [|a pre IH]; intros [|b post] Hlen; cbn in *; try lia.
  - split; constructor.
  - split.
    + intros [H1 H2]%Forall_cons. constructor; [by apply validate_pair_ok|]. apply IH; [lia|done].
    + intros Hf. inversion_clear Hf. constructor; [by apply validate_pair_ok|]. apply IH; [lia|done].
Qed.

Lemma fmap_balance_pre (P : Z -> Prop) (pre : list AccountWithMetadata) :
  Forall (fun a => P (balance (account a))) pre -> Forall P (balance ∘ account <$> pre).
Proof. intros Hf. by apply Forall_fmap. Qed.
Lemma fmap_balance_post (P : Z -> Prop) (post : list AccountPostState) :
  Forall (fun a => P (balance (post_account a))) post -> Forall P (balance ∘ post_account <$> post).
Proof. intros Hf. by apply Forall_fmap. Qed.

(** [validate_execution] accepts exactly the well-behaved executions. *)
Lemma validate_execution_spec pre post executing :
  Forall (fun a => in_u 128 (balance (account a))) pre ->
  Forall (fun a => in_u 128 (balance (post_account a))) post ->
  validate_execution pre post executing = Ok () <-> well_behaved executing pre post.
Proof.
  intros Hpre%fmap_balance_pre Hpost%fmap_balance_post.
  pose proof (from_balances_spec _ Hpre) as Spre.
  pose proof (from_balances_spec _ Hpost) as Spost.
  unfold validate_execution. split.
  - intros H; inv_ok. apply validate_uniqueness_NoDup in Hs. apply validate_pairs_ok in Hs1; [|done].
    rewrite Hs2 in Spre. rewrite Hs3 in Spost.
    destruct Spre as [Hw1 E1], Spost as [_ E2].
    constructor; try done; [congruence|]. rewrite <- E1. by apply wrapped_value_bound.
  - intros [Hu Hp Ht Hb]. apply validate_uniqueness_NoDup in Hu as ->. cbn.
    pose proof (Forall2_length _ _ _ Hp) as Hlen.
    rewrite bool_decide_true by done. cbn.
    apply validate_pairs_ok in Hp as ->; [|done]. cbn.
    destruct (from_balances (balance ∘ account <$> pre)) as [w1|]; [|lia].
    destruct (from_balances (balance ∘ post_account <$> post)) as [w2|]; [|lia]. cbn.
    rewrite bool_decide_true; [done|]. apply wrapped_value_inj; [tauto..|].
    destruct Spre, Spost. congruence.
Qed.
