(* ===== verification/Borsh.v ===== *)
(** Borsh serialisation.

    [borsh::to_vec] and [BorshDeserialize::try_from_slice] on derived types are
    generated by the [borsh] crate: the class [Borsh] is a parameter of the
    model and [BorshLaws] what the code relies on.

    The module [Codec] gives lawful byte codecs in the borsh layout
    (little-endian integers, a one-byte variant tag, [u32] length prefixes); it
    instantiates the class in examples and witnesses. *)

From S2P Require Import Prelude Bytes.

Class Borsh (A : Type) := {
  borsh_to_vec : A -> list byte;
  borsh_try_from_slice : list byte -> option A;
}.
(** Decoding inverts encoding on the values [wf] of the Rust type, and only
    produces such values. *)
Class BorshLaws (A : Type) `{Borsh A} (wf : A -> Prop) := {
  borsh_roundtrip (a : A) : wf a -> borsh_try_from_slice (borsh_to_vec a) = Some a;
  borsh_decoded_wf (l : list byte) (a : A) : borsh_try_from_slice l = Some a -> wf a;
}.

Module Codec.
Record codec (A : Type) := mk_codec {
  enc : A -> list byte;
  dec : list byte -> option (A * list byte);
}.
Arguments mk_codec {A}.
Arguments enc {A}.
Arguments dec {A}.

Definition to_borsh {A} (c : codec A) : Borsh A := {|
  borsh_to_vec := enc c;
  borsh_try_from_slice l := match dec c l with Some (a, []) => Some a | _ => None end;
|}.

Definition read (n : nat) (l : list byte) : option (list byte * list byte) :=
  if decide (n <= length l)%nat then Some (take n l, drop n l) else None.

(** [n]-byte arrays and [8n]-bit unsigned integers. *)
Definition bytes (n : nat) : codec (list byte) := mk_codec id (read n).
Definition uint (n : nat) : codec Z :=
  mk_codec (le_bytes n) (fun l => '(bs, l) ← read n l; Some (le_value bs, l)).
Definition pair {A B} (ca : codec A) (cb : codec B) : codec (A * B) :=
  mk_codec (fun p => enc ca p.1 ++ enc cb p.2)
    (fun l => '(a, l) ← dec ca l; '(b, l) ← dec cb l; Some ((a, b), l)).
(** A type isomorphic to one that has a codec. *)
Definition iso {A B} (f : A -> B) (g : B -> A) (ca : codec A) : codec B :=
  mk_codec (fun b => enc ca (g b)) (fun l => '(a, l) ← dec ca l; Some (f a, l)).
(** A two-variant enum; [bool] and [Option] have the same tags. *)
Definition sum {A B} (ca : codec A) (cb : codec B) : codec (A + B) :=
  mk_codec (fun s => match s with inl a => Byte.x00 :: enc ca a | inr b => Byte.x01 :: enc cb b end)
    (fun l => match l with
              | Byte.x00 :: l => '(a, l) ← dec ca l; Some (inl a, l)
              | Byte.x01 :: l => '(b, l) ← dec cb l; Some (inr b, l)
              | _ => None
              end).
Definition unit : codec () := mk_codec (fun _ => []) (fun l => Some ((), l)).
(** [Vec<u8>] and [String]: a [u32] length and the bytes. *)
Definition vec : codec (list byte) :=
  mk_codec (fun v => le_bytes 4 (Z.of_nat (length v)) ++ v)
    (fun l => '(bs, l) ← read 4 l; read (Z.to_nat (le_value bs)) l).

(** [ok c wf]: decoding inverts encoding on [wf] and yields [wf] values. *)
Record ok {A} (c : codec A) (wf : A -> Prop) : Prop := {
  ok_roundtrip a rest : wf a -> dec c (enc c a ++ rest) = Some (a, rest);
  ok_wf l a rest : dec c l = Some (a, rest) -> wf a;
}.

Lemma read_app n bs rest : length bs = n -> read n (bs ++ rest) = Some (bs, rest).
Proof.
  intros <-. unfold read. rewrite length_app, decide_True by lia.
  by rewrite take_app_length, drop_app_length.
Qed.
Lemma read_length n l bs rest : read n l = Some (bs, rest) -> length bs = n.
Proof. unfold read. case_decide; intros; simplify_eq. rewrite length_take. lia. Qed.

Lemma to_borsh_laws {A} (c : codec A) wf : ok c wf -> @BorshLaws A (to_borsh c) wf.
Proof.
  intros [Hr Hw]. split.
  - intros a Ha. cbn. rewrite <- (app_nil_r (enc c a)). by rewrite Hr.
  - intros l a. cbn. destruct (dec c l) as [[a' [|]]|] eqn:Hd; intros; simplify_eq. eauto.
Qed.

Lemma bytes_ok n : ok (bytes n) (fun l => length l = n).
Proof. split; cbn; [intros; by apply read_app|intros; by eapply read_length]. Qed.
Lemma uint_ok n : ok (uint n) (in_u (8 * Z.of_nat n)).
Proof.
  split; cbn.
  - intros a rest Ha. rewrite read_app by (by rewrite length_le_bytes). cbn.
    by rewrite (le_value_bytes_in n (8 * Z.of_nat n)).
  - intros l a rest. destruct (read n l) as [[bs l']|] eqn:Hr; cbn; intros; simplify_eq.
    apply read_length in Hr as <-. apply le_value_range.
Qed.
Lemma pair_ok {A B} (ca : codec A) (cb : codec B) wa wb :
  ok ca wa -> ok cb wb -> ok (pair ca cb) (fun p => wa p.1 /\ wb p.2).
Proof.
  intros [Ra Wa] [Rb Wb]. split; cbn.
  - intros [a b] rest [Ha Hb]. cbn in *. rewrite <- app_assoc, Ra by done. cbn. by rewrite Rb.
  - intros l [a b] rest. destruct (dec ca l) as [[a' l']|] eqn:Ha; cbn; [|done].
    destruct (dec cb l') as [[b' l'']|] eqn:Hb; cbn; intros; simplify_eq. eauto.
Qed.
Lemma iso_ok {A B} (f : A -> B) (g : B -> A) (ca : codec A) wa :
  (forall b, f (g b) = b) -> (forall a, g (f a) = a) -> ok ca wa ->
  ok (iso f g ca) (fun b => wa (g b)).
Proof.
  intros Hfg Hgf [Ra Wa]. split; cbn.
  - intros b rest Hb. rewrite Ra by done. cbn. by rewrite Hfg.
  - intros l b rest. destruct (dec ca l) as [[a' l']|] eqn:Ha; cbn; intros; simplify_eq.
    rewrite Hgf. eauto.
Qed.
Lemma sum_ok {A B} (ca : codec A) (cb : codec B) wa wb :
  ok ca wa -> ok cb wb ->
  ok (sum ca cb) (fun s => match s with inl a => wa a | inr b => wb b end).
Proof.
  intros [Ra Wa] [Rb Wb]. split; cbn.
  - intros [a|b] rest Hs; cbn; [by rewrite Ra|by rewrite Rb].
  - intros [|t l] s rest; [done|].
    destruct t; try done; [destruct (dec ca l) as [[a' l']|] eqn:Ha|destruct (dec cb l) as [[b' l']|] eqn:Hb];
      cbn; intros; simplify_eq; eauto.
Qed.
Lemma unit_ok : ok unit (fun _ => True).
Proof. split; cbn; [by intros []|done]. Qed.
Lemma vec_ok : ok vec (fun v => in_u 32 (Z.of_nat (length v))).
Proof.
  split; cbn [enc dec vec].
  - intros v rest Hv. rewrite <- app_assoc, read_app by (by rewrite length_le_bytes).
    cbn [mbind option_bind]. rewrite (le_value_bytes_in 4 32) by done. rewrite Nat2Z.id. by rewrite read_app.
  - intros l v rest. destruct (read 4 l) as [[bs l']|] eqn:Hr; cbn [mbind option_bind]; [|done].
    intros Hv%read_length. apply read_length in Hr.
    pose proof (le_value_range bs) as Hb. rewrite Hr in Hb. unfold in_u. lia.
Qed.
Lemma ok_weaken {A} (c : codec A) (w1 w2 : A -> Prop) :
  (forall a, w1 a <-> w2 a) -> ok c w1 -> ok c w2.
Proof. intros Hw [R W]. split; intros; [apply R|]; naive_solver. Qed.
End Codec.
