(* ===== verification/MerkleTree.v ===== *)
(** The commitment tree: [nssa/src/merkle_tree/mod.rs] and
    [default_values.rs].

    A binary tree of fixed capacity stored as a heap array ([2i+1] and [2i+2]
    are the children of [i]); leaves are the hashes of the inserted values,
    unused leaves hold [DEFAULT_VALUES[0]] and an untouched subtree of height
    [h] holds [DEFAULT_VALUES[h]].  The root moves up the array as values
    arrive: it is the smallest subtree that covers them all.  The last section shows that a path
    that verifies opens the tree, unless the hash collides.

    Array accesses panic out of range, as in the source; the theorems show they
    never do.  [usize] is [nat]: an array that long does not fit in memory. *)

From S2P Require Import Prelude Bytes Crypto Account Ids.

(** [DEFAULT_VALUES] *)
Definition DEFAULT_VALUES : list (list byte) := [
  of_bytes [0; 0; 0; 0; 0; 0; 0; 0; 0; 0; 0; 0; 0; 0; 0; 0;
            0; 0; 0; 0; 0; 0; 0; 0; 0; 0; 0; 0; 0; 0; 0; 0];
  of_bytes [245; 165; 253; 66; 209; 106; 32; 48; 39; 152; 239; 110; 211; 9; 151; 155;
            67; 0; 61; 35; 32; 217; 240; 232; 234; 152; 49; 169; 39; 89; 251; 75];
  of_bytes [219; 86; 17; 78; 0; 253; 212; 193; 248; 92; 137; 43; 243; 90; 201; 168;
            146; 137; 170; 236; 177; 235; 208; 169; 108; 222; 96; 106; 116; 139; 93; 113];
  of_bytes [199; 128; 9; 253; 240; 127; 197; 106; 17; 241; 34; 55; 6; 88; 163; 83;
            170; 165; 66; 237; 99; 228; 76; 75; 193; 95; 244; 205; 16; 90; 179; 60];
  of_bytes [83; 109; 152; 131; 127; 45; 209; 101; 165; 93; 94; 234; 233; 20; 133; 149;
            68; 114; 213; 111; 36; 109; 242; 86; 191; 60; 174; 25; 53; 42; 18; 60];
  of_bytes [158; 253; 224; 82; 170; 21; 66; 159; 174; 5; 186; 212; 208; 177; 215; 198;
            77; 166; 77; 3; 215; 161; 133; 74; 88; 140; 44; 184; 67; 12; 13; 48];
  of_bytes [216; 141; 223; 238; 212; 0; 168; 117; 85; 150; 178; 25; 66; 193; 73; 126;
            17; 76; 48; 46; 97; 24; 41; 15; 145; 230; 119; 41; 118; 4; 31; 161];
  of_bytes [135; 235; 13; 219; 165; 126; 53; 246; 210; 134; 103; 56; 2; 164; 175; 89;
            117; 226; 37; 6; 199; 207; 76; 100; 187; 107; 229; 238; 17; 82; 127; 44];
  of_bytes [38; 132; 100; 118; 253; 95; 197; 74; 93; 67; 56; 81; 103; 201; 81; 68;
            242; 100; 63; 83; 60; 200; 91; 185; 209; 107; 120; 47; 141; 125; 177; 147];
  of_bytes [80; 109; 134; 88; 45; 37; 36; 5; 184; 64; 1; 135; 146; 202; 210; 191;
            18; 89; 241; 239; 90; 165; 248; 135; 225; 60; 178; 240; 9; 79; 81; 225];
  of_bytes [255; 255; 10; 215; 230; 89; 119; 47; 149; 52; 193; 149; 200; 21; 239; 196;
            1; 78; 241; 225; 218; 237; 68; 4; 192; 99; 133; 209; 17; 146; 233; 43];
  of_bytes [108; 240; 65; 39; 219; 5; 68; 28; 216; 51; 16; 122; 82; 190; 133; 40;
            104; 137; 14; 67; 23; 230; 160; 42; 180; 118; 131; 170; 117; 150; 66; 32];
  of_bytes [183; 208; 95; 135; 95; 20; 0; 39; 239; 81; 24; 162; 36; 123; 187; 132;
            206; 143; 47; 15; 17; 35; 98; 48; 133; 218; 247; 150; 12; 50; 159; 95];
  of_bytes [223; 106; 245; 245; 187; 219; 107; 233; 239; 138; 166; 24; 228; 191; 128; 115;
            150; 8; 103; 23; 30; 41; 103; 111; 139; 40; 77; 234; 106; 8; 168; 94];
  of_bytes [181; 141; 144; 15; 94; 24; 46; 60; 80; 239; 116; 150; 158; 161; 108; 119;
            38; 197; 73; 117; 124; 194; 53; 35; 195; 105; 88; 125; 167; 41; 55; 132];
  of_bytes [212; 154; 117; 2; 255; 207; 176; 52; 11; 29; 120; 133; 104; 133; 0; 202;
            48; 129; 97; 167; 249; 107; 98; 223; 157; 8; 59; 113; 252; 200; 242; 187];
  of_bytes [143; 230; 177; 104; 146; 86; 192; 211; 133; 244; 47; 91; 190; 32; 39; 162;
            44; 25; 150; 225; 16; 186; 151; 193; 113; 211; 229; 148; 141; 233; 43; 235];
  of_bytes [141; 13; 99; 195; 158; 186; 222; 133; 9; 224; 174; 60; 156; 56; 118; 251;
            95; 161; 18; 190; 24; 249; 5; 236; 172; 254; 203; 146; 5; 118; 3; 171];
  of_bytes [149; 238; 200; 178; 229; 65; 202; 212; 233; 29; 227; 131; 133; 242; 224; 70;
            97; 159; 84; 73; 108; 35; 130; 203; 108; 172; 213; 185; 140; 38; 245; 164];
  of_bytes [248; 147; 233; 8; 145; 119; 117; 182; 43; 255; 35; 41; 77; 187; 227; 161;
            205; 142; 108; 193; 195; 91; 72; 1; 136; 123; 100; 106; 111; 129; 241; 127];
  of_bytes [205; 219; 167; 181; 146; 227; 19; 51; 147; 193; 97; 148; 250; 199; 67; 26;
            191; 47; 84; 133; 237; 113; 29; 178; 130; 24; 60; 129; 158; 8; 235; 170];
  of_bytes [138; 141; 127; 227; 175; 140; 170; 8; 90; 118; 57; 168; 50; 0; 20; 87;
            223; 185; 18; 138; 128; 97; 20; 42; 208; 51; 86; 41; 255; 35; 255; 156];
  of_bytes [254; 179; 195; 55; 215; 165; 26; 111; 191; 0; 185; 227; 76; 82; 225; 201;
            25; 92; 150; 155; 212; 231; 160; 191; 213; 29; 92; 91; 237; 156; 17; 103];
  of_bytes [231; 31; 10; 168; 60; 195; 46; 223; 190; 250; 159; 77; 62; 1; 116; 202;
            133; 24; 46; 236; 159; 58; 9; 246; 166; 192; 223; 99; 119; 165; 16; 215];
  of_bytes [49; 32; 111; 168; 10; 80; 187; 106; 190; 41; 8; 80; 88; 241; 98; 18;
            33; 42; 96; 238; 200; 240; 73; 254; 203; 146; 216; 200; 224; 168; 75; 192];
  of_bytes [33; 53; 43; 254; 203; 237; 221; 233; 147; 131; 159; 97; 76; 61; 172; 10;
            62; 227; 117; 67; 249; 180; 18; 177; 97; 153; 220; 21; 142; 35; 181; 68];
  of_bytes [97; 158; 49; 39; 36; 187; 109; 124; 49; 83; 237; 157; 231; 145; 215; 100;
            163; 102; 179; 137; 175; 19; 197; 139; 248; 168; 217; 4; 129; 164; 103; 101];
  of_bytes [124; 221; 41; 134; 38; 130; 80; 98; 141; 12; 16; 227; 133; 197; 140; 97;
            145; 230; 251; 224; 81; 145; 188; 192; 79; 19; 63; 44; 234; 114; 193; 196];
  of_bytes [132; 137; 48; 189; 123; 168; 202; 197; 70; 97; 7; 33; 19; 251; 39; 136;
            105; 224; 123; 184; 88; 127; 145; 57; 41; 51; 55; 77; 1; 123; 203; 225];
  of_bytes [136; 105; 255; 44; 34; 178; 140; 193; 5; 16; 217; 133; 50; 146; 128; 51;
            40; 190; 79; 176; 232; 4; 149; 232; 187; 141; 39; 31; 91; 136; 150; 54];
  of_bytes [181; 254; 40; 231; 159; 27; 133; 15; 134; 88; 36; 108; 233; 182; 161; 231;
            180; 159; 192; 109; 183; 20; 62; 143; 224; 180; 242; 176; 197; 82; 58; 92];
  of_bytes [152; 94; 146; 159; 112; 175; 40; 208; 189; 209; 169; 10; 128; 143; 151; 127;
            89; 124; 124; 119; 140; 72; 158; 152; 211; 189; 137; 16; 211; 26; 192; 247]].

Open Scope nat_scope.

Abbreviation Node := (list byte).
Record MerkleTree := mk_Tree { nodes : list Node; capacity : nat; leaf_count : nat }.
#[global] Instance MerkleTree_eq_dec : EqDecision MerkleTree.
Proof. solve_decision. Defined.

(** [usize::next_power_of_two], [usize::trailing_zeros], [prev_power_of_two] *)
Definition next_power_of_two (n : nat) : nat := 2 ^ Nat.log2_up n.
Fixpoint pos_trailing_zeros (p : positive) : nat :=
  match p with xO p => S (pos_trailing_zeros p) | _ => 0 end.
Definition trailing_zeros (n : nat) : nat :=
  match N.of_nat n with N0 => 64 | Npos p => pos_trailing_zeros p end.
Definition prev_power_of_two (x : nat) : nat :=
  if decide (x = 0) then 0 else 2 ^ Nat.log2 x.

(** [MerkleTree::depth], [MerkleTree::root_index] *)
Definition depth (t : MerkleTree) : nat := trailing_zeros (next_power_of_two (leaf_count t)).
Definition root_index (t : MerkleTree) : nat :=
  let tree_depth := depth t in
  let capacity_depth := trailing_zeros (capacity t) in
  if decide (tree_depth = capacity_depth) then 0
  else 2 ^ (capacity_depth - tree_depth) - 1.

Section Tree.
Context `{Sha256} {E : Type}.

Definition hash_two (l r : Node) : Node := hash_bytes (l ++ r).
Definition hash_value (v : list byte) : Node := hash_bytes v.

(** [self.nodes[index]] and [self.nodes[index] = node] *)
Definition get_node (t : MerkleTree) (i : nat) : outcome E Node :=
  expect (nodes t !! i) "index out of bounds".
Definition set_node (t : MerkleTree) (i : nat) (v : Node) : outcome E MerkleTree :=
  if decide (i < length (nodes t)) then
    Ok (mk_Tree (<[i := v]> (nodes t)) (capacity t) (leaf_count t))
  else Panic "index out of bounds".

(** [MerkleTree::with_capacity] *)
Definition with_capacity (c : nat) : outcome E MerkleTree :=
  let c := next_power_of_two c in
  let total_depth := trailing_zeros c in
  assert_ (bool_decide (total_depth < length DEFAULT_VALUES)) "range end index out of range" ;;
  let levels := reverse (take (S total_depth) DEFAULT_VALUES) in
  Ok (mk_Tree (concat (imap (fun level d => replicate (2 ^ level) d) levels)) c 0).

Definition root (t : MerkleTree) : outcome E Node := get_node t (root_index t).

(** [reallocate_to_double_capacity] *)
Definition reallocate_to_double_capacity (t : MerkleTree) : outcome E MerkleTree :=
  let new_capacity := 2 * capacity t in
  this ← with_capacity new_capacity;
  this ← fold_o (fun this iv =>
                   let '(index, v) := (iv : nat * Node) in
                   let offset := prev_power_of_two (index + 1) in
                   set_node this (index + offset) v)
                this (zip (seq 0 (length (nodes t))) (nodes t));
  Ok (mk_Tree (nodes this) (capacity this) (leaf_count t)).

(** The upward loop of [insert]: [steps] levels from [node_index]. *)
Fixpoint update_path (steps : nat) (t : MerkleTree) (node_index : nat) : outcome E MerkleTree :=
  match steps with
  | O => Ok t
  | S steps =>
      let parent_index := (node_index - 1) / 2 in
      left_child ← get_node t (parent_index * 2 + 1);
      right_child ← get_node t (parent_index * 2 + 2);
      t ← set_node t parent_index (hash_two left_child right_child);
      update_path steps t parent_index
  end.

(** [MerkleTree::insert] *)
Definition insert (t : MerkleTree) (v : list byte) : outcome E (MerkleTree * nat) :=
  t ← (if decide (leaf_count t = capacity t) then reallocate_to_double_capacity t else Ok t);
  let new_index := leaf_count t in
  let node_index := new_index + capacity t - 1 in
  t ← set_node t node_index (hash_value v);
  let t := mk_Tree (nodes t) (capacity t) (leaf_count t + 1) in
  t ← update_path (depth t) t node_index;
  Ok (t, new_index).

(** The [while] loop of [get_authentication_path_for]. *)
Fixpoint path_loop (fuel : nat) (t : MerkleTree) (node_index root_index : nat) :
    outcome E (list Node) :=
  if decide (node_index = root_index) then Ok []
  else match fuel with
    | O => Panic "fuel"
    | S fuel =>
        let parent_index := (node_index - 1) / 2 in
        let is_left_child := Nat.odd node_index in
        let sibling_index := if is_left_child then node_index + 1 else node_index - 1 in
        sibling ← get_node t sibling_index;
        path ← path_loop fuel t parent_index root_index;
        Ok (sibling :: path)
    end.

(** [MerkleTree::get_authentication_path_for].  Every step at least halves
    the index, so the capacity bounds the number of steps. *)
Definition get_authentication_path_for (t : MerkleTree) (index : nat) :
    outcome E (option (list Node)) :=
  if decide (leaf_count t <= index) then Ok None
  else
    path ← path_loop (2 * capacity t) t (capacity t + index - 1) (root_index t);
    Ok (Some path).

(** ** Reference definition *)

(** The node of height [h] and position [p] over the leaves [vs], padded with
    zero leaves. *)
Fixpoint subtree (vs : list (list byte)) (h p : nat) : Node :=
  match h with
  | O => match vs !! p with Some v => hash_value v | None => zeros 32 end
  | S h => hash_two (subtree vs h (2 * p)) (subtree vs h (2 * p + 1))
  end.

(** The Merkle root of a list of values. *)
Definition merkle_root (vs : list (list byte)) : Node := subtree vs (Nat.log2_up (length vs)) 0.

(** The sibling path from leaf [i] up to height [h]. *)
Fixpoint sibling_path (vs : list (list byte)) (h steps p : nat) : list Node :=
  match steps with
  | O => []
  | S steps =>
      subtree vs h (if Nat.even p then p + 1 else p - 1) :: sibling_path vs (S h) steps (p / 2)
  end.
End Tree.

(** The table is the chain of hashes its use relies on. *)
Class DefaultsChain `{Sha256} := defaults_chain i d d' :
  DEFAULT_VALUES !! i = Some d -> DEFAULT_VALUES !! S i = Some d' -> d' = hash_two d d.

(** [t] is a correct array representation of the values [vs] with capacity
    [2^D]: every node of the array holds its subtree hash, except the nodes
    above the current root, which hold stale values. *)
Record represents `{Sha256} (D : nat) (t : MerkleTree) (vs : list (list byte)) : Prop := {
  rep_capacity : capacity t = 2 ^ D;
  rep_count : leaf_count t = length vs;
  rep_fits : length vs <= 2 ^ D;
  rep_length : length (nodes t) = 2 ^ S D - 1;
  rep_nodes h p : h <= D -> p < 2 ^ (D - h) ->
    ~ (Nat.log2_up (length vs) < h /\ p = 0) ->
    nodes t !! (2 ^ (D - h) - 1 + p) = Some (subtree vs h p);
}.

(** ** Lemmas: arithmetic of the heap layout *)
Lemma trailing_zeros_pow2 k : trailing_zeros (2 ^ k) = k.
Proof.
  unfold trailing_zeros. rewrite Nat2N.inj_pow. change (N.of_nat 2) with 2%N.
  assert (Hp : (2 ^ N.of_nat k)%N = Npos (Nat.iter k xO xH)).
  { induction k as [|k IH]; [done|]. rewrite Nat2N.inj_succ, N.pow_succ_r', IH. done. }
  rewrite Hp. clear Hp. induction k as [|k IH]; [done|].
  rewrite Nat.iter_succ. cbn [pos_trailing_zeros]. by rewrite IH.
Qed.

Lemma depth_spec t : depth t = Nat.log2_up (leaf_count t).
Proof. unfold depth, next_power_of_two. apply trailing_zeros_pow2. Qed.

Lemma pow2_pos k : 0 < 2 ^ k.
Proof. induction k; cbn; lia. Qed.
Lemma pow2_S k : 2 ^ S k = 2 * 2 ^ k.
Proof. apply Nat.pow_succ_r'. Qed.
Lemma pow2_sub D h : h < D -> 2 ^ (D - h) = 2 * 2 ^ (D - S h).
Proof. intros. rewrite <- pow2_S. f_equal. lia. Qed.

(** Position [p] at height [h] of a tree of height [D]. *)
Definition idx (D h p : nat) : nat := 2 ^ (D - h) - 1 + p.

Lemma idx_parent D h p : h < D -> (idx D h p - 1) / 2 = idx D (S h) (p / 2).
Proof.
  intros Hh. unfold idx. rewrite (pow2_sub D h Hh).
  pose proof (pow2_pos (D - S h)).
  replace (2 * 2 ^ (D - S h) - 1 + p - 1) with (p + (2 ^ (D - S h) - 1) * 2) by lia.
  rewrite Nat.div_add by lia. lia.
Qed.
Lemma idx_left D h q : h < D -> idx D (S h) q * 2 + 1 = idx D h (2 * q).
Proof. intros Hh. unfold idx. rewrite (pow2_sub D h Hh). pose proof (pow2_pos (D - S h)). lia. Qed.
Lemma idx_right D h q : h < D -> idx D (S h) q * 2 + 2 = idx D h (2 * q + 1).
Proof. intros Hh. unfold idx. rewrite (pow2_sub D h Hh). pose proof (pow2_pos (D - S h)). lia. Qed.

Lemma idx_inj D h p h' p' :
  h <= D -> h' <= D -> p < 2 ^ (D - h) -> p' < 2 ^ (D - h') ->
  idx D h p = idx D h' p' -> h = h' /\ p = p'.
Proof.
  intros Hh Hh' Hp Hp' Heq. unfold idx in Heq.
  pose proof (pow2_pos (D - h)). pose proof (pow2_pos (D - h')).
  assert (D - h = D - h').
  { rewrite <- (Nat.log2_unique' (2 ^ (D - h) + p) (D - h) p) by lia.
    rewrite <- (Nat.log2_unique' (2 ^ (D - h') + p') (D - h') p') by lia.
    f_equal. lia. }
  assert (h = h') as -> by lia. split; lia.
Qed.

Lemma idx_bound D h p : h <= D -> p < 2 ^ (D - h) -> idx D h p < 2 ^ S D - 1.
Proof.
  intros Hh Hp. unfold idx. rewrite pow2_S.
  assert (2 ^ (D - h) <= 2 ^ D) by (apply Nat.pow_le_mono_r; lia).
  pose proof (pow2_pos (D - h)). lia.
Qed.

Lemma idx_odd D h p : h < D -> Nat.odd (idx D h p) = Nat.even p.
Proof.
  intros Hh. unfold idx. rewrite (pow2_sub D h Hh). pose proof (pow2_pos (D - S h)).
  replace (2 * 2 ^ (D - S h) - 1 + p) with (S (p + 2 * (2 ^ (D - S h) - 1))) by lia.
  rewrite Nat.odd_succ, Nat.even_add_mul_2. done.
Qed.

Lemma log2_up_le_iff n k : Nat.log2_up n <= k <-> n <= 2 ^ k.
Proof. destruct (decide (n = 0)) as [->|]; [split; [|cbn]; lia|]. rewrite Nat.log2_up_le_pow2; lia. Qed.
Lemma log2_up_S n : Nat.log2_up (S n) <= S (Nat.log2_up n).
Proof.
  apply log2_up_le_iff. rewrite pow2_S.
  pose proof (proj1 (log2_up_le_iff n (Nat.log2_up n)) ltac:(lia)).
  pose proof (pow2_pos (Nat.log2_up n)). lia.
Qed.

(** ** Lemmas: reference trees *)
Section Reference.
Context `{Sha256}.

Lemma DEFAULT_0 : DEFAULT_VALUES !! 0 = Some (zeros 32).
Proof. vm_compute. reflexivity. Qed.

(** A subtree without values is the default node of its height. *)
Lemma subtree_default `{!DefaultsChain} vs h p d :
  DEFAULT_VALUES !! h = Some d -> length vs <= p * 2 ^ h -> subtree vs h p = d.
Proof.
  revert p d; induction h as [|h IH]; intros p d Hd Hp; cbn [subtree].
  - rewrite DEFAULT_0 in Hd. rewrite lookup_ge_None_2 by (cbn in *; lia). by simplify_eq.
  - destruct (lookup_lt_is_Some_2 DEFAULT_VALUES h) as [d0 Hd0].
    { apply lookup_lt_Some in Hd. lia. }
    rewrite pow2_S in Hp.
    rewrite (IH (2 * p) d0), (IH (2 * p + 1) d0) by (done || nia).
    symmetry. by apply (defaults_chain h).
Qed.

(** Appending a value changes only the subtrees that contain its leaf. *)
Lemma subtree_app vs v h p :
  p <> length vs / 2 ^ h -> subtree (vs ++ [v]) h p = subtree vs h p.
Proof.
  revert p; induction h as [|h IH]; intros p Hp; cbn [subtree].
  - rewrite Nat.pow_0_r, Nat.div_1_r in Hp.
    destruct (decide (p < length vs)); [by rewrite lookup_app_l|].
    rewrite !lookup_ge_None_2; [done| |]; rewrite ?length_app; cbn; lia.
  - assert (Hd : length vs / 2 ^ S h = length vs / 2 ^ h / 2).
    { rewrite pow2_S, Nat.mul_comm, Nat.Div0.div_div. done. }
    rewrite Hd in Hp. pose proof (Nat.div_mod_eq (length vs / 2 ^ h) 2).
    pose proof (Nat.mod_upper_bound (length vs / 2 ^ h) 2 ltac:(lia)).
    rewrite !IH; [done|lia..].
Qed.
End Reference.

(** ** Lemmas: the array operations *)
Section TreeLemmas.
Context `{Sha256} {E : Type}.

Lemma get_node_ok t i v : get_node (E := E) t i = Ok v <-> nodes t !! i = Some v.
Proof. apply expect_ok. Qed.

Lemma set_node_lt t i v :
  i < length (nodes t) ->
  set_node (E := E) t i v = Ok (mk_Tree (<[i := v]> (nodes t)) (capacity t) (leaf_count t)).
Proof. intros. unfold set_node. by rewrite decide_True. Qed.

(** Levels of doubling width, laid out one after the other. *)
Lemma length_levels k (l : list Node) :
  length (concat (imap (fun level d => replicate (2 ^ (k + level)) d) l)) = 2 ^ (k + length l) - 2 ^ k.
Proof.
  revert k; induction l as [|d l IH]; intros k; cbn [imap concat length].
  - rewrite Nat.add_0_r. cbn. lia.
  - rewrite length_app, length_replicate.
    rewrite (imap_ext _ (fun level d => replicate (2 ^ (S k + level)) d)), IH.
    2:{ intros. unfold compose. by rewrite <- plus_n_Sm. }
    rewrite Nat.add_0_r, <- plus_n_Sm. cbn [Nat.add]. rewrite !pow2_S.
    assert (2 ^ k <= 2 ^ (k + length l)) by (apply Nat.pow_le_mono_r; lia). lia.
Qed.

Lemma lookup_levels k (l : list Node) i p :
  i < length l -> p < 2 ^ (k + i) ->
  concat (imap (fun level d => replicate (2 ^ (k + level)) d) l) !! (2 ^ (k + i) - 2 ^ k + p) = l !! i.
Proof.
  revert k i; induction l as [|d l IH]; intros k i Hi Hp; cbn [imap concat length] in *; [lia|].
  rewrite (imap_ext _ (fun level d => replicate (2 ^ (S k + level)) d)).
  2:{ intros. unfold compose. by rewrite <- plus_n_Sm. }
  destruct i as [|i].
  - rewrite Nat.add_0_r in *. rewrite lookup_app_l by (rewrite length_replicate; lia).
    rewrite Nat.sub_diag. by apply lookup_replicate_2.
  - rewrite Nat.add_0_r. replace (k + S i) with (S k + i) in * by lia.
    assert (2 ^ S k <= 2 ^ (S k + i)) by (apply Nat.pow_le_mono_r; lia).
    rewrite pow2_S in *.
    rewrite lookup_app_r; rewrite length_replicate; [|lia].
    change ((d :: l) !! S i) with (l !! i).
    rewrite <- (IH (S k) i) by (done || lia). f_equal. rewrite pow2_S. lia.
Qed.

Lemma with_capacity_pow2 D :
  D < 32 ->
  exists t, with_capacity (E := E) (2 ^ D) = Ok t /\
    capacity t = 2 ^ D /\ leaf_count t = 0 /\ length (nodes t) = 2 ^ S D - 1 /\
    (forall h p, h <= D -> p < 2 ^ (D - h) -> nodes t !! idx D h p = DEFAULT_VALUES !! h).
Proof.
  intros HD. assert (Hlen : length DEFAULT_VALUES = 32) by done.
  unfold with_capacity, next_power_of_two. rewrite Nat.log2_up_pow2, trailing_zeros_pow2 by lia.
  rewrite bool_decide_true by (rewrite Hlen; lia).
  eexists. split; [done|]. cbn [capacity leaf_count nodes]. do 2 (split; [done|]).
  set (levels := reverse (take (S D) DEFAULT_VALUES)).
  assert (Hl : length levels = S D).
  { unfold levels. rewrite length_reverse, length_take, Hlen. lia. }
  split.
  - pose proof (length_levels 0 levels) as HH. cbn [Nat.add] in HH. rewrite HH, Hl. done.
  - intros h p Hh Hp. pose proof (lookup_levels 0 levels (D - h) p) as HH.
    cbn [Nat.add] in HH. rewrite Nat.pow_0_r in HH. unfold idx. rewrite HH by lia.
    unfold levels. rewrite reverse_lookup by (rewrite length_take, Hlen; lia).
    rewrite length_take, Hlen, lookup_take_lt by lia. f_equal. lia.
Qed.
End TreeLemmas.

(** ** Lemmas: the invariant [represents] *)
Section Represents.
Context `{Sha256, !DefaultsChain} {E : Type}.

Lemma with_capacity_represents D :
  D < 32 -> exists t, with_capacity (E := E) (2 ^ D) = Ok t /\ represents D t [].
Proof.
  intros HD. destruct (with_capacity_pow2 (E := E) D HD) as (t & Ht & Hc & Hn & Hl & Hnodes).
  exists t. split; [done|]. constructor; cbn; try (done || lia).
  intros h p Hh Hp _. change (2 ^ (D - h) - 1 + p) with (idx D h p).
  rewrite Hnodes by done.
  destruct (lookup_lt_is_Some_2 DEFAULT_VALUES h) as [d Hd]; [cbn; lia|].
  rewrite Hd. f_equal. symmetry. apply subtree_default; [done|cbn; lia].
Qed.

(** The index shift of the reallocation maps a node to the same position of
    the left half of the larger tree. *)
Lemma realloc_index D h p :
  h <= D -> p < 2 ^ (D - h) ->
  idx D h p + prev_power_of_two (idx D h p + 1) = idx (S D) h p.
Proof.
  intros Hh Hp. unfold prev_power_of_two, idx. pose proof (pow2_pos (D - h)).
  rewrite decide_False by lia.
  rewrite (Nat.log2_unique' (2 ^ (D - h) - 1 + p + 1) (D - h) p) by lia.
  replace (S D - h) with (S (D - h)) by lia. rewrite pow2_S. lia.
Qed.

(** Every array index is the index of a position. *)
Lemma idx_surj D i :
  i < 2 ^ S D - 1 -> exists h p, h <= D /\ p < 2 ^ (D - h) /\ i = idx D h p.
Proof.
  intros Hi. pose proof (Nat.log2_spec (S i) ltac:(lia)) as [H1 H2].
  assert (Hl : Nat.log2 (S i) <= D).
  { apply Nat.lt_succ_r, Nat.log2_lt_pow2; lia. }
  exists (D - Nat.log2 (S i)), (S i - 2 ^ Nat.log2 (S i)).
  replace (D - (D - Nat.log2 (S i))) with (Nat.log2 (S i)) by lia.
  rewrite pow2_S in H2. unfold idx.
  replace (D - (D - Nat.log2 (S i))) with (Nat.log2 (S i)) by lia.
  pose proof (pow2_pos (Nat.log2 (S i))). lia.
Qed.

(** A copy loop [for (i, v) in l { this[g i] = v }] with [g] injective. *)
Lemma copy_loop (g : nat -> nat) (l : list Node) this :
  (forall i j, i < length l -> j < length l -> g i = g j -> i = j) ->
  (forall i, i < length l -> g i < length (nodes this)) ->
  exists t', fold_o (fun this iv => set_node (E := E) this (g iv.1) iv.2) this
               (zip (seq 0 (length l)) l) = Ok t' /\
    capacity t' = capacity this /\ length (nodes t') = length (nodes this) /\
    (forall i, i < length l -> nodes t' !! g i = l !! i) /\
    (forall j, (forall i, i < length l -> g i <> j) -> nodes t' !! j = nodes this !! j).
Proof.
  revert this. induction l as [|v l IH] using rev_ind; intros this Hinj Hlt.
  - exists this. cbn. repeat split; try done. intros; lia.
  - rewrite length_app in *. cbn in *. rewrite Nat.add_1_r in *.
    destruct (IH this) as (t1 & Ht1 & Hc1 & Hl1 & Hin & Hout); [auto with lia..|].
    rewrite seq_S, zip_with_app by (by rewrite length_seq). cbn.
    rewrite fold_o_app, Ht1. cbn. rewrite set_node_lt by (rewrite Hl1; apply Hlt; lia). cbn.
    eexists. split; [done|]. cbn. split; [done|]. split; [by rewrite length_insert|]. split.
    + intros i Hi. destruct (decide (i = length l)) as [->|].
      * rewrite list_lookup_insert_eq by (rewrite Hl1; apply Hlt; lia).
        by rewrite lookup_app_r, Nat.sub_diag by lia.
      * rewrite list_lookup_insert_ne.
        2:{ intros Heq. apply Hinj in Heq; lia. }
        rewrite Hin by lia. by rewrite lookup_app_l by lia.
    + intros j Hj. rewrite list_lookup_insert_ne by (apply Hj; lia).
      apply Hout. intros i Hi. apply Hj. lia.
Qed.

Lemma realloc_represents D t vs :
  S D < 32 -> represents D t vs -> length vs = 2 ^ D ->
  exists t', reallocate_to_double_capacity (E := E) t = Ok t' /\ represents (S D) t' vs.
Proof.
  intros HD [Hc Hn Hf Hl Hnodes] Hfull. unfold reallocate_to_double_capacity.
  rewrite Hc, <- pow2_S.
  destruct (with_capacity_pow2 (E := E) (S D) HD) as (t0 & Ht0 & Hc0 & _ & Hl0 & Hd0).
  rewrite Ht0. cbn [mbind outcome_bind].
  pose (g i := i + prev_power_of_two (i + 1)).
  assert (Hg : forall h p, h <= D -> p < 2 ^ (D - h) -> g (idx D h p) = idx (S D) h p)
    by apply realloc_index.
  assert (Hmono : forall k, k <= D -> 2 ^ (S D - k) = 2 * 2 ^ (D - k)).
  { intros k Hk. rewrite <- pow2_S. f_equal. lia. }
  destruct (copy_loop g (nodes t) t0) as (t1 & Ht1 & Hc1 & Hl1 & Hin & Hout).
  - intros i j Hi Hj Heq. rewrite Hl in Hi, Hj.
    apply idx_surj in Hi as (h & p & Hh & Hp & ->). apply idx_surj in Hj as (h' & p' & Hh' & Hp' & ->).
    rewrite !Hg in Heq by done.
    apply idx_inj in Heq as [-> ->]; [done|lia..| |]; rewrite Hmono; lia.
  - intros i Hi. rewrite Hl in Hi. apply idx_surj in Hi as (h & p & Hh & Hp & ->).
    rewrite Hg, Hl0 by done. apply idx_bound; [lia|]. rewrite Hmono; lia.
  - rewrite (fold_o_ext _ (fun this iv => set_node this (g iv.1) iv.2)) by (by intros ? []).
    rewrite Ht1. cbn [mbind outcome_bind]. eexists. split; [done|].
    pose proof (pow2_pos D).
    constructor; cbn [capacity leaf_count nodes]; [congruence|done|rewrite pow2_S; lia|congruence|].
    intros h p Hh Hp Hst. change (2 ^ (S D - h) - 1 + p) with (idx (S D) h p).
    rewrite Hfull, Nat.log2_up_pow2 in Hst by lia.
    destruct (decide (h = S D)) as [->|Hne].
    { rewrite Nat.sub_diag in Hp. cbn in Hp. lia. }
    destruct (decide (p < 2 ^ (D - h))) as [Hlow|Hhigh].
    + rewrite <- Hg by lia. rewrite Hin by (rewrite Hl; apply idx_bound; lia).
      apply Hnodes; [lia|done|]. rewrite Hfull, Nat.log2_up_pow2 by lia. lia.
    + rewrite Hout.
      * rewrite Hd0 by done. destruct (lookup_lt_is_Some_2 DEFAULT_VALUES h) as [d Hd]; [cbn; lia|].
        rewrite Hd. f_equal. symmetry. apply subtree_default; [done|].
        rewrite Hfull. replace D with (D - h + h) at 1 by lia. rewrite Nat.pow_add_r. nia.
      * intros i Hi Heq. rewrite Hl in Hi. apply idx_surj in Hi as (h' & p' & Hh' & Hp' & ->).
        rewrite Hg in Heq by done.
        apply idx_inj in Heq as [-> ->]; [lia|lia|lia| |done]. rewrite Hmono; lia.
Qed.
End Represents.

(** ** Lemmas: insertion *)
Section Insert.
Context `{Sha256, !DefaultsChain} {E : Type}.

(** All nodes are right for [vs] except the ancestors of leaf [n] above
    height [h], and the stale nodes above height [T]. *)
Definition path_inv (D T n h : nat) (ns : list Node) (vs : list (list byte)) : Prop :=
  forall h' p', h' <= D -> p' < 2 ^ (D - h') -> ~ (T < h' /\ p' = 0) ->
    ~ (h < h' /\ p' = n / 2 ^ h') -> ns !! idx D h' p' = Some (subtree vs h' p').

Lemma div_pow2_S n h : n / 2 ^ S h = n / 2 ^ h / 2.
Proof. by rewrite pow2_S, Nat.mul_comm, Nat.Div0.div_div. Qed.

Lemma div_pow2_lt n D h : h <= D -> n < 2 ^ D -> n / 2 ^ h < 2 ^ (D - h).
Proof.
  intros Hh Hn. pose proof (pow2_pos h). apply Nat.Div0.div_lt_upper_bound.
  rewrite <- Nat.pow_add_r. by replace (h + (D - h)) with D by lia.
Qed.

Lemma update_path_inv D T n vs steps h t :
  h + steps = T -> T <= D -> n < 2 ^ D -> length (nodes t) = 2 ^ S D - 1 ->
  path_inv D T n h (nodes t) vs ->
  exists t', update_path (E := E) steps t (idx D h (n / 2 ^ h)) = Ok t' /\
    capacity t' = capacity t /\ leaf_count t' = leaf_count t /\
    length (nodes t') = length (nodes t) /\ path_inv D T n T (nodes t') vs.
Proof.
  revert h t; induction steps as [|steps IH]; intros h t Hsum HT Hn Hl Hinv; cbn [update_path].
  - rewrite Nat.add_0_r in Hsum. subst T. by exists t.
  - assert (Hh : h < D) by lia. rewrite idx_parent, <- div_pow2_S by done.
    set (q := n / 2 ^ S h).
    assert (Hq : q < 2 ^ (D - S h)) by (apply div_pow2_lt; lia).
    pose proof (pow2_sub D h Hh) as Hpow.
    rewrite idx_left, idx_right by done.
    rewrite (proj2 (get_node_ok (E := E) t _ _) (Hinv h (2 * q) ltac:(lia) ltac:(lia) ltac:(lia) ltac:(lia))).
    rewrite (proj2 (get_node_ok (E := E) t _ _) (Hinv h (2 * q + 1) ltac:(lia) ltac:(lia) ltac:(lia) ltac:(lia))).
    cbn [mbind outcome_bind].
    assert (Hlt : idx D (S h) q < length (nodes t)) by (rewrite Hl; apply idx_bound; lia).
    rewrite set_node_lt by done. cbn [mbind outcome_bind].
    edestruct (IH (S h) (mk_Tree (<[idx D (S h) q := hash_two (subtree vs h (2 * q)) (subtree vs h (2 * q + 1))]>
                 (nodes t)) (capacity t) (leaf_count t))) as (t' & Ht' & Hc & Hlc & Hl' & Hi');
      cbn [nodes]; [lia|done|done|by rewrite length_insert| |].
    + intros h' p' Hh' Hp' Hst Hex.
      destruct (decide (h' = S h /\ p' = q)) as [[-> ->]|Hne].
      * by rewrite list_lookup_insert_eq.
      * rewrite list_lookup_insert_ne.
        2:{ intros Heq. apply Hne. apply idx_inj in Heq; [|lia..|done|done]. lia. }
        apply Hinv; [done..|]. intros [Hlt' ->]. apply Hex. split; [|done].
        destruct (decide (h' = S h)) as [->|]; [|lia]. exfalso. apply Hne. split; done.
    + exists t'. cbn [capacity leaf_count nodes] in *. rewrite length_insert in Hl'. done.
Qed.

Lemma insert_represents_fits D t vs v :
  represents D t vs -> length vs < 2 ^ D ->
  exists t', (let node_index := leaf_count t + capacity t - 1 in
              t1 ← set_node (E := E) t node_index (hash_value v);
              let t2 := mk_Tree (nodes t1) (capacity t1) (leaf_count t1 + 1) in
              update_path (depth t2) t2 node_index) = Ok t' /\
    represents D t' (vs ++ [v]).
Proof.
  intros [Hc Hn Hf Hl Hnodes] Hlt. cbn zeta.
  set (n := length vs) in *. pose (T := Nat.log2_up (S n)).
  assert (HT : T <= D) by (apply log2_up_le_iff; lia).
  assert (Hidx : leaf_count t + capacity t - 1 = idx D 0 n).
  { rewrite Hc, Hn. unfold idx. rewrite Nat.sub_0_r. pose proof (pow2_pos D). lia. }
  rewrite Hidx.
  assert (Hin : idx D 0 n < length (nodes t)).
  { rewrite Hl. apply idx_bound; [lia|]. by rewrite Nat.sub_0_r. }
  rewrite set_node_lt by done. cbn [mbind outcome_bind nodes capacity leaf_count].
  rewrite depth_spec. cbn [leaf_count]. rewrite Hn, Nat.add_1_r. fold T.
  edestruct (update_path_inv D T n (vs ++ [v]) T 0
      (mk_Tree (<[idx D 0 n := hash_value v]> (nodes t)) (capacity t) (S n)))
    as (t' & Ht' & Hc' & Hlc & Hl' & Hi'); cbn [nodes]; [lia|done|done|by rewrite length_insert| |].
  - intros h p Hh Hp Hst Hex. destruct (decide (h = 0 /\ p = n)) as [[-> ->]|Hne].
    + rewrite list_lookup_insert_eq by done. cbn [subtree].
      unfold n. by rewrite lookup_app_r, Nat.sub_diag by lia.
    + rewrite list_lookup_insert_ne.
      2:{ intros Heq. apply Hne. apply idx_inj in Heq; [lia|lia|lia| |done]. by rewrite Nat.sub_0_r. }
      assert (Hoff : p <> n / 2 ^ h).
      { intros ->. destruct (decide (h = 0)) as [->|]; [|apply Hex; split; [lia|done]].
        apply Hne. split; [done|]. by rewrite Nat.pow_0_r, Nat.div_1_r. }
      rewrite subtree_app by done. apply Hnodes; [done..|]. fold n.
      intros [Hs ->]. pose proof (log2_up_S n) as Hup. fold T in Hup.
      apply Hoff. symmetry. apply Nat.div_small.
      apply Nat.lt_le_trans with (S n); [lia|]. apply log2_up_le_iff. fold T. lia.
  - rewrite Nat.pow_0_r, Nat.div_1_r in Ht'. exists t'. split; [exact Ht'|].
    cbn [capacity leaf_count nodes] in *. rewrite length_insert in Hl'.
    assert (Hlen : length (vs ++ [v]) = S n) by (rewrite length_app; cbn; lia).
    constructor; rewrite ?Hlen; try congruence; [lia|].
    intros h p Hh Hp Hst. apply Hi'; [done..|]. intros [Hgt ->].
    apply Hst. split; [done|]. apply Nat.div_small.
    apply Nat.lt_le_trans with (S n); [lia|]. apply log2_up_le_iff. fold T. lia.
Qed.

(** [insert] never panics below the table's capacity, returns the position of
    the value, and maintains the representation. *)
Lemma insert_represents D t vs v :
  represents D t vs -> (if decide (length vs = 2 ^ D) then S D else D) < 32 ->
  exists t', insert (E := E) t v = Ok (t', length vs) /\
    represents (if decide (length vs = 2 ^ D) then S D else D) t' (vs ++ [v]).
Proof.
  intros Hrep HD. unfold insert. pose proof Hrep as [Hc Hn Hf _ _].
  destruct (decide (length vs = 2 ^ D)) as [Hfull|Hroom].
  - rewrite decide_True by congruence.
    destruct (realloc_represents (E := E) D t vs HD Hrep Hfull) as (t1 & Ht1 & Hrep1).
    rewrite Ht1. cbn [mbind outcome_bind].
    destruct (insert_represents_fits (S D) t1 vs v Hrep1) as (t' & Ht' & Hrep').
    { rewrite Hfull, pow2_S. pose proof (pow2_pos D). lia. }
    exists t'. split; [|done]. rewrite (rep_count _ _ _ Hrep1) in *.
    cbn zeta in Ht'. apply bind_ok in Ht' as (t2 & H2 & H3). rewrite H2. cbn [mbind outcome_bind].
    by rewrite H3.
  - rewrite decide_False by congruence. cbn [mbind outcome_bind].
    destruct (insert_represents_fits D t vs v Hrep) as (t' & Ht' & Hrep'); [lia|].
    exists t'. split; [|done]. rewrite Hn in *.
    cbn zeta in Ht'. apply bind_ok in Ht' as (t2 & H2 & H3). rewrite H2. cbn [mbind outcome_bind].
    by rewrite H3.
Qed.
End Insert.

(** ** Lemmas: root and authentication paths *)
Section Paths.
Context `{Sha256} {E : Type}.

Lemma root_index_spec D t vs :
  represents D t vs -> root_index t = idx D (Nat.log2_up (length vs)) 0.
Proof.
  intros [Hc Hn Hf _ _]. unfold root_index. rewrite depth_spec, Hc, Hn, trailing_zeros_pow2.
  unfold idx. case_decide as Hd; [rewrite Hd, Nat.sub_diag; done|lia].
Qed.

Lemma root_spec D t vs : represents D t vs -> root (E := E) t = Ok (merkle_root vs).
Proof.
  intros Hrep. unfold root, merkle_root. rewrite (root_index_spec D t vs Hrep).
  apply get_node_ok. destruct Hrep as [_ _ Hf _ Hnodes].
  apply Hnodes; [by apply log2_up_le_iff|apply pow2_pos|lia].
Qed.

Lemma even_sibling p : Nat.even p = true -> (p + 1) / 2 = p / 2 /\ p = 2 * (p / 2).
Proof.
  intros [k ->]%Nat.even_spec. pose proof (Nat.div_mod_eq (2 * k + 1) 2).
  pose proof (Nat.mod_upper_bound (2 * k + 1) 2 ltac:(lia)).
  pose proof (Nat.div_mod_eq (2 * k) 2). pose proof (Nat.mod_upper_bound (2 * k) 2 ltac:(lia)). lia.
Qed.
Lemma odd_sibling p : Nat.even p = false -> p = 2 * (p / 2) + 1.
Proof.
  intros He. assert (Ho : Nat.odd p = true) by (unfold Nat.odd; by rewrite He).
  apply Nat.odd_spec in Ho as [k ->]. pose proof (Nat.div_mod_eq (2 * k + 1) 2).
  pose proof (Nat.mod_upper_bound (2 * k + 1) 2 ltac:(lia)). lia.
Qed.

Lemma path_loop_spec D t vs fuel steps h p :
  represents D t vs -> h + steps = Nat.log2_up (length vs) -> steps <= fuel ->
  p < 2 ^ steps ->
  path_loop (E := E) fuel t (idx D h p) (idx D (Nat.log2_up (length vs)) 0) =
    Ok (sibling_path vs h steps p).
Proof.
  intros Hrep. set (T := Nat.log2_up (length vs)).
  assert (HT : T <= D) by (apply log2_up_le_iff, Hrep).
  revert fuel h p; induction steps as [|steps IH]; intros fuel h p Hsum Hfuel Hp.
  - cbn in Hp. assert (h = T) as -> by lia. assert (p = 0) as -> by lia.
    destruct fuel; cbn [path_loop]; by rewrite decide_True.
  - destruct fuel as [|fuel]; [lia|]. cbn [path_loop sibling_path]. rewrite pow2_S in Hp.
    assert (Hpow : 2 ^ S steps <= 2 ^ (D - h)) by (apply Nat.pow_le_mono_r; lia).
    rewrite pow2_S in Hpow. pose proof (pow2_sub D h ltac:(lia)) as Hsub.
    rewrite decide_False.
    2:{ intros Heq. apply idx_inj in Heq; [lia|lia|lia|lia|apply pow2_pos]. }
    rewrite idx_odd, idx_parent by lia.
    assert (Hget : forall q, q < 2 ^ (D - h) -> get_node (E := E) t (idx D h q) = Ok (subtree vs h q)).
    { intros q Hq. apply get_node_ok. apply (rep_nodes _ _ _ Hrep); [lia|done|]. fold T. lia. }
    assert (Hsib : (if Nat.even p then idx D h p + 1 else idx D h p - 1) =
                   idx D h (if Nat.even p then p + 1 else p - 1)).
    { unfold idx. pose proof (pow2_pos (D - h)). destruct (Nat.even p) eqn:He; [lia|].
      pose proof (odd_sibling p He). lia. }
    rewrite Hsib, Hget.
    2:{ destruct (Nat.even p) eqn:He; [|lia]. pose proof (even_sibling p He). lia. }
    cbn [mbind outcome_bind].
    rewrite IH; [done|lia|lia|]. apply Nat.Div0.div_lt_upper_bound. lia.
Qed.

Lemma authentication_path_spec D t vs i :
  represents D t vs ->
  get_authentication_path_for (E := E) t i =
    Ok (if decide (length vs <= i) then None
        else Some (sibling_path vs 0 (Nat.log2_up (length vs)) i)).
Proof.
  intros Hrep. pose proof Hrep as [Hc Hn Hf _ _]. unfold get_authentication_path_for.
  rewrite Hn. case_decide as Hi; [done|].
  rewrite (root_index_spec D t vs Hrep), Hc.
  replace (2 ^ D + i - 1) with (idx D 0 i).
  2:{ unfold idx. rewrite Nat.sub_0_r. pose proof (pow2_pos D). lia. }
  assert (HT : Nat.log2_up (length vs) <= D) by (by apply log2_up_le_iff).
  rewrite (path_loop_spec D t vs _ (Nat.log2_up (length vs))); [done|done|lia| |].
  - pose proof (Nat.pow_gt_lin_r 2 D ltac:(lia)). lia.
  - apply Nat.lt_le_trans with (length vs); [lia|]. by apply log2_up_le_iff.
Qed.

(** [compute_digest_for_path] climbs the reference tree along the path. *)
Lemma digest_for_path_loop vs steps h p :
  (foldl (fun (st : list byte * Z) (node : list byte) =>
      let '(result, level_index) := st in
      let is_left_child := (Z.land level_index 1 =? 0)%Z in
      let bytes := if is_left_child then result ++ node else node ++ result in
      (hash_bytes bytes, Z.shiftr level_index 1))
    (subtree vs h p, Z.of_nat p) (sibling_path vs h steps p)).1 =
  subtree vs (h + steps) (p / 2 ^ steps).
Proof.
  revert h p; induction steps as [|steps IH]; intros h p.
  - by rewrite Nat.pow_0_r, Nat.div_1_r, Nat.add_0_r.
  - cbn [sibling_path foldl].
    assert (Hsh : Z.shiftr (Z.of_nat p) 1 = Z.of_nat (p / 2)).
    { rewrite Z.shiftr_div_pow2 by lia. by rewrite Nat2Z.inj_div. }
    assert (Hev : (Z.land (Z.of_nat p) 1 =? 0)%Z = Nat.even p).
    { change 1%Z with (Z.ones 1). rewrite Z.land_ones by lia. change (2 ^ 1)%Z with 2%Z.
      destruct (Nat.even p) eqn:He.
      - pose proof (even_sibling p He). apply Z.eqb_eq.
        replace (Z.of_nat p) with (Z.of_nat (p / 2) * 2)%Z by lia. apply Z.mod_mul. lia.
      - pose proof (odd_sibling p He) as Ho. apply Z.eqb_neq.
        replace (Z.of_nat p) with (1 + Z.of_nat (p / 2) * 2)%Z by lia.
        rewrite Z.mod_add by lia. done. }
    rewrite Hsh, Hev.
    assert (Hup : hash_bytes (if Nat.even p
          then subtree vs h p ++ subtree vs h (if Nat.even p then p + 1 else p - 1)
          else subtree vs h (if Nat.even p then p + 1 else p - 1) ++ subtree vs h p) =
        subtree vs (S h) (p / 2)).
    { cbn [subtree]. unfold hash_two. destruct (Nat.even p) eqn:He.
      - pose proof (even_sibling p He) as [_ Hp]. by rewrite <- Hp.
      - pose proof (odd_sibling p He) as Hp. replace (p - 1) with (2 * (p / 2)) by lia.
        by rewrite <- Hp. }
    rewrite Hup, IH. f_equal; [lia|].
    rewrite pow2_S. by rewrite Nat.Div0.div_div.
Qed.

Lemma digest_for_path_spec vs i v :
  vs !! i = Some v ->
  compute_digest_for_path (mk_Commitment v)
    (Z.of_nat i, sibling_path vs 0 (Nat.log2_up (length vs)) i) = merkle_root vs.
Proof.
  intros Hv. unfold compute_digest_for_path, merkle_root. cbn [fst snd commitment_bytes].
  replace (hash_bytes v) with (subtree vs 0 i) by (cbn [subtree]; by rewrite Hv).
  rewrite digest_for_path_loop. cbn [Nat.add]. f_equal. apply Nat.div_small.
  apply lookup_lt_Some in Hv. apply Nat.lt_le_trans with (length vs); [done|]. by apply log2_up_le_iff.
Qed.
End Paths.

(** ** Soundness of membership proofs: what a path that recomputes a digest says
    about the commitments behind the digest.

    Unforgeability rests on SHA-256, so it is stated relative to the finitely
    many inputs that the verification and the construction of the tree hash:
    without a collision among them, and without a preimage of the null leaf
    among them, a path only verifies for a value that is in the tree. *)
Open Scope nat_scope.

Section Soundness.
Context `{Sha256}.

(** ** The inputs that are hashed *)

(** One level of [compute_digest_for_path]: what is hashed, and the next state. *)
Definition path_input (st : list byte * Z) (node : list byte) : list byte :=
  if (Z.land st.2 1 =? 0)%Z then st.1 ++ node else node ++ st.1.
Definition path_step (st : list byte * Z) (node : list byte) : list byte * Z :=
  (hash_bytes (path_input st node), Z.shiftr st.2 1).
Fixpoint path_inputs (st : list byte * Z) (path : list (list byte)) : list (list byte) :=
  match path with
  | [] => []
  | node :: path => path_input st node :: path_inputs (path_step st node) path
  end.
Definition proof_inputs (c : Commitment) (proof : MembershipProof) : list (list byte) :=
  commitment_bytes c :: path_inputs (hash_bytes (commitment_bytes c), proof.1) proof.2.

(** The inputs hashed to build the subtree of height [h] at position [p]. *)
Fixpoint subtree_inputs (vs : list (list byte)) (h p : nat) : list (list byte) :=
  match h with
  | O => match vs !! p with Some v => [v] | None => [] end
  | S h => (subtree vs h (2 * p) ++ subtree vs h (2 * p + 1))
           :: subtree_inputs vs h (2 * p) ++ subtree_inputs vs h (2 * p + 1)
  end.
Definition tree_inputs (vs : list (list byte)) : list (list byte) :=
  subtree_inputs vs (Nat.log2_up (length vs)) 0.

(** No collision among the inputs, and no preimage of the null leaf. *)
Record collision_free (inputs : list (list byte)) : Prop := {
  cf_injective x y : x ∈ inputs -> y ∈ inputs -> hash_bytes x = hash_bytes y -> x = y;
  cf_null x : x ∈ inputs -> hash_bytes x <> zeros 32;
}.

(** An executable test for it. *)
Definition collision_free_b (inputs : list (list byte)) : bool :=
  forallb (fun x => negb (bool_decide (hash_bytes x = zeros 32)) &&
    forallb (fun y => negb (bool_decide (hash_bytes x = hash_bytes y)) || bool_decide (x = y)) inputs)
    inputs.
Lemma collision_free_b_ok inputs : collision_free_b inputs = true -> collision_free inputs.
Proof.
  unfold collision_free_b. intros Hall. rewrite forallb_forall in Hall.
  assert (Hx : forall x, x ∈ inputs -> hash_bytes x <> zeros 32 /\
    forall y, y ∈ inputs -> hash_bytes x = hash_bytes y -> x = y).
  { intros x Hin. apply list_elem_of_In, Hall, andb_true_iff in Hin as [Hz Hy].
    apply negb_true_iff, bool_decide_eq_false in Hz. split; [done|]. intros y Hiny Heq.
    rewrite forallb_forall in Hy. apply list_elem_of_In, Hy, orb_true_iff in Hiny as [Hn|Hb].
    - by apply negb_true_iff, bool_decide_eq_false in Hn.
    - by apply bool_decide_eq_true in Hb. }
  split; [intros x y Hin Hiny; by apply Hx|intros x Hin; by apply Hx].
Qed.

Lemma collision_free_sub qs qs' : qs' ⊆ qs -> collision_free qs -> collision_free qs'.
Proof. intros Hsub [Hi Hz]. split; [intros x y Hx Hy; apply Hi; set_solver|intros x Hx; apply Hz; set_solver]. Qed.

(** ** Lemmas *)
Lemma compute_digest_path_step c proof :
  compute_digest_for_path c proof =
    (foldl path_step (hash_bytes (commitment_bytes c), proof.1) proof.2).1.
Proof.
  unfold compute_digest_for_path. f_equal.
  generalize (hash_bytes (commitment_bytes c), proof.1) as st.
  induction proof.2 as [|n path IH]; intros st; cbn [foldl]; [done|]. rewrite IH. by destruct st.
Qed.

Lemma path_inputs_snoc st path node :
  path_inputs st (path ++ [node]) = path_inputs st path ++ [path_input (foldl path_step st path) node].
Proof. revert st; induction path as [|n path IH]; intros st; cbn; [done|]. by rewrite IH. Qed.

Context `{!Sha256Laws}.

Lemma length_subtree vs h p : length (subtree vs h p) = 32.
Proof.
  destruct h as [|h]; cbn [subtree].
  - destruct (vs !! p); [apply length_hash_bytes|done].
  - apply length_hash_bytes.
Qed.

Lemma length_path_result st path : length st.1 = 32 -> length (foldl path_step st path).1 = 32.
Proof. revert st; induction path as [|n path IH]; intros st Hst; cbn; [done|]. apply IH, length_hash_bytes. Qed.

(** Descending the tree along the path. *)
Lemma path_in_subtree vs c path i h p :
  length (commitment_bytes c) = 32 -> Forall (fun v => length v = 32) vs ->
  Forall (fun n => length n = 32) path ->
  collision_free (proof_inputs c (i, path) ++ subtree_inputs vs h p) ->
  (foldl path_step (hash_bytes (commitment_bytes c), i) path).1 = subtree vs h p ->
  commitment_bytes c ∈ vs.
Proof.
  intros Hc Hvs. revert h p. induction path as [|node path IH] using rev_ind; intros h p Hpath Hcf Heq.
  - cbn in Heq. destruct h as [|h]; cbn [subtree] in Heq.
    + destruct (vs !! p) as [v|] eqn:Hv.
      * apply (cf_injective _ Hcf) in Heq as ->; [by eapply list_elem_of_lookup_2|left|].
        cbn. rewrite Hv. right. left.
      * by apply (cf_null _ Hcf) in Heq; [|left].
    + apply (cf_injective _ Hcf) in Heq; [|left|cbn; right; left].
      apply (f_equal length) in Heq. rewrite length_app, !length_subtree in Heq. lia.
  - rewrite foldl_app in Heq. cbn in Heq.
    apply Forall_app in Hpath as [Hpath Hnode]. apply Forall_cons in Hnode as [Hnode _].
    set (st := foldl path_step (hash_bytes (commitment_bytes c), i) path) in *.
    assert (Hst : length st.1 = 32) by apply length_path_result, length_hash_bytes.
    assert (Hlen : length (path_input st node) = 64).
    { unfold path_input. case_match; rewrite length_app; lia. }
    assert (Hin : forall x, x ∈ proof_inputs c (i, path) \/ x = path_input st node ->
      x ∈ proof_inputs c (i, path ++ [node])).
    { intros x. unfold proof_inputs. cbn [fst snd]. rewrite path_inputs_snoc. set_solver. }
    destruct h as [|h]; cbn [subtree] in Heq.
    + destruct (vs !! p) as [v|] eqn:Hv.
      * apply (cf_injective _ Hcf) in Heq; [| |].
        -- rewrite Forall_lookup in Hvs. specialize (Hvs p v Hv). cbn in Hvs. rewrite Heq in Hlen. lia.
        -- apply elem_of_app. left. apply Hin. by right.
        -- apply elem_of_app. right. cbn. rewrite Hv. left.
      * apply (cf_null _ Hcf) in Heq; [done|]. apply elem_of_app. left. apply Hin. by right.
    + apply (cf_injective _ Hcf) in Heq;
        [|apply elem_of_app; left; apply Hin; by right|apply elem_of_app; right; left].
      assert (Hsub : forall q, (q = 2 * p \/ q = 2 * p + 1) -> st.1 = subtree vs h q ->
        commitment_bytes c ∈ vs).
      { intros q Hq Hst'. apply (IH h q); [done| |done].
        eapply collision_free_sub; [|exact Hcf]. intros x.
        rewrite !elem_of_app. cbn [subtree_inputs]. rewrite elem_of_cons, elem_of_app.
        intros [Hx|Hx]; [left; apply Hin; by left|]. destruct Hq as [->| ->]; auto. }
      unfold path_input in Heq. case_match.
      * apply app_inj_1 in Heq as [Hl _]; [|by rewrite length_subtree]. by apply (Hsub (2 * p)); [left|].
      * apply app_inj_2 in Heq as [_ Hr]; [|by rewrite length_subtree]. by apply (Hsub (2 * p + 1)); [right|].
Qed.

Lemma digest_for_path_sound vs c proof :
  length (commitment_bytes c) = 32 -> Forall (fun v => length v = 32) vs ->
  Forall (fun n => length n = 32) proof.2 ->
  collision_free (proof_inputs c proof ++ tree_inputs vs) ->
  compute_digest_for_path c proof = merkle_root vs -> commitment_bytes c ∈ vs.
Proof.
  rewrite compute_digest_path_step. destruct proof as [i path]. cbn [fst snd].
  intros. by eapply path_in_subtree.
Qed.
End Soundness.
