(* ===== verification/Host.v ===== *)
(** Host-side programs and errors: [nssa/src/program.rs], [nssa/src/error.rs].

    The zkVM executor, the ELF loader and the generated image ids are
    third-party or generated code: they are the classes [ZkVm], [RiscZeroBinary]
    and [BuiltinPrograms]. *)

From S2P Require Import Prelude Bytes Account Ids ProgramCore.

(** ** error.rs *)
Inductive InvalidProgramBehaviorError :=
  | InconsistentAccountPreState (id : AccountId) (expected actual : Account)
  | InvalidAccountAuthorization (id : AccountId)
  | MismatchedProgramId (expected actual : ProgramId)
  | MismatchedCallerProgramId (expected actual : option ProgramId)
  | ExecutionValidationFailed (e : ExecutionValidationError)
  | ClaimedNonDefaultAccount (id : AccountId)
  | ClaimedUnauthorizedAccount (id : AccountId)
  | MismatchedPdaClaim (expected actual : AccountId)
  | DefaultAccountModifiedWithoutClaim (id : AccountId)
  | UndeclaredProgramDependency (p : ProgramId).

Inductive NssaError :=
  | InvalidInput (what : string)
  | InvalidProgramBehavior (e : InvalidProgramBehaviorError)
  | InstructionSerializationError (what : string)
  | InvalidPrivateKey
  | IoErr (e : IoError)
  | InvalidPublicKey
  | InvalidHexPublicKey
  | ProgramWriteInputFailed (what : string)
  | ProgramExecutionFailed (what : string)
  | ProgramProveFailed (what : string)
  | TransactionDeserializationError (what : string)
  | Core (e : NssaCoreError)
  | ProgramOutputDeserializationError (what : string)
  | CircuitOutputDeserializationError (what : string)
  | InvalidPrivacyPreservingProof
  | CircuitProvingError (what : string)
  | InvalidProgramBytecode
  | ProgramAlreadyExists
  | MaxChainedCallsDepthExceeded
  | MaxAccountNonceReached
  | OutOfValidityWindow.

#[global] Instance InvalidProgramBehaviorError_eq_dec : EqDecision InvalidProgramBehaviorError.
Proof. solve_decision. Defined.
#[global] Instance NssaError_eq_dec : EqDecision NssaError.
Proof. solve_decision. Defined.

(** ** program.rs *)
Record Program := mk_Program { program_id : ProgramId; elf : list byte }.
#[global] Instance Program_eq_dec : EqDecision Program.
Proof. solve_decision. Defined.

(** [ProgramBinary::decode(..)] followed by [compute_image_id]. *)
Class RiscZeroBinary := compute_image_id : list byte -> option ProgramId.

(** One run of the zkVM executor on an ELF with the four inputs that
    [write_inputs] writes: an error message, or the decoded journal. *)
Class ZkVm := vm_execute :
  list byte -> ProgramId -> option ProgramId -> list AccountWithMetadata -> InstructionData ->
  string + ProgramOutput.

(** A journal decodes to values of the Rust types. *)
Definition PostState_wf (p : AccountPostState) : Prop := Account_wf (post_account p).
Definition Output_wf (o : ProgramOutput) : Prop :=
  Forall (fun a => Account_wf (account a)) (pre_states o) /\ Forall PostState_wf (post_states o).
Class ZkVmLaws `{ZkVm} := vm_output_wf e p c pre instr o :
  vm_execute e p c pre instr = inr o -> Output_wf o.

(** The programs built into the node ([program_methods], generated at build). *)
Class BuiltinPrograms := {
  authenticated_transfer_program : Program;
  token_program : Program;
  amm_program : Program;
  ata_program : Program;
  clock_program : Program;
  vault_program : Program;
  faucet_program : Program;
  pinata_program : Program;
  pinata_token_program : Program;
}.

(** [Program::new] *)
Definition Program_new `{RiscZeroBinary} (bytecode : list byte) : outcome NssaError Program :=
  match compute_image_id bytecode with
  | Some id => Ok (mk_Program id bytecode)
  | None => Err InvalidProgramBytecode
  end.

(** [Program::execute] *)
Definition Program_execute `{ZkVm} (p : Program) (caller : option ProgramId)
    (pre : list AccountWithMetadata) (instr : InstructionData) : outcome NssaError ProgramOutput :=
  match vm_execute (elf p) (program_id p) caller pre instr with
  | inl e => Err (ProgramExecutionFailed e)
  | inr o => Ok o
  end.

Lemma Program_execute_wf `{ZkVm, !ZkVmLaws} p caller pre instr o :
  Program_execute p caller pre instr = Ok o -> Output_wf o.
Proof.
  unfold Program_execute. destruct (vm_execute _ _ _ _ _) eqn:Hv; intros; inv_ok.
  by eapply vm_output_wf.
Qed.
