(* ===== verification/State.v ===== *)
(** The chain state: [nssa/src/state.rs], with [programs/clock/core] and
    [programs/faucet/core].

    [V03State] holds the public accounts, the commitment set (a Merkle tree, an
    index from commitments to leaves and the history of roots), the nullifier
    set and the deployed programs.  A validated transaction is a [StateDiff];
    [apply_state_diff] is the only way a transaction changes the state. *)

From S2P Require Import Prelude Bytes Crypto Account Ids Borsh ProgramCore Host MerkleTree.

Open Scope Z_scope.

(** ** programs/clock/core, programs/faucet/core *)
Record ClockAccountData := mk_ClockData { clock_block_id : Z; clock_timestamp : Timestamp }.
Definition CLOCK_01_PROGRAM_ACCOUNT_ID : AccountId :=
  AccountId_new (bstr "/LEZ/ClockProgramAccount/0000001").
Definition CLOCK_10_PROGRAM_ACCOUNT_ID : AccountId :=
  AccountId_new (bstr "/LEZ/ClockProgramAccount/0000010").
Definition CLOCK_50_PROGRAM_ACCOUNT_ID : AccountId :=
  AccountId_new (bstr "/LEZ/ClockProgramAccount/0000050").
Definition CLOCK_PROGRAM_ACCOUNT_IDS : list AccountId :=
  [CLOCK_01_PROGRAM_ACCOUNT_ID; CLOCK_10_PROGRAM_ACCOUNT_ID; CLOCK_50_PROGRAM_ACCOUNT_ID].

Definition FAUCET_SEED_DOMAIN_SEPARATOR : list byte := bstr "/LEZ/v0.3/FaucetSeed/0000000000/".
Definition compute_faucet_seed : PdaSeed := PdaSeed_new FAUCET_SEED_DOMAIN_SEPARATOR.
Definition compute_faucet_account_id `{Sha256} (faucet_program_id : ProgramId) : AccountId :=
  for_public_pda faucet_program_id compute_faucet_seed.

(** ** Data *)
Record CommitmentSet := mk_CommitmentSet {
  merkle_tree : MerkleTree;
  commitments : gmap Commitment nat;
  root_history : gset CommitmentSetDigest;
}.
Abbreviation NullifierSet := (gset Nullifier).
Record V03State := mk_State {
  public_state : gmap AccountId Account;
  private_state : CommitmentSet * NullifierSet;
  programs : gmap ProgramId Program;
}.
(** [StateDiff] of [validated_state_diff.rs] *)
Record StateDiff := mk_Diff {
  signer_account_ids : list AccountId;
  public_diff : gmap AccountId Account;
  new_commitments : list Commitment;
  new_nullifiers : list Nullifier;
  diff_program : option Program;
}.

Definition with_public (f : gmap AccountId Account -> gmap AccountId Account) (st : V03State) :=
  mk_State (f (public_state st)) (private_state st) (programs st).

Section CommitmentSets.
Context `{Sha256}.

(** [CommitmentSet::digest], [contains], [with_capacity] *)
Definition digest (cs : CommitmentSet) : outcome NssaError CommitmentSetDigest :=
  root (E:=NssaError) (merkle_tree cs).
Definition cs_contains (cs : CommitmentSet) (c : Commitment) : bool :=
  bool_decide (is_Some (commitments cs !! c)).
Definition cs_with_capacity (c : nat) : outcome NssaError CommitmentSet :=
  t ← with_capacity (E:=NssaError) c; Ok (mk_CommitmentSet t ∅ ∅).

(** [CommitmentSet::get_proof_for] *)
Definition get_proof_for (cs : CommitmentSet) (c : Commitment) :
    outcome NssaError (option (nat * list Node)) :=
  match commitments cs !! c with
  | None => Ok None
  | Some index =>
      mbind (M := outcome NssaError) (fun path : option (list Node) =>
        Ok ((fun p : list Node => (index, p)) <$> path))
        (get_authentication_path_for (merkle_tree cs) index)
  end.

(** [CommitmentSet::extend] *)
Definition extend_one (cs : CommitmentSet) (c : Commitment) : outcome NssaError CommitmentSet :=
  '(t, index) ← MerkleTree.insert (E:=NssaError) (merkle_tree cs) (commitment_bytes c);
  Ok (mk_CommitmentSet t (<[c := index]> (commitments cs)) (root_history cs)).
Definition cs_extend (cs : CommitmentSet) (cms : list Commitment) :
    outcome NssaError CommitmentSet :=
  cs ← fold_o extend_one cs cms;
  d ← digest cs;
  Ok (mk_CommitmentSet (merkle_tree cs) (commitments cs) ({[d]} ∪ root_history cs)).
End CommitmentSets.

(** [NullifierSet::extend], and its [BorshDeserialize] check for duplicates. *)
Definition ns_extend (s : NullifierSet) (ns : list Nullifier) : NullifierSet :=
  foldl (fun s n => {[n]} ∪ s) s ns.
Definition ns_from_vec (v : list Nullifier) : outcome IoError NullifierSet :=
  fold_o (fun (set : NullifierSet) n =>
            if decide (n ∈ set) then Err (InvalidData "duplicate nullifier in NullifierSet")
            else Ok ({[n]} ∪ set)) ∅ v.

(** ** [impl V03State] *)

(** [get_account_by_id] *)
Definition get_account_by_id (st : V03State) (id : AccountId) : Account :=
  default Account_default (public_state st !! id).

(** [*self.get_account_by_id_mut(id)], read or overwritten *)
Definition insert_program (p : Program) (st : V03State) : V03State :=
  mk_State (public_state st) (private_state st) (<[program_id p := p]> (programs st)).

Section StateOps.
Context `{Sha256, BuiltinPrograms, Borsh ClockAccountData}.

Definition system_faucet_account_id : AccountId :=
  compute_faucet_account_id (program_id faucet_program).
Definition system_faucet_account : Account :=
  mk_Account (program_id authenticated_transfer_program) u128_max Data_default 0.

(** [Default for V03State] *)
Definition V03State_default : outcome NssaError V03State :=
  cs ← cs_with_capacity 32;
  Ok (mk_State {[system_faucet_account_id := system_faucet_account]} (cs, ∅) ∅).

(** [insert_clock_accounts] *)
Definition insert_clock_accounts (genesis_timestamp : Timestamp) (st : V03State) :
    outcome NssaError V03State :=
  let bytes := borsh_to_vec (mk_ClockData 0 genesis_timestamp) in
  fold_o (fun st id =>
    match Data_try_from bytes with
    | Ok d => Ok (with_public <[id := mk_Account (program_id clock_program) 0 d 0]> st)
    | _ => Panic "Clock account data should fit within accounts data"
    end) st CLOCK_PROGRAM_ACCOUNT_IDS.

(** [new_with_genesis_accounts] *)
Definition genesis_account (balance : Balance) : Account :=
  mk_Account (program_id authenticated_transfer_program) balance Data_default 0.
Definition new_with_genesis_accounts (initial_data : list (AccountId * Z))
    (initial_private_accounts : list (Commitment * Nullifier)) (genesis_timestamp : Timestamp) :
    outcome NssaError V03State :=
  let public := foldl (fun (m : gmap AccountId Account) ib => <[ib.1 := genesis_account ib.2]> m)
                  ∅ initial_data in
  let public := <[system_faucet_account_id := system_faucet_account]> public in
  cs ← cs_with_capacity 32;
  cs ← cs_extend cs [DUMMY_COMMITMENT];
  cs ← cs_extend cs initial_private_accounts.*1;
  let nullifier_set := ns_extend ∅ initial_private_accounts.*2 in
  let this := mk_State public (cs, nullifier_set) ∅ in
  let this := insert_program clock_program this in
  this ← insert_clock_accounts genesis_timestamp this;
  Ok (foldl (fun st p => insert_program p st) this
        [authenticated_transfer_program; token_program; amm_program; ata_program;
         vault_program; faucet_program]).

(** [add_pinata_program], [add_pinata_token_program] (testnet only) *)
Definition pinata_data : outcome NssaError Data :=
  match Data_try_from (replicate 33 Byte.x03) with
  | Ok d => Ok d
  | _ => Panic "should fit"
  end.
Definition add_pinata_program (id : AccountId) (st : V03State) : outcome NssaError V03State :=
  let st := insert_program pinata_program st in
  d ← pinata_data;
  Ok (with_public <[id := mk_Account (program_id pinata_program) 1500000 d 0]> st).
Definition add_pinata_token_program (id : AccountId) (st : V03State) :
    outcome NssaError V03State :=
  let st := insert_program pinata_token_program st in
  d ← pinata_data;
  Ok (with_public <[id := mk_Account (program_id pinata_token_program) 0 d 0]> st).

(** The nonce increment of one signer. *)
Definition increment_signer_nonce (st : V03State) (id : AccountId) : outcome NssaError V03State :=
  let a := get_account_by_id st id in
  n ← public_account_nonce_increment (nonce a);
  Ok (with_public <[id := set_nonce n a]> st).

(** [apply_state_diff] *)
Definition apply_state_diff (st : V03State) (diff : StateDiff) : outcome NssaError V03State :=
  let st := with_public (fun m => map_fold (fun id a m => <[id := a]> m) m (public_diff diff)) st in
  st ← fold_o increment_signer_nonce st (signer_account_ids diff);
  cs ← cs_extend (private_state st).1 (new_commitments diff);
  let ns := ns_extend (private_state st).2 (new_nullifiers diff) in
  let st := mk_State (public_state st) (cs, ns) (programs st) in
  Ok (match diff_program diff with Some p => insert_program p st | None => st end).
End StateOps.

(** [get_proof_for_commitment], [commitment_set_digest] *)
Definition get_proof_for_commitment `{Sha256} (st : V03State) (c : Commitment) :=
  get_proof_for (private_state st).1 c.
Definition commitment_set_digest `{Sha256} (st : V03State) : outcome NssaError CommitmentSetDigest :=
  digest (private_state st).1.

(** [check_commitments_are_new], [check_nullifiers_are_valid] *)
Definition check_commitments_are_new (st : V03State) (cms : list Commitment) :
    outcome NssaError () :=
  iter_o (fun c => ensure (negb (cs_contains (private_state st).1 c))
                     (InvalidInput "Commitment already seen")) cms.
Definition check_nullifiers_are_valid (st : V03State) (ns : list (Nullifier * CommitmentSetDigest)) :
    outcome NssaError () :=
  iter_o (fun nd : Nullifier * CommitmentSetDigest =>
    ensure (negb (bool_decide (nd.1 ∈ (private_state st).2))) (InvalidInput "Nullifier already seen") ;;
    ensure (bool_decide (nd.2 ∈ root_history (private_state st).1))
      (InvalidInput "Unrecognized commitment set digest")) ns.

(** ** Invariants *)

(** [cs] is a faithful index of the commitments [vs], in insertion order. *)
Record cs_represents `{Sha256} (D : nat) (cs : CommitmentSet) (vs : list Commitment) : Prop := {
  csr_tree : represents D (merkle_tree cs) (commitment_bytes <$> vs);
  csr_index c i : commitments cs !! c = Some i -> vs !! i = Some c;
  csr_dom c : c ∈ vs -> is_Some (commitments cs !! c);
}.

(** The native balance held by all public accounts. *)
Definition total_balance (m : gmap AccountId Account) : Z :=
  map_fold (fun _ a s => balance a + s) 0 m.

(** The state invariant: the commitment set indexes its commitments, has room
    in the model of the tree, and its history holds its current digest and
    otherwise only digests of commitment sets it went through. *)
Record state_inv `{Sha256} (st : V03State) (vs : list Commitment) : Prop := {
  inv_cs : exists D, (D < 32)%nat /\ cs_represents D (private_state st).1 vs;
  inv_digest : merkle_root (commitment_bytes <$> vs) ∈ root_history (private_state st).1;
  inv_history r : r ∈ root_history (private_state st).1 ->
    exists vs0, vs0 `prefix_of` vs /\ r = merkle_root (commitment_bytes <$> vs0);
}.

(** ** Lemmas: accounts *)
Lemma map_fold_insert_union (d m : gmap AccountId Account) :
  map_fold (fun id a m => <[id := a]> m) m d = d ∪ m.
Proof.
  apply (map_fold_weak_ind (fun r d => r = d ∪ m)); [by rewrite (left_id_L ∅ (∪))|].
  intros i x d' r Hi ->. by rewrite insert_union_l.
Qed.

Lemma total_balance_insert m id a :
  total_balance (<[id := a]> m) =
    total_balance m + balance a - balance (default Account_default (m !! id)).
Proof.
  unfold total_balance.
  assert (Hins : forall x (m' : gmap AccountId Account), m' !! id = None ->
    map_fold (fun _ a s => balance a + s) 0 (<[id := x]> m') =
      balance x + map_fold (fun _ a s => balance a + s) 0 m').
  { intros x m' Hm'. apply (map_fold_insert_L (fun (_ : AccountId) a s => balance a + s)); [intros; lia|done]. }
  destruct (m !! id) as [b|] eqn:Hid; cbn [default].
  - rewrite <- (insert_delete_id m id b Hid) at 2. rewrite <- insert_delete_eq.
    rewrite !Hins by apply lookup_delete_eq. cbn. lia.
  - rewrite Hins by done. cbn. lia.
Qed.

(** Writing back the account already read changes no balance. *)
Lemma total_balance_insert_same m id a :
  balance a = balance (default Account_default (m !! id)) ->
  total_balance (<[id := a]> m) = total_balance m.
Proof. intros Ha. rewrite total_balance_insert. lia. Qed.

Lemma get_insert st id a id' :
  get_account_by_id (with_public <[id := a]> st) id' =
    if decide (id = id') then a else get_account_by_id st id'.
Proof.
  unfold get_account_by_id, with_public. cbn.
  case_decide; simplify_map_eq; done.
Qed.

Lemma increment_signer_nonce_ok st id st' :
  increment_signer_nonce st id = Ok st' ->
  nonce (get_account_by_id st id) < u128_max /\
  st' = with_public <[id := set_nonce (nonce (get_account_by_id st id) + 1)
                              (get_account_by_id st id)]> st.
Proof.
  unfold increment_signer_nonce, public_account_nonce_increment.
  intros H; inv_ok. apply checked_add_Some in Hs as [Hlt ->].
  split; [unfold u128_max; lia|done].
Qed.

(** What the loop over the signers does to one account. *)
Record nonce_bumped (k : nat) (a a' : Account) : Prop := {
  nb_owner : program_owner a' = program_owner a;
  nb_balance : balance a' = balance a;
  nb_data : data a' = data a;
  nb_nonce : nonce a' = nonce a + Z.of_nat k;
}.
Definition occurrences (id : AccountId) (ids : list AccountId) : nat :=
  length (filter (fun i => i = id) ids).

Lemma nonce_bumped_refl a : nonce_bumped 0 a a.
Proof. split; lia || done. Qed.

Lemma increment_nonces_spec ids st st' :
  fold_o increment_signer_nonce st ids = Ok st' ->
  (forall id, nonce_bumped (occurrences id ids) (get_account_by_id st id) (get_account_by_id st' id)) /\
  total_balance (public_state st') = total_balance (public_state st) /\
  private_state st' = private_state st /\ programs st' = programs st.
Proof.
  revert st; induction ids as [|i ids IH]; intros st Hrun; cbn in Hrun.
  - inv_ok. split; [|done]. intros id. apply nonce_bumped_refl.
  - inv_ok. apply increment_signer_nonce_ok in Hs as [_ ->].
    destruct (IH _ Hrun) as (Hacc & Htot & Hpriv & Hprog).
    split; [|split; [|done]].
    + intros id. specialize (Hacc id). rewrite get_insert in Hacc.
      unfold occurrences in *. rewrite filter_cons.
      destruct (decide (i = id)) as [->|]; [|done]. destruct Hacc; cbn in *.
      split; cbn; try done. lia.
    + rewrite Htot. by apply total_balance_insert_same.
Qed.

Lemma ns_extend_elem n s ns : n ∈ ns_extend s ns <-> n ∈ s \/ n ∈ ns.
Proof.
  unfold ns_extend. revert s; induction ns as [|x ns IH]; intros s; cbn; [set_solver|].
  rewrite IH. set_solver.
Qed.

(** Applying a diff, seen account by account. *)
Lemma apply_state_diff_ok `{Sha256} st diff st' :
  apply_state_diff st diff = Ok st' ->
  (forall id, nonce_bumped (occurrences id (signer_account_ids diff))
     (default (get_account_by_id st id) (public_diff diff !! id)) (get_account_by_id st' id)) /\
  total_balance (public_state st') = total_balance (public_diff diff ∪ public_state st) /\
  cs_extend (private_state st).1 (new_commitments diff) = Ok (private_state st').1 /\
  (private_state st').2 = ns_extend (private_state st).2 (new_nullifiers diff) /\
  programs st' = match diff_program diff with
                 | Some p => <[program_id p := p]> (programs st)
                 | None => programs st
                 end.
Proof.
  unfold apply_state_diff. intros Hrun; inv_ok.
  apply increment_nonces_spec in Hs as (Hacc & Htot & Hpriv & Hprog).
  rewrite Hpriv in *. cbn in *.
  assert (Hget : forall id, get_account_by_id
      (with_public (fun m => map_fold (fun id a m => <[id := a]> m) m (public_diff diff)) st) id =
      default (get_account_by_id st id) (public_diff diff !! id)).
  { intros id. unfold get_account_by_id, with_public. cbn [public_state]. rewrite map_fold_insert_union.
    rewrite lookup_union. by destruct (public_diff diff !! id), (public_state st !! id). }
  split; [|split; [|split; [|split]]].
  - intros id. specialize (Hacc id). rewrite Hget in Hacc.
    by destruct (diff_program diff).
  - rewrite map_fold_insert_union in Htot. by destruct (diff_program diff).
  - by destruct (diff_program diff).
  - by destruct (diff_program diff).
  - rewrite Hprog. by destruct (diff_program diff).
Qed.

(** ** Lemmas: the commitment set *)
Section CommitmentSetLemmas.
Context `{Sha256, !DefaultsChain}.
Open Scope nat_scope.

Lemma cs_with_capacity_represents :
  exists cs, cs_with_capacity 32 = Ok cs /\ cs_represents 5 cs [].
Proof.
  destruct (with_capacity_represents (E := NssaError) 5) as (t & Ht & Hr); [lia|].
  exists (mk_CommitmentSet t ∅ ∅). unfold cs_with_capacity.
  change 32 with (2 ^ 5). rewrite Ht. split; [done|].
  split; cbn; [done| |]; intros c; [|set_solver]. intros i. by rewrite lookup_empty.
Qed.

Lemma cs_with_capacity_history cs : cs_with_capacity 32 = Ok cs -> root_history cs = ∅.
Proof. unfold cs_with_capacity. intros Hcs. by inv_ok. Qed.

Lemma room_below D n : n = 2 ^ D -> (Z.of_nat n < 2 ^ 31)%Z -> S D < 32.
Proof.
  intros -> Hn. rewrite Nat2Z.inj_pow in Hn. apply Z.pow_lt_mono_r_iff in Hn; lia.
Qed.

Lemma extend_one_represents D cs vs c :
  D < 32 -> cs_represents D cs vs -> (Z.of_nat (length vs) < 2 ^ 31)%Z ->
  exists cs' D', D' < 32 /\ extend_one cs c = Ok cs' /\ cs_represents D' cs' (vs ++ [c]) /\
    root_history cs' = root_history cs.
Proof.
  intros HD [Ht Hi Hd] Hlen.
  destruct (insert_represents (E := NssaError) D (merkle_tree cs) (commitment_bytes <$> vs)
              (commitment_bytes c) Ht) as (t' & Hins & Hrep).
  { rewrite length_fmap. case_decide as He; [|done]. by eapply room_below. }
  unfold extend_one. rewrite Hins. cbn [mbind outcome_bind].
  rewrite length_fmap in Hrep |- *.
  eexists _, (if decide (length vs = 2 ^ D) then S D else D).
  split; [|split; [done|split; [split|done]]].
  - case_decide as He; [|done]. by eapply room_below.
  - rewrite fmap_app. exact Hrep.
  - intros c' i. cbn [commitments]. destruct (decide (c = c')) as [->|Hne].
    + rewrite lookup_insert_eq. intros [= <-]. by apply list_lookup_middle.
    + rewrite lookup_insert_ne by done. intros Hc'%Hi. by apply lookup_app_l_Some.
  - intros c'. cbn [commitments]. destruct (decide (c = c')) as [->|Hne].
    + intros _. rewrite lookup_insert_eq. eauto.
    + intros [Hc'|Hc']%elem_of_app.
      * rewrite lookup_insert_ne by done. by apply Hd.
      * by apply list_elem_of_singleton in Hc'.
Qed.

Lemma extend_all_represents cms D cs vs :
  D < 32 -> cs_represents D cs vs -> (Z.of_nat (length vs + length cms) <= 2 ^ 31)%Z ->
  exists cs' D', D' < 32 /\ fold_o extend_one cs cms = Ok cs' /\
    cs_represents D' cs' (vs ++ cms) /\ root_history cs' = root_history cs.
Proof.
  revert D cs vs; induction cms as [|c cms IH]; intros D cs vs HD Hrep Hlen.
  - exists cs, D. rewrite app_nil_r. done.
  - assert (length (c :: cms) = S (length cms)) as Hc by done. rewrite Hc in Hlen.
    destruct (extend_one_represents D cs vs c) as (cs1 & D1 & HD1 & H1 & Hr1 & Hh1); [done..|lia|].
    destruct (IH D1 cs1 (vs ++ [c])) as (cs2 & D2 & HD2 & H2 & Hr2 & Hh2); [done..|
      rewrite length_app; cbn [length]; lia|].
    exists cs2, D2. cbn [fold_o]. rewrite H1. cbn [mbind outcome_bind].
    rewrite <- app_assoc in Hr2. split_and!; [done..|congruence].
Qed.

Lemma digest_spec D cs vs :
  cs_represents D cs vs -> digest cs = Ok (merkle_root (commitment_bytes <$> vs)).
Proof. intros [Ht _ _]. by apply (root_spec D). Qed.

Lemma cs_extend_represents cms D cs vs :
  D < 32 -> cs_represents D cs vs -> (Z.of_nat (length vs + length cms) <= 2 ^ 31)%Z ->
  exists cs' D', D' < 32 /\ cs_extend cs cms = Ok cs' /\ cs_represents D' cs' (vs ++ cms) /\
    root_history cs' = {[merkle_root (commitment_bytes <$> (vs ++ cms))]} ∪ root_history cs.
Proof.
  intros HD Hrep Hlen.
  destruct (extend_all_represents cms D cs vs HD Hrep Hlen) as (cs1 & D1 & HD1 & H1 & Hr1 & Hh1).
  unfold cs_extend. rewrite H1. cbn [mbind outcome_bind]. rewrite (digest_spec D1 cs1 _ Hr1).
  cbn [mbind outcome_bind]. eexists _, D1. split_and!; [done..| |by rewrite <- Hh1].
  destruct Hr1. by split.
Qed.

Lemma cs_contains_spec D cs vs c :
  cs_represents D cs vs -> cs_contains cs c = true <-> c ∈ vs.
Proof.
  intros [_ Hi Hd]. unfold cs_contains. rewrite bool_decide_eq_true. split.
  - intros [i Hc]. apply Hi in Hc. by eapply list_elem_of_lookup_2.
  - apply Hd.
Qed.

Lemma get_proof_for_spec D cs vs c :
  cs_represents D cs vs ->
  get_proof_for cs c = Ok ((fun i => (i, sibling_path (commitment_bytes <$> vs) 0
                                        (Nat.log2_up (length vs)) i)) <$> (commitments cs !! c)).
Proof.
  intros [Ht Hi Hd]. unfold get_proof_for. destruct (commitments cs !! c) as [i|] eqn:Hc; [|done].
  rewrite (authentication_path_spec D (merkle_tree cs) _ i Ht), length_fmap.
  rewrite decide_False; [done|]. apply Hi, lookup_lt_Some in Hc. lia.
Qed.
End CommitmentSetLemmas.

(** ** The state invariant *)
Section Inv.
Context `{Sha256, !DefaultsChain}.

Lemma apply_inv st vs diff st' :
  state_inv st vs -> Z.of_nat (length vs + length (new_commitments diff)) <= 2 ^ 31 ->
  apply_state_diff st diff = Ok st' ->
  state_inv st' (vs ++ new_commitments diff) /\
  root_history (private_state st).1 ⊆ root_history (private_state st').1.
Proof.
  intros [(D & HD & Hcs) Hdig Hpre] Hlen (_ & _ & Hext & _ & _)%apply_state_diff_ok.
  destruct (cs_extend_represents (new_commitments diff) D _ vs HD Hcs Hlen)
    as (cs' & D' & HD' & Hext' & Hrep' & Hhist').
  rewrite Hext in Hext'. injection Hext' as <-. split; [split|].
  - eauto.
  - rewrite Hhist'. set_solver.
  - intros r. rewrite Hhist', elem_of_union, elem_of_singleton. intros [->|Hr]; [eauto|].
    destruct (Hpre r Hr) as (vs0 & Hvs & ->). exists vs0. split; [by apply prefix_app_r|done].
  - rewrite Hhist'. set_solver.
Qed.
End Inv.

(** Membership proofs: for every commitment in the set,
    [get_proof_for_commitment] returns an index and a path from which
    [compute_digest_for_path] recomputes the current digest, and that digest is
    recognised; for any other commitment it returns [None]. *)
Lemma membership_proofs_verify `{Sha256, !DefaultsChain} st vs c :
  state_inv st vs ->
  exists root, commitment_set_digest st = Ok root /\ root ∈ root_history (private_state st).1 /\
  (c ∈ vs -> exists i path, get_proof_for_commitment st c = Ok (Some (i, path)) /\
     vs !! i = Some c /\ compute_digest_for_path c (Z.of_nat i, path) = root) /\
  (c ∉ vs -> get_proof_for_commitment st c = Ok None).
Proof.
  intros [(D & HD & Hcs) Hdig _]. exists (merkle_root (commitment_bytes <$> vs)).
  unfold commitment_set_digest, get_proof_for_commitment.
  rewrite (digest_spec D _ vs Hcs), (get_proof_for_spec D _ vs c Hcs).
  split; [done|]. split; [done|]. pose proof (cs_contains_spec D _ vs c Hcs) as Hc.
  unfold cs_contains in Hc. rewrite bool_decide_eq_true in Hc. split.
  - intros Hin. destruct (proj2 Hc Hin) as [i Hi]. rewrite Hi.
    exists i, (sibling_path (commitment_bytes <$> vs) 0 (Nat.log2_up (length vs)) i).
    pose proof (csr_index D _ vs Hcs c i Hi) as Hvi. split; [done|]. split; [done|].
    rewrite <- (length_fmap commitment_bytes vs). destruct c as [cb].
    apply digest_for_path_spec. rewrite list_lookup_fmap, Hvi. done.
  - intros Hout. destruct (commitments (private_state st).1 !! c) as [i|] eqn:Hi; [|done].
    destruct Hout. apply Hc. eauto.
Qed.
