(* ===== verification/Encryption.v ===== *)
(** Encryption of private accounts: [nssa/core/src/encryption/mod.rs]. *)

From S2P Require Import Prelude Bytes Crypto Account Ids.

Record SharedSecretKey := mk_Ssk { ssk_bytes : list byte }.
Record Ciphertext := mk_Ciphertext { ciphertext_bytes : list byte }.
#[global] Instance Ciphertext_eq_dec : EqDecision Ciphertext.
Proof. solve_decision. Defined.

(** [xor] of two bytes. *)
Definition byte_xor (a b : byte) : byte := byte_of_Z (Z.lxor (byte_to_Z a) (byte_to_Z b)).

Section Scheme.
Context `{Sha256, ChaCha20}.

(** [EncryptionScheme::kdf] *)
Definition kdf (ssk : SharedSecretKey) (c : Commitment) (output_index : Z) : list byte :=
  hash_bytes (bstr "NSSA/v0.2/KDF-SHA256/" ++ ssk_bytes ssk ++ commitment_bytes c
              ++ le_bytes 4 output_index).

(** [symmetric_transform]: [apply_keystream] xors the buffer in place. *)
Definition symmetric_transform (buffer : list byte) (ssk : SharedSecretKey) (c : Commitment)
    (output_index : Z) : list byte :=
  let key := kdf ssk c output_index in
  imap (fun i b => byte_xor b (chacha_keystream key i)) buffer.

(** [encrypt] *)
Definition encrypt {E} (a : Account) (kind : PrivateAccountKind) (ssk : SharedSecretKey)
    (c : Commitment) (output_index : Z) : outcome E Ciphertext :=
  account_bytes ← Account_to_bytes a;
  Ok (mk_Ciphertext (symmetric_transform (to_header_bytes kind ++ account_bytes) ssk c output_index)).

(** [decrypt] *)
Definition decrypt (ct : Ciphertext) (ssk : SharedSecretKey) (c : Commitment) (output_index : Z) :
    option (PrivateAccountKind * Account) :=
  let buffer := symmetric_transform (ciphertext_bytes ct) ssk c output_index in
  if decide (length buffer < HEADER_LEN)%nat then None
  else
    kind ← from_header_bytes (take HEADER_LEN buffer);
    match Account_from_cursor (drop HEADER_LEN buffer) with
    | Ok (a, _) => Some (kind, a)
    | _ => None
    end.
End Scheme.

(** ** Lemmas *)
Lemma byte_xor_involutive a b : byte_xor (byte_xor a b) b = a.
Proof.
  unfold byte_xor. rewrite byte_to_of_Z. change 256 with (2 ^ 8).
  rewrite <- Z.land_ones by lia. rewrite <- (byte_of_to_Z a) at 2. f_equal.
  assert (Hones : forall x, Z.land (byte_to_Z x) (Z.ones 8) = byte_to_Z x).
  { intros x. rewrite Z.land_ones by lia. apply Z.mod_small, byte_to_Z_range. }
  rewrite <- (Hones b) at 2. apply Z.bits_inj. intros n. rewrite <- (Hones a) at 2.
  rewrite !Z.lxor_spec, !Z.land_spec, Z.lxor_spec.
  by destruct (Z.testbit (byte_to_Z a) n), (Z.testbit (byte_to_Z b) n), (Z.testbit (Z.ones 8) n).
Qed.

Lemma symmetric_transform_involutive `{Sha256, ChaCha20} buffer ssk c i :
  symmetric_transform (symmetric_transform buffer ssk c i) ssk c i = buffer.
Proof.
  unfold symmetric_transform. apply list_eq. intros j. rewrite !list_lookup_imap.
  destruct (buffer !! j); cbn; [by rewrite byte_xor_involutive|done].
Qed.

(** Encryption is total on values of the Rust types, and decryption undoes it. *)
Lemma encrypt_total `{Sha256, ChaCha20} a kind ssk c i :
  Account_wf a -> PrivateAccountKind_wf kind ->
  exists ct, encrypt (E := Empty_set) a kind ssk c i = Ok ct /\ decrypt ct ssk c i = Some (kind, a).
Proof.
  intros Ha Hk. destruct (Account_from_to_bytes (E := Empty_set) a [] Ha) as (bs & Hbs & Hdec).
  unfold encrypt. rewrite Hbs. eexists. split; [done|]. unfold decrypt. cbn [ciphertext_bytes].
  rewrite symmetric_transform_involutive. pose proof (length_to_header_bytes kind Hk) as Hl.
  rewrite decide_False by (rewrite length_app; lia).
  rewrite <- Hl, take_app_length, drop_app_length, from_to_header_bytes by done.
  rewrite app_nil_r in Hdec. cbn [mbind option_bind]. by rewrite Hdec.
Qed.

Lemma decrypt_of_encrypt `{Sha256, ChaCha20} a kind ssk c i ct :
  Account_wf a -> PrivateAccountKind_wf kind -> encrypt (E := Empty_set) a kind ssk c i = Ok ct ->
  decrypt ct ssk c i = Some (kind, a).
Proof. intros Ha Hk He. destruct (encrypt_total a kind ssk c i Ha Hk) as (ct' & He' & Hd). congruence. Qed.

(** ** Properties *)

(** Decryption inverts encryption: for every account and account kind that
    fit the Rust types, encryption succeeds and decrypting the ciphertext with
    the same secret, commitment and index returns the same kind and account. *)
Theorem decrypt_encrypt `{Sha256, ChaCha20} a kind ssk c i :
  Account_wf a -> PrivateAccountKind_wf kind ->
  exists ct, encrypt (E := Empty_set) a kind ssk c i = Ok ct /\ decrypt ct ssk c i = Some (kind, a).
Proof.
  apply encrypt_total.
Qed.

(** A witness with the key stream of zeros. *)
Lemma decrypt_encrypt_witness :
  exists ct,
    encrypt (H := Sha256Impl.sha256) (H0 := fun _ _ => Byte.x00) (E := Empty_set)
      (mk_Account (replicate 8 7) 100 (mk_Data [Byte.x01]) 3) (Regular 5) (mk_Ssk (zeros 32))
      DUMMY_COMMITMENT 0 = Ok ct /\
    decrypt (H := Sha256Impl.sha256) (H0 := fun _ _ => Byte.x00) ct (mk_Ssk (zeros 32))
      DUMMY_COMMITMENT 0 =
      Some (Regular 5, mk_Account (replicate 8 7) 100 (mk_Data [Byte.x01]) 3).
Proof.
  apply (decrypt_encrypt (H := Sha256Impl.sha256) (H0 := fun _ _ => Byte.x00)).
  - apply (bool_decide_unpack _). vm_compute. exact I.
  - split; [|done]. unfold in_u. cbn. lia.
Defined.
