(* ===== verification/CircuitIo.v ===== *)
(** Input and output of the privacy circuit: [nssa/core/src/circuit_io.rs]. *)

From S2P Require Import Prelude Bytes Crypto Account Ids ProgramCore Encryption.

Inductive InputAccountIdentity :=
  | Public
  | PrivateAuthorizedInit (ssk : SharedSecretKey) (nsk : NullifierSecretKey) (identifier : Identifier)
  | PrivateAuthorizedUpdate (ssk : SharedSecretKey) (nsk : NullifierSecretKey)
      (membership_proof : MembershipProof) (identifier : Identifier)
  | PrivateUnauthorized (npk : NullifierPublicKey) (ssk : SharedSecretKey) (identifier : Identifier)
  | PrivatePdaInit (npk : NullifierPublicKey) (ssk : SharedSecretKey) (identifier : Identifier)
  | PrivatePdaUpdate (ssk : SharedSecretKey) (nsk : NullifierSecretKey)
      (membership_proof : MembershipProof) (identifier : Identifier).

Record PrivacyPreservingCircuitInput := mk_CircuitInput {
  program_outputs : list ProgramOutput;
  account_identities : list InputAccountIdentity;
  ci_program_id : ProgramId;
}.

Record PrivacyPreservingCircuitOutput := mk_CircuitOutput {
  co_public_pre_states : list AccountWithMetadata;
  co_public_post_states : list Account;
  co_ciphertexts : list Ciphertext;
  co_new_commitments : list Commitment;
  co_new_nullifiers : list (Nullifier * CommitmentSetDigest);
  co_block_validity_window : ValidityWindow;
  co_timestamp_validity_window : ValidityWindow;
}.
#[global] Instance CircuitOutput_eq_dec : EqDecision PrivacyPreservingCircuitOutput.
Proof. solve_decision. Defined.

Definition is_public (i : InputAccountIdentity) : bool :=
  match i with Public => true | _ => false end.
Definition is_private_pda (i : InputAccountIdentity) : bool :=
  match i with PrivatePdaInit _ _ _ | PrivatePdaUpdate _ _ _ _ => true | _ => false end.
Definition npk_if_private_pda `{Sha256} (i : InputAccountIdentity) :
    option (NullifierPublicKey * Identifier) :=
  match i with
  | PrivatePdaInit npk _ identifier => Some (npk, identifier)
  | PrivatePdaUpdate _ nsk _ identifier => Some (npk_from_nsk nsk, identifier)
  | _ => None
  end.

(** [PrivacyPreservingCircuitOutput::to_bytes] *)
Definition CircuitOutput_to_bytes `{Serde PrivacyPreservingCircuitOutput}
    (o : PrivacyPreservingCircuitOutput) : list byte := words_bytes (serde_to_vec o).
