(* ===== verification/Circuit.v ===== *)
(** The privacy preserving circuit, the guest program whose proof a privacy
    preserving transaction carries:
    [program_methods/guest/src/bin/privacy_preserving_circuit].

    [derive_from_outputs] ([execution_state.rs]) replays the chain of program
    outputs it is given and collects the accounts before and after it, in order
    of first appearance; [compute_circuit_output] ([output.rs]) turns the
    private ones into nullifiers, commitments and ciphertexts.

    A guest cannot fail, only panic.  [env::verify] adds an assumption to the
    receipt under construction; here the assumptions are collected, as pairs of
    an image id and a journal. *)

From S2P Require Import Prelude Bytes Crypto Account Ids ProgramCore Encryption CircuitIo.

Open Scope Z_scope.

(** ** execution_state.rs: data *)
Record ExecutionState := mk_ExecState {
  es_pre_states : list AccountWithMetadata;
  es_post_states : gmap AccountId Account;
  es_block_validity_window : ValidityWindow;
  es_timestamp_validity_window : ValidityWindow;
  private_pda_bound_positions : gmap nat (ProgramId * PdaSeed);
  pda_family_binding : gmap (ProgramId * PdaSeed) AccountId;
  private_pda_npk_by_position : gmap nat (NullifierPublicKey * Identifier);
}.
(** Assignments to the fields. *)
Definition es_with_accounts (pres : list AccountWithMetadata) (posts : gmap AccountId Account)
    (es : ExecutionState) : ExecutionState :=
  mk_ExecState pres posts (es_block_validity_window es) (es_timestamp_validity_window es)
    (private_pda_bound_positions es) (pda_family_binding es) (private_pda_npk_by_position es).
Definition es_with_bindings (bound : gmap nat (ProgramId * PdaSeed))
    (family : gmap (ProgramId * PdaSeed) AccountId) (es : ExecutionState) : ExecutionState :=
  mk_ExecState (es_pre_states es) (es_post_states es) (es_block_validity_window es)
    (es_timestamp_validity_window es) bound family (private_pda_npk_by_position es).

(** [(ImageId, journal words)] given to [env::verify]. *)
Abbreviation Assumption := (ProgramId * InstructionData)%type.

(** [iter().enumerate()], [Iterator::max], [Iterator::min] *)
Definition enumerate {A} (l : list A) : list (nat * A) := zip (seq 0 (length l)) l.
Definition iter_max (l : list Z) : option Z :=
  foldl (fun m x => Some (match m with Some m => Z.max m x | None => x end)) None l.
Definition iter_min (l : list Z) : option Z :=
  foldl (fun m x => Some (match m with Some m => Z.min m x | None => x end)) None l.

(** ** execution_state.rs: bindings *)
Definition assert_family_binding (bindings : gmap (ProgramId * PdaSeed) AccountId) (p : ProgramId)
    (seed : PdaSeed) (id : AccountId) : guest (gmap (ProgramId * PdaSeed) AccountId) :=
  match bindings !! (p, seed) with
  | None => Ok (<[(p, seed) := id]> bindings)
  | Some e =>
      assert_ (bool_decide (e = id))
        "Two different accounts resolved under the same (program, seed) in one transaction" ;;
      Ok bindings
  end.

Definition bind_private_pda_position (m : gmap nat (ProgramId * PdaSeed)) (position : nat)
    (p : ProgramId) (seed : PdaSeed) : guest (gmap nat (ProgramId * PdaSeed)) :=
  match m !! position with
  | Some e =>
      assert_ (bool_decide (e = (p, seed))) "Duplicate binding: conflicting (program_id, seed)" ;;
      Ok m
  | None => Ok (<[position := (p, seed)]> m)
  end.

Section ExecutionStates.
Context `{Sha256, Serde ProgramOutput}.

(** The closure of [find_map] over the caller's seeds, and the search. *)
Definition seed_matches (caller : ProgramId) (npk : option (NullifierPublicKey * Identifier))
    (id : AccountId) (seed : PdaSeed) : option (PdaSeed * bool) :=
  if decide (for_public_pda caller seed = id) then Some (seed, false)
  else match npk with
       | Some (npk, identifier) =>
           if decide (for_private_pda caller seed npk identifier = id) then Some (seed, true) else None
       | None => None
       end.
Fixpoint find_map {A B} (f : A -> option B) (l : list A) : option B :=
  match l with
  | [] => None
  | x :: l => match f x with Some y => Some y | None => find_map f l end
  end.
Definition matched_caller_seed (npk : option (NullifierPublicKey * Identifier))
    (caller : option ProgramId) (seeds : list PdaSeed) (id : AccountId) :
    option (PdaSeed * bool * ProgramId) :=
  caller ← caller;
  '(seed, private_form) ← find_map (seed_matches caller npk id) seeds;
  Some (seed, private_form, caller).

Definition resolve_authorization_and_record_bindings (es : ExecutionState) (id : AccountId)
    (pre_state_position : nat) (caller : option ProgramId) (seeds : list PdaSeed)
    (previous_is_authorized : bool) : guest (ExecutionState * bool) :=
  match matched_caller_seed (private_pda_npk_by_position es !! pre_state_position) caller seeds id with
  | None => Ok (es, previous_is_authorized)
  | Some (seed, is_private_form, caller) =>
      family ← assert_family_binding (pda_family_binding es) caller seed id;
      bound ← (if is_private_form : bool
               then bind_private_pda_position (private_pda_bound_positions es) pre_state_position
                      caller seed
               else Ok (private_pda_bound_positions es));
      Ok (es_with_bindings bound family es, true)
  end.

(** [iter().position(|acc| acc.account_id == id)] *)
Definition position_of (id : AccountId) (pres : list AccountWithMetadata) :
    option (nat * AccountWithMetadata) :=
  list_find (fun acc => account_id acc = id) pres.

(** ** [validate_and_sync_states] *)

(** The match on the entry of the post state. *)
Definition sync_pre_state (caller : option ProgramId) (seeds : list PdaSeed)
    (es : ExecutionState) (pre : AccountWithMetadata) : guest ExecutionState :=
  match es_post_states es !! account_id pre with
  | Some known =>
      assert_ (bool_decide (known = account pre)) "Inconsistent pre state for account" ;;
      '(pos, acc) ← expect (position_of (account_id pre) (es_pre_states es))
                      "Pre state must exist in execution state for account";
      '(es, is_auth) ← resolve_authorization_and_record_bindings es (account_id pre) pos caller seeds
                         (is_authorized acc);
      assert_ (bool_decide (is_authorized pre = is_auth)) "Inconsistent authorization for account" ;;
      Ok es
  | None => Ok (es_with_accounts (es_pre_states es ++ [pre]) (es_post_states es) es)
  end.

(** The claim of a post state. *)
Definition check_claim (identities : list InputAccountIdentity) (p : ProgramId)
    (es : ExecutionState) (pre : AccountWithMetadata) (post : AccountPostState) (c : Claim) :
    guest ExecutionState :=
  let id := account_id pre in
  assert_ (bool_decide (program_owner (post_account post) = DEFAULT_PROGRAM_ID))
    "Cannot claim an initialized account" ;;
  '(pos, _) ← expect (position_of id (es_pre_states es)) "Pre state must exist at this point";
  account_identity ← expect (identities !! pos) "index out of bounds";
  if is_public account_identity then
    match c with
    | Authorized => assert_ (is_authorized pre) "Cannot claim unauthorized account" ;; Ok es
    | ClaimPda seed =>
        assert_ (bool_decide (id = for_public_pda p seed)) "Invalid PDA claim for account" ;;
        family ← assert_family_binding (pda_family_binding es) p seed id;
        Ok (es_with_bindings (private_pda_bound_positions es) family es)
    end
  else if is_private_pda account_identity then
    match c with
    | Authorized => assert_ (is_authorized pre) "Cannot claim unauthorized private PDA" ;; Ok es
    | ClaimPda seed =>
        '(npk, identifier) ← expect (private_pda_npk_by_position es !! pos)
                               "private PDA pre_state must have an npk in the position map";
        assert_ (bool_decide (id = for_private_pda p seed npk identifier))
          "Invalid private PDA claim for account" ;;
        bound ← bind_private_pda_position (private_pda_bound_positions es) pos p seed;
        family ← assert_family_binding (pda_family_binding es) p seed id;
        Ok (es_with_bindings bound family es)
    end
  else Ok es.

Definition sync_one (identities : list InputAccountIdentity) (p : ProgramId)
    (caller : option ProgramId) (seeds : list PdaSeed) (es : ExecutionState)
    (pp : AccountWithMetadata * AccountPostState) : guest ExecutionState :=
  let '(pre, post) := pp in
  es ← sync_pre_state caller seeds es pre;
  '(es, a) ← (match claim post with
              | Some c =>
                  es ← check_claim identities p es pre post c;
                  Ok (es, set_program_owner p (post_account post))
              | None => Ok (es, post_account post)
              end);
  Ok (es_with_accounts (es_pre_states es) (<[account_id pre := a]> (es_post_states es)) es).

Definition validate_and_sync_states (identities : list InputAccountIdentity) (p : ProgramId)
    (caller : option ProgramId) (seeds : list PdaSeed) (pres : list AccountWithMetadata)
    (posts : list AccountPostState) (es : ExecutionState) : guest ExecutionState :=
  fold_o (sync_one identities p caller seeds) es (zip pres posts).

(** ** [derive_from_outputs] *)
Definition npk_by_position (identities : list InputAccountIdentity) :
    gmap nat (NullifierPublicKey * Identifier) :=
  foldl (fun m (pi : nat * InputAccountIdentity) =>
           match npk_if_private_pda pi.2 with Some v => <[pi.1 := v]> m | None => m end)
    ∅ (enumerate identities).

Definition intersect_windows (window : ProgramOutput -> ValidityWindow) (outputs : list ProgramOutput)
    (msg : string) : guest ValidityWindow :=
  expect (match window_try_from (iter_max (omap (win_from ∘ window) outputs),
                                 iter_min (omap (win_to ∘ window) outputs)) with
          | Ok w => Some w
          | _ => None
          end) msg.

(** The checks on one program output, before its accounts are synchronised. *)
Definition check_program_output (call : ChainedCall) (caller : option ProgramId) (o : ProgramOutput) :
    guest () :=
  assert_ (bool_decide (cc_instruction_data call = instruction_data o))
    "Mismatched instruction data between chained call and program output" ;;
  assert_ (bool_decide (self_program_id o = cc_program_id call))
    "Program output self_program_id does not match chained call program_id" ;;
  assert_ (bool_decide (caller_program_id o = caller))
    "Program output caller_program_id does not match actual caller" ;;
  match validate_execution (pre_states o) (post_states o) (cc_program_id call) with
  | Ok _ => Ok ()
  | _ => Panic "Invalid program behavior in program"
  end.

(** The [while let] loop: each iteration consumes one program output. *)
Fixpoint outputs_loop (identities : list InputAccountIdentity) (counter : Z)
    (calls : list (ChainedCall * option ProgramId)) (outputs : list ProgramOutput)
    (es : ExecutionState) (assumptions : list Assumption) :
    guest (ExecutionState * list Assumption) :=
  match calls with
  | [] =>
      assert_ (bool_decide (outputs = [])) "Inner call without a chained call found" ;;
      Ok (es, assumptions)
  | (call, caller) :: calls =>
      assert_ (bool_decide (counter <= MAX_NUMBER_CHAINED_CALLS)) "Max chained calls depth is exceeded" ;;
      match outputs with
      | [] => Panic "Insufficient program outputs for chained calls"
      | o :: outputs =>
          check_program_output call caller o ;;
          let calls := ((fun c => (c, Some (cc_program_id call))) <$> chained_calls o) ++ calls in
          es ← validate_and_sync_states identities (cc_program_id call) caller (cc_pda_seeds call)
                 (pre_states o) (post_states o) es;
          counter ← expect (checked_add 32 counter 1)
                      "Chain calls counter should not overflow as it checked before incrementing";
          outputs_loop identities counter calls outputs es
            (assumptions ++ [(cc_program_id call, serde_to_vec o)])
      end
  end.

Definition check_pda_bound (es : ExecutionState) (pi : nat * InputAccountIdentity) : guest () :=
  if is_private_pda pi.2 then
    assert_ (bool_decide (is_Some (private_pda_bound_positions es !! pi.1)))
      "private PDA pre_state has no proven (seed, npk) binding"
  else Ok ().

(** "Check that all modified uninitialized accounts were claimed" *)
Definition check_default_claimed (es : ExecutionState) (pre : AccountWithMetadata) : guest () :=
  if decide (program_owner (account pre) = DEFAULT_PROGRAM_ID) then
    post ← expect (es_post_states es !! account_id pre) "Post state must exist for pre state";
    if decide (account pre <> post) then
      assert_ (bool_decide (program_owner post <> DEFAULT_PROGRAM_ID)) "Account was modified but not claimed"
    else Ok ()
  else Ok ().

Definition initial_execution_state (identities : list InputAccountIdentity) (bw tw : ValidityWindow) :
    ExecutionState :=
  mk_ExecState [] ∅ bw tw ∅ ∅ (npk_by_position identities).
Definition circuit_initial_call (p : ProgramId) (first_output : ProgramOutput) : ChainedCall :=
  mk_ChainedCall p (pre_states first_output) (instruction_data first_output) [].

Definition derive_from_outputs (identities : list InputAccountIdentity) (p : ProgramId)
    (outputs : list ProgramOutput) : guest (ExecutionState * list Assumption) :=
  bw ← intersect_windows block_validity_window outputs
         "There should be non empty intersection in the program output block validity windows";
  tw ← intersect_windows timestamp_validity_window outputs
         "There should be non empty intersection in the program output timestamp validity windows";
  first_output ← expect (head outputs) "No program outputs provided";
  '(es, assumptions) ← outputs_loop identities 0 [(circuit_initial_call p first_output, None)] outputs
                         (initial_execution_state identities bw tw) [];
  iter_o (check_pda_bound es) (enumerate identities) ;;
  iter_o (check_default_claimed es) (es_pre_states es) ;;
  Ok (es, assumptions).
End ExecutionStates.

(** ** output.rs *)
Section CircuitOutputs.
Context `{Sha256, ChaCha20}.

Definition compute_update_nullifier_and_set_digest (proof : MembershipProof) (pre_account : Account)
    (id : AccountId) (nsk : NullifierSecretKey) : Nullifier * CommitmentSetDigest :=
  let commitment_pre := Commitment_new id pre_account in
  (for_account_update commitment_pre nsk, compute_digest_for_path commitment_pre proof).

Definition emit_public_output (o : PrivacyPreservingCircuitOutput) (pre : AccountWithMetadata)
    (post : Account) : PrivacyPreservingCircuitOutput :=
  mk_CircuitOutput (co_public_pre_states o ++ [pre]) (co_public_post_states o ++ [post])
    (co_ciphertexts o) (co_new_commitments o) (co_new_nullifiers o) (co_block_validity_window o)
    (co_timestamp_validity_window o).

Definition emit_private_output (o : PrivacyPreservingCircuitOutput) (output_index : Z)
    (post_state : Account) (id : AccountId) (kind : PrivateAccountKind) (ssk : SharedSecretKey)
    (new_nullifier : Nullifier * CommitmentSetDigest) (new_nonce : Nonce) :
    guest (PrivacyPreservingCircuitOutput * Z) :=
  let post_with_updated_nonce := set_nonce new_nonce post_state in
  let commitment_post := Commitment_new id post_with_updated_nonce in
  encrypted_account ← encrypt post_with_updated_nonce kind ssk commitment_post output_index;
  index' ← expect (checked_add 32 output_index 1) "Too many private accounts, output index overflow";
  Ok (mk_CircuitOutput (co_public_pre_states o) (co_public_post_states o)
        (co_ciphertexts o ++ [encrypted_account]) (co_new_commitments o ++ [commitment_post])
        (co_new_nullifiers o ++ [new_nullifier]) (co_block_validity_window o)
        (co_timestamp_validity_window o), index').

Definition init_nullifier (id : AccountId) : Nullifier * CommitmentSetDigest :=
  (for_account_initialization id, DUMMY_COMMITMENT_HASH).

(** [pda_seed_by_position.get(&pos).expect(..)] *)
Definition pda_kind (seeds : gmap nat (ProgramId * PdaSeed)) (pos : nat) (identifier : Identifier) :
    guest PrivateAccountKind :=
  '(p, seed) ← expect (seeds !! pos) "private PDA position must be in pda_seed_by_position";
  Ok (Pda p seed identifier).

(** The arms of the match, for the account at position [pos]. *)
Definition output_one (seeds : gmap nat (ProgramId * PdaSeed)) (o : PrivacyPreservingCircuitOutput)
    (output_index : Z) (pos : nat) (identity : InputAccountIdentity) (pre_state : AccountWithMetadata)
    (post_state : Account) : guest (PrivacyPreservingCircuitOutput * Z) :=
  let id := account_id pre_state in
  let pre := account pre_state in
  match identity with
  | Public => Ok (emit_public_output o pre_state post_state, output_index)
  | PrivateAuthorizedInit ssk nsk identifier =>
      let account_id := for_regular_private_account (npk_from_nsk nsk) identifier in
      assert_ (bool_decide (account_id = id)) "AccountId mismatch" ;;
      assert_ (is_authorized pre_state) "Pre-state not authorized for authenticated private account" ;;
      assert_ (bool_decide (pre = Account_default)) "Found new private account with non default values" ;;
      emit_private_output o output_index post_state account_id (Regular identifier) ssk
        (init_nullifier account_id) (private_account_nonce_increment (nonce pre) nsk)
  | PrivateAuthorizedUpdate ssk nsk membership_proof identifier =>
      let account_id := for_regular_private_account (npk_from_nsk nsk) identifier in
      assert_ (bool_decide (account_id = id)) "AccountId mismatch" ;;
      assert_ (is_authorized pre_state) "Pre-state not authorized for authenticated private account" ;;
      emit_private_output o output_index post_state account_id (Regular identifier) ssk
        (compute_update_nullifier_and_set_digest membership_proof pre account_id nsk)
        (private_account_nonce_increment (nonce pre) nsk)
  | PrivateUnauthorized npk ssk identifier =>
      let account_id := for_regular_private_account npk identifier in
      assert_ (bool_decide (account_id = id)) "AccountId mismatch" ;;
      assert_ (bool_decide (pre = Account_default)) "Found new private account with non default values" ;;
      assert_ (negb (is_authorized pre_state)) "Found new private account marked as authorized." ;;
      emit_private_output o output_index post_state account_id (Regular identifier) ssk
        (init_nullifier account_id) (private_account_nonce_init account_id)
  | PrivatePdaInit _ ssk identifier =>
      assert_ (negb (is_authorized pre_state)) "PrivatePdaInit requires unauthorized pre_state" ;;
      assert_ (bool_decide (pre = Account_default)) "New private PDA must be default" ;;
      kind ← pda_kind seeds pos identifier;
      emit_private_output o output_index post_state id kind ssk (init_nullifier id)
        (private_account_nonce_init id)
  | PrivatePdaUpdate ssk nsk membership_proof identifier =>
      assert_ (is_authorized pre_state) "PrivatePdaUpdate requires authorized pre_state" ;;
      kind ← pda_kind seeds pos identifier;
      emit_private_output o output_index post_state id kind ssk
        (compute_update_nullifier_and_set_digest membership_proof pre id nsk)
        (private_account_nonce_increment (nonce pre) nsk)
  end.

(** The loop over the identities and the iterator of [into_parts], which
    removes each post state from the map as it goes. *)
Fixpoint output_loop (seeds : gmap nat (ProgramId * PdaSeed)) (pos : nat) (output_index : Z)
    (identities : list InputAccountIdentity) (pres : list AccountWithMetadata)
    (posts : gmap AccountId Account) (o : PrivacyPreservingCircuitOutput) :
    guest PrivacyPreservingCircuitOutput :=
  match identities, pres with
  | identity :: identities, pre :: pres =>
      post ← expect (posts !! account_id pre) "Account from pre states should exist in state diff";
      '(o, output_index) ← output_one seeds o output_index pos identity pre post;
      output_loop seeds (S pos) output_index identities pres (delete (account_id pre) posts) o
  | _, _ => Ok o
  end.

Definition compute_circuit_output (es : ExecutionState) (identities : list InputAccountIdentity) :
    guest PrivacyPreservingCircuitOutput :=
  let o := mk_CircuitOutput [] [] [] [] [] (es_block_validity_window es)
             (es_timestamp_validity_window es) in
  assert_ (bool_decide (length identities = length (es_pre_states es)))
    "Invalid account_identities length" ;;
  output_loop (private_pda_bound_positions es) 0 0 identities (es_pre_states es) (es_post_states es) o.

(** ** main.rs *)
Definition privacy_circuit `{Serde ProgramOutput} (i : PrivacyPreservingCircuitInput) :
    guest (PrivacyPreservingCircuitOutput * list Assumption) :=
  '(es, assumptions) ← derive_from_outputs (account_identities i) (ci_program_id i) (program_outputs i);
  o ← compute_circuit_output es (account_identities i);
  Ok (o, assumptions).
End CircuitOutputs.
