(* ===== verification/Transactions.v ===== *)
(** Transactions: [nssa/src/public_transaction], [privacy_preserving_transaction]
    (message, witness set, transaction), [program_deployment_transaction],
    [nssa/src/signature] and [nssa/src/encoding].

    The three [Message] and two [WitnessSet] types of the source are told
    apart by the prefixes [pub_], [priv_] and [dep_]. *)

From S2P Require Import Prelude Bytes Crypto Account Ids ProgramCore Borsh Encryption CircuitIo Host.

(** ** signature/mod.rs, signature/public_key.rs *)
Record Signature := mk_Signature { signature_value : list byte }.
Record PublicKey := mk_PublicKey { public_key_value : list byte }.
#[global] Instance Signature_eq_dec : EqDecision Signature.
Proof. solve_decision. Defined.
#[global] Instance PublicKey_eq_dec : EqDecision PublicKey.
Proof. solve_decision. Defined.

Definition PublicKey_try_new `{Schnorr} (v : list byte) : outcome NssaError PublicKey :=
  if schnorr_key_valid v then Ok (mk_PublicKey v) else Err InvalidPublicKey.

(** [Signature::is_valid_for] *)
Definition signature_is_valid_for `{Schnorr} (s : Signature) (message_hash : list byte)
    (pk : PublicKey) : bool :=
  if schnorr_key_valid (public_key_value pk) then
    if schnorr_signature_valid (signature_value s) then
      schnorr_verify_raw (public_key_value pk) message_hash (signature_value s)
    else false
  else false.

(** ** Public transactions *)
Record PublicMessage := mk_PublicMessage {
  pub_program_id : ProgramId;
  pub_account_ids : list AccountId;
  pub_nonces : list Nonce;
  pub_instruction_data : InstructionData;
}.
Abbreviation SignaturesAndKeys := (list (Signature * PublicKey)).
Record PublicWitnessSet := mk_PublicWitnessSet { pub_signatures : SignaturesAndKeys }.
Record PublicTransaction := mk_PublicTx {
  pub_message : PublicMessage;
  pub_witness_set : PublicWitnessSet;
}.

(** ** Privacy preserving transactions *)
Record ViewingPublicKey := mk_Vpk { vpk_bytes : list byte }.
Record EphemeralPublicKey := mk_Epk { epk_bytes : list byte }.
Record EncryptedAccountData := mk_Encrypted {
  ciphertext : Ciphertext;
  epk : EphemeralPublicKey;
  view_tag : byte;
}.
Record PrivacyMessage := mk_PrivacyMessage {
  public_account_ids : list AccountId;
  priv_nonces : list Nonce;
  public_post_states : list Account;
  encrypted_private_post_states : list EncryptedAccountData;
  priv_new_commitments : list Commitment;
  priv_new_nullifiers : list (Nullifier * CommitmentSetDigest);
  priv_block_validity_window : ValidityWindow;
  priv_timestamp_validity_window : ValidityWindow;
}.
Record Proof_ := mk_Proof { proof_bytes : list byte }.
Record PrivacyWitnessSet := mk_PrivacyWitnessSet {
  priv_signatures : SignaturesAndKeys;
  proof : Proof_;
}.
Record PrivacyPreservingTransaction := mk_PrivacyTx {
  priv_message : PrivacyMessage;
  priv_witness_set : PrivacyWitnessSet;
}.

(** ** Program deployment transactions *)
Record DeploymentMessage := mk_DeploymentMessage { bytecode : list byte }.
Record ProgramDeploymentTransaction := mk_DeploymentTx { dep_message : DeploymentMessage }.

(** ** Operations *)
Section PublicTx.
Context `{Sha256, Schnorr, Borsh PublicMessage}.

(** [Message::hash] *)
Definition PUBLIC_MESSAGE_PREFIX : list byte := bstr "/LEE/v0.3/Message/Public/" ++ zeros 7.
Definition pub_hash (m : PublicMessage) : list byte :=
  hash_bytes (PUBLIC_MESSAGE_PREFIX ++ borsh_to_vec m).

(** [WitnessSet::is_valid_for]: a loop with an early return. *)
Fixpoint signatures_valid (message_hash : list byte) (sks : SignaturesAndKeys) : bool :=
  match sks with
  | [] => true
  | (s, pk) :: sks =>
      if signature_is_valid_for s message_hash pk then signatures_valid message_hash sks else false
  end.
Definition pub_is_valid_for (w : PublicWitnessSet) (m : PublicMessage) : bool :=
  signatures_valid (pub_hash m) (pub_signatures w).

(** [signer_account_ids] *)
Definition signer_ids (sks : SignaturesAndKeys) : list AccountId :=
  (fun sk => account_id_of_public_key (public_key_value sk.2)) <$> sks.
Definition pub_signer_account_ids (tx : PublicTransaction) : list AccountId :=
  signer_ids (pub_signatures (pub_witness_set tx)).

(** [affected_public_account_ids], as the set that the source collects. *)
Definition pub_affected_public_account_ids (tx : PublicTransaction) : gset AccountId :=
  list_to_set (pub_signer_account_ids tx) ∪ list_to_set (pub_account_ids (pub_message tx)).

(** [PublicTransaction::hash] *)
Definition pub_tx_hash `{Borsh PublicTransaction} (tx : PublicTransaction) : list byte :=
  hash_bytes (borsh_to_vec tx).
End PublicTx.

(** [Message::try_new] *)
Definition pub_try_new {I} `{Serde I} (p : ProgramId) (ids : list AccountId) (nonces : list Nonce)
    (instruction : I) : outcome NssaError PublicMessage :=
  Ok (mk_PublicMessage p ids nonces (serde_to_vec instruction)).

Section PrivacyTx.
Context `{Sha256, Schnorr, Borsh PrivacyMessage}.

(** [EncryptedAccountData::compute_view_tag] and [new] *)
Definition compute_view_tag (npk : NullifierPublicKey) (vpk : ViewingPublicKey) : byte :=
  hd Byte.x00 (hash_bytes (bstr "/LEE/v0.3/ViewTag/" ++ npk_bytes npk ++ vpk_bytes vpk)).
Definition EncryptedAccountData_new (c : Ciphertext) (npk : NullifierPublicKey)
    (vpk : ViewingPublicKey) (epk : EphemeralPublicKey) : EncryptedAccountData :=
  mk_Encrypted c epk (compute_view_tag npk vpk).

(** [Message::try_from_circuit_output] *)
Definition try_from_circuit_output (ids : list AccountId) (nonces : list Nonce)
    (public_keys : list (NullifierPublicKey * ViewingPublicKey * EphemeralPublicKey))
    (output : PrivacyPreservingCircuitOutput) : outcome NssaError PrivacyMessage :=
  ensure (bool_decide (length public_keys = length (co_ciphertexts output)))
    (InvalidInput "Ephemeral public keys and ciphertexts length mismatch") ;;
  let encrypted := zip_with (fun c (k : NullifierPublicKey * ViewingPublicKey * EphemeralPublicKey) =>
                      EncryptedAccountData_new c k.1.1 k.1.2 k.2) (co_ciphertexts output) public_keys in
  Ok (mk_PrivacyMessage ids nonces (co_public_post_states output) encrypted
        (co_new_commitments output) (co_new_nullifiers output)
        (co_block_validity_window output) (co_timestamp_validity_window output)).

(** [Message::hash], [WitnessSet::signatures_are_valid_for], [signer_account_ids] *)
Definition PRIVACY_MESSAGE_PREFIX : list byte := bstr "/LEE/v0.3/Message/Privacy/" ++ zeros 6.
Definition priv_hash (m : PrivacyMessage) : list byte :=
  hash_bytes (PRIVACY_MESSAGE_PREFIX ++ borsh_to_vec m).
Definition signatures_are_valid_for (w : PrivacyWitnessSet) (m : PrivacyMessage) : bool :=
  signatures_valid (priv_hash m) (priv_signatures w).
Definition priv_signer_account_ids (tx : PrivacyPreservingTransaction) : list AccountId :=
  signer_ids (priv_signatures (priv_witness_set tx)).
Definition priv_affected_public_account_ids (tx : PrivacyPreservingTransaction) : gset AccountId :=
  list_to_set (priv_signer_account_ids tx) ∪ list_to_set (public_account_ids (priv_message tx)).
Definition priv_tx_hash `{Borsh PrivacyPreservingTransaction} (tx : PrivacyPreservingTransaction) :
    list byte := hash_bytes (borsh_to_vec tx).
End PrivacyTx.

Definition dep_tx_hash `{Sha256, Borsh ProgramDeploymentTransaction}
    (tx : ProgramDeploymentTransaction) : list byte := hash_bytes (borsh_to_vec tx).
Definition dep_affected_public_account_ids (tx : ProgramDeploymentTransaction) : gset AccountId := ∅.

(** ** Proof verification: [Proof::is_valid_for]

    The proof bytes are an inner receipt of the zkVM; decoding and verifying
    receipts is third-party code. *)
Class Receipts := {
  inner_receipt : Type;
  inner_receipt_from_slice : list byte -> option inner_receipt;
  receipt_verify : inner_receipt -> list byte -> bool;
}.
Definition proof_is_valid_for {E} `{Receipts, Serde PrivacyPreservingCircuitOutput} (p : Proof_)
    (o : PrivacyPreservingCircuitOutput) : outcome E bool :=
  inner ← expect (inner_receipt_from_slice (proof_bytes p))
            "called `Result::unwrap()` on an `Err` value";
  Ok (receipt_verify inner (CircuitOutput_to_bytes o)).

(** ** Lemmas *)
Lemma signatures_valid_Forall `{Schnorr} h sks :
  signatures_valid h sks = true <->
  Forall (fun sk => signature_is_valid_for sk.1 h sk.2 = true) sks.
Proof.
  induction sks as [|[s pk] sks IH]; cbn; [by split|]. rewrite Forall_cons. cbn.
  destruct (signature_is_valid_for s h pk); [naive_solver|]. split; [done|naive_solver].
Qed.
