(* ===== verification/Prover.v ===== *)
(** The host side of the privacy circuit: [execute_and_prove] of
    [nssa/src/privacy_preserving_transaction/circuit.rs].

    The prover executes the chain of programs itself, one receipt per program,
    and then proves the circuit on their outputs with those receipts as
    assumptions.  Proving and receipts are third-party code. *)

From S2P Require Import Prelude Bytes Crypto Account Ids Borsh ProgramCore Host MerkleTree State Encryption CircuitIo Circuit Transactions.

Open Scope Z_scope.

Record ProgramWithDependencies := mk_WithDeps {
  main_program : Program;
  dependencies : gmap ProgramId Program;
}.

(** [prover.prove_with_opts] on the circuit: an error, or the serialized inner
    receipt and the decoded journal. *)
Class CircuitProver := prove_with_opts :
  PrivacyPreservingCircuitInput -> list Assumption -> string + (list byte * PrivacyPreservingCircuitOutput).

Section Proving.
Context `{ZkVm, Serde ProgramOutput, CircuitProver}.

(** [execute_and_prove_program], with the journal of the receipt decoded. *)
Definition execute_and_prove_program (p : Program) (caller : option ProgramId)
    (pres : list AccountWithMetadata) (instr : InstructionData) : outcome NssaError ProgramOutput :=
  match vm_execute (elf p) (program_id p) caller pres instr with
  | inl e => Err (ProgramProveFailed e)
  | inr o => Ok o
  end.

Abbreviation Pending := (ChainedCall * Program * option ProgramId)%type.

(** The inner [for] loop: the calls are pushed to the front in reverse. *)
Definition push_calls (deps : gmap ProgramId Program) (caller : ProgramId) (calls : list ChainedCall)
    (queue : list Pending) : outcome NssaError (list Pending) :=
  fold_o (fun queue c =>
    next_program ← ok_or (deps !! cc_program_id c)
                     (InvalidProgramBehavior (UndeclaredProgramDependency (cc_program_id c)));
    Ok ((c, next_program, Some caller) :: queue)) queue (rev calls).

(** The [while let] loop.  [None] means that the fuel ran out. *)
Fixpoint prove_loop (fuel : nat) (deps : gmap ProgramId Program) (counter : Z) (queue : list Pending)
    (receipts : list (ProgramId * ProgramOutput)) :
    option (outcome NssaError (list (ProgramId * ProgramOutput))) :=
  match fuel with
  | O => None
  | S fuel =>
      match queue with
      | [] => Some (Ok receipts)
      | (call, program, caller) :: queue =>
          if decide (counter >= MAX_NUMBER_CHAINED_CALLS) then Some (Err MaxChainedCallsDepthExceeded)
          else
            match o ← execute_and_prove_program program caller (cc_pre_states call)
                        (cc_instruction_data call);
                  queue' ← push_calls deps (cc_program_id call) (chained_calls o) queue;
                  Ok (o, queue') with
            | Ok (o, queue') => prove_loop fuel deps (counter + 1) queue' (receipts ++ [(program_id program, o)])
            | Err e => Some (Err e)
            | Panic msg => Some (Panic msg)
            end
      end
  end.

Definition PROVE_LOOP_FUEL : nat := 11.

Definition prover_initial_call (p : ProgramWithDependencies) (pres : list AccountWithMetadata)
    (instr : InstructionData) : ChainedCall :=
  mk_ChainedCall (program_id (main_program p)) pres instr [].

Definition execute_and_prove (pres : list AccountWithMetadata) (instr : InstructionData)
    (identities : list InputAccountIdentity) (p : ProgramWithDependencies) :
    outcome NssaError (PrivacyPreservingCircuitOutput * Proof_) :=
  receipts ← match prove_loop PROVE_LOOP_FUEL (dependencies p) 0
                     [(prover_initial_call p pres instr, main_program p, None)] [] with
             | Some r => r
             | None => Panic "out of fuel"
             end;
  let assumptions := (fun r : ProgramId * ProgramOutput => (r.1, serde_to_vec r.2)) <$> receipts in
  match prove_with_opts (mk_CircuitInput receipts.*2 identities (program_id (main_program p))) assumptions with
  | inl e => Err (CircuitProvingError e)
  | inr (bytes, o) => Ok (o, mk_Proof bytes)
  end.

(** ** Lemmas *)
Lemma prove_loop_total fuel deps counter queue receipts :
  MAX_NUMBER_CHAINED_CALLS - counter < Z.of_nat fuel -> (0 < fuel)%nat ->
  is_Some (prove_loop fuel deps counter queue receipts).
Proof.
  revert counter queue receipts; induction fuel as [|fuel IH]; intros counter queue receipts Hf Hpos; [lia|].
  cbn [prove_loop]. destruct queue as [|[[call program] caller] queue]; [done|].
  case_decide; [done|]. destruct (_ ≫= _) as [[o queue']| |]; [|done..]. apply IH; lia.
Qed.

Lemma prove_loop_mono fuel fuel' deps counter queue receipts r :
  prove_loop fuel deps counter queue receipts = Some r -> (fuel <= fuel')%nat ->
  prove_loop fuel' deps counter queue receipts = Some r.
Proof.
  revert fuel' counter queue receipts.
  induction fuel as [|fuel IH]; intros fuel' counter queue receipts Hr Hle; [done|].
  destruct fuel' as [|fuel']; [lia|]. cbn [prove_loop] in *.
  destruct queue as [|[[call program] caller] queue]; [done|]. case_decide; [done|].
  destruct (_ ≫= _) as [[o queue']| |]; [|done..]. apply IH; [done|lia].
Qed.

(** Each iteration yields one receipt, so there are at most ten. *)
Lemma prove_loop_length fuel deps counter queue receipts receipts' :
  prove_loop fuel deps counter queue receipts = Some (Ok receipts') ->
  Z.of_nat (length receipts) <= counter <= MAX_NUMBER_CHAINED_CALLS ->
  Z.of_nat (length receipts') <= MAX_NUMBER_CHAINED_CALLS.
Proof.
  revert counter queue receipts; induction fuel as [|fuel IH]; intros counter queue receipts Hr Hc; [done|].
  cbn [prove_loop] in Hr. destruct queue as [|[[call program] caller] queue].
  - injection Hr as <-. lia.
  - case_decide; [done|]. destruct (_ ≫= _) as [[o queue']| |]; [|done..].
    apply IH in Hr; [done|]. rewrite length_app. cbn. lia.
Qed.

Definition pending_id (q : Pending) : ProgramId := cc_program_id q.1.1.
Definition keyed (q : Pending) : Prop := program_id q.1.2 = pending_id q.
Definition receipt_assumption (r : ProgramId * ProgramOutput) : Assumption := (r.1, serde_to_vec r.2).

Lemma push_calls_ok deps caller calls queue queue' :
  (forall id p, deps !! id = Some p -> program_id p = id) ->
  push_calls deps caller calls queue = Ok queue' ->
  exists new, queue' = new ++ queue /\ Forall keyed new /\
    pending_id <$> new = cc_program_id <$> calls.
Proof.
  intros Hdeps. unfold push_calls. revert queue'. induction calls as [|c calls IH]; intros queue' Hp.
  - cbn in Hp. inv_ok. by exists [].
  - cbn [rev] in Hp. rewrite fold_o_app in Hp. apply bind_ok in Hp as (q1 & H1' & H2').
    destruct (IH q1 H1') as (new & -> & Hk & Hids). cbn [fold_o] in H2'. inv_ok.
    eexists (_ :: new). split; [done|]. split.
    + constructor; [|done]. unfold keyed, pending_id. cbn. by apply Hdeps.
    + rewrite fmap_cons, Hids. done.
Qed.

(** The circuit walks the same calls as the prover. *)
Lemma prove_loop_assumptions `{Sha256} fuel deps counter queue receipts receipts' :
  (forall id p, deps !! id = Some p -> program_id p = id) -> Forall keyed queue ->
  prove_loop fuel deps counter queue receipts = Some (Ok receipts') ->
  exists new, receipts' = receipts ++ new /\
  forall identities counter' calls es asm es' asm',
    cc_program_id ∘ fst <$> calls = pending_id <$> queue ->
    outputs_loop identities counter' calls new.*2 es asm = Ok (es', asm') ->
    asm' = asm ++ (receipt_assumption <$> new).
Proof.
  intros Hdeps. revert counter queue receipts.
  induction fuel as [|fuel IH]; intros counter queue receipts Hk Hr; [done|].
  cbn [prove_loop] in Hr. destruct queue as [|[[call program] caller] queue].
  - injection Hr as <-. exists []. split; [by rewrite app_nil_r|].
    intros identities counter' calls es asm es' asm' Hcalls Ho.
    destruct calls; [|done]. cbn [outputs_loop fmap list_fmap] in Ho. inv_ok. by rewrite app_nil_r.
  - case_decide; [done|]. destruct (_ ≫= _) as [[o queue']| |] eqn:Hstep; [|done..].
    apply bind_ok in Hstep as (o1 & _ & Hstep). apply bind_ok in Hstep as (q1 & Hpush & Heq).
    injection Heq as -> ->. apply Forall_cons in Hk as [Hk1 Hk].
    apply push_calls_ok in Hpush as (newq & -> & Hknew & Hids); [|done].
    apply IH in Hr as (new & -> & Hnew); [|by apply Forall_app].
    exists ((program_id program, o) :: new). split; [by rewrite <- app_assoc|].
    intros identities counter' calls es asm es' asm' Hcalls Ho.
    destruct calls as [|[call' caller'] calls]; [done|]. rewrite !fmap_cons in Hcalls.
    injection Hcalls as Hid Hcalls. unfold keyed, pending_id in Hk1. unfold pending_id in Hid. cbn in Hid, Hk1.
    rewrite fmap_cons in Ho. cbn [outputs_loop snd] in Ho. inv_ok.
    apply Hnew in Ho as ->.
    + rewrite fmap_cons, <- app_assoc. cbn. unfold receipt_assumption at 2. cbn [fst snd].
      rewrite Hk1, <- Hid. done.
    + rewrite !fmap_app, Hids, Hcalls, <- list_fmap_compose. done.
Qed.
End Proving.
