(* ===== verification/StateDiffs.v ===== *)
(** Validation of transactions: [nssa/src/validated_state_diff.rs] and the
    [transition_*] functions of [nssa/src/state.rs].

    [from_public_transaction] runs the chained calls of a public transaction
    and checks each program output; the other two constructors check a privacy
    preserving transaction and a program deployment.  The result of each is a
    [StateDiff], the input of [State.apply_state_diff]. *)

From S2P Require Import Prelude Bytes Crypto Account Ids Borsh ProgramCore Host MerkleTree State Encryption CircuitIo Transactions.

Open Scope Z_scope.

(** ** Data *)
Abbreviation Diff := (gmap AccountId Account).
Record CallerData := mk_Caller { cd_program_id : option ProgramId; authorized_accounts : gset AccountId }.
Abbreviation CallQueue := (list (ChainedCall * CallerData)).

Definition behavior_error {A} (e : InvalidProgramBehaviorError) : outcome NssaError A :=
  Err (InvalidProgramBehavior e).

(** ** [from_public_transaction], before the loop *)

(** [state_diff.get(&id).cloned().unwrap_or_else(|| state.get_account_by_id(id))] *)
Definition expected_account (st : V03State) (d : Diff) (id : AccountId) : Account :=
  default (get_account_by_id st id) (d !! id).

Definition check_nonces (st : V03State) (signers : list AccountId) (nonces : list Nonce) :
    outcome NssaError () :=
  iter_o (fun p : AccountId * Nonce =>
    ensure (bool_decide (nonce (get_account_by_id st p.1) = p.2)) (InvalidInput "Nonce mismatch"))
    (zip signers nonces).

Definition input_pre_states (st : V03State) (signers ids : list AccountId) : list AccountWithMetadata :=
  (fun id => AccountWithMetadata_new (get_account_by_id st id) (bool_decide (id ∈ signers)) id) <$> ids.

(** ** One iteration of the loop over the chained calls *)
Definition check_pre_state (st : V03State) (d : Diff) (is_auth : AccountId -> bool)
    (pre : AccountWithMetadata) : outcome NssaError () :=
  let id := account_id pre in
  let expected := expected_account st d id in
  ensure (bool_decide (account pre = expected))
    (InvalidProgramBehavior (InconsistentAccountPreState id expected (account pre))) ;;
  ensure (negb (is_authorized pre) || is_auth id)
    (InvalidProgramBehavior (InvalidAccountAuthorization id)).

(** The claim of one post state; [pre] is [program_output.pre_states[i]]. *)
Definition apply_claim `{Sha256} (p : ProgramId) (pre : AccountWithMetadata) (post : AccountPostState)
    (c : Claim) : outcome NssaError AccountPostState :=
  let id := account_id pre in
  ensure (bool_decide (program_owner (post_account post) = DEFAULT_PROGRAM_ID))
    (InvalidProgramBehavior (ClaimedNonDefaultAccount id)) ;;
  match c with
  | Authorized =>
      ensure (is_authorized pre) (InvalidProgramBehavior (ClaimedUnauthorizedAccount id))
  | ClaimPda seed =>
      let pda := for_public_pda p seed in
      ensure (bool_decide (id = pda)) (InvalidProgramBehavior (MismatchedPdaClaim pda id))
  end ;;
  Ok (mk_PostState (set_program_owner p (post_account post)) (claim post)).

Fixpoint claim_posts `{Sha256} (p : ProgramId) (pres : list AccountWithMetadata) (i : nat)
    (posts : list AccountPostState) : outcome NssaError (list AccountPostState) :=
  match posts with
  | [] => Ok []
  | post :: posts =>
      post' ← match claim post with
              | None => Ok post
              | Some c =>
                  pre ← expect (pres !! i) "index out of bounds";
                  apply_claim p pre post c
              end;
      posts' ← claim_posts p pres (S i) posts;
      Ok (post' :: posts')
  end.

Definition update_diff (d : Diff) (pres : list AccountWithMetadata) (posts : list AccountPostState) :
    Diff :=
  foldl (fun d (pp : AccountWithMetadata * AccountPostState) =>
           <[account_id pp.1 := post_account pp.2]> d) d (zip pres posts).

Section PublicExecution.
Context `{Sha256, ZkVm, Schnorr, Borsh PublicMessage}.
Context (st : V03State) (block_id : BlockId) (timestamp : Timestamp).

(** The checks on one program output, and the claims it makes. *)
Definition check_output (d : Diff) (call : ChainedCall) (caller : CallerData) (o : ProgramOutput) :
    outcome NssaError (list AccountPostState) :=
  let authorized_pdas := compute_public_authorized_pdas (cd_program_id caller) (cc_pda_seeds call) in
  let is_auth id := bool_decide (id ∈ authorized_pdas) || bool_decide (id ∈ authorized_accounts caller) in
  iter_o (check_pre_state st d is_auth) (pre_states o) ;;
  ensure (bool_decide (self_program_id o = cc_program_id call))
    (InvalidProgramBehavior (MismatchedProgramId (cc_program_id call) (self_program_id o))) ;;
  ensure (bool_decide (caller_program_id o = cd_program_id caller))
    (InvalidProgramBehavior (MismatchedCallerProgramId (cd_program_id caller) (caller_program_id o))) ;;
  map_err (fun e => InvalidProgramBehavior (ExecutionValidationFailed e))
    (validate_execution (pre_states o) (post_states o) (cc_program_id call)) ;;
  ensure (is_valid_for (block_validity_window o) block_id &&
          is_valid_for (timestamp_validity_window o) timestamp) OutOfValidityWindow ;;
  claim_posts (cc_program_id call) (pre_states o) 0 (post_states o).

(** [CallerData] of the calls made by [call]: the authorized accounts are
    those of the [pre_states] the call was made with. *)
Definition callee_data (call : ChainedCall) : CallerData :=
  mk_Caller (Some (cc_program_id call))
    (list_to_set (account_id <$> filter (fun pre => is_authorized pre = true) (cc_pre_states call))).

Definition run_call (d : Diff) (call : ChainedCall) (caller : CallerData) :
    outcome NssaError (Diff * CallQueue) :=
  program ← ok_or (programs st !! cc_program_id call) (InvalidInput "Unknown program");
  o ← Program_execute program (cd_program_id caller) (cc_pre_states call) (cc_instruction_data call);
  posts ← check_output d call caller o;
  Ok (update_diff d (pre_states o) posts, (fun c => (c, callee_data call)) <$> chained_calls o).

(** The [while let] loop.  [None] means that the fuel ran out. *)
Fixpoint call_loop (fuel : nat) (counter : Z) (d : Diff) (queue : CallQueue) :
    option (outcome NssaError Diff) :=
  match fuel with
  | O => None
  | S fuel =>
      match queue with
      | [] => Some (Ok d)
      | (call, caller) :: queue =>
          if decide (counter <= MAX_NUMBER_CHAINED_CALLS) then
            match run_call d call caller with
            | Ok (d', new_calls) => call_loop fuel (counter + 1) d' (new_calls ++ queue)
            | Err e => Some (Err e)
            | Panic msg => Some (Panic msg)
            end
          else Some (Err MaxChainedCallsDepthExceeded)
      end
  end.

(** "Check that all modified uninitialized accounts where claimed" *)
Definition check_claimed (p : AccountId * Account) : outcome NssaError () :=
  let pre := get_account_by_id st p.1 in
  if decide (program_owner pre <> DEFAULT_PROGRAM_ID) then Ok ()
  else if decide (pre = p.2) then Ok ()
  else ensure (bool_decide (program_owner p.2 <> DEFAULT_PROGRAM_ID))
         (InvalidProgramBehavior (DefaultAccountModifiedWithoutClaim p.1)).

Definition MAX_LOOP_FUEL : nat := 12.

Definition initial_queue (tx : PublicTransaction) : CallQueue :=
  let signers := pub_signer_account_ids tx in
  let m := pub_message tx in
  [(mk_ChainedCall (pub_program_id m) (input_pre_states st signers (pub_account_ids m))
      (pub_instruction_data m) [],
    mk_Caller None (list_to_set signers))].

Definition check_public_message (tx : PublicTransaction) : outcome NssaError () :=
  let m := pub_message tx in
  let w := pub_witness_set tx in
  ensure (bool_decide (n_distinct (pub_account_ids m) = length (pub_account_ids m)))
    (InvalidInput "Duplicate account_ids found in message") ;;
  ensure (bool_decide (length (pub_nonces m) = length (pub_signatures w)))
    (InvalidInput "Mismatch between number of nonces and signatures/public keys") ;;
  ensure (pub_is_valid_for w m)
    (InvalidInput "Invalid signature for given message and public key") ;;
  check_nonces st (pub_signer_account_ids tx) (pub_nonces m).

Definition from_public_transaction (tx : PublicTransaction) : outcome NssaError StateDiff :=
  check_public_message tx ;;
  d ← match call_loop MAX_LOOP_FUEL 0 ∅ (initial_queue tx) with
      | Some r => r
      | None => Panic "out of fuel"
      end;
  iter_o check_claimed (map_to_list d) ;;
  Ok (mk_Diff (pub_signer_account_ids tx) d [] [] None).
End PublicExecution.

(** ** [from_privacy_preserving_transaction] *)
Section PrivacyValidation.
Context `{Sha256, Schnorr, Borsh PrivacyMessage, Receipts, Serde PrivacyPreservingCircuitOutput}.

(** [check_privacy_preserving_circuit_proof_is_valid] *)
Definition circuit_output_of (pre : list AccountWithMetadata) (m : PrivacyMessage) :
    PrivacyPreservingCircuitOutput :=
  mk_CircuitOutput pre (public_post_states m) (ciphertext <$> encrypted_private_post_states m)
    (priv_new_commitments m) (priv_new_nullifiers m)
    (priv_block_validity_window m) (priv_timestamp_validity_window m).
Definition check_privacy_preserving_circuit_proof_is_valid (p : Proof_)
    (pre : list AccountWithMetadata) (m : PrivacyMessage) : outcome NssaError () :=
  valid ← proof_is_valid_for p (circuit_output_of pre m);
  ensure valid InvalidPrivacyPreservingProof.

Definition check_privacy_message (st : V03State) (tx : PrivacyPreservingTransaction)
    (block_id : BlockId) (timestamp : Timestamp) : outcome NssaError () :=
  let m := priv_message tx in
  let w := priv_witness_set tx in
  ensure (negb (bool_decide (priv_new_commitments m = [])) ||
          negb (bool_decide (priv_new_nullifiers m = [])))
    (InvalidInput "Empty commitments and empty nullifiers found in message") ;;
  ensure (bool_decide (n_distinct (public_account_ids m) = length (public_account_ids m)))
    (InvalidInput "Duplicate account_ids found in message") ;;
  ensure (bool_decide (n_distinct (priv_new_nullifiers m) = length (priv_new_nullifiers m)))
    (InvalidInput "Duplicate nullifiers found in message") ;;
  ensure (bool_decide (n_distinct (priv_new_commitments m) = length (priv_new_commitments m)))
    (InvalidInput "Duplicate commitments found in message") ;;
  ensure (bool_decide (length (priv_nonces m) = length (priv_signatures w)))
    (InvalidInput "Mismatch between number of nonces and signatures/public keys") ;;
  ensure (signatures_are_valid_for w m)
    (InvalidInput "Invalid signature for given message and public key") ;;
  check_nonces st (priv_signer_account_ids tx) (priv_nonces m) ;;
  ensure (is_valid_for (priv_block_validity_window m) block_id &&
          is_valid_for (priv_timestamp_validity_window m) timestamp) OutOfValidityWindow.

(** [zip(..).collect::<HashMap<_, _>>()] *)
Definition zip_to_map (ids : list AccountId) (posts : list Account) : Diff :=
  foldl (fun m (p : AccountId * Account) => <[p.1 := p.2]> m) ∅ (zip ids posts).

Definition from_privacy_preserving_transaction (st : V03State) (block_id : BlockId)
    (timestamp : Timestamp) (tx : PrivacyPreservingTransaction) : outcome NssaError StateDiff :=
  let m := priv_message tx in
  check_privacy_message st tx block_id timestamp ;;
  let signers := priv_signer_account_ids tx in
  let public_pre_states := input_pre_states st signers (public_account_ids m) in
  check_privacy_preserving_circuit_proof_is_valid (proof (priv_witness_set tx)) public_pre_states m ;;
  check_commitments_are_new st (priv_new_commitments m) ;;
  check_nullifiers_are_valid st (priv_new_nullifiers m) ;;
  Ok (mk_Diff signers (zip_to_map (public_account_ids m) (public_post_states m))
        (priv_new_commitments m) (priv_new_nullifiers m).*1 None).
End PrivacyValidation.

(** ** [from_program_deployment_transaction] *)
Definition from_program_deployment_transaction `{RiscZeroBinary} (st : V03State)
    (tx : ProgramDeploymentTransaction) : outcome NssaError StateDiff :=
  p ← Program_new (bytecode (dep_message tx));
  if decide (is_Some (programs st !! program_id p)) then Err ProgramAlreadyExists
  else Ok (mk_Diff [] ∅ [] [] (Some p)).

(** ** state.rs: [transition_from_*] *)
Section Transitions.
Context `{Sha256, ZkVm, Schnorr, Borsh PublicMessage, Borsh PrivacyMessage, Receipts,
  Serde PrivacyPreservingCircuitOutput, RiscZeroBinary}.

Definition transition_from_public_transaction (st : V03State) (tx : PublicTransaction)
    (block_id : BlockId) (timestamp : Timestamp) : outcome NssaError V03State :=
  diff ← from_public_transaction st block_id timestamp tx;
  apply_state_diff st diff.
Definition transition_from_privacy_preserving_transaction (st : V03State)
    (tx : PrivacyPreservingTransaction) (block_id : BlockId) (timestamp : Timestamp) :
    outcome NssaError V03State :=
  diff ← from_privacy_preserving_transaction st block_id timestamp tx;
  apply_state_diff st diff.
Definition transition_from_program_deployment_transaction (st : V03State)
    (tx : ProgramDeploymentTransaction) : outcome NssaError V03State :=
  diff ← from_program_deployment_transaction st tx;
  apply_state_diff st diff.
End Transitions.
