(* ===== verification/PublicExecution.v ===== *)
(** What a public transaction can do to the state: the chained-call loop of
    [StateDiffs.from_public_transaction] as a relation with a trace, and the
    theorems on accepted transactions. *)

From S2P Require Import Prelude Bytes Crypto Account Ids Borsh ProgramCore Host MerkleTree State Encryption CircuitIo Transactions StateDiffs.

(** ** Specification *)

(** What one program [p] may do to one account. *)
Record account_step (p : ProgramId) (pre post : Account) : Prop := {
  as_nonce : nonce post = nonce pre;
  as_owner : program_owner post = program_owner pre \/
             (program_owner pre = DEFAULT_PROGRAM_ID /\ program_owner post = p);
  as_balance : program_owner pre <> p -> balance pre <= balance post;
  as_data : program_owner pre <> p -> pre <> Account_default -> data post = data pre;
}.

(** A claim changes at most the owner, and only of an unowned account. *)
Definition claimed_from `{Sha256} (p : ProgramId) (pre : AccountWithMetadata) (post post' : AccountPostState) : Prop :=
  balance (post_account post') = balance (post_account post) /\
  data (post_account post') = data (post_account post) /\
  nonce (post_account post') = nonce (post_account post) /\
  (program_owner (post_account post') = program_owner (post_account post) \/
   (program_owner (post_account post) = DEFAULT_PROGRAM_ID /\
    program_owner (post_account post') = p /\
    (is_authorized pre = true \/ exists seed, account_id pre = for_public_pda p seed))).

Record Step := mk_Step { s_call : ChainedCall; s_caller : CallerData; s_output : ProgramOutput }.

Section Runs.
Context `{Sha256, ZkVm}.
Context (st : V03State) (block_id : BlockId) (timestamp : Timestamp).

(** A complete run of the loop, with the program executions it made. *)
Inductive runs : Diff -> CallQueue -> list Step -> Diff -> Prop :=
  | runs_done d : runs d [] [] d
  | runs_call d call caller queue program o posts tr d' :
      programs st !! cc_program_id call = Some program ->
      Program_execute program (cd_program_id caller) (cc_pre_states call)
        (cc_instruction_data call) = Ok o ->
      check_output st block_id timestamp d call caller o = Ok posts ->
      runs (update_diff d (pre_states o) posts)
        (((fun c => (c, callee_data call)) <$> chained_calls o) ++ queue) tr d' ->
      runs d ((call, caller) :: queue) (mk_Step call caller o :: tr) d'.
End Runs.

(** ** Lemmas: one program output *)
Section CheckOutput.
Context `{Sha256}.

Lemma apply_claim_ok p pre post c post' :
  apply_claim p pre post c = Ok post' -> claimed_from p pre post post'.
Proof.
  unfold apply_claim. intros Hc; inv_ok. cbn. split_and!; try done. right.
  split_and!; [done..|]. destruct c as [|seed]; inv_ok; eauto.
Qed.

Lemma claim_posts_ok p done_ pres posts posts' :
  claim_posts p (done_ ++ pres) (length done_) posts = Ok posts' ->
  length posts = length pres ->
  length posts' = length posts /\
  forall i pre post post', pres !! i = Some pre -> posts !! i = Some post ->
    posts' !! i = Some post' -> claimed_from p pre post post'.
Proof.
  revert done_ pres posts'; induction posts as [|post posts IH]; intros done_ pres posts' Hc Hlen;
    cbn [claim_posts] in Hc.
  - inv_ok. split; [done|]. intros i pre post post' _ Hpost. by rewrite lookup_nil in Hpost.
  - destruct pres as [|pre pres]; [done|]. inv_ok.
    destruct (IH (done_ ++ [pre]) pres a0) as [Hl Hf].
    { by rewrite <- app_assoc, length_app, Nat.add_comm. }
    { cbn in Hlen. lia. }
    split; [cbn; lia|]. intros [|i] pre0 post0 post0'; cbn; [|apply Hf].
    intros [= <-] [= <-] [= <-]. destruct (claim post) as [c|].
    + inv_ok. rewrite list_lookup_middle in Hs1 by done. injection Hs1 as <-.
      by eapply apply_claim_ok.
    + inv_ok. unfold claimed_from. auto.
Qed.

Lemma pair_then_claim p pre post post' :
  pair_ok p (account pre) (post_account post) -> claimed_from p pre post post' ->
  account_step p (account pre) (post_account post').
Proof.
  intros [Hn Ho Hb Hd _] (Eb & Ed & En & Eo). split.
  - congruence.
  - destruct Eo as [Eo|(E1 & E2 & _)]; [left; congruence|right; split; congruence].
  - rewrite Eb. done.
  - rewrite Ed. done.
Qed.

Context `{ZkVm}.
Context (st : V03State) (block_id : BlockId) (timestamp : Timestamp).

(** Everything the checks establish about one accepted output. *)
Record output_ok (d : Diff) (call : ChainedCall) (caller : CallerData) (o : ProgramOutput)
    (posts : list AccountPostState) : Prop := {
  oo_pre : Forall (fun pre => account pre = expected_account st d (account_id pre)) (pre_states o);
  oo_auth : Forall (fun pre => is_authorized pre = true ->
      account_id pre ∈ compute_public_authorized_pdas (cd_program_id caller) (cc_pda_seeds call) \/
      account_id pre ∈ authorized_accounts caller) (pre_states o);
  oo_unique : NoDup (account_id <$> pre_states o);
  oo_total : sum_Z (balance ∘ account <$> pre_states o) = sum_Z (balance ∘ post_account <$> posts);
  oo_length : length posts = length (pre_states o);
  oo_steps : Forall2 (fun pre post => account_step (cc_program_id call) (account pre) (post_account post))
               (pre_states o) posts;
  oo_claims : Forall2 (fun pre post =>
      program_owner (post_account post) = program_owner (account pre) \/
      is_authorized pre = true \/ exists seed, account_id pre = for_public_pda (cc_program_id call) seed)
    (pre_states o) posts;
  oo_windows : is_valid_for (block_validity_window o) block_id = true /\
               is_valid_for (timestamp_validity_window o) timestamp = true;
}.

Lemma check_output_ok d call caller o posts :
  Output_wf o -> check_output st block_id timestamp d call caller o = Ok posts ->
  output_ok d call caller o posts.
Proof.
  intros [Wpre Wpost] Hc. unfold check_output in Hc. inv_ok.
  rewrite iter_o_ok in Hs.
  apply (validate_execution_spec (pre_states o) (post_states o)) in Hs2 as [Hu Hp Ht _];
    [|by eapply Forall_impl; [exact Wpre|]; cbn; intros ? (_ & ? & _)
     |by eapply Forall_impl; [exact Wpost|]; cbn; intros ? (_ & ? & _)].
  pose proof (Forall2_length _ _ _ Hp) as Hlen.
  apply (claim_posts_ok _ [] (pre_states o)) in Hc as [Hlen' Hcl]; [|done].
  assert (Hstep : forall i pre post', pre_states o !! i = Some pre -> posts !! i = Some post' ->
    exists post, post_states o !! i = Some post /\ pair_ok (cc_program_id call) (account pre) (post_account post)
      /\ claimed_from (cc_program_id call) pre post post').
  { intros i pre post' Hi Hi'. destruct (Forall2_lookup_l _ _ _ _ _ Hp Hi) as (post & Hpo & Hok).
    exists post. split; [done|]. split; [done|]. by eapply Hcl. }
  split; try done.
  - eapply Forall_impl; [exact Hs|]. cbn. unfold check_pre_state. intros pre Hpre; by inv_ok.
  - eapply Forall_impl; [exact Hs|]. cbn. unfold check_pre_state. intros pre Hpre; inv_ok.
    intros Ha. rewrite Ha in Hpre. cbn in Hpre.
    apply orb_true_iff in Hpre as [?%bool_decide_eq_true|?%bool_decide_eq_true]; auto.
  - rewrite Ht. f_equal. apply list_eq. intros i. rewrite !list_lookup_fmap.
    destruct (post_states o !! i) as [post|] eqn:Hi.
    + destruct (lookup_lt_is_Some_2 posts i) as [post' Hi'].
      { rewrite Hlen'. by eapply lookup_lt_Some. }
      destruct (Forall2_lookup_r _ _ _ _ _ Hp Hi) as (pre & Hpre & _).
      rewrite Hi'. cbn. destruct (Hcl i pre post post' Hpre Hi Hi') as (Hb & _). by rewrite Hb.
    + apply lookup_ge_None in Hi. by rewrite (proj2 (lookup_ge_None posts i)) by lia.
  - lia.
  - apply Forall2_same_length_lookup_2; [lia|]. intros i pre post' Hi Hi'.
    destruct (Hstep i pre post' Hi Hi') as (post & _ & Hok & Hc). by eapply pair_then_claim.
  - apply Forall2_same_length_lookup_2; [lia|]. intros i pre post' Hi Hi'.
    destruct (Hstep i pre post' Hi Hi') as (post & _ & Hok & (_ & _ & _ & Hc)).
    destruct Hc as [Hc|(_ & _ & Hc)]; [left|right; done]. rewrite Hc. apply Hok.
Qed.
End CheckOutput.

(** ** Lemmas: the diff *)
Section UpdateDiff.
Context (st : V03State).

Lemma expected_insert d id a id' :
  expected_account st (<[id := a]> d) id' = if decide (id = id') then a else expected_account st d id'.
Proof. unfold expected_account. case_decide; simplify_map_eq; done. Qed.

Lemma expected_union d id : default Account_default ((d ∪ public_state st) !! id) = expected_account st d id.
Proof.
  unfold expected_account, get_account_by_id. rewrite lookup_union.
  by destruct (d !! id), (public_state st !! id).
Qed.

(** Accounts out of the output keep their value. *)
Lemma update_diff_other d pres posts id :
  id ∉ account_id <$> pres -> update_diff d pres posts !! id = d !! id.
Proof.
  revert d posts; induction pres as [|pre pres IH]; intros d posts Hid; [done|].
  destruct posts as [|post posts]; [done|].
  change (update_diff d (pre :: pres) (post :: posts))
    with (update_diff (<[account_id pre := post_account post]> d) pres posts).
  rewrite fmap_cons, not_elem_of_cons in Hid. destruct Hid as [Hne Hid].
  rewrite IH by done. by rewrite lookup_insert_ne.
Qed.

Lemma update_diff_lookup d pres posts i pre post :
  NoDup (account_id <$> pres) -> pres !! i = Some pre -> posts !! i = Some post ->
  update_diff d pres posts !! account_id pre = Some (post_account post).
Proof.
  revert d posts i; induction pres as [|pre0 pres IH]; intros d posts i Hnd Hi Hi'; [done|].
  destruct posts as [|post0 posts]; [done|].
  change (update_diff d (pre0 :: pres) (post0 :: posts))
    with (update_diff (<[account_id pre0 := post_account post0]> d) pres posts).
  rewrite fmap_cons, NoDup_cons in Hnd. destruct Hnd as [Hn Hnd].
  destruct i as [|i]; cbn in Hi, Hi'; [|by eapply IH].
  simplify_eq. rewrite update_diff_other by done. by rewrite lookup_insert_eq.
Qed.

(** The total balance moves by what the output adds. *)
Lemma update_diff_total d pres posts :
  NoDup (account_id <$> pres) -> length posts = length pres ->
  Forall (fun pre => account pre = expected_account st d (account_id pre)) pres ->
  total_balance (update_diff d pres posts ∪ public_state st) =
    total_balance (d ∪ public_state st) +
    sum_Z (balance ∘ post_account <$> posts) - sum_Z (balance ∘ account <$> pres).
Proof.
  revert d posts; induction pres as [|pre pres IH]; intros d posts Hnd Hlen Hpre;
    destruct posts as [|post posts]; try done; [cbn; lia|].
  change (update_diff d (pre :: pres) (post :: posts))
    with (update_diff (<[account_id pre := post_account post]> d) pres posts).
  rewrite fmap_cons, NoDup_cons in Hnd. destruct Hnd as [Hn Hnd].
  apply Forall_cons in Hpre as [Hpre Hpres].
  rewrite IH; [|done|by injection Hlen|].
  - rewrite <- insert_union_l, total_balance_insert, expected_union, <- Hpre.
    rewrite !fmap_cons, !sum_Z_cons. cbn. lia.
  - rewrite Forall_forall in Hpres |- *. intros pre' Hin. rewrite expected_insert, decide_False;
      [by apply Hpres|]. intros He. apply Hn. rewrite He. by apply list_elem_of_fmap_2.
Qed.
End UpdateDiff.

Lemma account_step_refl p a : account_step p a a.
Proof. split; auto. lia. Qed.

Section RunLemmas.
Context `{Sha256, ZkVm, !ZkVmLaws}.
Context (st : V03State) (block_id : BlockId) (timestamp : Timestamp).

Abbreviation runs := (runs st block_id timestamp).
Abbreviation expected := (expected_account st).

Lemma output_account_steps d call caller o posts id :
  output_ok st block_id timestamp d call caller o posts ->
  account_step (cc_program_id call) (expected d id) (expected (update_diff d (pre_states o) posts) id).
Proof.
  intros [Hpre _ Hnd _ Hlen Hsteps _ _].
  destruct (decide (id ∈ account_id <$> pre_states o)) as [Hin|Hout].
  - apply list_elem_of_fmap in Hin as (pre & -> & Hin).
    apply list_elem_of_lookup in Hin as [i Hi].
    destruct (Forall2_lookup_l _ _ _ _ _ Hsteps Hi) as (post & Hpost & Hstep).
    unfold expected_account at 2. erewrite update_diff_lookup by done. cbn.
    rewrite Forall_lookup in Hpre. by rewrite <- (Hpre i pre Hi).
  - unfold expected_account. rewrite update_diff_other by done. apply account_step_refl.
Qed.

Lemma output_total d call caller o posts :
  output_ok st block_id timestamp d call caller o posts ->
  total_balance (update_diff d (pre_states o) posts ∪ public_state st) = total_balance (d ∪ public_state st).
Proof. intros [Hpre _ Hnd Htot Hlen _ _ _]. rewrite update_diff_total by done. lia. Qed.

(** The loop is the relation, and a run makes at most eleven calls. *)
Lemma call_loop_runs fuel counter d queue d' :
  call_loop st block_id timestamp fuel counter d queue = Some (Ok d') ->
  exists tr, runs d queue tr d' /\
    (queue <> [] -> counter + Z.of_nat (length tr) <= MAX_NUMBER_CHAINED_CALLS + 1).
Proof.
  revert counter d queue; induction fuel as [|fuel IH]; intros counter d queue Hl; [done|].
  cbn [call_loop] in Hl. destruct queue as [|[call caller] queue].
  - injection Hl as <-. exists []. split; [constructor|done].
  - case_decide as Hc; [|done].
    destruct (run_call st block_id timestamp d call caller) as [[d1 new]| |] eqn:Hr; try done.
    unfold run_call in Hr. inv_ok. apply IH in Hl as (tr & Hruns & Hlen).
    eexists (mk_Step call caller _ :: tr). split; [by econstructor|]. intros _. cbn [length].
    destruct tr as [|s tr]; [cbn; unfold MAX_NUMBER_CHAINED_CALLS in *; lia|].
    assert (Hq : ((fun c => (c, callee_data call)) <$> chained_calls a0) ++ queue <> []).
    { intros Hq. rewrite Hq in Hruns. inversion Hruns. }
    specialize (Hlen Hq). lia.
Qed.

(** With more fuel than iterations left, the loop ends. *)
Lemma call_loop_total fuel counter d queue :
  MAX_NUMBER_CHAINED_CALLS + 1 - counter < Z.of_nat fuel -> (0 < fuel)%nat ->
  is_Some (call_loop st block_id timestamp fuel counter d queue).
Proof.
  revert counter d queue; induction fuel as [|fuel IH]; intros counter d queue Hf Hpos; [lia|].
  cbn [call_loop]. destruct queue as [|[call caller] queue]; [done|].
  case_decide as Hc; [|done].
  destruct (run_call st block_id timestamp d call caller) as [[d1 new]| |]; try done.
  apply IH; lia.
Qed.

Lemma call_loop_mono fuel fuel' counter d queue r :
  call_loop st block_id timestamp fuel counter d queue = Some r -> (fuel <= fuel')%nat ->
  call_loop st block_id timestamp fuel' counter d queue = Some r.
Proof.
  revert fuel' counter d queue; induction fuel as [|fuel IH]; intros fuel' counter d queue Hr Hle; [done|].
  destruct fuel' as [|fuel']; [lia|]. cbn [call_loop] in *.
  destruct queue as [|[call caller] queue]; [done|]. case_decide; [|done].
  destruct (run_call st block_id timestamp d call caller) as [[d1 new]| |]; try done.
  apply IH; [done|lia].
Qed.

(** Rule induction: every step of a run is an accepted output. *)
Lemma runs_ind_ok (P : Diff -> list Step -> Diff -> Prop) :
  (forall d, P d [] d) ->
  (forall d call caller o posts tr d',
     output_ok st block_id timestamp d call caller o posts ->
     P (update_diff d (pre_states o) posts) tr d' ->
     P d (mk_Step call caller o :: tr) d') ->
  forall d queue tr d', runs d queue tr d' -> P d tr d'.
Proof.
  intros Hd Hs. induction 1 as [d|d call caller queue program o posts tr d' Hp He Hc _ IH]; [done|].
  eapply Hs; [|exact IH]. eapply check_output_ok; [|done]. by eapply Program_execute_wf.
Qed.

Lemma runs_total d queue tr d' :
  runs d queue tr d' ->
  total_balance (d' ∪ public_state st) = total_balance (d ∪ public_state st).
Proof.
  revert d queue tr d'. apply (runs_ind_ok (fun d _ d' => total_balance (d' ∪ public_state st) =
    total_balance (d ∪ public_state st))); [done|].
  intros d call caller o posts tr d' Ho ->. by eapply output_total.
Qed.

Lemma runs_nonce d queue tr d' :
  runs d queue tr d' -> forall id, nonce (expected d' id) = nonce (expected d id).
Proof.
  revert d queue tr d'. apply (runs_ind_ok (fun d _ d' => forall id, nonce (expected d' id) =
    nonce (expected d id))); [done|].
  intros d call caller o posts tr d' Ho IH id. rewrite IH.
  by apply (as_nonce (cc_program_id call)), (output_account_steps _ _ caller).
Qed.

(** Authority: what an account loses, loses through its owner or the program
    that claimed it. *)
Definition executed (tr : list Step) : list ProgramId := (cc_program_id ∘ s_call) <$> tr.

Lemma runs_owner d queue tr d' :
  runs d queue tr d' -> forall id,
  program_owner (expected d' id) = program_owner (expected d id) \/
  (program_owner (expected d id) = DEFAULT_PROGRAM_ID /\ program_owner (expected d' id) ∈ executed tr).
Proof.
  revert d queue tr d'. apply (runs_ind_ok (fun d tr d' => forall id,
    program_owner (expected d' id) = program_owner (expected d id) \/
    (program_owner (expected d id) = DEFAULT_PROGRAM_ID /\
     program_owner (expected d' id) ∈ executed tr))); [auto|].
  intros d call caller o posts tr d' Ho IH id.
  pose proof (as_owner _ _ _ (output_account_steps d call caller o posts id Ho)) as Hs.
  specialize (IH id). unfold executed in *. rewrite fmap_cons.
  destruct Hs as [Hs|[E1 E2]], IH as [IH|[E3 E4]].
  - left. congruence.
  - right. split; [congruence|]. by right.
  - right. split; [done|]. rewrite IH, E2. left.
  - right. split; [done|]. by right.
Qed.

Lemma runs_authority d queue tr d' :
  runs d queue tr d' -> forall id,
  program_owner (expected d id) <> DEFAULT_PROGRAM_ID ->
  program_owner (expected d id) ∉ executed tr ->
  balance (expected d id) <= balance (expected d' id) /\
  data (expected d' id) = data (expected d id).
Proof.
  revert d queue tr d'. apply (runs_ind_ok (fun d tr d' => forall id,
    program_owner (expected d id) <> DEFAULT_PROGRAM_ID ->
    program_owner (expected d id) ∉ executed tr ->
    balance (expected d id) <= balance (expected d' id) /\
    data (expected d' id) = data (expected d id))); [intros; split; [lia|done]|].
  intros d call caller o posts tr d' Ho IH id Hdef Hex.
  pose proof (output_account_steps d call caller o posts id Ho) as [_ Hown Hbal Hdat].
  unfold executed in *. rewrite fmap_cons, not_elem_of_cons in Hex. cbn in Hex. destruct Hex as [Hne Hex].
  destruct Hown as [Hown|[? _]]; [|done].
  destruct (IH id) as [Hb Hd]; [congruence..|].
  specialize (Hbal Hne). rewrite Hd, Hdat; [split; [lia|done]|done|].
  intros Heq. rewrite Heq in Hdef. done.
Qed.
End RunLemmas.

(** ** Lemmas: authorization when programs report the accounts they got *)
Section Authorization.
Context `{Sha256, ZkVm, !ZkVmLaws}.
Context (st : V03State) (block_id : BlockId) (timestamp : Timestamp).
Context (signers : list AccountId) (ps : list ProgramId).

(** [id] signed, or is a public PDA of one of the programs [ps]. *)
Definition rightfully_authorized (id : AccountId) : Prop :=
  id ∈ signers \/ exists p seed, p ∈ ps /\ id = for_public_pda p seed.
Definition rightful_caller (c : CallerData) : Prop :=
  (forall id, id ∈ authorized_accounts c -> rightfully_authorized id) /\
  (forall p, cd_program_id c = Some p -> p ∈ ps).

Lemma pdas_rightful c seeds id :
  rightful_caller c -> id ∈ compute_public_authorized_pdas (cd_program_id c) seeds ->
  rightfully_authorized id.
Proof.
  intros [_ Hp] Hid. unfold compute_public_authorized_pdas in Hid.
  destruct (cd_program_id c) as [p|]; [|set_solver]. rewrite elem_of_list_to_set in Hid.
  apply list_elem_of_fmap in Hid as (seed & -> & _). right. exists p, seed. auto.
Qed.

Lemma runs_rightful d queue tr d' :
  runs st block_id timestamp d queue tr d' ->
  Forall (fun q => rightful_caller q.2) queue ->
  Forall (fun s => pre_states (s_output s) = cc_pre_states (s_call s)) tr ->
  (forall s, s ∈ tr -> cc_program_id (s_call s) ∈ ps) ->
  Forall (fun s => Forall (fun pre => is_authorized pre = true -> rightfully_authorized (account_id pre))
                     (pre_states (s_output s))) tr.
Proof.
  induction 1 as [d|d call caller queue program o posts tr d' Hp He Hc _ IH]; intros Hq Hecho Hps;
    [constructor|].
  apply Forall_cons in Hq as [Hcaller Hq]. apply Forall_cons in Hecho as [Hecho1 Hecho].
  assert (Hauth : Forall (fun pre => is_authorized pre = true -> rightfully_authorized (account_id pre))
                    (pre_states o)).
  { apply check_output_ok in Hc; [|by eapply Program_execute_wf].
    eapply Forall_impl; [exact (oo_auth _ _ _ _ _ _ _ _ Hc)|]. cbn. intros pre Hpre Ha.
    destruct (Hpre Ha) as [Hpda|Hin]; [by eapply pdas_rightful|by apply Hcaller]. }
  constructor; [exact Hauth|]. apply IH; [|done|intros s Hs; apply Hps; by right].
  apply Forall_app. split; [|done]. apply Forall_fmap. apply Forall_forall. intros c _. cbn.
  assert (Hself : cc_program_id call ∈ ps) by (apply (Hps (mk_Step call caller o)); left).
  split; cbn; [|by intros p [= <-]]. intros id Hid. rewrite elem_of_list_to_set in Hid.
  apply list_elem_of_fmap in Hid as (pre & -> & [Ha Hin]%list_elem_of_filter).
  cbn in Hecho1. rewrite <- Hecho1 in Hin. rewrite Forall_forall in Hauth. by apply Hauth.
Qed.
End Authorization.
