(* ===== verification/CircuitFacts.v ===== *)
(** What the privacy circuit establishes: the invariant of its execution state
    and the lemmas that carry it through [Circuit.derive_from_outputs] and
    [Circuit.compute_circuit_output]. *)

From S2P Require Import Prelude Bytes Crypto Account Ids Borsh ProgramCore Host MerkleTree State Encryption CircuitIo Transactions StateDiffs PublicExecution Circuit.

Open Scope Z_scope.

(** ** Values that fit the Rust types *)
Definition Seed_wf (s : PdaSeed) : Prop := length (seed_bytes s) = 32%nat.
Definition claim_wf (p : AccountPostState) : Prop :=
  match claim p with Some (ClaimPda s) => Seed_wf s | _ => True end.
Definition call_wf (p : ProgramId) (seeds : list PdaSeed) : Prop := ProgramId_wf p /\ Forall Seed_wf seeds.
Definition output_typed (o : ProgramOutput) : Prop :=
  Output_wf o /\ Forall claim_wf (post_states o) /\
  Forall (fun c => call_wf (cc_program_id c) (cc_pda_seeds c)) (chained_calls o).
Definition identity_wf (i : InputAccountIdentity) : Prop :=
  match i with
  | Public => True
  | PrivateAuthorizedInit _ _ identifier | PrivateUnauthorized _ _ identifier
  | PrivatePdaInit _ _ identifier => in_u 128 identifier
  | PrivateAuthorizedUpdate _ _ proof identifier | PrivatePdaUpdate _ _ proof identifier =>
      in_u 128 identifier /\ Forall (fun n => length n = 32%nat) proof.2
  end.
Definition input_wf (i : PrivacyPreservingCircuitInput) : Prop :=
  Forall output_typed (program_outputs i) /\ ProgramId_wf (ci_program_id i) /\
  Forall identity_wf (account_identities i).

(** ** Specification *)

(** What the executions of the programs [ps] may have done to one account. *)
Record evolved (ps : list ProgramId) (a b : Account) : Prop := {
  ev_nonce : nonce b = nonce a;
  ev_owner : program_owner b = program_owner a \/
             (program_owner a = DEFAULT_PROGRAM_ID /\ program_owner b ∈ ps);
  ev_authority : program_owner a <> DEFAULT_PROGRAM_ID -> program_owner a ∉ ps ->
                 balance a <= balance b /\ data b = data a;
}.

Section Invariant.
Context `{Sha256}.

(** Every bound position holds the private PDA of its program, seed and npk,
    and the pair of program and seed resolves to that account. *)
Definition bindings_ok (es : ExecutionState) : Prop :=
  forall pos p s, private_pda_bound_positions es !! pos = Some (p, s) ->
  exists pre npk i, es_pre_states es !! pos = Some pre /\
    private_pda_npk_by_position es !! pos = Some (npk, i) /\
    account_id pre = for_private_pda p s npk i /\
    pda_family_binding es !! (p, s) = Some (account_id pre) /\ call_wf p [s].

Record es_inv (ps : list ProgramId) (k : Z) (es : ExecutionState) : Prop := {
  ei_nodup : NoDup (account_id <$> es_pre_states es);
  ei_dom id : is_Some (es_post_states es !! id) <-> id ∈ account_id <$> es_pre_states es;
  ei_bindings : bindings_ok es;
  ei_total : total_balance (es_post_states es) = sum_Z (balance ∘ account <$> es_pre_states es) + k;
  ei_evolved pre a : pre ∈ es_pre_states es -> es_post_states es !! account_id pre = Some a ->
    evolved ps (account pre) a;
  ei_wf id a : es_post_states es !! id = Some a -> Account_wf a;
}.
End Invariant.

(** ** Lemmas: evolution of one account *)
Lemma evolved_refl ps a : evolved ps a a.
Proof. split; auto. split; [lia|done]. Qed.

Lemma evolved_step ps p a b c :
  p ∈ ps -> evolved ps a b -> account_step p b c -> evolved ps a c.
Proof.
  intros Hp [En Eo Ea] [Sn So Sb Sd]. split.
  - congruence.
  - destruct Eo as [Eo|[E1 E2]], So as [So|[S1 S2]].
    + left. congruence.
    + right. split; [congruence|]. by rewrite S2.
    + right. split; [done|]. congruence.
    + right. split; [done|]. by rewrite S2.
  - intros Hd Hex. destruct (Ea Hd Hex) as [Hb Hdat]. destruct Eo as [Eo|[? _]]; [|done].
    assert (Hne : program_owner b <> p) by (rewrite Eo; intros He; by rewrite He in Hex).
    specialize (Sb Hne). split; [lia|]. rewrite Sd; [done|done|].
    intros Hdef. rewrite Hdef in Eo. apply Hd. rewrite <- Eo. done.
Qed.

Lemma evolved_mono ps ps' a b : ps ⊆ ps' -> evolved ps a b -> evolved ps' a b.
Proof.
  intros Hsub [En Eo Ea]. split; [done| |].
  - destruct Eo as [Eo|[E1 E2]]; [by left|right; split; [done|by apply Hsub]].
  - intros Hd Hex. apply Ea; [done|]. intros Hin. by apply Hex, Hsub.
Qed.

(** ** Lemmas: bindings *)
Section SyncLemmas.
Context `{Sha256}.

Lemma assert_family_binding_ok f p s id f' :
  assert_family_binding f p s id = Ok f' ->
  f' !! (p, s) = Some id /\ (forall k v, f !! k = Some v -> f' !! k = Some v).
Proof.
  unfold assert_family_binding. destruct (f !! (p, s)) as [e|] eqn:He; intros Hf; inv_ok.
  - by simplify_eq.
  - split; [apply lookup_insert_eq|]. intros k v Hk.
    rewrite lookup_insert_ne; [done|]. intros <-. congruence.
Qed.

Lemma bind_private_pda_position_ok m pos p s m' :
  bind_private_pda_position m pos p s = Ok m' ->
  forall k v, m' !! k = Some v -> m !! k = Some v \/ (k = pos /\ v = (p, s)).
Proof.
  unfold bind_private_pda_position. destruct (m !! pos) as [e|] eqn:He; intros Hf; inv_ok.
  - auto.
  - intros k v. destruct (decide (pos = k)) as [<-|Hne].
    + rewrite lookup_insert_eq. intros [= <-]. auto.
    + rewrite lookup_insert_ne by done. auto.
Qed.

Lemma position_of_Some id pres pos acc :
  position_of id pres = Some (pos, acc) -> pres !! pos = Some acc /\ account_id acc = id.
Proof. unfold position_of. intros (Hl & Hid & _)%list_find_Some. done. Qed.

(** Recording one more binding of [id] under [(p, s)]. *)
Lemma bindings_ok_extend es p s id f' m' :
  bindings_ok es -> assert_family_binding (pda_family_binding es) p s id = Ok f' ->
  (forall k v, m' !! k = Some v -> private_pda_bound_positions es !! k = Some v \/
     (v = (p, s) /\ exists pre npk i, es_pre_states es !! k = Some pre /\
        private_pda_npk_by_position es !! k = Some (npk, i) /\ account_id pre = id /\
        id = for_private_pda p s npk i /\ call_wf p [s])) ->
  bindings_ok (es_with_bindings m' f' es).
Proof.
  intros Hok [Hps Hmono]%assert_family_binding_ok Hm pos q t. cbn. intros Hpos.
  destruct (Hm pos _ Hpos) as [Hold|([= -> ->] & pre & npk & i & E1 & E2 & E3 & E4 & E5)].
  - destruct (Hok pos q t Hold) as (pre & npk & i & E1 & E2 & E3 & E4 & E5).
    exists pre, npk, i. split_and!; auto.
  - exists pre, npk, i. subst id. by split_and!.
Qed.

Lemma find_map_Some {A B} (f : A -> option B) l y :
  find_map f l = Some y -> exists x, x ∈ l /\ f x = Some y.
Proof.
  induction l as [|x l IH]; cbn; [done|]. destruct (f x) as [z|] eqn:Hx.
  - intros [= ->]. exists x. split; [left|done].
  - intros (x' & Hin & Hf)%IH. exists x'. split; [by right|done].
Qed.

Lemma resolve_ok es id pos caller seeds prev es' auth acc :
  bindings_ok es -> (forall p, caller = Some p -> call_wf p seeds) ->
  es_pre_states es !! pos = Some acc -> account_id acc = id ->
  resolve_authorization_and_record_bindings es id pos caller seeds prev = Ok (es', auth) ->
  bindings_ok es' /\ exists m f, es' = es_with_bindings m f es.
Proof.
  intros Hok Hwf Hacc Hid. unfold resolve_authorization_and_record_bindings.
  destruct (matched_caller_seed _ caller seeds id) as [[[s priv] q]|] eqn:Hm; intros Hr.
  2: { inv_ok. split; [done|]. exists (private_pda_bound_positions es'), (pda_family_binding es').
       by destruct es'. }
  unfold matched_caller_seed in Hm. destruct caller as [c|]; [|done]. cbn in Hm.
  destruct (find_map _ seeds) as [[s' priv']|] eqn:Hfind; [|done]. cbn in Hm. injection Hm as -> -> ->.
  apply find_map_Some in Hfind as (s0 & Hs0 & Hmatch).
  destruct (Hwf q eq_refl) as [Hq Hseeds]. rewrite Forall_forall in Hseeds. specialize (Hseeds s0 Hs0).
  unfold seed_matches in Hmatch. inv_ok. split; [|by eexists _, _].
  eapply bindings_ok_extend; [done..|]. intros k v Hk. case_decide as Hpub.
  - injection Hmatch as <- <-. inv_ok. auto.
  - destruct (private_pda_npk_by_position es !! pos) as [[npk i]|] eqn:Hnpk; [|done].
    case_decide as Hpriv; [|done]. injection Hmatch as <- <-.
    destruct (bind_private_pda_position_ok _ _ _ _ _ Hs1 k v Hk) as [|[-> ->]]; [by left|].
    right. split; [done|]. exists acc, npk, i. repeat split; try done.
    + destruct Hq. done.
    + by destruct Hq.
    + by repeat constructor.
Qed.

(** What synchronisation never touches. *)
Record same_frame (es es' : ExecutionState) : Prop := {
  sf_block : es_block_validity_window es' = es_block_validity_window es;
  sf_timestamp : es_timestamp_validity_window es' = es_timestamp_validity_window es;
  sf_npk : private_pda_npk_by_position es' = private_pda_npk_by_position es;
}.
Lemma same_frame_trans a b c : same_frame a b -> same_frame b c -> same_frame a c.
Proof. intros [? ? ?] [? ? ?]. split; congruence. Qed.

Lemma sync_pre_state_ok caller seeds es pre es' :
  bindings_ok es -> (forall p, caller = Some p -> call_wf p seeds) ->
  sync_pre_state caller seeds es pre = Ok es' ->
  bindings_ok es' /\ same_frame es es' /\ es_post_states es' = es_post_states es /\
  ((es_post_states es !! account_id pre = Some (account pre) /\ es_pre_states es' = es_pre_states es) \/
   (es_post_states es !! account_id pre = None /\ es_pre_states es' = es_pre_states es ++ [pre])).
Proof.
  intros Hok Hwf. unfold sync_pre_state.
  destruct (es_post_states es !! account_id pre) as [known|] eqn:Hknown; intros Hs.
  - inv_ok. destruct a0 as [pos acc]. cbv beta iota in Hs. inv_ok.
    destruct a as [es1 auth]. cbv beta iota in Hs. inv_ok.
    apply position_of_Some in Hs1 as [Hacc Hid].
    eapply resolve_ok in Hs2 as [Hok' (m & f & ->)]; [|done..].
    split; [done|]. split; [by split|]. split; [done|]. by left.
  - inv_ok. split; [|split; [by split|split; [done|by right]]].
    intros pos p s Hpos. destruct (Hok pos p s Hpos) as (pre' & npk & i & E1 & E2).
    exists pre', npk, i. split; [|exact E2]. by apply lookup_app_l_Some.
Qed.

Lemma check_claim_ok identities p es pre post c es' :
  bindings_ok es -> ProgramId_wf p -> claim_wf (mk_PostState (post_account post) (Some c)) ->
  check_claim identities p es pre post c = Ok es' ->
  bindings_ok es' /\ (exists m f, es' = es_with_bindings m f es) /\
  program_owner (post_account post) = DEFAULT_PROGRAM_ID.
Proof.
  intros Hok Hp Hc Hs. unfold check_claim in Hs. inv_ok.
  destruct a0 as [pos acc]. cbv beta iota in Hs. inv_ok.
  apply position_of_Some in Hs1 as [Hacc Hid].
  assert (Hsame : exists m f, es = es_with_bindings m f es)
    by (exists (private_pda_bound_positions es), (pda_family_binding es); by destruct es).
  destruct (is_public a); [|destruct (is_private_pda a)]; [destruct c as [|s]..|]; inv_ok; try done.
  - split; [|split; [by eexists _, _|done]]. eapply bindings_ok_extend; [done..|]. auto.
  - destruct a0 as [npk i]. cbv beta iota in Hs. inv_ok.
    split; [|split; [by eexists _, _|done]]. eapply bindings_ok_extend; [done..|]. intros k v Hk.
    destruct (bind_private_pda_position_ok _ _ _ _ _ Hs4 k v Hk) as [|[-> ->]]; [by left|].
    right. split; [done|]. exists acc, npk, i. split_and!; try done. split; [done|by constructor].
Qed.

Lemma claimed_step p pre post c a :
  pair_ok p pre post ->
  match c : option Claim with
  | Some _ => program_owner post = DEFAULT_PROGRAM_ID /\ a = set_program_owner p post
  | None => a = post
  end -> account_step p pre a.
Proof.
  intros [? ? ? ? ?]. destruct c; [intros [Hown ->]|intros ->];
    split; cbn [program_owner balance data nonce set_program_owner]; auto.
  right. split; [congruence|done].
Qed.

Lemma sync_one_ok ps identities p caller seeds k es pre post es' :
  p ∈ ps -> ProgramId_wf p -> (forall q, caller = Some q -> call_wf q seeds) ->
  claim_wf post -> Account_wf (post_account post) ->
  pair_ok p (account pre) (post_account post) -> es_inv ps k es ->
  sync_one identities p caller seeds es (pre, post) = Ok es' ->
  es_inv ps (k + balance (post_account post) - balance (account pre)) es' /\ same_frame es es'.
Proof.
  intros Hp Hpwf Hcaller Hcwf Hwf Hpair [Hnd Hdom Hbind Htot Hev Hawf] Hs.
  unfold sync_one in Hs. inv_ok. destruct a0 as [es2 acct]. cbv beta iota in Hs. inv_ok.
  destruct (sync_pre_state_ok _ _ _ _ _ Hbind Hcaller Hs0) as (Hb1 & Hf1 & Hpost1 & Hcase).
  assert (Hclaim : bindings_ok es2 /\ (exists m f, es2 = es_with_bindings m f a) /\
    Account_wf acct /\ balance acct = balance (post_account post) /\ account_step p (account pre) acct).
  { destruct (claim post) as [c|] eqn:Hcl; inv_ok.
    - apply check_claim_ok in Hs as (Hb2 & Hsame & Hown);
        [|done..|unfold claim_wf in *; by rewrite Hcl in Hcwf].
      split_and!; try done.
      + destruct Hwf as (? & ? & ? & ?). by split_and!.
      + by apply (claimed_step p _ (post_account post) (Some c)).
    - split_and!; try done.
      + exists (private_pda_bound_positions es2), (pda_family_binding es2). by destruct es2.
      + by apply (claimed_step p _ (post_account post) None). }
  destruct Hclaim as (Hb2 & (m & f & ->) & Hawf' & Hbal & Hstep).
  split; [|destruct Hf1; by split].
  assert (Hb3 : forall posts, bindings_ok (es_with_accounts (es_pre_states a) posts (es_with_bindings m f a)))
    by (intros posts; exact Hb2).
  cbn [es_with_accounts es_with_bindings es_pre_states es_post_states] in *.
  rewrite Hpost1. destruct Hcase as [[Hocc Hpres]|[Hvac Hpres]]; rewrite Hpres in *.
  - assert (Hin : account_id pre ∈ account_id <$> es_pre_states es) by (apply Hdom; by eexists).
    split; cbn [es_with_accounts es_with_bindings es_pre_states es_post_states]; try done.
    + intros id. rewrite lookup_insert_is_Some, <- Hdom. split.
      * intros [<-|[_ Hid]]; [by eexists|done].
      * destruct (decide (account_id pre = id)); auto.
    + rewrite total_balance_insert, Hocc, Htot, Hbal. cbn [default id]. lia.
    + intros pre' b Hpre'. destruct (decide (account_id pre = account_id pre')) as [Heq|Hne].
      * rewrite Heq, lookup_insert_eq. intros [= <-]. eapply evolved_step; [done| |done].
        apply Hev; [done|]. by rewrite <- Heq.
      * rewrite lookup_insert_ne by done. by apply Hev.
    + intros id b. destruct (decide (account_id pre = id)) as [<-|Hne].
      * rewrite lookup_insert_eq. by intros [= <-].
      * rewrite lookup_insert_ne by done. apply Hawf.
  - assert (Hout : account_id pre ∉ account_id <$> es_pre_states es).
    { rewrite <- Hdom, Hvac. by intros []. }
    split; cbn [es_with_accounts es_with_bindings es_pre_states es_post_states].
    + rewrite fmap_app. apply NoDup_app. split_and!; [done| |apply NoDup_singleton].
      intros id Hid Hid'. apply list_elem_of_singleton in Hid' as ->. done.
    + intros id. rewrite lookup_insert_is_Some, Hdom, fmap_app, elem_of_app.
      change (account_id <$> [pre]) with [account_id pre]. rewrite list_elem_of_singleton.
      destruct (decide (account_id pre = id)); naive_solver.
    + exact (Hb3 (<[account_id pre := acct]> (es_post_states es))).
    + rewrite total_balance_insert, Hvac, Htot, Hbal, fmap_app, sum_Z_app. cbn. lia.
    + intros pre' b [Hpre'|Hpre']%elem_of_app; [|apply list_elem_of_singleton in Hpre' as ->].
      * rewrite lookup_insert_ne; [by apply Hev|]. intros Heq. apply Hout. rewrite Heq.
        by apply list_elem_of_fmap_2.
      * rewrite lookup_insert_eq. intros [= <-]. eapply evolved_step; [done| |done]. apply evolved_refl.
    + intros id b. destruct (decide (account_id pre = id)) as [<-|Hne].
      * rewrite lookup_insert_eq. by intros [= <-].
      * rewrite lookup_insert_ne by done. apply Hawf.
Qed.
End SyncLemmas.

(** ** Lemmas: the loop over the program outputs *)
Section LoopLemmas.
Context `{Sha256, Serde ProgramOutput}.

Lemma validate_and_sync_ok ps identities p caller seeds pres posts k es es' :
  p ∈ ps -> ProgramId_wf p -> (forall q, caller = Some q -> call_wf q seeds) ->
  Forall claim_wf posts -> Forall PostState_wf posts ->
  Forall2 (fun a b => pair_ok p (account a) (post_account b)) pres posts -> es_inv ps k es ->
  validate_and_sync_states identities p caller seeds pres posts es = Ok es' ->
  es_inv ps (k + sum_Z (balance ∘ post_account <$> posts) - sum_Z (balance ∘ account <$> pres)) es' /\
  same_frame es es'.
Proof.
  intros Hp Hpwf Hcaller Hcl Hwf Hpairs. revert k es.
  induction Hpairs as [|pre post pres posts Hpair _ IH]; intros k es Hinv Hs.
  - unfold validate_and_sync_states in Hs. cbn in Hs. inv_ok. split; [|by split].
    cbn. by rewrite Z.add_0_r, Z.sub_0_r.
  - apply Forall_cons in Hcl as [Hcl1 Hcl]. apply Forall_cons in Hwf as [Hwf1 Hwf].
    unfold validate_and_sync_states in Hs. cbn [zip_with fold_o] in Hs.
    apply bind_ok in Hs as (es1 & H1 & H2).
    destruct (sync_one_ok ps identities p caller seeds k es pre post es1) as [Hinv1 Hf1]; try done.
    destruct (IH Hcl Hwf _ es1 Hinv1 H2) as [Hinv2 Hf2]. split; [|by eapply same_frame_trans].
    rewrite !fmap_cons, !sum_Z_cons. cbn. cbn in Hinv2.
    replace (k + (balance (post_account post) + _) - _) with
      (k + balance (post_account post) - balance (account pre) +
       sum_Z (balance ∘ post_account <$> posts) - sum_Z (balance ∘ account <$> pres)) by lia.
    done.
Qed.

Lemma es_inv_mono ps ps' k es : ps ⊆ ps' -> es_inv ps k es -> es_inv ps' k es.
Proof.
  intros Hsub [? ? ? ? Hev ?]. split; try done. intros pre a Hpre Ha.
  eapply evolved_mono; [done|]. by apply Hev.
Qed.

(** What the checks say about one program output. *)
Lemma check_program_output_ok call caller o :
  Output_wf o -> check_program_output call caller o = Ok () ->
  self_program_id o = cc_program_id call /\ caller_program_id o = caller /\
  instruction_data o = cc_instruction_data call /\
  well_behaved (cc_program_id call) (pre_states o) (post_states o).
Proof.
  intros [Wpre Wpost] Hc. unfold check_program_output in Hc. inv_ok. split_and!; try done.
  destruct (validate_execution _ _ _) as [[]| |] eqn:Hv; try done.
  eapply validate_execution_spec; [| |exact Hv].
  - eapply Forall_impl; [exact Wpre|]. cbn. by intros ? (_ & ? & _).
  - eapply Forall_impl; [exact Wpost|]. cbn. by intros ? (_ & ? & _).
Qed.

Definition queued_wf (q : ChainedCall * option ProgramId) : Prop :=
  call_wf (cc_program_id q.1) (cc_pda_seeds q.1) /\ (forall p, q.2 = Some p -> ProgramId_wf p).

Definition assumption_of (o : ProgramOutput) : Assumption := (self_program_id o, serde_to_vec o).

Lemma outputs_loop_ok identities counter calls outputs es assumptions es' assumptions' :
  Forall output_typed outputs -> Forall queued_wf calls ->
  es_inv assumptions.*1 0 es ->
  outputs_loop identities counter calls outputs es assumptions = Ok (es', assumptions') ->
  es_inv assumptions'.*1 0 es' /\ same_frame es es' /\
  assumptions' = assumptions ++ (assumption_of <$> outputs).
Proof.
  revert counter calls es assumptions.
  induction outputs as [|o outputs IH]; intros counter calls es assumptions Ht Hq Hinv Hl.
  - destruct calls as [|[call caller] calls]; cbn [outputs_loop] in Hl; inv_ok.
    rewrite app_nil_r. split; [done|]. by split.
  - destruct calls as [|[call caller] calls]; cbn [outputs_loop] in Hl; [by inv_ok|].
    apply Forall_cons in Ht as [(Hwf & Hclaims & Hcalls) Ht].
    apply Forall_cons in Hq as [[[Hp Hseeds] Hcaller] Hq]. inv_ok.
    destruct (check_program_output_ok call caller o Hwf Hs0) as (Hself & _ & _ & [_ Hpairs Htot _]).
    destruct Hwf as [_ Hposts].
    eapply (validate_and_sync_ok (assumptions.*1 ++ [cc_program_id call])) in Hs1 as [Hinv1 Hf1];
      [| |done| |done..|].
    + rewrite Htot in Hinv1. replace (0 + _ - _) with 0 in Hinv1 by lia.
      eapply IH in Hl as (Hinv2 & Hf2 & Hasm); [|done| |].
      * split; [done|]. split; [by eapply same_frame_trans|]. rewrite Hasm.
        unfold assumption_of. rewrite fmap_cons, Hself, <- app_assoc. done.
      * apply Forall_app. split; [|done]. apply Forall_fmap. eapply Forall_impl; [exact Hcalls|].
        intros c Hc. split; [done|]. cbn. by intros p [= <-].
      * rewrite fmap_app. exact Hinv1.
    + apply elem_of_app. right. by left.
    + intros q ->. split; [by apply Hcaller|done].
    + eapply es_inv_mono; [|exact Hinv]. set_solver.
Qed.
End LoopLemmas.

(** ** Lemmas: the result of [derive_from_outputs] *)
Section DeriveLemmas.
Context `{Sha256, Serde ProgramOutput}.

Lemma npk_by_position_lookup identities pos :
  npk_by_position identities !! pos = (i ← identities !! pos; npk_if_private_pda i).
Proof.
  unfold npk_by_position, enumerate.
  assert (Hgen : forall k (m : gmap nat (NullifierPublicKey * Identifier)) pos,
    (forall j, (k <= j)%nat -> m !! j = None) ->
    foldl (fun m (pi : nat * InputAccountIdentity) =>
        match npk_if_private_pda pi.2 with Some v => <[pi.1 := v]> m | None => m end) m
      (zip (seq k (length identities)) identities) !! pos =
    if decide (pos < k)%nat then m !! pos else (i ← identities !! (pos - k)%nat; npk_if_private_pda i)).
  { clear pos. induction identities as [|i identities IH]; intros k m pos Hm; cbn [length seq zip_with foldl].
    - case_decide; [done|]. rewrite lookup_nil. cbn. apply Hm. lia.
    - rewrite IH.
      + cbn [snd fst]. destruct (decide (pos = k)) as [->|Hne].
        * rewrite decide_True, decide_False, Nat.sub_diag by lia. cbn.
          destruct (npk_if_private_pda i); [by rewrite lookup_insert_eq|apply Hm; lia].
        * repeat case_decide; try lia.
          -- destruct (npk_if_private_pda i); [by rewrite lookup_insert_ne|done].
          -- replace (pos - k)%nat with (S (pos - S k)) by lia. done.
      + intros j Hj. cbn [snd fst]. destruct (npk_if_private_pda i); [|apply Hm; lia].
        rewrite lookup_insert_ne by lia. apply Hm. lia. }
  rewrite Hgen by (intros; apply lookup_empty). by rewrite decide_False, Nat.sub_0_r by lia.
Qed.

(** The minimum and maximum of an iterator. *)
Lemma iter_max_spec l v :
  (forall m, iter_max l = Some m -> m <= v) <-> Forall (fun x => x <= v) l.
Proof.
  unfold iter_max. assert (Hgen : forall acc,
    (forall m, foldl (fun m x => Some (match m with Some m => Z.max m x | None => x end)) acc l = Some m ->
       m <= v) <-> (forall m, acc = Some m -> m <= v) /\ Forall (fun x => x <= v) l).
  { induction l as [|x l IH]; intros acc; cbn [foldl]; [naive_solver|].
    rewrite IH, Forall_cons. destruct acc as [m|]; split.
    - intros [Hm Hl]. specialize (Hm _ eq_refl). split; [intros ? [= <-]; lia|split; [lia|done]].
    - intros [Hm [Hx Hl]]. specialize (Hm _ eq_refl). split; [intros ? [= <-]; lia|done].
    - intros [Hm Hl]. specialize (Hm _ eq_refl). done.
    - intros [Hm [Hx Hl]]. split; [by intros ? [= <-]|done]. }
  rewrite Hgen. naive_solver.
Qed.
Lemma iter_min_spec l v :
  (forall m, iter_min l = Some m -> v < m) <-> Forall (fun x => v < x) l.
Proof.
  unfold iter_min. assert (Hgen : forall acc,
    (forall m, foldl (fun m x => Some (match m with Some m => Z.min m x | None => x end)) acc l = Some m ->
       v < m) <-> (forall m, acc = Some m -> v < m) /\ Forall (fun x => v < x) l).
  { induction l as [|x l IH]; intros acc; cbn [foldl]; [naive_solver|].
    rewrite IH, Forall_cons. destruct acc as [m|]; split.
    - intros [Hm Hl]. specialize (Hm _ eq_refl). split; [intros ? [= <-]; lia|split; [lia|done]].
    - intros [Hm [Hx Hl]]. specialize (Hm _ eq_refl). split; [intros ? [= <-]; lia|done].
    - intros [Hm Hl]. specialize (Hm _ eq_refl). done.
    - intros [Hm [Hx Hl]]. split; [by intros ? [= <-]|done]. }
  rewrite Hgen. naive_solver.
Qed.

Lemma Forall_omap {A B} (f : A -> option B) (P : B -> Prop) l :
  Forall P (omap f l) <-> Forall (fun x => forall y, f x = Some y -> P y) l.
Proof.
  induction l as [|x l IH]; cbn; [done|]. rewrite Forall_cons, <- IH.
  change (list_omap A B f l) with (omap f l).
  destruct (f x) as [y|]; [rewrite Forall_cons|]; naive_solver.
Qed.

(** The window of the circuit is the intersection of those of the outputs. *)
Lemma intersect_windows_ok window outputs msg w v :
  intersect_windows window outputs msg = Ok w ->
  is_valid_for w v = true <-> Forall (fun o => is_valid_for (window o) v = true) outputs.
Proof.
  unfold intersect_windows. intros Hw. inv_ok.
  destruct (window_try_from _) as [w'| |] eqn:Ht; [|done..]. injection Hw as ->.
  apply window_try_from_ok in Ht as [-> _]. rewrite is_valid_for_iff. cbn [win_from win_to fst snd].
  rewrite iter_max_spec, iter_min_spec, !Forall_omap, <- Forall_and.
  apply Forall_iff. intros o. by rewrite is_valid_for_iff.
Qed.

Lemma iter_enumerate_ok {A} (f : nat * A -> guest ()) (l : list A) :
  iter_o f (enumerate l) = Ok () -> forall i x, l !! i = Some x -> f (i, x) = Ok ().
Proof.
  rewrite iter_o_ok, Forall_forall. intros Hall i x Hi. apply Hall.
  apply list_elem_of_lookup. exists i. unfold enumerate. apply lookup_zip_with_Some.
  exists i, x. split; [done|]. split; [|done]. apply lookup_seq.
  split; [done|]. by eapply lookup_lt_Some.
Qed.

Record derived (identities : list InputAccountIdentity) (outputs : list ProgramOutput)
    (es : ExecutionState) : Prop := {
  de_inv : es_inv (self_program_id <$> outputs) 0 es;
  de_npk : private_pda_npk_by_position es = npk_by_position identities;
  de_block v : is_valid_for (es_block_validity_window es) v = true <->
    Forall (fun o => is_valid_for (block_validity_window o) v = true) outputs;
  de_timestamp v : is_valid_for (es_timestamp_validity_window es) v = true <->
    Forall (fun o => is_valid_for (timestamp_validity_window o) v = true) outputs;
  de_bound pos i : identities !! pos = Some i -> is_private_pda i = true ->
    is_Some (private_pda_bound_positions es !! pos);
  de_claimed pre a : pre ∈ es_pre_states es -> es_post_states es !! account_id pre = Some a ->
    program_owner (account pre) = DEFAULT_PROGRAM_ID ->
    a = account pre \/ program_owner a <> DEFAULT_PROGRAM_ID;
}.

Lemma initial_es_inv identities bw tw : es_inv [] 0 (initial_execution_state identities bw tw).
Proof.
  split; cbn [initial_execution_state es_pre_states es_post_states].
  - constructor.
  - intros id. rewrite lookup_empty. split; [by intros []|intros Hid; by apply elem_of_nil in Hid].
  - intros pos p s Hpos. cbn [initial_execution_state private_pda_bound_positions] in Hpos.
    by rewrite lookup_empty in Hpos.
  - done.
  - intros pre a Hpre. by apply elem_of_nil in Hpre.
  - intros id a Ha. by rewrite lookup_empty in Ha.
Qed.

Lemma derive_from_outputs_ok identities p outputs es assumptions :
  Forall output_typed outputs -> ProgramId_wf p ->
  derive_from_outputs identities p outputs = Ok (es, assumptions) ->
  derived identities outputs es /\ assumptions = assumption_of <$> outputs.
Proof.
  intros Ht Hp Hd. unfold derive_from_outputs in Hd. inv_ok.
  destruct a2 as [es1 asm1]. cbv beta iota in Hd. inv_ok.
  pose proof (initial_es_inv identities a a0) as Hinit.
  eapply outputs_loop_ok in Hs2 as (Hinv & [Hbw Htw Hnpk] & ->); [|done| |exact Hinit].
  2: { constructor; [|constructor]. split; [|done]. split; [done|constructor]. }
  split; [|done]. split.
  - replace (self_program_id <$> outputs) with ([] ++ (assumption_of <$> outputs)).*1; [done|].
    cbn [app]. rewrite <- list_fmap_compose. done.
  - done.
  - intros v. rewrite Hbw. by eapply intersect_windows_ok.
  - intros v. rewrite Htw. by eapply intersect_windows_ok.
  - intros pos i Hi Hpda. eapply iter_enumerate_ok in Hs3; [|exact Hi].
    unfold check_pda_bound in Hs3. cbn [fst snd] in Hs3. rewrite Hpda in Hs3. by inv_ok.
  - intros pre a2 Hpre Ha Hdef. rewrite iter_o_ok, Forall_forall in Hs4. specialize (Hs4 pre Hpre).
    unfold check_default_claimed in Hs4. rewrite decide_True in Hs4 by done. rewrite Ha in Hs4.
    cbn [expect mbind outcome_bind] in Hs4. destruct (decide (account pre <> a2)) as [|Hne].
    + inv_ok. by right.
    + left. destruct (decide (a2 = account pre)); [done|]. by destruct Hne.
Qed.
End DeriveLemmas.

(** ** The private accounts of an output *)

(** One private account, with the secrets that open it: the key its id is
    derived from and, for an update, the spending key and membership proof. *)
Record PrivateRow := mk_Row {
  row_pre : AccountWithMetadata;
  row_post : Account;
  row_kind : PrivateAccountKind;
  row_ssk : SharedSecretKey;
  row_npk : NullifierPublicKey;
  row_spend : option (NullifierSecretKey * MembershipProof);
}.

Section Rows.
Context `{Sha256, ChaCha20}.
Context (family : gmap (ProgramId * PdaSeed) AccountId).

Definition row_commitment (r : PrivateRow) : Commitment :=
  Commitment_new (account_id (row_pre r)) (row_post r).
Definition row_nullifier (r : PrivateRow) : Nullifier * CommitmentSetDigest :=
  match row_spend r with
  | Some (nsk, proof) =>
      compute_update_nullifier_and_set_digest proof (account (row_pre r)) (account_id (row_pre r)) nsk
  | None => init_nullifier (account_id (row_pre r))
  end.

(** What the circuit checked about a private account. *)
Record opened (r : PrivateRow) : Prop := {
  op_id : account_id (row_pre r) = for_private_account (row_npk r) (row_kind r);
  op_kind : PrivateAccountKind_wf (row_kind r);
  op_spend : match row_spend r with
             | Some (nsk, proof) => row_npk r = npk_from_nsk nsk /\ is_authorized (row_pre r) = true /\
                                    Forall (fun n => length n = 32%nat) proof.2
             | None => account (row_pre r) = Account_default
             end;
  op_authorized : is_authorized (row_pre r) = true -> exists nsk, row_npk r = npk_from_nsk nsk;
  op_family : match row_kind r with
              | Pda p s _ => family !! (p, s) = Some (account_id (row_pre r))
              | Regular _ => True
              end;
}.

Definition emit_row (o : PrivacyPreservingCircuitOutput) (r : PrivateRow) (ct : Ciphertext) :
    PrivacyPreservingCircuitOutput :=
  mk_CircuitOutput (co_public_pre_states o) (co_public_post_states o) (co_ciphertexts o ++ [ct])
    (co_new_commitments o ++ [row_commitment r]) (co_new_nullifiers o ++ [row_nullifier r])
    (co_block_validity_window o) (co_timestamp_validity_window o).

(** [o'] is [o] with the private account [r] emitted at [index]. *)
Definition emitted (o : PrivacyPreservingCircuitOutput) (index : Z) (pre : AccountWithMetadata)
    (post : Account) (o' : PrivacyPreservingCircuitOutput) (index' : Z) (r : PrivateRow) (ct : Ciphertext) :
    Prop :=
  opened r /\ row_pre r = pre /\ (exists n, in_u 128 n /\ row_post r = set_nonce n post) /\
  encrypt (E := Empty_set) (row_post r) (row_kind r) (row_ssk r) (row_commitment r) index = Ok ct /\
  index' = index + 1 /\ o' = emit_row o r ct.

Lemma private_nonce_in (l : list byte) : in_u 128 (le_value (take 16 l)).
Proof.
  pose proof (le_value_range (take 16 l)) as Hr. unfold in_u. split; [lia|].
  eapply Z.lt_le_trans; [apply Hr|].
  apply Z.pow_le_mono_r; [lia|]. rewrite length_take. lia.
Qed.

Lemma emit_private_ok o index post pre kind ssk npk spend n o' index' :
  let r := mk_Row pre (set_nonce n post) kind ssk npk spend in
  opened r -> in_u 128 n ->
  emit_private_output o index post (account_id pre) kind ssk (row_nullifier r) n = Ok (o', index') ->
  exists ct, emitted o index pre post o' index' r ct.
Proof.
  intros r Hr Hn He. unfold emit_private_output in He. inv_ok.
  exists a. apply checked_add_Some in Hs0 as [_ ->]. split_and!; try done. by exists n.
Qed.

(** What the bindings guarantee to the arms of private PDAs. *)
Definition pda_position_ok (seeds : gmap nat (ProgramId * PdaSeed)) (pos : nat)
    (identity : InputAccountIdentity) (pre : AccountWithMetadata) : Prop :=
  forall p s npk i, seeds !! pos = Some (p, s) -> npk_if_private_pda identity = Some (npk, i) ->
    account_id pre = for_private_pda p s npk i /\ call_wf p [s] /\
    family !! (p, s) = Some (account_id pre).

Lemma output_one_ok seeds o index pos identity pre post o' index' :
  identity_wf identity -> pda_position_ok seeds pos identity pre ->
  output_one seeds o index pos identity pre post = Ok (o', index') ->
  (o' = emit_public_output o pre post /\ index' = index) \/
  (exists r ct, emitted o index pre post o' index' r ct).
Proof.
  intros Hid Hpda Ho. unfold output_one in Ho.
  destruct identity as [|ssk nsk i|ssk nsk proof i|npk ssk i|npk ssk i|ssk nsk proof i]; inv_ok;
    [by left|right..].
  - rewrite Hs in Ho. eexists (mk_Row pre _ (Regular i) ssk (npk_from_nsk nsk) None).
    eapply emit_private_ok; [|apply private_nonce_in|exact Ho]. split; cbn; eauto; by split.
  - rewrite Hs in Ho. eexists (mk_Row pre _ (Regular i) ssk (npk_from_nsk nsk) (Some (nsk, proof))).
    eapply emit_private_ok; [|apply private_nonce_in|exact Ho]. destruct Hid. split; cbn; eauto; by split.
  - rewrite Hs in Ho. eexists (mk_Row pre _ (Regular i) ssk npk None).
    eapply emit_private_ok; [|apply private_nonce_in|exact Ho]. split; cbn; eauto; [by split|].
    intros Ha. by rewrite Ha in Hs1.
  - unfold pda_kind in Hs1. apply bind_ok in Hs1 as ([p s] & Hseeds & [= <-]). apply expect_ok in Hseeds.
    destruct (Hpda p s npk i Hseeds eq_refl) as (Heq & [Hp Hseed] & Hfam).
    eexists (mk_Row pre _ (Pda p s i) ssk npk None).
    eapply emit_private_ok; [|apply private_nonce_in|exact Ho].
    split; cbn; try done; [|intros Ha; by rewrite Ha in Hs].
    split; [done|]. split; [done|]. by apply Forall_cons in Hseed as [? _].
  - unfold pda_kind in Hs0. apply bind_ok in Hs0 as ([p s] & Hseeds & [= <-]). apply expect_ok in Hseeds.
    destruct (Hpda p s (npk_from_nsk nsk) i Hseeds eq_refl) as (Heq & [Hp Hseed] & Hfam).
    eexists (mk_Row pre _ (Pda p s i) ssk (npk_from_nsk nsk) (Some (nsk, proof))).
    eapply emit_private_ok; [|apply private_nonce_in|exact Ho].
    destruct Hid. split; cbn; try done; [|eauto].
    split; [done|]. split; [done|]. by apply Forall_cons in Hseed as [? _].
Qed.

(** The accounts of a state, as an output shows them: some in clear, the
    others as rows, with the ciphertexts numbered from [index]. *)
Record disclosed (posts : gmap AccountId Account) (pres : list AccountWithMetadata) (index : Z)
    (pub : list (AccountWithMetadata * Account)) (rows : list PrivateRow) (cts : list Ciphertext) : Prop := {
  di_perm : pres ≡ₚ pub.*1 ++ (row_pre <$> rows);
  di_pub p : p ∈ pub -> posts !! account_id p.1 = Some p.2;
  di_row r : r ∈ rows -> opened r /\ exists a n, in_u 128 n /\
    posts !! account_id (row_pre r) = Some a /\ row_post r = set_nonce n a;
  di_length : length cts = length rows;
  di_ct j r : rows !! j = Some r -> exists ct, cts !! j = Some ct /\
    encrypt (E := Empty_set) (row_post r) (row_kind r) (row_ssk r) (row_commitment r) (index + Z.of_nat j) = Ok ct;
  di_total : total_balance posts = sum_Z (balance <$> pub.*2) + sum_Z (balance ∘ row_post <$> rows);
}.

Definition extend_output (o : PrivacyPreservingCircuitOutput) (pub : list (AccountWithMetadata * Account))
    (rows : list PrivateRow) (cts : list Ciphertext) : PrivacyPreservingCircuitOutput :=
  mk_CircuitOutput (co_public_pre_states o ++ pub.*1) (co_public_post_states o ++ pub.*2)
    (co_ciphertexts o ++ cts) (co_new_commitments o ++ (row_commitment <$> rows))
    (co_new_nullifiers o ++ (row_nullifier <$> rows)) (co_block_validity_window o)
    (co_timestamp_validity_window o).

Lemma disclosed_delete posts pre pres index pub rows cts :
  disclosed (delete (account_id pre) posts) pres index pub rows cts ->
  (forall p, p ∈ pub -> posts !! account_id p.1 = Some p.2) /\
  (forall r, r ∈ rows -> opened r /\ exists a n, in_u 128 n /\
    posts !! account_id (row_pre r) = Some a /\ row_post r = set_nonce n a).
Proof.
  intros [_ Hpub Hrow _ _ _]. split.
  - intros p Hp. specialize (Hpub p Hp). by apply lookup_delete_Some in Hpub as [_ ?].
  - intros r Hr. destruct (Hrow r Hr) as (Ho & a & n & Hn & Ha & Hpost). split; [done|].
    apply lookup_delete_Some in Ha as [_ ?]. eauto.
Qed.

Lemma total_balance_delete posts id a :
  posts !! id = Some a -> total_balance posts = balance a + total_balance (delete id posts).
Proof.
  intros Hid. rewrite <- (insert_delete_id posts id a Hid) at 1.
  rewrite total_balance_insert, lookup_delete_eq. cbn. lia.
Qed.

Lemma output_loop_ok seeds pos index identities pres posts o o' :
  length identities = length pres -> NoDup (account_id <$> pres) ->
  (forall id, is_Some (posts !! id) <-> id ∈ account_id <$> pres) -> Forall identity_wf identities ->
  (forall j identity pre, identities !! j = Some identity -> pres !! j = Some pre ->
     pda_position_ok seeds (pos + j) identity pre) ->
  output_loop seeds pos index identities pres posts o = Ok o' ->
  exists pub rows cts, o' = extend_output o pub rows cts /\ disclosed posts pres index pub rows cts.
Proof.
  revert pos index pres posts o. induction identities as [|identity identities IH];
    intros pos index [|pre pres] posts o Hlen Hnd Hdom Hwf Hpda Ho; try done; cbn [output_loop] in Ho.
  - inv_ok. exists [], [], []. split; [unfold extend_output; rewrite !app_nil_r; by destruct o'|].
    split; try done; try (intros ? Hx; by apply elem_of_nil in Hx). cbn.
    replace posts with (∅ : gmap AccountId Account); [done|]. symmetry. apply map_empty.
    intros id. apply eq_None_not_Some. rewrite Hdom. apply not_elem_of_nil.
  - inv_ok. destruct a0 as [o1 index1]. cbv beta iota in Ho.
    apply Forall_cons in Hwf as [Hwf1 Hwf]. rewrite fmap_cons, NoDup_cons in Hnd. destruct Hnd as [Hout Hnd].
    apply IH in Ho as (pub & rows & cts & -> & Hdis); [|by injection Hlen|done| |done|].
    + pose proof (disclosed_delete _ _ _ _ _ _ _ Hdis) as [Hpub Hrow].
      destruct Hdis as [Hperm _ _ Hlencts Hct Htot].
      apply output_one_ok in Hs0 as [[-> ->]|(r & ct & Hr & Hrpre & (n & Hn & Hpost) & Henc & -> & ->)];
        [| |done|].
      * exists ((pre, a) :: pub), rows, cts. split.
        { unfold extend_output, emit_public_output. cbn. by rewrite <- !app_assoc. }
        split; try done.
        -- cbn. by rewrite Hperm.
        -- intros p [->|Hp]%elem_of_cons; [done|by apply Hpub].
        -- rewrite (total_balance_delete _ _ _ Hs), Htot, !fmap_cons, sum_Z_cons. cbn [snd]. lia.
      * exists pub, (r :: rows), (ct :: cts). split.
        { unfold extend_output, emit_row. cbn. by rewrite <- !app_assoc. }
        split; try done.
        -- cbn. rewrite Hrpre, Hperm. by rewrite Permutation_middle.
        -- intros r' [->|Hr']%elem_of_cons; [|by apply Hrow]. split; [done|].
           exists a, n. rewrite Hrpre. done.
        -- cbn. by rewrite Hlencts.
        -- intros [|j] r' Hj; cbn in Hj |- *.
           ++ injection Hj as <-. exists ct. by rewrite Z.add_0_r.
           ++ destruct (Hct j r' Hj) as (ct' & Hct' & Henc'). exists ct'. split; [done|].
              rewrite <- Henc'. f_equal. lia.
        -- rewrite (total_balance_delete _ _ _ Hs), Htot, !fmap_cons, sum_Z_cons.
           cbn [compose]. rewrite Hpost. cbn [balance set_nonce]. lia.
      * specialize (Hpda 0%nat identity pre eq_refl eq_refl). by rewrite Nat.add_0_r in Hpda.
    + intros id. rewrite lookup_delete_is_Some, Hdom, fmap_cons, elem_of_cons.
      split; [naive_solver|]. intros Hid. split; [by intros <-|by right].
    + intros j i' pre' Hi Hp. specialize (Hpda (S j) i' pre' Hi Hp). by rewrite Nat.add_succ_r in Hpda.
Qed.
End Rows.

(** ** What a run of the circuit establishes *)
Section CircuitStatement.
Context `{Sha256, ChaCha20, Serde ProgramOutput}.

(** The meaning of the output [o] of the circuit on the program outputs
    [outputs]: [pub] are the public accounts it shows, [rows] the private ones it
    hides. *)
Record circuit_statement (outputs : list ProgramOutput) (o : PrivacyPreservingCircuitOutput)
    (pub : list (AccountWithMetadata * Account)) (rows : list PrivateRow) : Prop := {
  cst_public : co_public_pre_states o = pub.*1 /\ co_public_post_states o = pub.*2;
  cst_private : co_new_commitments o = row_commitment <$> rows /\
                co_new_nullifiers o = row_nullifier <$> rows;
  cst_ciphertexts : length (co_ciphertexts o) = length rows /\
    forall j r, rows !! j = Some r -> exists ct, co_ciphertexts o !! j = Some ct /\
      encrypt (E := Empty_set) (row_post r) (row_kind r) (row_ssk r) (row_commitment r) (Z.of_nat j) = Ok ct;
  cst_opened : exists family, Forall (opened family) rows;
  cst_distinct : NoDup (account_id <$> pub.*1 ++ (row_pre <$> rows));
  cst_total : sum_Z (balance ∘ account <$> pub.*1) + sum_Z (balance ∘ account ∘ row_pre <$> rows) =
              sum_Z (balance <$> pub.*2) + sum_Z (balance ∘ row_post <$> rows);
  cst_evolved_pub p : p ∈ pub ->
    Account_wf p.2 /\ evolved (self_program_id <$> outputs) (account p.1) p.2 /\
    (program_owner (account p.1) = DEFAULT_PROGRAM_ID ->
       p.2 = account p.1 \/ program_owner p.2 <> DEFAULT_PROGRAM_ID);
  cst_evolved_row r : r ∈ rows -> Account_wf (row_post r) /\ exists a n, row_post r = set_nonce n a /\
    evolved (self_program_id <$> outputs) (account (row_pre r)) a;
  cst_windows v :
    (is_valid_for (co_block_validity_window o) v = true <->
       Forall (fun po => is_valid_for (block_validity_window po) v = true) outputs) /\
    (is_valid_for (co_timestamp_validity_window o) v = true <->
       Forall (fun po => is_valid_for (timestamp_validity_window po) v = true) outputs);
}.

Lemma circuit_statement_ok i o assumptions :
  input_wf i -> privacy_circuit i = Ok (o, assumptions) ->
  assumptions = assumption_of <$> program_outputs i /\
  exists pub rows, circuit_statement (program_outputs i) o pub rows.
Proof.
  intros (Ht & Hp & Hids) Hc. unfold privacy_circuit in Hc. inv_ok.
  destruct a as [es asm]. cbv beta iota in Hc. inv_ok.
  apply derive_from_outputs_ok in Hs as [[[Hnd Hdom Hbind Htot Hev Hwf] Hnpk Hbw Htw _ Hcl] ->]; [|done..].
  split; [done|]. unfold compute_circuit_output in Hs0. inv_ok.
  apply (output_loop_ok (pda_family_binding es)) in Hs0 as (pub & rows & cts & -> & Hdis); [|done..|].
  - destruct Hdis as [Hperm Hpub Hrow Hlen Hct Htot']. exists pub, rows.
    unfold extend_output. split; cbn [co_public_pre_states co_public_post_states co_new_commitments
      co_new_nullifiers co_ciphertexts co_block_validity_window co_timestamp_validity_window]; try done.
    + exists (pda_family_binding es). apply Forall_forall. intros r Hr. by apply Hrow.
    + by rewrite <- Hperm.
    + rewrite <- Htot', Htot, Z.add_0_r. symmetry.
      rewrite (sum_Z_perm _ (balance ∘ account <$> (pub.*1 ++ (row_pre <$> rows)))) by (by rewrite Hperm).
      rewrite fmap_app, sum_Z_app. f_equal. by rewrite <- list_fmap_compose.
    + intros p Hin. pose proof (Hpub p Hin) as Hpo.
      assert (Hpre : p.1 ∈ es_pre_states es).
      { rewrite Hperm. apply elem_of_app. left. by apply list_elem_of_fmap_2. }
      split; [by eapply Hwf|]. split; [by apply Hev|]. intros Hdef. by apply Hcl.
    + intros r Hin. destruct (Hrow r Hin) as (_ & a & n & Hn & Ha & Hpost).
      assert (Hpre : row_pre r ∈ es_pre_states es).
      { rewrite Hperm. apply elem_of_app. right. by apply list_elem_of_fmap_2. }
      rewrite Hpost. split.
      * destruct (Hwf _ _ Ha) as (? & ? & ? & _). by split_and!.
      * exists a, n. split; [done|]. by apply Hev.
  - intros j identity pre Hi Hpre p s npk k Hseed Hid. cbn [Nat.add] in Hseed.
    destruct (Hbind j p s Hseed) as (pre' & npk' & k' & Hpre' & Hk & Heq & Hfam & Hwf').
    rewrite Hnpk, npk_by_position_lookup, Hi in Hk. cbn in Hk. rewrite Hid in Hk.
    injection Hk as <- <-. rewrite Hpre in Hpre'. injection Hpre' as <-. done.
Qed.
End CircuitStatement.
