(* ===== verification/NativePrograms.v ===== *)
(** The guest programs on native balances:
    [program_methods/guest/src/bin/{authenticated_transfer,vault,faucet,clock,pinata,pinata_token}.rs]
    with their core crates under [programs/].

    Each program is a module with its [Instruction] type, its helpers and
    [main].  A guest has no error values: it panics, or ends with or without
    having written an output ([option ProgramOutput]). *)

From S2P Require Import Prelude Bytes Crypto Account Ids Borsh ProgramCore Host MerkleTree State.

Open Scope Z_scope.

(** [<[_; n]>::try_from(pre_states).expect(msg)] *)
Definition array1 {A} (l : list A) (msg : string) : guest A :=
  match l with [a] => Ok a | _ => Panic msg end.
Definition array2 {A} (l : list A) (msg : string) : guest (A * A) :=
  match l with [a; b] => Ok (a, b) | _ => Panic msg end.
Definition array3 {A} (l : list A) (msg : string) : guest (A * A * A) :=
  match l with [a; b; c] => Ok (a, b, c) | _ => Panic msg end.

(** [unchanged_post_states] of vault.rs and faucet.rs *)
Definition unchanged_post_states (pre : list AccountWithMetadata) : list AccountPostState :=
  (fun p => PostState_new (account p)) <$> pre.

(** [Data::try_from(bytes).expect(msg)] *)
Definition data_expect (bs : list byte) (msg : string) : guest Data :=
  match Data_try_from bs with Ok d => Ok d | _ => Panic msg end.

(** What the guest environment hands to [main]. *)
Section GuestEnv.
Context {I : Type} `{Serde I}.
Record GuestEnv := mk_Env {
  env_self : ProgramId;
  env_caller : option ProgramId;
  env_pre_states : list AccountWithMetadata;
  env_instruction : InstructionData;
}.
Definition read_inputs (env : GuestEnv) : guest (ProgramInput I * InstructionData) :=
  read_nssa_inputs (env_self env) (env_caller env) (env_pre_states env) (env_instruction env).
End GuestEnv.

(** ** authenticated_transfer *)
Module AuthTransfer.
Inductive Instruction := Transfer (amount : Z) | Initialize.

Definition initialize_account (pre : AccountWithMetadata) : guest AccountPostState :=
  let account_to_claim := new_claimed (account pre) Authorized in
  assert_ (bool_decide (post_account account_to_claim = Account_default))
    "Account must be uninitialized" ;;
  Ok account_to_claim.

Definition transfer (sender recipient : AccountWithMetadata) (balance_to_move : Z) :
    guest (list AccountPostState) :=
  assert_ (is_authorized sender) "Sender must be authorized" ;;
  b ← expect (checked_sub (balance (account sender)) balance_to_move)
        "Sender has insufficient balance";
  let sender_post := PostState_new (set_balance b (account sender)) in
  b ← expect (checked_add 128 (balance (account recipient)) balance_to_move)
        "Recipient balance overflow";
  let recipient_post_account := set_balance b (account recipient) in
  let recipient_post :=
    if decide (program_owner recipient_post_account = DEFAULT_PROGRAM_ID)
    then new_claimed recipient_post_account Authorized
    else PostState_new recipient_post_account in
  Ok [sender_post; recipient_post].

Definition main `{Serde Instruction} (env : GuestEnv) : guest (option ProgramOutput) :=
  '(input, words) ← read_inputs env;
  post ← match in_instruction input with
         | Initialize =>
             pre ← array1 (in_pre_states input) "Initialize requires exactly 1 account";
             post ← initialize_account pre;
             Ok [post]
         | Transfer amount =>
             '(sender, recipient) ← array2 (in_pre_states input) "Transfer requires exactly 2 accounts";
             transfer sender recipient amount
         end;
  Ok (Some (ProgramOutput_new (in_self_program_id input) (in_caller_program_id input) words
              (in_pre_states input) post)).
End AuthTransfer.

(** ** vault *)
Module Vault.
Inductive Instruction :=
  | Transfer (recipient_id : AccountId) (amount : Z)
  | Claim (amount : Z).

Section Vault.
Context `{Sha256, Serde Instruction, Serde AuthTransfer.Instruction}.

Definition VAULT_SEED_DOMAIN_SEPARATOR : list byte := bstr "/LEZ/v0.3/VaultSeed/00000000000/".
Definition compute_vault_seed (owner_id : AccountId) : PdaSeed :=
  PdaSeed_new (hash_bytes (VAULT_SEED_DOMAIN_SEPARATOR ++ value owner_id)).
Definition compute_vault_account_id (vault_program_id : ProgramId) (owner_id : AccountId) : AccountId :=
  for_public_pda vault_program_id (compute_vault_seed owner_id).

Definition main (env : GuestEnv) : guest (option ProgramOutput) :=
  '(input, words) ← read_inputs env;
  let pre_states := in_pre_states input in
  let post_states := unchanged_post_states pre_states in
  calls ← match in_instruction input with
          | Transfer recipient_id amount =>
              '(sender, recipient_vault) ← array2 pre_states "Transfer requires exactly 3 accounts";
              let seed := compute_vault_seed recipient_id in
              Ok [with_pda_seeds
                    (ChainedCall_new (program_owner (account sender))
                       [sender; authorized recipient_vault] (AuthTransfer.Transfer amount)) [seed]]
          | Claim amount =>
              '(owner, owner_vault) ← array2 pre_states "Claim requires exactly 2 accounts";
              assert_ (is_authorized owner) "Owner must be authorized to claim from the vault" ;;
              let seed := compute_vault_seed (account_id owner) in
              Ok [with_pda_seeds
                    (ChainedCall_new (program_owner (account owner_vault))
                       [authorized owner_vault; owner] (AuthTransfer.Transfer amount)) [seed]]
          end;
  Ok (Some (with_chained_calls
        (ProgramOutput_new (in_self_program_id input) (in_caller_program_id input) words
           pre_states post_states) calls)).
End Vault.
End Vault.

(** ** faucet *)
Module Faucet.
Inductive Instruction := Transfer (vault_program_id : ProgramId) (recipient_id : AccountId) (amount : Z).

Definition main `{Sha256, Serde Instruction, Serde Vault.Instruction} (env : GuestEnv) :
    guest (option ProgramOutput) :=
  '(input, words) ← read_inputs env;
  let pre_states := in_pre_states input in
  let post_states := unchanged_post_states pre_states in
  calls ← match in_instruction input with
          | Transfer vault_program_id recipient_id amount =>
              '(faucet, recipient_vault) ← array2 pre_states "Transfer requires exactly 2 accounts";
              assert_ (bool_decide (account_id faucet =
                         compute_faucet_account_id (in_self_program_id input)))
                "First account must be faucet PDA" ;;
              Ok [with_pda_seeds
                    (ChainedCall_new vault_program_id [authorized faucet; recipient_vault]
                       (Vault.Transfer recipient_id amount)) [compute_faucet_seed]]
          end;
  Ok (Some (with_chained_calls
        (ProgramOutput_new (in_self_program_id input) (in_caller_program_id input) words
           pre_states post_states) calls)).
End Faucet.

(** ** clock *)
Module Clock.
Abbreviation Instruction := Timestamp.

Section Clock.
Context `{Borsh ClockAccountData, Serde Instruction}.

(** [ClockAccountData::from_bytes] *)
Definition clock_from_bytes (bs : list byte) : guest ClockAccountData :=
  expect (borsh_try_from_slice bs) "ClockAccountData deserialization should not fail".

(** [u64::is_multiple_of] *)
Definition is_multiple_of (n divisor : Z) : bool :=
  if decide (divisor = 0) then bool_decide (n = 0) else bool_decide (n mod divisor = 0).

Definition update_if_multiple (pre : AccountWithMetadata) (divisor current_block_id : Z)
    (updated_data : list byte) : guest (AccountWithMetadata * AccountPostState) :=
  if is_multiple_of current_block_id divisor then
    d ← data_expect updated_data "Clock account data should fit in account data";
    Ok (pre, PostState_new (set_data d (account pre)))
  else Ok (pre, PostState_new (account pre)).

Definition main (env : GuestEnv) : guest (option ProgramOutput) :=
  '(input, words) ← read_inputs env;
  let self := in_self_program_id input in
  '(pre_01, pre_10, pre_50) ← array3 (in_pre_states input) "Invalid number of input accounts";
  assert_ (bool_decide (account_id pre_01 = CLOCK_01_PROGRAM_ACCOUNT_ID) &&
           bool_decide (account_id pre_10 = CLOCK_10_PROGRAM_ACCOUNT_ID) &&
           bool_decide (account_id pre_50 = CLOCK_50_PROGRAM_ACCOUNT_ID))
    "Invalid input accounts" ;;
  assert_ (bool_decide (program_owner (account pre_01) = self) &&
           bool_decide (program_owner (account pre_10) = self) &&
           bool_decide (program_owner (account pre_50) = self))
    "Clock accounts must be owned by the clock program" ;;
  prev_data ← clock_from_bytes (data_bytes (data (account pre_01)));
  current_block_id ← expect (checked_add 64 (clock_block_id prev_data) 1)
                       "Next block id should be within u64 boundaries";
  let updated_data := borsh_to_vec (mk_ClockData current_block_id (in_instruction input)) in
  '(pre_01, post_01) ← update_if_multiple pre_01 1 current_block_id updated_data;
  '(pre_10, post_10) ← update_if_multiple pre_10 10 current_block_id updated_data;
  '(pre_50, post_50) ← update_if_multiple pre_50 50 current_block_id updated_data;
  Ok (Some (ProgramOutput_new self (in_caller_program_id input) words
              [pre_01; pre_10; pre_50] [post_01; post_10; post_50])).
End Clock.
End Clock.

(** ** pinata, pinata_token *)
Module Pinata.
Abbreviation Instruction := Z.
Definition PRIZE : Z := 150.
Record Challenge := mk_Challenge { difficulty : Z; seed : list byte }.

Section Challenge.
Context `{Sha256}.

(** [Challenge::new] *)
Definition Challenge_new (bytes : list byte) : guest Challenge :=
  assert_ (bool_decide (length bytes = 33%nat)) "assertion `left == right` failed" ;;
  let difficulty := byte_to_Z (hd Byte.x00 bytes) in
  assert_ (bool_decide (difficulty <= 32)) "assertion failed: difficulty <= 32" ;;
  Ok (mk_Challenge difficulty (tl bytes)).

(** [validate_solution]: the leftmost [difficulty] bytes of the digest are zero. *)
Definition validate_solution (c : Challenge) (solution : Z) : bool :=
  let digest := hash_bytes (seed c ++ le_bytes 16 solution) in
  forallb (fun b => bool_decide (b = Byte.x00)) (take (Z.to_nat (difficulty c)) digest).

(** [next_data] *)
Definition next_data (c : Challenge) : list byte :=
  byte_of_Z (difficulty c) :: hash_bytes (seed c).
End Challenge.

Definition main `{Sha256, Serde Instruction} (env : GuestEnv) : guest (option ProgramOutput) :=
  '(input, words) ← read_inputs env;
  let solution := in_instruction input in
  match in_pre_states input with
  | [pinata; winner] =>
      challenge ← Challenge_new (data_bytes (data (account pinata)));
      if negb (validate_solution challenge solution) then Ok None
      else
        b ← expect (checked_sub (balance (account pinata)) PRIZE) "Not enough balance in the pinata";
        d ← data_expect (next_data challenge) "33 bytes should fit into Data";
        let pinata_post := set_data d (set_balance b (account pinata)) in
        b ← expect (checked_add 128 (balance (account winner)) PRIZE)
              "Overflow when adding prize to winner";
        let winner_post := set_balance b (account winner) in
        Ok (Some (ProgramOutput_new (in_self_program_id input) (in_caller_program_id input) words
                    [pinata; winner]
                    [new_claimed_if_default pinata_post Authorized; PostState_new winner_post]))
  | _ => Ok None
  end.
End Pinata.

(** ** Lemmas *)
Lemma array2_ok {A} (l : list A) msg a b : array2 l msg = Ok (a, b) <-> l = [a; b].
Proof. destruct l as [|? [|? [|]]]; cbn; naive_solver. Qed.
Lemma array3_ok {A} (l : list A) msg a b c : array3 l msg = Ok (a, b, c) <-> l = [a; b; c].
Proof. destruct l as [|? [|? [|? [|]]]]; cbn; naive_solver. Qed.
Lemma data_expect_ok bs msg d : data_expect bs msg = Ok d <-> d = mk_Data bs /\ Data_wf d.
Proof.
  unfold data_expect. rewrite <- (Data_try_from_ok bs d).
  destruct (Data_try_from bs); naive_solver.
Qed.

Lemma unchanged_pairs executing (pre : list AccountWithMetadata) :
  Forall (fun p => program_owner (account p) = DEFAULT_PROGRAM_ID -> account p = Account_default) pre ->
  Forall2 (fun a b => pair_ok executing (account a) (post_account b)) pre (unchanged_post_states pre).
Proof.
  induction 1 as [|p pre Hp _ IH]; constructor; [|done]. split; cbn; auto. lia.
Qed.
