(* ===== verification/Approval.v ===== *)
(** Single-admin approval: [lez-approval/src/lib.rs]. *)

From S2P Require Import Prelude Bytes Account.

(** [Authority(Option<AccountId>)]: [None] is the renounced authority. *)
Record Authority := mk_Authority { admin : option AccountId }.
#[global] Instance Authority_eq_dec : EqDecision Authority.
Proof. solve_decision. Defined.

Inductive ApprovalError := Unauthorized | Renounced.
(** [#[derive(thiserror::Error)]]: the panic payload. *)
Definition display (e : ApprovalError) : string :=
  match e with
  | Unauthorized => "not authorized: signer does not match admin authority"
  | Renounced => "authority renounced: operation requires an active admin"
  end.

Definition Authority_new (a : AccountId) : Authority := mk_Authority (Some a).
Definition renounced : Authority := mk_Authority None.

Definition gate {E} (self : Authority) (signer : AccountWithMetadata) : outcome E () :=
  match admin self with
  | None => Panic (display Renounced)
  | Some admin =>
      assert_ (is_authorized signer && bool_decide (account_id signer = admin)) (display Unauthorized)
  end.
Definition authority_transfer {E} (self : Authority) (signer : AccountWithMetadata)
    (new_admin : AccountId) : outcome E Authority :=
  gate self signer ;; Ok (mk_Authority (Some new_admin)).
Definition authority_revoke {E} (self : Authority) (signer : AccountWithMetadata) : outcome E Authority :=
  gate self signer ;; Ok (mk_Authority None).

(** ** Lemmas *)

(** The gate opens exactly for the authorized active admin. *)
Lemma gate_ok {E} self signer :
  gate (E := E) self signer = Ok () <->
  is_authorized signer = true /\ admin self = Some (account_id signer).
Proof.
  unfold gate. destruct (admin self) as [a|]; [|naive_solver].
  rewrite assert_ok, andb_true_iff, bool_decide_eq_true. naive_solver.
Qed.
Lemma gate_renounced {E} signer : gate (E := E) renounced signer = Panic (display Renounced).
Proof. done. Qed.
Lemma authority_transfer_ok {E} self signer new self' :
  authority_transfer (E := E) self signer new = Ok self' <->
  (is_authorized signer = true /\ admin self = Some (account_id signer)) /\ self' = mk_Authority (Some new).
Proof.
  unfold authority_transfer. rewrite bind_ok, <- (gate_ok (E := E)).
  split; [intros ([] & ? & ?); inv_ok; auto|]. intros [? ->]. by exists ().
Qed.
Lemma authority_revoke_ok {E} self signer self' :
  authority_revoke (E := E) self signer = Ok self' <->
  (is_authorized signer = true /\ admin self = Some (account_id signer)) /\ self' = renounced.
Proof.
  unfold authority_revoke. rewrite bind_ok, <- (gate_ok (E := E)).
  split; [intros ([] & ? & ?); inv_ok; auto|]. intros [? ->]. by exists ().
Qed.
