(* ===== verification/Token.v ===== *)
(** The token program: [programs/token] and
    [program_methods/guest/src/bin/token.rs].

    Handlers are pure functions from the accounts of an instruction to the
    post states, with the panics of the source.  Account data is Borsh encoded;
    the derived codec is a parameter ([Borsh TokenDefinition] etc.). *)

From S2P Require Import Prelude Bytes Crypto Account Ids Borsh ProgramCore NativePrograms Approval.

Open Scope Z_scope.

(** ** programs/token/core: data *)
Inductive NewTokenDefinition :=
  | NewFungible (name : string) (total_supply : Z)
  | NewNonFungible (name : string) (printable_supply : Z).
Inductive MetadataStandard := Simple | Expanded.
Record NewTokenMetadata := mk_NewMetadata {
  new_standard : MetadataStandard; new_uri : string; new_creators : string }.
Record TokenMetadata := mk_Metadata {
  tm_definition_id : AccountId;
  tm_standard : MetadataStandard;
  tm_uri : string;
  tm_creators : string;
  tm_primary_sale_date : Z;
}.
Inductive TokenDefinition :=
  | DefFungible (name : string) (total_supply : Z) (metadata_id : option AccountId)
      (authority : Authority)
  | DefNonFungible (name : string) (printable_supply : Z) (metadata_id : AccountId).
Inductive TokenHolding :=
  | Fungible (definition_id : AccountId) (balance : Z)
  | NftMaster (definition_id : AccountId) (print_balance : Z)
  | NftPrintedCopy (definition_id : AccountId) (owned : bool).

Inductive Instruction :=
  | Transfer (amount_to_transfer : Z)
  | NewFungibleDefinition (name : string) (total_supply : Z)
  | NewFungibleDefinitionWithAuthority (name : string) (total_supply : Z)
      (mint_authority : option AccountId)
  | NewDefinitionWithMetadata (new_definition : NewTokenDefinition) (metadata : NewTokenMetadata)
  | InitializeAccount
  | Burn (amount_to_burn : Z)
  | Mint (amount_to_mint : Z)
  | MintWithAuthority (amount_to_mint : Z)
  | PrintNft
  | RotateAuthority (new_admin : AccountId)
  | RevokeAuthority.

#[global] Instance TokenDefinition_eq_dec : EqDecision TokenDefinition.
Proof. solve_decision. Defined.
#[global] Instance TokenHolding_eq_dec : EqDecision TokenHolding.
Proof. solve_decision. Defined.

(** ** [impl TokenHolding] *)
Definition zeroized_clone_from (other : TokenHolding) : TokenHolding :=
  match other with
  | Fungible d _ => Fungible d 0
  | NftMaster d _ => NftMaster d 0
  | NftPrintedCopy d _ => NftPrintedCopy d false
  end.
Definition zeroized_from_definition (definition_id : AccountId) (definition : TokenDefinition) :
    TokenHolding :=
  match definition with
  | DefFungible _ _ _ _ => Fungible definition_id 0
  | DefNonFungible _ _ _ => NftPrintedCopy definition_id false
  end.
Definition definition_id (h : TokenHolding) : AccountId :=
  match h with Fungible d _ | NftMaster d _ | NftPrintedCopy d _ => d end.

(** Values that fit the Rust types. *)
Definition holding_wf (h : TokenHolding) : Prop :=
  AccountId_wf (definition_id h) /\
  match h with Fungible _ b | NftMaster _ b => in_u 128 b | NftPrintedCopy _ _ => True end.
Definition definition_supply (d : TokenDefinition) : Z :=
  match d with DefFungible _ s _ _ | DefNonFungible _ s _ => s end.

Section Handlers.
Context `{Borsh TokenDefinition, Borsh TokenHolding, Borsh TokenMetadata}.

(** [TryFrom<&Data>] and [From<&_> for Data] *)
Definition definition_from (d : Data) (msg : string) : guest TokenDefinition :=
  expect (borsh_try_from_slice (data_bytes d)) msg.
Definition holding_from (d : Data) (msg : string) : guest TokenHolding :=
  expect (borsh_try_from_slice (data_bytes d)) msg.
Definition definition_data (d : TokenDefinition) : guest Data :=
  data_expect (borsh_to_vec d) "Token definition encoded data should fit into Data".
Definition holding_data (h : TokenHolding) : guest Data :=
  data_expect (borsh_to_vec h) "Token holding encoded data should fit into Data".
Definition metadata_data (m : TokenMetadata) : guest Data :=
  data_expect (borsh_to_vec m) "Token metadata encoded data should fit into Data".

(** ** transfer.rs *)
Definition move_holdings (sender recipient : TokenHolding) (balance_to_move : Z) :
    guest (TokenHolding * TokenHolding) :=
  match sender, recipient with
  | Fungible d sender_balance, Fungible d' recipient_balance =>
      s ← expect (checked_sub sender_balance balance_to_move) "Insufficient balance";
      r ← expect (checked_add 128 recipient_balance balance_to_move) "Recipient balance overflow";
      Ok (Fungible d s, Fungible d' r)
  | NftMaster d sender_print_balance, NftMaster d' recipient_print_balance =>
      assert_ (bool_decide (recipient_print_balance = 0))
        "Invalid balance in recipient account for NFT transfer" ;;
      assert_ (bool_decide (sender_print_balance = balance_to_move))
        "Invalid balance for NFT Master transfer" ;;
      Ok (NftMaster d recipient_print_balance, NftMaster d' sender_print_balance)
  | NftPrintedCopy d sender_owned, NftPrintedCopy d' recipient_owned =>
      assert_ (bool_decide (balance_to_move = 1)) "Invalid balance for NFT Printed Copy transfer" ;;
      assert_ sender_owned "Sender does not own the NFT Printed Copy" ;;
      assert_ (negb recipient_owned) "Recipient already owns the NFT Printed Copy" ;;
      Ok (NftPrintedCopy d false, NftPrintedCopy d' true)
  | _, _ => Panic "Mismatched token holding types for transfer"
  end.
Definition transfer (sender recipient : AccountWithMetadata) (balance_to_move : Z) :
    guest (list AccountPostState) :=
  assert_ (is_authorized sender) "Sender authorization is missing" ;;
  sender_holding ← holding_from (data (account sender)) "Invalid sender data";
  recipient_holding ←
    (if decide (account recipient = Account_default) then Ok (zeroized_clone_from sender_holding)
     else holding_from (data (account recipient)) "Invalid recipient data");
  assert_ (bool_decide (definition_id sender_holding = definition_id recipient_holding))
    "Sender and recipient definition id mismatch" ;;
  '(sender_holding, recipient_holding) ← move_holdings sender_holding recipient_holding balance_to_move;
  sd ← holding_data sender_holding;
  rd ← holding_data recipient_holding;
  Ok [PostState_new (set_data sd (account sender));
      new_claimed_if_default (set_data rd (account recipient)) Authorized].

(** ** burn.rs *)
Definition burn_amount (definition : TokenDefinition) (holding : TokenHolding) (amount_to_burn : Z) :
    guest (TokenDefinition * TokenHolding) :=
  match definition, holding with
  | DefFungible name total_supply metadata_id authority, Fungible d balance =>
      b ← expect (checked_sub balance amount_to_burn) "Insufficient balance to burn";
      s ← expect (checked_sub total_supply amount_to_burn) "Total supply underflow";
      Ok (DefFungible name s metadata_id authority, Fungible d b)
  | DefNonFungible name printable_supply metadata_id, NftMaster d print_balance =>
      s ← expect (checked_sub printable_supply amount_to_burn) "Printable supply underflow";
      b ← expect (checked_sub print_balance amount_to_burn) "Insufficient balance to burn";
      Ok (DefNonFungible name s metadata_id, NftMaster d b)
  | DefNonFungible name printable_supply metadata_id, NftPrintedCopy d owned =>
      assert_ (bool_decide (amount_to_burn = 1)) "Invalid balance to burn for NFT Printed Copy" ;;
      assert_ owned "Cannot burn unowned NFT Printed Copy" ;;
      s ← expect (checked_sub printable_supply 1) "Printable supply underflow";
      Ok (DefNonFungible name s metadata_id, NftPrintedCopy d false)
  | _, _ => Panic "Mismatched Token Definition and Token Holding types"
  end.
Definition burn (definition_account user_holding_account : AccountWithMetadata) (amount_to_burn : Z) :
    guest (list AccountPostState) :=
  assert_ (is_authorized user_holding_account) "Authorization is missing" ;;
  definition ← definition_from (data (account definition_account))
                 "Token Definition account must be valid";
  holding ← holding_from (data (account user_holding_account)) "Token Holding account must be valid";
  assert_ (bool_decide (account_id definition_account = definition_id holding))
    "Mismatch Token Definition and Token Holding" ;;
  '(definition, holding) ← burn_amount definition holding amount_to_burn;
  dd ← definition_data definition;
  hd ← holding_data holding;
  Ok [PostState_new (set_data dd (account definition_account));
      PostState_new (set_data hd (account user_holding_account))].

(** ** mint.rs *)
Definition add_minted (definition : TokenDefinition) (holding : TokenHolding) (amount_to_mint : Z)
    (mismatch : TokenHolding -> string) : guest (TokenDefinition * TokenHolding) :=
  match definition, holding with
  | DefFungible name total_supply metadata_id authority, Fungible d balance =>
      b ← expect (checked_add 128 balance amount_to_mint) "Balance overflow on minting";
      s ← expect (checked_add 128 total_supply amount_to_mint) "Total supply overflow";
      Ok (DefFungible name s metadata_id authority, Fungible d b)
  | _, _ => Panic (mismatch holding)
  end.
Definition mint_holding (definition_account user_holding_account : AccountWithMetadata)
    (definition : TokenDefinition) : guest TokenHolding :=
  holding ←
    (if decide (account user_holding_account = Account_default)
     then Ok (zeroized_from_definition (account_id definition_account) definition)
     else holding_from (data (account user_holding_account)) "Token Holding account must be valid");
  assert_ (bool_decide (account_id definition_account = definition_id holding))
    "Mismatch Token Definition and Token Holding" ;;
  Ok holding.
(** The panic of the two last arms of [mint]. *)
Definition mint_mismatch (definition : TokenDefinition) (holding : TokenHolding) : string :=
  match definition, holding with
  | DefNonFungible _ _ _, (NftMaster _ _ | NftPrintedCopy _ _) =>
      "Cannot mint additional supply for Non-Fungible Tokens"
  | _, _ => "Mismatched Token Definition and Token Holding types"
  end.
Definition mint (definition_account user_holding_account : AccountWithMetadata) (amount_to_mint : Z) :
    guest (list AccountPostState) :=
  assert_ (is_authorized definition_account) "Definition authorization is missing" ;;
  definition ← definition_from (data (account definition_account))
                 "Token Definition account must be valid";
  holding ← mint_holding definition_account user_holding_account definition;
  '(definition, holding) ← add_minted definition holding amount_to_mint (mint_mismatch definition);
  dd ← definition_data definition;
  hd ← holding_data holding;
  Ok [PostState_new (set_data dd (account definition_account));
      new_claimed_if_default (set_data hd (account user_holding_account)) Authorized].

Definition fungible_authority (definition : TokenDefinition) (msg : string) : guest Authority :=
  match definition with
  | DefFungible _ _ _ authority => Ok authority
  | DefNonFungible _ _ _ => Panic msg
  end.
Definition mint_with_authority
    (definition_account user_holding_account authority_account : AccountWithMetadata)
    (amount_to_mint : Z) : guest (list AccountPostState) :=
  definition ← definition_from (data (account definition_account))
                 "Token Definition account must be valid";
  authority ← fungible_authority definition "mint_with_authority is only supported for fungible tokens";
  gate authority authority_account ;;
  holding ← mint_holding definition_account user_holding_account definition;
  '(definition, holding) ← add_minted definition holding amount_to_mint
      (fun _ => "Mismatched Token Definition and Token Holding types"%string);
  dd ← definition_data definition;
  hd ← holding_data holding;
  Ok [PostState_new (set_data dd (account definition_account));
      new_claimed_if_default (set_data hd (account user_holding_account)) Authorized;
      new_claimed_if_default (account authority_account) Authorized].

(** ** rotate.rs *)
Definition with_authority (definition : TokenDefinition) (a : Authority) : TokenDefinition :=
  match definition with
  | DefFungible name s m _ => DefFungible name s m a
  | d => d
  end.
Definition rotate_authority (definition_account authority_account : AccountWithMetadata)
    (new_admin : AccountId) : guest (list AccountPostState) :=
  definition ← definition_from (data (account definition_account))
                 "Token Definition account must be valid";
  authority ← fungible_authority definition "rotate_authority is only supported for fungible tokens";
  authority ← authority_transfer authority authority_account new_admin;
  dd ← definition_data (with_authority definition authority);
  Ok [PostState_new (set_data dd (account definition_account));
      new_claimed_if_default (account authority_account) Authorized].
Definition revoke_authority (definition_account authority_account : AccountWithMetadata) :
    guest (list AccountPostState) :=
  definition ← definition_from (data (account definition_account))
                 "Token Definition account must be valid";
  authority ← fungible_authority definition "revoke_authority is only supported for fungible tokens";
  authority ← authority_revoke authority authority_account;
  dd ← definition_data (with_authority definition authority);
  Ok [PostState_new (set_data dd (account definition_account));
      new_claimed_if_default (account authority_account) Authorized].

(** ** initialize.rs *)
Definition initialize_account (definition_account account_to_initialize : AccountWithMetadata) :
    guest (list AccountPostState) :=
  assert_ (bool_decide (account account_to_initialize = Account_default))
    "Only Uninitialized accounts can be initialized" ;;
  definition ← definition_from (data (account definition_account)) "Definition account must be valid";
  let holding := zeroized_from_definition (account_id definition_account) definition in
  hd ← holding_data holding;
  Ok [PostState_new (account definition_account);
      new_claimed (set_data hd (account account_to_initialize)) Authorized].

(** ** new_definition.rs *)
Definition assert_default (a : AccountWithMetadata) (msg : string) : guest () :=
  assert_ (bool_decide (account a = Account_default)) msg.
Definition new_definition_posts (definition_target holding_target : AccountWithMetadata)
    (definition : TokenDefinition) (holding : TokenHolding) : guest (list AccountPostState) :=
  dd ← definition_data definition;
  hd ← holding_data holding;
  Ok [new_claimed (set_data dd (account definition_target)) Authorized;
      new_claimed (set_data hd (account holding_target)) Authorized].
Definition new_fungible_definition_with_authority
    (definition_target holding_target : AccountWithMetadata) (name : string) (total_supply : Z)
    (mint_authority : option AccountId) : guest (list AccountPostState) :=
  let authority := match mint_authority with Some a => Authority_new a | None => renounced end in
  assert_default definition_target "Definition target account must have default values" ;;
  assert_default holding_target "Holding target account must have default values" ;;
  new_definition_posts definition_target holding_target
    (DefFungible name total_supply None authority)
    (Fungible (account_id definition_target) total_supply).
Definition new_fungible_definition (definition_target holding_target : AccountWithMetadata)
    (name : string) (total_supply : Z) : guest (list AccountPostState) :=
  assert_default definition_target "Definition target account must have default values" ;;
  assert_default holding_target "Holding target account must have default values" ;;
  new_definition_posts definition_target holding_target
    (DefFungible name total_supply None renounced)
    (Fungible (account_id definition_target) total_supply).
Definition new_definition_with_metadata
    (definition_target holding_target metadata_target : AccountWithMetadata)
    (new_definition : NewTokenDefinition) (metadata : NewTokenMetadata) :
    guest (list AccountPostState) :=
  assert_default definition_target "Definition target account must have default values" ;;
  assert_default holding_target "Holding target account must have default values" ;;
  assert_default metadata_target "Metadata target account must have default values" ;;
  let '(token_definition, token_holding) :=
    match new_definition with
    | NewFungible name total_supply =>
        (DefFungible name total_supply (Some (account_id metadata_target)) renounced,
         Fungible (account_id definition_target) total_supply)
    | NewNonFungible name printable_supply =>
        (DefNonFungible name printable_supply (account_id metadata_target),
         NftMaster (account_id definition_target) printable_supply)
    end in
  let token_metadata := mk_Metadata (account_id definition_target) (new_standard metadata)
                          (new_uri metadata) (new_creators metadata) 0 in
  posts ← new_definition_posts definition_target holding_target token_definition token_holding;
  md ← metadata_data token_metadata;
  Ok (posts ++ [new_claimed (set_data md (account metadata_target)) Authorized]).

(** ** print_nft.rs *)
Definition print_nft (master_account printed_account : AccountWithMetadata) :
    guest (list AccountPostState) :=
  assert_ (is_authorized master_account) "Master NFT Account must be authorized" ;;
  assert_default printed_account "Printed Account must be uninitialized" ;;
  master ← holding_from (data (account master_account)) "Invalid Token Holding data";
  match master with
  | NftMaster d print_balance =>
      assert_ (bool_decide (print_balance > 1)) "Insufficient balance to print another NFT copy" ;;
      b ← expect (checked_sub print_balance 1) "Checked above";
      md ← holding_data (NftMaster d b);
      pd ← holding_data (NftPrintedCopy d true);
      Ok [PostState_new (set_data md (account master_account));
          new_claimed (set_data pd (account printed_account)) Authorized]
  | _ => Panic "Invalid Token Holding provided as NFT Master Account"
  end.

(** ** guest/src/bin/token.rs *)
Definition handle (instruction : Instruction) (pre_states : list AccountWithMetadata) :
    guest (list AccountPostState) :=
  match instruction with
  | Transfer amount =>
      '(sender, recipient) ← array2 pre_states "Transfer instruction requires exactly two accounts";
      transfer sender recipient amount
  | NewFungibleDefinition name total_supply =>
      '(d, h) ← array2 pre_states "NewFungibleDefinition instruction requires exactly two accounts";
      new_fungible_definition d h name total_supply
  | NewFungibleDefinitionWithAuthority name total_supply mint_authority =>
      '(d, h) ← array2 pre_states
        "NewFungibleDefinitionWithAuthority instruction requires exactly two accounts";
      new_fungible_definition_with_authority d h name total_supply mint_authority
  | NewDefinitionWithMetadata new_definition metadata =>
      '(d, h, m) ← array3 pre_states
        "NewDefinitionWithMetadata instruction requires exactly three accounts";
      new_definition_with_metadata d h m new_definition metadata
  | InitializeAccount =>
      '(d, a) ← array2 pre_states "InitializeAccount instruction requires exactly two accounts";
      initialize_account d a
  | Burn amount =>
      '(d, h) ← array2 pre_states "Burn instruction requires exactly two accounts";
      burn d h amount
  | Mint amount =>
      '(d, h) ← array2 pre_states "Mint instruction requires exactly two accounts";
      mint d h amount
  | MintWithAuthority amount =>
      '(d, h, a) ← array3 pre_states "MintWithAuthority instruction requires exactly three accounts";
      mint_with_authority d h a amount
  | PrintNft =>
      '(m, p) ← array2 pre_states "PrintNft instruction requires exactly two accounts";
      print_nft m p
  | RotateAuthority new_admin =>
      '(d, a) ← array2 pre_states "RotateAuthority instruction requires exactly two accounts";
      rotate_authority d a new_admin
  | RevokeAuthority =>
      '(d, a) ← array2 pre_states "RevokeAuthority instruction requires exactly two accounts";
      revoke_authority d a
  end.
Definition main `{Serde Instruction} (env : GuestEnv) : guest (option ProgramOutput) :=
  '(input, words) ← read_inputs env;
  post_states ← handle (in_instruction input) (in_pre_states input);
  Ok (Some (ProgramOutput_new (in_self_program_id input) (in_caller_program_id input) words
              (in_pre_states input) post_states)).
End Handlers.
