(* ===== verification/Amm.v ===== *)
(** The automated market maker: [programs/amm] and
    [program_methods/guest/src/bin/amm.rs].

    A pool holds two vaults of tokens and a liquidity token; an instruction
    updates the pool definition and asks the token program, through chained
    calls, to move the tokens.  The plain operators [+], [-], [*] of the source
    are the [plain_*] operators of the prelude: they wrap in the release profile
    the guests are built with, and panic with overflow checks. *)

From S2P Require Import Prelude Bytes Crypto Account Ids Borsh ProgramCore NativePrograms Approval Token.

Open Scope Z_scope.

(** ** programs/amm/core *)
Inductive Instruction :=
  | NewDefinition (token_a_amount token_b_amount : Z) (amm_program_id : ProgramId)
  | AddLiquidity (min_amount_liquidity max_amount_to_add_token_a max_amount_to_add_token_b : Z)
  | RemoveLiquidity (remove_liquidity_amount min_amount_to_remove_token_a min_amount_to_remove_token_b : Z)
  | SwapExactInput (swap_amount_in min_amount_out : Z) (token_definition_id_in : AccountId)
  | SwapExactOutput (exact_amount_out max_amount_in : Z) (token_definition_id_in : AccountId).

Record PoolDefinition := mk_Pool {
  definition_token_a_id : AccountId;
  definition_token_b_id : AccountId;
  vault_a_id : AccountId;
  vault_b_id : AccountId;
  liquidity_pool_id : AccountId;
  liquidity_pool_supply : Z;
  reserve_a : Z;
  reserve_b : Z;
  fees : Z;
  active : bool;
}.
#[global] Instance PoolDefinition_eq_dec : EqDecision PoolDefinition.
Proof. solve_decision. Defined.
Definition AccountId_default : AccountId := AccountId_new (zeros 32).
(** [#[derive(Default)]] *)
Definition PoolDefinition_default : PoolDefinition :=
  mk_Pool AccountId_default AccountId_default AccountId_default AccountId_default AccountId_default 0 0 0 0 false.
(** [PoolDefinition { liquidity_pool_supply, reserve_a, reserve_b, active, ..pool }] *)
Definition pool_with (supply a b : Z) (act : bool) (p : PoolDefinition) : PoolDefinition :=
  mk_Pool (definition_token_a_id p) (definition_token_b_id p) (vault_a_id p) (vault_b_id p)
    (liquidity_pool_id p) supply a b (fees p) act.

(** [<[u8; 32] as Ord>::cmp] *)
Fixpoint cmp_bytes (a b : list byte) : comparison :=
  match a, b with
  | [], [] => Eq
  | [], _ :: _ => Lt
  | _ :: _, [] => Gt
  | x :: a, y :: b =>
      match byte_to_Z x ?= byte_to_Z y with Eq => cmp_bytes a b | c => c end
  end.

Section Seeds.
Context `{Sha256}.
Definition compute_pool_pda_seed (a b : AccountId) : guest PdaSeed :=
  match cmp_bytes (value a) (value b) with
  | Lt => Ok (PdaSeed_new (hash_bytes (value b ++ value a)))
  | Gt => Ok (PdaSeed_new (hash_bytes (value a ++ value b)))
  | Eq => Panic "Definitions match"
  end.
Definition compute_pool_pda (amm_program_id : ProgramId) (a b : AccountId) : guest AccountId :=
  seed ← compute_pool_pda_seed a b;
  Ok (for_public_pda amm_program_id seed).
Definition compute_vault_pda_seed (pool_id token_id : AccountId) : PdaSeed :=
  PdaSeed_new (hash_bytes (value pool_id ++ value token_id)).
Definition compute_vault_pda (amm_program_id : ProgramId) (pool_id token_id : AccountId) : AccountId :=
  for_public_pda amm_program_id (compute_vault_pda_seed pool_id token_id).
Definition compute_liquidity_token_pda_seed (pool_id : AccountId) : PdaSeed :=
  PdaSeed_new (hash_bytes (value pool_id ++ zeros 32)).
Definition compute_liquidity_token_pda (amm_program_id : ProgramId) (pool_id : AccountId) : AccountId :=
  for_public_pda amm_program_id (compute_liquidity_token_pda_seed pool_id).
End Seeds.

Abbreviation Effects := (list AccountPostState * list ChainedCall)%type.

Section Handlers.
Context `{Sha256, OverflowChecks, Borsh PoolDefinition, Borsh TokenHolding, Serde Token.Instruction}.

(** [TryFrom<&Data>] and [From<&PoolDefinition> for Data] *)
Definition pool_from (d : Data) (msg : string) : guest PoolDefinition :=
  expect (borsh_try_from_slice (data_bytes d)) msg.
Definition pool_data (p : PoolDefinition) : guest Data :=
  data_expect (borsh_to_vec p) "Token definition encoded data should fit into Data".

(** [let TokenHolding::Fungible { balance, .. } = TokenHolding::try_from(..)] *)
Definition fungible_balance (a : AccountWithMetadata) (prefix what : string) : guest Z :=
  h ← holding_from (data (account a)) (prefix +:+ "Token Holding Account for " +:+ what);
  match h with
  | Fungible _ b => Ok b
  | _ => Panic (prefix +:+ "Fungible Token Holding Account for " +:+ what)
  end.

(** A chained call to the token program. *)
Definition token_call (token_program : ProgramId) (pres : list AccountWithMetadata)
    (i : Token.Instruction) (seeds : list PdaSeed) : ChainedCall :=
  with_pda_seeds (ChainedCall_new token_program pres i) seeds.

(** ** new_definition.rs *)
Definition new_definition (pool vault_a vault_b pool_definition_lp user_holding_a user_holding_b
    user_holding_lp : AccountWithMetadata) (token_a_amount token_b_amount : Z)
    (amm_program_id : ProgramId) : guest Effects :=
  holding_a ← holding_from (data (account user_holding_a))
    "New definition: AMM Program expects valid Token Holding account for Token A";
  holding_b ← holding_from (data (account user_holding_b))
    "New definition: AMM Program expects valid Token Holding account for Token B";
  let token_a_id := definition_id holding_a in
  let token_b_id := definition_id holding_b in
  let token_program := program_owner (account user_holding_a) in
  assert_ (bool_decide (program_owner (account user_holding_b) = token_program))
    "User Token holdings must use the same Token Program" ;;
  assert_ (bool_decide (token_a_id <> token_b_id)) "Cannot set up a swap for a token with itself" ;;
  pool_pda ← compute_pool_pda amm_program_id token_a_id token_b_id;
  assert_ (bool_decide (account_id pool = pool_pda)) "Pool Definition Account ID does not match PDA" ;;
  assert_ (bool_decide (account_id vault_a = compute_vault_pda amm_program_id (account_id pool) token_a_id))
    "Vault ID does not match PDA" ;;
  assert_ (bool_decide (account_id vault_b = compute_vault_pda amm_program_id (account_id pool) token_b_id))
    "Vault ID does not match PDA" ;;
  assert_ (bool_decide (account_id pool_definition_lp =
                        compute_liquidity_token_pda amm_program_id (account_id pool)))
    "Liquidity pool Token Definition Account ID does not match PDA" ;;
  pool_account_data ←
    (if decide (account pool = Account_default) then Ok PoolDefinition_default
     else pool_from (data (account pool)) "AMM program expects a valid Pool account");
  assert_ (negb (active pool_account_data)) "Cannot initialize an active Pool Definition" ;;
  product ← plain_mul 128 token_a_amount token_b_amount;
  let initial_lp := Z.sqrt product in
  let instruction :=
    if decide (account pool = Account_default) then Token.NewFungibleDefinition "LP Token" initial_lp
    else Token.Mint initial_lp in
  d ← pool_data (mk_Pool token_a_id token_b_id (account_id vault_a) (account_id vault_b)
        (account_id pool_definition_lp) initial_lp token_a_amount token_b_amount 0 true);
  pool_pda_seed ← compute_pool_pda_seed token_a_id token_b_id;
  let pool_post := new_claimed_if_default (set_data d (account pool)) (ClaimPda pool_pda_seed) in
  let call_token_a := token_call token_program [user_holding_a; authorized vault_a]
    (Token.Transfer token_a_amount) [compute_vault_pda_seed (account_id pool) token_a_id] in
  let call_token_b := token_call token_program [user_holding_b; authorized vault_b]
    (Token.Transfer token_b_amount) [compute_vault_pda_seed (account_id pool) token_b_id] in
  let call_token_lp := token_call token_program [authorized pool_definition_lp; user_holding_lp]
    instruction [compute_liquidity_token_pda_seed (account_id pool)] in
  Ok (pool_post :: ((fun a => PostState_new (account a)) <$>
        [vault_a; vault_b; pool_definition_lp; user_holding_a; user_holding_b; user_holding_lp]),
      [call_token_lp; call_token_b; call_token_a]).

(** ** add.rs *)
Definition add_liquidity (pool vault_a vault_b pool_definition_lp user_holding_a user_holding_b
    user_holding_lp : AccountWithMetadata) (min_amount_liquidity max_amount_a max_amount_b : Z) :
    guest Effects :=
  p ← pool_from (data (account pool))
    "Add liquidity: AMM Program expects valid Pool Definition Account";
  assert_ (bool_decide (account_id vault_a = vault_a_id p)) "Vault A was not provided" ;;
  assert_ (bool_decide (liquidity_pool_id p = account_id pool_definition_lp)) "LP definition mismatch" ;;
  assert_ (bool_decide (account_id vault_b = vault_b_id p)) "Vault B was not provided" ;;
  assert_ (bool_decide (max_amount_a <> 0) && bool_decide (max_amount_b <> 0))
    "Both max-balances must be nonzero" ;;
  vault_b_balance ← fungible_balance vault_b "Add liquidity: AMM Program expects valid " "Vault B";
  vault_a_balance ← fungible_balance vault_a "Add liquidity: AMM Program expects valid " "Vault A";
  assert_ (bool_decide (reserve_a p <> 0)) "Reserves must be nonzero" ;;
  assert_ (bool_decide (reserve_b p <> 0)) "Reserves must be nonzero" ;;
  assert_ (bool_decide (reserve_a p <= vault_a_balance))
    "Vaults' balances must be at least the reserve amounts" ;;
  assert_ (bool_decide (reserve_b p <= vault_b_balance))
    "Vaults' balances must be at least the reserve amounts" ;;
  product_a ← plain_mul 128 (reserve_a p) max_amount_b;
  ideal_a ← plain_div product_a (reserve_b p);
  product_b ← plain_mul 128 (reserve_b p) max_amount_a;
  ideal_b ← plain_div product_b (reserve_a p);
  let actual_amount_a := if decide (ideal_a > max_amount_a) then max_amount_a else ideal_a in
  let actual_amount_b := if decide (ideal_b > max_amount_b) then max_amount_b else ideal_b in
  assert_ (bool_decide (actual_amount_a <= max_amount_a)) "Actual trade amounts cannot exceed max_amounts" ;;
  assert_ (bool_decide (actual_amount_b <= max_amount_b)) "Actual trade amounts cannot exceed max_amounts" ;;
  assert_ (bool_decide (actual_amount_a <> 0)) "A trade amount is 0" ;;
  assert_ (bool_decide (actual_amount_b <> 0)) "A trade amount is 0" ;;
  lp_product_a ← plain_mul 128 (liquidity_pool_supply p) actual_amount_a;
  lp_a ← plain_div lp_product_a (reserve_a p);
  lp_product_b ← plain_mul 128 (liquidity_pool_supply p) actual_amount_b;
  lp_b ← plain_div lp_product_b (reserve_b p);
  let delta_lp := Z.min lp_a lp_b in
  assert_ (bool_decide (delta_lp <> 0)) "Payable LP must be nonzero" ;;
  assert_ (bool_decide (min_amount_liquidity <= delta_lp))
    "Payable LP is less than provided minimum LP amount" ;;
  supply' ← plain_add 128 (liquidity_pool_supply p) delta_lp;
  a' ← plain_add 128 (reserve_a p) actual_amount_a;
  b' ← plain_add 128 (reserve_b p) actual_amount_b;
  d ← pool_data (pool_with supply' a' b' (active p) p);
  let token_program := program_owner (account user_holding_a) in
  let call_token_a := token_call token_program [user_holding_a; vault_a] (Token.Transfer actual_amount_a) [] in
  let call_token_b := token_call token_program [user_holding_b; vault_b] (Token.Transfer actual_amount_b) [] in
  let call_token_lp := token_call token_program [authorized pool_definition_lp; user_holding_lp]
    (Token.Mint delta_lp) [compute_liquidity_token_pda_seed (account_id pool)] in
  Ok (PostState_new (set_data d (account pool)) :: ((fun a => PostState_new (account a)) <$>
        [vault_a; vault_b; pool_definition_lp; user_holding_a; user_holding_b; user_holding_lp]),
      [call_token_lp; call_token_b; call_token_a]).

(** ** remove.rs *)
Definition remove_liquidity (pool vault_a vault_b pool_definition_lp user_holding_a user_holding_b
    user_holding_lp : AccountWithMetadata) (remove_amount min_amount_a min_amount_b : Z) :
    guest Effects :=
  p ← pool_from (data (account pool))
    "Remove liquidity: AMM Program expects a valid Pool Definition Account";
  assert_ (active p) "Pool is inactive" ;;
  assert_ (bool_decide (liquidity_pool_id p = account_id pool_definition_lp)) "LP definition mismatch" ;;
  assert_ (bool_decide (account_id vault_a = vault_a_id p)) "Vault A was not provided" ;;
  assert_ (bool_decide (account_id vault_b = vault_b_id p)) "Vault B was not provided" ;;
  assert_ (bool_decide (min_amount_a <> 0)) "Minimum withdraw amount must be nonzero" ;;
  assert_ (bool_decide (min_amount_b <> 0)) "Minimum withdraw amount must be nonzero" ;;
  user_lp ← holding_from (data (account user_holding_lp))
    "Remove liquidity: AMM Program expects a valid Token Account for liquidity token";
  user_lp_balance ← match user_lp with
                    | Fungible _ b => Ok b
                    | _ => Panic "Remove liquidity: AMM Program expects a valid Fungible Token Holding Account for liquidity token"
                    end;
  assert_ (bool_decide (user_lp_balance <= liquidity_pool_supply p)) "Invalid liquidity account provided" ;;
  assert_ (bool_decide (definition_id user_lp = liquidity_pool_id p)) "Invalid liquidity account provided" ;;
  product_a ← plain_mul 128 (reserve_a p) remove_amount;
  withdraw_amount_a ← plain_div product_a (liquidity_pool_supply p);
  product_b ← plain_mul 128 (reserve_b p) remove_amount;
  withdraw_amount_b ← plain_div product_b (liquidity_pool_supply p);
  assert_ (bool_decide (min_amount_a <= withdraw_amount_a))
    "Insufficient minimal withdraw amount (Token A) provided for liquidity amount" ;;
  assert_ (bool_decide (min_amount_b <= withdraw_amount_b))
    "Insufficient minimal withdraw amount (Token B) provided for liquidity amount" ;;
  product_lp ← plain_mul 128 (liquidity_pool_supply p) remove_amount;
  delta_lp ← plain_div product_lp (liquidity_pool_supply p);
  supply' ← plain_sub 128 (liquidity_pool_supply p) delta_lp;
  a' ← plain_sub 128 (reserve_a p) withdraw_amount_a;
  b' ← plain_sub 128 (reserve_b p) withdraw_amount_b;
  d ← pool_data (pool_with supply' a' b' (bool_decide (supply' <> 0)) p);
  let token_program := program_owner (account user_holding_a) in
  let call_token_a := token_call token_program [authorized vault_a; user_holding_a]
    (Token.Transfer withdraw_amount_a)
    [compute_vault_pda_seed (account_id pool) (definition_token_a_id p)] in
  let call_token_b := token_call token_program [authorized vault_b; user_holding_b]
    (Token.Transfer withdraw_amount_b)
    [compute_vault_pda_seed (account_id pool) (definition_token_b_id p)] in
  let call_token_lp := token_call token_program [authorized pool_definition_lp; user_holding_lp]
    (Token.Burn delta_lp) [compute_liquidity_token_pda_seed (account_id pool)] in
  Ok (PostState_new (set_data d (account pool)) :: ((fun a => PostState_new (account a)) <$>
        [vault_a; vault_b; pool_definition_lp; user_holding_a; user_holding_b; user_holding_lp]),
      [call_token_lp; call_token_b; call_token_a]).

(** ** swap.rs *)
Definition validate_swap_setup (pool vault_a vault_b : AccountWithMetadata) : guest PoolDefinition :=
  p ← pool_from (data (account pool)) "AMM Program expects a valid Pool Definition Account";
  assert_ (active p) "Pool is inactive" ;;
  assert_ (bool_decide (account_id vault_a = vault_a_id p)) "Vault A was not provided" ;;
  assert_ (bool_decide (account_id vault_b = vault_b_id p)) "Vault B was not provided" ;;
  vault_a_balance ← fungible_balance vault_a "AMM Program expects a valid " "Vault A";
  assert_ (bool_decide (reserve_a p <= vault_a_balance)) "Reserve for Token A exceeds vault balance" ;;
  vault_b_balance ← fungible_balance vault_b "AMM Program expects a valid " "Vault B";
  assert_ (bool_decide (reserve_b p <= vault_b_balance)) "Reserve for Token B exceeds vault balance" ;;
  Ok p.

Definition create_swap_post_states (pool : AccountWithMetadata) (p : PoolDefinition)
    (vault_a vault_b user_holding_a user_holding_b : AccountWithMetadata)
    (deposit_a withdraw_a deposit_b withdraw_b : Z) : guest (list AccountPostState) :=
  a ← plain_add 128 (reserve_a p) deposit_a;
  a' ← plain_sub 128 a withdraw_a;
  b ← plain_add 128 (reserve_b p) deposit_b;
  b' ← plain_sub 128 b withdraw_b;
  d ← pool_data (pool_with (liquidity_pool_supply p) a' b' (active p) p);
  Ok (PostState_new (set_data d (account pool)) :: ((fun a => PostState_new (account a)) <$>
        [vault_a; vault_b; user_holding_a; user_holding_b])).

(** The two chained calls shared by the two kinds of swap. *)
Definition swap_calls (user_deposit vault_deposit vault_withdraw user_withdraw : AccountWithMetadata)
    (deposit withdraw : Z) (pool_id : AccountId) (msg : string) : guest (list ChainedCall) :=
  let token_program := program_owner (account user_deposit) in
  h ← holding_from (data (account vault_withdraw)) msg;
  let pda_seed := compute_vault_pda_seed pool_id (definition_id h) in
  Ok [token_call token_program [user_deposit; vault_deposit] (Token.Transfer deposit) [];
      token_call token_program [authorized vault_withdraw; user_withdraw] (Token.Transfer withdraw) [pda_seed]].

Definition swap_logic (user_deposit vault_deposit vault_withdraw user_withdraw : AccountWithMetadata)
    (swap_amount_in min_amount_out reserve_deposit reserve_withdraw : Z) (pool_id : AccountId) :
    guest (list ChainedCall * Z * Z) :=
  product ← expect (checked_mul 128 reserve_withdraw swap_amount_in) "reserve * amount_in overflows u128";
  total ← plain_add 128 reserve_deposit swap_amount_in;
  withdraw_amount ← plain_div product total;
  assert_ (bool_decide (min_amount_out <= withdraw_amount)) "Withdraw amount is less than minimal amount out" ;;
  assert_ (bool_decide (withdraw_amount <> 0)) "Withdraw amount should be nonzero" ;;
  calls ← swap_calls user_deposit vault_deposit vault_withdraw user_withdraw swap_amount_in
            withdraw_amount pool_id "Swap Logic: AMM Program expects valid token data";
  Ok (calls, swap_amount_in, withdraw_amount).

Definition exact_output_swap_logic
    (user_deposit vault_deposit vault_withdraw user_withdraw : AccountWithMetadata)
    (exact_amount_out max_amount_in reserve_deposit reserve_withdraw : Z) (pool_id : AccountId) :
    guest (list ChainedCall * Z * Z) :=
  assert_ (bool_decide (exact_amount_out <> 0)) "Exact amount out must be nonzero" ;;
  assert_ (bool_decide (exact_amount_out < reserve_withdraw)) "Exact amount out exceeds reserve" ;;
  product ← expect (checked_mul 128 reserve_deposit exact_amount_out) "reserve * amount_out overflows u128";
  rest ← plain_sub 128 reserve_withdraw exact_amount_out;
  deposit_amount ← plain_div_ceil product rest;
  assert_ (bool_decide (deposit_amount <= max_amount_in)) "Required input exceeds maximum amount in" ;;
  calls ← swap_calls user_deposit vault_deposit vault_withdraw user_withdraw deposit_amount
            exact_amount_out pool_id "Exact Output Swap Logic: AMM Program expects valid token data";
  Ok (calls, deposit_amount, exact_amount_out).

(** [swap_exact_input] and [swap_exact_output] differ in the logic they call. *)
Definition swap_with
    (logic : AccountWithMetadata -> AccountWithMetadata -> AccountWithMetadata -> AccountWithMetadata ->
             Z -> Z -> AccountId -> guest (list ChainedCall * Z * Z))
    (pool vault_a vault_b user_holding_a user_holding_b : AccountWithMetadata) (token_in_id : AccountId) :
    guest Effects :=
  p ← validate_swap_setup pool vault_a vault_b;
  '(calls, (deposit_a, withdraw_a), (deposit_b, withdraw_b)) ←
    (if decide (token_in_id = definition_token_a_id p) then
       '(calls, deposit_a, withdraw_b) ← logic user_holding_a vault_a vault_b user_holding_b
                                           (reserve_a p) (reserve_b p) (account_id pool);
       Ok (calls, (deposit_a, 0), (0, withdraw_b))
     else if decide (token_in_id = definition_token_b_id p) then
       '(calls, deposit_b, withdraw_a) ← logic user_holding_b vault_b vault_a user_holding_a
                                           (reserve_b p) (reserve_a p) (account_id pool);
       Ok (calls, (0, withdraw_a), (deposit_b, 0))
     else Panic "AccountId is not a token type for the pool");
  posts ← create_swap_post_states pool p vault_a vault_b user_holding_a user_holding_b
            deposit_a withdraw_a deposit_b withdraw_b;
  Ok (posts, calls).
Definition swap_exact_input (pool vault_a vault_b user_holding_a user_holding_b : AccountWithMetadata)
    (swap_amount_in min_amount_out : Z) (token_in_id : AccountId) : guest Effects :=
  swap_with (fun ud vd vw uw => swap_logic ud vd vw uw swap_amount_in min_amount_out)
    pool vault_a vault_b user_holding_a user_holding_b token_in_id.
Definition swap_exact_output (pool vault_a vault_b user_holding_a user_holding_b : AccountWithMetadata)
    (exact_amount_out max_amount_in : Z) (token_in_id : AccountId) : guest Effects :=
  swap_with (fun ud vd vw uw => exact_output_swap_logic ud vd vw uw exact_amount_out max_amount_in)
    pool vault_a vault_b user_holding_a user_holding_b token_in_id.

(** ** The guest *)
Definition array5 {A} (l : list A) (msg : string) : guest (A * A * A * A * A) :=
  match l with [a; b; c; d; e] => Ok (a, b, c, d, e) | _ => Panic msg end.
Definition array7 {A} (l : list A) (msg : string) : guest (A * A * A * A * A * A * A) :=
  match l with [a; b; c; d; e; f; g] => Ok (a, b, c, d, e, f, g) | _ => Panic msg end.
(** [NonZero::new(n).expect(msg)] *)
Definition non_zero (n : Z) (msg : string) : guest Z := if decide (n = 0) then Panic msg else Ok n.

Definition handle (instruction : Instruction) (pre_states : list AccountWithMetadata) : guest Effects :=
  match instruction with
  | NewDefinition token_a_amount token_b_amount amm_program_id =>
      '(pool, va, vb, lp, ua, ub, ulp) ← array7 pre_states "Transfer instruction requires exactly seven accounts";
      a ← non_zero token_a_amount "Token A should have a nonzero amount";
      b ← non_zero token_b_amount "Token B should have a nonzero amount";
      new_definition pool va vb lp ua ub ulp a b amm_program_id
  | AddLiquidity min_amount_liquidity max_a max_b =>
      '(pool, va, vb, lp, ua, ub, ulp) ← array7 pre_states "Transfer instruction requires exactly seven accounts";
      m ← non_zero min_amount_liquidity "Min amount of liquidity should be nonzero";
      add_liquidity pool va vb lp ua ub ulp m max_a max_b
  | RemoveLiquidity remove_amount min_a min_b =>
      '(pool, va, vb, lp, ua, ub, ulp) ← array7 pre_states "Transfer instruction requires exactly seven accounts";
      r ← non_zero remove_amount "Remove liquidity amount must be nonzero";
      remove_liquidity pool va vb lp ua ub ulp r min_a min_b
  | SwapExactInput amount_in min_out token_in =>
      '(pool, va, vb, ua, ub) ← array5 pre_states "SwapExactInput instruction requires exactly five accounts";
      swap_exact_input pool va vb ua ub amount_in min_out token_in
  | SwapExactOutput amount_out max_in token_in =>
      '(pool, va, vb, ua, ub) ← array5 pre_states "SwapExactOutput instruction requires exactly five accounts";
      swap_exact_output pool va vb ua ub amount_out max_in token_in
  end.
Definition main `{Serde Instruction} (env : GuestEnv) : guest (option ProgramOutput) :=
  '(input, words) ← read_inputs env;
  '(post_states, chained) ← handle (in_instruction input) (in_pre_states input);
  Ok (Some (with_chained_calls
              (ProgramOutput_new (in_self_program_id input) (in_caller_program_id input) words
                 (in_pre_states input) post_states) chained)).
End Handlers.
