(* ===== verification/TokenClients.v ===== *)
(** Two small programs that act on token holdings through chained calls: the
    associated token accounts ([programs/associated_token_account] and its guest)
    and the token pinata ([program_methods/guest/src/bin/pinata_token.rs]). *)

From S2P Require Import Prelude Bytes Crypto Account Ids Borsh ProgramCore NativePrograms Approval Token.

Open Scope Z_scope.

(** ** associated_token_account *)
Module Ata.
Inductive Instruction :=
  | Create (ata_program_id : ProgramId)
  | Transfer (ata_program_id : ProgramId) (amount : Z)
  | Burn (ata_program_id : ProgramId) (amount : Z).

Section Handlers.
Context `{Sha256, Borsh TokenHolding, Serde Token.Instruction}.

Definition compute_ata_seed (owner_id definition_id : AccountId) : PdaSeed :=
  PdaSeed_new (hash_bytes (value owner_id ++ value definition_id)).
Definition get_associated_token_account_id (ata_program_id : ProgramId) (seed : PdaSeed) : AccountId :=
  for_public_pda ata_program_id seed.
Definition verify_ata_and_get_seed (ata_account owner : AccountWithMetadata) (definition_id : AccountId)
    (ata_program_id : ProgramId) : guest PdaSeed :=
  let seed := compute_ata_seed (account_id owner) definition_id in
  assert_ (bool_decide (account_id ata_account = get_associated_token_account_id ata_program_id seed))
    "ATA account ID does not match expected derivation" ;;
  Ok seed.

(** create.rs, transfer.rs, burn.rs *)
Definition create_associated_token_account (owner token_definition ata_account : AccountWithMetadata)
    (ata_program_id : ProgramId) : guest (list AccountPostState * list ChainedCall) :=
  let token_program_id := program_owner (account token_definition) in
  ata_seed ← verify_ata_and_get_seed ata_account owner (account_id token_definition) ata_program_id;
  let post_states := [new_claimed_if_default (account owner) Authorized;
                      PostState_new (account token_definition); PostState_new (account ata_account)] in
  if decide (account ata_account <> Account_default) then Ok (post_states, [])
  else Ok (post_states,
           [with_pda_seeds (ChainedCall_new token_program_id [token_definition; authorized ata_account]
                              Token.InitializeAccount) [ata_seed]]).

Definition transfer_from_associated_token_account (owner sender_ata recipient : AccountWithMetadata)
    (ata_program_id : ProgramId) (amount : Z) : guest (list AccountPostState * list ChainedCall) :=
  let token_program_id := program_owner (account sender_ata) in
  assert_ (is_authorized owner) "Owner authorization is missing" ;;
  h ← holding_from (data (account sender_ata)) "Sender ATA must hold a valid token";
  seed ← verify_ata_and_get_seed sender_ata owner (definition_id h) ata_program_id;
  Ok ([PostState_new (account owner); PostState_new (account sender_ata); PostState_new (account recipient)],
      [with_pda_seeds (ChainedCall_new token_program_id [authorized sender_ata; recipient]
                         (Token.Transfer amount)) [seed]]).

Definition burn_from_associated_token_account (owner holder_ata token_definition : AccountWithMetadata)
    (ata_program_id : ProgramId) (amount : Z) : guest (list AccountPostState * list ChainedCall) :=
  let token_program_id := program_owner (account holder_ata) in
  assert_ (is_authorized owner) "Owner authorization is missing" ;;
  h ← holding_from (data (account holder_ata)) "Holder ATA must hold a valid token";
  seed ← verify_ata_and_get_seed holder_ata owner (definition_id h) ata_program_id;
  Ok ([PostState_new (account owner); PostState_new (account holder_ata); PostState_new (account token_definition)],
      [with_pda_seeds (ChainedCall_new token_program_id [token_definition; authorized holder_ata]
                         (Token.Burn amount)) [seed]]).

(** The guest *)
Definition handle (instruction : Instruction) (pre_states : list AccountWithMetadata) :
    guest (list AccountPostState * list ChainedCall) :=
  match instruction with
  | Create ata_program_id =>
      '(owner, token_definition, ata) ← array3 pre_states "Create instruction requires exactly three accounts";
      create_associated_token_account owner token_definition ata ata_program_id
  | Transfer ata_program_id amount =>
      '(owner, sender_ata, recipient) ← array3 pre_states "Transfer instruction requires exactly three accounts";
      transfer_from_associated_token_account owner sender_ata recipient ata_program_id amount
  | Burn ata_program_id amount =>
      '(owner, holder_ata, token_definition) ← array3 pre_states "Burn instruction requires exactly three accounts";
      burn_from_associated_token_account owner holder_ata token_definition ata_program_id amount
  end.
Definition main `{Serde Instruction} (env : GuestEnv) : guest (option ProgramOutput) :=
  '(input, words) ← read_inputs env;
  '(post_states, chained) ← handle (in_instruction input) (in_pre_states input);
  Ok (Some (with_chained_calls
              (ProgramOutput_new (in_self_program_id input) (in_caller_program_id input) words
                 (in_pre_states input) post_states) chained)).
End Handlers.

(** ** Lemmas *)
Section Facts.
Context `{Sha256, Borsh TokenHolding, Serde Token.Instruction}.

Lemma verify_ata_ok ata owner d p seed :
  verify_ata_and_get_seed ata owner d p = Ok seed ->
  seed = compute_ata_seed (account_id owner) d /\ account_id ata = for_public_pda p seed.
Proof. unfold verify_ata_and_get_seed. intros Hv. by inv_ok. Qed.

Lemma app_inj_32 (a b c d : list byte) : length a = length c -> a ++ b = c ++ d -> a = c /\ b = d.
Proof. intros Hl He. by apply app_inj_1 in He. Qed.

(** Without a collision of SHA-256 on the two inputs, seeds tell owners and
    definitions apart. *)
Lemma ata_seed_inj o d o' d' :
  AccountId_wf o -> AccountId_wf o' ->
  (hash_bytes (value o ++ value d) = hash_bytes (value o' ++ value d') ->
   value o ++ value d = value o' ++ value d') ->
  compute_ata_seed o d = compute_ata_seed o' d' -> o = o' /\ d = d'.
Proof.
  unfold AccountId_wf. intros Hl Hl' Hinj Hs. injection Hs as Hs. apply Hinj, app_inj_32 in Hs as [Ho Hd]; [|congruence].
  destruct o, o', d, d'. cbn in *. by subst.
Qed.
End Facts.
End Ata.

(** ** pinata_token *)
Module PinataToken.
Import Pinata.

Definition main `{Sha256, Serde Token.Instruction, Serde Pinata.Instruction} (env : GuestEnv) :
    guest (option ProgramOutput) :=
  '(input, words) ← read_inputs (I := Pinata.Instruction) env;
  let solution := in_instruction input in
  match in_pre_states input with
  | [pinata_definition; pinata_token_holding; winner_token_holding] =>
      challenge ← Challenge_new (data_bytes (data (account pinata_definition)));
      if negb (validate_solution challenge solution) then Ok None
      else
        d ← data_expect (next_data challenge) "should fit";
        let chained_call :=
          with_pda_seeds
            (ChainedCall_new (program_owner (account pinata_token_holding))
               [authorized pinata_token_holding; winner_token_holding] (Token.Transfer PRIZE))
            [PdaSeed_new (zeros 32)] in
        Ok (Some (with_chained_calls
                    (ProgramOutput_new (in_self_program_id input) (in_caller_program_id input) words
                       [pinata_definition; pinata_token_holding; winner_token_holding]
                       [PostState_new (set_data d (account pinata_definition));
                        PostState_new (account pinata_token_holding);
                        PostState_new (account winner_token_holding)]) [chained_call]))
  | _ => Ok None
  end.
End PinataToken.
