(* ===== verification/TokenFacts.v ===== *)
(** What the token program does: the effect of each handler on decoded
    holdings and definitions, and the life cycle of the mint authority. *)

From S2P Require Import Prelude Bytes Crypto Account Ids Borsh ProgramCore NativePrograms Approval Token.

Open Scope Z_scope.

(** The quantity a holding represents: fungible balance, prints of a master
    (itself included), or one owned copy. *)
Definition amount (h : TokenHolding) : Z :=
  match h with
  | Fungible _ b | NftMaster _ b => b
  | NftPrintedCopy _ owned => if owned then 1 else 0
  end.
Definition definition_authority (d : TokenDefinition) : option Authority :=
  match d with DefFungible _ _ _ a => Some a | DefNonFungible _ _ _ => None end.
(** A definition with another supply and the same everything else. *)
Definition with_supply (d : TokenDefinition) (s : Z) : TokenDefinition :=
  match d with
  | DefFungible n _ m a => DefFungible n s m a
  | DefNonFungible n _ m => DefNonFungible n s m
  end.
Definition option_id_wf (o : option AccountId) : Prop :=
  match o with Some i => AccountId_wf i | None => True end.
Definition definition_wf (d : TokenDefinition) : Prop :=
  in_u 128 (definition_supply d) /\
  match d with
  | DefFungible n _ m a =>
      in_u 32 (Z.of_nat (String.length n)) /\ option_id_wf m /\ option_id_wf (admin a)
  | DefNonFungible n _ m => in_u 32 (Z.of_nat (String.length n)) /\ AccountId_wf m
  end.

(** ** Lemmas *)
Lemma move_holdings_ok s r n s' r' :
  move_holdings s r n = Ok (s', r') ->
  amount s' = amount s - n /\ amount r' = amount r + n /\
  definition_id s' = definition_id s /\ definition_id r' = definition_id r /\
  n <= amount s /\ (in_u 128 (amount s) -> in_u 128 (amount r) -> 0 <= n -> holding_wf s -> holding_wf r ->
    holding_wf s' /\ holding_wf r').
Proof.
  destruct s as [d b|d b|d o], r as [d' b'|d' b'|d' o']; cbn [move_holdings]; intros Hm; inv_ok; try done.
  - apply checked_sub_Some in Hs as [? ->]. apply checked_add_Some in Hs0 as [? ->]. cbn.
    unfold holding_wf, in_u. cbn. split_and!; try done. intros; split_and!; lia || naive_solver.
  - cbn in *. unfold holding_wf, in_u. cbn. split_and!; try done; try lia.
    intros; split_and!; lia || naive_solver.
  - apply negb_true_iff in Hs1. subst. unfold holding_wf. cbn. split_and!; done || naive_solver.
Qed.

Lemma burn_amount_ok d h n d' h' :
  burn_amount d h n = Ok (d', h') ->
  d' = with_supply d (definition_supply d - n) /\ n <= definition_supply d /\
  amount h' = amount h - n /\ n <= amount h /\ definition_id h' = definition_id h.
Proof.
  destruct d as [nm s m a|nm s m], h as [i b|i b|i o]; cbn [burn_amount]; intros Hm; inv_ok; try done.
  - apply checked_sub_Some in Hs as [? ->]. apply checked_sub_Some in Hs0 as [? ->]. done.
  - apply checked_sub_Some in Hs as [? ->]. apply checked_sub_Some in Hs0 as [? ->]. done.
  - apply checked_sub_Some in Hs1 as [? ->]. cbn in *. subst. done.
Qed.

Lemma add_minted_ok d h n f d' h' :
  add_minted d h n f = Ok (d', h') ->
  d' = with_supply d (definition_supply d + n) /\ amount h' = amount h + n /\
  definition_supply d + n < 2 ^ 128 /\ amount h + n < 2 ^ 128 /\
  definition_id h' = definition_id h /\ is_Some (definition_authority d).
Proof.
  destruct d as [nm s m a|nm s m], h as [i b|i b|i o]; cbn [add_minted]; intros Hm; inv_ok; try done.
  apply checked_add_Some in Hs as [? ->]. apply checked_add_Some in Hs0 as [? ->]. cbn. eauto 10.
Qed.

Lemma burn_amount_wf d h n d' h' :
  0 <= n -> definition_wf d -> holding_wf h -> burn_amount d h n = Ok (d', h') ->
  definition_wf d' /\ holding_wf h'.
Proof.
  unfold definition_wf, holding_wf.
  destruct d as [nm s m a|nm s m], h as [i b|i b|i o]; cbn [burn_amount]; intros Hn Hd Hh Hm; inv_ok;
    try done; repeat match goal with Hc : checked_sub _ _ = Some _ |- _ =>
      apply checked_sub_Some in Hc as [? ->] end;
    cbn in *; unfold in_u in *; split_and!; lia || tauto.
Qed.

Lemma add_minted_wf d h n f d' h' :
  0 <= n -> definition_wf d -> holding_wf h -> add_minted d h n f = Ok (d', h') ->
  definition_wf d' /\ holding_wf h'.
Proof.
  unfold definition_wf, holding_wf.
  destruct d as [nm s m a|nm s m], h as [i b|i b|i o]; cbn [add_minted]; intros Hn Hd Hh Hm; inv_ok;
    try done; repeat match goal with Hc : checked_add _ _ _ = Some _ |- _ =>
      apply checked_add_Some in Hc as [? ->] end;
    cbn in *; unfold in_u in *; split_and!; lia || tauto.
Qed.

Section Handlers.
Context `{Borsh TokenDefinition, Borsh TokenHolding, Borsh TokenMetadata}.
Context `{!BorshLaws TokenDefinition definition_wf, !BorshLaws TokenHolding holding_wf}.

Lemma holding_from_ok d msg h :
  holding_from d msg = Ok h <-> borsh_try_from_slice (data_bytes d) = Some h.
Proof. unfold holding_from. apply expect_ok. Qed.
Lemma definition_from_ok d msg h :
  definition_from d msg = Ok h <-> borsh_try_from_slice (data_bytes d) = Some h.
Proof. unfold definition_from. apply expect_ok. Qed.
Lemma holding_data_ok h d : holding_data h = Ok d <-> d = mk_Data (borsh_to_vec h) /\ Data_wf d.
Proof. apply data_expect_ok. Qed.
Lemma definition_data_ok h d : definition_data h = Ok d <-> d = mk_Data (borsh_to_vec h) /\ Data_wf d.
Proof. apply data_expect_ok. Qed.

Lemma amount_range h : holding_wf h -> in_u 128 (amount h).
Proof. destruct h as [| |? []]; intros [_ Hb]; cbn in *; try done; unfold in_u; lia. Qed.

(** The holding of an account, or the empty one a default account gets. *)
Definition recipient_of (s : TokenHolding) (a : Account) (h : TokenHolding) : Prop :=
  if decide (a = Account_default) then h = zeroized_clone_from s
  else borsh_try_from_slice (data_bytes (data a)) = Some h.
Definition minted_to (id : AccountId) (d : TokenDefinition) (a : Account) (h : TokenHolding) : Prop :=
  if decide (a = Account_default) then h = zeroized_from_definition id d
  else borsh_try_from_slice (data_bytes (data a)) = Some h.

Lemma mint_holding_ok da ha d h :
  mint_holding da ha d = Ok h ->
  minted_to (account_id da) d (account ha) h /\ account_id da = definition_id h.
Proof.
  unfold mint_holding, minted_to. intros Hm; inv_ok. case_decide; inv_ok; [done|].
  by apply holding_from_ok in Hs.
Qed.

Lemma recipient_wf s a h : holding_wf s -> recipient_of s a h -> holding_wf h.
Proof.
  unfold recipient_of. case_decide; intros Hs.
  - intros ->. destruct s; destruct Hs; split; cbn in *; try done; unfold in_u; lia.
  - apply borsh_decoded_wf.
Qed.

Lemma minted_wf id d a h : AccountId_wf id -> minted_to id d a h -> holding_wf h.
Proof.
  unfold minted_to. case_decide; intros Hid.
  - intros ->. destruct d; split; cbn; try done; unfold in_u; lia.
  - apply borsh_decoded_wf.
Qed.

(** A post state whose data is the encoding of [h]. *)
Lemma decode_data (h : TokenHolding) (a : Account) :
  holding_wf h ->
  borsh_try_from_slice (data_bytes (data (set_data (mk_Data (borsh_to_vec h)) a))) = Some h.
Proof. intros. cbn. by apply borsh_roundtrip. Qed.
Lemma decode_definition (d : TokenDefinition) (a : Account) :
  definition_wf d ->
  borsh_try_from_slice (data_bytes (data (set_data (mk_Data (borsh_to_vec d)) a))) = Some d.
Proof. intros. cbn. by apply borsh_roundtrip. Qed.

Lemma with_supply_wf d s : definition_wf d -> in_u 128 s -> definition_wf (with_supply d s).
Proof. destruct d; intros [_ Hw] Hs; by split. Qed.
Lemma with_authority_wf d a : definition_wf d -> option_id_wf (admin a) -> definition_wf (with_authority d a).
Proof. destruct d; intros [Hs Hw] Ha; split; naive_solver. Qed.
Lemma fungible_authority_ok d msg a :
  fungible_authority d msg = Ok a <-> definition_authority d = Some a.
Proof. destruct d; cbn; naive_solver. Qed.
Lemma definition_authority_with d a a' :
  definition_authority d = Some a -> definition_authority (with_authority d a') = Some a'.
Proof. destruct d; cbn; naive_solver. Qed.
End Handlers.
