(* ===== verification/Instances.v ===== *)
(** Concrete instances of the parameters of the model, used by the witnesses
    of the properties: SHA-256, lawful Borsh codecs for the token data. *)

From Stdlib.Strings Require Import String.
From S2P Require Import Prelude Bytes Crypto Account Ids ProgramCore Borsh MerkleTree Host State Encryption CircuitIo Transactions StateDiffs NativePrograms Approval Token TokenFacts.

Open Scope Z_scope.

#[global] Instance sha256_instance : Sha256 := Sha256Impl.sha256.

Module TokenCodecs.
Import Codec.

Definition id_codec : codec AccountId := iso AccountId_new value (bytes 32).
Lemma id_ok : ok id_codec AccountId_wf.
Proof.
  exact (iso_ok AccountId_new value (bytes 32) _ ltac:(by intros []) ltac:(done) (bytes_ok 32)).
Qed.

Definition bool_codec : codec bool :=
  iso (fun s : () + () => match s with inl _ => false | inr _ => true end)
    (fun b : bool => if b then inr () else inl ()) (sum unit unit).
Lemma bool_ok : ok bool_codec (fun _ => True).
Proof.
  eapply ok_weaken; [|apply iso_ok; [| |apply sum_ok; apply unit_ok]].
  - by intros [].
  - by intros [].
  - by intros [[]|[]].
Qed.

Definition option_codec {A} (c : codec A) : codec (option A) :=
  iso (fun s : () + A => match s with inl _ => None | inr a => Some a end)
    (fun o => match o with None => inl () | Some a => inr a end) (sum unit c).
Lemma option_ok {A} (c : codec A) wf :
  ok c wf -> ok (option_codec c) (fun o => match o with Some a => wf a | None => True end).
Proof.
  intros Hc. eapply ok_weaken; [|apply iso_ok; [| |apply sum_ok; [apply unit_ok|exact Hc]]].
  - by intros [].
  - by intros [].
  - by intros [[]|].
Qed.

Definition string_codec : codec string := iso string_of_list_byte list_byte_of_string vec.
Lemma string_ok : ok string_codec (fun s => in_u 32 (Z.of_nat (String.length s))).
Proof.
  eapply ok_weaken; [|apply iso_ok; [| |apply vec_ok]].
  - intros s. cbn. unfold in_u.
    assert (Hl : length (list_byte_of_string s) = String.length s).
    { unfold list_byte_of_string. rewrite List.length_map. induction s; cbn; [done|]. by f_equal. }
    by rewrite Hl.
  - apply string_of_list_byte_of_string.
  - apply list_byte_of_string_of_list_byte.
Qed.

Definition authority_codec : codec Authority := iso mk_Authority admin (option_codec id_codec).
Lemma authority_ok : ok authority_codec (fun a => option_id_wf (admin a)).
Proof.
  exact (iso_ok mk_Authority admin _ _ ltac:(by intros []) ltac:(done) (option_ok _ _ id_ok)).
Qed.

(** [TokenHolding] *)
Definition holding_sum : Type := (AccountId * Z) + ((AccountId * Z) + (AccountId * bool)).
Definition to_holding (s : holding_sum) : TokenHolding :=
  match s with
  | inl (d, b) => Fungible d b
  | inr (inl (d, b)) => NftMaster d b
  | inr (inr (d, o)) => NftPrintedCopy d o
  end.
Definition of_holding (h : TokenHolding) : holding_sum :=
  match h with
  | Fungible d b => inl (d, b)
  | NftMaster d b => inr (inl (d, b))
  | NftPrintedCopy d o => inr (inr (d, o))
  end.
Definition holding_codec : codec TokenHolding :=
  iso to_holding of_holding
    (sum (pair id_codec (uint 16)) (sum (pair id_codec (uint 16)) (pair id_codec bool_codec))).
Lemma holding_ok : ok holding_codec holding_wf.
Proof.
  eapply ok_weaken;
    [|apply iso_ok; [by intros []|by intros [[]|[[]|[]]]|
       repeat apply sum_ok; apply pair_ok; apply id_ok || apply uint_ok || apply bool_ok]].
  intros []; unfold holding_wf; cbn; tauto.
Qed.

(** [TokenDefinition] *)
Definition definition_sum : Type :=
  (string * Z * option AccountId * Authority) + (string * Z * AccountId).
Definition to_definition (s : definition_sum) : TokenDefinition :=
  match s with
  | inl (n, s, m, a) => DefFungible n s m a
  | inr (n, s, m) => DefNonFungible n s m
  end.
Definition of_definition (d : TokenDefinition) : definition_sum :=
  match d with
  | DefFungible n s m a => inl (n, s, m, a)
  | DefNonFungible n s m => inr (n, s, m)
  end.
Definition definition_codec : codec TokenDefinition :=
  iso to_definition of_definition
    (sum (pair (pair (pair string_codec (uint 16)) (option_codec id_codec)) authority_codec)
         (pair (pair string_codec (uint 16)) id_codec)).
Lemma definition_ok : ok definition_codec definition_wf.
Proof.
  eapply ok_weaken;
    [|apply iso_ok; [by intros []|by intros [[[[]]]|[[]]]|
       apply sum_ok; repeat apply pair_ok;
         apply id_ok || apply uint_ok || apply string_ok || apply (option_ok _ _ id_ok) || apply authority_ok]].
  intros []; unfold definition_wf, option_id_wf; cbn; tauto.
Qed.

Definition metadata_codec : codec TokenMetadata :=
  iso (fun p : AccountId * bool * string * string * Z =>
         mk_Metadata p.1.1.1.1 (if p.1.1.1.2 then Expanded else Simple) p.1.1.2 p.1.2 p.2)
    (fun m => (tm_definition_id m, match tm_standard m with Simple => false | Expanded => true end,
               tm_uri m, tm_creators m, tm_primary_sale_date m))
    (pair (pair (pair (pair id_codec bool_codec) string_codec) string_codec) (uint 8)).
End TokenCodecs.

#[global] Instance holding_borsh : Borsh TokenHolding := Codec.to_borsh TokenCodecs.holding_codec.
#[global] Instance holding_borsh_laws : BorshLaws TokenHolding holding_wf :=
  Codec.to_borsh_laws _ _ TokenCodecs.holding_ok.
#[global] Instance definition_borsh : Borsh TokenDefinition := Codec.to_borsh TokenCodecs.definition_codec.
#[global] Instance definition_borsh_laws : BorshLaws TokenDefinition definition_wf :=
  Codec.to_borsh_laws _ _ TokenCodecs.definition_ok.
#[global] Instance metadata_borsh : Borsh TokenMetadata := Codec.to_borsh TokenCodecs.metadata_codec.

(** Sample accounts. *)
Definition sample_id (b : Z) : AccountId := AccountId_new (replicate 32 (byte_of_Z b)).
Definition token_id : ProgramId := replicate 8 2.
Definition sample_account {A} `{Borsh A} (owner : ProgramId) (balance : Z) (a : A) : Account :=
  mk_Account owner balance (mk_Data (borsh_to_vec a)) 0.

(** The instruction words of the token program that the samples need. *)
#[global] Instance token_instruction_serde : Serde Token.Instruction := {|
  serde_to_vec i := match i with
                    | Token.Transfer n => [0; n] | Token.Burn n => [5; n] | Token.Mint n => [6; n] | _ => [99]
                    end;
  serde_from_words w := match w with
                        | [0; n] => Some (Token.Transfer n) | [5; n] => Some (Token.Burn n)
                        | [6; n] => Some (Token.Mint n) | _ => None
                        end;
|}.

(** ** A concrete virtual machine for the witnesses: an ELF is one byte that
    selects a modelled guest program.  It also has two hostile guests that the
    execution rules have to cope with. *)

#[global] Instance auth_serde : Serde AuthTransfer.Instruction := {|
  serde_to_vec i := match i with AuthTransfer.Transfer n => [0; n] | AuthTransfer.Initialize => [1] end;
  serde_from_words w := match w with
                        | [0; n] => Some (AuthTransfer.Transfer n)
                        | [1] => Some AuthTransfer.Initialize
                        | _ => None
                        end;
|}.
#[global] Instance vault_serde : Serde Vault.Instruction := {|
  serde_to_vec i := match i with
                    | Vault.Transfer r n => 0 :: n :: (byte_to_Z <$> value r)
                    | Vault.Claim n => [1; n]
                    end;
  serde_from_words w := match w with
                        | 0 :: n :: r => Some (Vault.Transfer (AccountId_new (byte_of_Z <$> r)) n)
                        | [1; n] => Some (Vault.Claim n)
                        | _ => None
                        end;
|}.
#[global] Instance timestamp_serde : Serde Timestamp := {|
  serde_to_vec i := [i];
  serde_from_words w := match w with [i] => Some i | _ => None end;
|}.
#[global] Instance clock_borsh : Borsh ClockAccountData :=
  Codec.to_borsh (Codec.iso (fun p : Z * Z => mk_ClockData p.1 p.2)
    (fun d => (clock_block_id d, clock_timestamp d)) (Codec.pair (Codec.uint 8) (Codec.uint 8))).

(** A program that does not report the accounts it was called with.  Called
    with the instruction [[0]] it calls itself with [[1]], marking every account
    authorized; called with [[1]] it asks the transfer program to move [amount]
    from the first account to the second. *)
Definition auth_id : ProgramId := replicate 8 1.
Definition hostile_id : ProgramId := replicate 8 66.
Definition hostile_main (amount : Z) (env : GuestEnv) : guest (option ProgramOutput) :=
  let call := match env_instruction env with
              | [0] => mk_ChainedCall (env_self env) (authorized <$> env_pre_states env) [1] []
              | _ => mk_ChainedCall auth_id (env_pre_states env)
                       (serde_to_vec (AuthTransfer.Transfer amount)) []
              end in
  Ok (Some (with_chained_calls
    (ProgramOutput_new (env_self env) (env_caller env) (env_instruction env) [] []) [call])).

(** A program that calls itself for ever. *)
Definition looping_main (env : GuestEnv) : guest (option ProgramOutput) :=
  Ok (Some (with_chained_calls
    (ProgramOutput_new (env_self env) (env_caller env) (env_instruction env) [] [])
    [mk_ChainedCall (env_self env) [] [] []])).

Definition guest_main (elf : list byte) (env : GuestEnv) : guest (option ProgramOutput) :=
  match elf with
  | [Byte.x01] => AuthTransfer.main env
  | [Byte.x02] => Vault.main env
  | [Byte.x03] => Clock.main env
  | [Byte.x42] => hostile_main 100 env
  | [Byte.x4c] => looping_main env
  | _ => Panic "unknown guest"
  end.

#[global] Instance Output_wf_dec o : Decision (Output_wf o).
Proof. unfold Output_wf, PostState_wf. apply _. Defined.

(** A run ends in an error when the guest panics or writes nothing. *)
#[global] Instance interpreter : ZkVm := fun elf self caller pre instr =>
  match guest_main elf (mk_Env self caller pre instr) with
  | Ok (Some o) => if decide (Output_wf o) then inr o else inl "malformed journal"%string
  | Ok None => inl "no output"%string
  | Panic msg => inl msg
  | Err _ => inl ""%string
  end.
#[global] Instance interpreter_laws : ZkVmLaws.
Proof.
  intros elf self caller pre instr o. unfold vm_execute, interpreter.
  destruct (guest_main _ _) as [[o'|]| |]; try done. case_decide; [|done]. by intros [= <-].
Qed.

(** Signatures and receipts that always verify; proofs must start with a one. *)
#[global] Instance sample_schnorr : Schnorr := {|
  schnorr_key_valid _ := true;
  schnorr_signature_valid _ := true;
  schnorr_verify_raw _ _ _ := true;
|}.
#[global] Instance sample_receipts : Receipts := {|
  inner_receipt := ();
  inner_receipt_from_slice l := match l with Byte.x01 :: _ => Some () | _ => None end;
  receipt_verify _ _ := true;
|}.
#[global] Instance sample_circuit_serde : Serde PrivacyPreservingCircuitOutput := {|
  serde_to_vec _ := [];
  serde_from_words _ := None;
|}.
#[global] Instance sample_pub_borsh : Borsh PublicMessage := {|
  borsh_to_vec m := words_bytes (pub_program_id m) ++ words_bytes (pub_instruction_data m);
  borsh_try_from_slice _ := None;
|}.
#[global] Instance sample_priv_borsh : Borsh PrivacyMessage := {|
  borsh_to_vec m := [];
  borsh_try_from_slice _ := None;
|}.

(** A state with two funded accounts; the first belongs to [alice_key]. *)
Definition alice_key : PublicKey := mk_PublicKey (replicate 32 Byte.x07).
Definition alice_id : AccountId := Eval vm_compute in account_id_of_public_key (public_key_value alice_key).
Definition bob_id : AccountId := sample_id 3.
Definition auth_program : Program := mk_Program auth_id [Byte.x01].
Definition hostile_program : Program := mk_Program hostile_id [Byte.x42].
Definition looping_id : ProgramId := replicate 8 76.
Definition looping_program : Program := mk_Program looping_id [Byte.x4c].
Definition funds (b : Z) : Account := mk_Account auth_id b Data_default 0.
Definition empty_cs : CommitmentSet :=
  match (cs ← cs_with_capacity 32; cs_extend cs [DUMMY_COMMITMENT]) with
  | Ok cs => cs
  | _ => mk_CommitmentSet (mk_Tree [] 0 0) ∅ ∅
  end.
Definition sample_state : V03State :=
  mk_State (<[alice_id := funds 100]> {[bob_id := funds 5]}) (empty_cs, ∅)
    (<[auth_id := auth_program]> (<[hostile_id := hostile_program]> {[looping_id := looping_program]})).

(** Alice pays Bob 30. *)
Definition payment : PublicTransaction :=
  mk_PublicTx (mk_PublicMessage auth_id [alice_id; bob_id] [0] (serde_to_vec (AuthTransfer.Transfer 30)))
    (mk_PublicWitnessSet [(mk_Signature [], alice_key)]).
(** Their input states when Alice signs. *)
Definition alice_pre : AccountWithMetadata := mk_AWM (funds 100) true alice_id.
Definition bob_pre : AccountWithMetadata := mk_AWM (funds 5) false bob_id.

(** Nobody signs; the hostile program is given Alice's and Bob's accounts. *)
Definition theft : PublicTransaction :=
  mk_PublicTx (mk_PublicMessage hostile_id [alice_id; bob_id] [] [0]) (mk_PublicWitnessSet []).
