(* ===== verification/TokenTheorems.v ===== *)
(** Properties of the token program. *)

From S2P Require Import Prelude Bytes Crypto Account Ids ProgramCore Borsh NativePrograms Approval Token TokenClients TokenFacts Instances.

Open Scope Z_scope.

(** [post] is [pre] with its data replaced by the encoding of [x]. *)
Definition rewritten {A} `{Borsh A} (pre post : Account) (x : A) : Prop :=
  (exists d, post = set_data d pre) /\ borsh_try_from_slice (data_bytes (data post)) = Some x.

Section TokenTheorems.
Context `{Borsh TokenDefinition, Borsh TokenHolding, Borsh TokenMetadata}.
Context `{!BorshLaws TokenDefinition definition_wf, !BorshLaws TokenHolding holding_wf}.

(** A token transfer that succeeds was authorized by the sender, stays
    within one token, moves exactly [n] from the sender's holding to the
    recipient's (for fungible tokens, master NFTs and printed copies alike) and
    changes nothing else of the two accounts; an unused recipient is claimed. *)
Lemma transfer_moves sender recipient n posts :
  0 <= n -> transfer sender recipient n = Ok posts ->
  is_authorized sender = true /\
  exists hs hr hs' hr' sp rp,
    borsh_try_from_slice (data_bytes (data (account sender))) = Some hs /\
    recipient_of hs (account recipient) hr /\
    posts = [PostState_new sp; new_claimed_if_default rp Authorized] /\
    rewritten (account sender) sp hs' /\ rewritten (account recipient) rp hr' /\
    definition_id hs' = definition_id hs /\ definition_id hr' = definition_id hs /\
    amount hs' = amount hs - n /\ amount hr' = amount hr + n /\ n <= amount hs.
Proof.
  intros Hn Ht. unfold transfer in Ht. inv_ok. destruct a3 as [hs' hr']. inv_ok.
  apply holding_from_ok in Hs0. apply holding_data_ok in Hs4 as [-> Hd1].
  apply holding_data_ok in Hs5 as [-> Hd2].
  assert (Hr : recipient_of a0 (account recipient) a1).
  { unfold recipient_of. case_decide; inv_ok; [done|]. by apply holding_from_ok in Hs1. }
  pose proof (borsh_decoded_wf _ _ Hs0) as Wa. pose proof (recipient_wf _ _ _ Wa Hr) as Wb.
  apply move_holdings_ok in Hs3 as (A1 & A2 & D1 & D2 & Hle & Hwf).
  destruct Hwf as [W1 W2]; [by apply amount_range..|done|done|done|].
  split; [done|]. eexists _, _, hs', hr', _, _. split; [done|]. split; [done|]. split; [done|].
  split; [split; [eauto|by apply decode_data]|].
  split; [split; [eauto|by apply decode_data]|]. split_and!; congruence.
Qed.

(** Burning: the holder authorized it, and the same [n] leaves the holding
    and the supply of its definition. *)
Theorem burn_reduces_supply definition holder n posts :
  0 <= n -> burn definition holder n = Ok posts ->
  is_authorized holder = true /\
  exists d h h' dp hp,
    borsh_try_from_slice (data_bytes (data (account definition))) = Some d /\
    borsh_try_from_slice (data_bytes (data (account holder))) = Some h /\
    account_id definition = definition_id h /\
    posts = [PostState_new dp; PostState_new hp] /\
    rewritten (account definition) dp (with_supply d (definition_supply d - n)) /\
    rewritten (account holder) hp h' /\
    definition_id h' = definition_id h /\ amount h' = amount h - n /\
    n <= amount h /\ n <= definition_supply d.
Proof.
  intros Hn Hb. unfold burn in Hb. inv_ok. destruct a3 as [d' h']. inv_ok.
  apply definition_from_ok in Hs0. apply holding_from_ok in Hs1.
  apply definition_data_ok in Hs4 as [-> Hd1]. apply holding_data_ok in Hs5 as [-> Hd2].
  pose proof (borsh_decoded_wf _ _ Hs0) as Wd. pose proof (borsh_decoded_wf _ _ Hs1) as Wh.
  pose proof (burn_amount_wf _ _ _ _ _ Hn Wd Wh Hs3) as [Wd' Wh'].
  apply burn_amount_ok in Hs3 as (-> & Hle & Ha & Hle' & Hid).
  split; [done|]. eexists _, _, h', _, _. split; [done|]. split; [done|]. split; [done|].
  split; [done|]. split; [split; [eauto|by apply decode_definition]|].
  split; [split; [eauto|by apply decode_data]|]. done.
Qed.

(** Minting: the definition account authorized it, the token is fungible,
    and the same [n] is added to the holding and to the supply, without
    overflow of either. *)
Theorem mint_increases_supply definition holder n posts :
  AccountId_wf (account_id definition) -> 0 <= n -> mint definition holder n = Ok posts ->
  is_authorized definition = true /\
  exists d h h' dp hp,
    borsh_try_from_slice (data_bytes (data (account definition))) = Some d /\
    minted_to (account_id definition) d (account holder) h /\
    account_id definition = definition_id h /\
    posts = [PostState_new dp; new_claimed_if_default hp Authorized] /\
    rewritten (account definition) dp (with_supply d (definition_supply d + n)) /\
    rewritten (account holder) hp h' /\
    definition_id h' = definition_id h /\ amount h' = amount h + n /\
    is_Some (definition_authority d) /\ definition_supply d + n < 2 ^ 128.
Proof.
  intros Wid Hn Hm. unfold mint in Hm. inv_ok. destruct a2 as [d' h']. inv_ok.
  apply definition_from_ok in Hs0. apply mint_holding_ok in Hs1 as [Hto Hid].
  apply definition_data_ok in Hs3 as [-> Hd1]. apply holding_data_ok in Hs4 as [-> Hd2].
  pose proof (borsh_decoded_wf _ _ Hs0) as Wd.
  pose proof (add_minted_wf _ _ _ _ _ _ Hn Wd (minted_wf _ _ _ _ Wid Hto) Hs2) as [Wd' Wh'].
  apply add_minted_ok in Hs2 as (-> & Ha & Hlt & _ & Hid' & Hau).
  split; [done|]. eexists _, _, h', _, _. split; [done|]. split; [done|]. split; [done|].
  split; [done|]. split; [split; [eauto|by apply decode_definition]|].
  split; [split; [eauto|by apply decode_data]|]. done.
Qed.

(** C14. The recorded authority is single-admin and terminal: rotating or
    revoking succeeds only for the authorized active admin and installs exactly
    the new authority; once renounced, every authority operation panics with
    [ApprovalError::Renounced]. *)
Theorem authority_life_cycle definition signer d a :
  borsh_try_from_slice (data_bytes (data (account definition))) = Some d ->
  definition_authority d = Some a ->
  (forall new posts, option_id_wf (Some new) -> rotate_authority definition signer new = Ok posts ->
     is_authorized signer = true /\ admin a = Some (account_id signer) /\
     exists dp sp, posts = [PostState_new dp; sp] /\
       rewritten (account definition) dp (with_authority d (Authority_new new))) /\
  (forall posts, revoke_authority definition signer = Ok posts ->
     is_authorized signer = true /\ admin a = Some (account_id signer) /\
     exists dp sp, posts = [PostState_new dp; sp] /\
       rewritten (account definition) dp (with_authority d renounced)) /\
  (a = renounced -> forall new holder n,
     rotate_authority definition signer new = Panic (display Renounced) /\
     revoke_authority definition signer = Panic (display Renounced) /\
     mint_with_authority definition holder signer n = Panic (display Renounced)).
Proof.
  intros Hd Ha. pose proof (borsh_decoded_wf _ _ Hd) as Wd.
  unfold rotate_authority, revoke_authority, mint_with_authority, definition_from.
  rewrite Hd. cbn [expect mbind outcome_bind].
  rewrite !(proj2 (fungible_authority_ok d _ a) Ha). cbn [mbind outcome_bind].
  split; [|split].
  - intros new posts Hnew Hr. inv_ok. apply authority_transfer_ok in Hs as [[? ?] ->].
    apply definition_data_ok in Hs0 as [-> ?]. split; [done|]. split; [done|].
    eexists _, _. split; [done|]. split; [by eauto|]. by apply decode_definition, with_authority_wf.
  - intros posts Hr. inv_ok. apply authority_revoke_ok in Hs as [[? ?] ->].
    apply definition_data_ok in Hs0 as [-> ?]. split; [done|]. split; [done|].
    eexists _, _. split; [done|]. split; [by eauto|]. by apply decode_definition, with_authority_wf.
  - intros -> new holder n. done.
Qed.

(** Program outputs of [transfer] satisfy the execution rules: on two
    distinct accounts whose owner is the token program (the recipient may also
    be unused), what the handler returns is well behaved, so no honest transfer
    is rejected by [validate_execution]. *)
Theorem transfer_well_behaved self sender recipient n posts :
  self <> DEFAULT_PROGRAM_ID ->
  account_id sender <> account_id recipient ->
  program_owner (account sender) = self ->
  (program_owner (account recipient) = self \/ account recipient = Account_default) ->
  in_u 128 (balance (account sender)) -> in_u 128 (balance (account recipient)) ->
  transfer sender recipient n = Ok posts ->
  validate_execution [sender; recipient] posts self = Ok ().
Proof.
  intros Hself Hne Hos Hor Hbs Hbr Ht. unfold transfer in Ht. inv_ok. destruct a3 as [hs' hr']. inv_ok.
  apply validate_execution_spec; [by rewrite !Forall_cons|by rewrite !Forall_cons|].
  split.
  - cbn. apply NoDup_cons. split; [|apply NoDup_singleton]. by rewrite list_elem_of_singleton.
  - apply Forall2_cons. split; [|apply Forall2_cons; split; [|done]]; split; cbn; try naive_solver lia.
    intros He. destruct Hor as [Hor|]; [|done]. destruct Hself. rewrite <- Hor. exact He.
  - done.
  - unfold in_u in *. cbn. lia.
Qed.
End TokenTheorems.

(** A definition created with [mint_authority: None], documented as disabling
    further minting from creation onward, can still be minted through the plain
    [Mint] instruction by whoever can authorize the definition account. *)
Theorem mint_after_permanent_revocation :
  exists dp hp posts d,
    new_fungible_definition_with_authority
      (mk_AWM Account_default true (sample_id 1)) (mk_AWM Account_default true (sample_id 2))
      "gold" 100 None = Ok [new_claimed dp Authorized; new_claimed hp Authorized] /\
    mint (mk_AWM (set_program_owner token_id dp) true (sample_id 1))
      (mk_AWM (set_program_owner token_id hp) false (sample_id 2)) 900 = Ok posts /\
    (borsh_try_from_slice (data_bytes (data dp)) = Some (DefFungible "gold" 100 None renounced)) /\
    (exists dp', posts !! 0%nat = Some dp' /\
       borsh_try_from_slice (data_bytes (data (post_account dp'))) = Some d /\ definition_supply d = 1000).
Proof.
  eexists _, _, _, _. split; [vm_compute; reflexivity|]. split; [vm_compute; reflexivity|].
  split; [vm_compute; reflexivity|].
  eexists. split; [reflexivity|]. split; vm_compute; reflexivity.
Qed.

(** ** Witnesses *)
Definition alice : AccountWithMetadata :=
  mk_AWM (sample_account token_id 0 (Fungible (sample_id 1) 100)) true (sample_id 2).
Definition bob : AccountWithMetadata :=
  mk_AWM (sample_account token_id 0 (Fungible (sample_id 1) 5)) false (sample_id 3).
Definition gold : AccountWithMetadata :=
  mk_AWM (sample_account token_id 0 (DefFungible "gold" 105 None (Authority_new (sample_id 9))))
    true (sample_id 1).
Definition boss : AccountWithMetadata := mk_AWM Account_default true (sample_id 9).

Lemma transfer_moves_witness :
  exists posts, transfer alice bob 30 = Ok posts /\
    exists hs hr hs' hr',
      recipient_of hs (account bob) hr /\ amount hs' = amount hs - 30 /\ amount hr' = amount hr + 30.
Proof.
  assert (Hrun : exists posts, transfer alice bob 30 = Ok posts) by (eexists; vm_compute; reflexivity).
  destruct Hrun as [posts Hrun]. exists posts. split; [exact Hrun|].
  destruct (transfer_moves alice bob 30 posts ltac:(lia) Hrun)
    as (_ & hs & hr & hs' & hr' & sp & rp & _ & Hr & _ & _ & _ & _ & _ & Ha & Hb & _).
  exists hs, hr, hs', hr'. auto.
Defined.

Lemma burn_reduces_supply_witness :
  exists posts, burn gold alice 30 = Ok posts /\
    exists d dp, rewritten (account gold) dp (with_supply d (definition_supply d - 30)).
Proof.
  assert (Hrun : exists posts, burn gold alice 30 = Ok posts) by (eexists; vm_compute; reflexivity).
  destruct Hrun as [posts Hrun]. exists posts. split; [exact Hrun|].
  destruct (burn_reduces_supply gold alice 30 posts ltac:(lia) Hrun)
    as (_ & d & h & h' & dp & hp & _ & _ & _ & _ & Hd & _).
  exists d, dp. exact Hd.
Defined.

Lemma mint_increases_supply_witness :
  exists posts, mint gold alice 30 = Ok posts /\
    exists d dp, rewritten (account gold) dp (with_supply d (definition_supply d + 30)).
Proof.
  assert (Hrun : exists posts, mint gold alice 30 = Ok posts) by (eexists; vm_compute; reflexivity).
  destruct Hrun as [posts Hrun]. exists posts. split; [exact Hrun|].
  destruct (mint_increases_supply gold alice 30 posts eq_refl ltac:(lia) Hrun)
    as (_ & d & h & h' & dp & hp & _ & _ & _ & _ & Hd & _).
  exists d, dp. exact Hd.
Defined.

Lemma authority_life_cycle_witness :
  exists posts, rotate_authority gold boss (sample_id 8) = Ok posts /\
    is_authorized boss = true /\
    exists dp sp, posts = [PostState_new dp; sp] /\
      rewritten (account gold) dp
        (with_authority (DefFungible "gold" 105 None (Authority_new (sample_id 9))) (Authority_new (sample_id 8))).
Proof.
  assert (Hrun : exists posts, rotate_authority gold boss (sample_id 8) = Ok posts) by (eexists; vm_compute; reflexivity).
  destruct Hrun as [posts Hrun]. exists posts. split; [exact Hrun|].
  assert (Hd : borsh_try_from_slice (data_bytes (data (account gold))) =
    Some (DefFungible "gold" 105 None (Authority_new (sample_id 9)))) by (vm_compute; reflexivity).
  destruct (authority_life_cycle gold boss _ (Authority_new (sample_id 9)) Hd eq_refl) as (Hrot & _ & _).
  destruct (Hrot (sample_id 8) posts eq_refl Hrun) as (Ha & _ & Hp).
  exact (conj Ha Hp).
Defined.

Lemma transfer_well_behaved_witness :
  exists posts, transfer alice bob 30 = Ok posts /\
    validate_execution [alice; bob] posts token_id = Ok ().
Proof.
  assert (Hrun : exists posts, transfer alice bob 30 = Ok posts) by (eexists; vm_compute; reflexivity).
  destruct Hrun as [posts Hrun]. exists posts. split; [exact Hrun|].
  apply (transfer_well_behaved token_id alice bob 30);
    [discriminate|discriminate|reflexivity|left; reflexivity|..|exact Hrun];
    vm_compute; split; congruence.
Defined.

(** ** The correctness of the programs that act on token holdings for their users:
    associated token accounts. *)
Import TokenClients.Ata.

Section AtaProperties.
Context `{Sha256, Borsh TokenHolding, Serde Token.Instruction}.

(** The address of the associated token account of an owner for a token. *)
Definition ata_id (p : ProgramId) (owner d : AccountId) : AccountId :=
  for_public_pda p (compute_ata_seed owner d).
Definition ata_call (program : ProgramId) (pres : list AccountWithMetadata) (i : Token.Instruction)
    (owner d : AccountId) : ChainedCall :=
  with_pda_seeds (ChainedCall_new program pres i) [compute_ata_seed owner d].

(** What each instruction promises for the accounts [owner], [b] and [c]: the
    calls it makes and the conditions under which it makes them. *)
Definition ata_spec (i : Instruction) (owner b c : AccountWithMetadata) (calls : list ChainedCall) : Prop :=
  match i with
  | Create p =>
      account_id c = ata_id p (account_id owner) (account_id b) /\
      calls = if decide (account c = Account_default)
              then [ata_call (program_owner (account b)) [b; authorized c] Token.InitializeAccount
                      (account_id owner) (account_id b)]
              else []
  | Transfer p n =>
      is_authorized owner = true /\ exists h, borsh_try_from_slice (data_bytes (data (account b))) = Some h /\
        account_id b = ata_id p (account_id owner) (definition_id h) /\
        calls = [ata_call (program_owner (account b)) [authorized b; c] (Token.Transfer n)
                   (account_id owner) (definition_id h)]
  | Burn p n =>
      is_authorized owner = true /\ exists h, borsh_try_from_slice (data_bytes (data (account b))) = Some h /\
        account_id b = ata_id p (account_id owner) (definition_id h) /\
        calls = [ata_call (program_owner (account b)) [c; authorized b] (Token.Burn n)
                   (account_id owner) (definition_id h)]
  end.

(** No collision of SHA-256 between the pairs of an owner and a token. *)
Definition seed_collision_free (o d o' d' : AccountId) : Prop :=
  hash_bytes (value o ++ value d) = hash_bytes (value o' ++ value d') ->
  value o ++ value d = value o' ++ value d'.

Lemma ata_handle_ok i owner b c posts calls :
  handle i [owner; b; c] = Ok (posts, calls) ->
  post_account <$> posts = account <$> [owner; b; c] /\ ata_spec i owner b c calls.
Proof.
  intros Hh. destruct i as [p|p n|p n]; cbn [handle array3] in Hh; cbv beta iota in Hh;
    cbn [mbind outcome_bind] in Hh.
  - unfold create_associated_token_account in Hh. apply bind_ok in Hh as (seed & Hv & Hh).
    apply verify_ata_ok in Hv as [-> Hid]. unfold new_claimed_if_default in Hh.
    destruct (decide (account c = Account_default)); [rewrite decide_False in Hh by naive_solver|
      rewrite decide_True in Hh by done]; injection Hh as <- <-;
      (split; [by case_decide|]; split; [done|]); [by rewrite decide_True|by rewrite decide_False].
  - unfold transfer_from_associated_token_account in Hh. inv_ok.
    match goal with Hv : verify_ata_and_get_seed _ _ _ _ = Ok _ |- _ => apply verify_ata_ok in Hv as [-> Hid] end.
    unfold holding_from in *. inv_ok. split; [done|]. split; [done|]. eexists. by split_and!.
  - unfold burn_from_associated_token_account in Hh. inv_ok.
    match goal with Hv : verify_ata_and_get_seed _ _ _ _ = Ok _ |- _ => apply verify_ata_ok in Hv as [-> Hid] end.
    unfold holding_from in *. inv_ok. split; [done|]. split; [done|]. eexists. by split_and!.
Qed.

(** C17. Associated token accounts: the program changes no account itself.
    [Create], which needs no authorization, makes one call, which initializes the
    account derived from the owner and the token, when that account is unused and no
    call otherwise.  [Transfer] and [Burn] succeed only with the authorization of the
    owner and only for the account derived from the owner and the token it holds, and
    make exactly one call, that transfer or burn of that amount.  A seed the program
    hands out is the seed of no other owner and token, barring a collision of
    SHA-256. *)
Theorem ata_acts_for_owner i owner b c posts calls :
  AccountId_wf (account_id owner) -> handle i [owner; b; c] = Ok (posts, calls) ->
  post_account <$> posts = account <$> [owner; b; c] /\ ata_spec i owner b c calls /\
  forall call, call ∈ calls -> exists d, cc_pda_seeds call = [compute_ata_seed (account_id owner) d] /\
    forall o' d', AccountId_wf o' -> seed_collision_free (account_id owner) d o' d' ->
      compute_ata_seed o' d' ∈ cc_pda_seeds call -> o' = account_id owner /\ d' = d.
Proof.
  intros Hwf Hh. apply ata_handle_ok in Hh as [Hposts Hspec]. split; [done|]. split; [done|].
  intros call Hc. assert (exists d, cc_pda_seeds call = [compute_ata_seed (account_id owner) d]) as [d Hd].
  { destruct i; cbn [ata_spec] in Hspec.
    - destruct Hspec as [_ ->]. case_decide; [|by apply not_elem_of_nil in Hc].
      apply list_elem_of_singleton in Hc as ->. by eexists.
    - destruct Hspec as (_ & h & _ & _ & ->). apply list_elem_of_singleton in Hc as ->. by eexists.
    - destruct Hspec as (_ & h & _ & _ & ->). apply list_elem_of_singleton in Hc as ->. by eexists. }
  exists d. split; [done|]. intros o' d' Hwf' Hcf. rewrite Hd. intros Hs%list_elem_of_singleton.
  by destruct (ata_seed_inj (account_id owner) d o' d' Hwf Hwf' Hcf (eq_sym Hs)) as [<- <-].
Qed.
End AtaProperties.

(** ** A concrete account *)
Definition ata_program : ProgramId := replicate 8 4.
Definition sample_owner : AccountWithMetadata := mk_AWM Account_default true (sample_id 1).
Definition sample_ata : AccountWithMetadata :=
  mk_AWM (sample_account token_id 0 (Fungible (sample_id 2) 100)) false (ata_id ata_program (sample_id 1) (sample_id 2)).
Definition sample_recipient : AccountWithMetadata :=
  mk_AWM (sample_account token_id 0 (Fungible (sample_id 2) 5)) false (sample_id 3).

Lemma ata_acts_for_owner_witness :
  exists posts calls,
    handle (Transfer ata_program 30) [sample_owner; sample_ata; sample_recipient] = Ok (posts, calls) /\
    ata_spec (Transfer ata_program 30) sample_owner sample_ata sample_recipient calls /\ length calls = 1%nat.
Proof.
  destruct (run_ok (handle (Transfer ata_program 30) [sample_owner; sample_ata; sample_recipient])
    (fun e => bool_decide (length e.2 = 1%nat))) as ([posts calls] & Hrun & Hcheck); [vm_compute; reflexivity|].
  exists posts, calls. split; [exact Hrun|].
  destruct (ata_acts_for_owner (Transfer ata_program 30) sample_owner sample_ata sample_recipient posts calls
    (eq_refl : AccountId_wf (account_id sample_owner)) Hrun) as (_ & Hspec & _).
  split; [exact Hspec|]. by apply bool_decide_eq_true_1 in Hcheck.
Defined.
