(* ===== verification/PublicTheorems.v ===== *)
(** Properties of public transactions: conservation, authority, nonces and
    replay, termination, and the authorization of chained calls. *)

From S2P Require Import Prelude Bytes Crypto Account Ids ProgramCore Borsh MerkleTree Host State Encryption CircuitIo Transactions StateDiffs PublicExecution NativePrograms Approval Token TokenFacts Instances.

Open Scope Z_scope.

Section Accepted.
Context `{Sha256, ZkVm, !ZkVmLaws, Schnorr, Borsh PublicMessage}.

(** Everything the acceptance of a public transaction says. *)
Record accepted (st : V03State) (block_id : BlockId) (ts : Timestamp) (tx : PublicTransaction)
    (diff : StateDiff) (tr : list Step) : Prop := {
  acc_diff : diff = mk_Diff (pub_signer_account_ids tx) (public_diff diff) [] [] None;
  acc_nonces : Forall2 (fun id n => nonce (get_account_by_id st id) = n)
                 (pub_signer_account_ids tx) (pub_nonces (pub_message tx));
  acc_runs : runs st block_id ts ∅ (initial_queue st tx) tr (public_diff diff);
  acc_length : Z.of_nat (length tr) <= MAX_NUMBER_CHAINED_CALLS + 1;
  acc_claimed : forall id a, public_diff diff !! id = Some a ->
    program_owner (get_account_by_id st id) = DEFAULT_PROGRAM_ID ->
    a = get_account_by_id st id \/ program_owner a <> DEFAULT_PROGRAM_ID;
}.

Lemma zip_Forall2 {A B} (P : A -> B -> Prop) l k :
  length l = length k -> Forall (fun p : A * B => P p.1 p.2) (zip l k) -> Forall2 P l k.
Proof.
  revert k; induction l as [|x l IH]; intros [|y k] Hl Hf; try done; constructor.
  - by apply Forall_cons in Hf as [? _].
  - apply IH; [by injection Hl|by apply Forall_cons in Hf as [_ ?]].
Qed.

Lemma check_nonces_ok st ids ns :
  length ids = length ns -> check_nonces st ids ns = Ok () <->
  Forall2 (fun id n => nonce (get_account_by_id st id) = n) ids ns.
Proof.
  intros Hl. unfold check_nonces. rewrite iter_o_ok. split.
  - intros Hf. apply zip_Forall2; [done|]. eapply Forall_impl; [exact Hf|]. cbn. intros p Hp; by inv_ok.
  - induction 1; constructor; [|apply IHForall2; by injection Hl]. cbn. by rewrite bool_decide_true.
Qed.

Lemma length_signers tx :
  length (pub_signer_account_ids tx) = length (pub_signatures (pub_witness_set tx)).
Proof. apply length_fmap. Qed.

Lemma from_public_ok st block_id ts tx diff :
  from_public_transaction st block_id ts tx = Ok diff ->
  exists tr, accepted st block_id ts tx diff tr.
Proof.
  unfold from_public_transaction. intros Ht. inv_ok.
  destruct (call_loop st block_id ts MAX_LOOP_FUEL 0 ∅ (initial_queue st tx)) as [r|] eqn:Hl;
    [subst r|done].
  apply call_loop_runs in Hl as (tr & Hruns & Hlen).
  exists tr. cbn. unfold check_public_message in Hs. inv_ok. split; cbn; try done.
  - apply check_nonces_ok in Hs; [done|]. rewrite length_signers. congruence.
  - apply Hlen. done.
  - intros id x Hid Hown. rewrite iter_o_ok, Forall_forall in Hs1.
    specialize (Hs1 (id, x)). rewrite elem_of_map_to_list in Hs1. specialize (Hs1 Hid).
    unfold check_claimed in Hs1. cbn [fst snd] in Hs1. rewrite decide_False in Hs1 by naive_solver.
    case_decide; [by left|]. inv_ok. by right.
Qed.

Lemma public_transition_ok st tx block_id ts st' :
  transition_from_public_transaction st tx block_id ts = Ok st' ->
  exists diff tr, accepted st block_id ts tx diff tr /\ apply_state_diff st diff = Ok st'.
Proof.
  unfold transition_from_public_transaction. intros Ht. inv_ok.
  destruct (from_public_ok _ _ _ _ _ Hs) as [tr Htr]. eauto.
Qed.

Lemma expected_empty st id : expected_account st ∅ id = get_account_by_id st id.
Proof. unfold expected_account. by rewrite lookup_empty. Qed.

(** The account of [id] after the transition, relative to the final diff. *)
Lemma accepted_account st block_id ts tx diff tr st' id :
  accepted st block_id ts tx diff tr -> apply_state_diff st diff = Ok st' ->
  nonce_bumped (occurrences id (pub_signer_account_ids tx))
    (expected_account st (public_diff diff) id) (get_account_by_id st' id).
Proof.
  intros [Hd _ _ _ _] (Hacc & _)%apply_state_diff_ok. specialize (Hacc id).
  rewrite Hd in Hacc. cbn in Hacc. exact Hacc.
Qed.

(** C1. Conservation: an accepted public transaction, whatever programs it
    runs, does not change the total native balance of the public accounts. *)
Theorem public_transaction_conserves_balance st tx block_id ts st' :
  transition_from_public_transaction st tx block_id ts = Ok st' ->
  total_balance (public_state st') = total_balance (public_state st).
Proof.
  intros (diff & tr & [_ _ Hruns _ _] & Happ)%public_transition_ok.
  apply apply_state_diff_ok in Happ as (_ & -> & _).
  rewrite (runs_total _ _ _ _ _ _ _ Hruns). by rewrite (left_id_L ∅ (∪)).
Qed.

(** C2. Authority: an account owned by a program keeps its owner, and loses
    balance or changes data only if its owner was executed in the transaction;
    an unowned account that changed (beyond the nonce) was claimed by a program
    that was executed. *)
Theorem public_transaction_authority st tx block_id ts st' :
  transition_from_public_transaction st tx block_id ts = Ok st' ->
  exists tr, (exists d, runs st block_id ts ∅ (initial_queue st tx) tr d) /\
  forall id, let pre := get_account_by_id st id in let post := get_account_by_id st' id in
  (program_owner pre <> DEFAULT_PROGRAM_ID ->
     program_owner post = program_owner pre /\
     (program_owner pre ∉ executed tr -> balance pre <= balance post /\ data post = data pre)) /\
  (program_owner pre = DEFAULT_PROGRAM_ID ->
     (balance post = balance pre /\ data post = data pre /\ program_owner post = program_owner pre) \/
     (program_owner post <> DEFAULT_PROGRAM_ID /\ program_owner post ∈ executed tr)).
Proof.
  intros (diff & tr & Hacc & Happ)%public_transition_ok.
  pose proof Hacc as [_ _ Hruns _ Hcl]. exists tr. split; [by eexists|]. intros id pre post.
  pose proof (accepted_account _ _ _ _ _ _ _ id Hacc Happ) as [Ho Hb Hd _].
  fold post in Ho, Hb, Hd. rewrite Ho, Hb, Hd.
  pose proof (runs_owner _ _ _ _ _ _ _ Hruns id) as Hown.
  pose proof (runs_authority _ _ _ _ _ _ _ Hruns id) as Hauth.
  rewrite expected_empty in Hown, Hauth. fold pre in Hown, Hauth. split.
  - intros Hne. destruct Hown as [Hown|[? _]]; [|done]. split; [done|]. intros Hex. by apply Hauth.
  - intros He. destruct (public_diff diff !! id) as [a|] eqn:Hid.
    + destruct (Hcl id a Hid) as [->|Hn]; [done| |].
      * left. unfold expected_account. rewrite Hid. done.
      * right. assert (Ha : expected_account st (public_diff diff) id = a)
          by (unfold expected_account; by rewrite Hid). rewrite Ha in *.
        destruct Hown as [Hown|[_ Hown]]; [congruence|done].
    + left. unfold expected_account. by rewrite Hid.
Qed.

(** Nonces: every account's nonce grows by the number of times it signed,
    and the transaction carried the nonces the signers had before. *)
Theorem public_transaction_nonces st tx block_id ts st' :
  transition_from_public_transaction st tx block_id ts = Ok st' ->
  Forall2 (fun id n => nonce (get_account_by_id st id) = n)
    (pub_signer_account_ids tx) (pub_nonces (pub_message tx)) /\
  forall id, nonce (get_account_by_id st' id) =
    nonce (get_account_by_id st id) + Z.of_nat (occurrences id (pub_signer_account_ids tx)).
Proof.
  intros (diff & tr & Hacc & Happ)%public_transition_ok. pose proof Hacc as [_ Hn Hruns _ _].
  split; [done|]. intros id.
  pose proof (accepted_account _ _ _ _ _ _ _ id Hacc Happ) as [_ _ _ Hb].
  by rewrite Hb, (runs_nonce _ _ _ _ _ _ _ Hruns), expected_empty.
Qed.

Lemma occurrences_pos id ids : id ∈ ids -> (0 < occurrences id ids)%nat.
Proof.
  intros Hin. unfold occurrences. destruct (filter (fun i => i = id) ids) eqn:Hf; [|cbn; lia].
  assert (Hx : id ∈ filter (fun i => i = id) ids) by (apply list_elem_of_filter; done).
  rewrite Hf in Hx. set_solver.
Qed.

(** C3. Replay protection: a public transaction with at least one signer that
    was applied is rejected for ever after, as long as the nonces of its
    signers have only grown. *)
Theorem public_transaction_replay st tx block_id ts st' st'' block_id' ts' :
  pub_signer_account_ids tx <> [] ->
  transition_from_public_transaction st tx block_id ts = Ok st' ->
  (forall id, nonce (get_account_by_id st' id) <= nonce (get_account_by_id st'' id)) ->
  is_ok (transition_from_public_transaction st'' tx block_id' ts') = false.
Proof.
  intros Hne Ht Hmono.
  destruct (transition_from_public_transaction st'' tx block_id' ts') as [st3| |] eqn:Ht'; [|done..].
  apply public_transition_ok in Ht as (diff & tr & Hacc & Happ). pose proof Hacc as [_ Hn Hruns _ _].
  apply public_transition_ok in Ht' as (diff' & tr' & [_ Hn' _ _ _] & _).
  destruct (pub_signer_account_ids tx) as [|id ids] eqn:Hids; [done|].
  apply Forall2_cons_inv_l in Hn as (n & ns & Hnid & _ & Hns).
  apply Forall2_cons_inv_l in Hn' as (n' & ns' & Hnid' & _ & Hns').
  rewrite Hns in Hns'. injection Hns' as <- _.
  specialize (Hmono id).
  pose proof (accepted_account _ _ _ _ _ _ _ id Hacc Happ) as [_ _ _ Hb].
  rewrite Hb, (runs_nonce _ _ _ _ _ _ _ Hruns), expected_empty in Hmono.
  pose proof (occurrences_pos id (pub_signer_account_ids tx)) as Hp.
  rewrite Hids in Hp. specialize (Hp ltac:(left)). rewrite Hids in Hmono. lia.
Qed.
End Accepted.

(** C4. The chained-call loop terminates: from [MAX_LOOP_FUEL] on, the fuel does
    not change the result, so [from_public_transaction] never runs out of it. *)
Theorem chained_calls_terminate `{Sha256, ZkVm, Schnorr} st block_id ts tx :
  exists r, forall fuel, (MAX_LOOP_FUEL <= fuel)%nat ->
    call_loop st block_id ts fuel 0 ∅ (initial_queue st tx) = Some r.
Proof.
  destruct (call_loop_total st block_id ts MAX_LOOP_FUEL 0 ∅ (initial_queue st tx)) as [r Hr];
    [unfold MAX_NUMBER_CHAINED_CALLS, MAX_LOOP_FUEL; lia|unfold MAX_LOOP_FUEL; lia|].
  exists r. intros fuel Hf. by eapply call_loop_mono.
Qed.

(** When every executed program reports exactly the accounts it was called
    with, no account is ever authorized in a call unless it signed the
    transaction or is a PDA of a program executed in it. *)
Theorem honest_programs_authorization `{Sha256, ZkVm, !ZkVmLaws, Schnorr} st block_id ts tx tr d :
  runs st block_id ts ∅ (initial_queue st tx) tr d ->
  Forall (fun s => pre_states (s_output s) = cc_pre_states (s_call s)) tr ->
  Forall (fun s => Forall (fun pre => is_authorized pre = true ->
      rightfully_authorized (pub_signer_account_ids tx) (executed tr) (account_id pre))
    (pre_states (s_output s))) tr.
Proof.
  intros Hruns Hecho. eapply runs_rightful; [exact Hruns| |exact Hecho|].
  - constructor; [|constructor]. split; [|done]. intros id Hid. left.
    by apply (elem_of_list_to_set (C := gset AccountId)).
  - intros s Hs. unfold executed. by apply (list_elem_of_fmap_2 (cc_program_id ∘ s_call)).
Qed.

(** C5. Without that hypothesis authorization can be forged: the authorized
    accounts handed to chained calls come from the caller's unverified
    [pre_states], and a transaction that nobody signed empties Alice's account. *)
Theorem authorization_can_be_forged :
  exists st',
    pub_signer_account_ids theft = [] /\
    balance (get_account_by_id sample_state alice_id) = 100 /\
    transition_from_public_transaction sample_state theft 1 1 = Ok st' /\
    balance (get_account_by_id st' alice_id) = 0 /\
    balance (get_account_by_id st' bob_id) = 105.
Proof.
  destruct (run_ok (transition_from_public_transaction sample_state theft 1 1)
    (fun st' => bool_decide (balance (get_account_by_id st' alice_id) = 0) &&
                bool_decide (balance (get_account_by_id st' bob_id) = 105))) as (st' & Hrun & Hb);
    [vm_compute; reflexivity|].
  apply andb_true_iff in Hb as [Ha%bool_decide_eq_true Hb%bool_decide_eq_true].
  exists st'. split; [reflexivity|]. split; [vm_compute; reflexivity|]. auto.
Qed.

(** ** Witnesses *)
Lemma payment_ok : exists st', transition_from_public_transaction sample_state payment 1 1 = Ok st'.
Proof.
  destruct (run_ok (transition_from_public_transaction sample_state payment 1 1) (fun _ => true))
    as (st' & Hrun & _); [vm_compute; reflexivity|]. by exists st'.
Qed.

Lemma public_transaction_conserves_balance_witness :
  exists st', transition_from_public_transaction sample_state payment 1 1 = Ok st' /\
    total_balance (public_state st') = total_balance (public_state sample_state).
Proof.
  destruct payment_ok as [st' Hrun]. exists st'. split; [exact Hrun|].
  exact (public_transaction_conserves_balance sample_state payment 1 1 st' Hrun).
Defined.

Lemma public_transaction_authority_witness :
  exists st' tr, transition_from_public_transaction sample_state payment 1 1 = Ok st' /\
    exists d, runs sample_state 1 1 ∅ (initial_queue sample_state payment) tr d.
Proof.
  destruct payment_ok as [st' Hrun].
  destruct (public_transaction_authority sample_state payment 1 1 st' Hrun) as (tr & Hd & _).
  exists st', tr. exact (conj Hrun Hd).
Defined.

Lemma public_transaction_nonces_witness :
  exists st', transition_from_public_transaction sample_state payment 1 1 = Ok st' /\
    nonce (get_account_by_id st' alice_id) = nonce (get_account_by_id sample_state alice_id) +
      Z.of_nat (occurrences alice_id (pub_signer_account_ids payment)).
Proof.
  destruct payment_ok as [st' Hrun]. exists st'. split; [exact Hrun|].
  destruct (public_transaction_nonces sample_state payment 1 1 st' Hrun) as [_ Hn]. exact (Hn alice_id).
Defined.

Lemma public_transaction_replay_witness :
  exists st', transition_from_public_transaction sample_state payment 1 1 = Ok st' /\
    is_ok (transition_from_public_transaction st' payment 2 2) = false.
Proof.
  destruct payment_ok as [st' Hrun]. exists st'. split; [exact Hrun|].
  apply (public_transaction_replay sample_state payment 1 1 st' st' 2 2); [discriminate|exact Hrun|].
  intros id. apply Z.le_refl.
Defined.

Lemma honest_programs_authorization_witness :
  exists tr d, runs sample_state 1 1 ∅ (initial_queue sample_state payment) tr d /\
    Forall (fun s => Forall (fun pre => is_authorized pre = true ->
        rightfully_authorized (pub_signer_account_ids payment) (executed tr) (account_id pre))
      (pre_states (s_output s))) tr.
Proof.
  assert (Hruns : exists o d, runs sample_state 1 1 ∅ (initial_queue sample_state payment)
    [mk_Step (mk_ChainedCall auth_id (input_pre_states sample_state (pub_signer_account_ids payment)
       [alice_id; bob_id]) [0; 30] []) (mk_Caller None (list_to_set (pub_signer_account_ids payment))) o] d /\
    pre_states o = input_pre_states sample_state (pub_signer_account_ids payment) [alice_id; bob_id]).
  { eexists _, _. split.
    - unfold initial_queue. eapply runs_call; [vm_compute; reflexivity|vm_compute; reflexivity| |].
      + vm_compute. reflexivity.
      + constructor.
    - vm_compute. reflexivity. }
  destruct Hruns as (o & d & Hruns & Hpre). eexists _, d. split; [exact Hruns|].
  apply (honest_programs_authorization sample_state 1 1 payment _ d Hruns).
  constructor; [exact Hpre|constructor].
Defined.
