(* ===== verification/StateTheorems.v ===== *)
(** Properties of the chain state: commitments and their membership proofs,
    genesis, the Merkle tree against its reference, executions and encodings. *)

From S2P Require Import Prelude Bytes Crypto Account Ids ProgramCore Borsh MerkleTree Host State Encryption CircuitIo Transactions StateDiffs PublicExecution NativePrograms Approval Token TokenFacts Instances PublicTheorems.

Open Scope Z_scope.

(** The table of default values agrees with SHA-256. *)
Lemma consecutive_ok {A} (f : A * A -> bool) (l : list A) i d d' :
  forallb f (zip l (tl l)) = true -> l !! i = Some d -> l !! S i = Some d' -> f (d, d') = true.
Proof.
  intros Hall Hd Hd'. rewrite forallb_forall in Hall. apply Hall.
  apply list_elem_of_In, list_elem_of_lookup. exists i. apply lookup_zip_with_Some.
  exists d, d'. split; [done|]. split; [done|]. by rewrite lookup_tail.
Qed.
Definition is_double_hash (p : list byte * list byte) : bool :=
  bool_decide (p.2 = hash_two p.1 p.1).
Lemma default_values_chain : forallb is_double_hash (zip DEFAULT_VALUES (tl DEFAULT_VALUES)) = true.
Proof. vm_compute. reflexivity. Qed.
#[global] Instance defaults_chain_sha256 : DefaultsChain.
Proof.
  intros i d d' Hd Hd'.
  pose proof (consecutive_ok is_double_hash DEFAULT_VALUES i d d' default_values_chain Hd Hd') as Hb.
  by apply bool_decide_eq_true in Hb.
Qed.

(** Genesis: the state built from any initial accounts satisfies the
    invariant, its commitments are the dummy one and the initial ones, its
    nullifiers the initial ones, and the clock accounts and the built-in programs
    are in place. *)
Theorem genesis_state_inv `{Sha256, !DefaultsChain, BuiltinPrograms, Borsh ClockAccountData}
    (accounts : list (AccountId * Z)) (privs : list (Commitment * Nullifier)) ts :
  Z.of_nat (length privs) < 2 ^ 31 ->
  Z.of_nat (length (borsh_to_vec (mk_ClockData 0 ts))) <= DATA_MAX_LENGTH ->
  exists st, new_with_genesis_accounts accounts privs ts = Ok st /\
    state_inv st (DUMMY_COMMITMENT :: privs.*1) /\
    (forall n, n ∈ (private_state st).2 <-> n ∈ privs.*2) /\
    Forall (fun id => get_account_by_id st id =
        mk_Account (program_id clock_program) 0 (mk_Data (borsh_to_vec (mk_ClockData 0 ts))) 0)
      CLOCK_PROGRAM_ACCOUNT_IDS /\
    is_Some (programs st !! program_id faucet_program).
Proof.
  intros Hlen Hclk. unfold new_with_genesis_accounts.
  destruct cs_with_capacity_represents as (cs0 & H0cs & Hr0).
  pose proof H0cs as Hempty. apply cs_with_capacity_history in Hempty. rewrite H0cs. cbn [mbind outcome_bind].
  destruct (cs_extend_represents [DUMMY_COMMITMENT] 5 cs0 []) as (cs1 & D1 & HD1 & H1cs & Hr1 & Hh1);
    [lia|done|cbn; lia|].
  rewrite H1cs. cbn [mbind outcome_bind].
  destruct (cs_extend_represents privs.*1 D1 cs1 ([] ++ [DUMMY_COMMITMENT])) as (cs2 & D2 & HD2 & H2cs & Hr2 & Hh2);
    [done|done|rewrite length_fmap, length_app; cbn [length]; lia|].
  rewrite H2cs. cbn [mbind outcome_bind].
  unfold insert_clock_accounts, CLOCK_PROGRAM_ACCOUNT_IDS. cbn [fold_o].
  unfold Data_try_from. rewrite decide_False by lia. cbn [mbind outcome_bind].
  eexists. split; [reflexivity|]. cbn [foldl insert_program with_public private_state programs public_state].
  split; [|split; [|split]].
  - split; cbn; [exists D2; split; [done|exact Hr2]|rewrite Hh2; set_solver|].
    intros r. rewrite Hh2, Hh1, Hempty. rewrite !elem_of_union, !elem_of_singleton.
    intros [->|[->|Hr]]; [eexists; split; [|done]; done| |set_solver].
    exists [DUMMY_COMMITMENT]. split; [|done]. by apply prefix_cons, prefix_nil.
  - intros n. cbn. rewrite ns_extend_elem. set_solver.
  - assert (Hne : NoDup [CLOCK_01_PROGRAM_ACCOUNT_ID; CLOCK_10_PROGRAM_ACCOUNT_ID; CLOCK_50_PROGRAM_ACCOUNT_ID])
      by (apply (bool_decide_unpack _); vm_compute; exact I).
    apply NoDup_cons in Hne as [Hn1 [Hn2 _]%NoDup_cons].
    unfold get_account_by_id, insert_program, with_public. cbn [public_state]. rewrite !Forall_cons.
    split; [|split; [|split; [|constructor]]].
    + rewrite lookup_insert_ne by set_solver. rewrite lookup_insert_ne by set_solver.
      by rewrite lookup_insert_eq.
    + rewrite lookup_insert_ne by set_solver. by rewrite lookup_insert_eq.
    + by rewrite lookup_insert_eq.
  - unfold insert_program. cbn [programs]. rewrite lookup_insert_eq. eauto.
Qed.

(** Applying any diff keeps the invariant, appends exactly its commitments and
    nullifiers, forgets no digest of the history, and only adds its program. *)
Theorem apply_state_diff_preserves_inv `{Sha256, !DefaultsChain} st vs diff st' :
  state_inv st vs -> Z.of_nat (length vs + length (new_commitments diff)) <= 2 ^ 31 ->
  apply_state_diff st diff = Ok st' ->
  state_inv st' (vs ++ new_commitments diff) /\
  root_history (private_state st).1 ⊆ root_history (private_state st').1 /\
  (forall n, n ∈ (private_state st').2 <-> n ∈ (private_state st).2 \/ n ∈ new_nullifiers diff) /\
  (forall p, programs st' !! p = match diff_program diff with
     | Some q => if decide (program_id q = p) then Some q else programs st !! p
     | None => programs st !! p end).
Proof.
  intros Hinv Hlen Happ. destruct (apply_inv st vs diff st' Hinv Hlen Happ) as [Hinv' Hhist].
  apply apply_state_diff_ok in Happ as (_ & _ & _ & Hns & Hp).
  split; [done|]. split; [done|]. split.
  - intros n. rewrite Hns. apply ns_extend_elem.
  - intros p. rewrite Hp. destruct (diff_program diff) as [q|]; [|done].
    case_decide as Hq; [subst; by rewrite lookup_insert_eq|by rewrite lookup_insert_ne].
Qed.

(** ** Properties of the core data: encodings, execution rules, Merkle tree. *)

(** C13. [validate_execution] accepts exactly the well-behaved executions: distinct
    accounts, nonces and owners untouched, balances decreased and data changed only
    by the owner, no modified account left unowned, and the same exact total of
    balances (below 2^256). *)
Theorem validate_execution_iff_well_behaved pre post executing :
  Forall (fun a => in_u 128 (balance (account a))) pre ->
  Forall (fun a => in_u 128 (balance (post_account a))) post ->
  validate_execution pre post executing = Ok () <-> well_behaved executing pre post.
Proof. apply validate_execution_spec. Qed.

(** The byte encoding of accounts is canonical: every well-formed account
    encodes, its encoding decodes to it in front of any other bytes, and whatever
    decodes is well formed and was the encoding of the result. *)
Theorem account_encoding_canonical :
  (forall a rest, Account_wf a ->
     exists bs, Account_to_bytes (E := NssaError) a = Ok bs /\ Account_from_cursor (bs ++ rest) = Ok (a, rest)) /\
  (forall c a rest, Account_from_cursor c = Ok (a, rest) ->
     Account_wf a /\ exists bs, Account_to_bytes (E := NssaError) a = Ok bs /\ c = bs ++ rest).
Proof.
  split; [intros a rest Ha; by apply Account_from_to_bytes|].
  intros c a rest Hc. by apply (Account_from_cursor_canonical (E := NssaError)) in Hc.
Qed.

(** Note headers: [from_header_bytes] inverts [to_header_bytes] on every
    private account kind, which always fills exactly [HEADER_LEN] bytes. *)
Theorem header_roundtrip k :
  PrivateAccountKind_wf k ->
  length (to_header_bytes k) = HEADER_LEN /\ from_header_bytes (to_header_bytes k) = Some k.
Proof. intros Hk. split; [by apply length_to_header_bytes|by apply from_to_header_bytes]. Qed.

Section Tree.
Context `{Sha256, !DefaultsChain}.

Lemma insert_all_represents D t vs ws :
  (D < 32)%nat -> represents D t vs -> Z.of_nat (length vs + length ws) <= 2 ^ 31 ->
  exists t' D', (D' < 32)%nat /\
    fold_o (fun t v => '(t, _) ← insert (E := NssaError) t v; Ok t) t ws = Ok t' /\
    represents D' t' (vs ++ ws).
Proof.
  revert D t vs; induction ws as [|w ws IH]; intros D t vs HD Hr Hlen.
  - exists t, D. by rewrite app_nil_r.
  - change (length (w :: ws)) with (S (length ws)) in Hlen.
    assert (HD' : ((if decide (length vs = 2 ^ D) then S D else D) < 32)%nat).
    { case_decide as He; [|done]. eapply room_below; [exact He|lia]. }
    destruct (insert_represents (E := NssaError) D t vs w Hr HD') as (t1 & H1 & Hr1).
    destruct (IH _ t1 (vs ++ [w]) HD' Hr1) as (t2 & D2 & HD2 & H2 & Hr2).
    { rewrite length_app. cbn [length]. lia. }
    exists t2, D2. cbn [fold_o]. rewrite H1. cbn [mbind outcome_bind]. rewrite <- app_assoc in Hr2. auto.
Qed.

(** C12. The array implementation of the Merkle tree, with its reallocation and
    its stale upper nodes, computes the tree of the inserted values: the root is
    the root of the reference tree, and every index has the reference path, which
    verifies against that root. *)
Theorem merkle_tree_refines_reference D ws :
  (D < 32)%nat -> Z.of_nat (length ws) <= 2 ^ 31 ->
  exists t, (t0 ← with_capacity (2 ^ D);
             fold_o (fun t v => '(t, _) ← insert (E := NssaError) t v; Ok t) t0 ws) = Ok t /\
    root (E := NssaError) t = Ok (merkle_root ws) /\
    (forall i, get_authentication_path_for (E := NssaError) t i =
       Ok (if decide (length ws <= i)%nat then None
           else Some (sibling_path ws 0 (Nat.log2_up (length ws)) i))) /\
    (forall i v, ws !! i = Some v ->
       compute_digest_for_path (mk_Commitment v)
         (Z.of_nat i, sibling_path ws 0 (Nat.log2_up (length ws)) i) = merkle_root ws).
Proof.
  intros HD Hlen. destruct (with_capacity_represents (E := NssaError) D HD) as (t0 & Ht0 & Hr0).
  destruct (insert_all_represents D t0 [] ws HD Hr0) as (t & D' & HD' & Ht & Hr);
    [by rewrite Nat.add_0_l|].
  exists t. rewrite Ht0. cbn [mbind outcome_bind]. split; [done|]. cbn [app] in Hr. split; [by apply (root_spec D')|].
  split; [intros i; by apply (authentication_path_spec D')|]. intros i v. apply digest_for_path_spec.
Qed.
End Tree.

(** ** Witnesses *)
Lemma validate_execution_iff_well_behaved_witness :
  validate_execution [alice_pre; bob_pre] [PostState_new (funds 70); PostState_new (funds 35)] auth_id = Ok () <->
  well_behaved auth_id [alice_pre; bob_pre] [PostState_new (funds 70); PostState_new (funds 35)].
Proof.
  apply validate_execution_iff_well_behaved; apply (bool_decide_unpack _); vm_compute; exact I.
Defined.

Lemma header_roundtrip_witness :
  length (to_header_bytes (Regular 5)) = HEADER_LEN /\
  from_header_bytes (to_header_bytes (Regular 5)) = Some (Regular 5).
Proof. apply header_roundtrip. split; [split; [discriminate|reflexivity]|exact I]. Defined.

Lemma merkle_tree_refines_reference_witness :
  exists t, (t0 ← with_capacity (2 ^ 0);
             fold_o (fun t v => '(t, _) ← insert (E := NssaError) t v; Ok t) t0
               [zeros 32; DUMMY_COMMITMENT_HASH; zeros 32]) = Ok t /\
    root (E := NssaError) t = Ok (merkle_root [zeros 32; DUMMY_COMMITMENT_HASH; zeros 32]).
Proof.
  destruct (merkle_tree_refines_reference 0 [zeros 32; DUMMY_COMMITMENT_HASH; zeros 32])
    as (t & Ht & Hr & _); [lia|cbn; lia|]. exists t. exact (conj Ht Hr).
Defined.
