(* ===== verification/PrivacyTheorems.v ===== *)
(** Properties of privacy preserving transactions and program deployments. *)

From S2P Require Import Prelude Bytes Crypto Account Ids ProgramCore Borsh MerkleTree Host State Encryption CircuitIo Transactions StateDiffs PublicExecution NativePrograms Approval Token TokenFacts Instances PublicTheorems StateTheorems.

Open Scope Z_scope.

Section Privacy.
Context `{Sha256, Schnorr, Borsh PrivacyMessage, Receipts, Serde PrivacyPreservingCircuitOutput}.

(** What the acceptance of a privacy preserving transaction says. *)
Record priv_accepted (st : V03State) (block_id : BlockId) (ts : Timestamp)
    (tx : PrivacyPreservingTransaction) : Prop := {
  pa_nonempty : priv_new_commitments (priv_message tx) <> [] \/ priv_new_nullifiers (priv_message tx) <> [];
  pa_accounts : NoDup (public_account_ids (priv_message tx));
  pa_commitments : NoDup (priv_new_commitments (priv_message tx));
  pa_nullifiers : NoDup (priv_new_nullifiers (priv_message tx));
  pa_nonces : Forall2 (fun id n => nonce (get_account_by_id st id) = n)
                (priv_signer_account_ids tx) (priv_nonces (priv_message tx));
  pa_windows : is_valid_for (priv_block_validity_window (priv_message tx)) block_id = true /\
               is_valid_for (priv_timestamp_validity_window (priv_message tx)) ts = true;
  pa_proof : proof_is_valid_for (E := NssaError) (proof (priv_witness_set tx))
      (circuit_output_of (input_pre_states st (priv_signer_account_ids tx)
         (public_account_ids (priv_message tx))) (priv_message tx)) = Ok true;
  pa_fresh c : c ∈ priv_new_commitments (priv_message tx) -> cs_contains (private_state st).1 c = false;
  pa_unspent n : n ∈ (priv_new_nullifiers (priv_message tx)).*1 -> n ∉ (private_state st).2;
  pa_roots r : r ∈ (priv_new_nullifiers (priv_message tx)).*2 -> r ∈ root_history (private_state st).1;
}.

Lemma distinct_NoDup {A} `{EqDecision A} (l : list A) : n_distinct l = length l -> NoDup l.
Proof. apply n_distinct_NoDup. Qed.

Lemma from_privacy_ok st block_id ts tx diff :
  from_privacy_preserving_transaction st block_id ts tx = Ok diff ->
  priv_accepted st block_id ts tx /\
  diff = mk_Diff (priv_signer_account_ids tx)
    (zip_to_map (public_account_ids (priv_message tx)) (public_post_states (priv_message tx)))
    (priv_new_commitments (priv_message tx)) (priv_new_nullifiers (priv_message tx)).*1 None.
Proof.
  unfold from_privacy_preserving_transaction. intros Ht. inv_ok.
  unfold check_privacy_preserving_circuit_proof_is_valid in Hs0. inv_ok.
  unfold check_commitments_are_new in Hs1. unfold check_nullifiers_are_valid in Hs2.
  rewrite iter_o_ok, Forall_forall in Hs1. rewrite iter_o_ok, Forall_forall in Hs2.
  unfold check_privacy_message in Hs. inv_ok. split; [|done].
  split; try done; try (by apply distinct_NoDup).
  - apply orb_true_iff in Hs4 as [Hn|Hn]; apply negb_true_iff, bool_decide_eq_false in Hn; auto.
  - apply check_nonces_ok; [|done]. rewrite Hs8. apply length_fmap.
  - by subst.
  - intros c Hc. specialize (Hs1 c Hc). cbn in Hs1. inv_ok. by apply negb_true_iff in Hs1.
  - intros n ([n' d] & -> & Hn)%list_elem_of_fmap. specialize (Hs2 _ Hn).
    apply bind_ok in Hs2 as ([] & Hu & _). apply ensure_ok in Hu.
    by apply negb_true_iff, bool_decide_eq_false in Hu.
  - intros r ([n' d] & -> & Hn)%list_elem_of_fmap. specialize (Hs2 _ Hn).
    apply bind_ok in Hs2 as ([] & _ & Hu). apply ensure_ok in Hu. by apply bool_decide_eq_true in Hu.
Qed.

(** C6. An accepted privacy preserving transaction was proved against the
    current public accounts, is inside its validity windows, creates only new
    commitments, spends only unspent nullifiers against recognised digests, and
    its application records all of them, leaves the programs alone and keeps the
    state invariant. *)
Theorem privacy_transaction_sound `{!DefaultsChain} st vs block_id ts tx st' :
  state_inv st vs ->
  Z.of_nat (length vs + length (priv_new_commitments (priv_message tx))) <= 2 ^ 31 ->
  transition_from_privacy_preserving_transaction st tx block_id ts = Ok st' ->
  priv_accepted st block_id ts tx /\
  (forall c, c ∈ priv_new_commitments (priv_message tx) -> c ∉ vs) /\
  state_inv st' (vs ++ priv_new_commitments (priv_message tx)) /\
  (forall n, n ∈ (private_state st').2 <->
     n ∈ (private_state st).2 \/ n ∈ (priv_new_nullifiers (priv_message tx)).*1) /\
  programs st' = programs st.
Proof.
  intros Hinv Hlen Ht. unfold transition_from_privacy_preserving_transaction in Ht. inv_ok.
  apply from_privacy_ok in Hs as [Hacc ->].
  pose proof Ht as Hinv'. apply (apply_inv st vs _ st' Hinv) in Hinv' as [Hinv' _]; [|exact Hlen].
  apply apply_state_diff_ok in Ht as (_ & _ & _ & Hns & Hp).
  split; [done|]. split; [|split; [done|split; [|done]]].
  - intros c Hc Hin. destruct Hinv as [(D & _ & Hcs) _ _].
    apply (cs_contains_spec D _ vs c Hcs) in Hin.
    pose proof (pa_fresh _ _ _ _ Hacc c Hc). congruence.
  - intros n. rewrite Hns. apply ns_extend_elem.
Qed.

(** C7. No double spending across transactions: once a transaction spending a
    nullifier was applied, every transaction spending it again is rejected in
    any later state (one whose nullifier set has only grown). *)
Theorem nullifier_spent_once st tx block_id ts st' st'' tx' block_id' ts' n :
  transition_from_privacy_preserving_transaction st tx block_id ts = Ok st' ->
  (private_state st').2 ⊆ (private_state st'').2 ->
  n ∈ (priv_new_nullifiers (priv_message tx)).*1 ->
  n ∈ (priv_new_nullifiers (priv_message tx')).*1 ->
  is_ok (transition_from_privacy_preserving_transaction st'' tx' block_id' ts') = false.
Proof.
  intros Ht Hsub Hn Hn'. unfold transition_from_privacy_preserving_transaction in *. inv_ok.
  apply from_privacy_ok in Hs as [_ ->].
  apply apply_state_diff_ok in Ht as (_ & _ & _ & Hns & _).
  destruct (from_privacy_preserving_transaction st'' block_id' ts' tx') as [diff'| |] eqn:Hf; [|done..].
  apply from_privacy_ok in Hf as [Hacc' _]. destruct (pa_unspent _ _ _ _ Hacc' n Hn').
  apply Hsub. rewrite Hns. apply ns_extend_elem. by right.
Qed.

(** A proof that is not the encoding of a receipt does not make the
    transaction invalid, it makes the validation panic. *)
Theorem malformed_proof_panics st block_id ts tx :
  check_privacy_message st tx block_id ts = Ok () ->
  inner_receipt_from_slice (proof_bytes (proof (priv_witness_set tx))) = None ->
  exists msg, transition_from_privacy_preserving_transaction st tx block_id ts = Panic msg.
Proof.
  intros Hc Hp. eexists. unfold transition_from_privacy_preserving_transaction,
    from_privacy_preserving_transaction, check_privacy_preserving_circuit_proof_is_valid, proof_is_valid_for.
  rewrite Hc. cbn [mbind outcome_bind]. rewrite Hp. reflexivity.
Qed.
End Privacy.

(** Deployments: a program is added under the image id of its bytecode if and
    only if that id is free; no deployed program is ever replaced, and nothing else
    changes but the recorded digest. *)
Theorem deployment_spec `{Sha256, !DefaultsChain, RiscZeroBinary} st vs tx p :
  state_inv st vs -> Z.of_nat (length vs) <= 2 ^ 31 ->
  compute_image_id (bytecode (dep_message tx)) = Some p ->
  (is_Some (programs st !! p) ->
     transition_from_program_deployment_transaction st tx = Err ProgramAlreadyExists) /\
  (programs st !! p = None ->
     exists st', transition_from_program_deployment_transaction st tx = Ok st' /\
       programs st' = <[p := mk_Program p (bytecode (dep_message tx))]> (programs st) /\
       (forall id, get_account_by_id st' id = get_account_by_id st id) /\
       (private_state st').2 = (private_state st).2 /\ state_inv st' vs).
Proof.
  intros Hinv Hlen Hid. unfold transition_from_program_deployment_transaction,
    from_program_deployment_transaction, Program_new. rewrite Hid. cbn [mbind outcome_bind program_id]. split.
  - intros Hs. by rewrite decide_True.
  - intros Hn. rewrite decide_False by (rewrite Hn; by intros []). cbn [mbind outcome_bind].
    pose proof Hinv as [(D & HD & Hcs) _ _].
    destruct (cs_extend_represents [] D _ vs HD Hcs) as (cs' & D' & HD' & Hext & _ & _);
      [cbn; rewrite Nat.add_0_r; done|].
    assert (Happ : is_ok (apply_state_diff st (mk_Diff [] ∅ [] [] (Some (mk_Program p (bytecode (dep_message tx)))))) = true).
    { unfold apply_state_diff. cbn [fold_o signer_account_ids mbind outcome_bind new_commitments private_state with_public].
      by rewrite Hext. }
    destruct (apply_state_diff st _) as [st'| |] eqn:Ha; [|done..]. exists st'. split; [done|].
    pose proof Ha as Hinv'. apply (apply_inv st vs _ st' Hinv) in Hinv' as [Hinv' _];
      [|cbn; by rewrite Nat.add_0_r].
    cbn in Hinv'. rewrite app_nil_r in Hinv'.
    apply apply_state_diff_ok in Ha as (Hacc & _ & _ & Hns & Hp). cbn in *.
    split; [done|]. split; [|by split].
    intros id. destruct (Hacc id) as [Ho Hb Hd Hnn]. rewrite lookup_empty in *. cbn in *.
    destruct (get_account_by_id st' id), (get_account_by_id st id). cbn in *. f_equal; done || lia.
Qed.

(** ** A sample privacy preserving transaction *)
Definition sample_root : CommitmentSetDigest :=
  Eval vm_compute in match digest empty_cs with Ok r => r | _ => [] end.
Definition sample_commitment (b : Z) : Commitment := mk_Commitment (replicate 32 (byte_of_Z b)).
Definition sample_nullifier : Nullifier := mk_Nullifier (replicate 32 Byte.x44).
Definition private_tx (cms : list Commitment) (ns : list (Nullifier * CommitmentSetDigest)) (p : list byte) :
    PrivacyPreservingTransaction :=
  mk_PrivacyTx (mk_PrivacyMessage [] [] [] [] cms ns new_unbounded new_unbounded)
    (mk_PrivacyWitnessSet [] (mk_Proof p)).
Definition private_payment : PrivacyPreservingTransaction :=
  private_tx [sample_commitment 1] [(sample_nullifier, sample_root)] [Byte.x01].

Lemma sample_inv : state_inv sample_state [DUMMY_COMMITMENT].
Proof.
  destruct cs_with_capacity_represents as (cs0 & H0 & Hr0).
  destruct (cs_extend_represents [DUMMY_COMMITMENT] 5 cs0 [] ltac:(lia) Hr0 ltac:(cbn; lia))
    as (cs1 & D1 & HD1 & H1 & Hr1 & Hh1).
  assert (Hcs : empty_cs = cs1).
  { unfold empty_cs. rewrite H0. cbn [mbind outcome_bind]. by rewrite H1. }
  split; cbn [sample_state private_state fst]; rewrite Hcs.
  - exists D1. split; [exact HD1|exact Hr1].
  - rewrite Hh1. apply elem_of_union_l, elem_of_singleton. reflexivity.
  - intros r. rewrite Hh1, (cs_with_capacity_history cs0 H0), elem_of_union, elem_of_singleton.
    intros [->|Hr]; [|by apply not_elem_of_empty in Hr].
    exists [DUMMY_COMMITMENT]. split; reflexivity.
Qed.

Lemma private_payment_ok :
  exists st', transition_from_privacy_preserving_transaction sample_state private_payment 1 1 = Ok st'.
Proof.
  destruct (run_ok (transition_from_privacy_preserving_transaction sample_state private_payment 1 1)
    (fun _ => true)) as (st' & Hrun & _); [vm_compute; reflexivity|]. by exists st'.
Qed.

(** The duplicate check of the nullifier list compares (nullifier, digest)
    pairs: a message that lists one nullifier twice, against two recognised
    digests, passes it. *)
Theorem duplicate_nullifier_accepted :
  exists st tx st' n d1 d2,
    priv_new_nullifiers (priv_message tx) = [(n, d1); (n, d2)] /\
    transition_from_privacy_preserving_transaction st tx 1 1 = Ok st'.
Proof.
  destruct (run_ok (cs ← cs_extend empty_cs [sample_commitment 7]; d ← digest cs;
                    let st := mk_State ∅ (cs, ∅) ∅ in
                    let tx := private_tx [sample_commitment 1]
                      [(sample_nullifier, sample_root); (sample_nullifier, d)] [Byte.x01] in
                    transition_from_privacy_preserving_transaction st tx 1 1) (fun _ => true))
    as (st' & Hrun & _); [vm_compute; reflexivity|].
  apply bind_ok in Hrun as (cs & _ & Hrun). apply bind_ok in Hrun as (d & _ & Hrun).
  eexists _, _, st', sample_nullifier, sample_root, _. split; [|exact Hrun]. reflexivity.
Qed.

(** ** Witnesses *)
Lemma privacy_transaction_sound_witness :
  exists st', transition_from_privacy_preserving_transaction sample_state private_payment 1 1 = Ok st' /\
    state_inv st' ([DUMMY_COMMITMENT] ++ [sample_commitment 1]).
Proof.
  destruct private_payment_ok as [st' Hrun]. exists st'. split; [exact Hrun|].
  destruct (privacy_transaction_sound sample_state [DUMMY_COMMITMENT] 1 1 private_payment st' sample_inv
              ltac:(cbn; lia) Hrun) as (_ & _ & Hinv & _). exact Hinv.
Defined.

Lemma nullifier_spent_once_witness :
  exists st', transition_from_privacy_preserving_transaction sample_state private_payment 1 1 = Ok st' /\
    is_ok (transition_from_privacy_preserving_transaction st'
             (private_tx [sample_commitment 2] [(sample_nullifier, sample_root)] [Byte.x01]) 2 2) = false.
Proof.
  destruct private_payment_ok as [st' Hrun]. exists st'. split; [exact Hrun|].
  apply (nullifier_spent_once sample_state private_payment 1 1 st' st' _ 2 2 sample_nullifier Hrun).
  - intros n Hn. exact Hn.
  - apply list_elem_of_singleton. reflexivity.
  - apply list_elem_of_singleton. reflexivity.
Defined.

Lemma malformed_proof_panics_witness :
  exists msg, transition_from_privacy_preserving_transaction sample_state
    (private_tx [sample_commitment 2] [] [Byte.xff]) 1 1 = Panic msg.
Proof. apply malformed_proof_panics; reflexivity. Defined.

Lemma deployment_spec_witness :
  let H := (fun _ => Some token_id) : RiscZeroBinary in
  exists st', transition_from_program_deployment_transaction sample_state
                (mk_DeploymentTx (mk_DeploymentMessage [Byte.x02])) = Ok st' /\
    programs st' = <[token_id := mk_Program token_id [Byte.x02]]> (programs sample_state).
Proof.
  intros H. destruct (deployment_spec sample_state [DUMMY_COMMITMENT]
    (mk_DeploymentTx (mk_DeploymentMessage [Byte.x02])) token_id sample_inv ltac:(cbn; lia) eq_refl)
    as [_ Hdep].
  destruct (Hdep ltac:(vm_compute; reflexivity)) as (st' & Hrun & Hp & _). exists st'. exact (conj Hrun Hp).
Defined.

Lemma membership_proofs_verify_witness :
  exists root i path, commitment_set_digest sample_state = Ok root /\
    get_proof_for_commitment sample_state DUMMY_COMMITMENT = Ok (Some (i, path)) /\
    compute_digest_for_path DUMMY_COMMITMENT (Z.of_nat i, path) = root.
Proof.
  destruct (membership_proofs_verify sample_state [DUMMY_COMMITMENT] DUMMY_COMMITMENT sample_inv)
    as (root & Hroot & _ & Hin & _).
  destruct (Hin ltac:(apply list_elem_of_singleton; reflexivity)) as (i & path & Hp & _ & Hv).
  exists root, i, path. exact (conj Hroot (conj Hp Hv)).
Defined.

Lemma apply_state_diff_preserves_inv_witness :
  exists st', apply_state_diff sample_state (mk_Diff [] ∅ [sample_commitment 1] [sample_nullifier] None) = Ok st' /\
    state_inv st' ([DUMMY_COMMITMENT] ++ [sample_commitment 1]).
Proof.
  destruct (run_ok (apply_state_diff sample_state (mk_Diff [] ∅ [sample_commitment 1] [sample_nullifier] None))
    (fun _ => true)) as (st' & Hrun & _); [vm_compute; reflexivity|]. exists st'. split; [exact Hrun|].
  apply (apply_state_diff_preserves_inv sample_state [DUMMY_COMMITMENT] _ st' sample_inv) in Hrun
    as [Hinv _]; [exact Hinv|]. cbn. lia.
Defined.

#[global] Instance sample_builtins : BuiltinPrograms := {|
  authenticated_transfer_program := auth_program;
  token_program := mk_Program token_id [Byte.x02];
  amm_program := mk_Program (replicate 8 3) [];
  ata_program := mk_Program (replicate 8 4) [];
  clock_program := mk_Program (replicate 8 5) [Byte.x03];
  vault_program := mk_Program (replicate 8 6) [];
  faucet_program := mk_Program (replicate 8 7) [];
  pinata_program := mk_Program (replicate 8 8) [];
  pinata_token_program := mk_Program (replicate 8 9) [];
|}.
Lemma genesis_state_inv_witness :
  exists st, new_with_genesis_accounts [(alice_id, 100)] [(sample_commitment 1, sample_nullifier)] 0 = Ok st /\
    state_inv st [DUMMY_COMMITMENT; sample_commitment 1].
Proof.
  assert (Hlen : Z.of_nat (length [(sample_commitment 1, sample_nullifier)]) < 2 ^ 31) by reflexivity.
  assert (Hclk : Z.of_nat (length (borsh_to_vec (mk_ClockData 0 0))) <= DATA_MAX_LENGTH)
    by (vm_compute; discriminate).
  destruct (genesis_state_inv [(alice_id, 100)] _ 0 Hlen Hclk) as (st & Hrun & Hinv & _).
  exists st. exact (conj Hrun Hinv).
Defined.
