(* ===== verification/CircuitTheorems.v ===== *)
(** Properties of the privacy circuit, and of privacy preserving transactions
    under the soundness of their proofs. *)

From S2P Require Import Prelude Bytes Crypto Account Ids ProgramCore Borsh MerkleTree Host State Encryption CircuitIo Circuit Transactions Prover StateDiffs PublicExecution CircuitFacts NativePrograms Approval Token TokenFacts Instances PublicTheorems StateTheorems PrivacyTheorems.

Open Scope Z_scope.

Section CircuitProperties.
Context `{Sha256, ChaCha20, Serde ProgramOutput}.

(** Conservation inside the circuit: the accounts that enter a run of the
    circuit, public and private together, leave it with the same total balance. *)
Theorem circuit_conserves_balance i o assumptions :
  input_wf i -> privacy_circuit i = Ok (o, assumptions) ->
  exists pub rows, circuit_statement (program_outputs i) o pub rows /\
    sum_Z (balance ∘ account <$> co_public_pre_states o) + sum_Z (balance ∘ account ∘ row_pre <$> rows) =
    sum_Z (balance <$> co_public_post_states o) + sum_Z (balance ∘ row_post <$> rows).
Proof.
  intros Hwf Hc. apply circuit_statement_ok in Hc as (_ & pub & rows & Hst); [|done].
  exists pub, rows. split; [done|]. destruct Hst as [[-> ->] _ _ _ _ Htot _ _ _]. exact Htot.
Qed.

(** C10. Private accounts: commitments and nullifiers of an output come in pairs,
    one pair for each private account.  The id of the account is derived from a
    nullifier key; an authorized or updated account belongs to the owner of the
    secret key behind it; a new account was the default one; no account occurs
    twice, and two private PDAs never share a program and a seed. *)
Theorem circuit_private_accounts i o assumptions :
  input_wf i -> privacy_circuit i = Ok (o, assumptions) ->
  exists pub rows, circuit_statement (program_outputs i) o pub rows /\
    co_new_commitments o = row_commitment <$> rows /\ co_new_nullifiers o = row_nullifier <$> rows /\
    NoDup (account_id ∘ row_pre <$> rows) /\
    Forall (fun r => account_id (row_pre r) = for_private_account (row_npk r) (row_kind r) /\
      (row_spend r = None -> account (row_pre r) = Account_default) /\
      (is_authorized (row_pre r) = true \/ row_spend r <> None -> exists nsk, row_npk r = npk_from_nsk nsk)) rows /\
    (forall r r' p s k k', r ∈ rows -> r' ∈ rows -> row_kind r = Pda p s k -> row_kind r' = Pda p s k' ->
       account_id (row_pre r) = account_id (row_pre r')).
Proof.
  intros Hwf Hc. apply circuit_statement_ok in Hc as (_ & pub & rows & Hst); [|done].
  exists pub, rows. split; [done|]. destruct Hst as [_ [-> ->] _ [family Hop] Hnd _ _ _ _].
  split; [done|]. split; [done|]. split; [|split].
  - rewrite fmap_app in Hnd. apply NoDup_app in Hnd as (_ & _ & Hnd). by rewrite <- list_fmap_compose in Hnd.
  - eapply Forall_impl; [exact Hop|]. cbn. intros r [Hid _ Hspend Hauth _]. split; [done|]. split.
    + intros Hs. by rewrite Hs in Hspend.
    + intros [Ha|Hs]; [by apply Hauth|]. destruct (row_spend r) as [[nsk proof]|]; [|done].
      exists nsk. by destruct Hspend.
  - rewrite Forall_forall in Hop. intros r r' p s k k' Hr Hr' Hk Hk'.
    pose proof (op_family _ r (Hop r Hr)) as Hf. pose proof (op_family _ r' (Hop r' Hr')) as Hf'.
    rewrite Hk in Hf. rewrite Hk' in Hf'. congruence.
Qed.

(** Delivery: the holder of the shared secret of a private account recovers
    from the output, by position, its kind and its new state, and the new
    commitment is the one of that state. *)
Theorem circuit_ciphertexts_decrypt i o assumptions :
  input_wf i -> privacy_circuit i = Ok (o, assumptions) ->
  exists pub rows, circuit_statement (program_outputs i) o pub rows /\
  forall j r, rows !! j = Some r -> exists ct c,
    co_ciphertexts o !! j = Some ct /\ co_new_commitments o !! j = Some c /\
    decrypt ct (row_ssk r) c (Z.of_nat j) = Some (row_kind r, row_post r) /\
    c = Commitment_new (account_id (row_pre r)) (row_post r).
Proof.
  intros Hwf Hc. apply circuit_statement_ok in Hc as (_ & pub & rows & Hst); [|done].
  exists pub, rows. split; [done|]. destruct Hst as [_ [Hcm _] [_ Hct] [family Hop] _ _ _ Hrow _].
  intros j r Hj. destruct (Hct j r Hj) as (ct & Hctj & Henc).
  assert (Hin : r ∈ rows) by (by eapply list_elem_of_lookup_2).
  destruct (Hrow r Hin) as [Hpost _]. rewrite Forall_forall in Hop.
  exists ct, (row_commitment r). split; [done|]. rewrite Hcm, list_lookup_fmap, Hj. split; [done|].
  split; [|done]. eapply decrypt_of_encrypt; [exact Hpost| |exact Henc]. by eapply op_kind, Hop.
Qed.

(** C11. Authority inside the circuit: an owned account keeps its owner and loses
    balance or changes data only through an executed program that owns it, and
    a public account without owner that changed was claimed. *)
Theorem circuit_authority i o assumptions :
  input_wf i -> privacy_circuit i = Ok (o, assumptions) ->
  assumptions = assumption_of <$> program_outputs i /\
  exists pub rows, circuit_statement (program_outputs i) o pub rows /\
  let executed := assumptions.*1 in
  let respected pre post := program_owner pre <> DEFAULT_PROGRAM_ID ->
    program_owner post = program_owner pre /\
    (program_owner pre ∉ executed -> balance pre <= balance post /\ data post = data pre) in
  Forall (fun r => respected (account (row_pre r)) (row_post r)) rows /\
  Forall (fun p => respected (account p.1) p.2 /\
    (program_owner (account p.1) = DEFAULT_PROGRAM_ID ->
       p.2 = account p.1 \/ program_owner p.2 ∈ executed)) pub.
Proof.
  intros Hwf Hc. apply circuit_statement_ok in Hc as (-> & pub & rows & Hst); [|done].
  split; [done|]. exists pub, rows. split; [done|].
  assert (Hexec : (assumption_of <$> program_outputs i).*1 = self_program_id <$> program_outputs i)
    by (by rewrite <- list_fmap_compose).
  rewrite Hexec. destruct Hst as [_ _ _ _ _ _ Hpub Hrow _]. split; apply Forall_forall.
  - intros r Hr Hd. destruct (Hrow r Hr) as (_ & a & n & -> & [_ Ho Ha]). cbn.
    split; [by destruct Ho as [|[]]|]. intros Hex. by apply Ha.
  - intros p Hp. destruct (Hpub p Hp) as (_ & [_ Ho Ha] & Hcl). split.
    + intros Hd. split; [by destruct Ho as [|[]]|]. intros Hex. by apply Ha.
    + intros Hd. destruct (Hcl Hd) as [|Hne]; [by left|right]. destruct Ho as [Ho|[_ Ho]]; [congruence|done].
Qed.
End CircuitProperties.

(** ** Transactions, under the soundness of receipts *)
Section EndToEnd.
Context `{Sha256, ChaCha20, ZkVm, RiscZeroBinary, Schnorr, Borsh PrivacyMessage, Receipts,
  Serde PrivacyPreservingCircuitOutput, Serde ProgramOutput}.

(** An assumption of the circuit is resolved by a receipt of the program: the
    program with that image id, on some input, wrote that journal. *)
Definition attested (a : Assumption) : Prop :=
  exists elf caller pre instr o, compute_image_id elf = Some a.1 /\
    vm_execute elf a.1 caller pre instr = inr o /\ a.2 = serde_to_vec o.

(** Soundness of the proof system: a receipt that verifies against the image id
    of the circuit and the journal of [o] attests a run of the circuit that
    committed [o], with all its assumptions resolved. *)
Class ReceiptSoundness := receipt_sound (r : inner_receipt) (o : PrivacyPreservingCircuitOutput) :
  receipt_verify r (CircuitOutput_to_bytes o) = true ->
  exists i assumptions, input_wf i /\ privacy_circuit i = Ok (o, assumptions) /\ Forall attested assumptions.

Context `{!ReceiptSoundness}.

(** The private side of an accepted transaction: the program outputs that were
    proved, the public accounts and the private rows. *)
Record proved (st : V03State) (tx : PrivacyPreservingTransaction) (outputs : list ProgramOutput)
    (pub : list (AccountWithMetadata * Account)) (rows : list PrivateRow) : Prop := {
  pr_attested : Forall (fun o => attested (assumption_of o)) outputs;
  pr_statement : circuit_statement outputs
    (circuit_output_of (input_pre_states st (priv_signer_account_ids tx)
       (public_account_ids (priv_message tx))) (priv_message tx)) pub rows;
}.

Lemma accepted_proved st block_id ts tx :
  priv_accepted st block_id ts tx -> exists outputs pub rows, proved st tx outputs pub rows.
Proof.
  intros [_ _ _ _ _ _ Hproof _ _ _]. unfold proof_is_valid_for in Hproof. inv_ok.
  apply receipt_sound in Hproof as (i & asm & Hwf & Hc & Hatt).
  apply circuit_statement_ok in Hc as (-> & pub & rows & Hst); [|done].
  exists (program_outputs i), pub, rows. split; [|done]. by apply (Forall_fmap assumption_of) in Hatt.
Qed.

(** [zip_to_map] as the update of an empty diff. *)
Lemma zip_to_map_update st signers ids posts :
  zip_to_map ids posts = update_diff ∅ (input_pre_states st signers ids) (PostState_new <$> posts).
Proof.
  unfold zip_to_map, update_diff. generalize (∅ : Diff) as d. revert posts.
  induction ids as [|id ids IH]; intros [|post posts] d; try done. apply IH.
Qed.

Lemma account_ids_input st signers ids : account_id <$> input_pre_states st signers ids = ids.
Proof. unfold input_pre_states. rewrite <- list_fmap_compose. apply list_fmap_id. Qed.

Lemma zip_to_map_total st signers ids posts :
  NoDup ids -> length posts = length ids ->
  total_balance (zip_to_map ids posts ∪ public_state st) = total_balance (public_state st) +
    sum_Z (balance <$> posts) - sum_Z (balance ∘ account <$> input_pre_states st signers ids).
Proof.
  intros Hnd Hlen. rewrite (zip_to_map_update st signers), update_diff_total.
  - rewrite (left_id_L ∅ (∪)), <- list_fmap_compose. done.
  - by rewrite account_ids_input.
  - unfold input_pre_states. by rewrite !length_fmap.
  - unfold input_pre_states. apply Forall_fmap, Forall_forall. intros id _. cbn. by rewrite expected_empty.
Qed.

(** C8. Value conservation end to end: when a privacy preserving transaction is
    applied, what the public accounts gain is what the private accounts behind its
    nullifiers lose to those behind its commitments, and every program output of
    the underlying execution was attested. *)
Theorem privacy_transaction_conserves_value st block_id ts tx st' :
  transition_from_privacy_preserving_transaction st tx block_id ts = Ok st' ->
  exists outputs pub rows, proved st tx outputs pub rows /\
    priv_new_commitments (priv_message tx) = row_commitment <$> rows /\
    priv_new_nullifiers (priv_message tx) = row_nullifier <$> rows /\
    total_balance (public_state st') + sum_Z (balance ∘ row_post <$> rows) =
    total_balance (public_state st) + sum_Z (balance ∘ account ∘ row_pre <$> rows).
Proof.
  unfold transition_from_privacy_preserving_transaction. intros Ht. inv_ok.
  apply from_privacy_ok in Hs as [Hacc ->].
  destruct (accepted_proved st block_id ts tx Hacc) as (outputs & pub & rows & Hp).
  exists outputs, pub, rows. split; [done|].
  destruct Hp as [_ [[Hpre Hpost] [Hcm Hnf] _ _ _ Htot _ _ _]]. cbn in Hpre, Hpost, Hcm, Hnf.
  split; [done|]. split; [done|].
  apply apply_state_diff_ok in Ht as (_ & -> & _). cbn [public_diff].
  rewrite (zip_to_map_total st (priv_signer_account_ids tx)).
  - rewrite Hpre, Hpost. lia.
  - apply Hacc.
  - rewrite Hpost, length_fmap, <- (length_fmap fst pub), <- Hpre. unfold input_pre_states.
    by rewrite length_fmap.
Qed.

(** C9. No private account out of thin air: an account that a transaction updates
    privately is the opening of a commitment that is already in the commitment
    set, by the holder of its nullifier secret key, unless SHA-256 collides on the
    inputs of the membership proof and of the commitment trees the state went
    through. *)
Theorem spent_accounts_were_committed `{!Sha256Laws} st vs block_id ts tx st' :
  state_inv st vs -> Forall (fun c => length (commitment_bytes c) = 32%nat) vs ->
  transition_from_privacy_preserving_transaction st tx block_id ts = Ok st' ->
  exists outputs pub rows, proved st tx outputs pub rows /\
  forall r nsk proof, r ∈ rows -> row_spend r = Some (nsk, proof) ->
    let c := Commitment_new (account_id (row_pre r)) (account (row_pre r)) in
    (forall vs0, vs0 `prefix_of` vs ->
       collision_free (proof_inputs c proof ++ tree_inputs (commitment_bytes <$> vs0))) ->
    c ∈ vs /\ row_npk r = npk_from_nsk nsk /\
    (for_account_update c nsk, compute_digest_for_path c proof) ∈ priv_new_nullifiers (priv_message tx).
Proof.
  intros Hinv Hvs Ht. unfold transition_from_privacy_preserving_transaction in Ht. inv_ok.
  apply from_privacy_ok in Hs as [Hacc ->].
  destruct (accepted_proved st block_id ts tx Hacc) as (outputs & pub & rows & Hp).
  exists outputs, pub, rows. split; [done|]. intros r nsk proof Hr Hspend c Hcf.
  destruct Hp as [_ [_ [_ Hnf] _ [family Hop] _ _ _ _ _]]. cbn in Hnf.
  rewrite Forall_forall in Hop. destruct (Hop r Hr) as [_ _ Hsp _ _]. rewrite Hspend in Hsp.
  destruct Hsp as (Hnpk & _ & Hpath).
  assert (Hn : (for_account_update c nsk, compute_digest_for_path c proof)
                 ∈ priv_new_nullifiers (priv_message tx)).
  { rewrite Hnf. replace (_, _) with (row_nullifier r); [by apply list_elem_of_fmap_2|].
    unfold row_nullifier. by rewrite Hspend. }
  split; [|done].
  destruct (inv_history _ _ Hinv (compute_digest_for_path c proof)) as (vs0 & Hpre & Hd).
  { apply (pa_roots _ _ _ _ Hacc). change (compute_digest_for_path c proof)
      with (for_account_update c nsk, compute_digest_for_path c proof).2. by apply list_elem_of_fmap_2. }
  apply digest_for_path_sound in Hd; [|apply length_hash_bytes| |done|by apply Hcf].
  - destruct Hpre as [rest ->]. apply elem_of_app. left.
    apply list_elem_of_fmap in Hd as (c' & Hc' & Hin). unfold c.
    destruct (Commitment_new _ _) as [b], c' as [b']. cbn in Hc'. by subst.
  - apply Forall_fmap. destruct Hpre as [rest ->]. by apply Forall_app in Hvs as [? _].
Qed.
End EndToEnd.

(** ** The prover *)

(** The prover's loop ends: from [PROVE_LOOP_FUEL] on, the fuel does not change
    its result, and it never collects more than ten receipts. *)
Theorem prover_terminates `{ZkVm} p pres instr :
  exists r, (forall fuel, (PROVE_LOOP_FUEL <= fuel)%nat ->
    prove_loop fuel (dependencies p) 0 [(prover_initial_call p pres instr, main_program p, None)] [] = Some r) /\
  (forall receipts, r = Ok receipts -> Z.of_nat (length receipts) <= MAX_NUMBER_CHAINED_CALLS).
Proof.
  destruct (prove_loop_total PROVE_LOOP_FUEL (dependencies p) 0
    [(prover_initial_call p pres instr, main_program p, None)] []) as [r Hr];
    [unfold MAX_NUMBER_CHAINED_CALLS, PROVE_LOOP_FUEL; lia|unfold PROVE_LOOP_FUEL; lia|].
  exists r. split.
  - intros fuel Hf. by eapply prove_loop_mono.
  - intros receipts ->. apply prove_loop_length in Hr; [done|].
    unfold MAX_NUMBER_CHAINED_CALLS. cbn. lia.
Qed.

(** Prover and circuit agree: on the outputs the prover collected, the
    circuit asks for exactly the receipts that were handed to it, in order, so no
    assumption is left open. *)
Theorem prover_discharges_assumptions `{Sha256, ChaCha20, ZkVm, Serde ProgramOutput} p pres instr identities receipts
    o assumptions :
  (forall id q, dependencies p !! id = Some q -> program_id q = id) ->
  prove_loop PROVE_LOOP_FUEL (dependencies p) 0 [(prover_initial_call p pres instr, main_program p, None)] []
    = Some (Ok receipts) ->
  privacy_circuit (mk_CircuitInput receipts.*2 identities (program_id (main_program p))) = Ok (o, assumptions) ->
  assumptions = receipt_assumption <$> receipts.
Proof.
  intros Hdeps Hr Hc. apply prove_loop_assumptions in Hr as (new & Heq & Hnew); [|done|].
  2: { constructor; [done|constructor]. }
  cbn [app] in Heq. subst new. unfold privacy_circuit in Hc. inv_ok. destruct a as [es asm].
  cbv beta iota in Hc. inv_ok. unfold derive_from_outputs in Hs. inv_ok.
  destruct a2 as [es1 asm1]. cbv beta iota in Hs. inv_ok.
  by apply Hnew in Hs4.
Qed.
