(* ===== verification/CircuitSamples.v ===== *)
(** A concrete private payment for the witnesses: Dora, whose private account is
    committed on chain, pays 40 to Bob's public account through the transfer
    program; the run of the circuit and the transaction that carries its output. *)

From S2P Require Import Prelude Bytes Crypto Account Ids ProgramCore Borsh MerkleTree Host State Encryption CircuitIo Circuit Transactions Prover StateDiffs PublicExecution CircuitFacts NativePrograms Approval Token TokenFacts Instances PublicTheorems StateTheorems PrivacyTheorems CircuitTheorems.

Open Scope Z_scope.

(** A key stream of zeros, a codec that sends one output to one word, image ids
    by the first byte of the bytecode. *)
#[global] Instance sample_chacha : ChaCha20 := fun _ _ => Byte.x00.
#[global] Instance sample_output_serde : Serde ProgramOutput := {|
  serde_to_vec o := instruction_data o;
  serde_from_words _ := None;
|}.
#[global] Instance sample_image_ids : RiscZeroBinary := fun elf =>
  match elf with [Byte.x01] => Some auth_id | _ => None end.

Definition dora_nsk : NullifierSecretKey := replicate 32 Byte.x0d.
Definition dora_id : AccountId := Eval vm_compute in for_regular_private_account (npk_from_nsk dora_nsk) 0.
Definition dora_commitment : Commitment := Eval vm_compute in Commitment_new dora_id (funds 100).
Definition dora_cs : CommitmentSet :=
  match cs_extend empty_cs [dora_commitment] with Ok cs => cs | _ => empty_cs end.
Definition dora_state : V03State :=
  mk_State (public_state sample_state) (dora_cs, ∅) (programs sample_state).
Definition dora_proof : MembershipProof :=
  Eval vm_compute in match get_proof_for_commitment dora_state dora_commitment with
  | Ok (Some (i, path)) => (Z.of_nat i, path)
  | _ => (0, [])
  end.

(** The execution of the transfer program, and the input of the circuit. *)
Definition dora_pre : AccountWithMetadata := mk_AWM (funds 100) true dora_id.
Definition dora_output : ProgramOutput :=
  match Program_execute auth_program None [dora_pre; bob_pre] [0; 40] with
  | Ok o => o
  | _ => ProgramOutput_new [] None [] [] []
  end.
Definition dora_input : PrivacyPreservingCircuitInput :=
  mk_CircuitInput [dora_output]
    [PrivateAuthorizedUpdate (mk_Ssk (zeros 32)) dora_nsk dora_proof 0; Public] auth_id.
Definition dora_circuit_output : PrivacyPreservingCircuitOutput :=
  Eval vm_compute in match privacy_circuit dora_input with
  | Ok (o, _) => o
  | _ => mk_CircuitOutput [] [] [] [] [] new_unbounded new_unbounded
  end.

(** Receipts that verify exactly the journal of that output. *)
Definition journal_receipts `{Serde PrivacyPreservingCircuitOutput} : Receipts := {|
  inner_receipt := ();
  inner_receipt_from_slice l := match l with Byte.x01 :: _ => Some () | _ => None end;
  receipt_verify _ bytes := bool_decide (bytes = CircuitOutput_to_bytes dora_circuit_output);
|}.
(** A codec that tells that output from all others. *)
Definition dora_serde : Serde PrivacyPreservingCircuitOutput := {|
  serde_to_vec o := if decide (o = dora_circuit_output) then [1] else [0];
  serde_from_words _ := None;
|}.
#[local] Existing Instance dora_serde.
Definition dora_receipts : Receipts := journal_receipts.
#[local] Existing Instance dora_receipts.

Definition dora_payment : PrivacyPreservingTransaction :=
  mk_PrivacyTx (mk_PrivacyMessage [bob_id] [] (co_public_post_states dora_circuit_output)
      ((fun ct => mk_Encrypted ct (mk_Epk []) Byte.x00) <$> co_ciphertexts dora_circuit_output)
      (co_new_commitments dora_circuit_output) (co_new_nullifiers dora_circuit_output)
      (co_block_validity_window dora_circuit_output) (co_timestamp_validity_window dora_circuit_output))
    (mk_PrivacyWitnessSet [] (mk_Proof [Byte.x01])).

(** ** Their properties *)
Lemma dora_circuit_run : exists assumptions, privacy_circuit dora_input = Ok (dora_circuit_output, assumptions).
Proof.
  destruct (run_ok (privacy_circuit dora_input) (fun r => bool_decide (r.1 = dora_circuit_output)))
    as ([o asm] & Hrun & Ho); [vm_compute; reflexivity|].
  apply bool_decide_eq_true in Ho. cbn in Ho. subst o. by exists asm.
Qed.

Lemma dora_input_wf : input_wf dora_input.
Proof.
  assert (Ht : output_typed dora_output).
  { split; [apply (bool_decide_unpack _); vm_compute; exact I|]. split.
    - assert (Hc : claim <$> post_states dora_output = [None; None]) by (vm_compute; reflexivity).
      destruct (post_states dora_output) as [|p1 [|p2 [|]]]; try discriminate Hc.
      injection Hc as Hc1 Hc2. repeat constructor; unfold claim_wf; [by rewrite Hc1|by rewrite Hc2].
    - assert (Hc : chained_calls dora_output = []) by (vm_compute; reflexivity). rewrite Hc. constructor. }
  split; [constructor; [exact Ht|constructor]|]. split.
  - split; [reflexivity|]. repeat constructor; apply (bool_decide_unpack _); vm_compute; exact I.
  - constructor; [|constructor; [exact I|constructor]]. split.
    + split; [reflexivity|]. vm_compute. reflexivity.
    + repeat constructor.
Qed.

Lemma dora_sound : ReceiptSoundness.
Proof.
  intros r o Hv. apply bool_decide_eq_true in Hv.
  assert (Ho : o = dora_circuit_output).
  { unfold CircuitOutput_to_bytes, serde_to_vec, dora_serde in Hv.
    destruct (decide (o = dora_circuit_output)) as [|Hne]; [done|].
    rewrite decide_True in Hv by done. vm_compute in Hv. discriminate Hv. }
  subst o. destruct dora_circuit_run as [asm Hrun]. exists dora_input, asm.
  split; [exact dora_input_wf|]. split; [exact Hrun|].
  destruct (circuit_statement_ok _ _ _ dora_input_wf Hrun) as [-> _]. cbn [dora_input program_outputs fmap list_fmap].
  constructor; [|constructor].
  exists [Byte.x01], None, [dora_pre; bob_pre], [0; 40], dora_output. split; [vm_compute; reflexivity|].
  split; [|reflexivity]. vm_compute. reflexivity.
Qed.

Lemma dora_payment_ok :
  exists st', transition_from_privacy_preserving_transaction  dora_state dora_payment 1 1 = Ok st'.
Proof.
  destruct (run_ok (transition_from_privacy_preserving_transaction
    dora_state dora_payment 1 1) (fun _ => true)) as (st' & Hrun & _); [vm_compute; reflexivity|].
  by exists st'.
Qed.

Lemma dora_inv : state_inv dora_state [DUMMY_COMMITMENT; dora_commitment].
Proof.
  assert (Hcs : is_ok (cs_extend empty_cs [dora_commitment]) = true) by (vm_compute; reflexivity).
  destruct sample_inv as [(D & HD & Hrep) Hdig Hhist]. cbn [sample_state private_state fst] in *.
  destruct (cs_extend_represents [dora_commitment] D empty_cs [DUMMY_COMMITMENT] HD Hrep)
    as (cs1 & D1 & HD1 & H1 & Hr1 & Hh1); [cbn; lia|].
  assert (Hdora : dora_cs = cs1) by (unfold dora_cs; by rewrite H1).
  split; cbn [dora_state private_state fst]; rewrite Hdora.
  - exists D1. split; [exact HD1|exact Hr1].
  - rewrite Hh1. apply elem_of_union_l, elem_of_singleton. reflexivity.
  - intros r. rewrite Hh1, elem_of_union, elem_of_singleton. intros [->|Hr].
    + exists [DUMMY_COMMITMENT; dora_commitment]. split; reflexivity.
    + destruct (Hhist r Hr) as (vs0 & Hpre & ->). exists vs0. split; [|reflexivity].
      apply (prefix_app_r vs0 [DUMMY_COMMITMENT] [dora_commitment] Hpre).
Qed.

#[global] Instance sha256_instance_laws : Sha256Laws := Sha256Facts.sha256_laws.

Lemma dora_collision_free vs0 :
  vs0 `prefix_of` [DUMMY_COMMITMENT; dora_commitment] ->
  collision_free (proof_inputs dora_commitment dora_proof ++ tree_inputs (commitment_bytes <$> vs0)).
Proof.
  intros Hpre. apply collision_free_b_ok.
  destruct vs0 as [|v1 vs0]; [vm_compute; reflexivity|].
  apply prefix_cons_inv_1 in Hpre as Hv1. subst v1. apply prefix_cons_inv_2 in Hpre.
  destruct vs0 as [|v2 vs0]; [vm_compute; reflexivity|].
  apply prefix_cons_inv_1 in Hpre as Hv2. subst v2. apply prefix_cons_inv_2 in Hpre.
  apply prefix_nil_inv in Hpre. subst vs0. vm_compute. reflexivity.
Qed.

(** ** Witnesses *)
Lemma circuit_conserves_balance_witness :
  exists assumptions pub rows, privacy_circuit dora_input = Ok (dora_circuit_output, assumptions) /\
    circuit_statement (program_outputs dora_input) dora_circuit_output pub rows.
Proof.
  destruct dora_circuit_run as [asm Hrun]. exists asm.
  destruct (circuit_conserves_balance dora_input dora_circuit_output asm dora_input_wf Hrun)
    as (pub & rows & Hst & _). exists pub, rows. exact (conj Hrun Hst).
Defined.

Lemma circuit_private_accounts_witness :
  exists assumptions rows, privacy_circuit dora_input = Ok (dora_circuit_output, assumptions) /\
    co_new_commitments dora_circuit_output = row_commitment <$> rows.
Proof.
  destruct dora_circuit_run as [asm Hrun]. exists asm.
  destruct (circuit_private_accounts dora_input dora_circuit_output asm dora_input_wf Hrun)
    as (pub & rows & _ & Hc & _). exists rows. exact (conj Hrun Hc).
Defined.

Lemma circuit_ciphertexts_decrypt_witness :
  exists assumptions pub rows, privacy_circuit dora_input = Ok (dora_circuit_output, assumptions) /\
    circuit_statement (program_outputs dora_input) dora_circuit_output pub rows.
Proof.
  destruct dora_circuit_run as [asm Hrun]. exists asm.
  destruct (circuit_ciphertexts_decrypt dora_input dora_circuit_output asm dora_input_wf Hrun)
    as (pub & rows & Hst & _). exists pub, rows. exact (conj Hrun Hst).
Defined.

Lemma circuit_authority_witness :
  exists assumptions, privacy_circuit dora_input = Ok (dora_circuit_output, assumptions) /\
    assumptions = [(auth_id, [0; 40])].
Proof.
  destruct dora_circuit_run as [asm Hrun]. exists asm. split; [exact Hrun|].
  destruct (circuit_authority dora_input dora_circuit_output asm dora_input_wf Hrun) as [Hasm _].
  rewrite Hasm. vm_compute. reflexivity.
Defined.

Lemma privacy_transaction_conserves_value_witness :
  exists st', transition_from_privacy_preserving_transaction dora_state dora_payment 1 1 = Ok st' /\
    exists outputs pub rows, proved dora_state dora_payment outputs pub rows.
Proof.
  destruct dora_payment_ok as [st' Hrun]. exists st'. split; [exact Hrun|].
  pose proof dora_sound as Hsound.
  destruct (privacy_transaction_conserves_value dora_state 1 1 dora_payment st' Hrun)
    as (outputs & pub & rows & Hp & _). exists outputs, pub, rows. exact Hp.
Defined.

Lemma spent_accounts_were_committed_witness :
  exists st' outputs pub rows,
    transition_from_privacy_preserving_transaction dora_state dora_payment 1 1 = Ok st' /\
    proved dora_state dora_payment outputs pub rows /\
    (forall r nsk, r ∈ rows -> row_spend r = Some (nsk, dora_proof) ->
       Commitment_new (account_id (row_pre r)) (account (row_pre r)) = dora_commitment ->
       row_npk r = npk_from_nsk nsk).
Proof.
  destruct dora_payment_ok as [st' Hrun]. exists st'. pose proof dora_sound as Hsound.
  destruct (spent_accounts_were_committed dora_state [DUMMY_COMMITMENT; dora_commitment] 1 1
    dora_payment st' dora_inv ltac:(repeat constructor) Hrun) as (outputs & pub & rows & Hp & Hspent).
  exists outputs, pub, rows. split; [exact Hrun|]. split; [exact Hp|].
  intros r nsk Hr Hs Hc. destruct (Hspent r nsk dora_proof Hr Hs) as (_ & Hk & _); [|exact Hk].
  rewrite Hc. exact dora_collision_free.
Defined.

Lemma prover_discharges_assumptions_witness :
  exists receipts assumptions,
    prove_loop PROVE_LOOP_FUEL (dependencies (mk_WithDeps auth_program ∅)) 0
      [(prover_initial_call (mk_WithDeps auth_program ∅) [dora_pre; bob_pre] [0; 40], auth_program, None)] []
      = Some (Ok receipts) /\
    privacy_circuit (mk_CircuitInput receipts.*2 (account_identities dora_input) auth_id)
      = Ok (dora_circuit_output, assumptions) /\
    assumptions = receipt_assumption <$> receipts.
Proof.
  assert (Hr : prove_loop PROVE_LOOP_FUEL (dependencies (mk_WithDeps auth_program ∅)) 0
    [(prover_initial_call (mk_WithDeps auth_program ∅) [dora_pre; bob_pre] [0; 40], auth_program, None)] []
    = Some (Ok [(auth_id, dora_output)])) by (vm_compute; reflexivity).
  destruct dora_circuit_run as [asm Hrun].
  exists [(auth_id, dora_output)], asm. split; [exact Hr|]. split; [exact Hrun|].
  apply (prover_discharges_assumptions (mk_WithDeps auth_program ∅) [dora_pre; bob_pre] [0; 40]
    (account_identities dora_input) [(auth_id, dora_output)] dora_circuit_output asm).
  - intros id q Hq. discriminate Hq.
  - exact Hr.
  - exact Hrun.
Defined.
