(* ===== verification/AmmTheorems.v ===== *)
(** Properties of the automated market maker: swaps keep the product of the
    reserves when the token program carries out their deposit, deposits dilute nobody, withdrawals are fair as long as no
    multiplication overflows, and what goes wrong when one does. *)

From S2P Require Import Prelude Bytes Crypto Account Ids Borsh ProgramCore NativePrograms Approval Token TokenFacts Instances Amm.

Open Scope Z_scope.

Section AmmProperties.
Context `{Sha256, OverflowChecks, Borsh PoolDefinition, Borsh TokenHolding, Serde Token.Instruction}.
(** The other codecs of the token program, and what the swap properties need of
    the codec of holdings: it round trips, and no holding is encoded in no byte. *)
Context `{Borsh TokenDefinition, Borsh TokenMetadata, !BorshLaws TokenHolding holding_wf}.
Hypothesis empty_is_no_holding : borsh_try_from_slice (A := TokenHolding) [] = None.

(** ** Specification *)
Definition reserves_wf (p : PoolDefinition) : Prop :=
  in_u 128 (reserve_a p) /\ in_u 128 (reserve_b p) /\ in_u 128 (liquidity_pool_supply p).
Definition pool_of (a : AccountWithMetadata) : option PoolDefinition :=
  borsh_try_from_slice (data_bytes (data (account a))).

(** The pool account with another definition. *)
Definition pool_post (pool : AccountWithMetadata) (p : PoolDefinition) : AccountPostState :=
  PostState_new (set_data (mk_Data (borsh_to_vec p)) (account pool)).
(** The pool after [deposit] of one token against [withdraw] of the other. *)
Definition swapped (p : PoolDefinition) (a_in : bool) (deposit withdraw : Z) : PoolDefinition :=
  if a_in then pool_with (liquidity_pool_supply p) (reserve_a p + deposit) (reserve_b p - withdraw) (active p) p
  else pool_with (liquidity_pool_supply p) (reserve_a p - withdraw) (reserve_b p + deposit) (active p) p.
Definition reserve_in (p : PoolDefinition) (a_in : bool) : Z := if a_in then reserve_a p else reserve_b p.
Definition reserve_out (p : PoolDefinition) (a_in : bool) : Z := if a_in then reserve_b p else reserve_a p.

(** The account holds at least [reserve] of a fungible token. *)
Definition holding_of (a : Account) : option TokenHolding := borsh_try_from_slice (data_bytes (data a)).
Definition backs (reserve : Z) (a : Account) : Prop :=
  exists token b, holding_of a = Some (Fungible token b) /\ reserve <= b.

(** ** Lemmas: the transfers of a swap *)
Lemma fungible_balance_ok a prefix what b :
  fungible_balance a prefix what = Ok b -> exists token, holding_of (account a) = Some (Fungible token b).
Proof.
  unfold fungible_balance. intros Hb. apply bind_ok in Hb as (h & Hh & Hb). apply holding_from_ok in Hh.
  destruct h; inv_ok. by eexists.
Qed.

(** The token program takes a deposit into a vault only if it fits, and the vault
    then holds that much more. *)
Lemma deposit_accepted user vault n token b posts :
  0 <= n -> holding_of (account vault) = Some (Fungible token b) ->
  Token.handle (Token.Transfer n) [user; vault] = Ok posts ->
  b + n < 2 ^ 128 /\ exists up vp, posts = [up; vp] /\
    holding_of (post_account vp) = Some (Fungible token (b + n)).
Proof.
  intros Hn Hv Ht. cbn [Token.handle array2] in Ht. cbn [mbind outcome_bind] in Ht. unfold transfer in Ht.
  unfold holding_of in Hv. pose proof (borsh_decoded_wf _ _ Hv) as [Hid [Hb _]]. inv_ok.
  destruct (decide (account vault = Account_default)) as [Hd|_].
  { rewrite Hd in Hv. cbn in Hv. congruence. }
  apply holding_from_ok in Hs1. assert (a1 = Fungible token b) as -> by (cbn in Hv; congruence).
  destruct a3 as [hs hr], a0 as [d' b'|d' b'|d' o]; cbn [move_holdings] in Hs3; try done. inv_ok.
  match goal with Hc : checked_add _ _ _ = Some _ |- _ => apply checked_add_Some in Hc as [Hfit ->] end.
  split; [unfold in_u in Hfit; lia|]. do 2 eexists. split; [reflexivity|].
  match goal with Hr : holding_data (Fungible token _) = Ok _ |- _ => apply holding_data_ok in Hr as [-> _] end.
  unfold holding_of. cbn. apply borsh_roundtrip. by split; [|unfold in_u in *; cbn in *; lia].
Qed.

(** The token program takes a withdrawal out of a vault only if the vault holds
    it, and the vault then holds that much less. *)
Lemma withdrawal_accepted vault user n token b posts :
  0 <= n -> holding_of (account vault) = Some (Fungible token b) ->
  Token.handle (Token.Transfer n) [vault; user] = Ok posts ->
  exists vp up, posts = [vp; up] /\ holding_of (post_account vp) = Some (Fungible token (b - n)).
Proof.
  intros Hn Hv Ht. cbn [Token.handle array2] in Ht. cbn [mbind outcome_bind] in Ht. unfold transfer in Ht.
  unfold holding_of in Hv. pose proof (borsh_decoded_wf _ _ Hv) as [Hid [Hb Hb']]. inv_ok.
  apply holding_from_ok in Hs0. assert (a0 = Fungible token b) as -> by (cbn in Hv; congruence).
  destruct a3 as [hs hr], a1 as [d' b'|d' b'|d' o]; cbn [move_holdings] in Hs3; try done. inv_ok.
  match goal with Hc : checked_sub _ _ = Some _ |- _ => apply checked_sub_Some in Hc as [Hfit ->] end.
  do 2 eexists. split; [reflexivity|].
  match goal with Hr : holding_data (Fungible token _) = Ok _ |- _ => apply holding_data_ok in Hr as [-> _] end.
  unfold holding_of. cbn. apply borsh_roundtrip. by split; [|unfold in_u in *; cbn in *; lia].
Qed.

(** ** Lemmas: arithmetic *)
Lemma swap_input_product rd rw n :
  0 <= rd -> 0 <= rw -> 0 <= n -> rd + n <> 0 ->
  let w := rw * n / (rd + n) in 0 <= w <= rw /\ rd * rw <= (rd + n) * (rw - w).
Proof.
  intros Hrd Hrw Hn Hne w.
  pose proof (Z.mul_div_le (rw * n) (rd + n) ltac:(lia)) as Hle. fold w in Hle.
  assert (0 <= w) by (apply Z.div_pos; nia). split; [split; nia|nia].
Qed.

Lemma swap_output_product rd rw out n :
  0 <= rd -> 0 < out < rw -> rd * out <= n * (rw - out) -> rd * rw <= (rd + n) * (rw - out).
Proof. nia. Qed.

Lemma plain_op_unchanged {E} w z what : in_u w z -> plain_op (E := E) w z what = Ok z.
Proof. apply plain_op_in. Qed.

Lemma plain_mul_le {E} a b r : 0 <= a -> 0 <= b -> plain_mul (E := E) 128 a b = Ok r -> 0 <= r <= a * b.
Proof.
  intros Ha Hb Hr. unfold plain_mul in Hr. apply plain_op_range in Hr as [[Hr1 Hr2] ->]; [|lia].
  split; [lia|]. apply Z.mod_le; [nia|lia].
Qed.

(** A quotient of a possibly wrapped product never exceeds the true one. *)
Lemma plain_share_le {E} s x r prod q :
  0 <= s -> 0 <= x -> 0 < r -> plain_mul (E := E) 128 s x = Ok prod -> plain_div (E := E) prod r = Ok q ->
  0 <= q /\ q * r <= s * x.
Proof.
  intros Hs Hx Hr Hm [_ ->]%plain_div_ok. apply plain_mul_le in Hm as [H0' Hle]; [|done..].
  split; [by apply Z.div_pos|]. pose proof (Z.mul_div_le prod r Hr). lia.
Qed.

Lemma plain_add_fits {E} a b r : in_u 128 (a + b) -> plain_add (E := E) 128 a b = Ok r -> r = a + b.
Proof. intros Hin. unfold plain_add. rewrite plain_op_in by done. by intros [= ->]. Qed.

Lemma plain_sub_fits {E} a b r : in_u 128 (a - b) -> plain_sub (E := E) 128 a b = Ok r -> r = a - b.
Proof. intros Hin. unfold plain_sub. rewrite plain_op_in by done. by intros [= ->]. Qed.
Lemma plain_mul_fits {E} a b r : in_u 128 (a * b) -> plain_mul (E := E) 128 a b = Ok r -> r = a * b.
Proof. intros Hin. unfold plain_mul. rewrite plain_op_in by done. by intros [= ->]. Qed.

Lemma pool_data_ok p d : pool_data p = Ok d -> d = mk_Data (borsh_to_vec p).
Proof.
  unfold pool_data, data_expect. destruct (Data_try_from _) eqn:Hd; intros Hp; inv_ok.
  by apply Data_try_from_ok in Hd as [-> _].
Qed.

(** ** Lemmas: the two kinds of swap *)

(** What [swap_with] needs of the logic it is given. *)
Definition logic_ok
    (logic : AccountWithMetadata -> AccountWithMetadata -> AccountWithMetadata -> AccountWithMetadata ->
             Z -> Z -> AccountId -> guest (list ChainedCall * Z * Z)) : Prop :=
  forall ud vd vw uw rd rw pool_id calls deposit withdraw,
  in_u 128 rd -> in_u 128 rw -> logic ud vd vw uw rd rw pool_id = Ok (calls, deposit, withdraw) ->
  0 <= deposit /\
  (exists seed, calls =
    [token_call (program_owner (account ud)) [ud; vd] (Token.Transfer deposit) [];
     token_call (program_owner (account ud)) [authorized vw; uw] (Token.Transfer withdraw) [seed]]) /\
  (rd + deposit < 2 ^ 128 -> 0 < withdraw <= rw /\ rd * rw <= (rd + deposit) * (rw - withdraw)).

Lemma swap_calls_ok ud vd vw uw deposit withdraw pool_id msg calls :
  swap_calls ud vd vw uw deposit withdraw pool_id msg = Ok calls ->
  exists seed, calls =
    [token_call (program_owner (account ud)) [ud; vd] (Token.Transfer deposit) [];
     token_call (program_owner (account ud)) [authorized vw; uw] (Token.Transfer withdraw) [seed]].
Proof. unfold swap_calls. intros Hc. inv_ok. by eexists. Qed.

Lemma swap_logic_ok n m : 0 <= n -> logic_ok (fun ud vd vw uw => swap_logic ud vd vw uw n m).
Proof.
  intros Hn ud vd vw uw rd rw pool_id calls deposit withdraw [Hrd _] [Hrw _] Hl.
  unfold swap_logic in Hl. inv_ok. split; [done|]. split; [by eapply swap_calls_ok|]. intros Hfit.
  apply checked_mul_Some in Hs as [_ ->].
  unfold plain_add in Hs0. rewrite plain_op_in in Hs0 by (unfold in_u; lia). injection Hs0 as <-.
  apply plain_div_ok in Hs1 as [Hne ->].
  destruct (swap_input_product rd rw deposit) as [Hw Hk]; [lia..|].
  split; [|exact Hk]. lia.
Qed.

Lemma exact_output_swap_logic_ok n m :
  0 <= n -> logic_ok (fun ud vd vw uw => exact_output_swap_logic ud vd vw uw n m).
Proof.
  intros Hn ud vd vw uw rd rw pool_id calls deposit withdraw [Hrd _] [Hrw Hrw'] Hl.
  unfold exact_output_swap_logic in Hl. inv_ok.
  apply checked_mul_Some in Hs1 as [_ ->].
  unfold plain_sub in Hs2. rewrite plain_op_in in Hs2 by (unfold in_u; lia). injection Hs2 as <-.
  apply plain_div_ceil_ok in Hs3; [|lia]. split; [nia|]. split; [by eapply swap_calls_ok|]. intros _.
  split; [lia|]. apply swap_output_product; lia.
Qed.

Lemma create_swap_post_states_ok pool p va vb ua ub da wa db wb posts :
  reserves_wf p -> create_swap_post_states pool p va vb ua ub da wa db wb = Ok posts ->
  in_u 128 (reserve_a p + da) -> in_u 128 (reserve_a p + da - wa) ->
  in_u 128 (reserve_b p + db) -> in_u 128 (reserve_b p + db - wb) ->
  posts = pool_post pool (pool_with (liquidity_pool_supply p) (reserve_a p + da - wa)
                            (reserve_b p + db - wb) (active p) p)
          :: ((fun a => PostState_new (account a)) <$> [va; vb; ua; ub]).
Proof.
  intros _ Hc Ha Ha' Hb Hb'. unfold create_swap_post_states, plain_add, plain_sub in Hc.
  rewrite plain_op_in in Hc by done. cbn [mbind outcome_bind] in Hc.
  rewrite plain_op_in in Hc by done. cbn [mbind outcome_bind] in Hc.
  rewrite plain_op_in in Hc by done. cbn [mbind outcome_bind] in Hc.
  rewrite plain_op_in in Hc by done. cbn [mbind outcome_bind] in Hc.
  inv_ok. by apply pool_data_ok in Hs as ->.
Qed.

(** The effects of a swap.  The two transfers it asks for, whatever becomes of
    them; once the token program carries out the deposit, what the pool has become
    and that the vault of the deposit backs the new reserve; and once it carries
    out the withdrawal, that the other vault still does. *)
Definition swap_spec (p : PoolDefinition) (pool va vb ua ub : AccountWithMetadata) (e : Effects) : Prop :=
  exists (a_in : bool) deposit withdraw seed,
    let ud := if a_in then ua else ub in
    let vd := if a_in then va else vb in
    let vw := if a_in then vb else va in
    let uw := if a_in then ub else ua in
    e.2 = [token_call (program_owner (account ud)) [ud; vd] (Token.Transfer deposit) [];
           token_call (program_owner (account ud)) [authorized vw; uw] (Token.Transfer withdraw) [seed]] /\
    forall deposited, Token.handle (Token.Transfer deposit) [ud; vd] = Ok deposited ->
      e.1 = pool_post pool (swapped p a_in deposit withdraw)
            :: ((fun a => PostState_new (account a)) <$> [va; vb; ua; ub]) /\
      0 <= deposit /\ 0 < withdraw <= reserve_out p a_in /\
      reserve_a p * reserve_b p <=
        reserve_a (swapped p a_in deposit withdraw) * reserve_b (swapped p a_in deposit withdraw) /\
      (exists up vp, deposited = [up; vp] /\ backs (reserve_in p a_in + deposit) (post_account vp)) /\
      forall withdrawn, Token.handle (Token.Transfer withdraw) [authorized vw; uw] = Ok withdrawn ->
        exists vp up, withdrawn = [vp; up] /\ backs (reserve_out p a_in - withdraw) (post_account vp).

Lemma validate_swap_setup_ok pool va vb p :
  validate_swap_setup pool va vb = Ok p ->
  pool_of pool = Some p /\ backs (reserve_a p) (account va) /\ backs (reserve_b p) (account vb).
Proof.
  unfold validate_swap_setup, pool_from. intros Hv. inv_ok. split; [done|].
  apply fungible_balance_ok in Hs3 as [ta Ha]. apply fungible_balance_ok in Hs5 as [tb Hb].
  split; by do 2 eexists.
Qed.

(** What the two transfers do to vaults that back the reserves. *)
Lemma deposit_backs user vault n reserve posts :
  0 <= n -> backs reserve (account vault) -> Token.handle (Token.Transfer n) [user; vault] = Ok posts ->
  reserve + n < 2 ^ 128 /\ exists up vp, posts = [up; vp] /\ backs (reserve + n) (post_account vp).
Proof.
  intros Hn (token & b & Hv & Hle) Ht. destruct (deposit_accepted _ _ _ _ _ _ Hn Hv Ht) as (Hfit & up & vp & -> & Hp).
  split; [lia|]. exists up, vp. split; [done|]. exists token, (b + n). split; [done|lia].
Qed.
Lemma withdrawal_backs vault user n reserve posts :
  0 <= n -> backs reserve (account vault) -> Token.handle (Token.Transfer n) [vault; user] = Ok posts ->
  exists vp up, posts = [vp; up] /\ backs (reserve - n) (post_account vp).
Proof.
  intros Hn (token & b & Hv & Hle) Ht. destruct (withdrawal_accepted _ _ _ _ _ _ Hn Hv Ht) as (vp & up & -> & Hp).
  exists vp, up. split; [done|]. exists token, (b - n). split; [done|lia].
Qed.

Lemma swap_with_ok logic pool va vb ua ub token_in e p :
  logic_ok logic -> pool_of pool = Some p -> reserves_wf p ->
  swap_with logic pool va vb ua ub token_in = Ok e -> swap_spec p pool va vb ua ub e.
Proof.
  intros Hlogic Hp Hwf Hs. pose proof Hwf as (Ha & Hb & _). unfold swap_with in Hs.
  apply bind_ok in Hs as (p' & Hv & Hs). apply validate_swap_setup_ok in Hv as (Hp' & Hva & Hvb).
  assert (p' = p) as -> by congruence.
  apply bind_ok in Hs as ([[calls [da wa]] [db wb]] & Hbranch & Hs). cbv beta iota in Hs.
  apply bind_ok in Hs as (posts & Hposts & Heq). injection Heq as <-.
  case_decide; [|case_decide; [|done]].
  - apply bind_ok in Hbranch as ([[calls' deposit] withdraw] & Hl & Heq). cbv beta iota in Heq.
    injection Heq as -> -> <- <- ->. apply Hlogic in Hl as (Hd & [seed ->] & Hk); [|done..].
    exists true, da, wb, seed. cbv zeta. split; [done|]. cbn [reserve_in reserve_out fst]. intros deposited Hdep.
    destruct (deposit_backs _ _ _ _ _ Hd Hva Hdep) as [Hfit Hback]. destruct (Hk Hfit) as (Hw & Hprod).
    split; [|split_and!; try done; try (unfold swapped; cbn; lia)].
    + apply create_swap_post_states_ok in Hposts as ->; [|done|unfold in_u in *; lia..].
      unfold swapped. by rewrite !Z.add_0_r, Z.sub_0_r.
    + intros withdrawn Hwd. apply (withdrawal_backs (authorized vb) ub wb _ withdrawn); [lia|exact Hvb|exact Hwd].
  - apply bind_ok in Hbranch as ([[calls' deposit] withdraw] & Hl & Heq). cbv beta iota in Heq.
    injection Heq as -> <- -> -> <-. apply Hlogic in Hl as (Hd & [seed ->] & Hk); [|done..].
    exists false, db, wa, seed. cbv zeta. split; [done|]. cbn [reserve_in reserve_out fst]. intros deposited Hdep.
    destruct (deposit_backs _ _ _ _ _ Hd Hvb Hdep) as [Hfit Hback]. destruct (Hk Hfit) as (Hw & Hprod).
    split; [|split_and!; try done; try (unfold swapped; cbn; lia)].
    + apply create_swap_post_states_ok in Hposts as ->; [|done|unfold in_u in *; lia..].
      unfold swapped. by rewrite !Z.add_0_r, Z.sub_0_r.
    + intros withdrawn Hwd. apply (withdrawal_backs (authorized va) ua wa _ withdrawn); [lia|exact Hva|exact Hwd].
Qed.
(** ** Properties *)

(** C15. Constant product: a swap of either kind that succeeds asks the token
    program for exactly one deposit and one withdrawal.  Whenever the token program
    carries out the deposit, the pool has changed in its two reserves only, by
    exactly these amounts, the withdrawal is positive and at most the reserve, the
    product of the reserves has not fallen, and the vault of the deposit holds at
    least the new reserve; after the withdrawal so does the other vault.  (A deposit
    that would overflow the reserve overflows the vault too, which holds at least
    the reserve, and the token program refuses it.) *)
Theorem swap_keeps_product i pool va vb ua ub e p n m token_in :
  i = SwapExactInput n m token_in \/ i = SwapExactOutput n m token_in -> 0 <= n ->
  pool_of pool = Some p -> reserves_wf p ->
  handle i [pool; va; vb; ua; ub] = Ok e ->
  swap_spec p pool va vb ua ub e.
Proof.
  intros [-> | ->] Hn Hp Hwf Hh; cbn [handle array5] in Hh; cbv beta iota in Hh;
    cbn [mbind outcome_bind] in Hh; (eapply swap_with_ok; [|done|done|exact Hh]).
  - by apply swap_logic_ok.
  - by apply exact_output_swap_logic_ok.
Qed.

(** No dilution: adding liquidity takes at most the maximal amounts, mints at
    most the liquidity that both deposits are worth at the old rate, whether or not
    the multiplications overflow, and asks the token program for exactly the mint
    and the two deposits. *)
Lemma add_liquidity_no_dilution pool va vb lp ua ub ulp m max_a max_b e p :
  0 <= max_a -> 0 <= max_b -> 0 < m -> pool_of pool = Some p -> reserves_wf p ->
  handle (AddLiquidity m max_a max_b) [pool; va; vb; lp; ua; ub; ulp] = Ok e ->
  exists a b minted, 0 < a <= max_a /\ 0 < b <= max_b /\ m <= minted /\
    minted * reserve_a p <= liquidity_pool_supply p * a /\
    minted * reserve_b p <= liquidity_pool_supply p * b /\
    (let token := program_owner (account ua) in
     e.2 = [token_call token [authorized lp; ulp] (Token.Mint minted) [compute_liquidity_token_pda_seed (account_id pool)];
            token_call token [ub; vb] (Token.Transfer b) []; token_call token [ua; va] (Token.Transfer a) []]) /\
    (in_u 128 (liquidity_pool_supply p + minted) -> in_u 128 (reserve_a p + a) -> in_u 128 (reserve_b p + b) ->
       head e.1 = Some (pool_post pool (pool_with (liquidity_pool_supply p + minted) (reserve_a p + a)
                                          (reserve_b p + b) (active p) p))).
Proof.
  intros Hma Hmb Hm Hp ([Hra _] & [Hrb _] & [Hs0 _]) Hh. cbn [handle array7] in Hh. cbv beta iota in Hh.
  cbn [mbind outcome_bind] in Hh. unfold non_zero in Hh. rewrite decide_False in Hh by lia.
  cbn [mbind outcome_bind] in Hh. unfold add_liquidity in Hh. apply bind_ok in Hh as (p' & Hp' & Hh).
  assert (p' = p) as -> by (unfold pool_from in Hp'; inv_ok; unfold pool_of in Hp; congruence).
  inv_ok. cbn [fst snd head].
  destruct (plain_share_le _ _ (reserve_b p) _ _ Hra Hmb ltac:(lia) Hs10 Hs11) as [Hi1 _].
  destruct (plain_share_le _ _ (reserve_a p) _ _ Hrb Hma ltac:(lia) Hs12 Hs13) as [Hi2 _].
  set (a := if decide (a10 > max_a) then max_a else a10) in *.
  set (b := if decide (a12 > max_b) then max_b else a12) in *.
  assert (0 <= a /\ 0 <= b) as [Ha Hb] by (unfold a, b; repeat case_decide; lia).
  destruct (plain_share_le _ _ (reserve_a p) _ _ Hs0 Ha ltac:(lia) Hs18 Hs19) as [Hl1 Hle1].
  destruct (plain_share_le _ _ (reserve_b p) _ _ Hs0 Hb ltac:(lia) Hs20 Hs21) as [Hl2 Hle2].
  exists a, b, (a18 `min` a20). split_and!; try done; try lia; try nia.
  intros Hf1 Hf2 Hf3. apply plain_add_fits in Hs24 as ->; [|done].
  apply plain_add_fits in Hs25 as ->; [|done]. apply plain_add_fits in Hs26 as ->; [|done].
  by apply pool_data_ok in Hs27 as ->.
Qed.

(** The effects of a withdrawal of [a] and [b] against [burned] liquidity tokens. *)
Definition remove_spec (p : PoolDefinition) (pool va vb lp ua ub ulp : AccountWithMetadata)
    (a b burned : Z) (e : Effects) : Prop :=
  (let token := program_owner (account ua) in
   e.2 = [token_call token [authorized lp; ulp] (Token.Burn burned) [compute_liquidity_token_pda_seed (account_id pool)];
          token_call token [authorized vb; ub] (Token.Transfer b)
            [compute_vault_pda_seed (account_id pool) (definition_token_b_id p)];
          token_call token [authorized va; ua] (Token.Transfer a)
            [compute_vault_pda_seed (account_id pool) (definition_token_a_id p)]]) /\
  head e.1 = Some (pool_post pool (pool_with (liquidity_pool_supply p - burned) (reserve_a p - a) (reserve_b p - b)
                                     (bool_decide (liquidity_pool_supply p - burned <> 0)) p)).

(** C16. Fair withdrawal: when no multiplication of the handler overflows, removing
    [r] liquidity tokens burns exactly [r], pays out at most the proportional part
    of each reserve, at least the requested minimum, and deactivates the pool
    exactly when the last liquidity token is gone. *)
Theorem remove_liquidity_fair pool va vb lp ua ub ulp r min_a min_b e p :
  0 < r <= liquidity_pool_supply p -> pool_of pool = Some p -> reserves_wf p ->
  reserve_a p * r < 2 ^ 128 -> reserve_b p * r < 2 ^ 128 -> liquidity_pool_supply p * r < 2 ^ 128 ->
  handle (RemoveLiquidity r min_a min_b) [pool; va; vb; lp; ua; ub; ulp] = Ok e ->
  exists a b, min_a <= a <= reserve_a p /\ min_b <= b <= reserve_b p /\
    a * liquidity_pool_supply p <= reserve_a p * r /\ b * liquidity_pool_supply p <= reserve_b p * r /\
    remove_spec p pool va vb lp ua ub ulp a b r e.
Proof.
  intros Hr Hp ([Hra Hra'] & [Hrb Hrb'] & [Hs0 Hs0']) Hfa Hfb Hfs Hh. cbn [handle array7] in Hh.
  cbv beta iota in Hh. cbn [mbind outcome_bind] in Hh. unfold non_zero in Hh. rewrite decide_False in Hh by lia.
  cbn [mbind outcome_bind] in Hh. unfold remove_liquidity in Hh. apply bind_ok in Hh as (p' & Hp' & Hh).
  assert (p' = p) as -> by (unfold pool_from in Hp'; inv_ok; unfold pool_of in Hp; congruence).
  inv_ok. set (s := liquidity_pool_supply p) in *.
  destruct (plain_share_le _ _ s _ _ Hra (ltac:(lia) : 0 <= r) ltac:(lia) Hs10 Hs11) as [Ha0 Ha].
  destruct (plain_share_le _ _ s _ _ Hrb (ltac:(lia) : 0 <= r) ltac:(lia) Hs12 Hs13) as [Hb0 Hb].
  apply plain_mul_fits in Hs16 as ->; [|unfold in_u; nia].
  apply plain_div_ok in Hs17 as [_ ->]. 
  assert (Hsr : s * r / s = r) by (rewrite Z.mul_comm; apply Z.div_mul; lia). rewrite Hsr in *.
  assert (a10 <= reserve_a p) by nia. assert (a12 <= reserve_b p) by nia.
  apply plain_sub_fits in Hs18 as ->; [|unfold in_u; lia].
  apply plain_sub_fits in Hs19 as ->; [|unfold in_u; lia].
  apply plain_sub_fits in Hs20 as ->; [|unfold in_u; lia].
  apply pool_data_ok in Hs21 as ->. exists a10, a12. split_and!; try done; try lia; try nia.
Qed.
End AmmProperties.

(** ** A concrete pool *)
Module PoolCodec.
Import Codec TokenCodecs.
Definition pool_codec : codec PoolDefinition :=
  iso (fun x : AccountId * (AccountId * (AccountId * (AccountId * (AccountId * (Z * (Z * (Z * (Z * bool)))))))) =>
         let '(a, (b, (va, (vb, (l, (s, (ra, (rb, (f, act))))))))) := x in mk_Pool a b va vb l s ra rb f act)
      (fun p => (definition_token_a_id p, (definition_token_b_id p, (vault_a_id p, (vault_b_id p,
         (liquidity_pool_id p, (liquidity_pool_supply p, (reserve_a p, (reserve_b p, (fees p, active p))))))))))
      (pair id_codec (pair id_codec (pair id_codec (pair id_codec (pair id_codec
        (pair (uint 16) (pair (uint 16) (pair (uint 16) (pair (uint 16) bool_codec))))))))).
End PoolCodec.
#[global] Instance pool_borsh : Borsh PoolDefinition := Codec.to_borsh PoolCodec.pool_codec.

(** A pool of tokens 1 and 2 with vaults 3 and 4 and liquidity token 5. *)
Definition amm_id : ProgramId := replicate 8 3.
Definition sample_pool (supply a b : Z) : PoolDefinition :=
  mk_Pool (sample_id 1) (sample_id 2) (sample_id 3) (sample_id 4) (sample_id 5) supply a b 0 true.
Definition pool_account (supply a b : Z) : AccountWithMetadata :=
  mk_AWM (sample_account amm_id 0 (sample_pool supply a b)) false (sample_id 6).
Definition holding_account (id token : Z) (b : Z) : AccountWithMetadata :=
  mk_AWM (sample_account token_id 0 (Fungible (sample_id token) b)) false (sample_id id).
Definition with_liquidity (supply a b user_lp : Z) : list AccountWithMetadata :=
  [pool_account supply a b; holding_account 3 1 a; holding_account 4 2 b; holding_account 5 5 0;
   holding_account 7 1 1000; holding_account 8 2 1000; holding_account 9 5 user_lp].
Definition for_swap (supply a b : Z) : list AccountWithMetadata :=
  [pool_account supply a b; holding_account 3 1 a; holding_account 4 2 b;
   authorized (holding_account 7 1 1000); holding_account 8 2 1000].

(** Release profile. *)
#[local] Instance wrapping : OverflowChecks := false.

(** Overflow: the handler multiplies the supply by the amount to remove before
    dividing by the supply again.  In the release profile the product wraps, and a
    user without any liquidity token withdraws from both reserves while nothing is
    burned. *)
Theorem liquidity_withdrawn_without_burning :
  let p := sample_pool (3 * 2 ^ 63) (2 ^ 64) (9 * 2 ^ 62) in
  exists r e a b,
    handle (RemoveLiquidity r 1 1) (with_liquidity (3 * 2 ^ 63) (2 ^ 64) (9 * 2 ^ 62) 0) = Ok e /\
    0 < a /\ 0 < b /\
    remove_spec p (pool_account (3 * 2 ^ 63) (2 ^ 64) (9 * 2 ^ 62)) (holding_account 3 1 (2 ^ 64))
      (holding_account 4 2 (9 * 2 ^ 62)) (holding_account 5 5 0) (holding_account 7 1 1000)
      (holding_account 8 2 1000) (holding_account 9 5 0) a b 0 e.
Proof.
  intros p. set (r := 12297829382473034411).
  destruct (run_ok (handle (RemoveLiquidity r 1 1) (with_liquidity (3 * 2 ^ 63) (2 ^ 64) (9 * 2 ^ 62) 0))
    (fun _ => true)) as (e & Hrun & _); [vm_compute; reflexivity|].
  exists r, e, 8198552921648689607, 6148914691236517205.
  split; [exact Hrun|]. split; [lia|]. split; [lia|].
  vm_compute in Hrun. injection Hrun as <-. split; vm_compute; reflexivity.
Qed.

(** A pool created with amounts whose product wraps to zero has reserves and no
    liquidity tokens, so nobody can ever withdraw from it. *)
Definition new_pool_accounts (a b : Z) : list AccountWithMetadata :=
  let lp id := mk_AWM Account_default false id in
  match compute_pool_pda amm_id (sample_id 1) (sample_id 2) with
  | Ok pool_id =>
      [lp pool_id; lp (compute_vault_pda amm_id pool_id (sample_id 1));
       lp (compute_vault_pda amm_id pool_id (sample_id 2)); lp (compute_liquidity_token_pda amm_id pool_id);
       holding_account 7 1 a; holding_account 8 2 b; lp (sample_id 9)]
  | _ => []
  end.
Lemma new_pool_without_liquidity_tokens :
  exists e post p, handle (NewDefinition (2 ^ 64) (2 ^ 64) amm_id) (new_pool_accounts (2 ^ 64) (2 ^ 64)) = Ok e /\
    head e.1 = Some post /\ borsh_try_from_slice (data_bytes (data (post_account post))) = Some p /\
    liquidity_pool_supply p = 0 /\ reserve_a p = 2 ^ 64 /\ reserve_b p = 2 ^ 64 /\ active p = true.
Proof.
  set (check (e : Effects) := match head e.1 with
    | Some post => match borsh_try_from_slice (data_bytes (data (post_account post))) with
        | Some p => bool_decide (liquidity_pool_supply p = 0) && bool_decide (reserve_a p = 2 ^ 64) &&
                    bool_decide (reserve_b p = 2 ^ 64) && active p
        | None => false end
    | None => false end).
  destruct (run_ok (handle (NewDefinition (2 ^ 64) (2 ^ 64) amm_id) (new_pool_accounts (2 ^ 64) (2 ^ 64))) check)
    as (e & Hrun & Hc); [vm_compute; reflexivity|]. unfold check in Hc.
  destruct (head e.1) as [post|] eqn:Hpost; [|done].
  destruct (borsh_try_from_slice _) as [p|] eqn:Hp; [|done].
  rewrite !andb_true_iff, !bool_decide_eq_true in Hc. destruct Hc as [[[Hs Ha] Hb] Hact].
  exists e, post, p. exact (conj Hrun (conj Hpost (conj Hp (conj Hs (conj Ha (conj Hb Hact)))))).
Qed.

(** ** Witnesses *)
Lemma swap_keeps_product_witness :
  let user := authorized (holding_account 7 1 1000) in
  exists e deposited, handle (SwapExactOutput 10 1000 (sample_id 1)) (for_swap 100 100 100) = Ok e /\
    head e.2 = Some (token_call token_id [user; holding_account 3 1 100] (Token.Transfer 12) []) /\
    Token.handle (Token.Transfer 12) [user; holding_account 3 1 100] = Ok deposited /\
    swap_spec (sample_pool 100 100 100) (pool_account 100 100 100) (holding_account 3 1 100)
      (holding_account 4 2 100) user (holding_account 8 2 1000) e.
Proof.
  intros user.
  assert (exists e, handle (SwapExactOutput 10 1000 (sample_id 1)) (for_swap 100 100 100) = Ok e /\
    head e.2 = Some (token_call token_id [user; holding_account 3 1 100] (Token.Transfer 12) []))
    as (e & Hrun & Hhead) by (eexists; split; vm_compute; reflexivity).
  destruct (run_ok (Token.handle (Token.Transfer 12) [user; holding_account 3 1 100]) (fun _ => true))
    as (deposited & Hdep & _); [vm_compute; reflexivity|].
  exists e, deposited. split; [exact Hrun|]. split; [exact Hhead|]. split; [exact Hdep|].
  assert (Hempty : borsh_try_from_slice (A := TokenHolding) [] = None) by (vm_compute; reflexivity).
  apply (swap_keeps_product Hempty
    (SwapExactOutput 10 1000 (sample_id 1)) (pool_account 100 100 100)
    (holding_account 3 1 100) (holding_account 4 2 100) user (holding_account 8 2 1000)
    e (sample_pool 100 100 100) 10 1000 (sample_id 1)).
  - right. reflexivity.
  - lia.
  - vm_compute. reflexivity.
  - unfold reserves_wf, in_u. cbn. lia.
  - exact Hrun.
Defined.

Lemma add_liquidity_no_dilution_witness :
  exists e a b minted, handle (AddLiquidity 1 20 10) (with_liquidity 100 100 100 0) = Ok e /\
    0 < a <= 20 /\ 0 < b <= 10 /\ 1 <= minted /\ minted * 100 <= 100 * a.
Proof.
  destruct (run_ok (handle (AddLiquidity 1 20 10) (with_liquidity 100 100 100 0)) (fun _ => true))
    as (e & Hrun & _); [vm_compute; reflexivity|].
  destruct (add_liquidity_no_dilution (pool_account 100 100 100) (holding_account 3 1 100)
    (holding_account 4 2 100) (holding_account 5 5 0) (holding_account 7 1 1000) (holding_account 8 2 1000)
    (holding_account 9 5 0) 1 20 10 e (sample_pool 100 100 100)) as (a & b & minted & Ha & Hb & Hm & Hle & _).
  - lia.
  - lia.
  - lia.
  - vm_compute. reflexivity.
  - unfold reserves_wf, in_u. cbn. lia.
  - exact Hrun.
  - exists e, a, b, minted. exact (conj Hrun (conj Ha (conj Hb (conj Hm Hle)))).
Defined.

Lemma remove_liquidity_fair_witness :
  exists e a b, handle (RemoveLiquidity 30 1 1) (with_liquidity 100 100 100 30) = Ok e /\
    1 <= a <= 100 /\ 1 <= b <= 100.
Proof.
  destruct (run_ok (handle (RemoveLiquidity 30 1 1) (with_liquidity 100 100 100 30)) (fun _ => true))
    as (e & Hrun & _); [vm_compute; reflexivity|].
  destruct (remove_liquidity_fair (pool_account 100 100 100) (holding_account 3 1 100)
    (holding_account 4 2 100) (holding_account 5 5 0) (holding_account 7 1 1000) (holding_account 8 2 1000)
    (holding_account 9 5 30) 30 1 1 e (sample_pool 100 100 100)) as (a & b & Ha & Hb & _).
  - cbn. lia.
  - vm_compute. reflexivity.
  - unfold reserves_wf, in_u. cbn. lia.
  - cbn. lia.
  - cbn. lia.
  - cbn. lia.
  - exact Hrun.
  - exists e, a, b. exact (conj Hrun (conj Ha Hb)).
Defined.
