(* ===== verification/Chain.v ===== *)
(** Transactions and blocks of the chain: [common/src/transaction.rs] and
    [common/src/block.rs].

    [NSSATransaction] wraps the three kinds of transactions; every user
    transaction passes [transaction_stateless_check] and [validate_on_state].
    A block ends with the invocation of the clock program for its timestamp. *)

From S2P Require Import Prelude Bytes Crypto Account Ids Borsh ProgramCore Host MerkleTree State Encryption CircuitIo Transactions StateDiffs.

Open Scope Z_scope.

(** ** common/src/transaction.rs *)
Inductive NSSATransaction :=
  | Public (tx : PublicTransaction)
  | PrivacyPreserving (tx : PrivacyPreservingTransaction)
  | ProgramDeployment (tx : ProgramDeploymentTransaction).

Inductive TransactionMalformationError :=
  | InvalidSignature
  | FailedToDecode (tx : list byte)
  | TransactionTooLarge (size max : Z).

#[global] Instance PublicMessage_eq_dec : EqDecision PublicMessage.
Proof. solve_decision. Defined.
#[global] Instance PublicWitnessSet_eq_dec : EqDecision PublicWitnessSet.
Proof. solve_decision. Defined.
#[global] Instance PublicTransaction_eq_dec : EqDecision PublicTransaction.
Proof. solve_decision. Defined.
#[global] Instance EphemeralPublicKey_eq_dec : EqDecision EphemeralPublicKey.
Proof. solve_decision. Defined.
#[global] Instance EncryptedAccountData_eq_dec : EqDecision EncryptedAccountData.
Proof. solve_decision. Defined.
#[global] Instance PrivacyMessage_eq_dec : EqDecision PrivacyMessage.
Proof. solve_decision. Defined.
#[global] Instance Proof_eq_dec : EqDecision Proof_.
Proof. solve_decision. Defined.
#[global] Instance PrivacyWitnessSet_eq_dec : EqDecision PrivacyWitnessSet.
Proof. solve_decision. Defined.
#[global] Instance PrivacyPreservingTransaction_eq_dec : EqDecision PrivacyPreservingTransaction.
Proof. solve_decision. Defined.
#[global] Instance DeploymentMessage_eq_dec : EqDecision DeploymentMessage.
Proof. solve_decision. Defined.
#[global] Instance ProgramDeploymentTransaction_eq_dec : EqDecision ProgramDeploymentTransaction.
Proof. solve_decision. Defined.
#[global] Instance NSSATransaction_eq_dec : EqDecision NSSATransaction.
Proof. solve_decision. Defined.

(** The third-party and generated code that validation relies on. *)
Class Validation := {
  validation_sha256 :: Sha256;
  validation_zkvm :: ZkVm;
  validation_schnorr :: Schnorr;
  validation_pub_borsh :: Borsh PublicMessage;
  validation_priv_borsh :: Borsh PrivacyMessage;
  validation_receipts :: Receipts;
  validation_serde :: Serde PrivacyPreservingCircuitOutput;
  validation_risc0 :: RiscZeroBinary;
  validation_programs :: BuiltinPrograms;
  validation_clock :: Serde Timestamp;
}.

(** [NSSATransaction::hash], over the derived encodings. *)
Class TransactionEncodings := {
  encoding_public :: Borsh PublicTransaction;
  encoding_privacy :: Borsh PrivacyPreservingTransaction;
  encoding_deployment :: Borsh ProgramDeploymentTransaction;
}.
Abbreviation HashType := (list byte).
Definition tx_hash `{Sha256, TransactionEncodings} (tx : NSSATransaction) : HashType :=
  match tx with
  | Public tx => pub_tx_hash tx
  | PrivacyPreserving tx => priv_tx_hash tx
  | ProgramDeployment tx => dep_tx_hash tx
  end.
Definition affected_public_account_ids `{Sha256} (tx : NSSATransaction) : gset AccountId :=
  match tx with
  | ProgramDeployment tx => dep_affected_public_account_ids tx
  | Public tx => pub_affected_public_account_ids tx
  | PrivacyPreserving tx => priv_affected_public_account_ids tx
  end.

Section Validate.
Context `{Validation}.

Definition transaction_stateless_check (tx : NSSATransaction) :
    outcome TransactionMalformationError NSSATransaction :=
  match tx with
  | Public t =>
      if pub_is_valid_for (pub_witness_set t) (pub_message t) then Ok tx else Err InvalidSignature
  | PrivacyPreserving t =>
      if signatures_are_valid_for (priv_witness_set t) (priv_message t) then Ok tx else Err InvalidSignature
  | ProgramDeployment _ => Ok tx
  end.

(** [CLOCK_PROGRAM_ACCOUNT_IDS.iter().any(..)] *)
Definition touches_clock (state : V03State) (public_diff : gmap AccountId Account) : bool :=
  existsb (fun id => match public_diff !! id with
                     | Some post => bool_decide (post <> get_account_by_id state id)
                     | None => false
                     end) CLOCK_PROGRAM_ACCOUNT_IDS.

Definition validate_on_state (tx : NSSATransaction) (state : V03State) (block_id : BlockId)
    (timestamp : Timestamp) : outcome NssaError StateDiff :=
  ensure (match tx with
          | Public t => negb (bool_decide (pub_program_id (pub_message t) = program_id faucet_program))
          | _ => true
          end) (InvalidInput "Transaction invokes restricted faucet program") ;;
  diff ← match tx with
         | Public t => from_public_transaction state block_id timestamp t
         | PrivacyPreserving t => from_privacy_preserving_transaction state block_id timestamp t
         | ProgramDeployment t => from_program_deployment_transaction state t
         end;
  ensure (negb (touches_clock state (public_diff diff)))
    (InvalidInput "Transaction modifies system clock accounts") ;;
  Ok diff.

Definition execute_check_on_state (tx : NSSATransaction) (state : V03State) (block_id : BlockId)
    (timestamp : Timestamp) : outcome NssaError V03State :=
  diff ← validate_on_state tx state block_id timestamp;
  apply_state_diff state diff.

(** [clock_invocation] *)
Definition clock_invocation (timestamp : Timestamp) : PublicTransaction :=
  mk_PublicTx
    (mk_PublicMessage (program_id clock_program) CLOCK_PROGRAM_ACCOUNT_IDS [] (serde_to_vec timestamp))
    (mk_PublicWitnessSet []).
End Validate.

(** ** common/src/block.rs *)
Record BlockMeta := mk_BlockMeta { meta_id : BlockId; meta_hash : HashType; meta_msg_id : list byte }.
Record BlockHeader := mk_BlockHeader {
  header_block_id : BlockId;
  prev_block_hash : HashType;
  header_hash : HashType;
  header_timestamp : Timestamp;
  signature : Signature;
}.
Inductive BedrockStatus := Pending | Safe | Finalized.
Record Block := mk_Block {
  header : BlockHeader;
  body : list NSSATransaction;
  bedrock_status : BedrockStatus;
  bedrock_parent_id : list byte;
}.
Record HashableBlockData := mk_Hashable {
  hd_block_id : BlockId;
  hd_prev_block_hash : HashType;
  hd_timestamp : Timestamp;
  hd_transactions : list NSSATransaction;
}.

(** The derived encoding of block data.  borsh lays out the fields one after the
    other: two [u64], a 32-byte hash, and a [u32] length before the elements of
    the vector; [block_data_length] states the length this gives. *)
Class BlockEncodings := {
  encoding_tx :: Borsh NSSATransaction;
  encoding_block :: Borsh HashableBlockData;
}.
Definition encoded_length `{BlockEncodings} (tx : NSSATransaction) : Z := Z.of_nat (length (borsh_to_vec tx)).
Class BlockEncodingLaws `{BlockEncodings} := block_data_length b :
  length (hd_prev_block_hash b) = 32%nat ->
  Z.of_nat (length (borsh_to_vec b)) = 52 + sum_Z (encoded_length <$> hd_transactions b).

Definition BLOCK_PREFIX : list byte := bstr "/LEE/v0.3/Message/Block/" ++ zeros 8.
(** [OwnHasher::hash] *)
Definition own_hash `{Sha256} (data : list byte) : HashType := hash_bytes data.
(** The hash that [into_pending_block] puts in the header. *)
Definition block_hash `{Sha256, BlockEncodings} (b : HashableBlockData) : HashType :=
  own_hash (BLOCK_PREFIX ++ borsh_to_vec b).
(** [into_pending_block]; [sign] is [Signature::new] for the signing key and the
    randomness it draws. *)
Definition into_pending_block `{Sha256, BlockEncodings} (b : HashableBlockData)
    (sign : HashType -> Signature) (parent : list byte) : Block :=
  let hash := block_hash b in
  mk_Block (mk_BlockHeader (hd_block_id b) (hd_prev_block_hash b) hash (hd_timestamp b) (sign hash))
    (hd_transactions b) Pending parent.
(** [From<Block> for HashableBlockData] *)
Definition hashable_of (b : Block) : HashableBlockData :=
  mk_Hashable (header_block_id (header b)) (prev_block_hash (header b)) (header_timestamp (header b)) (body b).

(** ** Lemmas *)
Section ChainFacts.
Context `{Validation}.

Lemma stateless_check_ok tx tx' : transaction_stateless_check tx = Ok tx' -> tx' = tx.
Proof. destruct tx; cbn; [case_match| case_match|]; congruence. Qed.

Lemma validate_ok_diff tx st id ts d :
  validate_on_state tx st id ts = Ok d ->
  match tx with
  | Public t => from_public_transaction st id ts t = Ok d
  | PrivacyPreserving t => from_privacy_preserving_transaction st id ts t = Ok d
  | ProgramDeployment t => from_program_deployment_transaction st t = Ok d
  end /\ touches_clock st (public_diff d) = false.
Proof.
  unfold validate_on_state. intros Hv. apply bind_ok in Hv as (u & _ & Hv).
  apply bind_ok in Hv as (d' & Hd & Hv). apply bind_ok in Hv as (u' & Hc & Hv).
  injection Hv as ->. apply ensure_ok, negb_true_iff in Hc. split; [|exact Hc].
  destruct tx; exact Hd.
Qed.

(** A validated transaction already carries valid signatures. *)
Lemma validated_stateless tx st id ts d :
  validate_on_state tx st id ts = Ok d -> transaction_stateless_check tx = Ok tx.
Proof.
  intros [Hd _]%validate_ok_diff. destruct tx as [t|t|t]; cbn; [| |done].
  - unfold from_public_transaction, check_public_message in Hd. inv_ok.
    match goal with Hv : pub_is_valid_for _ _ = true |- _ => by rewrite Hv end.
  - unfold from_privacy_preserving_transaction, check_privacy_message in Hd. inv_ok.
    match goal with Hv : signatures_are_valid_for _ _ = true |- _ => by rewrite Hv end.
Qed.
End ChainFacts.

Lemma hashable_of_pending `{Sha256, BlockEncodings} b sign parent :
  hashable_of (into_pending_block b sign parent) = b.
Proof. by destruct b. Qed.
