(* ===== verification/SequencerStore.v ===== *)
(** The database of the sequencer: [storage/src/sequencer/mod.rs],
    [storage/src/cells] and [sequencer/core/src/block_store.rs].

    RocksDB is a persistent map from the keys of a column family to values: the
    column family of blocks is a finite map and a cell with a fixed key is an
    optional value.  A write batch takes effect as a whole.  I/O failures of the
    database are not modelled. *)

From S2P Require Import Prelude Bytes Crypto Account Ids Borsh ProgramCore Host MerkleTree State Transactions StateDiffs Chain.

Open Scope Z_scope.

(** ** storage/src/error.rs: the error that is not an I/O or encoding failure *)
Inductive DbError := DbInteractionError (additional_info : string).
#[global] Instance DbError_eq_dec : EqDecision DbError.
Proof. solve_decision. Defined.

(** ** storage/src/sequencer/mod.rs *)
Module SeqDb.
Record RocksDBIO := mk_RocksDBIO {
  cf_block : gmap BlockId Block;
  first_block_in_db : option BlockId;
  first_block_set : option bool;
  last_block_in_db : option BlockId;
  last_finalized_block_id : option (option BlockId);
  latest_block_meta_cell : option BlockMeta;
  nssa_state_cell : option V03State;
  zone_sdk_checkpoint : option (list byte);
}.
Definition empty : RocksDBIO := mk_RocksDBIO ∅ None None None None None None None.

(** The writers of the cells: [put] of each cell. *)
Definition put_cf_block (id : BlockId) (b : Block) (d : RocksDBIO) : RocksDBIO :=
  mk_RocksDBIO (<[id := b]> (cf_block d)) (first_block_in_db d) (first_block_set d) (last_block_in_db d)
    (last_finalized_block_id d) (latest_block_meta_cell d) (nssa_state_cell d) (zone_sdk_checkpoint d).
Definition delete_cf_block (id : BlockId) (d : RocksDBIO) : RocksDBIO :=
  mk_RocksDBIO (delete id (cf_block d)) (first_block_in_db d) (first_block_set d) (last_block_in_db d)
    (last_finalized_block_id d) (latest_block_meta_cell d) (nssa_state_cell d) (zone_sdk_checkpoint d).
Definition put_first_block_cell (id : BlockId) (d : RocksDBIO) : RocksDBIO :=
  mk_RocksDBIO (cf_block d) (Some id) (first_block_set d) (last_block_in_db d)
    (last_finalized_block_id d) (latest_block_meta_cell d) (nssa_state_cell d) (zone_sdk_checkpoint d).
Definition put_meta_is_first_block_set (d : RocksDBIO) : RocksDBIO :=
  mk_RocksDBIO (cf_block d) (first_block_in_db d) (Some true) (last_block_in_db d)
    (last_finalized_block_id d) (latest_block_meta_cell d) (nssa_state_cell d) (zone_sdk_checkpoint d).
Definition put_meta_last_block_in_db (id : BlockId) (d : RocksDBIO) : RocksDBIO :=
  mk_RocksDBIO (cf_block d) (first_block_in_db d) (first_block_set d) (Some id)
    (last_finalized_block_id d) (latest_block_meta_cell d) (nssa_state_cell d) (zone_sdk_checkpoint d).
Definition put_meta_last_finalized_block_id (id : option BlockId) (d : RocksDBIO) : RocksDBIO :=
  mk_RocksDBIO (cf_block d) (first_block_in_db d) (first_block_set d) (last_block_in_db d)
    (Some id) (latest_block_meta_cell d) (nssa_state_cell d) (zone_sdk_checkpoint d).
Definition put_meta_latest_block_meta (m : BlockMeta) (d : RocksDBIO) : RocksDBIO :=
  mk_RocksDBIO (cf_block d) (first_block_in_db d) (first_block_set d) (last_block_in_db d)
    (last_finalized_block_id d) (Some m) (nssa_state_cell d) (zone_sdk_checkpoint d).
Definition put_nssa_state_in_db (st : V03State) (d : RocksDBIO) : RocksDBIO :=
  mk_RocksDBIO (cf_block d) (first_block_in_db d) (first_block_set d) (last_block_in_db d)
    (last_finalized_block_id d) (latest_block_meta_cell d) (Some st) (zone_sdk_checkpoint d).
Definition put_zone_sdk_checkpoint_bytes (bs : list byte) (d : RocksDBIO) : RocksDBIO :=
  mk_RocksDBIO (cf_block d) (first_block_in_db d) (first_block_set d) (last_block_in_db d)
    (last_finalized_block_id d) (latest_block_meta_cell d) (nssa_state_cell d) (Some bs).

(** The readers: [DBIO::get], which fails on a missing cell, and [get_opt]. *)
Definition get_cell {A} (cell : option A) (name : string) : outcome DbError A :=
  ok_or cell (DbInteractionError (name +:+ " not found")).
Definition get_meta_first_block_in_db (d : RocksDBIO) : outcome DbError BlockId :=
  get_cell (first_block_in_db d) "first_block_in_db".
Definition get_meta_last_block_in_db (d : RocksDBIO) : outcome DbError BlockId :=
  get_cell (last_block_in_db d) "last_block_in_db".
Definition get_meta_is_first_block_set (d : RocksDBIO) : bool := bool_decide (is_Some (first_block_set d)).
Definition latest_block_meta (d : RocksDBIO) : outcome DbError BlockMeta :=
  get_cell (latest_block_meta_cell d) "latest_block_meta".
Definition get_nssa_state (d : RocksDBIO) : outcome DbError V03State :=
  get_cell (nssa_state_cell d) "nssa_state".
Definition get_block (d : RocksDBIO) (id : BlockId) : option Block := cf_block d !! id.
(** In the order of the encoded keys, which nothing below depends on. *)
Definition get_all_blocks (d : RocksDBIO) : list Block := (map_to_list (cf_block d)).*2.

Definition put_block (b : Block) (msg_id : list byte) (first : bool) (d : RocksDBIO) :
    outcome DbError RocksDBIO :=
  d ← (if first then Ok d
       else
         last_curr_block ← get_meta_last_block_in_db d;
         if decide (header_block_id (header b) > last_curr_block) then
           Ok (put_meta_latest_block_meta (mk_BlockMeta (header_block_id (header b)) (header_hash (header b)) msg_id)
                 (put_meta_last_block_in_db (header_block_id (header b)) d))
         else Ok d);
  Ok (put_cf_block (header_block_id (header b)) b d).
Definition put_meta_first_block_in_db (b : Block) (msg_id : list byte) (d : RocksDBIO) :
    outcome DbError RocksDBIO :=
  put_block b msg_id true (put_first_block_cell (header_block_id (header b)) d).

(** [create], on the contents [d] that the directory may already have *)
Definition create (d : RocksDBIO) (genesis_block : Block) (genesis_msg_id : list byte)
    (genesis_state : V03State) : outcome DbError RocksDBIO :=
  if get_meta_is_first_block_set d then Ok d
  else
    let block_id := header_block_id (header genesis_block) in
    d ← put_meta_first_block_in_db genesis_block genesis_msg_id d;
    Ok (put_nssa_state_in_db genesis_state
         (put_meta_latest_block_meta (mk_BlockMeta block_id (header_hash (header genesis_block)) genesis_msg_id)
           (put_meta_last_finalized_block_id None
             (put_meta_last_block_in_db block_id (put_meta_is_first_block_set d))))).

Definition delete_block (id : BlockId) (d : RocksDBIO) : outcome DbError RocksDBIO :=
  match get_block d id with
  | None => Err (DbInteractionError "Block not found")
  | Some _ => Ok (delete_cf_block id d)
  end.
Definition set_status (s : BedrockStatus) (b : Block) : Block :=
  mk_Block (header b) (body b) s (bedrock_parent_id b).
Definition mark_block_as_finalized (id : BlockId) (d : RocksDBIO) : outcome DbError RocksDBIO :=
  b ← ok_or (get_block d id) (DbInteractionError "Block not found");
  Ok (put_cf_block id (set_status Finalized b) d).
Definition is_pending (b : Block) : bool := match bedrock_status b with Pending => true | _ => false end.
Definition clean_pending_blocks_up_to (last_finalized : BlockId) (d : RocksDBIO) : outcome DbError RocksDBIO :=
  let pending_ids := filter (fun id => id <= last_finalized)
    ((fun b => header_block_id (header b)) <$> filter (fun b => is_pending b = true) (get_all_blocks d)) in
  fold_o (fun d id => mark_block_as_finalized id d) d pending_ids.
Definition atomic_update (b : Block) (msg_id : list byte) (st : V03State) (d : RocksDBIO) :
    outcome DbError RocksDBIO :=
  d ← put_block b msg_id false d;
  Ok (put_nssa_state_in_db st d).
End SeqDb.

(** ** sequencer/core/src/block_store.rs *)
Record SequencerStore := mk_SequencerStore {
  dbio : SeqDb.RocksDBIO;
  tx_hash_to_block_map : gmap HashType BlockId;
  genesis_id : BlockId;
}.

Section Store.
Context `{Sha256, TransactionEncodings}.

(** [iter().map(..).collect::<HashMap<_, _>>()] *)
Definition block_to_transactions_map (b : Block) : gmap HashType BlockId :=
  foldl (fun m tx => <[tx_hash tx := header_block_id (header b)]> m) ∅ (body b).

(** [open_db]: the loop over [genesis_id..=last_id], [n] ids from [i] on *)
Fixpoint block_cache (d : SeqDb.RocksDBIO) (n : nat) (i : BlockId) (m : gmap HashType BlockId) :
    outcome DbError (gmap HashType BlockId) :=
  match n with
  | O => Ok m
  | S n =>
      b ← expect (SeqDb.get_block d i) "Block should be present in the database";
      block_cache d n (i + 1) (block_to_transactions_map b ∪ m)
  end.
Definition open_db (d : SeqDb.RocksDBIO) : outcome DbError SequencerStore :=
  genesis ← SeqDb.get_meta_first_block_in_db d;
  meta ← SeqDb.latest_block_meta d;
  m ← block_cache d (Z.to_nat (meta_id meta - genesis + 1)) genesis ∅;
  Ok (mk_SequencerStore d m genesis).
Definition create_db_with_genesis (d : SeqDb.RocksDBIO) (genesis_block : Block)
    (genesis_msg_id : list byte) (genesis_state : V03State) : outcome DbError SequencerStore :=
  d ← SeqDb.create d genesis_block genesis_msg_id genesis_state;
  genesis ← SeqDb.get_meta_first_block_in_db d;
  Ok (mk_SequencerStore d (block_to_transactions_map genesis_block) genesis).

Definition get_block_at_id (s : SequencerStore) (id : BlockId) : option Block := SeqDb.get_block (dbio s) id.
Definition get_transaction_by_hash (s : SequencerStore) (hash : HashType) :
    outcome DbError (option NSSATransaction) :=
  match tx_hash_to_block_map s !! hash with
  | None => Ok None
  | Some block_id =>
      b ← expect (get_block_at_id s block_id) "Block should be present since the hash is in the map";
      match List.find (fun tx => bool_decide (tx_hash tx = hash)) (body b) with
      | Some tx => Ok (Some tx)
      | None => Panic "Transaction hash was in the map but transaction was not found in the block. This should never happen."
      end
  end.
Definition store_update (s : SequencerStore) (b : Block) (msg_id : list byte) (st : V03State) :
    outcome DbError SequencerStore :=
  let new_transactions_map := block_to_transactions_map b in
  d ← SeqDb.atomic_update b msg_id st (dbio s);
  Ok (mk_SequencerStore d (new_transactions_map ∪ tx_hash_to_block_map s) (genesis_id s)).
End Store.
