(* ===== verification/Sequencer.v ===== *)
(** The sequencer: [mempool/src/lib.rs], [sequencer/core/src/lib.rs] and
    [send_transaction] of [sequencer/service/src/service.rs].

    [build_block_from_mempool] takes transactions from the mempool, validates and
    applies them one after the other, closes the block with the clock
    transaction, and [produce_new_block] stores the block and the state.  The
    transactions that the service pushes while a block is built are, for the
    block, the same as transactions pushed before. *)

From S2P Require Import Prelude Bytes Crypto Account Ids Borsh ProgramCore Host MerkleTree State NativePrograms Transactions StateDiffs Chain SequencerStore.

Open Scope Z_scope.

(** ** mempool/src/lib.rs *)
(** [receiver] is the bounded channel, oldest item first; [front_buffer] is the
    vector, last pushed item first. *)
Record MemPool := mk_MemPool {
  receiver : list NSSATransaction;
  front_buffer : list NSSATransaction;
  max_size : nat;
}.
Definition MemPool_new {E} (max_size : nat) : outcome E MemPool :=
  assert_ (bool_decide (max_size <> 0%nat)) "mpsc bounded channel requires buffer > 0" ;;
  Ok (mk_MemPool [] [] max_size).
Definition mempool_pop (m : MemPool) : option (NSSATransaction * MemPool) :=
  match front_buffer m with
  | tx :: front => Some (tx, mk_MemPool (receiver m) front (max_size m))
  | [] => match receiver m with
          | tx :: rest => Some (tx, mk_MemPool rest [] (max_size m))
          | [] => None
          end
  end.
Definition push_front (tx : NSSATransaction) (m : MemPool) : MemPool :=
  mk_MemPool (receiver m) (tx :: front_buffer m) (max_size m).
(** [MemPoolHandle::push]: [None] while the channel is full and the call waits. *)
Definition mempool_push (tx : NSSATransaction) (m : MemPool) : option MemPool :=
  if decide (length (receiver m) < max_size m)%nat then
    Some (mk_MemPool (receiver m ++ [tx]) (front_buffer m) (max_size m))
  else None.
(** The order in which transactions are popped. *)
Definition mempool_items (m : MemPool) : list NSSATransaction := front_buffer m ++ receiver m.

(** ** sequencer/core *)
Inductive GenesisAction := SupplyAccount (account_id : AccountId) (balance : Z).
Record SequencerConfig := mk_Config {
  max_num_tx_in_block : nat;
  max_block_size : Z;
  mempool_max_size : nat;
  genesis : list GenesisAction;
}.
Record SequencerCore := mk_Sequencer {
  state : V03State;
  store : SequencerStore;
  mempool : MemPool;
  sequencer_config : SequencerConfig;
  chain_height : Z;
}.
Inductive SequencerError :=
  | StoreError (e : DbError)
  | ClockTransactionFailed (e : NssaError)
  | StateError (e : NssaError).

(** What the loop over the mempool has changed so far. *)
Record Progress := mk_Progress {
  pr_state : V03State;
  pr_mempool : MemPool;
  valid_transactions : list NSSATransaction;
}.

Section Sequencer.
Context `{Validation, TransactionEncodings, BlockEncodings, Serde Faucet.Instruction}.

Definition next_block_id (s : SequencerCore) : outcome SequencerError BlockId :=
  expect (checked_add 64 (chain_height s) 1) "Max block height reached".

(** The size check: the block with one more transaction and the clock. *)
Definition block_size (height : BlockId) (prev : HashType) (now : Timestamp)
    (txs : list NSSATransaction) : Z :=
  Z.of_nat (length (borsh_to_vec (mk_Hashable height prev now txs))).

(** The [while let] loop.  [None] means that the fuel ran out. *)
Fixpoint collect_loop (fuel : nat) (cfg : SequencerConfig) (height : BlockId) (prev : HashType)
    (now : Timestamp) (p : Progress) : option (outcome SequencerError Progress) :=
  match fuel with
  | O => None
  | S fuel =>
      match mempool_pop (pr_mempool p) with
      | None => Some (Ok p)
      | Some (tx, m) =>
          let txs := valid_transactions p in
          if decide (block_size height prev now (txs ++ [tx; Public (clock_invocation now)]) > max_block_size cfg)
          then Some (Ok (mk_Progress (pr_state p) (push_front tx m) txs))
          else
            match validate_on_state tx (pr_state p) height now with
            | Err _ => collect_loop fuel cfg height prev now (mk_Progress (pr_state p) m txs)
            | Panic msg => Some (Panic msg)
            | Ok diff =>
                match apply_state_diff (pr_state p) diff with
                | Ok st =>
                    let txs := txs ++ [tx] in
                    if decide (max_num_tx_in_block cfg <= length txs)%nat
                    then Some (Ok (mk_Progress st m txs))
                    else collect_loop fuel cfg height prev now (mk_Progress st m txs)
                | Err e => Some (Err (StateError e))
                | Panic msg => Some (Panic msg)
                end
            end
      end
  end.
(** Every iteration takes one transaction from the mempool. *)
Definition collect_fuel (m : MemPool) : nat := S (length (mempool_items m)).

Definition build_block_from_mempool (s : SequencerCore) (now : Timestamp)
    (sign : HashType -> Signature) : outcome SequencerError (SequencerCore * Block) :=
  new_block_height ← next_block_id s;
  meta ← map_err StoreError (SeqDb.latest_block_meta (dbio (store s)));
  p ← match collect_loop (collect_fuel (mempool s)) (sequencer_config s) new_block_height (meta_hash meta) now
              (mk_Progress (state s) (mempool s) []) with
      | Some r => r
      | None => Panic "out of fuel"
      end;
  st ← map_err ClockTransactionFailed
         (transition_from_public_transaction (pr_state p) (clock_invocation now) new_block_height now);
  let block := into_pending_block
    (mk_Hashable new_block_height (meta_hash meta) now
       (valid_transactions p ++ [Public (clock_invocation now)])) sign (zeros 32) in
  Ok (mk_Sequencer st (store s) (pr_mempool p) (sequencer_config s) new_block_height, block).

(** [produce_new_block]; publishing the block to Bedrock has no effect here. *)
Definition produce_new_block (s : SequencerCore) (now : Timestamp) (sign : HashType -> Signature) :
    outcome SequencerError (SequencerCore * Z) :=
  '(s, block) ← build_block_from_mempool s now sign;
  store ← map_err StoreError (store_update (store s) block (zeros 32) (state s));
  Ok (mk_Sequencer (state s) store (mempool s) (sequencer_config s) (chain_height s), chain_height s).

(** [clean_finalized_blocks_from_db], [get_pending_blocks] *)
Definition clean_finalized_blocks_from_db (s : SequencerCore) (last_finalized : BlockId) :
    outcome SequencerError SequencerCore :=
  d ← map_err StoreError (SeqDb.clean_pending_blocks_up_to last_finalized (dbio (store s)));
  Ok (mk_Sequencer (state s) (mk_SequencerStore d (tx_hash_to_block_map (store s)) (genesis_id (store s)))
        (mempool s) (sequencer_config s) (chain_height s)).
Definition get_pending_blocks (s : SequencerCore) : list Block :=
  filter (fun b => SeqDb.is_pending b = true) (SeqDb.get_all_blocks (dbio (store s))).

(** [build_supply_account_genesis_transaction] *)
Definition build_supply_account_genesis_transaction (id : AccountId) (balance : Z) : PublicTransaction :=
  let vault_program_id := program_id vault_program in
  let recipient_vault_id := Vault.compute_vault_account_id vault_program_id id in
  mk_PublicTx
    (mk_PublicMessage (program_id faucet_program) [system_faucet_account_id; recipient_vault_id] []
       (serde_to_vec (Faucet.Transfer vault_program_id id balance)))
    (mk_PublicWitnessSet []).
Definition GENESIS_BLOCK_ID : BlockId := 1.
(** [build_genesis_state] from [testnet_initial_state]; the transitions run as
    the iterator is collected. *)
Definition build_genesis_state (initial : V03State) (cfg : SequencerConfig) :
    outcome SequencerError (V03State * list NSSATransaction) :=
  let txs := ((fun a => match a with
                        | SupplyAccount id b => build_supply_account_genesis_transaction id b
                        end) <$> genesis cfg) ++ [clock_invocation 0] in
  st ← fold_o (fun st tx =>
         match transition_from_public_transaction st tx GENESIS_BLOCK_ID 0 with
         | Ok st => Ok st
         | _ => Panic "Failed to execute genesis transaction"
         end) initial txs;
  Ok (st, Public <$> txs).

(** [start_from_config]: [db] is the database found on disk, if any. *)
Definition start_from_config (cfg : SequencerConfig) (db : option SeqDb.RocksDBIO) (initial : V03State)
    (sign : HashType -> Signature) : outcome SequencerError SequencerCore :=
  '(store, st) ← match db with
    | Some d =>
        store ← map_err StoreError (open_db d);
        st ← map_err StoreError (SeqDb.get_nssa_state (dbio store));
        _ ← expect (get_block_at_id store (genesis_id store)) "Genesis block not found in store";
        Ok (store, st)
    | None =>
        '(genesis_state, genesis_txs) ← build_genesis_state initial cfg;
        let genesis_block := into_pending_block
          (mk_Hashable GENESIS_BLOCK_ID (zeros 32) 0 genesis_txs) sign (zeros 32) in
        store ← map_err StoreError
          (create_db_with_genesis SeqDb.empty genesis_block (zeros 32) genesis_state);
        Ok (store, genesis_state)
    end;
  meta ← map_err StoreError (SeqDb.latest_block_meta (dbio store));
  m ← MemPool_new (mempool_max_size cfg);
  Ok (mk_Sequencer st store m cfg (meta_id meta)).

(** ** sequencer/service: [send_transaction] *)
Definition BLOCK_HEADER_OVERHEAD : Z := 200.
Definition send_transaction (max_block_size : Z) (tx : NSSATransaction) (m : MemPool) :
    outcome TransactionMalformationError (HashType * option MemPool) :=
  let tx_size := encoded_length tx in
  let max_tx_size := Z.max 0 (max_block_size - BLOCK_HEADER_OVERHEAD) in
  ensure (bool_decide (tx_size <= max_tx_size)) (TransactionTooLarge tx_size max_tx_size) ;;
  tx' ← transaction_stateless_check tx;
  Ok (tx_hash tx, mempool_push tx' m).
End Sequencer.
