(* ===== verification/IndexerStore.v ===== *)
(** The indexer: [storage/src/indexer] and [indexer/core/src/block_store.rs].

    The indexer replays finalized blocks on its own copy of the state and stores
    them.  Every hundred blocks the database keeps the state as a breakpoint;
    the state at any block is computed from the breakpoint before it.  As for the
    sequencer, a column family is a finite map and a cell an optional value.  The
    conversions of the transaction counts of accounts, which fail beyond [2^64],
    are left out. *)

From S2P Require Import Prelude Bytes Crypto Account Ids Borsh ProgramCore Host MerkleTree State Transactions StateDiffs Chain SequencerStore.

Open Scope Z_scope.

Definition BREAKPOINT_INTERVAL : Z := 100.
Definition FIRST_BLOCK_ID : BlockId := 1.

(** ** The replay of a block

    The same loop is written in [IndexerStore::put_block] and in
    [RocksDBIO::calculate_state_for_id], with other error messages.  The first
    component is the state when the loop stops, also when it stops on an error:
    [put_block] works on the shared current state. *)
Inductive ReplayError :=
  | NoTransactions
  | WrongClockTransaction
  | GenesisNotPublic
  | PreCheckFailed (e : TransactionMalformationError)
  | ExecutionFailed (e : NssaError).

Section Replay.
Context `{Validation}.

Definition replay_tx (block_id : BlockId) (timestamp : Timestamp) (st : V03State) (tx : NSSATransaction) :
    outcome ReplayError V03State :=
  if decide (block_id = FIRST_BLOCK_ID) then
    match tx with
    | Public t => map_err ExecutionFailed (transition_from_public_transaction st t block_id timestamp)
    | _ => Err GenesisNotPublic
    end
  else
    tx ← map_err PreCheckFailed (transaction_stateless_check tx);
    map_err ExecutionFailed (execute_check_on_state tx st block_id timestamp).

(** Continue with the new state, or keep the old one and the failure. *)
Definition keep_state {E} (st : V03State) (r : outcome E V03State) : V03State * outcome E () :=
  match r with Ok st' => (st', Ok ()) | Err e => (st, Err e) | Panic msg => (st, Panic msg) end.

Fixpoint replay_txs (block_id : BlockId) (timestamp : Timestamp) (st : V03State)
    (txs : list NSSATransaction) : V03State * outcome ReplayError () :=
  match txs with
  | [] => (st, Ok ())
  | tx :: txs =>
      match replay_tx block_id timestamp st tx with
      | Ok st => replay_txs block_id timestamp st txs
      | r => keep_state st r
      end
  end.

Definition replay_block (st : V03State) (b : Block) : V03State * outcome ReplayError () :=
  let block_id := header_block_id (header b) in
  let timestamp := header_timestamp (header b) in
  match last (body b) with
  | None => (st, Err NoTransactions)
  | Some clock_tx =>
      let user_txs := take (pred (length (body b))) (body b) in
      if decide (clock_tx = Public (clock_invocation timestamp)) then
        match replay_txs block_id timestamp st user_txs with
        | (st, Ok _) =>
            keep_state st (map_err ExecutionFailed
              (transition_from_public_transaction st (clock_invocation timestamp) block_id timestamp))
        | r => r
        end
      else (st, Err WrongClockTransaction)
  end.
(** The replay where only success counts. *)
Definition replay_ok (st : V03State) (b : Block) : outcome ReplayError V03State :=
  match replay_block st b with
  | (st, Ok _) => Ok st
  | (_, Err e) => Err e
  | (_, Panic msg) => Panic msg
  end.
End Replay.

(** ** storage/src/indexer *)
Module IxDb.
Record RocksDBIO := mk_RocksDBIO {
  cf_block : gmap BlockId Block;
  cf_breakpoint : gmap Z V03State;
  cf_hash_to_id : gmap HashType BlockId;
  cf_tx_to_id : gmap HashType BlockId;
  cf_acc_meta : gmap AccountId Z;
  cf_acc_to_tx : gmap (AccountId * Z) HashType;
  first_block_in_db : option BlockId;
  first_block_set : option bool;
  last_block_in_db : option BlockId;
  last_observed_l1_lib_header : option (list byte);
  last_breakpoint_id : option Z;
  zone_sdk_indexer_cursor : option (list byte);
}.
Definition empty : RocksDBIO := mk_RocksDBIO ∅ ∅ ∅ ∅ ∅ ∅ None None None None None None.

(** The readers: a missing last block or breakpoint counts as 0. *)
Definition get_block (d : RocksDBIO) (id : BlockId) : option Block := cf_block d !! id.
Definition last_block (d : RocksDBIO) : BlockId := default 0 (last_block_in_db d).
Definition last_breakpoint (d : RocksDBIO) : Z := default 0 (last_breakpoint_id d).
Definition get_breakpoint (d : RocksDBIO) (br_id : Z) : outcome DbError V03State :=
  ok_or (cf_breakpoint d !! br_id) (DbInteractionError "breakpoint not found").

(** [put_breakpoint] and [put_meta_last_breakpoint_id] *)
Definition put_breakpoint (br_id : Z) (st : V03State) (d : RocksDBIO) : RocksDBIO :=
  mk_RocksDBIO (cf_block d) (<[br_id := st]> (cf_breakpoint d)) (cf_hash_to_id d) (cf_tx_to_id d)
    (cf_acc_meta d) (cf_acc_to_tx d) (first_block_in_db d) (first_block_set d) (last_block_in_db d)
    (last_observed_l1_lib_header d) (last_breakpoint_id d) (zone_sdk_indexer_cursor d).
Definition put_meta_last_breakpoint_id (br_id : Z) (d : RocksDBIO) : RocksDBIO :=
  mk_RocksDBIO (cf_block d) (cf_breakpoint d) (cf_hash_to_id d) (cf_tx_to_id d)
    (cf_acc_meta d) (cf_acc_to_tx d) (first_block_in_db d) (first_block_set d) (last_block_in_db d)
    (last_observed_l1_lib_header d) (Some br_id) (zone_sdk_indexer_cursor d).

(** [open_or_create], on the contents [d] of the directory *)
Definition open_or_create (d : RocksDBIO) (initial_state : V03State) : RocksDBIO :=
  put_meta_last_breakpoint_id 0 (put_breakpoint 0 initial_state d).

(** [get_block_batch_seq]: stops at the first block that is not found. *)
Fixpoint get_block_batch_seq (d : RocksDBIO) (ids : list BlockId) : list Block :=
  match ids with
  | [] => []
  | id :: ids => match get_block d id with
                 | Some b => b :: get_block_batch_seq d ids
                 | None => []
                 end
  end.
(** [get_block_batch]: the ids below [before], downwards, [limit] at most *)
Fixpoint ids_down (start : BlockId) (limit : nat) : list BlockId :=
  match limit with
  | O => []
  | S limit => if decide (start = 0) then [] else start :: ids_down (start - 1) limit
  end.
Definition get_block_batch (d : RocksDBIO) (before : option BlockId) (limit : nat) : list Block :=
  match before with
  | Some before_id => get_block_batch_seq d (ids_down (Z.max 0 (before_id - 1)) limit)
  | None => match last_block_in_db d with
            | None => []
            | Some id => get_block_batch_seq d (ids_down id limit)
            end
  end.

Definition closest_breakpoint_id (block_id : BlockId) : Z := Z.max 0 (block_id - 1) / BREAKPOINT_INTERVAL.

Section State.
Context `{Validation}.

Definition replay_error (e : ReplayError) : DbError :=
  DbInteractionError
    match e with
    | NoTransactions => "Block must contain clock transaction at the end"
    | WrongClockTransaction => "Last transaction in block must be the clock invocation for the block timestamp"
    | GenesisNotPublic => "Genesis block should contain only public transactions"
    | PreCheckFailed _ => "transaction pre check failed"
    | ExecutionFailed _ => "transaction execution failed"
    end.

Definition calculate_state_for_id (d : RocksDBIO) (block_id : BlockId) : outcome DbError V03State :=
  if decide (block_id > last_block d) then Err (DbInteractionError "Block on this id not found")
  else
    let br_id := closest_breakpoint_id block_id in
    breakpoint ← get_breakpoint d br_id;
    start ← expect (checked_mul 64 BREAKPOINT_INTERVAL br_id) "Reached maximum breakpoint id";
    first ← expect (checked_add 64 start 1) "Will be lesser that u64::MAX";
    map_err replay_error
      (fold_o replay_ok breakpoint (get_block_batch_seq d (seqZ first (block_id - start)))).
Definition final_state (d : RocksDBIO) : outcome DbError V03State :=
  calculate_state_for_id d (last_block d).

(** [put_next_breakpoint] *)
Definition put_next_breakpoint (d : RocksDBIO) : outcome DbError RocksDBIO :=
  next_breakpoint_id ← expect (checked_add 64 (last_breakpoint d) 1) "Breakpoint Id will be lesser than u64::MAX";
  block_to_break_id ← expect (checked_mul 64 next_breakpoint_id BREAKPOINT_INTERVAL) "Reached maximum breakpoint id";
  if decide (block_to_break_id <= last_block d) then
    next_breakpoint ← calculate_state_for_id d block_to_break_id;
    Ok (put_meta_last_breakpoint_id next_breakpoint_id (put_breakpoint next_breakpoint_id next_breakpoint d))
  else Err (DbInteractionError "Breakpoint not yet achieved").
End State.

(** *** [put_block] *)
Section PutBlock.
Context `{Validation, TransactionEncodings}.

(** [acc_to_tx_map]: the hashes of the transactions that touch each account *)
Definition acc_to_tx_map (txs : list NSSATransaction) : gmap AccountId (list HashType) :=
  foldl (fun m tx =>
    set_fold (fun id m => <[id := default [] (m !! id) ++ [tx_hash tx]]> m) m (affected_public_account_ids tx))
    ∅ txs.
(** [put_account_transactions_dependant], on the two column families *)
Definition put_account_transactions (num : Z) (id : AccountId) (hashes : list HashType)
    (to_tx : gmap (AccountId * Z) HashType) : gmap (AccountId * Z) HashType :=
  foldl (fun m (p : nat * HashType) => <[(id, num + Z.of_nat p.1) := p.2]> m) to_tx
    (zip (seq 0 (length hashes)) hashes).
Definition put_all_account_transactions (txs : list NSSATransaction) (meta : gmap AccountId Z)
    (to_tx : gmap (AccountId * Z) HashType) : gmap AccountId Z * gmap (AccountId * Z) HashType :=
  map_fold (fun id hashes (acc : gmap AccountId Z * gmap (AccountId * Z) HashType) =>
      let num := default 0 (meta !! id) in
      (<[id := num + Z.of_nat (length hashes)]> acc.1, put_account_transactions num id hashes acc.2))
    (meta, to_tx) (acc_to_tx_map txs).

(** The batch that [put_block] writes. *)
Definition write_block (b : Block) (l1_lib_header : list byte) (d : RocksDBIO) : RocksDBIO :=
  let id := header_block_id (header b) in
  let accounts := put_all_account_transactions (body b) (cf_acc_meta d) (cf_acc_to_tx d) in
  let newer := bool_decide (id > last_block d) in
  let first := bool_decide (last_block d = 0) in
  mk_RocksDBIO (<[id := b]> (cf_block d)) (cf_breakpoint d)
    (<[header_hash (header b) := id]> (cf_hash_to_id d))
    (foldl (fun m tx => <[tx_hash tx := id]> m) (cf_tx_to_id d) (body b))
    accounts.1 accounts.2
    (if first then Some id else first_block_in_db d)
    (if first then Some true else first_block_set d)
    (if newer then Some id else last_block_in_db d)
    (if newer then Some l1_lib_header else last_observed_l1_lib_header d)
    (last_breakpoint_id d) (zone_sdk_indexer_cursor d).
(** The batch is written before the breakpoint: a failure of the latter leaves
    the block in the database. *)
Definition put_block (b : Block) (l1_lib_header : list byte) (d : RocksDBIO) : RocksDBIO * outcome DbError () :=
  let d := write_block b l1_lib_header d in
  if decide (header_block_id (header b) mod BREAKPOINT_INTERVAL = 0) then
    match put_next_breakpoint d with
    | Ok d => (d, Ok ())
    | Err e => (d, Err e)
    | Panic msg => (d, Panic msg)
    end
  else (d, Ok ()).

(** *** Transactions of an account *)
Definition get_block_ids_by_tx_vec (d : RocksDBIO) (hashes : list HashType) : outcome DbError (list BlockId) :=
  fold_o (fun ids h =>
    id ← ok_or (cf_tx_to_id d !! h) (DbInteractionError "Tx to block id mapping do not contain transaction from vec");
    Ok (ids ++ [id])) [] hashes.
Fixpoint acc_hashes (d : RocksDBIO) (id : AccountId) (i : Z) (n : nat) : list HashType :=
  match n with
  | O => []
  | S n => match cf_acc_to_tx d !! (id, i) with
           | Some h => h :: acc_hashes d id (i + 1) n
           | None => []
           end
  end.
Definition get_acc_transaction_hashes (d : RocksDBIO) (id : AccountId) (offset limit : Z) :
    outcome DbError (list HashType) :=
  end_ ← expect (checked_add 64 offset limit) "Transaction limit should be lesser than u64::MAX";
  Ok (acc_hashes d id offset (Z.to_nat (end_ - offset))).
Definition get_acc_transactions (d : RocksDBIO) (id : AccountId) (offset limit : Z) :
    outcome DbError (list NSSATransaction) :=
  hashes ← get_acc_transaction_hashes d id offset limit;
  ids ← get_block_ids_by_tx_vec d hashes;
  fold_o (fun txs (p : Block * HashType) =>
    tx ← ok_or (List.find (fun tx => bool_decide (tx_hash tx = p.2)) (body p.1))
           (DbInteractionError "Missing transaction in block");
    Ok (txs ++ [tx])) [] (zip (get_block_batch_seq d ids) hashes).
End PutBlock.
End IxDb.

(** ** indexer/core/src/block_store.rs *)
Record IndexerStore := mk_IndexerStore { ix_dbio : IxDb.RocksDBIO; current_state : V03State }.
Inductive IndexerError := ReplayFailed (e : ReplayError) | IxDbFailed (e : DbError).

Section Indexer.
Context `{Validation, TransactionEncodings}.

(** [open_db], on the contents [d] of the directory *)
Definition ix_open_db (d : IxDb.RocksDBIO) (initial_state : V03State) : outcome DbError IndexerStore :=
  let d := IxDb.open_or_create d initial_state in
  st ← IxDb.final_state d;
  Ok (mk_IndexerStore d st).

(** [put_block] *)
Definition ix_put_block (b : Block) (l1_header : list byte) (s : IndexerStore) :
    IndexerStore * outcome IndexerError () :=
  match replay_block (current_state s) b with
  | (st, Ok _) =>
      let '(d, r) := IxDb.put_block (SeqDb.set_status Finalized b) l1_header (ix_dbio s) in
      (mk_IndexerStore d st, map_err IxDbFailed r)
  | (st, r) => (mk_IndexerStore (ix_dbio s) st, map_err ReplayFailed r)
  end.

Definition get_state_at_block (s : IndexerStore) (block_id : BlockId) : outcome DbError V03State :=
  IxDb.calculate_state_for_id (ix_dbio s) block_id.
Definition account_current_state (s : IndexerStore) (id : AccountId) : Account :=
  get_account_by_id (current_state s) id.
Definition account_state_at_block (s : IndexerStore) (id : AccountId) (block_id : BlockId) :
    outcome DbError Account :=
  st ← get_state_at_block s block_id;
  Ok (get_account_by_id st id).
Definition ix_get_transaction_by_hash (s : IndexerStore) (hash : HashType) : option NSSATransaction :=
  block_id ← IxDb.cf_tx_to_id (ix_dbio s) !! hash;
  b ← IxDb.get_block (ix_dbio s) block_id;
  List.find (fun tx => bool_decide (tx_hash tx = hash)) (body b).
Definition ix_get_block_by_hash (s : IndexerStore) (hash : HashType) : option Block :=
  block_id ← IxDb.cf_hash_to_id (ix_dbio s) !! hash;
  IxDb.get_block (ix_dbio s) block_id.
End Indexer.
