(* ===== verification/SequencerInvariant.v ===== *)
(** The life of a sequencer as a step relation, and the invariant of its chain:
    the database stores a linked chain of blocks that replays from the initial
    state to the current state. *)

From S2P Require Import Prelude Bytes Crypto Account Ids ProgramCore Borsh MerkleTree Host State Transactions StateDiffs NativePrograms Chain SequencerStore Sequencer IndexerStore.

Open Scope Z_scope.

(** ** Lemmas on the sequencer and the indexer: what the loop over the mempool
    does, the replay of a block, the chain stored in a database. *)

(** ** The mempool *)
Lemma mempool_pop_items m :
  match mempool_pop m with
  | None => mempool_items m = []
  | Some (tx, m') => mempool_items m = tx :: mempool_items m'
  end.
Proof. destruct m as [[|x r] [|y f] c]; reflexivity. Qed.
Lemma push_front_items tx m : mempool_items (push_front tx m) = tx :: mempool_items m.
Proof. done. Qed.

Section Facts.
Context `{Validation, TransactionEncodings, BlockEncodings, Serde Faucet.Instruction}.

(** ** The loop over the mempool *)

(** [processed height now st popped taken st']: the transactions [popped] are
    handled in order, each one is applied or fails validation on the state it
    meets, and [taken] are the ones applied. *)
Inductive processed (height : BlockId) (now : Timestamp) :
    V03State -> list NSSATransaction -> list NSSATransaction -> V03State -> Prop :=
  | processed_nil st : processed height now st [] [] st
  | processed_take st tx st1 popped taken st2 :
      execute_check_on_state tx st height now = Ok st1 ->
      processed height now st1 popped taken st2 ->
      processed height now st (tx :: popped) (tx :: taken) st2
  | processed_skip st tx e popped taken st2 :
      validate_on_state tx st height now = Err e ->
      processed height now st popped taken st2 ->
      processed height now st (tx :: popped) taken st2.

Lemma processed_sublist height now st popped taken st' :
  processed height now st popped taken st' -> taken `sublist_of` popped.
Proof. induction 1; by constructor. Qed.

Lemma collect_loop_total fuel cfg height prev now p :
  (length (mempool_items (pr_mempool p)) < fuel)%nat ->
  is_Some (collect_loop fuel cfg height prev now p).
Proof.
  revert p. induction fuel as [|fuel IH]; intros p Hf; [lia|]. cbn [collect_loop].
  pose proof (mempool_pop_items (pr_mempool p)) as Hpop.
  destruct (mempool_pop (pr_mempool p)) as [[tx m]|]; [|by eexists].
  rewrite Hpop in Hf. cbn [length] in Hf.
  case_decide; [by eexists|].
  destruct (validate_on_state _ _ _ _) as [diff|e|msg]; [|apply IH; cbn; lia|by eexists].
  destruct (apply_state_diff _ diff) as [st|e|msg]; [|by eexists..].
  case_decide; [by eexists|]. apply IH. cbn. lia.
Qed.

(** Why the loop stopped. *)
Definition stopped (cfg : SequencerConfig) (height : BlockId) (prev : HashType) (now : Timestamp)
    (p : Progress) : Prop :=
  mempool_items (pr_mempool p) = [] \/
  (valid_transactions p <> [] /\ (max_num_tx_in_block cfg <= length (valid_transactions p))%nat) \/
  exists tx rest, mempool_items (pr_mempool p) = tx :: rest /\
    block_size height prev now (valid_transactions p ++ [tx; Public (clock_invocation now)]) > max_block_size cfg.

Definition fits (cfg : SequencerConfig) (height : BlockId) (prev : HashType) (now : Timestamp)
    (p : Progress) : Prop :=
  block_size height prev now (valid_transactions p ++ [Public (clock_invocation now)]) <= max_block_size cfg /\
  (length (valid_transactions p) <= Nat.max 1 (max_num_tx_in_block cfg))%nat.

Lemma collect_loop_ok fuel cfg height prev now p p' :
  (length (valid_transactions p) < Nat.max 1 (max_num_tx_in_block cfg))%nat ->
  collect_loop fuel cfg height prev now p = Some (Ok p') ->
  exists popped taken,
    mempool_items (pr_mempool p) = popped ++ mempool_items (pr_mempool p') /\
    processed height now (pr_state p) popped taken (pr_state p') /\
    valid_transactions p' = valid_transactions p ++ taken /\
    (taken = [] \/ fits cfg height prev now p') /\ stopped cfg height prev now p'.
Proof.
  revert p. induction fuel as [|fuel IH]; intros p Hlen; [done|]. cbn [collect_loop].
  pose proof (mempool_pop_items (pr_mempool p)) as Hpop.
  destruct (mempool_pop (pr_mempool p)) as [[tx m]|].
  2:{ intros [= <-]. exists [], []. rewrite app_nil_r.
      split; [done|]. split; [constructor|]. split; [done|]. split; [by left|by left]. }
  case_decide as Hsize.
  { intros [= <-]. exists [], []. cbn [pr_state pr_mempool valid_transactions]. rewrite app_nil_r.
    split; [done|]. split; [constructor|]. split; [done|]. split; [by left|].
    right; right. exists tx, (mempool_items m). by split. }
  destruct (validate_on_state tx (pr_state p) height now) as [diff|e|msg] eqn:Hv; [| |done].
  2:{ intros (popped & taken & Hm & Hp & Hrest)%IH; [|done]. exists (tx :: popped), taken.
      rewrite Hpop. cbn in Hm. rewrite Hm. split; [done|]. split; [by eapply processed_skip|done]. }
  destruct (apply_state_diff (pr_state p) diff) as [st|e|msg] eqn:Ha; [|done..].
  assert (Hx : execute_check_on_state tx (pr_state p) height now = Ok st)
    by (unfold execute_check_on_state; by rewrite Hv).
  assert (Hfit : block_size height prev now ((valid_transactions p ++ [tx]) ++ [Public (clock_invocation now)])
            <= max_block_size cfg) by (rewrite <- app_assoc; cbn [app]; lia).
  case_decide as Hfull.
  - intros [= <-]. exists [tx], [tx]. cbn [pr_state pr_mempool valid_transactions].
    split; [done|]. split; [by eapply processed_take; [|constructor]|]. split; [done|].
    split; [right; split; [exact Hfit|]|right; left; split; [by destruct (valid_transactions p)|done]].
    cbn [valid_transactions]. rewrite length_app. cbn [length]. lia.
  - intros Hl. apply IH in Hl as (popped & taken & Hm & Hp & Htxs & Hf & Hs).
    2:{ cbn [valid_transactions]. lia. }
    exists (tx :: popped), (tx :: taken). cbn [pr_state pr_mempool valid_transactions] in *.
    rewrite Hpop, Hm. split; [done|]. split; [by eapply processed_take|].
    split; [rewrite Htxs; by rewrite <- app_assoc|]. split; [|done]. right.
    destruct Hf as [->|Hf]; [|done]. rewrite app_nil_r in Htxs. unfold fits. rewrite Htxs.
    split; [exact Hfit|]. rewrite length_app. cbn [length]. lia.
Qed.

(** ** Building a block *)
Definition block_data_of (s : SequencerCore) (meta : BlockMeta) (now : Timestamp) (txs : list NSSATransaction) :
    HashableBlockData :=
  mk_Hashable (chain_height s + 1) (meta_hash meta) now (txs ++ [Public (clock_invocation now)]).

Lemma build_block_ok s now sign s' b :
  build_block_from_mempool s now sign = Ok (s', b) ->
  exists meta popped taken st,
    let height := chain_height s + 1 in
    let p := mk_Progress st (mempool s') taken in
    height < 2 ^ 64 /\ SeqDb.latest_block_meta_cell (dbio (store s)) = Some meta /\
    mempool_items (mempool s) = popped ++ mempool_items (mempool s') /\
    processed height now (state s) popped taken st /\
    (taken = [] \/ fits (sequencer_config s) height (meta_hash meta) now p) /\
    stopped (sequencer_config s) height (meta_hash meta) now p /\
    transition_from_public_transaction st (clock_invocation now) height now = Ok (state s') /\
    b = into_pending_block (block_data_of s meta now taken) sign (zeros 32) /\
    store s' = store s /\ sequencer_config s' = sequencer_config s /\ chain_height s' = height.
Proof.
  unfold build_block_from_mempool. intros Hb.
  apply bind_ok in Hb as (height & Hh & Hb). apply bind_ok in Hb as (meta & Hm & Hb).
  apply bind_ok in Hb as (p & Hp & Hb). apply bind_ok in Hb as (st & Hclk & Hb). injection Hb as <- <-.
  unfold next_block_id, checked_add in Hh. case_decide; [|done]. injection Hh as <-.
  destruct (SeqDb.latest_block_meta (dbio (store s))) as [meta'| |] eqn:Hmeta; [|done..].
  injection Hm as ->. unfold SeqDb.latest_block_meta, SeqDb.get_cell in Hmeta. apply ok_or_ok in Hmeta.
  destruct (collect_loop _ _ _ _ _ _) as [[p'| |]|] eqn:Hc; try done. injection Hp as ->.
  apply collect_loop_ok in Hc as (popped & taken & Hitems & Hproc & Htxs & Hfits & Hstop); [|cbn; lia].
  cbn in Htxs. subst. exists meta, popped, (valid_transactions p), (pr_state p).
  destruct (transition_from_public_transaction _ _ _ _) as [st'| |]; [|done..]. injection Hclk as ->.
  destruct p as [st0 m0 txs0]. by split_and!.
Qed.

(** The first transaction does not fit: nothing is taken. *)
Lemma build_block_blocked s now sign s' b meta tx rest :
  SeqDb.latest_block_meta_cell (dbio (store s)) = Some meta ->
  mempool_items (mempool s) = tx :: rest ->
  block_size (chain_height s + 1) (meta_hash meta) now [tx; Public (clock_invocation now)]
    > max_block_size (sequencer_config s) ->
  build_block_from_mempool s now sign = Ok (s', b) ->
  mempool_items (mempool s') = mempool_items (mempool s) /\ body b = [Public (clock_invocation now)].
Proof.
  intros Hm Hi Hsize Hb. unfold build_block_from_mempool in Hb.
  apply bind_ok in Hb as (height & Hh & Hb). unfold next_block_id, checked_add in Hh.
  case_decide; [|done]. injection Hh as <-. unfold SeqDb.latest_block_meta, SeqDb.get_cell in Hb.
  rewrite Hm in Hb. cbn [ok_or map_err mbind outcome_bind] in Hb. unfold collect_fuel in Hb.
  cbn [collect_loop pr_mempool valid_transactions app] in Hb.
  pose proof (mempool_pop_items (mempool s)) as Hpop.
  destruct (mempool_pop (mempool s)) as [[tx' m]|]; [|congruence].
  rewrite Hpop in Hi. injection Hi as -> Hrest. rewrite decide_True in Hb by done.
  cbn [mbind outcome_bind pr_state pr_mempool valid_transactions] in Hb.
  apply bind_ok in Hb as (st & _ & Heq). injection Heq as <- <-.
  split; [by rewrite Hpop|done].
Qed.

(** ** Replaying a block *)
Lemma replay_txs_processed height now st popped taken st' :
  height <> FIRST_BLOCK_ID -> processed height now st popped taken st' ->
  replay_txs height now st taken = (st', Ok ()).
Proof.
  intros Hne. induction 1 as [st|st tx st1 popped taken st2 Hx _ IH|]; [done| |done].
  cbn [replay_txs]. unfold replay_tx. rewrite decide_False by done.
  assert (Hs : transaction_stateless_check tx = Ok tx).
  { unfold execute_check_on_state in Hx. apply bind_ok in Hx as (d & Hv & _).
    by eapply validated_stateless. }
  rewrite Hs. cbn [map_err mbind outcome_bind]. rewrite Hx. exact IH.
Qed.

Lemma take_snoc_pred {A} (l : list A) x : take (pred (length (l ++ [x]))) (l ++ [x]) = l.
Proof. rewrite length_app, Nat.add_1_r. apply take_app_length. Qed.

Lemma replay_block_snoc st b txs st1 st2 :
  body b = txs ++ [Public (clock_invocation (header_timestamp (header b)))] ->
  replay_txs (header_block_id (header b)) (header_timestamp (header b)) st txs = (st1, Ok ()) ->
  transition_from_public_transaction st1 (clock_invocation (header_timestamp (header b)))
    (header_block_id (header b)) (header_timestamp (header b)) = Ok st2 ->
  replay_block st b = (st2, Ok ()).
Proof.
  intros Hb Htxs Hclk. unfold replay_block. rewrite Hb, last_snoc, take_snoc_pred, decide_True by done.
  rewrite Htxs, Hclk. done.
Qed.

Lemma replay_set_status st s b : replay_block st (SeqDb.set_status s b) = replay_block st b.
Proof. done. Qed.
Lemma replay_ok_set_status st s b : replay_ok st (SeqDb.set_status s b) = replay_ok st b.
Proof. done. Qed.
Lemma replay_ok_spec st b st' : replay_ok st b = Ok st' <-> replay_block st b = (st', Ok ()).
Proof. unfold replay_ok. destruct (replay_block st b) as [st1 [[]| |]]; naive_solver. Qed.

(** A block of the sequencer replays to the state of the sequencer. *)
Lemma built_block_replays s now sign s' b :
  1 <= chain_height s -> build_block_from_mempool s now sign = Ok (s', b) ->
  replay_block (state s) b = (state s', Ok ()).
Proof.
  intros Hh (meta & popped & taken & st & _ & _ & _ & Hp & _ & _ & Hclk & -> & _)%build_block_ok.
  eapply replay_block_snoc; [done| |exact Hclk].
  eapply replay_txs_processed; [|exact Hp]. change (chain_height s + 1 <> 1). lia.
Qed.
End Facts.


(** ** The chain in a database *)

(** The blocks of a column family, regardless of their Bedrock status. *)
Definition stored (m : gmap BlockId Block) : gmap BlockId Block := SeqDb.set_status Finalized <$> m.
(** [m] holds the blocks [bs] under the ids 1, 2, ... and no block beyond. *)
Definition holds_chain (m : gmap BlockId Block) (bs : list Block) : Prop :=
  forall i : nat, m !! (Z.of_nat i + 1) = bs !! i.

Lemma holds_chain_snoc m bs b i :
  i = Z.of_nat (length bs) + 1 -> holds_chain m bs -> holds_chain (<[i := b]> m) (bs ++ [b]).
Proof.
  intros -> Hm j. destruct (decide (j = length bs)) as [->|Hne].
  - by rewrite lookup_insert_eq, lookup_app_r, Nat.sub_diag by lia.
  - rewrite lookup_insert_ne by lia. rewrite Hm.
    destruct (decide (j < length bs)%nat); [by rewrite lookup_app_l|].
    rewrite lookup_app_r by lia. rewrite lookup_ge_None_2 by lia.
    symmetry. apply lookup_ge_None_2. cbn. lia.
Qed.

Section Invariant.
Context `{Validation, !Sha256Laws, TransactionEncodings, BlockEncodings, Serde Faucet.Instruction}.

(** Every block has the id of its position, the hash of its contents and of the
    block before it, and ends with its clock transaction. *)
Definition prev_hash_at (bs : list Block) (i : nat) : option HashType :=
  match i with O => Some (zeros 32) | S j => (fun b => header_hash (header b)) <$> bs !! j end.
Definition block_linked (bs : list Block) (i : nat) (b : Block) : Prop :=
  header_block_id (header b) = Z.of_nat i + 1 /\
  header_hash (header b) = block_hash (hashable_of b) /\
  prev_hash_at bs i = Some (prev_block_hash (header b)) /\
  exists txs, body b = txs ++ [Public (clock_invocation (header_timestamp (header b)))].
Definition linked (bs : list Block) : Prop := forall i b, bs !! i = Some b -> block_linked bs i b.

(** ** The invariant *)
Definition db_inv (initial : V03State) (bs : list Block) (st : V03State) (d : SeqDb.RocksDBIO) : Prop :=
  holds_chain (stored (SeqDb.cf_block d)) bs /\ linked bs /\
  fold_o replay_ok initial bs = Ok st /\
  1 <= Z.of_nat (length bs) < 2 ^ 64 /\
  SeqDb.first_block_in_db d = Some 1 /\
  SeqDb.last_block_in_db d = Some (Z.of_nat (length bs)) /\
  SeqDb.nssa_state_cell d = Some st /\
  exists meta b, SeqDb.latest_block_meta_cell d = Some meta /\ meta_id meta = Z.of_nat (length bs) /\
    last bs = Some b /\ meta_hash meta = header_hash (header b).
(** Every entry of the transaction map points to a block with that transaction,
    and every transaction of the chain has an entry. *)
Definition map_inv (bs : list Block) (m : gmap HashType BlockId) : Prop :=
  (forall h id, m !! h = Some id -> exists i b, id = Z.of_nat i + 1 /\ bs !! i = Some b /\ h ∈ tx_hash <$> body b) /\
  (forall b tx, b ∈ bs -> tx ∈ body b -> is_Some (m !! tx_hash tx)).
Definition seq_inv (initial : V03State) (bs : list Block) (s : SequencerCore) : Prop :=
  db_inv initial bs (state s) (dbio (store s)) /\ map_inv bs (tx_hash_to_block_map (store s)) /\
  genesis_id (store s) = 1 /\ chain_height s = Z.of_nat (length bs).

(** ** Steps *)
Definition with_mempool (m : MemPool) (s : SequencerCore) : SequencerCore :=
  mk_Sequencer (state s) (store s) m (sequencer_config s) (chain_height s).
Inductive step : SequencerCore -> SequencerCore -> Prop :=
  | step_send s tx h m :
      send_transaction (max_block_size (sequencer_config s)) tx (mempool s) = Ok (h, Some m) ->
      step s (with_mempool m s)
  | step_produce s now sign s' h : produce_new_block s now sign = Ok (s', h) -> step s s'
  | step_finalize s id s' : clean_finalized_blocks_from_db s id = Ok s' -> step s s'
  | step_restart s cfg initial sign s' :
      start_from_config cfg (Some (dbio (store s))) initial sign = Ok s' -> step s s'.
(** The sequencers that a fresh start from [initial] leads to. *)
Definition reachable (initial : V03State) (s : SequencerCore) : Prop :=
  exists cfg sign s0, start_from_config cfg None initial sign = Ok s0 /\ rtc step s0 s.

(** ** Lemmas: the transaction map *)
Lemma foldl_insert_tx (txs : list NSSATransaction) (id : BlockId) (m : gmap HashType BlockId) (h : HashType) :
  foldl (fun m tx => <[tx_hash tx := id]> m) m txs !! h =
    if decide (h ∈ tx_hash <$> txs) then Some id else m !! h.
Proof.
  revert m. induction txs as [|tx txs IH]; intros m.
  - rewrite decide_False; [done|]. apply not_elem_of_nil.
  - cbn [foldl]. rewrite IH. destruct (decide (h ∈ tx_hash <$> txs)) as [Hin|Hin].
    + rewrite decide_True; [done|]. by right.
    + destruct (decide (h = tx_hash tx)) as [->|Hne].
      * rewrite lookup_insert_eq, decide_True; [done|]. by left.
      * rewrite lookup_insert_ne by done. rewrite decide_False; [done|].
        intros [->|Hin']%elem_of_cons; done.
Qed.
Lemma block_map_lookup (b : Block) (h : HashType) :
  block_to_transactions_map b !! h =
    if decide (h ∈ tx_hash <$> body b) then Some (header_block_id (header b)) else None.
Proof. unfold block_to_transactions_map. by rewrite foldl_insert_tx, lookup_empty. Qed.

Lemma map_inv_extend bs m b :
  header_block_id (header b) = Z.of_nat (length bs) + 1 ->
  map_inv bs m -> map_inv (bs ++ [b]) (block_to_transactions_map b ∪ m).
Proof.
  intros Hid [Hs Hc]. split.
  - intros h id Hl. rewrite lookup_union, block_map_lookup in Hl.
    destruct (decide (h ∈ tx_hash <$> body b)) as [Hin|Hin].
    + rewrite union_Some_l in Hl. injection Hl as <-. exists (length bs), b.
      split; [done|]. split; [by rewrite lookup_app_r, Nat.sub_diag by lia|done].
    + rewrite (left_id_L None (∪)) in Hl. apply Hs in Hl as (i & b' & -> & Hb & Hh).
      exists i, b'. split; [done|]. split; [by apply lookup_app_l_Some|done].
  - intros b' tx Hb' Htx. rewrite lookup_union, block_map_lookup.
    destruct (decide (tx_hash tx ∈ tx_hash <$> body b)); [rewrite union_Some_l; by eexists|].
    rewrite (left_id_L None (∪)). apply elem_of_app in Hb' as [Hb'|Hb']; [by eapply Hc|].
    apply list_elem_of_singleton in Hb' as ->. destruct n. by apply list_elem_of_fmap_2.
Qed.

(** ** Lemmas: storing a block *)
Lemma stored_insert i b m : stored (<[i := b]> m) = <[i := SeqDb.set_status Finalized b]> (stored m).
Proof. apply fmap_insert. Qed.

Lemma linked_snoc bs b : linked bs -> block_linked bs (length bs) b -> linked (bs ++ [b]).
Proof.
  assert (Hprev : forall bs b i h, prev_hash_at bs i = Some h -> prev_hash_at (bs ++ [b]) i = Some h).
  { intros l x [|j] h; [done|]. cbn. intros (y & Hy & ->)%fmap_Some.
    by rewrite (lookup_app_l_Some _ _ _ _ Hy). }
  intros Hl Hb i b' Hi. apply lookup_app_Some in Hi as [Hi|[Hge Hi]].
  - destruct (Hl i b' Hi) as (H1' & H2' & H3' & H4'). split_and!; eauto.
  - apply list_lookup_singleton_Some in Hi as [Hi <-]. assert (i = length bs) as -> by lia.
    destruct Hb as (H1' & H2' & H3' & H4'). split_and!; eauto.
Qed.

Lemma stored_lookup m i b : m !! i = Some b -> stored m !! i = Some (SeqDb.set_status Finalized b).
Proof. intros Hm. unfold stored. by rewrite lookup_fmap, Hm. Qed.
Lemma chain_lookup m bs (i : nat) b :
  holds_chain (stored m) bs -> bs !! i = Some b ->
  exists b', m !! (Z.of_nat i + 1) = Some b' /\ header b' = header b /\ body b' = body b.
Proof.
  intros Hm Hb. specialize (Hm i). rewrite Hb in Hm. unfold stored in Hm. rewrite lookup_fmap in Hm.
  apply fmap_Some in Hm as (b' & Hb' & ->). by exists b'.
Qed.

Lemma last_prev_hash bs b : last bs = Some b -> prev_hash_at bs (length bs) = Some (header_hash (header b)).
Proof.
  intros Hl. apply last_Some in Hl as (l & ->). rewrite length_app, Nat.add_1_r. cbn [prev_hash_at].
  by rewrite lookup_app_r, Nat.sub_diag by lia.
Qed.

(** A new block that follows the chain. *)
Lemma db_inv_update initial bs st d b st' msg d' :
  db_inv initial bs st d -> block_linked bs (length bs) b -> Z.of_nat (length bs) + 1 < 2 ^ 64 ->
  replay_ok st b = Ok st' -> SeqDb.atomic_update b msg st' d = Ok d' ->
  db_inv initial (bs ++ [SeqDb.set_status Finalized b]) st' d'.
Proof.
  intros (Hm & Hl & Hr & Hlen & Hf & Hlast & _ & _) Hb Hlen' Hrep Hu.
  unfold SeqDb.atomic_update, SeqDb.put_block in Hu.
  apply bind_ok in Hu as (d1 & Hu & Heq). injection Heq as <-.
  apply bind_ok in Hu as (d2 & Hu & Heq). injection Heq as <-.
  apply bind_ok in Hu as (l & Hg & Hu). unfold SeqDb.get_meta_last_block_in_db, SeqDb.get_cell in Hg.
  rewrite Hlast in Hg. injection Hg as <-. pose proof Hb as (Hid & _).
  rewrite decide_True in Hu by (rewrite Hid; lia). injection Hu as <-.
  assert (Hlen2 : Z.of_nat (length (bs ++ [SeqDb.set_status Finalized b])) = Z.of_nat (length bs) + 1)
    by (rewrite length_app; cbn [length]; lia).
  unfold db_inv. cbn [SeqDb.put_nssa_state_in_db SeqDb.put_cf_block SeqDb.put_meta_latest_block_meta
    SeqDb.put_meta_last_block_in_db SeqDb.cf_block SeqDb.first_block_in_db SeqDb.last_block_in_db
    SeqDb.nssa_state_cell SeqDb.latest_block_meta_cell].
  rewrite Hlen2, Hid. split_and!; try done; try lia.
  - rewrite stored_insert. by apply holds_chain_snoc.
  - by apply linked_snoc.
  - rewrite fold_o_app, Hr. cbn. by rewrite replay_ok_set_status, Hrep.
  - eexists _, _. split; [reflexivity|]. split; [done|]. split; [by rewrite last_snoc|done].
Qed.

(** ** Lemmas: the steps preserve the invariant *)
Lemma produce_inv initial bs s now sign s' h :
  seq_inv initial bs s -> produce_new_block s now sign = Ok (s', h) ->
  exists b, seq_inv initial (bs ++ [b]) s' /\ h = Z.of_nat (length (bs ++ [b])) /\
    header_timestamp (header b) = now.
Proof.
  intros (Hdb & Hmap & Hg & Hh) Hp. unfold produce_new_block in Hp.
  apply bind_ok in Hp as ([s1 b] & Hb & Hp). cbv beta iota in Hp.
  apply bind_ok in Hp as (store' & Hu & Heq). injection Heq as <- <-.
  destruct (store_update (store s1) b (zeros 32) (state s1)) as [store1| |] eqn:Hu1; [|done..].
  injection Hu as ->. unfold store_update in Hu1. apply bind_ok in Hu1 as (d & Hu & Heq). injection Heq as <-.
  pose proof Hdb as (_ & _ & _ & Hlen & _ & _ & _ & meta' & bl & Hmeta' & _ & Hlast & Hhash).
  assert (Hrep : replay_ok (state s) b = Ok (state s1)).
  { apply replay_ok_spec. eapply built_block_replays; [|exact Hb]. rewrite Hh. lia. }
  apply build_block_ok in Hb as (meta & popped & taken & st & Hheight & Hmeta & _ & _ & _ & _ & _ & -> & Hst & _ & Hh').
  rewrite Hmeta in Hmeta'. injection Hmeta' as <-. set (b := into_pending_block _ _ _) in *.
  assert (Hlinked : block_linked bs (length bs) b).
  { split_and!; [by cbn; rewrite Hh|done|by rewrite (last_prev_hash _ _ Hlast), <- Hhash|by exists taken]. }
  rewrite Hst in Hu. exists (SeqDb.set_status Finalized b).
  rewrite length_app, Nat2Z.inj_add. cbn [length state store chain_height dbio tx_hash_to_block_map genesis_id].
  split; [|split; [lia|done]]. split_and!.
  - eapply db_inv_update; [exact Hdb|exact Hlinked|lia|exact Hrep|exact Hu].
  - rewrite Hst. by apply (map_inv_extend bs (tx_hash_to_block_map (store s)) (SeqDb.set_status Finalized b));
      [cbn; rewrite Hh|].
  - by rewrite Hst.
  - cbn [store chain_height]. rewrite Hh', length_app, Nat2Z.inj_add, Hh. done.
Qed.

(** Finalizing changes the status of blocks and nothing else. *)
Lemma mark_finalized_inv initial bs st d id d' :
  db_inv initial bs st d -> SeqDb.mark_block_as_finalized id d = Ok d' -> db_inv initial bs st d'.
Proof.
  intros Hdb Hm. unfold SeqDb.mark_block_as_finalized in Hm. apply bind_ok in Hm as (b & Hb & Heq).
  injection Heq as <-. apply ok_or_ok in Hb. unfold SeqDb.get_block in Hb. unfold db_inv in *.
  cbn [SeqDb.put_cf_block SeqDb.cf_block SeqDb.first_block_in_db SeqDb.last_block_in_db
    SeqDb.nssa_state_cell SeqDb.latest_block_meta_cell].
  rewrite stored_insert, insert_id; [exact Hdb|]. by rewrite (stored_lookup _ _ _ Hb).
Qed.
Lemma mark_all_finalized_inv initial bs st d ids d' :
  db_inv initial bs st d -> fold_o (fun d id => SeqDb.mark_block_as_finalized id d) d ids = Ok d' ->
  db_inv initial bs st d'.
Proof.
  revert d. induction ids as [|id ids IH]; intros d Hdb Hf; [by injection Hf as <-|].
  apply bind_ok in Hf as (d1 & Hd1 & Hf). eapply IH; [|exact Hf]. by eapply mark_finalized_inv.
Qed.
Lemma finalize_inv initial bs s id s' :
  seq_inv initial bs s -> clean_finalized_blocks_from_db s id = Ok s' -> seq_inv initial bs s'.
Proof.
  intros (Hdb & Hrest) Hc. unfold clean_finalized_blocks_from_db in Hc.
  apply bind_ok in Hc as (d & Hd & Heq). injection Heq as <-. split; [|exact Hrest].
  cbn [store dbio state]. apply map_err_ok in Hd. by eapply mark_all_finalized_inv.
Qed.

(** ** Lemmas: starting *)
Lemma block_cache_inv d bs n k m m' :
  holds_chain (stored (SeqDb.cf_block d)) bs -> linked bs -> (k + n <= length bs)%nat ->
  map_inv (take k bs) m -> block_cache d n (Z.of_nat k + 1) m = Ok m' -> map_inv (take (k + n) bs) m'.
Proof.
  intros Hm Hl. revert k m. induction n as [|n IH]; intros k m Hk Hinv Hc.
  - injection Hc as <-. by rewrite Nat.add_0_r.
  - cbn [block_cache] in Hc. apply bind_ok in Hc as (b & Hb & Hc). apply expect_ok in Hb.
    destruct (lookup_lt_is_Some_2 bs k ltac:(lia)) as [x Hx].
    destruct (chain_lookup _ _ _ _ Hm Hx) as (b' & Hb' & Hhd & Hbd).
    unfold SeqDb.get_block in Hb. rewrite Hb' in Hb. injection Hb as <-.
    replace (k + S n)%nat with (S k + n)%nat by lia. eapply IH; [lia| |].
    + erewrite take_S_r by exact Hx. apply map_inv_extend; [|exact Hinv].
      rewrite length_take_le by lia. by apply Hl.
    + replace (Z.of_nat (S k) + 1) with (Z.of_nat k + 1 + 1) by lia.
      rewrite <- Hc. f_equal. f_equal. unfold block_to_transactions_map. by rewrite Hhd, Hbd.
Qed.

Lemma open_db_inv initial bs st d store :
  db_inv initial bs st d -> open_db d = Ok store ->
  dbio store = d /\ genesis_id store = 1 /\ map_inv bs (tx_hash_to_block_map store).
Proof.
  intros (Hm & Hl & _ & Hlen & Hf & _ & _ & meta & b & Hmeta & Hid & _) Ho. unfold open_db in Ho.
  apply bind_ok in Ho as (g & Hg & Ho). unfold SeqDb.get_meta_first_block_in_db, SeqDb.get_cell in Hg.
  rewrite Hf in Hg. injection Hg as <-. apply bind_ok in Ho as (meta' & Hmeta' & Ho).
  unfold SeqDb.latest_block_meta, SeqDb.get_cell in Hmeta'. rewrite Hmeta in Hmeta'. injection Hmeta' as <-.
  apply bind_ok in Ho as (m & Hc & Heq). injection Heq as <-. split; [done|]. split; [done|].
  rewrite Hid in Hc. replace (Z.to_nat (Z.of_nat (length bs) - 1 + 1)) with (length bs) in Hc by lia.
  change 1 with (Z.of_nat 0 + 1) in Hc. apply (block_cache_inv d bs (length bs) 0 ∅ m Hm Hl) in Hc.
  - by rewrite Nat.add_0_l, take_ge in Hc by lia.
  - lia.
  - split; [by intros h id; rewrite lookup_empty|]. by intros b' tx Hb'%not_elem_of_nil.
Qed.

Lemma restart_inv initial bs s cfg initial' sign s' :
  seq_inv initial bs s -> start_from_config cfg (Some (dbio (store s))) initial' sign = Ok s' ->
  seq_inv initial bs s' /\ state s' = state s.
Proof.
  intros (Hdb & _) Hs. unfold start_from_config in Hs.
  apply bind_ok in Hs as ([store0 st] & Ho & Hs). cbv beta iota in Hs.
  apply bind_ok in Hs as (meta & Hmeta & Hs). apply bind_ok in Hs as (m & _ & Heq). injection Heq as <-.
  apply bind_ok in Ho as (store1 & Ho & Hr). apply map_err_ok in Ho.
  apply bind_ok in Hr as (st1 & Hst & Hr). apply map_err_ok in Hst.
  apply bind_ok in Hr as (g & _ & Heq). injection Heq as -> ->.
  destruct (open_db_inv _ _ _ _ _ Hdb Ho) as (Hd & Hg & Hmap). rewrite Hd in Hst, Hmeta.
  pose proof Hdb as (_ & _ & _ & _ & _ & _ & Hcell & meta' & b & Hmeta' & Hid & _).
  unfold SeqDb.get_nssa_state, SeqDb.get_cell in Hst. rewrite Hcell in Hst. injection Hst as <-.
  apply map_err_ok in Hmeta. unfold SeqDb.latest_block_meta, SeqDb.get_cell in Hmeta.
  rewrite Hmeta' in Hmeta. injection Hmeta as <-. split; [|done].
  unfold seq_inv. cbn [state store chain_height]. by rewrite Hd.
Qed.

Lemma genesis_replays initial txs st :
  fold_o (fun st tx =>
    match transition_from_public_transaction st tx GENESIS_BLOCK_ID 0 with
    | Ok st => Ok st
    | _ => Panic "Failed to execute genesis transaction"
    end) initial txs = Ok (E := SequencerError) st ->
  replay_txs GENESIS_BLOCK_ID 0 initial (Public <$> txs) = (st, Ok ()).
Proof.
  revert initial. induction txs as [|tx txs IH]; intros st0 Hf; [by injection Hf as <-|].
  apply bind_ok in Hf as (st1 & Ht & Hf). cbn [fmap list_fmap replay_txs].
  unfold replay_tx. rewrite decide_True by done.
  destruct (transition_from_public_transaction st0 tx GENESIS_BLOCK_ID 0) as [st2| |]; [|done..].
  injection Ht as ->. cbn [map_err]. by apply IH.
Qed.

Lemma genesis_inv cfg initial sign s :
  start_from_config cfg None initial sign = Ok s ->
  exists b, seq_inv initial [b] s.
Proof.
  intros Hs. unfold start_from_config in Hs.
  apply bind_ok in Hs as ([store0 st] & Ho & Hs). cbv beta iota in Hs.
  apply bind_ok in Hs as (meta & Hmeta & Hs). apply bind_ok in Hs as (m & _ & Heq). injection Heq as <-.
  apply bind_ok in Ho as ([gst gtxs] & Hg & Ho). cbv beta iota zeta in Ho.
  apply bind_ok in Ho as (store1 & Hst & Heq). injection Heq as -> ->. apply map_err_ok in Hst, Hmeta.
  unfold build_genesis_state in Hg. apply bind_ok in Hg as (st1 & Hf & Heq). injection Heq as <- <-.
  rewrite fold_o_app in Hf. apply bind_ok in Hf as (st2 & Hf & Hclk). apply genesis_replays in Hf.
  apply bind_ok in Hclk as (st3 & Hclk & Heq). injection Heq as ->.
  destruct (transition_from_public_transaction st2 _ _ _) as [st4| |] eqn:Htr; [|done..]. injection Hclk as ->.
  rewrite fmap_app in Hst. set (b := into_pending_block _ _ _) in Hst.
  unfold create_db_with_genesis in Hst. apply bind_ok in Hst as (d & Hd & Hst).
  injection Hd as <-. apply bind_ok in Hst as (g & Hgid & Heq). injection Hgid as <-. injection Heq as <-.
  unfold SeqDb.latest_block_meta, SeqDb.get_cell in Hmeta. injection Hmeta as <-.
  exists (SeqDb.set_status Finalized b). unfold seq_inv, db_inv. cbn [state store chain_height].
  assert (Hrep : replay_ok initial b = Ok st1).
  { apply replay_ok_spec. eapply replay_block_snoc; [reflexivity|exact Hf|exact Htr]. }
  split_and!; try done.
  - intros i. unfold stored. cbn [dbio SeqDb.cf_block SeqDb.put_nssa_state_in_db SeqDb.put_meta_latest_block_meta
      SeqDb.put_meta_last_finalized_block_id SeqDb.put_meta_last_block_in_db SeqDb.put_meta_is_first_block_set
      SeqDb.put_cf_block SeqDb.put_first_block_cell SeqDb.empty].
    rewrite fmap_insert, fmap_empty. destruct i as [|i].
    + by rewrite lookup_insert_eq.
    + rewrite lookup_insert_ne; [by rewrite lookup_empty|]. change (1 <> Z.of_nat (S i) + 1). lia.
  - intros i b' Hi. apply list_lookup_singleton_Some in Hi as [-> <-]. split_and!; [done..|]. by eexists.
  - cbn. by rewrite replay_ok_set_status, Hrep.
  - eexists _, _. split; [reflexivity|]. by split_and!.
  - cbn [tx_hash_to_block_map]. split.
    + intros h id. change (block_to_transactions_map b !! h = Some id -> exists i b0,
        id = Z.of_nat i + 1 /\ [SeqDb.set_status Finalized b] !! i = Some b0 /\ h ∈ tx_hash <$> body b0).
      rewrite block_map_lookup. case_decide; [|done]. intros [= <-].
      exists 0%nat, (SeqDb.set_status Finalized b). by split_and!.
    + intros b' tx Hb' Htx. apply list_elem_of_singleton in Hb' as ->.
      change (is_Some (block_to_transactions_map b !! tx_hash tx)). rewrite block_map_lookup.
      rewrite decide_True; [by eexists|]. by apply list_elem_of_fmap_2.
Qed.

(** Every reachable sequencer satisfies the invariant for some chain. *)
Lemma step_inv initial bs s s' :
  seq_inv initial bs s -> step s s' -> exists bs', bs `prefix_of` bs' /\ seq_inv initial bs' s'.
Proof.
  intros Hinv Hs. inversion Hs as [? tx h m Hsend|? now sign ? h Hp|? id ? Hc|? cfg ini sign ? Hr]; subst.
  - by exists bs.
  - eapply produce_inv in Hp as (b & Hb & _); [|exact Hinv]. exists (bs ++ [b]).
    split; [by apply prefix_app_r|exact Hb].
  - exists bs. split; [done|]. by eapply finalize_inv.
  - exists bs. split; [done|]. by eapply restart_inv.
Qed.
Lemma steps_inv initial bs s s' :
  seq_inv initial bs s -> rtc step s s' -> exists bs', bs `prefix_of` bs' /\ seq_inv initial bs' s'.
Proof.
  intros Hinv Hs. revert bs Hinv. induction Hs as [|s s1 s2 Hstep _ IH]; intros bs Hinv; [by exists bs|].
  destruct (step_inv _ _ _ _ Hinv Hstep) as (bs1 & Hpre & Hinv1).
  destruct (IH _ Hinv1) as (bs2 & Hpre2 & Hinv2). exists bs2. split; [by etrans|exact Hinv2].
Qed.
Lemma reachable_inv initial s : reachable initial s -> exists bs, seq_inv initial bs s.
Proof.
  intros (cfg & sign & s0 & Hs & Hsteps). apply genesis_inv in Hs as (b & Hinv).
  destruct (steps_inv _ _ _ _ Hinv Hsteps) as (bs & _ & Hbs). by exists bs.
Qed.
End Invariant.
