(* ===== verification/IndexerInvariant.v ===== *)
(** The invariant of the indexer: its database holds a chain of blocks, its
    breakpoints are the states after every hundredth block, its current state is
    the state after the last block, and its lookup tables describe the chain. *)

From S2P Require Import Prelude Bytes Crypto Account Ids ProgramCore Borsh MerkleTree Host State Transactions StateDiffs NativePrograms Chain SequencerStore Sequencer IndexerStore SequencerInvariant.

Open Scope Z_scope.

Section Invariant.
Context `{Validation, TransactionEncodings}.

(** The state after the first [n] blocks. *)
Definition state_after (initial : V03State) (bs : list Block) (n : nat) : outcome ReplayError V03State :=
  fold_o replay_ok initial (take n bs).

(** The database holds the chain [bs], the breakpoints 0, ..., [B] and no other,
    and [m] as the id of the last breakpoint. *)
Record db_chain (initial : V03State) (bs : list Block) (B m : Z) (d : IxDb.RocksDBIO) : Prop := {
  dc_blocks : holds_chain (stored (IxDb.cf_block d)) bs;
  dc_replays : exists st, fold_o replay_ok initial bs = Ok st;
  dc_bound : Z.of_nat (length bs) < 2 ^ 64;
  dc_last : IxDb.last_block d = Z.of_nat (length bs);
  dc_last_breakpoint : IxDb.last_breakpoint d = m;
  dc_below : 0 <= B /\ 100 * B <= Z.of_nat (length bs);
  dc_breakpoints k : 0 <= k <= B ->
    exists st, IxDb.cf_breakpoint d !! k = Some st /\ state_after initial bs (Z.to_nat (100 * k)) = Ok st;
  dc_beyond k : B < k -> IxDb.cf_breakpoint d !! k = None;
}.
(** An indexer that had the breakpoints 0, ..., [B] when it was opened, after
    [100 o] blocks or up to 99 more: since then one breakpoint was written per
    hundred blocks, and the ids of these breakpoints start again from 1. *)
Definition written (o : Z) (bs : list Block) : Z := Z.of_nat (length bs) / 100 - o.
Definition ix_inv (initial : V03State) (B o : Z) (bs : list Block) (s : IndexerStore) : Prop :=
  db_chain initial bs (Z.max B (written o bs)) (written o bs) (ix_dbio s) /\
  fold_o replay_ok initial bs = Ok (current_state s) /\ 0 <= o /\ 0 <= written o bs.

(** ** Lemmas *)
Lemma state_after_ok initial bs n st :
  fold_o replay_ok initial bs = Ok st -> exists st', state_after initial bs n = Ok st'.
Proof.
  intros Hf. rewrite <- (take_drop n bs), fold_o_app in Hf. apply bind_ok in Hf as (st' & Hst & _).
  by exists st'.
Qed.

Lemma batch_replays d bs n k st :
  holds_chain (stored (IxDb.cf_block d)) bs -> (k + n <= length bs)%nat ->
  fold_o replay_ok st (IxDb.get_block_batch_seq d (seqZ (Z.of_nat k + 1) (Z.of_nat n))) =
    fold_o replay_ok st (take n (drop k bs)).
Proof.
  intros Hm. revert k st. induction n as [|n IH]; intros k st Hk; [done|].
  destruct (lookup_lt_is_Some_2 bs k ltac:(lia)) as [x Hx].
  rewrite (drop_S _ x k Hx). rewrite seqZ_cons by lia. cbn [IxDb.get_block_batch_seq take].
  destruct (chain_lookup _ _ _ _ Hm Hx) as (b & Hb & Hhd & Hbd). unfold IxDb.get_block. rewrite Hb.
  cbn [fold_o]. assert (Heq : replay_ok st b = replay_ok st x).
  { unfold replay_ok, replay_block. by rewrite Hhd, Hbd. }
  rewrite Heq. destruct (replay_ok st x) as [st1| |]; [|done..]. cbn [mbind outcome_bind].
  replace (Z.succ (Z.of_nat k + 1)) with (Z.of_nat (S k) + 1) by lia.
  replace (Z.pred (Z.of_nat (S n))) with (Z.of_nat n) by lia. apply IH. lia.
Qed.

(** The state at a block is the replay of the chain up to it, when the
    breakpoint before it is there; otherwise it is an error. *)
Lemma calculate_state_ok initial bs B m d (n : nat) :
  db_chain initial bs B m d -> (n <= length bs)%nat -> IxDb.closest_breakpoint_id (Z.of_nat n) <= B ->
  exists st, IxDb.calculate_state_for_id d (Z.of_nat n) = Ok st /\ state_after initial bs n = Ok st.
Proof.
  intros [Hm [stl Hr] Hb Hl _ [HB0 HB] Hbp _] Hn HqB. unfold IxDb.calculate_state_for_id.
  rewrite Hl, decide_False by lia. unfold IxDb.closest_breakpoint_id, IxDb.get_breakpoint, BREAKPOINT_INTERVAL in *.
  set (q := Z.max 0 (Z.of_nat n - 1) / 100) in *.
  assert (Hq0 : 0 <= q) by (apply Z.div_pos; lia).
  assert (Hq : 100 * q <= Z.max 0 (Z.of_nat n - 1)) by (apply Z.mul_div_le; lia).
  destruct (Hbp q (conj Hq0 HqB)) as (st & Hst & Hafter). rewrite Hst. cbn [ok_or mbind outcome_bind].
  unfold checked_mul, checked_add. rewrite decide_True by lia. cbn [expect mbind outcome_bind].
  rewrite decide_True by lia. cbn [expect mbind outcome_bind].
  set (k := Z.to_nat (100 * q)) in *. replace (100 * q) with (Z.of_nat k) by lia.
  replace (Z.of_nat n - Z.of_nat k) with (Z.of_nat (n - k)) by lia.
  rewrite (batch_replays d bs (n - k) k st Hm) by lia.
  destruct (state_after_ok initial bs n stl Hr) as [st' Hst']. exists st'. split; [|done].
  unfold state_after in Hafter, Hst'. replace (take n bs) with (take k bs ++ take (n - k) (drop k bs)) in Hst'.
  - rewrite fold_o_app, Hafter in Hst'. cbn [mbind outcome_bind] in Hst'. by rewrite Hst'.
  - rewrite take_drop_commute. replace (k + (n - k))%nat with n by lia.
    replace (take k bs) with (take k (take n bs)) by (rewrite take_take; f_equal; lia). apply take_drop.
Qed.
Lemma calculate_state_missing initial bs B m d (n : nat) :
  db_chain initial bs B m d -> (n <= length bs)%nat -> B < IxDb.closest_breakpoint_id (Z.of_nat n) ->
  IxDb.calculate_state_for_id d (Z.of_nat n) = Err (DbInteractionError "breakpoint not found").
Proof.
  intros Hdc Hn Hq. unfold IxDb.calculate_state_for_id.
  rewrite (dc_last _ _ _ _ _ Hdc), decide_False by lia. unfold IxDb.get_breakpoint.
  by rewrite (dc_beyond _ _ _ _ _ Hdc _ Hq).
Qed.

(** ** Lemmas: writing a block *)
Lemma state_after_snoc initial bs b n :
  (n <= length bs)%nat -> state_after initial (bs ++ [b]) n = state_after initial bs n.
Proof. intros Hn. unfold state_after. by rewrite take_app_le. Qed.

Lemma write_block_chain initial bs B m d b hdr st :
  db_chain initial bs B m d ->
  header_block_id (header b) = Z.of_nat (length bs) + 1 -> Z.of_nat (length bs) + 1 < 2 ^ 64 ->
  fold_o replay_ok initial (bs ++ [SeqDb.set_status Finalized b]) = Ok st ->
  db_chain initial (bs ++ [SeqDb.set_status Finalized b]) B m
    (IxDb.write_block (SeqDb.set_status Finalized b) hdr d).
Proof.
  intros [Hm _ Hb Hl Hlb [HB0 HB] Hbp Hbey] Hid Hlt Hst.
  assert (Hlen : Z.of_nat (length (bs ++ [SeqDb.set_status Finalized b])) = Z.of_nat (length bs) + 1)
    by (rewrite length_app; cbn [length]; lia).
  split.
  - cbn [IxDb.write_block IxDb.cf_block]. rewrite stored_insert. apply holds_chain_snoc; [exact Hid|done].
  - by exists st.
  - lia.
  - unfold IxDb.last_block at 1. cbn [IxDb.write_block IxDb.last_block_in_db].
    rewrite bool_decide_eq_true_2; [cbn [default]; rewrite Hlen; exact Hid|].
    rewrite Hl. cbn [SeqDb.set_status header]. rewrite Hid. lia.
  - exact Hlb.
  - lia.
  - intros k Hk. destruct (Hbp k Hk) as (s & Hs & Ha). exists s. split; [exact Hs|].
    rewrite state_after_snoc by lia. exact Ha.
  - exact Hbey.
Qed.

Lemma div_100_succ n : 0 <= n -> (n + 1) mod 100 = 0 -> (n + 1) / 100 = n / 100 + 1 /\ 100 * (n / 100 + 1) = n + 1.
Proof.
  intros Hn Hm. pose proof (Z.div_mod n 100 ltac:(lia)). pose proof (Z.div_mod (n + 1) 100 ltac:(lia)).
  pose proof (Z.mod_pos_bound n 100 ltac:(lia)). lia.
Qed.
Lemma div_100_same n : 0 <= n -> (n + 1) mod 100 <> 0 -> (n + 1) / 100 = n / 100.
Proof.
  intros Hn Hm. pose proof (Z.div_mod n 100 ltac:(lia)). pose proof (Z.div_mod (n + 1) 100 ltac:(lia)).
  pose proof (Z.mod_pos_bound n 100 ltac:(lia)). pose proof (Z.mod_pos_bound (n + 1) 100 ltac:(lia)). lia.
Qed.

(** The next breakpoint is written, again or for the first time. *)
Lemma next_breakpoint_chain initial bs B m d :
  db_chain initial bs B m d -> 0 <= m <= B -> 100 * (m + 1) <= Z.of_nat (length bs) ->
  exists d', IxDb.put_next_breakpoint d = Ok d' /\ db_chain initial bs (Z.max B (m + 1)) (m + 1) d'.
Proof.
  intros Hdc Hm Hlen. pose proof Hdc as [Hch Hr Hb Hl Hlb [HB0 HB1] Hbp Hbey].
  unfold IxDb.put_next_breakpoint, checked_add, checked_mul. rewrite Hlb.
  rewrite decide_True by lia. cbn [expect mbind outcome_bind]. unfold BREAKPOINT_INTERVAL.
  rewrite decide_True by lia. cbn [expect mbind outcome_bind]. rewrite Hl, decide_True by lia.
  set (n := Z.to_nat (100 * (m + 1))). replace ((m + 1) * 100) with (Z.of_nat n) by lia.
  destruct (calculate_state_ok _ _ _ _ _ n Hdc) as (st & Hc & Ha); [lia| |].
  { unfold IxDb.closest_breakpoint_id, BREAKPOINT_INTERVAL. rewrite Z.max_r by lia.
    replace (Z.of_nat n - 1) with (99 + m * 100) by lia. rewrite Z.div_add by lia. change (99 / 100) with 0. lia. }
  rewrite Hc. cbn [mbind outcome_bind]. eexists. split; [reflexivity|]. split; try done; try lia.
  - intros k Hk. cbn [IxDb.put_meta_last_breakpoint_id IxDb.put_breakpoint IxDb.cf_breakpoint].
    destruct (decide (k = m + 1)) as [->|Hne].
    + rewrite lookup_insert_eq. exists st. by split.
    + rewrite lookup_insert_ne by lia. apply Hbp. lia.
  - intros k Hk. cbn [IxDb.put_meta_last_breakpoint_id IxDb.put_breakpoint IxDb.cf_breakpoint].
    rewrite lookup_insert_ne by lia. apply Hbey. lia.
Qed.

(** A block that follows the chain and replays is stored, and the invariant holds again. *)
Lemma ix_put_block_inv initial B o bs s b hdr st :
  ix_inv initial B o bs s -> header_block_id (header b) = Z.of_nat (length bs) + 1 ->
  Z.of_nat (length bs) + 1 < 2 ^ 64 -> replay_block (current_state s) b = (st, Ok ()) ->
  exists s', ix_put_block b hdr s = (s', Ok ()) /\ current_state s' = st /\
    ix_inv initial B o (bs ++ [SeqDb.set_status Finalized b]) s'.
Proof.
  intros (Hdc & Hcur & Ho & Hw) Hid Hlt Hrep.
  assert (Hfold : fold_o replay_ok initial (bs ++ [SeqDb.set_status Finalized b]) = Ok st).
  { rewrite fold_o_app, Hcur. cbn [mbind outcome_bind fold_o]. rewrite replay_ok_set_status.
    by rewrite (proj2 (replay_ok_spec _ _ _) Hrep). }
  assert (Hlen : Z.of_nat (length (bs ++ [SeqDb.set_status Finalized b])) = Z.of_nat (length bs) + 1)
    by (rewrite length_app; cbn [length]; lia).
  pose proof (write_block_chain _ _ _ _ _ _ hdr _ Hdc Hid Hlt Hfold) as Hdc'.
  unfold ix_put_block. rewrite Hrep. unfold IxDb.put_block.
  change (header_block_id (header (SeqDb.set_status Finalized b))) with (header_block_id (header b)).
  unfold BREAKPOINT_INTERVAL. rewrite Hid. unfold ix_inv. unfold written in *. rewrite Hlen. case_decide as Hmod.
  - destruct (div_100_succ (Z.of_nat (length bs)) ltac:(lia) Hmod) as [Hd1 Hd2].
    destruct (next_breakpoint_chain _ _ _ _ _ Hdc') as (d' & Hput & Hdc2); [lia|lia|].
    rewrite Hput. eexists. split; [reflexivity|]. split; [done|]. split_and!; [|exact Hfold|done|lia].
    rewrite Hd1. replace (Z.of_nat (length bs) / 100 + 1 - o) with (Z.of_nat (length bs) / 100 - o + 1) by lia.
    replace (Z.max B (Z.of_nat (length bs) / 100 - o + 1))
      with (Z.max (Z.max B (Z.of_nat (length bs) / 100 - o)) (Z.of_nat (length bs) / 100 - o + 1)) by lia.
    exact Hdc2.
  - rewrite div_100_same by (done || lia).
    eexists. split; [reflexivity|]. split; [done|]. by split_and!.
Qed.

(** ** Ingesting a chain *)
Fixpoint ix_ingest (blocks : list Block) (hdr : list byte) (s : IndexerStore) :
    IndexerStore * outcome IndexerError () :=
  match blocks with
  | [] => (s, Ok ())
  | b :: blocks =>
      match ix_put_block b hdr s with
      | (s, Ok _) => ix_ingest blocks hdr s
      | r => r
      end
  end.

(** Opening: a database without blocks, or one of an indexer that has every
    breakpoint it needs. *)
Lemma ix_open_empty initial : exists s, ix_open_db IxDb.empty initial = Ok s /\ ix_inv initial 0 0 [] s.
Proof.
  assert (Hdc : db_chain initial [] 0 0 (IxDb.open_or_create IxDb.empty initial)).
  { split; try done; try lia.
    - by exists initial.
    - intros k Hk. assert (k = 0) as -> by lia. exists initial. split; [|done].
      cbn [IxDb.open_or_create IxDb.put_meta_last_breakpoint_id IxDb.put_breakpoint IxDb.cf_breakpoint].
      apply lookup_insert_eq.
    - intros k Hk. cbn [IxDb.open_or_create IxDb.put_meta_last_breakpoint_id IxDb.put_breakpoint IxDb.cf_breakpoint].
      rewrite lookup_insert_ne by lia. apply lookup_empty. }
  destruct (calculate_state_ok _ _ _ _ _ 0%nat Hdc) as (st & Hc & Ha); [cbn; lia|vm_compute; discriminate|].
  injection Ha as <-. unfold ix_open_db, IxDb.final_state. rewrite (dc_last _ _ _ _ _ Hdc). cbn [length].
  rewrite Hc. eexists. split; [reflexivity|]. by split_and!.
Qed.

Lemma open_or_create_chain initial bs B m d :
  db_chain initial bs B m d -> db_chain initial bs B 0 (IxDb.open_or_create d initial).
Proof.
  intros [Hm Hr Hb Hl _ HB Hbp Hbey]. split; try done.
  - intros k Hk. cbn [IxDb.open_or_create IxDb.put_meta_last_breakpoint_id IxDb.put_breakpoint IxDb.cf_breakpoint].
    destruct (decide (k = 0)) as [->|Hne]; [|rewrite lookup_insert_ne by lia; by apply Hbp].
    rewrite lookup_insert_eq. by exists initial.
  - intros k Hk. cbn [IxDb.open_or_create IxDb.put_meta_last_breakpoint_id IxDb.put_breakpoint IxDb.cf_breakpoint].
    rewrite lookup_insert_ne by lia. by apply Hbey.
Qed.
Lemma ix_reopen_inv initial B o bs s :
  ix_inv initial B o bs s -> IxDb.closest_breakpoint_id (Z.of_nat (length bs)) <= Z.max B (written o bs) ->
  exists s', ix_open_db (ix_dbio s) initial = Ok s' /\ current_state s' = current_state s /\
    ix_inv initial (Z.max B (written o bs)) (Z.of_nat (length bs) / 100) bs s'.
Proof.
  intros (Hdc & Hcur & Ho & Hw) Hclose. apply open_or_create_chain in Hdc.
  destruct (calculate_state_ok _ _ _ _ _ (length bs) Hdc) as (st & Hc & Ha); [lia|done|].
  unfold state_after in Ha. rewrite take_ge in Ha by lia. rewrite Hcur in Ha. injection Ha as <-.
  unfold ix_open_db, IxDb.final_state. rewrite (dc_last _ _ _ _ _ Hdc), Hc.
  eexists. split; [reflexivity|]. split; [done|]. unfold ix_inv.
  assert (Hw0 : written (Z.of_nat (length bs) / 100) bs = 0) by (unfold written; lia). rewrite Hw0.
  split_and!; [|exact Hcur|apply Z.div_pos; lia|lia].
  rewrite Z.max_l by lia. exact Hdc.
Qed.

Lemma ix_ingest_inv initial B o bs s blocks hdr st :
  ix_inv initial B o bs s ->
  (forall i b, blocks !! i = Some b -> header_block_id (header b) = Z.of_nat (length bs) + Z.of_nat i + 1) ->
  Z.of_nat (length bs) + Z.of_nat (length blocks) < 2 ^ 64 ->
  fold_o replay_ok (current_state s) blocks = Ok st ->
  exists s', ix_ingest blocks hdr s = (s', Ok ()) /\ current_state s' = st /\
    ix_inv initial B o (bs ++ (SeqDb.set_status Finalized <$> blocks)) s'.
Proof.
  revert bs s. induction blocks as [|b blocks IH]; intros bs s Hinv Hids Hlt Hf.
  - injection Hf as <-. exists s. cbn [fmap list_fmap]. by rewrite app_nil_r.
  - apply bind_ok in Hf as (st1 & Hr & Hf). apply replay_ok_spec in Hr. cbn [length] in Hlt.
    pose proof (Hids 0%nat b eq_refl) as Hid.
    destruct (ix_put_block_inv initial B o bs s b hdr st1 Hinv) as (s1 & Hput & <- & Hinv1); [lia|lia|done|].
    destruct (IH _ _ Hinv1) as (s' & Hi & Hst & Hinv').
    + intros i b' Hb'. rewrite (Hids (S i) b' Hb'), length_app. cbn [length]. lia.
    + rewrite length_app. cbn [length]. lia.
    + exact Hf.
    + exists s'. cbn [ix_ingest]. rewrite Hput. split; [exact Hi|]. split; [exact Hst|].
      cbn [fmap list_fmap]. rewrite <- app_assoc in Hinv'. exact Hinv'.
Qed.
End Invariant.

(** ** The lookup tables of the indexer: block hashes, transaction hashes, and the
    transactions of each account, against the chain of blocks that is stored. *)

Section Lookups.
Context `{Validation, TransactionEncodings}.

(** The transactions of a chain, and those of an account, in their order. *)
Definition chain_txs (bs : list Block) : list NSSATransaction := concat (body <$> bs).
Definition touching (id : AccountId) (txs : list NSSATransaction) : list NSSATransaction :=
  filter (fun tx => id ∈ affected_public_account_ids tx) txs.
Definition history (id : AccountId) (bs : list Block) : list NSSATransaction := touching id (chain_txs bs).

(** The tables describe the chain [bs]. *)
Record indexed (bs : list Block) (d : IxDb.RocksDBIO) : Prop := {
  ix_blocks : holds_chain (IxDb.cf_block d) bs;
  ix_tx_sound h id : IxDb.cf_tx_to_id d !! h = Some id ->
    exists i b, id = Z.of_nat i + 1 /\ bs !! i = Some b /\ h ∈ tx_hash <$> body b;
  ix_tx_complete b tx : b ∈ bs -> tx ∈ body b -> is_Some (IxDb.cf_tx_to_id d !! tx_hash tx);
  ix_block_sound h id : IxDb.cf_hash_to_id d !! h = Some id ->
    exists i b, id = Z.of_nat i + 1 /\ bs !! i = Some b /\ header_hash (header b) = h;
  ix_block_complete b : b ∈ bs -> is_Some (IxDb.cf_hash_to_id d !! header_hash (header b));
  ix_count id : default 0 (IxDb.cf_acc_meta d !! id) = Z.of_nat (length (history id bs));
  ix_history id (n : nat) : IxDb.cf_acc_to_tx d !! (id, Z.of_nat n) = (tx_hash <$> history id bs) !! n;
}.

Lemma touching_app id l k : touching id (l ++ k) = touching id l ++ touching id k.
Proof. apply filter_app. Qed.
Lemma chain_txs_snoc bs b : chain_txs (bs ++ [b]) = chain_txs bs ++ body b.
Proof. unfold chain_txs. rewrite fmap_app, concat_app. cbn. by rewrite app_nil_r. Qed.
Lemma history_snoc id bs b : history id (bs ++ [b]) = history id bs ++ touching id (body b).
Proof. unfold history. by rewrite chain_txs_snoc, touching_app. Qed.

(** *** The transactions of a block, by account *)
Lemma add_hash_lookup (h : HashType) (X : gset AccountId) id : forall m : gmap AccountId (list HashType),
  set_fold (fun id m => <[id := default [] (m !! id) ++ [h]]> m) m X !! id =
    if decide (id ∈ X) then Some (default [] (m !! id) ++ [h]) else m !! id.
Proof.
  intros m.
  assert (Hfold : (id ∈ X -> set_fold (fun id m => <[id := default [] (m !! id) ++ [h]]> m) m X !! id = Some (default [] (m !! id) ++ [h])) /\
    (id ∉ X -> set_fold (fun id m => <[id := default [] (m !! id) ++ [h]]> m) m X !! id = m !! id)).
  { apply (set_fold_ind_L (fun (r : gmap AccountId (list HashType)) X =>
      (id ∈ X -> r !! id = Some (default [] (m !! id) ++ [h])) /\ (id ∉ X -> r !! id = m !! id))); [set_solver|].
    intros x X' r Hx [Hin Hout]. destruct (decide (id = x)) as [->|Hne].
    - rewrite lookup_insert_eq, (Hout Hx). split; [done|set_solver].
    - rewrite lookup_insert_ne by done. split; intros Hid; [apply Hin|apply Hout]; set_solver. }
  case_decide; by apply Hfold.
Qed.
Lemma acc_to_tx_lookup txs id : default [] (IxDb.acc_to_tx_map txs !! id) = tx_hash <$> touching id txs.
Proof.
  unfold IxDb.acc_to_tx_map. enough (Hgen : forall m : gmap AccountId (list HashType),
    default [] (foldl (fun m tx => set_fold (fun id m => <[id := default [] (m !! id) ++ [tx_hash tx]]> m) m
      (affected_public_account_ids tx)) m txs !! id) = default [] (m !! id) ++ (tx_hash <$> touching id txs)) by (rewrite (Hgen ∅), lookup_empty; done).
  induction txs as [|tx txs IH]; intros m; [by rewrite app_nil_r|]. cbn [foldl]. rewrite IH, add_hash_lookup.
  unfold touching. rewrite filter_cons. case_decide; [|done]. cbn. by rewrite <- app_assoc.
Qed.

Lemma put_transactions_lookup num id hashes id' (n : Z) : forall to_tx,
  IxDb.put_account_transactions num id hashes to_tx !! (id', n) =
    if decide (id = id' /\ num <= n < num + Z.of_nat (length hashes)) then hashes !! Z.to_nat (n - num) else to_tx !! (id', n).
Proof.
  unfold IxDb.put_account_transactions. induction hashes as [|h hashes IH] using rev_ind; intros to_tx.
  { cbn. by rewrite decide_False by lia. }
  rewrite length_app. cbn [length]. rewrite seq_app, zip_with_app by by rewrite length_seq.
  rewrite foldl_app. cbn [seq zip_with foldl fst snd]. rewrite Nat.add_0_l.
  destruct (decide ((id, num + Z.of_nat (length hashes)) = (id', n))) as [Heq|Hne].
  - rewrite <- Heq. rewrite lookup_insert_eq. injection Heq as <- <-. rewrite decide_True by (split; [done|lia]).
    replace (Z.to_nat _) with (length hashes) by lia. by rewrite list_lookup_middle.
  - rewrite lookup_insert_ne, IH by done. destruct (decide (id = id')) as [->|Hid].
    2:{ by rewrite !decide_False by (intros [? _]; done). }
    assert (n <> num + Z.of_nat (length hashes)) by (intros ->; by destruct Hne).
    destruct (decide (num <= n < num + Z.of_nat (length hashes))) as [Hin|Hout].
    + rewrite !decide_True by (split; [done|lia]). rewrite lookup_app_l; [done|lia].
    + by rewrite !decide_False by (intros [_ ?]; lia).
Qed.

Lemma put_all_lookup txs meta to_tx id (n : Z) :
  let r := IxDb.put_all_account_transactions txs meta to_tx in
  let num := default 0 (meta !! id) in
  default 0 (r.1 !! id) = num + Z.of_nat (length (touching id txs)) /\
  r.2 !! (id, n) = if decide (num <= n < num + Z.of_nat (length (touching id txs)))
                   then (tx_hash <$> touching id txs) !! Z.to_nat (n - num) else to_tx !! (id, n).
Proof.
  cbv zeta. rewrite <- (length_fmap tx_hash). rewrite <- acc_to_tx_lookup. unfold IxDb.put_all_account_transactions.
  set (P := fun (r : gmap AccountId Z * gmap (AccountId * Z) HashType) (m : gmap AccountId (list HashType)) =>
    let num := default 0 (meta !! id) in
    let hashes := default [] (m !! id) in
    default 0 (r.1 !! id) = num + Z.of_nat (length hashes) /\
    r.2 !! (id, n) = if decide (num <= n < num + Z.of_nat (length hashes)) then hashes !! Z.to_nat (n - num) else to_tx !! (id, n)).
  enough (HP : P (map_fold (fun id hashes (acc : gmap AccountId Z * gmap (AccountId * Z) HashType) =>
      let num := default 0 (meta !! id) in
      (<[id := num + Z.of_nat (length hashes)]> acc.1, IxDb.put_account_transactions num id hashes acc.2))
    (meta, to_tx) (IxDb.acc_to_tx_map txs)) (IxDb.acc_to_tx_map txs)) by exact HP.
  apply (map_fold_weak_ind P); unfold P.
  - rewrite lookup_empty. cbn. by rewrite decide_False by lia; split; [lia|].
  - intros i hashes m r Hi [Hmeta Htx]. cbn [fst snd]. rewrite put_transactions_lookup.
    destruct (decide (i = id)) as [->|Hne].
    + rewrite !lookup_insert_eq. cbn [default from_option Datatypes.id]. rewrite Hi in *. cbn [default from_option length] in *. split; [done|].
      destruct (decide (default 0 (meta !! id) <= n < default 0 (meta !! id) + Z.of_nat (length hashes))) as [Hin|Hout].
      * by rewrite decide_True.
      * rewrite decide_False by naive_solver. rewrite Htx. apply decide_False. lia.
    + rewrite !lookup_insert_ne by done. split; [done|]. rewrite decide_False by naive_solver. exact Htx.
Qed.

(** ** Writing a block *)
Lemma indexed_empty : indexed [] IxDb.empty.
Proof.
  split; cbn; try done; try set_solver.
Qed.
(** Only the tables of the database matter. *)
Lemma indexed_ext bs d d' :
  IxDb.cf_block d' = IxDb.cf_block d -> IxDb.cf_tx_to_id d' = IxDb.cf_tx_to_id d ->
  IxDb.cf_hash_to_id d' = IxDb.cf_hash_to_id d -> IxDb.cf_acc_meta d' = IxDb.cf_acc_meta d ->
  IxDb.cf_acc_to_tx d' = IxDb.cf_acc_to_tx d -> indexed bs d -> indexed bs d'.
Proof. intros Hb Ht Hh Hm Ha []. split; by rewrite ?Hb, ?Ht, ?Hh, ?Hm, ?Ha. Qed.

Lemma lookup_snoc_or {A} (l : list A) x i y :
  (l ++ [x]) !! i = Some y <-> l !! i = Some y \/ (i = length l /\ y = x).
Proof.
  rewrite lookup_app_Some. split.
  - intros [?|[Hi Hy]]; [by left|]. apply list_lookup_singleton_Some in Hy as [Hz ->]. right. split; [lia|done].
  - intros [?|[-> ->]]; [by left|]. right. by rewrite Nat.sub_diag.
Qed.

Lemma write_block_indexed bs d b hdr :
  indexed bs d -> header_block_id (header b) = Z.of_nat (length bs) + 1 -> indexed (bs ++ [b]) (IxDb.write_block b hdr d).
Proof.
  intros [Hbl Hts Htc Hhs Hhc Hc Hh] Hid.
  assert (Hout : forall id (P : Block -> Prop), (exists i x, id = Z.of_nat i + 1 /\ bs !! i = Some x /\ P x) ->
    exists i x, id = Z.of_nat i + 1 /\ (bs ++ [b]) !! i = Some x /\ P x).
  { intros id P (i & x & -> & Hx & HP). exists i, x. split_and!; [done| |done]. apply lookup_snoc_or. by left. }
  assert (Hnew : forall P : Block -> Prop, P b -> exists i x, header_block_id (header b) = Z.of_nat i + 1 /\ (bs ++ [b]) !! i = Some x /\ P x).
  { intros P HP. exists (length bs), b. split_and!; [done| |done]. apply lookup_snoc_or. by right. }
  pose proof (fun id => put_all_lookup (body b) (IxDb.cf_acc_meta d) (IxDb.cf_acc_to_tx d) id) as Hall. split.
  - by apply holds_chain_snoc.
  - intros h id. cbn [IxDb.write_block IxDb.cf_tx_to_id]. rewrite foldl_insert_tx.
    case_decide as Hin; [intros [= <-]; by apply Hnew|]. intros Hl. apply Hout. by apply Hts.
  - intros x tx Hx Htx. cbn [IxDb.write_block IxDb.cf_tx_to_id]. rewrite foldl_insert_tx.
    case_decide as Hin; [done|]. apply elem_of_app in Hx as [Hx| ->%list_elem_of_singleton]; [by eapply Htc|].
    destruct Hin. by apply list_elem_of_fmap_2.
  - intros h id. cbn [IxDb.write_block IxDb.cf_hash_to_id]. rewrite lookup_insert_Some.
    intros [[<- <-]|[_ Hl]]; [by apply Hnew|]. apply Hout. by apply Hhs.
  - intros x Hx. cbn [IxDb.write_block IxDb.cf_hash_to_id]. apply elem_of_app in Hx as [Hx| ->%list_elem_of_singleton].
    + destruct (decide (header_hash (header b) = header_hash (header x))) as [->|Hne].
      * rewrite lookup_insert_eq. done.
      * rewrite lookup_insert_ne by done. by apply Hhc.
    + by rewrite lookup_insert_eq.
  - intros id. cbn [IxDb.write_block IxDb.cf_acc_meta]. rewrite (proj1 (Hall id 0)), Hc, history_snoc, length_app. lia.
  - intros id n. cbn [IxDb.write_block IxDb.cf_acc_to_tx]. rewrite (proj2 (Hall id (Z.of_nat n))), Hc, Hh, history_snoc, fmap_app.
    case_decide as Hin.
    + rewrite lookup_app_r by (rewrite length_fmap; lia). rewrite length_fmap. f_equal. lia.
    + destruct (decide (n < length (history id bs))%nat) as [Hlt|Hge].
      * by rewrite lookup_app_l by (rewrite length_fmap; lia).
      * rewrite lookup_app_r by (rewrite length_fmap; lia). rewrite !lookup_ge_None_2; [done| |]; rewrite !length_fmap; lia.
Qed.

(** The last and the breakpoints are not in the tables. *)
Lemma put_next_breakpoint_indexed bs d d' : IxDb.put_next_breakpoint d = Ok d' -> indexed bs d -> indexed bs d'.
Proof.
  unfold IxDb.put_next_breakpoint. intros (k & _ & (n & _ & Hd)%bind_ok)%bind_ok.
  case_decide; [|done]. apply bind_ok in Hd as (st & _ & [= <-]). by apply indexed_ext.
Qed.
Lemma put_block_indexed bs d b hdr :
  indexed bs d -> header_block_id (header b) = Z.of_nat (length bs) + 1 -> indexed (bs ++ [b]) (IxDb.put_block b hdr d).1.
Proof.
  intros Hd Hid. pose proof (write_block_indexed _ _ _ hdr Hd Hid) as Hw. unfold IxDb.put_block. case_decide; [|done].
  destruct (IxDb.put_next_breakpoint _) eqn:Hn; [by eapply put_next_breakpoint_indexed|done..].
Qed.
Lemma open_or_create_indexed bs d initial : indexed bs d -> indexed bs (IxDb.open_or_create d initial).
Proof. by apply indexed_ext. Qed.

(** ** Answers *)

(** No two transactions of the chain have the same hash. *)
Definition hashes_identify (bs : list Block) : Prop :=
  forall tx tx', tx ∈ chain_txs bs -> tx' ∈ chain_txs bs -> tx_hash tx = tx_hash tx' -> tx = tx'.

(** Distinct hashes are enough. *)
Lemma distinct_hashes_identify bs : NoDup (tx_hash <$> chain_txs bs) -> hashes_identify bs.
Proof.
  intros Hnd tx tx' (i & Hi)%list_elem_of_lookup (j & Hj)%list_elem_of_lookup Heq.
  assert (i = j) as ->.
  { eapply NoDup_lookup; [exact Hnd| |]; rewrite list_lookup_fmap; [by rewrite Hi|by rewrite Hj, Heq]. }
  rewrite Hi in Hj. by injection Hj.
Qed.
Lemma chain_txs_elem bs tx : tx ∈ chain_txs bs <-> exists b, b ∈ bs /\ tx ∈ body b.
Proof.
  unfold chain_txs. rewrite list_elem_of_In, in_concat. split.
  - intros (l & Hl & Htx). apply list_elem_of_In, list_elem_of_fmap in Hl as (b & -> & Hb). exists b.
    split; [done|]. by apply list_elem_of_In.
  - intros (b & Hb & Htx). exists (body b). rewrite <- !list_elem_of_In. split; [by apply list_elem_of_fmap_2|done].
Qed.
Lemma find_hash_some txs h : h ∈ tx_hash <$> txs -> exists tx,
  List.find (fun t => bool_decide (tx_hash t = h)) txs = Some tx /\ tx ∈ txs /\ tx_hash tx = h.
Proof.
  intros (tx & -> & Htx)%list_elem_of_fmap. destruct (List.find _ txs) as [t|] eqn:Hf.
  - apply find_some in Hf as [Ht%list_elem_of_In Hh%bool_decide_eq_true]. by exists t.
  - apply find_none with (x := tx) in Hf; [|by apply list_elem_of_In]. by apply bool_decide_eq_false in Hf.
Qed.
Lemma find_hash txs tx :
  tx ∈ txs -> (forall tx', tx' ∈ txs -> tx_hash tx' = tx_hash tx -> tx' = tx) ->
  List.find (fun t => bool_decide (tx_hash t = tx_hash tx)) txs = Some tx.
Proof.
  intros Hin Hid. destruct (find_hash_some txs (tx_hash tx)) as (t & Hf & Ht & Hh); [by apply list_elem_of_fmap_2|].
  rewrite Hf. f_equal. by apply Hid.
Qed.

(** Where a transaction of the chain is found. *)
Lemma tx_located bs d tx :
  indexed bs d -> hashes_identify bs -> tx ∈ chain_txs bs ->
  exists id b, IxDb.cf_tx_to_id d !! tx_hash tx = Some id /\ IxDb.get_block d id = Some b /\ b ∈ bs /\
    List.find (fun t => bool_decide (tx_hash t = tx_hash tx)) (body b) = Some tx.
Proof.
  intros Hix Hinj Htx. destruct (proj1 (chain_txs_elem _ _) Htx) as (b0 & Hb0 & Htx0).
  destruct (ix_tx_complete _ _ Hix _ _ Hb0 Htx0) as [id Hid].
  destruct (ix_tx_sound _ _ Hix _ _ Hid) as (i & b & -> & Hb & (t & Ht & Htb)%list_elem_of_fmap).
  pose proof (list_elem_of_lookup_2 _ _ _ Hb) as Hbs.
  assert (Heq : forall t', t' ∈ body b -> tx_hash t' = tx_hash tx -> t' = tx).
  { intros t' Ht' Hh. apply Hinj; [|done|done]. apply chain_txs_elem. by exists b. }
  assert (t = tx) as -> by by apply Heq.
  exists (Z.of_nat i + 1), b. split_and!; [done| |done|by apply find_hash].
  unfold IxDb.get_block. by rewrite (ix_blocks _ _ Hix).
Qed.

Lemma acc_hashes_page bs d id offset n :
  indexed bs d -> IxDb.acc_hashes d id (Z.of_nat offset) n = take n (drop offset (tx_hash <$> history id bs)).
Proof.
  intros Hix. revert offset. induction n as [|n IH]; intros offset; [done|]. cbn [IxDb.acc_hashes].
  rewrite (ix_history _ _ Hix). destruct ((tx_hash <$> history id bs) !! offset) as [h|] eqn:Hh.
  - rewrite (drop_S _ _ _ Hh). cbn [take]. f_equal.
    replace (Z.of_nat offset + 1) with (Z.of_nat (S offset)) by lia. apply IH.
  - by rewrite drop_ge by by apply lookup_ge_None_1.
Qed.

Lemma fold_append {E A B} (f : A -> outcome E B) l k acc :
  Forall2 (fun x y => f x = Ok y) l k -> fold_o (fun ys x => y ← f x; Ok (ys ++ [y])) acc l = Ok (acc ++ k).
Proof.
  intros Hf. revert acc. induction Hf as [|x y l k Hxy _ IH]; intros acc; cbn [fold_o]; [by rewrite app_nil_r|].
  rewrite Hxy. cbn [mbind outcome_bind]. rewrite IH. by rewrite <- app_assoc.
Qed.

(** The lookups of a list of transactions of the chain. *)
Lemma txs_located bs d txs :
  indexed bs d -> hashes_identify bs -> (forall tx, tx ∈ txs -> tx ∈ chain_txs bs) ->
  exists ids blocks, Forall2 (fun h id => IxDb.cf_tx_to_id d !! h = Some id) (tx_hash <$> txs) ids /\
    IxDb.get_block_batch_seq d ids = blocks /\
    Forall2 (fun (p : Block * HashType) tx => List.find (fun t => bool_decide (tx_hash t = p.2)) (body p.1) = Some tx)
      (zip blocks (tx_hash <$> txs)) txs.
Proof.
  intros Hix Hinj. induction txs as [|tx txs IH]; intros Hin; [exists [], []; split_and!; [constructor|done|constructor]|].
  destruct IH as (ids & blocks & Hids & Hblocks & Hfound). { intros t Ht. apply Hin. by right. }
  destruct (tx_located bs d tx Hix Hinj) as (id & b & Hid & Hb & _ & Hf). { apply Hin. by left. }
  exists (id :: ids), (b :: blocks). cbn [fmap list_fmap IxDb.get_block_batch_seq]. rewrite Hb, Hblocks.
  split_and!; [by constructor|done|]. by constructor.
Qed.

Lemma history_page bs d id (offset limit : nat) :
  indexed bs d -> hashes_identify bs -> Z.of_nat offset + Z.of_nat limit < 2 ^ 64 ->
  IxDb.get_acc_transactions d id (Z.of_nat offset) (Z.of_nat limit) = Ok (take limit (drop offset (history id bs))).
Proof.
  intros Hix Hinj Hb. unfold IxDb.get_acc_transactions, IxDb.get_acc_transaction_hashes, checked_add.
  rewrite decide_True by lia. cbn [expect mbind outcome_bind].
  replace (Z.to_nat (Z.of_nat offset + Z.of_nat limit - Z.of_nat offset)) with limit by lia.
  rewrite (acc_hashes_page bs) by done. rewrite <- fmap_drop, <- fmap_take.
  destruct (txs_located bs d (take limit (drop offset (history id bs))) Hix Hinj) as (ids & blocks & Hids & Hblocks & Hf).
  { intros tx Htx%elem_of_take. destruct Htx as (i & Htx & _). rewrite lookup_drop in Htx.
    apply list_elem_of_lookup_2 in Htx. unfold history, touching in Htx. by apply list_elem_of_filter in Htx as [_ ?]. }
  unfold IxDb.get_block_ids_by_tx_vec. rewrite (fold_append _ _ ids).
  2:{ eapply Forall2_impl; [exact Hids|]. intros h i Hi. cbn. by rewrite Hi. }
  cbn [mbind outcome_bind app]. rewrite Hblocks. rewrite (fold_append _ _ (take limit (drop offset (history id bs)))).
  2:{ eapply Forall2_impl; [exact Hf|]. intros q tx Hq. cbn. by rewrite Hq. }
  done.
Qed.

(** Batches of blocks, downwards. *)
Lemma block_batch_down bs d (k limit : nat) :
  indexed bs d -> (k <= length bs)%nat ->
  IxDb.get_block_batch_seq d (IxDb.ids_down (Z.of_nat k) limit) = take limit (reverse (take k bs)).
Proof.
  intros Hix. revert k. induction limit as [|limit IH]; intros k Hk; [done|]. cbn [IxDb.ids_down].
  destruct k as [|k]; [done|]. rewrite decide_False by lia. cbn [IxDb.get_block_batch_seq]. unfold IxDb.get_block.
  destruct (lookup_lt_is_Some_2 bs k ltac:(lia)) as [b Hb].
  replace (Z.of_nat (S k)) with (Z.of_nat k + 1) by lia. rewrite (ix_blocks _ _ Hix), Hb.
  replace (Z.of_nat k + 1 - 1) with (Z.of_nat k) by lia. rewrite IH by lia.
  by rewrite (take_S_r _ _ _ Hb), reverse_snoc.
Qed.
End Lookups.
