(* ===== verification/ChainTheorems.v ===== *)
(** What the sequencer and the indexer guarantee: the chain they store, the
    contents of blocks, the agreement of their states, and the progress of the
    mempool. *)

From S2P Require Import Prelude Bytes Crypto Account Ids ProgramCore Borsh MerkleTree Host State Transactions StateDiffs NativePrograms Chain SequencerStore Sequencer IndexerStore SequencerInvariant IndexerInvariant.

Open Scope Z_scope.

Section Chain.
Context `{Validation, !Sha256Laws, TransactionEncodings, BlockEncodings, Serde Faucet.Instruction}.

(** ** Lemmas *)
Lemma find_tx_ok (txs : list NSSATransaction) (h : HashType) :
  h ∈ tx_hash <$> txs ->
  exists tx, List.find (fun tx => bool_decide (tx_hash tx = h)) txs = Some tx /\ tx_hash tx = h /\ tx ∈ txs.
Proof.
  intros (tx0 & -> & Hin)%list_elem_of_fmap.
  destruct (List.find (fun tx => bool_decide (tx_hash tx = tx_hash tx0)) txs) as [tx|] eqn:Hf.
  - exists tx. apply List.find_some in Hf as [Htx Heq%bool_decide_eq_true_1].
    split; [done|]. split; [done|]. by apply list_elem_of_In.
  - apply list_elem_of_In in Hin. apply (List.find_none _ _ Hf) in Hin.
    by apply bool_decide_eq_false_1 in Hin.
Qed.

(** The transaction lookup of a store that satisfies the invariant. *)
Lemma get_transaction_ok initial bs s hash :
  seq_inv initial bs s ->
  match get_transaction_by_hash (store s) hash with
  | Ok (Some tx) => tx_hash tx = hash /\ exists b, b ∈ bs /\ tx ∈ body b
  | Ok None => forall b, b ∈ bs -> hash ∉ tx_hash <$> body b
  | _ => False
  end.
Proof.
  intros ((Hm & _) & [Hsound Hcomplete] & _). unfold get_transaction_by_hash.
  destruct (tx_hash_to_block_map (store s) !! hash) as [id|] eqn:Hmap.
  - destruct (Hsound _ _ Hmap) as (i & b & -> & Hb & Hh).
    destruct (chain_lookup _ _ _ _ Hm Hb) as (b' & Hb' & _ & Hbody).
    unfold get_block_at_id, SeqDb.get_block. rewrite Hb'. cbn [expect mbind outcome_bind].
    rewrite <- Hbody in Hh. destruct (find_tx_ok _ _ Hh) as (tx & Hf & Heq & Hin). rewrite Hf.
    split; [done|]. exists b. split; [by eapply list_elem_of_lookup_2|by rewrite <- Hbody].
  - intros b Hb (tx & -> & Htx)%list_elem_of_fmap. destruct (Hcomplete b tx Hb Htx). congruence.
Qed.

Lemma meta_hash_length initial bs s meta :
  seq_inv initial bs s -> SeqDb.latest_block_meta_cell (dbio (store s)) = Some meta ->
  length (meta_hash meta) = 32%nat.
Proof.
  intros ((_ & Hl & _ & _ & _ & _ & _ & meta' & b & Hmeta & _ & Hlast & Hhash) & _) Hm.
  rewrite Hm in Hmeta. injection Hmeta as <-. rewrite Hhash.
  apply last_Some in Hlast as (l & ->). destruct (Hl (length l) b) as (_ & -> & _).
  { by rewrite lookup_app_r, Nat.sub_diag by lia. }
  apply length_hash_bytes.
Qed.

Lemma replays_set_status st blocks :
  fold_o replay_ok st (SeqDb.set_status Finalized <$> blocks) = fold_o replay_ok st blocks.
Proof.
  revert st. induction blocks as [|b blocks IH]; intros st; [done|]. cbn [fmap list_fmap fold_o].
  rewrite replay_ok_set_status. destruct (replay_ok st b); [apply IH|done..].
Qed.

Lemma closest_below (n l : nat) :
  (n <= l)%nat -> IxDb.closest_breakpoint_id (Z.of_nat n) <= Z.max 0 (Z.of_nat l / 100 - 0).
Proof.
  intros Hn. unfold IxDb.closest_breakpoint_id, BREAKPOINT_INTERVAL.
  etrans; [|apply Z.le_max_r]. rewrite Z.sub_0_r. apply Z.div_le_mono; lia.
Qed.

(** ** Lemmas: progress of the mempool *)

(** Producing blocks at the given times. *)
Fixpoint produce_blocks (l : list (Timestamp * (HashType -> Signature))) (s : SequencerCore) :
    outcome SequencerError SequencerCore :=
  match l with
  | [] => Ok s
  | (now, sign) :: l => '(s, _) ← produce_new_block s now sign; produce_blocks l s
  end.
(** The largest encoding of a transaction that leaves room for the rest of a
    block made at time [now]. *)
Definition room (cfg : SequencerConfig) (now : Timestamp) : Z :=
  max_block_size cfg - 52 - encoded_length (Public (clock_invocation now)).

Lemma produce_ok s now sign s' h :
  produce_new_block s now sign = Ok (s', h) ->
  exists s1 b, build_block_from_mempool s now sign = Ok (s1, b) /\
    mempool s' = mempool s1 /\ sequencer_config s' = sequencer_config s.
Proof.
  intros Hp. unfold produce_new_block in Hp. apply bind_ok in Hp as ([s1 b] & Hb & Hp). cbv beta iota in Hp.
  apply bind_ok in Hp as (st & _ & Heq). injection Heq as <- _. exists s1, b.
  split; [done|]. split; [done|]. by apply build_block_ok in Hb as (? & ? & ? & ? & ? & ? & ? & ? & ? & ? & ? & ? & ? & ? & ?).
Qed.
Lemma produce_blocks_reachable initial l s s' :
  reachable initial s -> produce_blocks l s = Ok s' ->
  reachable initial s' /\ sequencer_config s' = sequencer_config s.
Proof.
  revert s. induction l as [|[now sign] l IH]; intros s Hr Hp; [by injection Hp as <-|].
  cbn [produce_blocks] in Hp. apply bind_ok in Hp as ([s1 h] & Hone & Hp). cbv beta iota in Hp.
  assert (Hr1 : reachable initial s1).
  { destruct Hr as (cfg & sg & s0 & H0s & Hs). exists cfg, sg, s0. split; [done|].
    eapply rtc_r; [exact Hs|]. by eapply step_produce. }
  destruct (IH s1 Hr1 Hp) as [? Hc]. split; [done|]. rewrite Hc. by apply produce_ok in Hone as (? & ? & ? & ? & ?).
Qed.

Section Sizes.
Context `{!BlockEncodingLaws}.

Lemma block_size_room cfg height prev now tx :
  length prev = 32%nat ->
  block_size height prev now [tx; Public (clock_invocation now)] > max_block_size cfg <->
  encoded_length tx > room cfg now.
Proof.
  intros Hp. unfold block_size, room. rewrite block_data_length by done.
  cbn [hd_transactions fmap list_fmap sum_Z foldr]. lia.
Qed.

(** A block takes a transaction that fits out of the mempool, and leaves the
    mempool alone when the first one does not fit. *)
Lemma build_first initial s now sign s' b tx rest :
  reachable initial s -> build_block_from_mempool s now sign = Ok (s', b) ->
  mempool_items (mempool s) = tx :: rest ->
  (encoded_length tx <= room (sequencer_config s) now -> exists popped, rest = popped ++ mempool_items (mempool s')) /\
  (encoded_length tx > room (sequencer_config s) now ->
     mempool_items (mempool s') = mempool_items (mempool s) /\ body b = [Public (clock_invocation now)]).
Proof.
  intros (bs & Hinv)%reachable_inv Hb Hitems. split.
  - intros Hfit.
    apply build_block_ok in Hb as (meta & popped & taken & st & _ & Hmeta & Hsplit & Hproc & _ & Hstop & _).
    pose proof (meta_hash_length _ _ _ _ Hinv Hmeta) as Hlen. rewrite Hitems in Hsplit.
    destruct popped as [|tx' popped]; [|injection Hsplit as _ ->; by exists popped].
    apply processed_sublist, sublist_nil_r in Hproc. subst taken.
    destruct Hstop as [Hnil|[[Hne _]|(tx' & rest' & Heq & Hsize)]]; [|done|].
    + cbn in Hnil, Hsplit. congruence.
    + cbn [pr_mempool valid_transactions app] in Heq, Hsize, Hsplit. rewrite Heq in Hsplit.
      injection Hsplit as -> _. apply block_size_room in Hsize; [lia|done].
  - intros Hbig. pose proof Hb as Hb'. apply build_block_ok in Hb' as (meta & _ & _ & _ & _ & Hmeta & _).
    eapply build_block_blocked; [exact Hmeta|exact Hitems| |exact Hb].
    apply block_size_room; [by eapply meta_hash_length|exact Hbig].
Qed.
End Sizes.

(** ** Properties *)

(** C18. The chain of a reachable sequencer, through blocks, finalizations and
    restarts: the database holds exactly the blocks 1 to the chain height, each
    with the hash of its contents, linked to the one before and closed by its clock
    transaction; replaying them from the initial state gives the current state,
    which is the stored one; looking up a transaction never panics and finds
    exactly the transactions of the chain. *)
Theorem sequencer_chain_invariant initial s :
  reachable initial s ->
  exists bs, chain_height s = Z.of_nat (length bs) /\
    holds_chain (stored (SeqDb.cf_block (dbio (store s)))) bs /\ linked bs /\
    fold_o replay_ok initial bs = Ok (state s) /\ SeqDb.get_nssa_state (dbio (store s)) = Ok (state s) /\
    forall hash, match get_transaction_by_hash (store s) hash with
                 | Ok (Some tx) => tx_hash tx = hash /\ exists b, b ∈ bs /\ tx ∈ body b
                 | Ok None => forall b, b ∈ bs -> hash ∉ tx_hash <$> body b
                 | _ => False
                 end.
Proof.
  intros (bs & Hinv)%reachable_inv. exists bs.
  pose proof Hinv as ((Hm & Hl & Hr & _ & _ & _ & Hst & _) & _ & _ & Hh). split_and!; try done.
  - unfold SeqDb.get_nssa_state, SeqDb.get_cell. by rewrite Hst.
  - intros hash. by eapply get_transaction_ok.
Qed.

(** C19. The contents of a block: it has the next id and the hash of the latest
    block; its transactions are the ones of the mempool, in order, that validate
    on the state they meet, followed by the clock; what was popped and not
    included failed validation; a block with user transactions respects both
    limits; the loop stops only on an empty mempool, on a full block or before a
    transaction that does not fit; and the block replays to the new state. *)
Theorem block_contents s now sign s' b :
  1 <= chain_height s -> build_block_from_mempool s now sign = Ok (s', b) ->
  exists meta popped taken st,
    let height := chain_height s + 1 in
    let p := mk_Progress st (mempool s') taken in
    SeqDb.latest_block_meta_cell (dbio (store s)) = Some meta /\
    header_block_id (header b) = height /\ prev_block_hash (header b) = meta_hash meta /\
    header_timestamp (header b) = now /\ header_hash (header b) = block_hash (hashable_of b) /\
    body b = taken ++ [Public (clock_invocation now)] /\
    mempool_items (mempool s) = popped ++ mempool_items (mempool s') /\
    processed height now (state s) popped taken st /\
    (taken = [] \/ fits (sequencer_config s) height (meta_hash meta) now p) /\
    stopped (sequencer_config s) height (meta_hash meta) now p /\
    chain_height s' = height /\ replay_block (state s) b = (state s', Ok ()).
Proof.
  intros Hh Hb. pose proof (built_block_replays _ _ _ _ _ Hh Hb) as Hrep.
  apply build_block_ok in Hb as (meta & popped & taken & st & _ & Hmeta & Hitems & Hproc & Hfits & Hstop & _ & -> &
    _ & _ & Hheight).
  exists meta, popped, taken, st. by split_and!.
Qed.

(** The indexer follows the sequencer: an indexer that starts from the same
    initial state and an empty database accepts every block of a reachable
    sequencer, ends in its state, and gives for every height the state after that
    many blocks. *)
Lemma indexer_follows_sequencer initial s blocks hdr :
  reachable initial s ->
  (forall i : nat, get_block_at_id (store s) (Z.of_nat i + 1) = blocks !! i) ->
  exists ix0 ix, ix_open_db IxDb.empty initial = Ok ix0 /\ ix_ingest blocks hdr ix0 = (ix, Ok ()) /\
    current_state ix = state s /\
    forall n : nat, (n <= length blocks)%nat ->
      exists st, get_state_at_block ix (Z.of_nat n) = Ok st /\ state_after initial blocks n = Ok st.
Proof.
  intros (bs & (Hm & Hl & Hr & Hlen & _) & _)%reachable_inv Hblocks.
  assert (Hbs : bs = SeqDb.set_status Finalized <$> blocks).
  { apply list_eq. intros i. rewrite list_lookup_fmap, <- Hblocks, <- Hm.
    unfold stored. by rewrite lookup_fmap. }
  destruct (ix_open_empty initial) as (ix0 & Hopen & Hinv0).
  pose proof Hinv0 as (_ & Hcur & _). injection Hcur as Hcur.
  assert (Hlb : length bs = length blocks) by (by rewrite Hbs, length_fmap).
  destruct (ix_ingest_inv initial 0 0 [] ix0 blocks hdr (state s) Hinv0) as (ix & Hix & Hst & (Hdc & _)).
  - intros i b Hb. destruct (Hl i (SeqDb.set_status Finalized b)) as [Hid _].
    + by rewrite Hbs, list_lookup_fmap, Hb.
    + cbn [length]. rewrite Z.add_0_l. exact Hid.
  - cbn [length]. lia.
  - rewrite <- Hcur, <- replays_set_status, <- Hbs. exact Hr.
  - exists ix0, ix. split_and!; try done. intros n Hn. rewrite app_nil_l in Hdc.
    destruct (calculate_state_ok _ _ _ _ _ n Hdc) as (st & Hc & Ha).
    + by rewrite length_fmap.
    + unfold written. rewrite length_fmap. apply closest_below. lia.
    + exists st. split; [exact Hc|]. unfold state_after in *.
      rewrite <- Ha, <- fmap_take. symmetry. apply replays_set_status.
Qed.

(** A restart loses states: opening the database of an indexer resets the id of
    the last breakpoint to 0, so that the breakpoints written afterwards overwrite
    the old ones.  An indexer that is restarted after 100 blocks or more and goes
    on past the next hundred accepts the blocks, but it can no longer compute the
    state at the latest ones, and cannot be opened again. *)
Theorem reopened_indexer_loses_states initial old new hdr st ix0 :
  (forall i b, (old ++ new) !! i = Some b -> header_block_id (header b) = Z.of_nat i + 1) ->
  Z.of_nat (length (old ++ new)) < 2 ^ 64 -> fold_o replay_ok initial (old ++ new) = Ok st ->
  let B := Z.of_nat (length old) / 100 in
  1 <= B -> 100 * (B + 1) < Z.of_nat (length (old ++ new)) -> Z.of_nat (length (old ++ new)) / 100 <= 2 * B ->
  ix_open_db IxDb.empty initial = Ok ix0 ->
  exists ix ix1 ix2, ix_ingest old hdr ix0 = (ix, Ok ()) /\ ix_open_db (ix_dbio ix) initial = Ok ix1 /\
    ix_ingest new hdr ix1 = (ix2, Ok ()) /\
    (forall n, 100 * (B + 1) < n <= Z.of_nat (length (old ++ new)) ->
       get_state_at_block ix2 n = Err (DbInteractionError "breakpoint not found")) /\
    ix_open_db (ix_dbio ix2) initial = Err (DbInteractionError "breakpoint not found").
Proof.
  intros Hids Hlen Hrep B HB Hpast Hbelow Hopen.
  destruct (ix_open_empty initial) as (ix0' & Hopen' & Hinv0). rewrite Hopen in Hopen'. injection Hopen' as <-.
  pose proof Hinv0 as (_ & Hcur0 & _). injection Hcur0 as Hcur0.
  rewrite fold_o_app in Hrep. apply bind_ok in Hrep as (st1 & Hold & Hnew). rewrite length_app in *.
  destruct (ix_ingest_inv initial 0 0 [] ix0 old hdr st1 Hinv0) as (ix & Hix & Hst1 & Hinv1).
  { intros i b Hb. rewrite (Hids i b) by (by apply lookup_app_l_Some). cbn [length]. lia. }
  { cbn [length]. lia. }
  { by rewrite <- Hcur0. }
  rewrite app_nil_l in Hinv1. set (bs := SeqDb.set_status Finalized <$> old) in *.
  assert (Hbs : length bs = length old) by apply length_fmap.
  assert (Hw : Z.max 0 (written 0 bs) = B) by (unfold written; rewrite Hbs; fold B; lia).
  destruct (ix_reopen_inv initial 0 0 bs ix Hinv1) as (ix1 & Hre & Hst2 & Hinv2).
  { rewrite Hbs, Hw. etrans; [apply (closest_below (length old) (length old)); lia|]. fold B. lia. }
  rewrite Hw, Hbs in Hinv2. fold B in Hinv2.
  destruct (ix_ingest_inv initial B B bs ix1 new hdr st Hinv2) as (ix2 & Hix2 & _ & (Hdc & _)).
  { intros i b Hb. rewrite (Hids (length old + i)%nat b), Hbs; [lia|].
    rewrite lookup_app_r by lia. by replace (length old + i - length old)%nat with i by lia. }
  { rewrite Hbs. lia. }
  { by rewrite Hst2, Hst1. }
  set (all := bs ++ _) in Hdc. assert (Hall : Z.of_nat (length all) = Z.of_nat (length old + length new)).
  { unfold all. by rewrite length_app, length_fmap, Hbs. }
  assert (HB2 : Z.max B (written B all) = B) by (unfold written; rewrite Hall; lia). rewrite HB2 in Hdc.
  assert (Hmiss : forall n : nat, 100 * (B + 1) < Z.of_nat n -> B < IxDb.closest_breakpoint_id (Z.of_nat n)).
  { intros n Hn. unfold IxDb.closest_breakpoint_id, BREAKPOINT_INTERVAL.
    assert (B + 1 <= Z.max 0 (Z.of_nat n - 1) / 100); [apply Z.div_le_lower_bound; lia|lia]. }
  exists ix, ix1, ix2. split_and!; try done.
  - intros n [Hn1 Hn2]. replace n with (Z.of_nat (Z.to_nat n)) by lia.
    eapply calculate_state_missing; [exact Hdc|lia|apply Hmiss; lia].
  - apply open_or_create_chain in Hdc. unfold ix_open_db, IxDb.final_state. rewrite (dc_last _ _ _ _ _ Hdc).
    erewrite calculate_state_missing; [done|exact Hdc|lia|apply Hmiss; lia].
Qed.

Section Progress.
Context `{!BlockEncodingLaws}.

Definition fits (s : SequencerCore) : Prop :=
  forall now tx, tx ∈ mempool_items (mempool s) -> encoded_length tx <= room (sequencer_config s) now.

(** One block takes transactions off the front of the mempool, at least one of them
    when they fit. *)
Lemma produce_takes_front initial s now sign s1 h :
  reachable initial s -> produce_new_block s now sign = Ok (s1, h) ->
  reachable initial s1 /\ sequencer_config s1 = sequencer_config s /\
  exists popped : list NSSATransaction, mempool_items (mempool s) = popped ++ mempool_items (mempool s1) /\
    (fits s -> mempool_items (mempool s) <> [] -> (1 <= length popped)%nat).
Proof.
  intros Hr Hone. destruct (produce_ok _ _ _ _ _ Hone) as (s2 & b & Hb & Hm & Hcfg).
  split; [by apply (produce_blocks_reachable initial [(now, sign)] s s1 Hr); cbn [produce_blocks]; rewrite Hone|].
  split; [done|]. rewrite Hm. destruct (mempool_items (mempool s)) as [|tx rest] eqn:Hitems.
  - apply build_block_ok in Hb as (meta & popped & taken & st & _ & _ & Hsplit & _).
    rewrite Hitems in Hsplit. by exists popped.
  - destruct (build_first _ _ _ _ _ _ _ _ Hr Hb Hitems) as [Hpop _].
    destruct (decide (encoded_length tx <= room (sequencer_config s) now)) as [Hfit|Hbig].
    + destruct (Hpop Hfit) as (popped & ->). exists (tx :: popped). split; [done|]. cbn. lia.
    + apply build_block_ok in Hb as (meta & popped & taken & st & _ & _ & Hsplit & _).
      rewrite Hitems in Hsplit. exists popped. split; [done|]. intros Hfits. destruct Hbig. apply Hfits.
      rewrite Hitems. left.
Qed.

(** C23. The mempool drains in order: blocks only take transactions off the front
    of the mempool; when every waiting transaction fits in a block of its own, every
    block takes at least one of those left, so that after as many blocks as there
    were transactions none is left waiting. *)
Theorem mempool_drains initial s l s' :
  reachable initial s -> produce_blocks l s = Ok s' ->
  exists popped, mempool_items (mempool s) = popped ++ mempool_items (mempool s') /\
    (fits s ->
       (Nat.min (length l) (length (mempool_items (mempool s))) <= length popped)%nat /\
       ((length (mempool_items (mempool s)) <= length l)%nat -> mempool_items (mempool s') = [])).
Proof.
  intros Hr Hp. enough (Hsplit : exists popped, mempool_items (mempool s) = popped ++ mempool_items (mempool s') /\
    (fits s -> (Nat.min (length l) (length (mempool_items (mempool s))) <= length popped)%nat)).
  { destruct Hsplit as (popped & Hsplit & Hmin). exists popped. split; [done|]. intros Hfits.
    specialize (Hmin Hfits). split; [done|]. intros Hlen. apply (f_equal length) in Hsplit.
    rewrite length_app in Hsplit. apply nil_length_inv. lia. }
  revert s Hr Hp. induction l as [|[now sign] l IH]; intros s Hr Hp.
  { injection Hp as <-. exists []. split; [done|cbn; lia]. }
  cbn [produce_blocks] in Hp. apply bind_ok in Hp as ([s1 h] & Hone & Hp). cbv beta iota in Hp.
  destruct (produce_takes_front _ _ _ _ _ _ Hr Hone) as (Hr1 & Hcfg & front & Hfront & Hone1).
  destruct (IH s1 Hr1 Hp) as (popped & Hpopped & Hmin). exists (front ++ popped).
  rewrite Hfront, Hpopped, app_assoc. split; [done|]. intros Hfits.
  assert (Hfits1 : fits s1).
  { intros now' tx Htx. rewrite Hcfg. apply Hfits. rewrite Hfront. apply elem_of_app. by right. }
  specialize (Hmin Hfits1). specialize (Hone1 Hfits). rewrite Hfront, Hpopped in Hone1. rewrite Hpopped in Hmin.
  rewrite !length_app in *. cbn [length].
  destruct (front ++ popped ++ mempool_items (mempool s')) eqn:Hall.
  - apply app_nil in Hall as [-> Hall]. apply app_nil in Hall as [-> ->]. cbn. lia.
  - specialize (Hone1 ltac:(done)). lia.
Qed.

(** A stalled mempool: the service accepts transactions of up to 200 bytes
    below the block limit, but a block has a larger overhead.  A correctly signed
    transaction in between is accepted, never fits, is put back in front each time,
    and every later block is empty but for the clock. *)
Theorem oversized_transaction_stalls initial s tx rest :
  reachable initial s -> mempool_items (mempool s) = tx :: rest ->
  transaction_stateless_check tx = Ok tx ->
  encoded_length tx <= max_block_size (sequencer_config s) - BLOCK_HEADER_OVERHEAD ->
  (forall now, encoded_length tx > room (sequencer_config s) now) ->
  (forall m, send_transaction (max_block_size (sequencer_config s)) tx m = Ok (tx_hash tx, mempool_push tx m)) /\
  forall l s', produce_blocks l s = Ok s' ->
    mempool_items (mempool s') = mempool_items (mempool s) /\
    forall now sign s'' b, build_block_from_mempool s' now sign = Ok (s'', b) ->
      body b = [Public (clock_invocation now)].
Proof.
  intros Hr Hitems Hcheck Hacc Hbig. split.
  { intros m. unfold send_transaction. rewrite bool_decide_eq_true_2 by lia. by rewrite Hcheck. }
  intros l. revert s Hr Hitems Hacc Hbig. induction l as [|[now sign] l IH]; intros s Hr Hitems Hacc Hbig s' Hp.
  - injection Hp as <-. split; [done|]. intros now sign s'' b Hb.
    apply (build_first _ _ _ _ _ _ _ _ Hr Hb Hitems). apply Hbig.
  - cbn [produce_blocks] in Hp. apply bind_ok in Hp as ([s1 h] & Hone & Hp). cbv beta iota in Hp.
    destruct (produce_ok _ _ _ _ _ Hone) as (s2 & b & Hb & Hm & Hcfg).
    assert (Hr1 : reachable initial s1).
    { apply (produce_blocks_reachable initial [(now, sign)] s s1 Hr). cbn [produce_blocks].
      by rewrite Hone. }
    destruct (build_first _ _ _ _ _ _ _ _ Hr Hb Hitems) as [_ Hstall].
    destruct (Hstall (Hbig now)) as [Hsame _]. rewrite <- Hsame, <- Hm.
    apply (IH s1 Hr1); [by rewrite Hm, Hsame| | |exact Hp]; by rewrite Hcfg.
Qed.
End Progress.
End Chain.
