(* ===== verification/ChainSamples.v ===== *)
(** A concrete chain: instances of the encodings of transactions and blocks, a
    sequencer that starts from a genesis state and includes a payment, and the
    witnesses of the properties of the chain. *)

From S2P Require Import Prelude Bytes Crypto Account Ids ProgramCore Borsh MerkleTree Host State Encryption CircuitIo Transactions StateDiffs NativePrograms Approval Token TokenFacts Instances StateTheorems PrivacyTheorems Chain SequencerStore Sequencer IndexerStore SequencerInvariant IndexerInvariant ChainTheorems.

Open Scope Z_scope.

(** ** Encodings *)
#[global] Instance sample_sha256_laws : @Sha256Laws sha256_instance := Sha256Facts.sha256_laws.
#[global] Instance sample_faucet_serde : Serde Faucet.Instruction := {|
  serde_to_vec _ := [];
  serde_from_words _ := None;
|}.
#[global] Instance no_image_ids : RiscZeroBinary := fun _ => None.
#[global] Instance sample_validation : Validation := {|
  validation_sha256 := sha256_instance;
  validation_zkvm := interpreter;
  validation_schnorr := sample_schnorr;
  validation_pub_borsh := sample_pub_borsh;
  validation_priv_borsh := sample_priv_borsh;
  validation_receipts := sample_receipts;
  validation_serde := sample_circuit_serde;
  validation_risc0 := no_image_ids;
  validation_programs := sample_builtins;
  validation_clock := timestamp_serde;
|}.

(** The lengths are those of the borsh layout. *)
Definition public_bytes (t : PublicTransaction) : list byte :=
  let m := pub_message t in
  words_bytes (pub_program_id m) ++ zeros 4 ++ concat (value <$> pub_account_ids m) ++
  zeros 4 ++ concat ((fun n => le_bytes 16 n) <$> pub_nonces m) ++
  zeros 4 ++ words_bytes (pub_instruction_data m) ++ zeros (4 + 96 * length (pub_signatures (pub_witness_set t))).
Definition sample_tx_bytes (tx : NSSATransaction) : list byte :=
  match tx with
  | Public t => Byte.x00 :: public_bytes t
  | PrivacyPreserving t => [Byte.x01]
  | ProgramDeployment t => Byte.x02 :: zeros 4 ++ bytecode (dep_message t)
  end.
#[global] Instance sample_encodings : TransactionEncodings := {|
  encoding_public := {| borsh_to_vec := public_bytes; borsh_try_from_slice _ := None |};
  encoding_privacy := {| borsh_to_vec _ := []; borsh_try_from_slice _ := None |};
  encoding_deployment := {| borsh_to_vec t := bytecode (dep_message t); borsh_try_from_slice _ := None |};
|}.
#[global] Instance sample_block_encodings : BlockEncodings := {|
  encoding_tx := {| borsh_to_vec := sample_tx_bytes; borsh_try_from_slice _ := None |};
  encoding_block := {|
    borsh_to_vec b := le_bytes 8 (hd_block_id b) ++ hd_prev_block_hash b ++ le_bytes 8 (hd_timestamp b) ++
      le_bytes 4 (Z.of_nat (length (hd_transactions b))) ++ concat (sample_tx_bytes <$> hd_transactions b);
    borsh_try_from_slice _ := None |};
|}.
Lemma length_concat_tx (l : list NSSATransaction) :
  Z.of_nat (length (concat (sample_tx_bytes <$> l))) = sum_Z (encoded_length <$> l).
Proof.
  induction l as [|tx l IH]; [done|]. cbn [fmap list_fmap concat sum_Z foldr] in *.
  rewrite length_app, Nat2Z.inj_add. unfold sum_Z in IH. by rewrite IH.
Qed.
#[global] Instance sample_block_laws : BlockEncodingLaws.
Proof.
  intros b Hb. change (borsh_to_vec b) with (le_bytes 8 (hd_block_id b) ++ hd_prev_block_hash b ++
    le_bytes 8 (hd_timestamp b) ++ le_bytes 4 (Z.of_nat (length (hd_transactions b))) ++
    concat (sample_tx_bytes <$> hd_transactions b)).
  rewrite !length_app, !length_le_bytes, Hb, !Nat2Z.inj_add, length_concat_tx. lia.
Qed.

(** ** A sequencer *)
Definition sample_initial : V03State :=
  match new_with_genesis_accounts [(alice_id, 100); (bob_id, 5)] [] 0 with
  | Ok st => st
  | _ => sample_state
  end.
Definition sample_config : SequencerConfig := mk_Config 10 1000 10 [].
Definition sample_sign (h : HashType) : Signature := mk_Signature h.

(** Start, accept [tx], and produce a block at time 5. *)
Definition sample_run (tx : NSSATransaction) (produce : bool) : outcome SequencerError SequencerCore :=
  s ← start_from_config sample_config None sample_initial sample_sign;
  '(_, m) ← map_err (fun _ => StateError InvalidPrivateKey) (send_transaction 1000 tx (mempool s));
  m ← expect m "full";
  let s := with_mempool m s in
  if produce then '(s, _) ← produce_new_block s 5 sample_sign; Ok s else Ok s.

Lemma sample_reachable tx produce s : sample_run tx produce = Ok s -> reachable sample_initial s.
Proof.
  unfold sample_run. intros Hr. apply bind_ok in Hr as (s0 & Hs & Hr).
  apply bind_ok in Hr as ([h m] & Hsend & Hr). cbv beta iota in Hr. apply map_err_ok in Hsend.
  apply bind_ok in Hr as (m' & Hm & Hr). apply expect_ok in Hm. subst m. cbv zeta in Hr.
  assert (Hcfg : sequencer_config s0 = sample_config).
  { unfold start_from_config in Hs. apply bind_ok in Hs as ([st0 st] & _ & Hs). cbv beta iota in Hs.
    apply bind_ok in Hs as (meta & _ & Hs). apply bind_ok in Hs as (mp & _ & Hs). by injection Hs as <-. }
  exists sample_config, sample_sign, s0. split; [exact Hs|].
  eapply rtc_l; [by eapply (step_send s0 tx h m'); rewrite Hcfg|].
  destruct produce.
  - apply bind_ok in Hr as ([s1 h1] & Hp & Heq). injection Heq as <-.
    apply rtc_once. by eapply step_produce.
  - injection Hr as <-. constructor.
Qed.

(** The sample transactions. *)
Definition alice_payment : NSSATransaction := Public payment.
Definition long_deployment : NSSATransaction :=
  ProgramDeployment (mk_DeploymentTx (mk_DeploymentMessage (zeros 795))).
Lemma run_payment produce :
  exists s, sample_run alice_payment produce = Ok s /\ length (mempool_items (mempool s)) = (if produce then 0 else 1)%nat /\
    chain_height s = (if produce then 2 else 1).
Proof.
  destruct produce.
  - destruct (run_ok (sample_run alice_payment true) (fun s =>
      bool_decide (length (mempool_items (mempool s)) = 0%nat /\ chain_height s = 2))) as (s & Hs & Hc);
      [vm_compute; reflexivity|].
    apply bool_decide_eq_true_1 in Hc. exists s. exact (conj Hs Hc).
  - destruct (run_ok (sample_run alice_payment false) (fun s =>
      bool_decide (length (mempool_items (mempool s)) = 1%nat /\ chain_height s = 1))) as (s & Hs & Hc);
      [vm_compute; reflexivity|].
    apply bool_decide_eq_true_1 in Hc. exists s. exact (conj Hs Hc).
Qed.

(** ** Witnesses *)
Lemma sequencer_chain_invariant_witness :
  exists s bs, reachable sample_initial s /\ chain_height s = 2 /\ chain_height s = Z.of_nat (length bs) /\
    fold_o replay_ok sample_initial bs = Ok (state s).
Proof.
  destruct (run_payment true) as (s & Hrun & _ & Hh).
  destruct (sequencer_chain_invariant sample_initial s (sample_reachable _ _ _ Hrun)) as (bs & Hlen & _ & _ & Hr & _).
  exists s, bs. exact (conj (sample_reachable _ _ _ Hrun) (conj Hh (conj Hlen Hr))).
Defined.

(** The blocks of a reachable sequencer, as its store returns them. *)
Lemma reachable_blocks s :
  reachable sample_initial s ->
  exists blocks : list Block, forall i : nat, get_block_at_id (store s) (Z.of_nat i + 1) = blocks !! i.
Proof.
  intros (bs & (Hm & _) & _)%reachable_inv.
  assert (Hn : forall n, (n <= length bs)%nat -> exists l : list Block, length l = n /\
    forall i : nat, (i < n)%nat -> SeqDb.cf_block (dbio (store s)) !! (Z.of_nat i + 1) = l !! i).
  { induction n as [|n IH]; intros Hn; [exists []; split; [done|lia]|].
    destruct IH as (l & Hl & Hi); [lia|]. destruct (lookup_lt_is_Some_2 bs n ltac:(lia)) as [b Hb].
    destruct (chain_lookup _ _ _ _ Hm Hb) as (b' & Hb' & _). exists (l ++ [b']).
    split; [rewrite length_app; cbn; lia|]. intros i Hlt. destruct (decide (i = n)) as [->|Hne].
    - by rewrite Hb', lookup_app_r, Hl, Nat.sub_diag by lia.
    - rewrite lookup_app_l by lia. apply Hi. lia. }
  destruct (Hn (length bs) ltac:(lia)) as (l & Hl & Hi). exists l. intros i.
  destruct (decide (i < length bs)%nat) as [Hlt|Hge]; [by apply Hi|].
  rewrite (lookup_ge_None_2 l) by lia. specialize (Hm i). rewrite (lookup_ge_None_2 bs) in Hm by lia.
  unfold stored in Hm. rewrite lookup_fmap in Hm. by apply fmap_None in Hm.
Qed.

Lemma indexer_follows_sequencer_witness :
  exists s blocks ix0 ix, reachable sample_initial s /\ chain_height s = 2 /\
    ix_open_db IxDb.empty sample_initial = Ok ix0 /\ ix_ingest blocks [] ix0 = (ix, Ok ()) /\
    current_state ix = state s.
Proof.
  destruct (run_payment true) as (s & Hrun & _ & Hh).
  destruct (reachable_blocks s (sample_reachable _ _ _ Hrun)) as (blocks & Hblocks).
  destruct (indexer_follows_sequencer sample_initial s blocks [] (sample_reachable _ _ _ Hrun) Hblocks)
    as (ix0 & ix & Hopen & Hix & Hst & _).
  exists s, blocks, ix0, ix. exact (conj (sample_reachable _ _ _ Hrun) (conj Hh (conj Hopen (conj Hix Hst)))).
Defined.

Lemma block_contents_witness :
  exists s s' b, build_block_from_mempool s 5 sample_sign = Ok (s', b) /\ replay_block (state s) b = (state s', Ok ()).
Proof.
  destruct (run_payment false) as (s & Hrun & _ & Hh).
  assert (Hb : exists s' b, build_block_from_mempool s 5 sample_sign = Ok (s', b)).
  { destruct (run_ok (s ← sample_run alice_payment false; build_block_from_mempool s 5 sample_sign) (fun _ => true))
      as ([s' b] & Hb & _); [vm_compute; reflexivity|].
    rewrite Hrun in Hb. exists s', b. exact Hb. }
  destruct Hb as (s' & b & Hb). exists s, s', b. split; [exact Hb|].
  assert (H1 : 1 <= chain_height s) by (rewrite Hh; discriminate).
  destruct (block_contents s 5 sample_sign s' b H1 Hb) as (meta & popped & taken & st & Hrest).
  exact (proj2 (proj2 (proj2 (proj2 (proj2 (proj2 (proj2 (proj2 (proj2 (proj2 (proj2 Hrest))))))))))).
Defined.

(** The configuration does not change on the way. *)
Lemma run_config tx s : sample_run tx false = Ok s ->
  sequencer_config s = sample_config /\ mempool_items (mempool s) = [tx].
Proof.
  unfold sample_run. intros Hr. apply bind_ok in Hr as (s0 & Hs & Hr).
  apply bind_ok in Hr as ([h m] & Hsend & Hr). cbv beta iota in Hr. apply map_err_ok in Hsend.
  apply bind_ok in Hr as (m' & Hm & Hr). apply expect_ok in Hm. subst m. cbv zeta in Hr. injection Hr as <-.
  unfold start_from_config in Hs. apply bind_ok in Hs as ([st0 st] & _ & Hs). cbv beta iota in Hs.
  apply bind_ok in Hs as (meta & _ & Hs). apply bind_ok in Hs as (mp & Hmp & Hs). injection Hs as <-.
  split; [done|]. apply bind_ok in Hmp as (u & _ & Heq). injection Heq as <-.
  unfold send_transaction in Hsend. apply bind_ok in Hsend as (u' & _ & Hsend).
  apply bind_ok in Hsend as (tx' & Hc & Heq). apply stateless_check_ok in Hc as ->.
  injection Heq as _ <-. reflexivity.
Qed.

Lemma clock_encoded_length now : encoded_length (Public (clock_invocation now)) = 149.
Proof. reflexivity. Qed.

Lemma mempool_drains_witness :
  exists s s', mempool_items (mempool s) = [alice_payment] /\
    produce_blocks [(5, sample_sign)] s = Ok s' /\ mempool_items (mempool s') = [].
Proof.
  destruct (run_payment false) as (s & Hrun & Hlen & _). destruct (run_config _ _ Hrun) as [Hcfg Hitems].
  assert (Hp : exists s', produce_blocks [(5, sample_sign)] s = Ok s').
  { destruct (run_ok (s ← sample_run alice_payment false; produce_blocks [(5, sample_sign)] s) (fun _ => true))
      as (s' & Hp & _); [vm_compute; reflexivity|]. rewrite Hrun in Hp. exists s'. exact Hp. }
  destruct Hp as (s' & Hp). exists s, s'. split; [exact Hitems|]. split; [exact Hp|].
  destruct (mempool_drains sample_initial s [(5, sample_sign)] s' (sample_reachable _ _ _ Hrun) Hp)
    as (popped & _ & Hdrain).
  apply Hdrain.
  - intros now tx Htx. rewrite Hitems in Htx. apply list_elem_of_singleton in Htx as ->.
    unfold room. rewrite Hcfg, clock_encoded_length. vm_compute. discriminate.
  - rewrite Hlen. apply le_n.
Defined.

Lemma oversized_transaction_stalls_witness :
  exists s, mempool_items (mempool s) = [long_deployment] /\
    forall l s', produce_blocks l s = Ok s' -> mempool_items (mempool s') = [long_deployment].
Proof.
  destruct (run_ok (sample_run long_deployment false) (fun _ => true)) as (s & Hrun & _); [vm_compute; reflexivity|].
  destruct (run_config _ _ Hrun) as [Hcfg Hitems].
  destruct (oversized_transaction_stalls sample_initial s long_deployment [] (sample_reachable _ _ _ Hrun) Hitems)
    as [_ Hstall].
  - reflexivity.
  - rewrite Hcfg. vm_compute. discriminate.
  - intros now. unfold room. rewrite Hcfg, clock_encoded_length. vm_compute. reflexivity.
  - exists s. split; [exact Hitems|]. intros l s' Hp. rewrite <- Hitems. exact (proj1 (Hstall l s' Hp)).
Defined.

(** A chain of 201 blocks that only hold their clock transaction. *)
Definition clock_block (i : nat) : Block :=
  mk_Block (mk_BlockHeader (Z.of_nat i + 1) [] [] (Z.of_nat i) (mk_Signature []))
    [Public (clock_invocation (Z.of_nat i))] Pending [].
Definition clock_chain (from n : nat) : list Block := clock_block <$> seq from n.
Lemma clock_chain_ids i b :
  (clock_chain 0 100 ++ clock_chain 100 101) !! i = Some b -> header_block_id (header b) = Z.of_nat i + 1.
Proof.
  unfold clock_chain. rewrite <- fmap_app. change (seq 0 100 ++ seq 100 101) with (seq 0 201).
  rewrite list_lookup_fmap. intros (j & Hj & ->)%fmap_Some. apply lookup_seq in Hj as [-> _]. reflexivity.
Qed.

Lemma reopened_indexer_loses_states_witness :
  exists ix, (exists ix1 ix2, ix_ingest (clock_chain 100 101) [] ix1 = (ix2, Ok ()) /\ ix = ix2) /\
    ix_open_db (ix_dbio ix) sample_initial = Err (DbInteractionError "breakpoint not found").
Proof.
  destruct (ix_open_empty sample_initial) as (ix0 & Hopen & _).
  destruct (run_ok (fold_o replay_ok sample_initial (clock_chain 0 100 ++ clock_chain 100 101)) (fun _ => true))
    as (st & Hrun & _); [vm_compute; reflexivity|].
  destruct (reopened_indexer_loses_states sample_initial (clock_chain 0 100) (clock_chain 100 101) [] st ix0
    clock_chain_ids) as (ix & ix1 & ix2 & _ & _ & Hix & _ & Herr).
  - vm_compute. reflexivity.
  - exact Hrun.
  - vm_compute. discriminate.
  - vm_compute. reflexivity.
  - vm_compute. discriminate.
  - exact Hopen.
  - exists ix2. split; [|exact Herr]. exists ix1, ix2. split; [exact Hix|reflexivity].
Defined.
