(* ===== verification/ChainIndex.v ===== *)
(** Positions in a key tree: [key_protocol/src/key_management/key_tree/chain_index.rs].

    A [ChainIndex] is a path of [u32] child numbers.  The file models its text
    form, its arithmetic and the enumeration of all indices of one depth, which
    drives layered key generation and cleanup. *)

From Stdlib Require Import Ascii DecimalString DecimalN.
From stdpp Require Import sorting.
From S2P Require Import Prelude Bytes Account Ids.

Abbreviation ChainIndex := (list Z).
Definition ChainIndex_wf (c : ChainIndex) : Prop := Forall (in_u 32) c.

Module ChainIndex.
(** ** Text form *)
Inductive ChainIndexError :=
  | NoRootFound
  | ParseIntError.

(** [s.split('/')] *)
Fixpoint split_slash (s : string) : list string :=
  match s with
  | EmptyString => [EmptyString]
  | String a s =>
      if Ascii.eqb a "/" then EmptyString :: split_slash s
      else match split_slash s with
           | w :: ws => String a w :: ws
           | [] => [String a EmptyString]
           end
  end.

(** [u32::from_str]: an optional plus sign and at least one decimal digit. *)
Definition parse_u32 (s : string) : option Z :=
  let digits := match s with String "+" s' => s' | _ => s end in
  match digits with
  | EmptyString => None
  | _ =>
      d ← NilEmpty.uint_of_string digits;
      let n := Z.of_N (N.of_uint d) in
      if decide (n < 2 ^ 32) then Some n else None
  end.

Definition print_u32 (n : Z) : string := NilEmpty.string_of_uint (N.to_uint (Z.to_N n)).

(** [FromStr for ChainIndex] *)
Definition from_str (s : string) : outcome ChainIndexError ChainIndex :=
  match s with
  | String "/" EmptyString => Ok []
  | String "/" uprooted =>
      fold_o (fun res split_ch => cci ← ok_or (parse_u32 split_ch) ParseIntError; Ok (res ++ [cci]))
        [] (split_slash uprooted)
  | _ => Err NoRootFound
  end.

(** [Display for ChainIndex] *)
Definition display (c : ChainIndex) : string :=
  "/" +:+ foldr (fun cci s => print_u32 cci +:+ "/" +:+ s) EmptyString (take (length c - 1) c)
      +:+ match last c with Some l => print_u32 l | None => EmptyString end.

(** ** Navigation *)
Definition root : ChainIndex := [].

Definition index (c : ChainIndex) : option Z := last c.

(** Assignment through [chain.last_mut()]. *)
Definition set_last (c : ChainIndex) (v : Z) : ChainIndex := take (length c - 1) c ++ [v].

Definition next_in_line (c : ChainIndex) : option ChainIndex :=
  match last c with
  | Some last_p => set_last c <$> checked_add 32 last_p 1
  | None => Some c
  end.
Definition previous_in_line (c : ChainIndex) : option ChainIndex :=
  match last c with
  | Some last_p => set_last c <$> checked_sub last_p 1
  | None => Some c
  end.
Definition parent (c : ChainIndex) : option ChainIndex :=
  if decide (c = []) then None else Some (take (length c - 1) c).
Definition nth_child (c : ChainIndex) (child_id : Z) : ChainIndex := c ++ [child_id].

(** [depth]; [sum] is a plain addition. *)
Definition depth {E} `{OverflowChecks} (c : ChainIndex) : outcome E Z :=
  fold_o (fun acc cci => n ← expect (checked_add 32 cci 1) "Max cci reached"; plain_add 32 acc n) 0 c.

Definition collapse_back (c : ChainIndex) : option ChainIndex :=
  res ← parent c;
  last_mut ← last res;
  self_last ← last c;
  n ← checked_add 32 self_last 1;
  set_last res <$> checked_add 32 last_mut n.

(** ** Enumeration

    [permutations] and [unique] are methods of the crate [itertools]. *)
Class Itertools := {
  permutations : ChainIndex -> list ChainIndex;
  unique : list ChainIndex -> list ChainIndex;
}.
(** Their documentation: all permutations, [n!] of them; the elements without
    those produced before. *)
Class ItertoolsLaws `{Itertools} := {
  elem_of_permutations c p : p ∈ permutations c <-> p ≡ₚ c;
  length_permutations c : length (permutations c) = fact (length c);
  NoDup_unique l : NoDup (unique l);
  elem_of_unique l c : c ∈ unique l <-> c ∈ l;
}.

Section Enumerate.
Context `{Itertools}.

Definition shuffle_iter (c : ChainIndex) : list ChainIndex := unique (permutations c).

(** The [while let Some(top_id) = stack.pop()] loop; the head of [stack] is its
    top.  [None]: out of fuel. *)
Fixpoint ids_loop (fuel : nat) (stack cumulative_stack : list ChainIndex) : option (list ChainIndex) :=
  match fuel with
  | O => None
  | S fuel =>
      match stack with
      | [] => Some cumulative_stack
      | top_id :: stack =>
          let ids := match collapse_back top_id with Some c => shuffle_iter c | None => [] end in
          ids_loop fuel (reverse ids ++ stack) (cumulative_stack ++ ids)
      end
  end.

(** The number of iterations that an index of length [n] can cause. *)
Fixpoint ids_weight (n : nat) : nat :=
  match n with O => 1 | S m => S (fact m * ids_weight m) end.

Definition cumulative_stack (d : nat) : list ChainIndex :=
  default [] (ids_loop (S (ids_weight d)) [replicate d 0] [replicate d 0]).
Definition chain_ids_at_depth (d : nat) : list ChainIndex := unique (cumulative_stack d).
Definition chain_ids_at_depth_rev (d : nat) : list ChainIndex := unique (reverse (cumulative_stack d)).
End Enumerate.

(** ** Lemmas: text form *)
Fixpoint has_slash (s : string) : bool :=
  match s with EmptyString => false | String a s => Ascii.eqb a "/" || has_slash s end.

Lemma split_no_slash s : has_slash s = false -> split_slash s = [s].
Proof.
  induction s as [|a s IH]; cbn [split_slash has_slash]; [done|]. intros [Ha Hs]%orb_false_iff.
  by rewrite Ha, IH.
Qed.

Lemma split_app s t : has_slash s = false -> split_slash (s +:+ "/" +:+ t) = s :: split_slash t.
Proof.
  induction s as [|a s IH]; [done|].
  change (String a s +:+ "/" +:+ t) with (String a (s +:+ "/" +:+ t)). cbn [has_slash split_slash].
  intros [Ha Hs]%orb_false_iff. by rewrite Ha, IH.
Qed.

Lemma print_no_slash d : has_slash (NilEmpty.string_of_uint d) = false.
Proof. by induction d. Qed.

Lemma print_first_digit d :
  NilEmpty.string_of_uint d = EmptyString \/
  exists a s, NilEmpty.string_of_uint d = String a s /\ a <> "+"%char /\ a <> "/"%char.
Proof. destruct d; [by left|right..]; eexists _, _; cbn; done. Qed.

Lemma to_uint_nonnil n : N.to_uint n <> Decimal.Nil.
Proof. destruct n as [|p]; [done|]. cbn. apply DecimalPos.Unsigned.to_uint_nonnil. Qed.

Lemma print_u32_cons n : exists a s, print_u32 n = String a s /\ a <> "+"%char /\ a <> "/"%char.
Proof.
  unfold print_u32. destruct (print_first_digit (N.to_uint (Z.to_N n))) as [Hd|]; [|done].
  pose proof (NilEmpty.usu (N.to_uint (Z.to_N n))) as Hu. rewrite Hd in Hu. injection Hu as Hu.
  by destruct (to_uint_nonnil (Z.to_N n)).
Qed.

Lemma parse_print_u32 n : in_u 32 n -> parse_u32 (print_u32 n) = Some n.
Proof.
  intros [Hn Hlt]. unfold parse_u32. destruct (print_u32_cons n) as (a & s & Hp & Ha & _).
  assert (Hdig : match print_u32 n with String "+" s' => s' | _ => print_u32 n end = print_u32 n).
  { rewrite Hp. destruct a as [[] [] [] [] [] [] [] []]; done. }
  rewrite Hdig. assert (Hne : print_u32 n <> EmptyString) by (by rewrite Hp).
  unfold print_u32 in Hne |- *. rewrite NilEmpty.usu. cbn [mbind option_bind].
  rewrite Unsigned.of_to, Z2N.id by done.
  destruct (NilEmpty.string_of_uint _); [done|]. by rewrite decide_True.
Qed.

Lemma append_assoc s t u : (s +:+ t) +:+ u = s +:+ t +:+ u.
Proof. induction s as [|a s IH]; [done|]. change (String a ((s +:+ t) +:+ u) = String a (s +:+ t +:+ u)). by rewrite IH. Qed.

Lemma display_cons c l :
  display (c ++ [l]) = "/" +:+ foldr (fun cci s => print_u32 cci +:+ "/" +:+ s) (print_u32 l) c.
Proof.
  unfold display. rewrite last_snoc, length_app, Nat.add_sub, take_app_length.
  f_equal. induction c as [|x c IH]; [done|]. cbn [foldr]. by rewrite <- IH, !append_assoc.
Qed.

Lemma from_str_cons s : s <> EmptyString -> from_str ("/" +:+ s) =
  fold_o (fun res split_ch => cci ← ok_or (parse_u32 split_ch) ParseIntError; Ok (res ++ [cci]))
    [] (split_slash s).
Proof. by destruct s. Qed.

Lemma split_display c l :
  split_slash (foldr (fun cci s => print_u32 cci +:+ "/" +:+ s) (print_u32 l) c) = print_u32 <$> (c ++ [l]).
Proof.
  induction c as [|x c IH]; cbn [foldr app fmap list_fmap].
  - apply split_no_slash, print_no_slash.
  - rewrite split_app by apply print_no_slash. by rewrite IH.
Qed.

Lemma parse_segments acc c :
  ChainIndex_wf c ->
  fold_o (fun res split_ch => cci ← ok_or (parse_u32 split_ch) ParseIntError; Ok (res ++ [cci]))
    acc (print_u32 <$> c) = Ok (acc ++ c).
Proof.
  revert acc. induction c as [|x c IH]; intros acc; [by rewrite app_nil_r|]. intros [Hx Hc]%Forall_cons.
  cbn [fmap list_fmap fold_o]. rewrite parse_print_u32 by done. cbn [ok_or mbind outcome_bind].
  rewrite IH by done. by rewrite <- app_assoc.
Qed.

Lemma from_display c : ChainIndex_wf c -> from_str (display c) = Ok c.
Proof.
  destruct c as [|l c' _] using rev_ind; [done|]. intros Hc.
  rewrite display_cons, from_str_cons, split_display; [by apply (parse_segments [])|].
  destruct c' as [|x c']; cbn [foldr].
  - by destruct (print_u32_cons l) as (a & s & -> & _).
  - by destruct (print_u32_cons x) as (a & s & -> & _).
Qed.

(** ** Lemmas: navigation *)
Definition total (c : ChainIndex) : Z := sum_Z (Z.succ <$> c).

Lemma total_app c d : total (c ++ d) = total c + total d.
Proof. unfold total. by rewrite fmap_app, sum_Z_app. Qed.
Lemma total_one x : total [x] = x + 1.
Proof. unfold total, sum_Z. cbn. lia. Qed.
Lemma total_perm c d : c ≡ₚ d -> total c = total d.
Proof. intros Hp. unfold total. apply sum_Z_perm. by rewrite Hp. Qed.
Lemma total_nonneg c : ChainIndex_wf c -> 0 <= total c.
Proof.
  intros Hc. apply sum_Z_nonneg, Forall_fmap. eapply Forall_impl; [exact Hc|]. intros x [? _]. cbn. lia.
Qed.
Lemma length_le_total c : ChainIndex_wf c -> Z.of_nat (length c) <= total c.
Proof.
  induction 1 as [|x c [Hx _] _ IH]; [done|]. change (x :: c) with ([x] ++ c).
  rewrite total_app, total_one. cbn. lia.
Qed.

Lemma set_last_snoc p a v : set_last (p ++ [a]) v = p ++ [v].
Proof. unfold set_last. by rewrite length_app, Nat.add_sub, take_app_length. Qed.
Lemma parent_snoc p a : parent (p ++ [a]) = Some p.
Proof.
  unfold parent. rewrite decide_False by (by destruct p).
  by rewrite length_app, Nat.add_sub, take_app_length.
Qed.
Lemma next_in_line_snoc p a : a + 1 < 2 ^ 32 -> next_in_line (p ++ [a]) = Some (p ++ [a + 1]).
Proof.
  intros Ha. unfold next_in_line, checked_add. rewrite last_snoc, decide_True by done.
  cbn [fmap option_fmap option_map]. by rewrite set_last_snoc.
Qed.

Lemma depth_total {E} `{OverflowChecks} c :
  ChainIndex_wf c -> total c < 2 ^ 32 -> depth (E := E) c = Ok (total c).
Proof.
  intros Hc. unfold depth.
  enough (Hgen : forall acc, 0 <= acc -> acc + total c < 2 ^ 32 ->
    fold_o (fun acc cci => n ← expect (checked_add 32 cci 1) "Max cci reached"; plain_add 32 acc n) acc c
      = Ok (E := E) (acc + total c)).
  { intros Hlt. apply (Hgen 0); lia. }
  induction Hc as [|x c [Hx _] Hc IH]; intros acc Hacc Hlt; [by rewrite Z.add_0_r|].
  pose proof (total_nonneg c Hc). change (x :: c) with ([x] ++ c) in Hlt |- *.
  rewrite total_app, total_one in Hlt |- *. cbn [app fold_o]. unfold checked_add.
  rewrite decide_True by lia. cbn [expect mbind outcome_bind]. unfold plain_add.
  rewrite plain_op_in by (unfold in_u; lia). cbn [mbind outcome_bind]. rewrite IH by lia. f_equal. lia.
Qed.

Lemma collapse_back_two p a b :
  0 <= a -> 0 <= b -> a + b + 1 < 2 ^ 32 -> collapse_back (p ++ [a; b]) = Some (p ++ [a + b + 1]).
Proof.
  intros Ha Hb Hlt. replace (p ++ [a; b]) with ((p ++ [a]) ++ [b]) by (by rewrite <- app_assoc).
  unfold collapse_back. rewrite parent_snoc. cbn [mbind option_bind]. rewrite !last_snoc.
  cbn [mbind option_bind]. unfold checked_add. rewrite decide_True by lia. cbn [mbind option_bind].
  rewrite decide_True by lia. cbn [fmap option_fmap option_map]. rewrite set_last_snoc.
  do 3 f_equal. lia.
Qed.

Lemma collapse_back_inv c r :
  ChainIndex_wf c -> collapse_back c = Some r ->
  exists p a b, c = p ++ [a; b] /\ r = p ++ [a + b + 1] /\ in_u 32 a /\ in_u 32 b /\ a + b + 1 < 2 ^ 32.
Proof.
  intros Hc. destruct c as [|b c' _] using rev_ind; [done|]. unfold collapse_back. rewrite parent_snoc.
  cbn [mbind option_bind]. destruct c' as [|a p _] using rev_ind; [done|]. rewrite !last_snoc.
  cbn [mbind option_bind]. unfold ChainIndex_wf in Hc. rewrite !Forall_app, !Forall_singleton in Hc.
  destruct Hc as [[_ Ha] Hb]. intros Hr.
  destruct (checked_add 32 b 1) as [n|] eqn:Hn; [|done]. cbn [mbind option_bind] in Hr.
  apply checked_add_Some in Hn as [_ ->].
  destruct (checked_add 32 a (b + 1)) as [m|] eqn:Hm; [|done].
  apply checked_add_Some in Hm as [Hm ->]. injection Hr as <-. rewrite set_last_snoc.
  exists p, a, b. split; [by rewrite <- app_assoc|]. split; [do 2 f_equal; lia|]. split; [done|]. split; [done|lia].
Qed.

(** Collapsing shortens an index by one and keeps its depth. *)
Lemma collapse_back_facts c r :
  ChainIndex_wf c -> collapse_back c = Some r ->
  ChainIndex_wf r /\ total r = total c /\ length c = S (length r).
Proof.
  intros Hc (p & a & b & -> & -> & [Ha _] & [Hb _] & Hlt)%collapse_back_inv; [|done].
  unfold ChainIndex_wf in *. rewrite !Forall_app in Hc |- *. destruct Hc as [Hp _].
  split; [split; [done|apply Forall_singleton; unfold in_u; lia]|].
  change [a; b] with ([a] ++ [b]). rewrite !total_app, !total_one, !length_app. cbn. split; lia.
Qed.

(** ** Lemmas: enumeration *)
Section EnumerateFacts.
Context `{Itertools, !ItertoolsLaws}.

(** One step of the search: collapse the last two segments, then permute. *)
Definition step (c p : ChainIndex) : Prop := exists r, collapse_back c = Some r /\ p ≡ₚ r.
Definition steps_of (c : ChainIndex) : list ChainIndex :=
  match collapse_back c with Some r => shuffle_iter r | None => [] end.

Lemma elem_of_shuffle r p : p ∈ shuffle_iter r <-> p ≡ₚ r.
Proof. unfold shuffle_iter. by rewrite elem_of_unique, elem_of_permutations. Qed.

Lemma elem_of_steps c p : p ∈ steps_of c <-> step c p.
Proof.
  unfold steps_of, step. destruct (collapse_back c) as [r|].
  - rewrite elem_of_shuffle. naive_solver.
  - rewrite elem_of_nil. naive_solver.
Qed.

Lemma length_shuffle r : (length (shuffle_iter r) <= fact (length r))%nat.
Proof.
  rewrite <- length_permutations. apply submseteq_length, NoDup_submseteq; [apply NoDup_unique|].
  intros p. apply elem_of_unique.
Qed.

Definition weight (stack : list ChainIndex) : nat := list_sum (ids_weight ∘ length <$> stack).

Lemma weight_app l k : weight (l ++ k) = (weight l + weight k)%nat.
Proof. unfold weight. by rewrite fmap_app, list_sum_app. Qed.

Lemma weight_const l n :
  (forall c, c ∈ l -> length c = n) -> weight l = (length l * ids_weight n)%nat.
Proof.
  induction l as [|c l IH]; intros Hn; [done|]. change (c :: l) with ([c] ++ l).
  rewrite weight_app, IH by (intros d Hd; apply Hn; by right).
  unfold weight at 1. cbn. rewrite (Hn c) by by left. lia.
Qed.

Lemma step_wf c p : ChainIndex_wf c -> step c p -> ChainIndex_wf p /\ total p = total c /\ length c = S (length p).
Proof.
  intros Hc (r & (Hr & Ht & Hl)%collapse_back_facts & Hp); [|done]. split; [by unfold ChainIndex_wf; rewrite Hp|].
  by rewrite (total_perm _ _ Hp), Hp.
Qed.

Lemma weight_steps c : ChainIndex_wf c -> (weight (reverse (steps_of c)) < ids_weight (length c))%nat.
Proof.
  intros Hc. destruct (length c) as [|n] eqn:Hlen.
  { apply nil_length_inv in Hlen as ->. vm_compute. lia. }
  assert (Hn : forall p, p ∈ steps_of c -> length p = n).
  { intros p (_ & _ & Hp)%elem_of_steps%step_wf; [lia|done]. }
  rewrite (weight_const _ n) by (intros p Hp; apply Hn; by rewrite <- elem_of_reverse).
  rewrite length_reverse. cbn [ids_weight]. apply Nat.lt_succ_r, Nat.mul_le_mono_r.
  unfold steps_of. destruct (collapse_back c) as [r|] eqn:Hr; [|cbn; lia].
  apply collapse_back_facts in Hr as (_ & _ & Hr); [|done].
  etransitivity; [apply length_shuffle|]. by replace (length r) with n by lia.
Qed.

(** The loop ends within its fuel; it keeps what it had, only adds steps of what
    it meets, and its result is closed under steps. *)
Lemma ids_loop_spec (Q : ChainIndex -> Prop) fuel stack cum :
  (forall c, Q c -> ChainIndex_wf c) -> (forall c p, Q c -> step c p -> Q p) ->
  (weight stack < fuel)%nat -> Forall Q stack -> Forall Q cum ->
  (forall c, c ∈ cum -> c ∈ stack \/ forall p, step c p -> p ∈ cum) ->
  exists res, ids_loop fuel stack cum = Some res /\ Forall Q res /\
    (forall c, c ∈ cum -> c ∈ res) /\ forall c p, c ∈ res -> step c p -> p ∈ res.
Proof.
  intros Hwf Hstep. revert stack cum. induction fuel as [|fuel IH]; intros stack cum Hw Hs Hc Hcl; [lia|].
  cbn [ids_loop]. destruct stack as [|c stack].
  { exists cum. split; [done|]. split; [done|]. split; [done|]. intros c p Hin Hp.
    destruct (Hcl c Hin) as [[]%not_elem_of_nil|Hall]. by apply Hall. }
  apply Forall_cons in Hs as [Hqc Hs]. fold (steps_of c).
  assert (Hq : Forall Q (steps_of c)).
  { apply Forall_forall. intros p Hp%elem_of_steps. by apply (Hstep c). }
  destruct (IH (reverse (steps_of c) ++ stack) (cum ++ steps_of c)) as (res & -> & HQ & Hincl & Hres).
  - change (c :: stack) with ([c] ++ stack) in Hw. rewrite weight_app in *.
    pose proof (weight_steps c (Hwf c Hqc)). unfold weight at 1 in Hw. cbn in Hw. lia.
  - apply Forall_app. split; [by apply Forall_reverse|done].
  - by apply Forall_app.
  - intros d [Hd|Hd]%elem_of_app.
    + destruct (Hcl d Hd) as [[->|Hd']%elem_of_cons|Hall].
      * right. intros p Hp%elem_of_steps. apply elem_of_app. by right.
      * left. apply elem_of_app. by right.
      * right. intros p Hp. apply elem_of_app. left. by apply Hall.
    + left. apply elem_of_app. left. by apply elem_of_reverse.
  - exists res. split; [done|]. split; [done|]. split; [|done].
    intros d Hd. apply Hincl, elem_of_app. by left.
Qed.

Definition at_depth (d : nat) (c : ChainIndex) : Prop := ChainIndex_wf c /\ total c = Z.of_nat d.

Lemma at_depth_zeros d : at_depth d (replicate d 0).
Proof.
  split; [by apply Forall_replicate|]. induction d as [|d IH]; [done|].
  change (replicate (S d) 0) with ([0] ++ replicate d 0). rewrite total_app, total_one. lia.
Qed.

(** An index shorter than its depth is one step away from a longer one. *)
Lemma step_back d c :
  (Z.of_nat d <= 2 ^ 32) -> at_depth d c -> (length c < d)%nat ->
  exists c', at_depth d c' /\ length c' = S (length c) /\ step c' c.
Proof.
  intros Hd [Hwf Ht] Hlen.
  assert (Hx : exists x, x ∈ c /\ 1 <= x).
  { destruct (decide (Exists (fun x => 1 <= x) c)) as [He|Hn]; [by apply Exists_exists|].
    apply not_Exists_Forall in Hn; [|intros; apply _].
    exfalso. enough (total c = Z.of_nat (length c)) by lia.
    clear Ht Hlen. induction Hwf as [|x c [Hx _] _ IH]; [done|]. apply Forall_cons in Hn as [Hx1 Hn].
    cbn in Hx1. change (x :: c) with ([x] ++ c). rewrite total_app, total_one, IH by done. cbn. lia. }
  destruct Hx as (x & Hx & Hx1). apply elem_of_Permutation in Hx as [p Hp].
  assert (Hwf' : ChainIndex_wf (x :: p)) by (by unfold ChainIndex_wf; rewrite <- Hp).
  apply Forall_cons in Hwf' as [[_ Hxlt] Hpwf].
  assert (Ht' : total p + x + 1 = Z.of_nat d).
  { rewrite (total_perm _ _ Hp) in Ht. change (x :: p) with ([x] ++ p) in Ht.
    rewrite total_app, total_one in Ht. lia. }
  exists (p ++ [x - 1; 0]). split; [split|split].
  - apply Forall_app. split; [done|]. repeat constructor; lia.
  - change [x - 1; 0] with ([x - 1] ++ [0]). rewrite !total_app, !total_one. lia.
  - rewrite Hp, length_app. cbn. lia.
  - exists (p ++ [x]). split.
    + rewrite collapse_back_two by lia. do 3 f_equal. lia.
    + rewrite Hp. by apply (Permutation_app_comm [x] p).
Qed.

Lemma cumulative_stack_spec d :
  Z.of_nat d <= 2 ^ 32 ->
  exists l, ids_loop (S (ids_weight d)) [replicate d 0] [replicate d 0] = Some l /\
    forall c, c ∈ l <-> at_depth d c.
Proof.
  intros Hd. pose proof (at_depth_zeros d) as Hz.
  destruct (ids_loop_spec (at_depth d) (S (ids_weight d)) [replicate d 0] [replicate d 0])
    as (l & Hl & HQ & Hincl & Hstep).
  - by intros c [].
  - intros c p [Hc Ht] (Hp & Htp & _)%step_wf; [|done]. split; [done|lia].
  - unfold weight. cbn. rewrite length_replicate. lia.
  - by apply Forall_singleton.
  - by apply Forall_singleton.
  - intros c Hc. by left.
  - exists l. split; [done|]. intros c. split; [by intros Hc; rewrite Forall_forall in HQ; apply HQ|].
    intros Hc. remember (d - length c)%nat as n eqn:Hn.
    revert c Hc Hn. induction n as [|n IH]; intros c Hc Hn.
    + apply Hincl, list_elem_of_singleton. destruct Hc as [Hwf Ht].
      assert (Hlen : length c = d) by (pose proof (length_le_total c Hwf); lia).
      clear -Hwf Ht Hlen. subst d. induction Hwf as [|x c [Hx _] Hwf IH]; [done|].
      change (x :: c) with ([x] ++ c) in Ht. rewrite total_app, total_one in Ht.
      pose proof (length_le_total c Hwf). cbn in *. rewrite <- IH by lia. f_equal. lia.
    + destruct (step_back d c Hd Hc ltac:(lia)) as (c' & Hc' & Hlen & Hs).
      apply (Hstep c'); [|done]. apply IH; [done|lia].
Qed.

Lemma elem_of_chain_ids d c :
  Z.of_nat d <= 2 ^ 32 -> c ∈ chain_ids_at_depth d <-> at_depth d c.
Proof.
  intros Hd. unfold chain_ids_at_depth, cumulative_stack.
  destruct (cumulative_stack_spec d Hd) as (l & -> & Hl). cbn [default from_option].
  by rewrite elem_of_unique.
Qed.

Lemma elem_of_chain_ids_rev d c :
  Z.of_nat d <= 2 ^ 32 -> c ∈ chain_ids_at_depth_rev d <-> at_depth d c.
Proof.
  intros Hd. unfold chain_ids_at_depth_rev, cumulative_stack.
  destruct (cumulative_stack_spec d Hd) as (l & -> & Hl). cbn [default from_option].
  by rewrite elem_of_unique, elem_of_reverse.
Qed.
End EnumerateFacts.
End ChainIndex.

(** ** [std::collections::BTreeMap]: finite maps whose iteration follows the order
    of the keys.

    A map is a [gmap]; [iter] lists its entries sorted by the key, compared
    through a list of integers as the derived [Ord] of the key types does:
    vectors, arrays and strings element by element, enums by their variant and
    then their fields. *)
Module BTree.
(** The lexicographic order of [Vec<T>] and [[T; n]]. *)
Fixpoint lex_le (a b : list Z) : bool :=
  match a, b with
  | [], _ => true
  | _ :: _, [] => false
  | x :: a, y :: b => (x <? y) || ((x =? y) && lex_le a b)
  end.

Class OrdKey (K : Type) := ord_key : K -> list Z.
#[global] Instance chain_index_ord : OrdKey (list Z) := id.
#[global] Instance account_id_ord : OrdKey AccountId := fun id => byte_to_Z <$> value id.
#[global] Instance string_ord : OrdKey string := fun s => byte_to_Z <$> bstr s.
#[global] Instance kind_ord : OrdKey PrivateAccountKind := fun k =>
  match k with
  | Regular i => [0; i]
  | Pda p s i => 1 :: p ++ (byte_to_Z <$> seed_bytes s) ++ [i]
  end.

Definition entry_le {K V} `{OrdKey K} (a b : K * V) : Prop := lex_le (ord_key a.1) (ord_key b.1) = true.
#[global] Instance entry_le_dec {K V} `{OrdKey K} : RelDecision (entry_le (K := K) (V := V)).
Proof. intros a b. unfold entry_le. apply _. Defined.

Definition iter {K V} `{Countable K, OrdKey K} (m : gmap K V) : list (K * V) :=
  merge_sort entry_le (map_to_list m).
Definition keys {K V} `{Countable K, OrdKey K} (m : gmap K V) : list K := (iter m).*1.
(** [BTreeMap::from_iter]: a later entry replaces an earlier one. *)
Definition from_iter {K V} `{Countable K} (l : list (K * V)) : gmap K V :=
  foldl (fun m kv => <[kv.1 := kv.2]> m) ∅ l.

(** ** Lemmas *)
Section Facts.
Context {K V : Type} `{Countable K, !OrdKey K}.
Implicit Types m : gmap K V.

Lemma iter_perm m : iter m ≡ₚ map_to_list m.
Proof. apply merge_sort_Permutation. Qed.

Lemma elem_of_iter m k v : (k, v) ∈ iter m <-> m !! k = Some v.
Proof. rewrite iter_perm. apply elem_of_map_to_list. Qed.

Lemma elem_of_keys m k : k ∈ keys m <-> is_Some (m !! k).
Proof.
  unfold keys. rewrite list_elem_of_fmap. split.
  - intros ([k' v] & -> & Hv%elem_of_iter). by exists v.
  - intros [v Hv]. exists (k, v). by rewrite elem_of_iter.
Qed.

Lemma NoDup_keys m : NoDup (keys m).
Proof. unfold keys. rewrite iter_perm. apply NoDup_fst_map_to_list. Qed.

Lemma from_iter_acc (l : list (K * V)) m :
  NoDup l.*1 -> foldl (fun m kv => <[kv.1 := kv.2]> m) m l = list_to_map l ∪ m.
Proof.
  revert m. induction l as [|[k v] l IH]; intros m Hnd.
  { by rewrite list_to_map_nil, (left_id_L ∅ (∪)). }
  cbn [foldl fst snd]. cbn in Hnd. apply NoDup_cons in Hnd as [Hk Hnd]. rewrite IH by done. cbn [list_to_map foldr].
  rewrite <- insert_union_l, insert_union_r; [done|]. by apply not_elem_of_list_to_map_1.
Qed.

Lemma from_iter_iter m : from_iter (iter m) = m.
Proof.
  unfold from_iter. rewrite from_iter_acc by apply NoDup_keys. rewrite map_union_empty.
  rewrite (list_to_map_proper (iter m) (map_to_list m)); [apply list_to_map_to_list|apply NoDup_keys|apply iter_perm].
Qed.

Lemma iter_empty : iter (∅ : gmap K V) = [].
Proof. unfold iter. by rewrite map_to_list_empty. Qed.

Lemma iter_singleton k (v : V) : iter {[k := v]} = [(k, v)].
Proof. apply Permutation_singleton_r. by rewrite iter_perm, map_to_list_singleton. Qed.
End Facts.
End BTree.
Export BTree.
