(* ===== verification/KeyDerivation.v ===== *)
(** Keys of wallets: [key_protocol/src/key_management] ([secret_holders.rs],
    [mod.rs], [ephemeral_key_holder.rs], [group_key_holder.rs], [keys_public.rs],
    [keys_private.rs]), [nssa/src/signature/private_key.rs] and
    [nssa/core/src/encryption/shared_key_derivation.rs].

    HMAC-SHA512, the curve secp256k1 and AES-256-GCM are third-party code: they
    are parameters.  Random bytes are arguments. *)

From S2P Require Import Prelude Bytes Crypto Account Ids Host Encryption Transactions ChainIndex.

(** ** Third-party code *)

(** [hmac_sha512::HMAC::mac(input, key)] *)
Class HmacSha512 := hmac_sha512 : list byte -> list byte -> list byte.
Class HmacLaws `{HmacSha512} := length_hmac input key : length (hmac_sha512 input key) = 64%nat.

(** The crate [k256]: [Scalar::from_repr], [to_bytes], the field operations;
    [SecretKey::from_bytes]; the generator and the multiplication of points; the
    compressed encoding ([to_encoded_point(true)]), the x-coordinate
    ([to_encoded_point(false).x()]) and the decoding of points. *)
Class K256 := {
  k_scalar : Type;
  scalar_from_repr : list byte -> option k_scalar;
  scalar_to_bytes : k_scalar -> list byte;
  scalar_add : k_scalar -> k_scalar -> k_scalar;
  scalar_mul : k_scalar -> k_scalar -> k_scalar;
  secret_key_from_bytes : list byte -> option k_scalar;
  k_point : Type;
  generator : k_point;
  point_mul : k_point -> k_scalar -> k_point;
  encode_point : k_point -> list byte;
  point_x : k_point -> option (list byte);
  decode_point : list byte -> option k_point;
}.
(** Multiplication of points is an action of the commutative field; points other
    than the identity are encoded in 33 bytes and decode to themselves; a secret
    key is a scalar that is not zero, so that it has a public key and shared
    secrets with other keys. *)
Class K256Laws `{K256} := {
  point_mul_comm p a b : point_mul (point_mul p a) b = point_mul (point_mul p b) a;
  decode_encode p x : point_x p = Some x -> decode_point (encode_point p) = Some p;
  length_encode p x : point_x p = Some x -> length (encode_point p) = 33%nat;
  length_point_x p x : point_x p = Some x -> length x = 32%nat;
  secret_key_scalar b s : secret_key_from_bytes b = Some s -> scalar_from_repr b = Some s;
  secret_key_public b s : secret_key_from_bytes b = Some s -> is_Some (point_x (point_mul generator s));
  secret_key_shared a b s t : secret_key_from_bytes a = Some s -> secret_key_from_bytes b = Some t ->
    is_Some (point_x (point_mul (point_mul generator s) t));
}.

(** ** private_key.rs, public_key.rs *)
Record PrivateKey := mk_PrivateKey { private_key_value : list byte }.
#[global] Instance PrivateKey_eq_dec : EqDecision PrivateKey.
Proof. solve_decision. Defined.

Section Curve.
Context `{K256}.

Definition is_valid_key (v : list byte) : bool := bool_decide (is_Some (secret_key_from_bytes v)).
Definition PrivateKey_try_new (v : list byte) : outcome NssaError PrivateKey :=
  if is_valid_key v then Ok (mk_PrivateKey v) else Err InvalidPrivateKey.

(** [PublicKey::new_from_private_key] *)
Definition new_from_private_key (key : PrivateKey) : guest PublicKey :=
  secret_key ← expect (secret_key_from_bytes (private_key_value key)) "Expect a valid private key";
  x ← expect (point_x (point_mul generator secret_key)) "Expect k256 point to have a x-coordinate";
  Ok (mk_PublicKey x).

(** ** shared_key_derivation.rs *)

(** [Secp256k1Point::from_scalar] *)
Definition from_scalar (v : list byte) : guest (list byte) :=
  x ← expect (scalar_from_repr v) "called unwrap on a None value";
  Ok (encode_point (point_mul generator x)).

(** [SharedSecretKey::new]; the failing [unwrap]s of the two decoding steps are
    one here. *)
Definition SharedSecretKey_new (scalar point : list byte) : guest SharedSecretKey :=
  scalar ← expect (scalar_from_repr scalar) "called unwrap on a None value";
  assert_ (bool_decide (length point = 33%nat)) "called unwrap on an Err value" ;;
  pubkey_affine ← expect (decode_point point) "called unwrap on an Err value";
  x ← expect (point_x (point_mul pubkey_affine scalar)) "called unwrap on a None value";
  Ok (mk_Ssk x).
End Curve.

(** ** secret_holders.rs *)
Record SeedHolder := mk_SeedHolder { seed : list byte }.
Record SecretSpendingKey := mk_SecretSpendingKey { ssk_value : list byte }.
Abbreviation ViewingSecretKey := (list byte).
Record PrivateKeyHolder := mk_PrivateKeyHolder {
  nullifier_secret_key : NullifierSecretKey;
  viewing_secret_key : ViewingSecretKey;
}.
#[global] Instance SecretSpendingKey_eq_dec : EqDecision SecretSpendingKey.
Proof. solve_decision. Defined.
#[global] Instance PrivateKeyHolder_eq_dec : EqDecision PrivateKeyHolder.
Proof. solve_decision. Defined.

(** The crate [bip39]. *)
Class Bip39 := {
  Mnemonic : Type;
  mnemonic_from_entropy : list byte -> option Mnemonic;
  to_seed : Mnemonic -> string -> list byte;
}.

(** [u32::to_be_bytes] *)
Definition be_bytes_u32 (n : Z) : list byte := reverse (le_bytes 4 n).

Section Secrets.
Context `{HmacSha512, K256, Sha256}.

(** [SeedHolder::from_mnemonic], [new_mnemonic] *)
Definition SeedHolder_from_mnemonic `{Bip39} (m : Mnemonic) (passphrase : string) : SeedHolder :=
  mk_SeedHolder (to_seed m passphrase).
Definition SeedHolder_new_mnemonic `{Bip39} (entropy : list byte) (passphrase : string) :
    guest (SeedHolder * Mnemonic) :=
  m ← expect (mnemonic_from_entropy entropy) "Entropy must be a multiple of 32 bytes";
  Ok (mk_SeedHolder (to_seed m passphrase), m).

Definition generate_secret_spending_key_hash (s : SeedHolder) : list byte :=
  let hash := hmac_sha512 (seed s) (bstr "NSSA_seed") in
  take 32 (Nat.iter 2047 (fun hash => hmac_sha512 hash (bstr "NSSA_seed")) hash).
Definition produce_top_secret_key_holder (s : SeedHolder) : SecretSpendingKey :=
  mk_SecretSpendingKey (generate_secret_spending_key_hash s).

Definition secret_key_of (tag : byte) (k : SecretSpendingKey) (index : option Z) : list byte :=
  let index := default 0 index in
  hash_bytes (bstr "LEE/keys" ++ ssk_value k ++ [tag] ++ be_bytes_u32 index ++ zeros 19).
Definition generate_nullifier_secret_key : SecretSpendingKey -> option Z -> NullifierSecretKey :=
  secret_key_of Byte.x01.
Definition generate_viewing_secret_key : SecretSpendingKey -> option Z -> ViewingSecretKey :=
  secret_key_of Byte.x02.
Definition produce_private_key_holder (k : SecretSpendingKey) (index : option Z) : PrivateKeyHolder :=
  mk_PrivateKeyHolder (generate_nullifier_secret_key k index) (generate_viewing_secret_key k index).

Definition generate_nullifier_public_key (h : PrivateKeyHolder) : NullifierPublicKey :=
  npk_from_nsk (nullifier_secret_key h).
Definition generate_viewing_public_key (h : PrivateKeyHolder) : guest ViewingPublicKey :=
  p ← from_scalar (viewing_secret_key h); Ok (mk_Vpk p).

(** ** mod.rs *)
Record KeyChain := mk_KeyChain {
  secret_spending_key : SecretSpendingKey;
  private_key_holder : PrivateKeyHolder;
  nullifier_public_key : NullifierPublicKey;
  viewing_public_key : ViewingPublicKey;
}.

(** [KeyChain::new_mnemonic]; [new_os_random] is the same with a fixed
    passphrase and without the mnemonic. *)
Definition KeyChain_new (seed_holder : SeedHolder) : guest KeyChain :=
  let secret_spending_key := produce_top_secret_key_holder seed_holder in
  let private_key_holder := produce_private_key_holder secret_spending_key None in
  let npk := generate_nullifier_public_key private_key_holder in
  vpk ← generate_viewing_public_key private_key_holder;
  Ok (mk_KeyChain secret_spending_key private_key_holder npk vpk).
Definition KeyChain_new_mnemonic `{Bip39} (entropy : list byte) (passphrase : string) :
    guest (KeyChain * Mnemonic) :=
  '(seed_holder, mnemonic) ← SeedHolder_new_mnemonic entropy passphrase;
  k ← KeyChain_new seed_holder;
  Ok (k, mnemonic).

Definition calculate_shared_secret_receiver (k : KeyChain) (ephemeral_public_key_sender : EphemeralPublicKey)
    (index : option Z) : guest SharedSecretKey :=
  SharedSecretKey_new (generate_viewing_secret_key (secret_spending_key k) index)
    (epk_bytes ephemeral_public_key_sender).

(** ** ephemeral_key_holder.rs *)
Record EphemeralKeyHolder := mk_Ephemeral { ephemeral_secret_key : list byte }.
Definition EphemeralKeyHolder_new (receiver_npk : NullifierPublicKey) (nonce_bytes : list byte) :
    EphemeralKeyHolder :=
  mk_Ephemeral (hash_bytes (npk_bytes receiver_npk ++ nonce_bytes)).
Definition generate_ephemeral_public_key (h : EphemeralKeyHolder) : guest EphemeralPublicKey :=
  p ← from_scalar (ephemeral_secret_key h); Ok (mk_Epk p).
Definition calculate_shared_secret_sender (h : EphemeralKeyHolder) (receiver_vpk : ViewingPublicKey) :
    guest SharedSecretKey :=
  SharedSecretKey_new (ephemeral_secret_key h) (vpk_bytes receiver_vpk).
Definition produce_one_sided_shared_secret_receiver (vpk : ViewingPublicKey) (esk : list byte) :
    guest (SharedSecretKey * EphemeralPublicKey) :=
  s ← SharedSecretKey_new esk (vpk_bytes vpk);
  p ← from_scalar esk;
  Ok (s, mk_Epk p).
End Secrets.
#[global] Instance ViewingPublicKey_eq_dec : EqDecision ViewingPublicKey.
Proof. solve_decision. Defined.
#[global] Instance KeyChain_eq_dec : EqDecision KeyChain.
Proof. solve_decision. Defined.

(** ** keys_public.rs *)
Record ChildKeysPublic := mk_ChildKeysPublic {
  csk : PrivateKey;
  cpk : PublicKey;
  pub_ccc : list byte;
  pub_cci : option Z;
}.
#[global] Instance ChildKeysPublic_eq_dec : EqDecision ChildKeysPublic.
Proof. solve_decision. Defined.

Section PublicKeys.
Context `{HmacSha512, K256, Sha256}.

(** [PrivateKey::try_new(..).expect(..)] *)
Definition expect_private_key (v : list byte) (msg : string) : guest PrivateKey :=
  match PrivateKey_try_new v with Ok k => Ok k | _ => Panic msg end.

Definition public_root (seed : list byte) : guest ChildKeysPublic :=
  let hash_value := hmac_sha512 seed (bstr "LEE_master_pub") in
  csk ← expect_private_key (take 32 hash_value) "Expect a valid Private Key";
  let ccc := drop 32 hash_value in
  cpk ← new_from_private_key csk;
  Ok (mk_ChildKeysPublic csk cpk ccc None).

Definition compute_hash_value (k : ChildKeysPublic) (cci : Z) : guest (list byte) :=
  hash_input ←
    (if decide (2 ^ 31 > cci) then
       sk ← expect (secret_key_from_bytes (private_key_value (csk k))) "32 bytes, within curve order";
       Ok (encode_point (point_mul generator sk))
     else Ok ([Byte.x00] ++ private_key_value (csk k)));
  Ok (hmac_sha512 (hash_input ++ be_bytes_u32 cci) (pub_ccc k)).

Definition public_nth_child (k : ChildKeysPublic) (cci : Z) : guest ChildKeysPublic :=
  hash_value ← compute_hash_value k cci;
  value_1 ← expect (scalar_from_repr (take 32 hash_value)) "Expect a valid k256 scalar";
  value_2 ← expect (scalar_from_repr (private_key_value (csk k))) "Expect a valid k256 scalar";
  let sum := scalar_add value_1 value_2 in
  csk ← expect_private_key (scalar_to_bytes sum) "Expect a valid private key";
  let ccc := drop 32 hash_value in
  cpk ← new_from_private_key csk;
  Ok (mk_ChildKeysPublic csk cpk ccc (Some cci)).

Definition public_account_id (k : ChildKeysPublic) : AccountId :=
  account_id_of_public_key (public_key_value (cpk k)).
End PublicKeys.

(** ** keys_private.rs *)
#[global] Program Instance PrivateAccountKind_countable : Countable PrivateAccountKind :=
  inj_countable'
    (fun k => match k with Regular i => inl i | Pda p s i => inr (p, s, i) end)
    (fun x => match x with inl i => Regular i | inr (p, s, i) => Pda p s i end) _.
Next Obligation. by intros []. Qed.

Record ChildKeysPrivate := mk_ChildKeysPrivate {
  priv_value : KeyChain * gmap PrivateAccountKind Account;
  priv_ccc : list byte;
  priv_cci : option Z;
}.
#[global] Instance ChildKeysPrivate_eq_dec : EqDecision ChildKeysPrivate.
Proof. solve_decision. Defined.

Section PrivateKeys.
Context `{HmacSha512, K256, Sha256}.

(** The keys of a node from its secret spending key: [root] and [nth_child]
    repeat these lines. *)
Definition private_node (ssk : SecretSpendingKey) (ccc : list byte) (cci : option Z) :
    guest ChildKeysPrivate :=
  let nsk := generate_nullifier_secret_key ssk cci in
  let vsk := generate_viewing_secret_key ssk cci in
  let npk := npk_from_nsk nsk in
  vpk ← from_scalar vsk;
  Ok (mk_ChildKeysPrivate
        (mk_KeyChain ssk (mk_PrivateKeyHolder nsk vsk) npk (mk_Vpk vpk), {[ Regular 0 := Account_default ]})
        ccc cci).

Definition private_root (seed : list byte) : guest ChildKeysPrivate :=
  let hash_value := hmac_sha512 seed (bstr "LEE_master_priv") in
  private_node (mk_SecretSpendingKey (take 32 hash_value)) (drop 32 hash_value) None.

Definition private_nth_child (k : ChildKeysPrivate) (cci : Z) : guest ChildKeysPrivate :=
  let holder := private_key_holder (priv_value k).1 in
  nsk ← expect (scalar_from_repr (nullifier_secret_key holder))
          "Key generated as scalar, must be valid representation";
  vsk ← expect (scalar_from_repr (viewing_secret_key holder))
          "Key generated as scalar, must be valid representation";
  let parent_pt := scalar_mul nsk vsk in
  let input := bstr "LEE_seed_priv" ++ scalar_to_bytes parent_pt ++ be_bytes_u32 cci in
  let hash_value := hmac_sha512 input (priv_ccc k) in
  private_node (mk_SecretSpendingKey (take 32 hash_value)) (drop 32 hash_value) (Some cci).

Definition private_account_ids (k : ChildKeysPrivate) : list AccountId :=
  for_private_account (nullifier_public_key (priv_value k).1) <$> BTree.keys (priv_value k).2.
End PrivateKeys.
