(* ===== verification/GroupKeys.v ===== *)
(** Shared keys of groups: [key_protocol/src/key_management/group_key_holder.rs].

    A group master secret derives the keys of shared private accounts, and is
    sealed under the public keys of the members for distribution. *)

From S2P Require Import Prelude Bytes Crypto Account Ids Host Encryption Transactions ChainIndex KeyDerivation.

(** The crate [aes_gcm]: key, nonce and text; encryption appends a tag. *)
Class AesGcm := {
  aes_encrypt : list byte -> list byte -> list byte -> option (list byte);
  aes_decrypt : list byte -> list byte -> list byte -> option (list byte);
}.
Class AesGcmLaws `{AesGcm} := {
  aes_encrypt_short k n m : Z.of_nat (length m) < 2 ^ 36 -> is_Some (aes_encrypt k n m);
  aes_decrypt_encrypt k n m c : aes_encrypt k n m = Some c -> aes_decrypt k n c = Some m;
  length_aes_encrypt k n m c : aes_encrypt k n m = Some c -> length c = (length m + 16)%nat;
}.

Record SealingPublicKey := mk_SealingPublicKey { sealing_bytes : list byte }.
Abbreviation SealingSecretKey := (list byte).
Record GroupKeyHolder := from_gms { gms : list byte }.
#[global] Instance GroupKeyHolder_eq_dec : EqDecision GroupKeyHolder.
Proof. solve_decision. Defined.
Inductive SealError :=
  | TooShort
  | DecryptionFailed.

Section Groups.
Context `{Sha256, K256, AesGcm}.

(** [SealingPublicKey::from_scalar] *)
Definition sealing_from_scalar (scalar : list byte) : guest SealingPublicKey :=
  p ← from_scalar scalar; Ok (mk_SealingPublicKey p).

Definition secret_spending_key_for_pda (h : GroupKeyHolder) (program_id : ProgramId) (pda_seed : PdaSeed) :
    SecretSpendingKey :=
  mk_SecretSpendingKey (hash_bytes
    (bstr "/LEE/v0.3/GroupKeyDerivation/SSK" ++ gms h ++ words_bytes program_id ++ seed_bytes pda_seed)).
Definition derive_keys_for_pda (h : GroupKeyHolder) (program_id : ProgramId) (pda_seed : PdaSeed) :
    PrivateKeyHolder :=
  produce_private_key_holder (secret_spending_key_for_pda h program_id pda_seed) None.
Definition derive_keys_for_shared_account (h : GroupKeyHolder) (derivation_seed : list byte) :
    PrivateKeyHolder :=
  produce_private_key_holder (mk_SecretSpendingKey (hash_bytes
    (bstr "/LEE/v0.3/GroupKeyDerivation/SHA" ++ gms h ++ derivation_seed))) None.

Definition seal_kdf (shared : SharedSecretKey) : list byte :=
  hash_bytes (bstr "/LEE/v0.3/GroupKeySeal/AES" ++ zeros 6 ++ ssk_bytes shared).

(** [seal_for], from the random scalar and nonce. *)
Definition seal_for (h : GroupKeyHolder) (recipient_key : SealingPublicKey)
    (ephemeral_scalar nonce_bytes : list byte) : guest (list byte) :=
  ephemeral_pubkey ← from_scalar ephemeral_scalar;
  shared ← SharedSecretKey_new ephemeral_scalar (sealing_bytes recipient_key);
  let aes_key := seal_kdf shared in
  ciphertext ← expect (aes_encrypt aes_key nonce_bytes (gms h))
                 "AES-GCM encryption should not fail with valid key/nonce";
  Ok (ephemeral_pubkey ++ nonce_bytes ++ ciphertext).

Definition HEADER_LEN : nat := 33 + 12.
Definition MIN_LEN : nat := HEADER_LEN + 16.

(** [unseal] *)
Definition unseal (sealed : list byte) (own_key : SealingSecretKey) : outcome SealError GroupKeyHolder :=
  if decide (length sealed < MIN_LEN)%nat then Err TooShort
  else
    let ephemeral_pubkey := take 33 sealed in
    let nonce := take (HEADER_LEN - 33) (drop 33 sealed) in
    let ciphertext := drop HEADER_LEN sealed in
    match SharedSecretKey_new own_key ephemeral_pubkey with
    | Ok shared =>
        let aes_key := seal_kdf shared in
        plaintext ← ok_or (aes_decrypt aes_key nonce ciphertext) DecryptionFailed;
        if decide (length plaintext <> 32%nat) then Err DecryptionFailed
        else Ok (from_gms plaintext)
    | Err e => match e with end
    | Panic msg => Panic msg
    end.
End Groups.

(** ** Shared secrets agree

    The sender of a ciphertext and its receiver compute one secret. *)
Section Agreement.
Context `{K256, !K256Laws}.

Lemma from_scalar_secret a s :
  secret_key_from_bytes a = Some s -> from_scalar a = Ok (encode_point (point_mul generator s)).
Proof. intros Ha%secret_key_scalar. unfold from_scalar. by rewrite Ha. Qed.

Lemma length_from_scalar a p : is_Some (secret_key_from_bytes a) -> from_scalar a = Ok p -> length p = 33%nat.
Proof.
  intros [s Hs]. rewrite (from_scalar_secret a s Hs). intros [= <-].
  destruct (secret_key_public a s Hs) as [x Hx]. by apply (length_encode _ x).
Qed.

Lemma SharedSecretKey_new_secret a b s t :
  secret_key_from_bytes a = Some s -> secret_key_from_bytes b = Some t ->
  exists x, SharedSecretKey_new b (encode_point (point_mul generator s)) = Ok (mk_Ssk x) /\
    point_x (point_mul (point_mul generator s) t) = Some x /\ length x = 32%nat.
Proof.
  intros Ha Hb. destruct (secret_key_public a s Ha) as [y Hy].
  destruct (secret_key_shared a b s t Ha Hb) as [x Hx]. exists x.
  unfold SharedSecretKey_new. rewrite (secret_key_scalar b t Hb), (length_encode _ y Hy), (decode_encode _ y Hy).
  cbn [expect mbind outcome_bind assert_ bool_decide]. rewrite Hx. split; [done|]. split; [done|].
  by apply (length_point_x _ x Hx).
Qed.

(** Secret scalars are valid and not zero, as [SecretKey::from_bytes] checks. *)
Lemma shared_secret_agreement a b :
  is_Some (secret_key_from_bytes a) -> is_Some (secret_key_from_bytes b) ->
  exists pa pb s, from_scalar a = Ok pa /\ from_scalar b = Ok pb /\
    SharedSecretKey_new a pb = Ok s /\ SharedSecretKey_new b pa = Ok s.
Proof.
  intros [sa Ha] [sb Hb].
  destruct (SharedSecretKey_new_secret a b sa sb Ha Hb) as (x & Hx & Hxp & _).
  destruct (SharedSecretKey_new_secret b a sb sa Hb Ha) as (y & Hy & Hyp & _).
  eexists _, _, _. split; [by apply from_scalar_secret|]. split; [by apply from_scalar_secret|].
  split; [done|]. rewrite Hx. do 2 f_equal. rewrite point_mul_comm in Hxp. congruence.
Qed.
End Agreement.

(** Sealing and unsealing: sealing for the public key of a valid secret scalar
    succeeds with 93 bytes, and whoever holds that scalar recovers the group
    master secret from them; anything shorter than a header and a tag is
    rejected. *)
Lemma unseal_seal_ok `{Sha256, K256, !K256Laws, AesGcm, !AesGcmLaws} h own_key ephemeral_scalar nonce_bytes :
  length (gms h) = 32%nat -> length nonce_bytes = 12%nat ->
  is_Some (secret_key_from_bytes own_key) -> is_Some (secret_key_from_bytes ephemeral_scalar) ->
  exists recipient_key sealed, sealing_from_scalar own_key = Ok recipient_key /\
    seal_for h recipient_key ephemeral_scalar nonce_bytes = Ok sealed /\
    length sealed = 93%nat /\ unseal sealed own_key = Ok h /\
    forall n, (n < MIN_LEN)%nat -> unseal (take n sealed) own_key = Err TooShort.
Proof.
  intros Hgms Hnonce Hown Heph.
  destruct (shared_secret_agreement own_key ephemeral_scalar Hown Heph) as (po & pe & s & Hpo & Hpe & Hso & Hse).
  unfold sealing_from_scalar. rewrite Hpo. eexists (mk_SealingPublicKey po).
  unfold seal_for. rewrite Hpe. cbn [mbind outcome_bind sealing_bytes]. rewrite Hse. cbn [mbind outcome_bind].
  destruct (aes_encrypt_short (seal_kdf s) nonce_bytes (gms h)) as [c Hc]; [lia|]. rewrite Hc.
  pose proof (length_aes_encrypt _ _ _ _ Hc) as Hlc.
  pose proof (length_from_scalar _ _ Heph Hpe) as Hlp.
  exists (pe ++ nonce_bytes ++ c). split; [done|]. split; [done|].
  assert (Hlen : length (pe ++ nonce_bytes ++ c) = 93%nat) by (rewrite !length_app; lia).
  split; [done|]. split.
  - unfold unseal. rewrite Hlen, decide_False by (unfold MIN_LEN, HEADER_LEN; lia).
    rewrite (take_app_length' pe _ 33), (drop_app_length' pe _ 33) by done.
    rewrite Hso. rewrite (take_app_length' nonce_bytes _ (HEADER_LEN - 33)) by done.
    rewrite app_assoc, (drop_app_length' (pe ++ nonce_bytes) _ HEADER_LEN) by (rewrite length_app; unfold HEADER_LEN; lia).
    rewrite (aes_decrypt_encrypt _ _ _ _ Hc). cbn [ok_or mbind outcome_bind].
    rewrite Hgms, decide_False by naive_solver. by destruct h.
  - intros n Hn. unfold unseal. rewrite decide_True; [done|]. rewrite length_take. lia.
Qed.
