(* ===== verification/KeyTree.v ===== *)
(** Trees of keys: [key_protocol/src/key_management/key_tree/mod.rs] and
    [traits.rs].

    A [KeyTree] maps chain indices to key nodes and account ids to chain
    indices.  The trait [KeyTreeNode] is a class; its functions can panic, as
    key derivation does for digests that are not valid scalars. *)

From S2P Require Import Prelude Bytes Crypto Account Ids Host Transactions ChainIndex KeyDerivation.

(** ** traits.rs *)
Class KeyTreeNode (N : Type) := {
  from_seed : list byte -> guest N;
  derive_child : N -> Z -> guest N;
  account_ids : N -> list AccountId;
}.
#[global] Instance ChildKeysPublic_node `{HmacSha512, K256, Sha256} : KeyTreeNode ChildKeysPublic := {
  from_seed := public_root;
  derive_child := public_nth_child;
  account_ids k := [public_account_id k];
}.
#[global] Instance ChildKeysPrivate_node `{HmacSha512, K256, Sha256} : KeyTreeNode ChildKeysPrivate := {
  from_seed := private_root;
  derive_child := private_nth_child;
  account_ids := private_account_ids;
}.

(** ** mod.rs *)
Record KeyTree (N : Type) := mk_KeyTree {
  key_map : gmap ChainIndex N;
  account_id_map : gmap AccountId ChainIndex;
}.
#[global] Instance KeyTree_eq_dec {N} `{EqDecision N} : EqDecision (KeyTree N).
Proof. solve_decision. Defined.
Arguments mk_KeyTree {N} _ _.
Arguments key_map {N} _.
Arguments account_id_map {N} _.

Section Tree.
Context {N : Type} `{KeyTreeNode N}.

(** [for account_id in account_ids { account_id_map.insert(account_id, cci) }] *)
Definition insert_ids (ids : list AccountId) (cci : ChainIndex) (m : gmap AccountId ChainIndex) :
    gmap AccountId ChainIndex :=
  foldl (fun m id => <[id := cci]> m) m ids.
Definition add_node (cci : ChainIndex) (node : N) (t : KeyTree N) : KeyTree N :=
  mk_KeyTree (<[cci := node]> (key_map t)) (insert_ids (account_ids node) cci (account_id_map t)).

(** [new_from_root], [new] *)
Definition new_from_root (root : N) : KeyTree N :=
  mk_KeyTree {[ ChainIndex.root := root ]} (insert_ids (account_ids root) ChainIndex.root ∅).
Definition KeyTree_new (s : SeedHolder) : guest (KeyTree N) :=
  seed_fit ← expect (if decide (length (seed s) = 64%nat) then Some (seed s) else None)
               "SeedHolder seed is 64 bytes long";
  root_keys ← from_seed seed_fit;
  Ok (new_from_root root_keys).

Definition contains (t : KeyTree N) (c : ChainIndex) : bool := bool_decide (is_Some (key_map t !! c)).

(** [u32::midpoint] *)
Definition midpoint (a b : Z) : Z := (a + b) / 2.

(** The binary search for the last child.  [None]: out of fuel; [Ok None]: the
    [?] of [next_in_line] returned. *)
Fixpoint child_search (fuel : nat) (t : KeyTree N) (parent_id : ChainIndex) (right left_border right_border : Z) :
    option (guest (option Z)) :=
  match fuel with
  | O => None
  | S fuel =>
      let rightmost_child := ChainIndex.nth_child parent_id right in
      let rightmost_ref := contains t rightmost_child in
      match ChainIndex.next_in_line rightmost_child with
      | None => Some (Ok None)
      | Some next =>
          match rightmost_ref, contains t next with
          | true, true => child_search fuel t parent_id (midpoint right right_border) right right_border
          | true, false => Some (Ok (checked_add 32 right 1))
          | false, false => child_search fuel t parent_id (midpoint left_border right) left_border right
          | false, true => Some (Panic "internal error: entered unreachable code")
          end
      end
  end.
Definition CHILD_FUEL : nat := 35.
Definition find_next_last_child_of_id (t : KeyTree N) (parent_id : ChainIndex) : guest (option Z) :=
  if negb (contains t parent_id) then Ok None
  else if negb (contains t (ChainIndex.nth_child parent_id 0)) then Ok (Some 0)
  else default (Panic "out of fuel") (child_search CHILD_FUEL t parent_id (u32_max - 1) 0 u32_max).

(** Mutators return the tree with their result. *)
Definition generate_new_node (t : KeyTree N) (parent_cci : ChainIndex) : guest (KeyTree N * option ChainIndex) :=
  match key_map t !! parent_cci with
  | None => Ok (t, None)
  | Some parent_keys =>
      o ← find_next_last_child_of_id t parent_cci;
      next_child_id ← expect o "Can be None only if parent is not present";
      let next_cci := ChainIndex.nth_child parent_cci next_child_id in
      child_keys ← derive_child parent_keys next_child_id;
      Ok (add_node next_cci child_keys t, Some next_cci)
  end.

Definition fill_node (t : KeyTree N) (chain_index : ChainIndex) : guest (KeyTree N * option ChainIndex) :=
  match ChainIndex.parent chain_index ≫= fun p => key_map t !! p, last chain_index with
  | Some parent_keys, Some child_id =>
      child_keys ← derive_child parent_keys child_id;
      Ok (add_node chain_index child_keys t, Some chain_index)
  | _, _ => Ok (t, None)
  end.

(** [find_next_slot_layered]; [None]: out of fuel. *)
Fixpoint slot_search `{ChainIndex.Itertools} (fuel : nat) (t : KeyTree N) (depth : nat) : option (guest ChainIndex) :=
  match fuel with
  | O => None
  | S fuel =>
      match List.find (fun c => negb (contains t c)) (ChainIndex.chain_ids_at_depth_rev depth) with
      | Some chain_id => Some (Ok chain_id)
      | None =>
          match checked_add 64 (Z.of_nat depth) 1 with
          | Some _ => slot_search fuel t (S depth)
          | None => Some (Panic "Max depth reached")
          end
      end
  end.
(** Every depth has an index, so that a tree with [n] nodes leaves one of the
    first [n + 1] depths incomplete. *)
Definition find_next_slot_layered `{ChainIndex.Itertools} (t : KeyTree N) : guest ChainIndex :=
  default (Panic "out of fuel") (slot_search (S (size (key_map t))) t 1).
Definition generate_new_node_layered `{ChainIndex.Itertools} (t : KeyTree N) : guest (KeyTree N * option ChainIndex) :=
  slot ← find_next_slot_layered t; fill_node t slot.

(** [generate_tree_for_depth]: the inner loop adds the children of [curr_id];
    the outer one pops the stack, whose top is the head of the list. *)
Fixpoint children_loop `{OverflowChecks} (fuel : nat) (depth : Z) (t : KeyTree N) (curr_id next_id : ChainIndex)
    (id_stack : list ChainIndex) : option (guest (KeyTree N * list ChainIndex)) :=
  match fuel with
  | O => None
  | S fuel =>
      match ChainIndex.depth (E := Empty_set) next_id with
      | Ok d =>
          if decide (d < depth) then
            match generate_new_node t curr_id with
            | Ok (t, _) =>
                match ChainIndex.next_in_line next_id with
                | Some id => children_loop fuel depth t curr_id id (next_id :: id_stack)
                | None => Some (Ok (t, next_id :: id_stack))
                end
            | Err e => match e with end
            | Panic msg => Some (Panic msg)
            end
          else Some (Ok (t, id_stack))
      | Err e => match e with end
      | Panic msg => Some (Panic msg)
      end
  end.
Fixpoint nodes_loop `{OverflowChecks} (fuel : nat) (depth : Z) (t : KeyTree N) (id_stack : list ChainIndex) :
    option (guest (KeyTree N)) :=
  match fuel with
  | O => None
  | S fuel =>
      match id_stack with
      | [] => Some (Ok t)
      | curr_id :: id_stack =>
          match children_loop (S (Z.to_nat depth)) depth t curr_id (ChainIndex.nth_child curr_id 0) id_stack with
          | Some (Ok (t, id_stack)) => nodes_loop fuel depth t id_stack
          | Some (Err e) => match e with end
          | Some (Panic msg) => Some (Panic msg)
          | None => None
          end
      end
  end.
Definition generate_tree_for_depth `{OverflowChecks} (t : KeyTree N) (depth : Z) : guest (KeyTree N) :=
  default (Panic "out of fuel") (nodes_loop (S (2 ^ Z.to_nat depth)) depth t [ChainIndex.root]).

Definition get_node (t : KeyTree N) (id : AccountId) : option N :=
  account_id_map t !! id ≫= fun chain_id => key_map t !! chain_id.
(** Assignment through [get_node_mut]. *)
Definition update_node (t : KeyTree N) (id : AccountId) (f : N -> N) : KeyTree N :=
  match account_id_map t !! id with
  | Some chain_id => mk_KeyTree (alter f chain_id (key_map t)) (account_id_map t)
  | None => t
  end.

Definition tree_insert (t : KeyTree N) (id : AccountId) (chain_index : ChainIndex) (node : N) : KeyTree N :=
  mk_KeyTree (<[chain_index := node]> (key_map t)) (<[id := chain_index]> (account_id_map t)).
Definition tree_remove (t : KeyTree N) (addr : AccountId) : KeyTree N * option N :=
  match account_id_map t !! addr with
  | None => (t, None)
  | Some chain_index =>
      (mk_KeyTree (delete chain_index (key_map t)) (delete addr (account_id_map t)), key_map t !! chain_index)
  end.
End Tree.

(** ** [impl KeyTree<ChildKeysPublic>] *)
Section Public.
Context `{HmacSha512, K256, Sha256}.

Definition with_account_id (r : guest (KeyTree ChildKeysPublic * option ChainIndex)) :
    guest (KeyTree ChildKeysPublic * option (AccountId * ChainIndex)) :=
  '(t, o) ← r;
  Ok (t, cci ← o; node ← key_map t !! cci; account_id ← head (account_ids node); Some (account_id, cci)).
Definition generate_new_public_node (t : KeyTree ChildKeysPublic) (parent_cci : ChainIndex) :=
  with_account_id (generate_new_node t parent_cci).
Definition generate_new_public_node_layered `{ChainIndex.Itertools} (t : KeyTree ChildKeysPublic) :=
  with_account_id (generate_new_node_layered t).

(** [cleanup_tree_remove_uninit_layered].  [get_account] is a call to the
    sequencer, with errors of any type.  The flag tells whether the outer loop
    goes on; an error leaves the tree as it is at that point. *)
Fixpoint public_cleanup_layer {E} (get_account : AccountId -> outcome E Account)
    (t : KeyTree ChildKeysPublic) (ids : list ChainIndex) : KeyTree ChildKeysPublic * outcome E bool :=
  match ids with
  | [] => (t, Ok true)
  | id :: ids =>
      match key_map t !! id with
      | None => public_cleanup_layer get_account t ids
      | Some node =>
          match get_account (public_account_id node) with
          | Ok node_acc =>
              if decide (node_acc = Account_default) then
                public_cleanup_layer get_account (tree_remove t (public_account_id node)).1 ids
              else (t, Ok false)
          | Err e => (t, Err e)
          | Panic msg => (t, Panic msg)
          end
      end
  end.
Fixpoint public_cleanup_loop {E} `{ChainIndex.Itertools} (get_account : AccountId -> outcome E Account)
    (t : KeyTree ChildKeysPublic) (depths : list nat) : KeyTree ChildKeysPublic * outcome E () :=
  match depths with
  | [] => (t, Ok ())
  | i :: depths =>
      match public_cleanup_layer get_account t (ChainIndex.chain_ids_at_depth i) with
      | (t, Ok true) => public_cleanup_loop get_account t depths
      | (t, Ok false) => (t, Ok ())
      | (t, Err e) => (t, Err e)
      | (t, Panic msg) => (t, Panic msg)
      end
  end.
(** [(1..depth).rev()] *)
Definition depths_down (depth : nat) : list nat := reverse (seq 1 (depth - 1)).
Definition public_cleanup_tree_remove_uninit_layered {E} `{ChainIndex.Itertools} (t : KeyTree ChildKeysPublic)
    (depth : nat) (get_account : AccountId -> outcome E Account) : KeyTree ChildKeysPublic * outcome E () :=
  public_cleanup_loop get_account t (depths_down depth).

(** ** [impl KeyTree<ChildKeysPrivate>] *)
Definition register_identifier_on_node (t : KeyTree ChildKeysPrivate) (cci : ChainIndex) (i : Identifier) :
    KeyTree ChildKeysPrivate * option AccountId :=
  match key_map t !! cci with
  | None => (t, None)
  | Some node =>
      let account_id := for_regular_private_account (nullifier_public_key (priv_value node).1) i in
      if decide (is_Some (account_id_map t !! account_id)) then (t, None)
      else (mk_KeyTree (key_map t) (<[account_id := cci]> (account_id_map t)), Some account_id)
  end.

Definition uninitialized (node : ChildKeysPrivate) : bool :=
  bool_decide ((priv_value node).2 = ∅)
  || forallb (fun e => bool_decide (e.2 = Account_default)) (BTree.iter (priv_value node).2).
Fixpoint private_cleanup_layer (t : KeyTree ChildKeysPrivate) (ids : list ChainIndex) :
    KeyTree ChildKeysPrivate * bool :=
  match ids with
  | [] => (t, true)
  | id :: ids =>
      match key_map t !! id with
      | None => private_cleanup_layer t ids
      | Some node =>
          if uninitialized node then
            private_cleanup_layer
              (mk_KeyTree (delete id (key_map t))
                 (foldl (fun m addr => delete addr m) (account_id_map t) (account_ids node))) ids
          else (t, false)
      end
  end.
Fixpoint private_cleanup_loop `{ChainIndex.Itertools} (t : KeyTree ChildKeysPrivate) (depths : list nat) :
    KeyTree ChildKeysPrivate :=
  match depths with
  | [] => t
  | i :: depths =>
      match private_cleanup_layer t (ChainIndex.chain_ids_at_depth i) with
      | (t, true) => private_cleanup_loop t depths
      | (t, false) => t
      end
  end.
Definition private_cleanup_tree_remove_uninit_layered `{ChainIndex.Itertools} (t : KeyTree ChildKeysPrivate)
    (depth : nat) : KeyTree ChildKeysPrivate :=
  private_cleanup_loop t (depths_down depth).
End Public.
