(* ===== verification/UserKeyChain.v ===== *)
(** The keys and accounts of a wallet: [wallet/src/storage/key_chain.rs],
    [storage/persistent.rs] and [storage.rs].

    Every [BTreeMap] is a finite map; its iterations go through [BTree.iter].
    [Label] is its string. *)

From S2P Require Import Prelude Bytes Crypto Account Ids ProgramCore Host Encryption Transactions ChainIndex KeyDerivation GroupKeys KeyTree.

Abbreviation Label := string.

(** ** Data *)
Record ImportedPrivateAccountKey := mk_ImportedKey {
  imp_key_chain : KeyChain;
  imp_chain_index : option ChainIndex;
}.
#[global] Instance ImportedPrivateAccountKey_eq_dec : EqDecision ImportedPrivateAccountKey.
Proof. solve_decision. Defined.
#[global] Program Instance KeyChain_countable : Countable KeyChain :=
  inj_countable'
    (fun k => (ssk_value (secret_spending_key k), nullifier_secret_key (private_key_holder k),
               viewing_secret_key (private_key_holder k), npk_bytes (nullifier_public_key k),
               vpk_bytes (viewing_public_key k)))
    (fun '(s, n, v, np, vp) =>
       mk_KeyChain (mk_SecretSpendingKey s) (mk_PrivateKeyHolder n v) (mk_Npk np) (mk_Vpk vp)) _.
Next Obligation. by intros [[] [] [] []]. Qed.
#[global] Program Instance ImportedPrivateAccountKey_countable : Countable ImportedPrivateAccountKey :=
  inj_countable' (fun k => (imp_key_chain k, imp_chain_index k)) (fun '(c, i) => mk_ImportedKey c i) _.
Next Obligation. by intros []. Qed.

(** The derived order: the fields in turn.  The viewing key is a vector; it is
    closed by an element below all bytes, so that a prefix is smaller. *)
#[global] Instance ImportedPrivateAccountKey_ord : BTree.OrdKey ImportedPrivateAccountKey := fun k =>
  let c := imp_key_chain k in
  (byte_to_Z <$> (ssk_value (secret_spending_key c) ++ nullifier_secret_key (private_key_holder c)
    ++ viewing_secret_key (private_key_holder c) ++ npk_bytes (nullifier_public_key c)))
  ++ (Z.succ ∘ byte_to_Z <$> vpk_bytes (viewing_public_key c)) ++ [0]
  ++ match imp_chain_index k with None => [0] | Some i => 1 :: i end.

Record FoundPrivateAccount := mk_Found {
  found_account : Account;
  found_key_chain : KeyChain;
  found_kind : PrivateAccountKind;
  found_chain_index : option ChainIndex;
}.
Record SharedAccountEntry := mk_SharedEntry {
  group_label : Label;
  shared_identifier : Identifier;
  shared_pda_seed : option PdaSeed;
  shared_pda_program_id : option ProgramId;
  shared_account : Account;
}.
Definition set_shared_account (a : Account) (e : SharedAccountEntry) : SharedAccountEntry :=
  mk_SharedEntry (group_label e) (shared_identifier e) (shared_pda_seed e) (shared_pda_program_id e) a.

Record UserKeyChain := mk_UserKeyChain {
  imported_public_accounts : gmap AccountId PrivateKey;
  imported_private_accounts : gmap ImportedPrivateAccountKey (gmap PrivateAccountKind Account);
  public_key_tree : KeyTree ChildKeysPublic;
  private_key_tree : KeyTree ChildKeysPrivate;
  shared_private_accounts : gmap AccountId SharedAccountEntry;
  group_key_holders : gmap Label GroupKeyHolder;
  sealing_secret_key : option (list byte);
}.
Definition with_imported_public f (k : UserKeyChain) := mk_UserKeyChain (f (imported_public_accounts k))
  (imported_private_accounts k) (public_key_tree k) (private_key_tree k) (shared_private_accounts k)
  (group_key_holders k) (sealing_secret_key k).
Definition with_imported_private f (k : UserKeyChain) := mk_UserKeyChain (imported_public_accounts k)
  (f (imported_private_accounts k)) (public_key_tree k) (private_key_tree k) (shared_private_accounts k)
  (group_key_holders k) (sealing_secret_key k).
Definition with_public_tree t (k : UserKeyChain) := mk_UserKeyChain (imported_public_accounts k)
  (imported_private_accounts k) t (private_key_tree k) (shared_private_accounts k)
  (group_key_holders k) (sealing_secret_key k).
Definition with_private_tree t (k : UserKeyChain) := mk_UserKeyChain (imported_public_accounts k)
  (imported_private_accounts k) (public_key_tree k) t (shared_private_accounts k)
  (group_key_holders k) (sealing_secret_key k).
Definition with_shared f (k : UserKeyChain) := mk_UserKeyChain (imported_public_accounts k)
  (imported_private_accounts k) (public_key_tree k) (private_key_tree k) (f (shared_private_accounts k))
  (group_key_holders k) (sealing_secret_key k).
Definition with_group_keys f (k : UserKeyChain) := mk_UserKeyChain (imported_public_accounts k)
  (imported_private_accounts k) (public_key_tree k) (private_key_tree k) (shared_private_accounts k)
  (f (group_key_holders k)) (sealing_secret_key k).

Inductive KeyChainError :=
  | AccountIdNotFound (id : AccountId)
  | NoPublicRoot
  | NoPrivateRoot.

(** ** Operations *)
Section Operations.
Context `{HmacSha512, K256, Sha256}.

Definition new_with_accounts (public_tree : KeyTree ChildKeysPublic) (private_tree : KeyTree ChildKeysPrivate) :
    UserKeyChain :=
  mk_UserKeyChain ∅ ∅ public_tree private_tree ∅ ∅ None.

Definition generate_trees_for_depth `{OverflowChecks} (k : UserKeyChain) (depth : Z) : guest UserKeyChain :=
  pub ← generate_tree_for_depth (public_key_tree k) depth;
  priv ← generate_tree_for_depth (private_key_tree k) depth;
  Ok (with_private_tree priv (with_public_tree pub k)).

Definition cleanup_trees_remove_uninit_layered {E} `{ChainIndex.Itertools} (k : UserKeyChain) (depth : nat)
    (get_account : AccountId -> outcome E Account) : UserKeyChain * outcome E () :=
  let '(pub, r) := public_cleanup_tree_remove_uninit_layered (public_key_tree k) depth get_account in
  let k := with_public_tree pub k in
  match r with
  | Ok _ => (with_private_tree (private_cleanup_tree_remove_uninit_layered (private_key_tree k) depth) k, Ok ())
  | _ => (k, r)
  end.

Definition generate_new_public_transaction_private_key `{ChainIndex.Itertools} (k : UserKeyChain)
    (parent_cci : option ChainIndex) : guest (UserKeyChain * (AccountId * ChainIndex)) :=
  '(t, o) ← match parent_cci with
            | Some parent_cci => generate_new_public_node (public_key_tree k) parent_cci
            | None => generate_new_public_node_layered (public_key_tree k)
            end;
  r ← expect o (match parent_cci with
                | Some _ => "Parent must be present in a tree"
                | None => "Search for new node slot failed"
                end);
  Ok (with_public_tree t k, r).

Definition pub_account_signing_key (k : UserKeyChain) (id : AccountId) : option PrivateKey :=
  match imported_public_accounts k !! id with
  | Some key => Some key
  | None => csk <$> get_node (public_key_tree k) id
  end.

Definition create_private_accounts_key `{ChainIndex.Itertools} (k : UserKeyChain) (parent_cci : option ChainIndex) :
    guest (UserKeyChain * ChainIndex) :=
  '(t, o) ← match parent_cci with
            | Some parent_cci => generate_new_node (private_key_tree k) parent_cci
            | None => generate_new_node_layered (private_key_tree k)
            end;
  c ← expect o (match parent_cci with
                | Some _ => "Parent must be present in a tree"
                | None => "Search for new node slot failed"
                end);
  Ok (with_private_tree t k, c).

Definition generate_new_privacy_preserving_transaction_key_chain `{ChainIndex.Itertools} (k : UserKeyChain)
    (parent_cci : option ChainIndex) : guest (UserKeyChain * (AccountId * ChainIndex)) :=
  '(k, chain_index) ← create_private_accounts_key k parent_cci;
  node ← expect (key_map (private_key_tree k) !! chain_index)
           "Newly created chain index must be present in a tree";
  kind ← expect (head (BTree.keys (priv_value node).2))
           "Newly created key chain node must have at least one account";
  Ok (k, (for_private_account (nullifier_public_key (priv_value node).1) kind, chain_index)).

Definition register_identifier_on_private_key_chain (k : UserKeyChain) (cci : ChainIndex) (i : Identifier) :
    UserKeyChain * option AccountId :=
  let '(t, o) := register_identifier_on_node (private_key_tree k) cci i in (with_private_tree t k, o).

(** [private_account] and the iterators over private key chains *)
Definition found_id (f : FoundPrivateAccount) : AccountId :=
  for_private_account (nullifier_public_key (found_key_chain f)) (found_kind f).
Definition found_imported (k : UserKeyChain) : list FoundPrivateAccount :=
  e ← BTree.iter (imported_private_accounts k);
  (fun a => mk_Found a.2 (imp_key_chain e.1) a.1 (imp_chain_index e.1)) <$> BTree.iter e.2.
Definition found_in_tree (k : UserKeyChain) : list FoundPrivateAccount :=
  e ← BTree.iter (key_map (private_key_tree k));
  (fun a => mk_Found a.2 (priv_value e.2).1 a.1 (Some e.1)) <$> BTree.iter (priv_value e.2).2.
Definition private_account (k : UserKeyChain) (id : AccountId) : option FoundPrivateAccount :=
  List.find (fun f => bool_decide (found_id f = id)) (found_imported k ++ found_in_tree k).
Definition private_account_key_chain_by_index (k : UserKeyChain) (c : ChainIndex) : option KeyChain :=
  (fun node : ChildKeysPrivate => (priv_value node).1) <$> key_map (private_key_tree k) !! c.
Definition private_account_key_chains (k : UserKeyChain) :
    list (AccountId * KeyChain * option ChainIndex) :=
  (fun f => (found_id f, found_key_chain f, found_chain_index f)) <$> (found_imported k ++ found_in_tree k).

Definition add_imported_public_account (k : UserKeyChain) (private_key : PrivateKey) : guest UserKeyChain :=
  pk ← new_from_private_key private_key;
  Ok (with_imported_public <[account_id_of_public_key (public_key_value pk) := private_key]> k).

Definition add_imported_private_account (k : UserKeyChain) (key_chain : KeyChain)
    (chain_index : option ChainIndex) (i : Identifier) (a : Account) : UserKeyChain :=
  let key := mk_ImportedKey key_chain chain_index in
  let accounts := default ∅ (imported_private_accounts k !! key) in
  with_imported_private <[key := <[Regular i := a]> accounts]> k.

(** [node.value.1.entry(kind)]: an occupied and a vacant entry both end with
    the account. *)
Definition set_node_account (kind : PrivateAccountKind) (a : Account) (node : ChildKeysPrivate) : ChildKeysPrivate :=
  mk_ChildKeysPrivate ((priv_value node).1, <[kind := a]> (priv_value node).2) (priv_ccc node) (priv_cci node).

(** The first imported account with an account id. *)
Definition find_imported (k : UserKeyChain) (id : AccountId) :
    option (ImportedPrivateAccountKey * PrivateAccountKind) :=
  List.find
    (fun e => bool_decide (for_private_account (nullifier_public_key (imp_key_chain e.1)) e.2 = id))
    (e ← BTree.iter (imported_private_accounts k); (fun kind => (e.1, kind)) <$> BTree.keys e.2).

Definition insert_private_account (k : UserKeyChain) (id : AccountId) (kind : PrivateAccountKind) (a : Account) :
    outcome KeyChainError UserKeyChain :=
  match shared_private_accounts k !! id with
  | Some _ => Ok (with_shared (alter (set_shared_account a) id) k)
  | None =>
      match find_imported k id with
      | Some (key, kind) => Ok (with_imported_private (alter <[kind := a]> key) k)
      | None =>
          let t := private_key_tree k in
          match account_id_map t !! id with
          | Some chain_index =>
              node ← expect (key_map t !! chain_index) "Node must be present in a tree";
              Ok (with_private_tree
                    (mk_KeyTree (<[chain_index := set_node_account kind a node]> (key_map t)) (account_id_map t)) k)
          | None =>
              match List.find (fun e : ChainIndex * ChildKeysPrivate =>
                  bool_decide (for_private_account (nullifier_public_key (priv_value e.2).1) kind = id))
                  (BTree.iter (key_map t)) with
              | Some (ci, node) =>
                  Ok (with_private_tree
                        (mk_KeyTree (<[ci := set_node_account kind a node]> (key_map t))
                           (<[id := ci]> (account_id_map t))) k)
              | None => Err (AccountIdNotFound id)
              end
          end
      end
  end.

(** Shared accounts and group keys *)
Definition shared_private_account (k : UserKeyChain) (id : AccountId) : option SharedAccountEntry :=
  shared_private_accounts k !! id.
Definition insert_shared_private_account (k : UserKeyChain) (id : AccountId) (e : SharedAccountEntry) : UserKeyChain :=
  with_shared <[id := e]> k.
Definition update_shared_private_account_state (k : UserKeyChain) (id : AccountId) (a : Account) : UserKeyChain :=
  with_shared (alter (set_shared_account a) id) k.
Definition insert_group_key_holder (k : UserKeyChain) (label : Label) (h : GroupKeyHolder) : UserKeyChain :=
  with_group_keys <[label := h]> k.
Definition remove_group_key_holder (k : UserKeyChain) (label : Label) : UserKeyChain * option GroupKeyHolder :=
  (with_group_keys (delete label) k, group_key_holders k !! label).
Definition group_key_holder (k : UserKeyChain) (label : Label) : option GroupKeyHolder :=
  group_key_holders k !! label.
Definition set_sealing_secret_key (k : UserKeyChain) (key : list byte) : UserKeyChain :=
  mk_UserKeyChain (imported_public_accounts k) (imported_private_accounts k) (public_key_tree k)
    (private_key_tree k) (shared_private_accounts k) (group_key_holders k) (Some key).
End Operations.

(** ** Lists of accounts *)
Inductive AccountIdWithPrivacy :=
  | PublicId (id : AccountId)
  | PrivateId (id : AccountId).
#[global] Instance AccountIdWithPrivacy_eq_dec : EqDecision AccountIdWithPrivacy.
Proof. solve_decision. Defined.

Section Listing.
Context `{HmacSha512, K256, Sha256}.

Definition kc_public_account_ids (k : UserKeyChain) : list (AccountId * option ChainIndex) :=
  ((fun id => (id, None)) <$> BTree.keys (imported_public_accounts k)) ++
  ((fun e => (e.1, Some e.2)) <$> BTree.iter (account_id_map (public_key_tree k))).
Definition kc_private_account_ids (k : UserKeyChain) : list (AccountId * option ChainIndex) :=
  ((fun f => (found_id f, found_chain_index f)) <$> (found_imported k ++ found_in_tree k)) ++
  ((fun id => (id, None)) <$> BTree.keys (shared_private_accounts k)).
Definition kc_account_ids (k : UserKeyChain) : list (AccountIdWithPrivacy * option ChainIndex) :=
  ((fun e => (PublicId e.1, e.2)) <$> kc_public_account_ids k) ++
  ((fun e => (PrivateId e.1, e.2)) <$> kc_private_account_ids k).
End Listing.

(** ** storage/persistent.rs *)
Record ChildKeysPrivatePersistent := mk_PrivatePersistent {
  pers_value : KeyChain * list (PrivateAccountKind * Account);
  pers_ccc : list byte;
  pers_cci : option Z;
}.
Inductive PersistentAccountData :=
  | PersPublic (id : AccountId) (chain_index : ChainIndex) (data : ChildKeysPublic)
  | PersPrivate (id : AccountId) (chain_index : ChainIndex) (data : ChildKeysPrivatePersistent)
  | PersImportedPublic (id : AccountId) (pub_sign_key : PrivateKey)
  | PersImportedPrivate (a : Account) (key_chain : KeyChain) (chain_index : option ChainIndex)
      (identifier : Identifier).
Record KeyChainPersistentData := mk_KeyChainPersistent {
  pers_accounts : list PersistentAccountData;
  pers_sealing_secret_key : option (list byte);
  pers_group_key_holders : gmap Label GroupKeyHolder;
  pers_shared_private_accounts : gmap AccountId SharedAccountEntry;
}.

Definition to_private_persistent (n : ChildKeysPrivate) : ChildKeysPrivatePersistent :=
  mk_PrivatePersistent ((priv_value n).1, BTree.iter (priv_value n).2) (priv_ccc n) (priv_cci n).
Definition from_private_persistent (n : ChildKeysPrivatePersistent) : ChildKeysPrivate :=
  mk_ChildKeysPrivate ((pers_value n).1, BTree.from_iter (pers_value n).2) (pers_ccc n) (pers_cci n).

Section Persistence.
Context `{HmacSha512, K256, Sha256}.

(** The account ids of a tree with their nodes; an id whose node is missing is
    left out. *)
Definition tree_entries {N D} `{KeyTreeNode N} (entry : AccountId -> ChainIndex -> N -> D) (t : KeyTree N) : list D :=
  e ← BTree.iter (account_id_map t);
  match key_map t !! e.2 with Some node => [entry e.1 e.2 node] | None => [] end.

Definition to_persistent (k : UserKeyChain) : KeyChainPersistentData :=
  mk_KeyChainPersistent
    (tree_entries PersPublic (public_key_tree k) ++
     tree_entries (fun id c n => PersPrivate id c (to_private_persistent n)) (private_key_tree k) ++
     ((fun e => PersImportedPublic e.1 e.2) <$> BTree.iter (imported_public_accounts k)) ++
     (e ← BTree.iter (imported_private_accounts k);
      (fun a => PersImportedPrivate a.2 (imp_key_chain e.1) (imp_chain_index e.1) (kind_identifier a.1))
        <$> BTree.iter e.2))
    (sealing_secret_key k) (group_key_holders k) (shared_private_accounts k).

Definition public_root_of (l : list PersistentAccountData) : option ChildKeysPublic :=
  d ← List.find (fun d => match d with PersPublic _ c _ => bool_decide (c = ChainIndex.root) | _ => false end) l;
  match d with PersPublic _ _ data => Some data | _ => None end.
Definition private_root_of (l : list PersistentAccountData) : option ChildKeysPrivate :=
  d ← List.find (fun d => match d with PersPrivate _ c _ => bool_decide (c = ChainIndex.root) | _ => false end) l;
  match d with PersPrivate _ _ data => Some (from_private_persistent data) | _ => None end.

(** One iteration of the loop over the persistent accounts. *)
Definition restore_entry (k : UserKeyChain) (d : PersistentAccountData) : UserKeyChain :=
  match d with
  | PersPublic id c data => with_public_tree (tree_insert (public_key_tree k) id c data) k
  | PersPrivate id c data =>
      with_private_tree (tree_insert (private_key_tree k) id c (from_private_persistent data)) k
  | PersImportedPublic id key => with_imported_public <[id := key]> k
  | PersImportedPrivate a c i identifier => add_imported_private_account k c i identifier a
  end.

Definition from_persistent (d : KeyChainPersistentData) : outcome KeyChainError UserKeyChain :=
  public_root ← ok_or (public_root_of (pers_accounts d)) NoPublicRoot;
  private_root ← ok_or (private_root_of (pers_accounts d)) NoPrivateRoot;
  Ok (foldl restore_entry
        (mk_UserKeyChain ∅ ∅ (new_from_root public_root) (new_from_root private_root)
           (pers_shared_private_accounts d) (pers_group_key_holders d) (pers_sealing_secret_key d))
        (pers_accounts d)).
End Persistence.

(** ** storage.rs *)
Record Storage := mk_Storage {
  key_chain : UserKeyChain;
  labels : gmap Label AccountIdWithPrivacy;
  last_synced_block : BlockId;
}.
Record PersistentStorage := mk_PersistentStorage {
  pers_key_chain : KeyChainPersistentData;
  pers_last_synced_block : BlockId;
  pers_labels : gmap Label AccountIdWithPrivacy;
}.
Inductive StorageError :=
  | LabelInUse (label : Label)
  | KeyChainFailed (e : KeyChainError).

Section StorageOps.
Context `{HmacSha512, K256, Sha256}.

Definition storage_trees (s : SeedHolder) : guest UserKeyChain :=
  public_tree ← KeyTree_new s;
  private_tree ← KeyTree_new s;
  Ok (new_with_accounts public_tree private_tree).
(** [Storage::new], [restore]; the password is not used. *)
Definition Storage_new `{Bip39} (entropy : list byte) : guest (Storage * Mnemonic) :=
  '(s, m) ← SeedHolder_new_mnemonic entropy "";
  k ← storage_trees s;
  Ok (mk_Storage k ∅ 0, m).
Definition Storage_restore `{Bip39} (s : Storage) (m : Mnemonic) : guest Storage :=
  k ← storage_trees (SeedHolder_from_mnemonic m "");
  Ok (mk_Storage k ∅ (last_synced_block s)).

Definition check_label_availability (s : Storage) (label : Label) : outcome StorageError () :=
  if decide (is_Some (labels s !! label)) then Err (LabelInUse label) else Ok ().
Definition add_label (s : Storage) (label : Label) (id : AccountIdWithPrivacy) : outcome StorageError Storage :=
  match labels s !! label with
  | Some _ => Err (LabelInUse label)
  | None => Ok (mk_Storage (key_chain s) (<[label := id]> (labels s)) (last_synced_block s))
  end.
Definition resolve_label (s : Storage) (label : Label) : option AccountIdWithPrivacy := labels s !! label.
Definition labels_for_account (s : Storage) (id : AccountIdWithPrivacy) : list Label :=
  (List.filter (fun e => bool_decide (e.2 = id)) (BTree.iter (labels s))).*1.
Definition set_last_synced_block (s : Storage) (block_id : BlockId) : Storage :=
  mk_Storage (key_chain s) (labels s) block_id.

Definition storage_to_persistent (s : Storage) : PersistentStorage :=
  mk_PersistentStorage (to_persistent (key_chain s)) (last_synced_block s) (labels s).
Definition storage_from_persistent (p : PersistentStorage) : outcome StorageError Storage :=
  k ← map_err KeyChainFailed (from_persistent (pers_key_chain p));
  Ok (mk_Storage k (pers_labels p) (pers_last_synced_block p)).
End StorageOps.
