(* ===== verification/WalletSync.v ===== *)
(** The wallet and the chain: the state changes of [WalletCore] in
    [wallet/src/lib.rs] (decoding of private accounts from transactions, shared
    accounts) and the block ranges of [wallet/src/poller.rs].

    Configuration, files and the RPC client of the sequencer are not modelled;
    what the client returns is an argument. *)

From S2P Require Import Prelude Bytes Crypto Account Ids ProgramCore Borsh Host State Encryption Transactions StateDiffs Chain ChainIndex KeyDerivation GroupKeys KeyTree UserKeyChain.

Section Sync.
Context `{HmacSha512, K256, Sha256, ChaCha20}.

(** ** [sync_private_accounts_with_tx] *)

(** The accounts of one key chain among the outputs of a transaction; [ciph_id]
    counts the outputs. *)
Fixpoint received_accounts (key_chain : KeyChain) (index : option ChainIndex)
    (new_commitments : list Commitment) (ciph_id : nat) (outputs : list EncryptedAccountData) :
    guest (list (AccountId * PrivateAccountKind * Account)) :=
  match outputs with
  | [] => Ok []
  | encrypted_data :: outputs =>
      let npk := nullifier_public_key key_chain in
      if decide (view_tag encrypted_data = compute_view_tag npk (viewing_public_key key_chain)) then
        commitment ← expect (new_commitments !! ciph_id) "index out of bounds";
        shared_secret ← calculate_shared_secret_receiver key_chain (epk encrypted_data)
                          (i ← index; ChainIndex.index i);
        ciph ← expect (if decide (Z.of_nat ciph_id < 2 ^ 32) then Some (Z.of_nat ciph_id) else None)
                 "Ciphertext ID is expected to fit in u32";
        rest ← received_accounts key_chain index new_commitments (S ciph_id) outputs;
        Ok (match decrypt (ciphertext encrypted_data) shared_secret commitment ciph with
            | Some (kind, res_acc) => (for_private_account npk kind, kind, res_acc) :: rest
            | None => rest
            end)
      else received_accounts key_chain index new_commitments (S ciph_id) outputs
  end.

Definition affected_accounts (k : UserKeyChain) (m : PrivacyMessage) :
    guest (list (AccountId * PrivateAccountKind * Account)) :=
  fold_o (fun acc (e : AccountId * KeyChain * option ChainIndex) =>
      l ← received_accounts e.1.2 e.2 (priv_new_commitments m) 0 (encrypted_private_post_states m);
      Ok (acc ++ l)) [] (private_account_key_chains k).

Definition store_affected (k : UserKeyChain) (e : AccountId * PrivateAccountKind * Account) : guest UserKeyChain :=
  match insert_private_account k e.1.1 e.1.2 e.2 with
  | Ok k => Ok k
  | Err _ => Panic "Account Id should exist"
  | Panic msg => Panic msg
  end.

(** Seeds of shared regular accounts, spelled out three times in the source. *)
Definition derivation_seed (i : Identifier) : list byte :=
  hash_bytes (bstr "/LEE/v0.3/SharedAccountTag/" ++ zeros 5 ++ le_bytes 16 i).

(** [sync_shared_private_accounts_with_tx]: the keys of the shared accounts ... *)
Definition shared_keys_of (k : UserKeyChain) (id : AccountId) (entry : SharedAccountEntry) :
    guest (list (AccountId * NullifierPublicKey * ViewingPublicKey * ViewingSecretKey)) :=
  match group_key_holder k (group_label entry) with
  | None => Ok []
  | Some holder =>
      match (match shared_pda_seed entry, shared_pda_program_id entry with
             | Some pda_seed, Some program_id => Some (derive_keys_for_pda holder program_id pda_seed)
             | Some _, None => None
             | _, _ => Some (derive_keys_for_shared_account holder (derivation_seed (shared_identifier entry)))
             end) with
      | None => Ok []
      | Some keys =>
          vpk ← generate_viewing_public_key keys;
          Ok [(id, generate_nullifier_public_key keys, vpk, viewing_secret_key keys)]
      end
  end.
Definition shared_keys (k : UserKeyChain) :
    guest (list (AccountId * NullifierPublicKey * ViewingPublicKey * ViewingSecretKey)) :=
  fold_o (fun acc e => l ← shared_keys_of k e.1 e.2; Ok (acc ++ l)) [] (BTree.iter (shared_private_accounts k)).

(** ... and the outputs that one of them decrypts. *)
Fixpoint update_shared (id : AccountId) (npk : NullifierPublicKey) (vpk : ViewingPublicKey) (vsk : ViewingSecretKey)
    (new_commitments : list Commitment) (ciph_id : nat) (outputs : list EncryptedAccountData)
    (k : UserKeyChain) : guest UserKeyChain :=
  match outputs with
  | [] => Ok k
  | encrypted_data :: outputs =>
      k ← (if decide (view_tag encrypted_data = compute_view_tag npk vpk) then
             shared_secret ← SharedSecretKey_new vsk (epk_bytes (epk encrypted_data));
             commitment ← expect (new_commitments !! ciph_id) "index out of bounds";
             ciph ← expect (if decide (Z.of_nat ciph_id < 2 ^ 32) then Some (Z.of_nat ciph_id) else None)
                      "Ciphertext ID is expected to fit in u32";
             Ok (match decrypt (ciphertext encrypted_data) shared_secret commitment ciph with
                 | Some (_, new_acc) => update_shared_private_account_state k id new_acc
                 | None => k
                 end)
           else Ok k);
      update_shared id npk vpk vsk new_commitments (S ciph_id) outputs k
  end.
Definition sync_shared_private_accounts_with_tx (k : UserKeyChain) (m : PrivacyMessage) : guest UserKeyChain :=
  keys ← shared_keys k;
  fold_o (fun k (e : AccountId * NullifierPublicKey * ViewingPublicKey * ViewingSecretKey) =>
      update_shared e.1.1.1 e.1.1.2 e.1.2 e.2 (priv_new_commitments m) 0 (encrypted_private_post_states m) k)
    k keys.

Definition sync_private_accounts_with_tx (k : UserKeyChain) (tx : NSSATransaction) : guest UserKeyChain :=
  match tx with
  | PrivacyPreserving tx =>
      let m := priv_message tx in
      affected ← affected_accounts k m;
      k ← fold_o store_affected k affected;
      sync_shared_private_accounts_with_tx k m
  | _ => Ok k
  end.

(** ** [sync_to_block] *)

(** [poll_block_range]: [client] is [get_block_range] of the RPC client; the
    blocks reach the consumer before an error does, so that the result is the
    blocks received and how the stream ended.  [None]: out of fuel. *)
Fixpoint poll_block_range {E} (fuel : nat) (client : Z -> Z -> outcome E (list Block)) (block_poll_max_amount : Z)
    (chunk_start range_end : Z) : option (list Block * outcome E ()) :=
  match fuel with
  | O => None
  | S fuel =>
      let start_plus := Z.min (chunk_start + block_poll_max_amount) u64_max in
      let chunk_end := Z.min (Z.max (start_plus - 1) 0) range_end in
      match client chunk_start chunk_end with
      | Ok blocks =>
          let chunk_start := Z.min (chunk_end + 1) u64_max in
          if decide (chunk_start > range_end) then Some (blocks, Ok ())
          else
            match poll_block_range fuel client block_poll_max_amount chunk_start range_end with
            | Some (rest, r) => Some (blocks ++ rest, r)
            | None => None
            end
      | Err e => Some ([], Err e)
      | Panic msg => Some ([], Panic msg)
      end
  end.

Definition sync_block (s : Storage) (b : Block) : guest Storage :=
  k ← fold_o sync_private_accounts_with_tx (key_chain s) (body b);
  Ok (mk_Storage k (labels s) (header_block_id (header b))).

(** [sync_to_block]; its [store_persistent_data] after each block is taken to succeed. *)
Definition sync_to_block {E} (client : Z -> Z -> outcome E (list Block)) (block_poll_max_amount : Z)
    (s : Storage) (block_id : BlockId) : guest (Storage * outcome E ()) :=
  if decide (block_id <= last_synced_block s) then Ok (s, Ok ())
  else
    '(blocks, r) ← expect (poll_block_range (Z.to_nat (block_id - last_synced_block s)) client
                             block_poll_max_amount (last_synced_block s + 1) block_id) "out of fuel";
    s ← fold_o sync_block s blocks;
    Ok (s, r).

(** [sync_to_latest_block] and the restoration of keys of [wallet/src/cli/mod.rs]. *)
Definition sync_to_latest_block {E} (client : Z -> Z -> outcome E (list Block)) (get_last_block_id : outcome E BlockId)
    (block_poll_max_amount : Z) (s : Storage) : guest (Storage * outcome E BlockId) :=
  match get_last_block_id with
  | Ok latest_block_id =>
      '(s, r) ← sync_to_block client block_poll_max_amount s latest_block_id;
      Ok (s, r ;; Ok latest_block_id)
  | Err e => Ok (s, Err e)
  | Panic msg => Ok (s, Panic msg)
  end.
Definition execute_keys_restoration {E} `{OverflowChecks, ChainIndex.Itertools}
    (client : Z -> Z -> outcome E (list Block)) (get_last_block_id : outcome E BlockId)
    (get_account : AccountId -> outcome E Account) (block_poll_max_amount : Z) (s : Storage) (depth : nat) :
    guest (Storage * outcome E ()) :=
  k ← generate_trees_for_depth (key_chain s) (Z.of_nat depth);
  '(s, r) ← sync_to_latest_block client get_last_block_id block_poll_max_amount
              (mk_Storage k (labels s) (last_synced_block s));
  match r with
  | Ok _ =>
      let '(k, r) := cleanup_trees_remove_uninit_layered (key_chain s) depth get_account in
      Ok (mk_Storage k (labels s) (last_synced_block s), r)
  | Err e => Ok (s, Err e)
  | Panic msg => Ok (s, Panic msg)
  end.

(** ** The other operations of [WalletCore] on its storage *)
Record SharedAccountInfo := mk_SharedInfo {
  info_account_id : AccountId;
  info_npk : NullifierPublicKey;
  info_vpk : ViewingPublicKey;
}.
Inductive WalletError := GroupNotFound (name : Label).

Definition create_shared_pda_account (k : UserKeyChain) (group_name : Label) (pda_seed : PdaSeed)
    (program_id : ProgramId) (i : Identifier) : outcome WalletError (UserKeyChain * SharedAccountInfo) :=
  holder ← ok_or (group_key_holder k group_name) (GroupNotFound group_name);
  let keys := derive_keys_for_pda holder program_id pda_seed in
  let npk := generate_nullifier_public_key keys in
  match generate_viewing_public_key keys with
  | Ok vpk =>
      let id := for_private_pda program_id pda_seed npk i in
      Ok (insert_shared_private_account k id
            (mk_SharedEntry group_name i (Some pda_seed) (Some program_id) Account_default),
          mk_SharedInfo id npk vpk)
  | Err e => match e with end
  | Panic msg => Panic msg
  end.
(** The identifier is a random number. *)
Definition create_shared_regular_account (k : UserKeyChain) (group_name : Label) (i : Identifier) :
    outcome WalletError (UserKeyChain * SharedAccountInfo) :=
  holder ← ok_or (group_key_holder k group_name) (GroupNotFound group_name);
  let keys := derive_keys_for_shared_account holder (derivation_seed i) in
  let npk := generate_nullifier_public_key keys in
  match generate_viewing_public_key keys with
  | Ok vpk =>
      let id := for_regular_private_account npk i in
      Ok (insert_shared_private_account k id (mk_SharedEntry group_name i None None Account_default),
          mk_SharedInfo id npk vpk)
  | Err e => match e with end
  | Panic msg => Panic msg
  end.

Inductive AccDecodeData :=
  | Skip
  | Decode (secret : SharedSecretKey) (id : AccountId).
Definition decode_insert_privacy_preserving_transaction_results (k : UserKeyChain) (m : PrivacyMessage)
    (acc_decode_mask : list AccDecodeData) : guest UserKeyChain :=
  fold_o (fun k (e : nat * AccDecodeData) =>
      match e.2 with
      | Decode secret id =>
          acc_ead ← expect (encrypted_private_post_states m !! e.1) "index out of bounds";
          acc_comm ← expect (priv_new_commitments m !! e.1) "index out of bounds";
          i ← expect (if decide (Z.of_nat e.1 < 2 ^ 32) then Some (Z.of_nat e.1) else None)
                "Output index is expected to fit in u32";
          '(kind, res_acc) ← expect (decrypt (ciphertext acc_ead) secret acc_comm i)
                               "called `Option::unwrap()` on a `None` value";
          store_affected k (id, kind, res_acc)
      | Skip => Ok k
      end) k (zip (seq 0 (length acc_decode_mask)) acc_decode_mask).

Definition get_account_private (k : UserKeyChain) (id : AccountId) : option Account :=
  found_account <$> private_account k id.
Definition get_private_account_commitment (k : UserKeyChain) (id : AccountId) : option Commitment :=
  a ← match private_account k id with
      | Some found => Some (found_account found)
      | None => shared_account <$> shared_private_account k id
      end;
  Some (Commitment_new id a).
End Sync.
