(* ===== verification/TextForms.v ===== *)
(** Text forms: account ids ([nssa/core/src/account.rs]), hashes and credentials
    ([common]), and what the command line reads and prints
    ([wallet/src/account.rs], [wallet/src/cli/mod.rs]).  Base58 and hexadecimal
    are third-party crates. *)

From Stdlib Require Import Ascii.
From S2P Require Import Prelude Bytes Crypto Account Ids ProgramCore Borsh Host Chain ChainIndex KeyDerivation GroupKeys KeyTree UserKeyChain.

(** The crates [base58] and [hex]. *)
Class Base58 := {
  to_base58 : list byte -> string;
  from_base58 : string -> option (list byte);
}.
Class Base58Laws `{Base58} := from_to_base58 b : from_base58 (to_base58 b) = Some b.
Class Hex := {
  hex_encode : list byte -> string;
  hex_decode : string -> option (list byte);
}.
Class HexLaws `{Hex} := hex_decode_encode b : hex_decode (hex_encode b) = Some b.

(** [str::strip_prefix] *)
Fixpoint strip_prefix (p s : string) : option string :=
  match p, s with
  | EmptyString, _ => Some s
  | String a p, String b s => if Ascii.eqb a b then strip_prefix p s else None
  | String _ _, EmptyString => None
  end.

(** [a.splitn(2, sep)]: the part before the first separator, and the rest. *)
Fixpoint splitn2 (sep : ascii) (s : string) : string * option string :=
  match s with
  | EmptyString => (EmptyString, None)
  | String a s =>
      if Ascii.eqb a sep then (EmptyString, Some s)
      else let '(before, after) := splitn2 sep s in (String a before, after)
  end.

(** ** Account ids *)
Inductive AccountIdError :=
  | InvalidBase58
  | InvalidLength (n : nat).
Inductive AccountIdWithPrivacyParseError :=
  | InvalidFormat
  | InvalidAccountId (e : AccountIdError).
Inductive CliAccountMention :=
  | MentionId (id : AccountIdWithPrivacy)
  | MentionLabel (label : Label).

Section Accounts.
Context `{Base58}.

Definition AccountId_display (id : AccountId) : string := to_base58 (value id).
Definition AccountId_from_str (s : string) : outcome AccountIdError AccountId :=
  bytes ← ok_or (from_base58 s) InvalidBase58;
  ensure (bool_decide (length bytes = 32%nat)) (InvalidLength (length bytes)) ;;
  Ok (AccountId_new bytes).

Definition AccountIdWithPrivacy_display (id : AccountIdWithPrivacy) : string :=
  match id with
  | PublicId id => "Public/" +:+ AccountId_display id
  | PrivateId id => "Private/" +:+ AccountId_display id
  end.
Definition AccountIdWithPrivacy_from_str (s : string) :
    outcome AccountIdWithPrivacyParseError AccountIdWithPrivacy :=
  match strip_prefix "Public/" s with
  | Some stripped => id ← map_err InvalidAccountId (AccountId_from_str stripped); Ok (PublicId id)
  | None =>
      match strip_prefix "Private/" s with
      | Some stripped => id ← map_err InvalidAccountId (AccountId_from_str stripped); Ok (PrivateId id)
      | None => Err InvalidFormat
      end
  end.

Definition mention_display (m : CliAccountMention) : string :=
  match m with
  | MentionId id => AccountIdWithPrivacy_display id
  | MentionLabel label => label
  end.
(** Whatever is not an account id is a label. *)
Definition mention_from_str (s : string) : CliAccountMention :=
  match AccountIdWithPrivacy_from_str s with
  | Ok id => MentionId id
  | _ => MentionLabel s
  end.
End Accounts.

(** ** Accounts for people *)
Record HumanReadableAccount := mk_Human {
  hr_balance : Z;
  hr_program_owner : string;
  hr_data : string;
  hr_nonce : Z;
}.
Section Human.
Context `{Base58, Hex}.

Definition human_of_account (a : Account) : HumanReadableAccount :=
  mk_Human (balance a) (to_base58 (words_bytes (program_owner a))) (hex_encode (data_bytes (data a))) (nonce a).
Definition account_of_human (h : HumanReadableAccount) : guest Account :=
  decoded_program_owner ← expect (from_base58 (hr_program_owner h))
                            "Invalid base58 in HumanReadableAccount.program_owner";
  assert_ (bool_decide (length decoded_program_owner = 32%nat))
    "HumanReadableAccount.program_owner must decode to exactly 32 bytes" ;;
  '(program_owner, _) ← unwrap (read_words 8 decoded_program_owner);
  data ← expect (hex_decode (hr_data h)) "Invalid hex in HumanReadableAccount.data";
  data ← unwrap (Data_try_from data);
  Ok (mk_Account program_owner (hr_balance h) data (hr_nonce h)).
End Human.

(** ** Hashes and credentials *)
Section Hashes.
Context `{Hex}.

Definition HashType_display (h : HashType) : string := hex_encode h.
Definition HashType_from_str (s : string) : option HashType :=
  bytes ← hex_decode s;
  if decide (length bytes = 32%nat) then Some bytes else None.
End Hashes.

Record BasicAuth := mk_BasicAuth { username : string; password : option string }.
Definition BasicAuth_display (a : BasicAuth) : string :=
  username a +:+ match password a with Some p => ":" +:+ p | None => EmptyString end.
(** The third part that the source looks for is never there. *)
Definition BasicAuth_from_str (s : string) : BasicAuth :=
  let '(username, password) := splitn2 ":" s in
  mk_BasicAuth username
    (password ← password; if decide (password = EmptyString) then None else Some password).

(** ** What is printed reads back *)
Lemma strip_prefix_app p s : strip_prefix p (p +:+ s) = Some s.
Proof. induction p as [|a p IH]; [by destruct s|].
  change (String a p +:+ s) with (String a (p +:+ s)). cbn [strip_prefix]. by rewrite (Ascii.eqb_refl a). Qed.

Fixpoint has_char (c : ascii) (s : string) : bool :=
  match s with
  | EmptyString => false
  | String a s => Ascii.eqb a c || has_char c s
  end.
Lemma splitn2_none sep s : has_char sep s = false -> splitn2 sep s = (s, None).
Proof.
  induction s as [|a s IH]; [done|]. cbn [has_char splitn2]. intros [Ha Hs]%orb_false_iff. by rewrite Ha, IH.
Qed.
Lemma splitn2_app sep s rest : has_char sep s = false -> splitn2 sep (s +:+ String sep rest) = (s, Some rest).
Proof.
  induction s as [|a s IH].
  { intros _. change ("" +:+ String sep rest) with (String sep rest). cbn [splitn2]. by rewrite (Ascii.eqb_refl sep). }
  change (String a s +:+ String sep rest) with (String a (s +:+ String sep rest)). cbn [has_char splitn2]. intros [Ha Hs]%orb_false_iff. by rewrite Ha, IH.
Qed.
Lemma string_app_nil_r (s : string) : s +:+ EmptyString = s.
Proof. induction s as [|a s IH]; [done|]. change (String a s +:+ "") with (String a (s +:+ "")). by rewrite IH. Qed.

Section RoundTrips.
Context `{Base58, !Base58Laws, Hex, !HexLaws}.

Lemma AccountId_from_display id : AccountId_wf id -> AccountId_from_str (AccountId_display id) = Ok id.
Proof.
  unfold AccountId_wf, AccountId_from_str, AccountId_display. intros Hid. rewrite from_to_base58.
  cbn [ok_or mbind outcome_bind]. rewrite bool_decide_true by done. by destruct id.
Qed.

(** Text forms read back: account ids; mentions of an account of the command
    line; accounts in their human-readable form; hashes; credentials whose user
    name has no colon and whose password is not empty. *)
Theorem text_forms_roundtrip :
  (forall id, AccountId_wf id -> AccountId_from_str (AccountId_display id) = Ok id) /\
  (forall id, AccountId_wf id -> mention_from_str (mention_display (MentionId (PublicId id))) = MentionId (PublicId id) /\
     mention_from_str (mention_display (MentionId (PrivateId id))) = MentionId (PrivateId id)) /\
  (forall a, Account_wf a -> account_of_human (human_of_account a) = Ok a) /\
  (forall h, length h = 32%nat -> HashType_from_str (HashType_display h) = Some h) /\
  (forall a, has_char ":" (username a) = false -> password a <> Some EmptyString ->
     BasicAuth_from_str (BasicAuth_display a) = a).
Proof.
  split; [exact AccountId_from_display|]. split; [|split; [|split]].
  - intros id Hid. unfold mention_from_str, AccountIdWithPrivacy_from_str. cbn [mention_display AccountIdWithPrivacy_display].
    rewrite !strip_prefix_app. cbn [strip_prefix String.append]. by rewrite AccountId_from_display.
  - intros [owner b d n] ([Ho Hw] & Hb & Hd & Hn). cbn [program_owner balance data nonce] in *. unfold account_of_human, human_of_account.
    cbn [hr_program_owner hr_data hr_balance hr_nonce program_owner balance data nonce]. rewrite from_to_base58.
    cbn [expect mbind outcome_bind].
    rewrite bool_decide_true by (rewrite length_words_bytes, Ho; done). cbn [assert_ mbind outcome_bind].
    rewrite <- (app_nil_r (words_bytes owner)), read_words_app by done. cbn [unwrap mbind outcome_bind].
    rewrite hex_decode_encode. cbn [expect mbind outcome_bind].
    by rewrite (proj2 (Data_try_from_ok (data_bytes d) d)) by (by destruct d).
  - intros h Hh. unfold HashType_from_str, HashType_display. rewrite hex_decode_encode. cbn. by rewrite decide_True.
  - intros [user [p|]] Huser Hp; unfold BasicAuth_from_str, BasicAuth_display; cbn [username password] in *.
    + change (":" +:+ p) with (String ":" p). rewrite splitn2_app by done. cbn. by rewrite decide_False by congruence.
    + by rewrite string_app_nil_r, splitn2_none.
Qed.
End RoundTrips.
