(* ===== verification/TestnetState.v ===== *)
(** The genesis state of the test network: [testnet_initial_state/src/lib.rs].

    The constants are those of the code; the curve, base58 and the identifiers of
    the built-in programs are parameters.  The secret keys of the private accounts
    are checked against their spending keys with SHA-256. *)

From S2P Require Import Prelude Bytes Crypto Account Ids ProgramCore Borsh MerkleTree Host State Encryption CircuitIo Transactions StateDiffs NativePrograms Instances StateTheorems ChainIndex KeyDerivation TextForms.

Open Scope Z_scope.

Definition bytes_of (l : list Z) : list byte := byte_of_Z <$> l.
Definition PRIVATE_KEY_PUB_ACC_A : list byte := bytes_of [
  16; 162; 106; 154; 236; 125; 52; 184; 35; 100; 238; 174; 69; 197; 41; 77; 187; 10; 118; 75; 0; 11; 148;
   238; 185; 181; 133; 17; 220; 72; 124; 77].
Definition PRIVATE_KEY_PUB_ACC_B : list byte := bytes_of [
  113; 121; 64; 177; 204; 85; 229; 214; 178; 6; 109; 191; 29; 154; 63; 38; 242; 18; 244; 219; 8; 208; 35;
   136; 23; 127; 207; 237; 216; 169; 190; 27].
Definition SSK_PRIV_ACC_A : list byte := bytes_of [
  93; 13; 190; 240; 250; 33; 108; 195; 176; 40; 144; 61; 4; 28; 58; 112; 53; 161; 42; 238; 155; 27; 23; 176;
   208; 121; 15; 229; 165; 180; 99; 143].
Definition SSK_PRIV_ACC_B : list byte := bytes_of [
  48; 175; 124; 10; 230; 240; 166; 14; 249; 254; 157; 226; 208; 124; 122; 177; 203; 139; 192; 180; 43; 120;
   55; 151; 50; 21; 113; 22; 254; 83; 148; 56].
Definition NSK_PRIV_ACC_A : list byte := bytes_of [
  25; 21; 186; 59; 180; 224; 101; 64; 163; 208; 228; 43; 13; 185; 100; 123; 156; 47; 80; 179; 72; 51; 115;
   11; 180; 99; 21; 201; 48; 194; 118; 144].
Definition NSK_PRIV_ACC_B : list byte := bytes_of [
  99; 82; 190; 140; 234; 10; 61; 163; 15; 211; 179; 54; 70; 166; 87; 5; 182; 68; 117; 244; 217; 23; 99; 9; 4;
   177; 230; 125; 109; 91; 160; 30].
Definition VSK_PRIV_ACC_A : list byte := bytes_of [
  5; 85; 114; 119; 141; 187; 202; 170; 122; 253; 198; 81; 150; 8; 155; 21; 192; 65; 24; 124; 116; 98; 110;
   106; 137; 90; 165; 239; 80; 13; 222; 30].
Definition VSK_PRIV_ACC_B : list byte := bytes_of [
  205; 32; 76; 251; 255; 236; 96; 119; 61; 111; 65; 100; 75; 218; 12; 22; 17; 170; 55; 226; 21; 154; 161; 34;
   208; 74; 27; 1; 119; 13; 88; 128].
Definition VPK_PRIV_ACC_A : list byte := bytes_of [
  2; 210; 206; 38; 213; 4; 182; 198; 220; 47; 93; 148; 61; 84; 148; 250; 158; 45; 8; 81; 48; 80; 46; 230; 87;
   210; 47; 204; 76; 58; 214; 167; 81].
Definition VPK_PRIV_ACC_B : list byte := bytes_of [
  2; 79; 110; 46; 203; 29; 206; 205; 18; 86; 27; 189; 104; 103; 113; 181; 110; 53; 78; 172; 11; 171; 190; 18;
   126; 214; 81; 77; 192; 154; 58; 195; 238].
Definition NPK_PRIV_ACC_A : list byte := bytes_of [
  167; 108; 50; 153; 74; 47; 151; 188; 140; 79; 195; 31; 181; 9; 40; 167; 201; 32; 175; 129; 45; 245; 223;
   193; 210; 170; 247; 128; 167; 140; 155; 129].
Definition NPK_PRIV_ACC_B : list byte := bytes_of [
  32; 67; 72; 164; 106; 53; 66; 239; 141; 15; 52; 230; 136; 177; 2; 236; 207; 243; 134; 135; 210; 143; 87;
   232; 215; 128; 194; 120; 113; 224; 4; 165].

Definition DEFAULT_PROGRAM_OWNER : ProgramId := replicate 8 0.
Definition PUB_ACC_A_INITIAL_BALANCE : Z := 10000.
Definition PUB_ACC_B_INITIAL_BALANCE : Z := 20000.
Definition PRIV_ACC_A_INITIAL_BALANCE : Z := 10000.
Definition PRIV_ACC_B_INITIAL_BALANCE : Z := 20000.

Record PublicAccountPublicInitialData := mk_PubInitial { pub_initial_id : AccountId; pub_initial_balance : Z }.
Record PrivateAccountPublicInitialData := mk_PrivInitial { priv_initial_npk : NullifierPublicKey; priv_initial_account : Account }.
Record PublicAccountPrivateInitialData := mk_PubSecret { pub_secret_id : AccountId; pub_sign_key : PrivateKey }.
Record PrivateAccountPrivateInitialData := mk_PrivSecret {
  priv_secret_account : Account;
  priv_key_chain : KeyChain;
  priv_chain_index : option ChainIndex;
  priv_identifier : Identifier;
}.

Section Genesis.
Context `{K256, Sha256}.

(** [PrivateAccountPrivateInitialData::account_id] *)
Definition priv_secret_account_id (d : PrivateAccountPrivateInitialData) : AccountId :=
  for_regular_private_account (nullifier_public_key (priv_key_chain d)) (priv_identifier d).

Definition initial_pub_account (bytes : list byte) : guest PublicAccountPrivateInitialData :=
  key ← unwrap (PrivateKey_try_new bytes);
  public_key ← new_from_private_key key;
  Ok (mk_PubSecret (account_id_of_public_key (public_key_value public_key)) key).
Definition initial_pub_accounts_private_keys : guest (list PublicAccountPrivateInitialData) :=
  a ← initial_pub_account PRIVATE_KEY_PUB_ACC_A;
  b ← initial_pub_account PRIVATE_KEY_PUB_ACC_B;
  Ok [a; b].
Definition initial_priv_accounts_private_keys : list PrivateAccountPrivateInitialData :=
  let key_chain_1 := mk_KeyChain (mk_SecretSpendingKey SSK_PRIV_ACC_A) (mk_PrivateKeyHolder NSK_PRIV_ACC_A VSK_PRIV_ACC_A)
                       (mk_Npk NPK_PRIV_ACC_A) (mk_Vpk VPK_PRIV_ACC_A) in
  let key_chain_2 := mk_KeyChain (mk_SecretSpendingKey SSK_PRIV_ACC_B) (mk_PrivateKeyHolder NSK_PRIV_ACC_B VSK_PRIV_ACC_B)
                       (mk_Npk NPK_PRIV_ACC_B) (mk_Vpk VPK_PRIV_ACC_B) in
  [mk_PrivSecret (mk_Account DEFAULT_PROGRAM_OWNER PRIV_ACC_A_INITIAL_BALANCE Data_default 0) key_chain_1 None 0;
   mk_PrivSecret (mk_Account DEFAULT_PROGRAM_OWNER PRIV_ACC_B_INITIAL_BALANCE Data_default 0) key_chain_2 None 0].
Definition initial_commitments : list PrivateAccountPublicInitialData :=
  (fun d => mk_PrivInitial (nullifier_public_key (priv_key_chain d)) (priv_secret_account d)) <$> initial_priv_accounts_private_keys.
Definition initial_accounts : guest (list PublicAccountPublicInitialData) :=
  secrets ← initial_pub_accounts_private_keys;
  let initial_account_ids : list AccountId := pub_secret_id <$> secrets in
  a ← expect (initial_account_ids !! 0%nat) "index out of bounds";
  b ← expect (initial_account_ids !! 1%nat) "index out of bounds";
  Ok [mk_PubInitial a PUB_ACC_A_INITIAL_BALANCE; mk_PubInitial b PUB_ACC_B_INITIAL_BALANCE].
Definition initial_private_account `{BuiltinPrograms} (d : PrivateAccountPublicInitialData) : Commitment * Nullifier :=
  let account_id := for_regular_private_account (priv_initial_npk d) 0 in
  let acc := priv_initial_account d in
  let acc := mk_Account (program_id authenticated_transfer_program) (balance acc) (data acc) (nonce acc) in
  (Commitment_new account_id acc, for_account_initialization account_id).
Definition initial_state `{BuiltinPrograms, Borsh ClockAccountData} : guest V03State :=
  init_accs ← initial_accounts;
  unwrap (new_with_genesis_accounts ((fun d => (pub_initial_id d, pub_initial_balance d)) <$> init_accs)
            (initial_private_account <$> initial_commitments) 0).
(** [common::PINATA_BASE58] *)
Definition PINATA_BASE58 : string := "EfQhKQAkX2FJiwNii2WFQsGndjvF1Mzd7RuVe7QdPLw7".
Definition initial_state_testnet `{Base58, BuiltinPrograms, Borsh ClockAccountData} : guest V03State :=
  state ← initial_state;
  id ← unwrap (AccountId_from_str PINATA_BASE58);
  unwrap (add_pinata_program id state).
End Genesis.

(** ** The constants belong together *)
#[local] Existing Instance sha256_instance.
(** The secret keys of the private accounts are those of their spending keys, and
    their nullifier keys those of the secret keys; the ids of the two accounts
    differ. *)
Lemma testnet_keys_belong_together :
  Forall (fun d =>
    let k := priv_key_chain d in
    private_key_holder k = produce_private_key_holder (secret_spending_key k) None /\
    nullifier_public_key k = generate_nullifier_public_key (private_key_holder k) /\
    length (vpk_bytes (viewing_public_key k)) = 33%nat /\ Account_wf (priv_secret_account d)) initial_priv_accounts_private_keys /\
  NoDup (priv_secret_account_id <$> initial_priv_accounts_private_keys).
Proof.
  split; [|by apply (bool_decide_unpack _); vm_compute].
  repeat constructor; try (apply (bool_decide_unpack _); vm_compute; exact I).
Qed.

(** The genesis states: both are built, satisfy the state invariant, and hold the
    commitments of the two private accounts, which their keys open once they belong to
    the transfer program; the accounts cannot be initialized again.  The state of
    the test network has the pinata and its program on top, so that a node that
    starts from the one and a node that starts from the other disagree. *)
Lemma testnet_genesis `{K256, !K256Laws, BuiltinPrograms, Borsh ClockAccountData, Base58} pinata_id :
  is_valid_key PRIVATE_KEY_PUB_ACC_A = true -> is_valid_key PRIVATE_KEY_PUB_ACC_B = true ->
  Z.of_nat (length (borsh_to_vec (mk_ClockData 0 0))) <= DATA_MAX_LENGTH ->
  AccountId_from_str PINATA_BASE58 = Ok pinata_id ->
  exists st st', initial_state = Ok st /\ initial_state_testnet = Ok st' /\
    state_inv st (DUMMY_COMMITMENT :: ((fun d => Commitment_new (priv_secret_account_id d)
      (mk_Account (program_id authenticated_transfer_program) (balance (priv_secret_account d)) Data_default 0)) <$>
        initial_priv_accounts_private_keys)) /\
    (forall n, n ∈ (private_state st).2 <-> n ∈ (for_account_initialization ∘ priv_secret_account_id) <$> initial_priv_accounts_private_keys) /\
    private_state st' = private_state st /\
    public_state st' = <[pinata_id := mk_Account (program_id pinata_program) 1500000 (mk_Data (replicate 33 Byte.x03)) 0]> (public_state st) /\
    programs st' = <[program_id pinata_program := pinata_program]> (programs st).
Proof.
  intros Ha Hb Hclk Hid.
  assert (Hpub : forall k, is_valid_key k = true -> exists d, initial_pub_account k = Ok d).
  { intros k Hk. unfold initial_pub_account, PrivateKey_try_new. rewrite Hk. cbn [unwrap mbind outcome_bind].
    apply bool_decide_eq_true in Hk as [s Hs]. unfold new_from_private_key. cbn [private_key_value]. rewrite Hs.
    destruct (secret_key_public k s Hs) as [x Hx]. cbn [expect mbind outcome_bind]. rewrite Hx. by eexists. }
  destruct (Hpub _ Ha) as [a Hpa], (Hpub _ Hb) as [b Hpb].
  destruct (genesis_state_inv [(pub_secret_id a, PUB_ACC_A_INITIAL_BALANCE); (pub_secret_id b, PUB_ACC_B_INITIAL_BALANCE)]
    (initial_private_account <$> initial_commitments) 0) as (st & Hst & Hinv & Hnull & _); [by cbn; lia|done|].
  assert (Hinit : initial_state = Ok st).
  { unfold initial_state, initial_accounts, initial_pub_accounts_private_keys. rewrite Hpa, Hpb.
    change (unwrap (E := Empty_set) (new_with_genesis_accounts [(pub_secret_id a, PUB_ACC_A_INITIAL_BALANCE);
      (pub_secret_id b, PUB_ACC_B_INITIAL_BALANCE)] (initial_private_account <$> initial_commitments) 0) = Ok st).
    by rewrite Hst. }
  eexists st, _. split; [done|]. split.
  { unfold initial_state_testnet. rewrite Hinit, Hid. cbn [mbind outcome_bind unwrap]. unfold add_pinata_program, pinata_data, Data_try_from.
    rewrite decide_False by (unfold DATA_MAX_LENGTH; cbn; lia). reflexivity. }
  split; [exact Hinv|]. split; [exact Hnull|]. split; [|split]; reflexivity.
Qed.
