(* ===== verification/KeyTreeFacts.v ===== *)
(** Facts about trees of keys: their shape, the search for the last child and
    for the next free slot. *)

From S2P Require Import Prelude Bytes Crypto Account Ids Host Transactions ChainIndex KeyDerivation KeyTree.

Section Facts.
Context {N : Type} `{KeyTreeNode N}.
Implicit Types t : KeyTree N.
Implicit Types p c : ChainIndex.

(** ** The shape of a tree *)
Definition present t c : Prop := is_Some (key_map t !! c).

(** The root is there, every node has its parent, and the children of a node
    are numbered without gaps. *)
Record shape t : Prop := mk_shape {
  shape_root : present t ChainIndex.root;
  shape_wf c : present t c -> ChainIndex_wf c;
  shape_parent p i : present t (p ++ [i]) -> present t p;
  shape_gap p i : present t (p ++ [i]) -> 0 < i -> present t (p ++ [i - 1]);
}.

Lemma contains_present t c : contains t c = true <-> present t c.
Proof. unfold contains. by rewrite bool_decide_eq_true. Qed.
Lemma contains_absent t c : contains t c = false <-> ~ present t c.
Proof. unfold contains. by rewrite bool_decide_eq_false. Qed.

(** A decidable downward closed set of non-negative numbers with a bound is an
    initial segment. *)
Lemma initial_segment (P : Z -> Prop) `{!forall z, Decision (P z)} n :
  0 <= n -> (forall z, P z -> 0 < z -> P (z - 1)) -> (forall z, n <= z -> ~ P z) ->
  exists k, 0 <= k <= n /\ forall z, 0 <= z -> P z <-> z < k.
Proof.
  intros Hn Hdown. revert n Hn. apply (natlike_ind (fun n => (forall z, n <= z -> ~ P z) ->
    exists k, 0 <= k <= n /\ forall z, 0 <= z -> P z <-> z < k)).
  - intros Hno. exists 0. split; [lia|]. intros z Hz. split; [intros Hp; by destruct (Hno z Hz)|lia].
  - intros n Hn IH Hno. destruct (decide (P n)) as [Hp|Hp].
    + exists (Z.succ n). split; [lia|]. intros z Hz. split.
      { intros Hz'. destruct (decide (z < Z.succ n)); [done|]. destruct (Hno z); [lia|done]. }
      intros Hlt. assert (Hgo : forall m, 0 <= m -> m <= n -> P (n - m)).
      { apply (natlike_ind (fun m => m <= n -> P (n - m))); [by rewrite Z.sub_0_r|].
        intros m Hm IHm Hle. replace (n - Z.succ m) with ((n - m) - 1) by lia. apply Hdown; [apply IHm|]; lia. }
      replace z with (n - (n - z)) by lia. apply Hgo; lia.
    + destruct IH as (k & Hk & Hall).
      { intros z Hz. destruct (decide (z = n)) as [->|]; [done|]. apply Hno. lia. }
      exists k. split; [lia|done].
Qed.

(** The children of a node are the first [k] ones. *)
Lemma children t p : shape t ->
  exists k, 0 <= k <= 2 ^ 32 /\ forall i, 0 <= i -> present t (p ++ [i]) <-> i < k.
Proof.
  intros Hs. apply (initial_segment (fun i => present t (p ++ [i])) (2 ^ 32)); [lia|..].
  - intros i. apply (shape_gap t Hs).
  - intros i Hi Hp%(shape_wf t Hs). apply Forall_app in Hp as [_ [[_ Hlt] _]%Forall_cons]. lia.
Qed.

(** ** The binary search *)
Lemma child_search_step t p k n : forall l r,
  (forall i, 0 <= i -> present t (p ++ [i]) <-> i < k) ->
  0 <= l < k -> k <= r <= u32_max -> r - l <= 2 ^ Z.of_nat n ->
  child_search (S n) t p (midpoint l r) l r = Some (Ok (Some k)).
Proof.
  unfold u32_max. induction n as [|n IH]; intros l r Hk Hl Hr Hgap;
    pose proof (Z.div_mod (l + r) 2 ltac:(lia)); pose proof (Z.mod_pos_bound (l + r) 2 ltac:(lia));
    set (m := midpoint l r); assert (Hm : 2 * m <= l + r < 2 * m + 2) by (unfold m, midpoint; lia).
  - change (2 ^ Z.of_nat 0) with 1 in Hgap. assert (m = l) as -> by lia. assert (k = l + 1) as -> by lia.
    cbn [child_search]. unfold ChainIndex.nth_child. rewrite ChainIndex.next_in_line_snoc by lia.
    rewrite (proj2 (contains_present t (p ++ [l]))) by (apply Hk; lia).
    rewrite (proj2 (contains_absent t (p ++ [l + 1]))) by (rewrite Hk; lia).
    by rewrite (proj2 (checked_add_Some 32 l 1 (l + 1))) by lia.
  - replace (Z.of_nat (S n)) with (Z.succ (Z.of_nat n)) in Hgap by lia.
    rewrite Z.pow_succ_r in Hgap by lia. set (f := S n) in *. cbn [child_search].
    unfold ChainIndex.nth_child. rewrite ChainIndex.next_in_line_snoc by lia.
    destruct (decide (m + 1 < k)); [|destruct (decide (m < k))].
    + rewrite !(proj2 (contains_present t _)) by (apply Hk; lia). apply IH; [done|lia..].
    + rewrite (proj2 (contains_present t (p ++ [m]))) by (apply Hk; lia).
      rewrite (proj2 (contains_absent t (p ++ [m + 1]))) by (rewrite Hk; lia).
      rewrite (proj2 (checked_add_Some 32 m 1 (m + 1))) by lia. do 3 f_equal. lia.
    + rewrite !(proj2 (contains_absent t _)) by (rewrite Hk; lia). apply IH; [done|lia..].
Qed.

Lemma child_search_first t p k n :
  (forall i, 0 <= i -> present t (p ++ [i]) <-> i < k) -> 0 < k <= u32_max ->
  u32_max - 1 <= 2 ^ Z.of_nat n ->
  child_search (S (S n)) t p (u32_max - 1) 0 u32_max = Some (Ok (Some k)).
Proof.
  intros Hk Hk0 Hn. pose proof (child_search_step t p k n 0 (u32_max - 1) Hk) as Hstep.
  set (f := S n) in *. cbn [child_search]. unfold ChainIndex.nth_child.
  rewrite ChainIndex.next_in_line_snoc by (unfold u32_max; lia).
  rewrite (proj2 (contains_absent t (p ++ [u32_max - 1 + 1]))) by (rewrite Hk by (unfold u32_max; lia); lia).
  destruct (decide (u32_max - 1 < k)).
  - rewrite (proj2 (contains_present t _)) by (apply Hk; [unfold u32_max; lia|done]).
    replace k with (u32_max - 1 + 1) by lia. done.
  - rewrite (proj2 (contains_absent t _)) by (rewrite Hk by (unfold u32_max; lia); lia).
    apply Hstep; lia.
Qed.

(** With fewer than [2^32] children the search ends within its fuel and returns
    their number. *)
Lemma find_next_last_child t p :
  shape t -> present t p -> ~ present t (p ++ [u32_max]) ->
  exists k, find_next_last_child_of_id t p = Ok (Some k) /\ 0 <= k <= u32_max /\
    forall i, 0 <= i -> present t (p ++ [i]) <-> i < k.
Proof.
  intros Hs Hp Hmax. destruct (children t p Hs) as (k & Hk0 & Hk). exists k.
  assert (Hkmax : k <= u32_max) by (rewrite Hk in Hmax by done; lia).
  split; [|split; [lia|done]]. unfold find_next_last_child_of_id.
  rewrite (proj2 (contains_present t p) Hp). cbn [negb].
  unfold ChainIndex.nth_child. destruct (contains t (p ++ [0])) eqn:Hzero; cbn [negb].
  - apply contains_present in Hzero. rewrite Hk in Hzero by lia.
    unfold CHILD_FUEL. by rewrite (child_search_first t p k 33 Hk) by (unfold u32_max in *; lia).
  - apply contains_absent in Hzero. rewrite Hk in Hzero by lia. do 2 f_equal. lia.
Qed.

(** ** Adding nodes *)
Lemma present_add t c node d : present (add_node c node t) d <-> d = c \/ present t d.
Proof.
  unfold present, add_node. cbn [key_map]. destruct (decide (d = c)) as [->|Hne].
  - rewrite lookup_insert_eq. split; [by left|by eexists].
  - rewrite lookup_insert_ne by done. naive_solver.
Qed.

Lemma add_node_shape t p i node :
  shape t -> present t p -> in_u 32 i -> (0 < i -> present t (p ++ [i - 1])) -> shape (add_node (p ++ [i]) node t).
Proof.
  intros Hs Hp Hi Hprev. constructor.
  - apply present_add. right. apply Hs.
  - intros c [->|Hc]%present_add; [|by apply (shape_wf t Hs)].
    apply Forall_app. split; [by apply (shape_wf t Hs)|by apply Forall_singleton].
  - intros q j [[-> _]%List.app_inj_tail|Hc]%present_add; apply present_add; right; [done|].
    by apply (shape_parent t Hs q j).
  - intros q j [[-> ->]%List.app_inj_tail|Hc]%present_add Hj; apply present_add; right; [by apply Hprev|].
    by apply (shape_gap t Hs q j).
Qed.

Lemma insert_ids_lookup ids c (m : gmap AccountId ChainIndex) id :
  insert_ids ids c m !! id = if decide (id ∈ ids) then Some c else m !! id.
Proof.
  unfold insert_ids. revert m. induction ids as [|x ids IH]; intros m; cbn [foldl].
  { by rewrite decide_False by apply not_elem_of_nil. }
  rewrite IH. destruct (decide (id ∈ ids)) as [Hin|Hin].
  - by rewrite decide_True by (by right).
  - destruct (decide (id = x)) as [->|Hne].
    + rewrite lookup_insert_eq. by rewrite decide_True by left.
    + rewrite lookup_insert_ne by done. rewrite decide_False; [done|]. by intros [->|]%elem_of_cons.
Qed.

(** The account ids of a tree are exactly those that its nodes derive, and each
    leads to its node. *)
Definition accounts_ok t : Prop := forall id c,
  account_id_map t !! id = Some c <-> exists node, key_map t !! c = Some node /\ id ∈ account_ids node.

(** A node whose account ids are not in use yet. *)
Definition fresh_ids t (node : N) : Prop := forall id, id ∈ account_ids node -> account_id_map t !! id = None.

Lemma add_node_accounts t c node :
  accounts_ok t -> ~ present t c -> fresh_ids t node -> accounts_ok (add_node c node t).
Proof.
  intros Hok Hc Hfresh id d. cbn [add_node key_map account_id_map].
  rewrite insert_ids_lookup. destruct (decide (d = c)) as [->|Hne].
  - rewrite lookup_insert_eq. case_decide as Hin; [naive_solver|]. rewrite (Hok id c). split.
    + intros (n & Hn & _). destruct Hc. by eexists.
    + intros (n & [= <-] & ?). done.
  - rewrite lookup_insert_ne by done. case_decide as Hin; [|apply Hok]. split; [intros [= ->]; done|].
    intros Hd. apply Hok in Hd. by rewrite (Hfresh id Hin) in Hd.
Qed.

Lemma new_from_root_shape (r : N) : shape (new_from_root r).
Proof.
  assert (Hp : forall c, present (new_from_root r) c <-> c = ChainIndex.root).
  { intros c. unfold present, new_from_root. cbn [key_map]. rewrite lookup_singleton_is_Some. naive_solver. }
  constructor.
  - by apply Hp.
  - intros c ->%Hp. by constructor.
  - intros p i []%Hp%app_eq_nil. done.
  - intros p i []%Hp%app_eq_nil. done.
Qed.

Lemma new_from_root_accounts (r : N) : accounts_ok (new_from_root r).
Proof.
  intros id c. cbn [new_from_root key_map account_id_map]. rewrite insert_ids_lookup, lookup_empty.
  case_decide as Hin; split.
  - intros [= <-]. exists r. by rewrite lookup_singleton_eq.
  - intros (n & [<- <-]%lookup_singleton_Some & _). done.
  - done.
  - by intros (n & [<- <-]%lookup_singleton_Some & ?).
Qed.

(** ** Generating nodes *)

(** The specification of runs whose only panics are those of key derivation. *)
Definition run_spec {A} (P : A -> Prop) (m : guest A) : Prop :=
  match m with
  | Ok a => P a
  | Err _ => False
  | Panic msg => exists (node : N) i, derive_child node i = Panic msg
  end.

Lemma run_spec_derive (node : N) i : run_spec (fun child => derive_child node i = Ok child) (derive_child node i).
Proof. destruct (derive_child node i) as [a|[]|msg] eqn:Hd; [done|]. by exists node, i. Qed.
Lemma run_spec_bind {A B} (P : A -> Prop) (Q : B -> Prop) m (f : A -> guest B) :
  run_spec P m -> (forall a, P a -> run_spec Q (f a)) -> run_spec Q (m ≫= f).
Proof. destruct m; cbn; naive_solver. Qed.

Lemma generate_new_node_spec t p :
  shape t -> present t p -> ~ present t (p ++ [u32_max]) ->
  run_spec (fun r => exists i parent child, in_u 32 i /\ key_map t !! p = Some parent /\
      derive_child parent i = Ok child /\ r = (add_node (p ++ [i]) child t, Some (p ++ [i])) /\
      (forall j, 0 <= j -> present t (p ++ [j]) <-> j < i) /\ shape r.1)
    (generate_new_node t p).
Proof.
  intros Hs Hp Hmax. destruct (find_next_last_child t p Hs Hp Hmax) as (k & Hf & Hk & Hall).
  destruct Hp as [parent Hparent]. unfold generate_new_node. rewrite Hparent, Hf. cbn [mbind outcome_bind expect].
  eapply run_spec_bind; [apply run_spec_derive|]. intros child Hd. cbn [run_spec].
  exists k, parent, child. split; [unfold in_u, u32_max in *; lia|]. split; [done|]. split; [done|].
  split; [done|]. split; [done|]. cbn [fst]. apply add_node_shape; [done|by eexists|unfold in_u, u32_max in *; lia|].
  intros Hpos. apply Hall; lia.
Qed.

(** ** Layered generation *)
Section Layered.
Context `{ChainIndex.Itertools, !ChainIndex.ItertoolsLaws}.

Definition layer_full t (d : nat) : Prop := forall c, ChainIndex.at_depth d c -> present t c.

Lemma slot_search_spec t fuel d :
  Z.of_nat (d + fuel) < 2 ^ 32 -> (exists j, (d <= j < d + fuel)%nat /\ ~ layer_full t j) ->
  exists j c, slot_search fuel t d = Some (Ok c) /\ (d <= j)%nat /\ ChainIndex.at_depth j c /\ ~ present t c /\
    forall i, (d <= i < j)%nat -> layer_full t i.
Proof.
  revert d. induction fuel as [|fuel IH]; intros d Hd (j & Hj & Hfull); [lia|]. cbn [slot_search].
  destruct (List.find _ _) as [c|] eqn:Hf.
  - apply List.find_some in Hf as [Hin%list_elem_of_In Habs].
    apply ChainIndex.elem_of_chain_ids_rev in Hin; [|lia].
    exists d, c. split; [done|]. split; [done|]. split; [done|]. split; [|lia].
    apply contains_absent. by destruct (contains t c).
  - assert (Hlayer : layer_full t d).
    { intros c Hc. apply contains_present. apply (ChainIndex.elem_of_chain_ids_rev d c ltac:(lia)) in Hc.
      apply list_elem_of_In in Hc. apply (List.find_none _ _ Hf) in Hc. by destruct (contains t c). }
    unfold checked_add. rewrite decide_True by lia.
    destruct (IH (S d)) as (j' & c & Hs & Hle & Hc & Habs & Hfulls); [lia|..].
    { exists j. split; [|done]. enough (j <> d) by lia. by intros ->. }
    exists j', c. split; [done|]. split; [lia|]. split; [done|]. split; [done|].
    intros i Hi. destruct (decide (i = d)) as [->|]; [done|]. apply Hfulls. lia.
Qed.

(** A tree of [n] nodes leaves one of the depths 1 to [n + 1] incomplete. *)
Lemma some_layer_open t :
  Z.of_nat (size (key_map t)) < 2 ^ 32 - 2 -> exists j, (1 <= j < 1 + S (size (key_map t)))%nat /\ ~ layer_full t j.
Proof.
  intros Hsize. destruct (decide (Forall (fun j => present t [Z.of_nat j]) (seq 0 (S (size (key_map t)))))) as [Hall|Hsome].
  - exfalso. set (l := (fun j => [Z.of_nat j]) <$> seq 0 (S (size (key_map t)))).
    assert (Hle : (length l <= size (dom (key_map t)))%nat).
    { rewrite <- (size_list_to_set (C := gset ChainIndex) l).
      - apply subseteq_size. intros c Hc%elem_of_list_to_set. apply elem_of_dom.
        apply list_elem_of_fmap in Hc as (j & -> & Hj). rewrite Forall_forall in Hall. by apply Hall.
      - apply NoDup_fmap_2; [intros a b [= Hab]; lia|apply NoDup_seq]. }
    unfold l in Hle. rewrite length_fmap, length_seq, size_dom in Hle. lia.
  - apply not_Forall_Exists in Hsome; [|intros; unfold present; apply _].
    apply Exists_exists in Hsome as (j & Hj%elem_of_seq & Habs). exists (S j). split; [lia|].
    intros Hfull. apply Habs, Hfull. split; [by constructor; [unfold in_u; lia|]|].
    rewrite ChainIndex.total_one. lia.
Qed.

(** Layered generation fills a free index of the smallest incomplete depth; its
    parent is there because the smaller depths are complete. *)
Lemma generate_new_node_layered_spec t :
  shape t -> Z.of_nat (size (key_map t)) < 2 ^ 32 - 2 ->
  run_spec (fun r => exists d p i parent child, ChainIndex.at_depth d (p ++ [i]) /\ (1 <= d)%nat /\
      ~ present t (p ++ [i]) /\ (forall e, (1 <= e < d)%nat -> layer_full t e) /\
      key_map t !! p = Some parent /\ derive_child parent i = Ok child /\
      r = (add_node (p ++ [i]) child t, Some (p ++ [i])) /\ shape r.1)
    (generate_new_node_layered t).
Proof.
  intros Hs Hsize. unfold generate_new_node_layered, find_next_slot_layered.
  destruct (slot_search_spec t (S (size (key_map t))) 1) as (d & c & -> & Hd & Hc & Habs & Hfull).
  { lia. }
  { by apply some_layer_open. }
  cbn [default from_option]. unfold id at 1. cbn [mbind outcome_bind]. destruct c as [|i p _] using rev_ind.
  { by destruct Habs; apply Hs. }
  assert (Hsmaller : forall q, ChainIndex_wf q -> ChainIndex.total q < Z.of_nat d -> present t q).
  { intros q Hq Hlt. destruct (decide (q = [])) as [->|Hne]; [apply Hs|].
    pose proof (ChainIndex.length_le_total q Hq). assert (length q <> 0)%nat by (by destruct q).
    apply (Hfull (Z.to_nat (ChainIndex.total q))); [lia|]. split; [done|lia]. }
  destruct Hc as [Hwf Ht]. assert (Hwf' := Hwf).
  apply Forall_app in Hwf' as [Hp [Hi _]%Forall_cons]. rewrite ChainIndex.total_app, ChainIndex.total_one in Ht.
  destruct Hi as [Hi0 Hi]. pose proof (ChainIndex.total_nonneg p Hp).
  assert (Hpp : present t p) by (apply Hsmaller; [done|lia]). destruct Hpp as [parent Hparent].
  unfold fill_node. rewrite ChainIndex.parent_snoc. cbn [mbind option_bind]. rewrite Hparent, last_snoc.
  eapply run_spec_bind; [apply run_spec_derive|]. intros child Hchild. cbn [run_spec].
  exists d, p, i, parent, child. split; [split; [done|rewrite ChainIndex.total_app, ChainIndex.total_one; lia]|].
  split; [done|]. split; [done|]. split; [done|]. split; [done|]. split; [done|]. split; [done|].
  cbn [fst]. apply add_node_shape; [done|by eexists|done|]. intros Hpos. apply Hsmaller.
  - apply Forall_app. split; [done|]. apply Forall_singleton. unfold in_u. lia.
  - rewrite ChainIndex.total_app, ChainIndex.total_one. lia.
Qed.
End Layered.
End Facts.

(** ** Whole-tree operations on trees of keys: cleanup from the deepest layer up and
    generation of all nodes below a depth. *)
(** ** Removing nodes of the deepest layer *)
Section Delete.
Context {N : Type} `{KeyTreeNode N}.
Implicit Types t : KeyTree N.
Implicit Types c : ChainIndex.

Definition depth_at_most t (d : Z) : Prop := forall c, present t c -> ChainIndex.total c <= d.

Lemma present_delete t c m d :
  present (mk_KeyTree (delete c (key_map t)) m) d <-> d <> c /\ present t d.
Proof.
  unfold present. cbn [key_map]. destruct (decide (d = c)) as [->|Hne].
  - rewrite lookup_delete_eq. split; [by intros []|naive_solver].
  - rewrite lookup_delete_ne by done. naive_solver.
Qed.

Lemma delete_deepest t c m :
  shape t -> c <> ChainIndex.root -> depth_at_most t (ChainIndex.total c) ->
  shape (mk_KeyTree (delete c (key_map t)) m).
Proof.
  intros Hs Hc Hdeep.
  assert (Hlast : forall p i, present t (p ++ [i]) -> 0 <= i).
  { intros p i Hp%(shape_wf t Hs). by apply Forall_app in Hp as [_ [[? _] _]%Forall_cons]. }
  constructor.
  - apply present_delete. split; [done|apply Hs].
  - intros d [_ Hd]%present_delete. by apply (shape_wf t Hs).
  - intros p i [Hne Hp]%present_delete. apply present_delete. split; [|by apply (shape_parent t Hs p i)].
    intros ->. pose proof (Hlast _ _ Hp). apply Hdeep in Hp.
    rewrite ChainIndex.total_app, ChainIndex.total_one in Hp. lia.
  - intros p i [Hne Hp]%present_delete Hi. apply present_delete. split; [|by apply (shape_gap t Hs p i)].
    intros Heq. apply Hdeep in Hp. rewrite <- Heq, !ChainIndex.total_app, !ChainIndex.total_one in Hp. lia.
Qed.

(** The account map after the account ids of the removed node are deleted. *)
Lemma delete_accounts t c node m :
  accounts_ok t -> key_map t !! c = Some node ->
  (forall id, m !! id = if decide (id ∈ account_ids node) then None else account_id_map t !! id) ->
  accounts_ok (mk_KeyTree (delete c (key_map t)) m).
Proof.
  intros Hok Hc Hm id d. cbn [key_map account_id_map]. rewrite Hm. case_decide as Hin.
  - split; [done|]. intros (n & [Hne Hn]%lookup_delete_Some & Hid). exfalso. apply Hne.
    assert (Hd : account_id_map t !! id = Some d) by (apply Hok; by exists n).
    assert (Hc' : account_id_map t !! id = Some c) by (apply Hok; by exists node). congruence.
  - rewrite (Hok id d). split.
    + intros (n & Hn & Hid). exists n. split; [|done]. apply lookup_delete_Some. split; [|done].
      intros <-. congruence.
    + intros (n & [_ Hn]%lookup_delete_Some & Hid). by exists n.
Qed.

(** What a cleanup does to the nodes: [removable] ones at indices [P] may go. *)
Record cleaned (removable : N -> Prop) (P : ChainIndex -> Prop) t t' : Prop := mk_cleaned {
  cleaned_shape : shape t';
  cleaned_accounts : accounts_ok t';
  cleaned_sub c node : key_map t' !! c = Some node -> key_map t !! c = Some node;
  cleaned_gone c node : key_map t !! c = Some node -> key_map t' !! c = None -> removable node /\ P c;
}.

Lemma cleaned_refl removable P t : shape t -> accounts_ok t -> cleaned removable P t t.
Proof. intros ??. constructor; [done|done|done|congruence]. Qed.

Lemma cleaned_trans removable (P Q : ChainIndex -> Prop) t1 t2 t3 :
  (forall c, P c -> Q c) -> cleaned removable P t1 t2 -> cleaned removable Q t2 t3 -> cleaned removable Q t1 t3.
Proof.
  intros HPQ [_ _ Hsub1 Hgone1] [Hs Ha Hsub2 Hgone2]. constructor; [done|done|naive_solver|].
  intros c node Hc Hno. destruct (key_map t2 !! c) as [n|] eqn:H2.
  - pose proof (Hsub1 c n H2). assert (n = node) as -> by congruence. by apply (Hgone2 c).
  - destruct (Hgone1 c node Hc H2). split; [done|by apply HPQ].
Qed.

Lemma cleaned_depth removable P t t' d : cleaned removable P t t' -> depth_at_most t d -> depth_at_most t' d.
Proof. intros [_ _ Hsub _] Hd c [n Hn]. apply Hd. eexists. by apply Hsub. Qed.

Lemma cleaned_delete (removable : N -> Prop) P t c node m :
  shape t -> accounts_ok t -> c <> ChainIndex.root -> depth_at_most t (ChainIndex.total c) ->
  key_map t !! c = Some node -> removable node -> P c ->
  (forall id, m !! id = if decide (id ∈ account_ids node) then None else account_id_map t !! id) ->
  cleaned removable P t (mk_KeyTree (delete c (key_map t)) m).
Proof.
  intros Hs Ha Hc Hdeep Hn Hrem HP Hm. constructor.
  - by apply delete_deepest.
  - by eapply delete_accounts.
  - cbn [key_map]. intros d n [_ Hd]%lookup_delete_Some. done.
  - cbn [key_map]. intros d n Hd Hno. destruct (decide (d = c)) as [->|Hne].
    + split; [congruence|done].
    + rewrite lookup_delete_ne in Hno by done. congruence.
Qed.
End Delete.

(** ** Cleanup *)
Section Cleanup.
Context `{HmacSha512, K256, Sha256}.

Definition has_depth (d : nat) (c : ChainIndex) : Prop := ChainIndex.at_depth d c.

Lemma has_depth_not_root d c : (1 <= d)%nat -> has_depth d c -> c <> ChainIndex.root.
Proof. intros Hd [_ Ht] ->. cbn in Ht. lia. Qed.

Lemma delete_all_lookup (ids : list AccountId) (m : gmap AccountId ChainIndex) id :
  foldl (fun m addr => delete addr m) m ids !! id = if decide (id ∈ ids) then None else m !! id.
Proof.
  revert m. induction ids as [|x ids IH]; intros m; cbn [foldl].
  { by rewrite decide_False by apply not_elem_of_nil. }
  rewrite IH. destruct (decide (id ∈ ids)) as [Hin|Hin].
  - by rewrite decide_True by (by right).
  - destruct (decide (id = x)) as [->|Hne].
    + rewrite lookup_delete_eq. by rewrite decide_True by left.
    + rewrite lookup_delete_ne by done. rewrite decide_False; [done|]. by intros [->|]%elem_of_cons.
Qed.

Lemma private_layer_spec d ids t :
  (1 <= d)%nat -> shape t -> accounts_ok t -> depth_at_most t (Z.of_nat d) -> Forall (has_depth d) ids ->
  let r := private_cleanup_layer t ids in
  cleaned (fun n => uninitialized n = true) (has_depth d) t r.1 /\ (r.2 = true -> forall c, c ∈ ids -> ~ present r.1 c) /\
  (r.2 = false -> exists c node, c ∈ ids /\ key_map r.1 !! c = Some node /\ uninitialized node = false).
Proof.
  intros Hd. revert t. induction ids as [|c ids IH]; intros t Hs Ha Hdeep Hids; cbn [private_cleanup_layer].
  { split; [by apply cleaned_refl|]. split; [intros _ c []%elem_of_nil|done]. }
  apply Forall_cons in Hids as [Hc Hids]. destruct (key_map t !! c) as [node|] eqn:Hn.
  - destruct (uninitialized node) eqn:Hu;
      [|split; [by apply cleaned_refl|]; split; [done|]; intros _; exists c, node; split; [by left|done]].
    assert (Hclean : cleaned (fun n => uninitialized n = true) (has_depth d) t
      (mk_KeyTree (delete c (key_map t)) (foldl (fun m addr => delete addr m) (account_id_map t) (account_ids node)))).
    { apply (cleaned_delete _ _ t c node); [done..|by eapply has_depth_not_root| |done|done|done|].
      - by destruct Hc as [_ ->].
      - intros id. apply delete_all_lookup. }
    destruct (IH _ (cleaned_shape _ _ _ _ Hclean) (cleaned_accounts _ _ _ _ Hclean)) as (Hrest & Hgone & Hkept);
      [by eapply cleaned_depth|done|].
    split; [by eapply cleaned_trans|]. split; [|intros Hf; destruct (Hkept Hf) as (e & Hex); exists e; set_solver].
    intros Htrue e [->|He]%elem_of_cons; [|by apply Hgone].
    intros [n Hp]. apply (cleaned_sub _ _ _ _ Hrest) in Hp. cbn [key_map] in Hp. by rewrite lookup_delete_eq in Hp.
  - destruct (IH t Hs Ha Hdeep Hids) as (Hrest & Hgone & Hkept). split; [done|].
    split; [|intros Hf; destruct (Hkept Hf) as (e & Hex); exists e; set_solver].
    intros Htrue e [->|He]%elem_of_cons; [|by apply Hgone].
    intros [n Hp]. apply (cleaned_sub _ _ _ _ Hrest) in Hp. congruence.
Qed.

Lemma public_layer_spec {E} (get_account : AccountId -> outcome E Account) d ids t :
  (1 <= d)%nat -> shape t -> accounts_ok t -> depth_at_most t (Z.of_nat d) -> Forall (has_depth d) ids ->
  let r := public_cleanup_layer get_account t ids in
  cleaned (fun n => get_account (public_account_id n) = Ok Account_default) (has_depth d) t r.1 /\
  (r.2 = Ok true -> forall c, c ∈ ids -> ~ present r.1 c) /\
  (r.2 = Ok false -> exists c node a, c ∈ ids /\ key_map r.1 !! c = Some node /\
     get_account (public_account_id node) = Ok a /\ a <> Account_default).
Proof.
  intros Hd. revert t. induction ids as [|c ids IH]; intros t Hs Ha Hdeep Hids; cbn [public_cleanup_layer].
  { split; [by apply cleaned_refl|]. split; [intros _ c []%elem_of_nil|done]. }
  apply Forall_cons in Hids as [Hc Hids]. destruct (key_map t !! c) as [node|] eqn:Hn.
  - destruct (get_account (public_account_id node)) as [a|e|msg] eqn:Hget;
      [|split; [by apply cleaned_refl|done]..].
    case_decide as Hu;
      [|split; [by apply cleaned_refl|]; split; [done|]; intros _; exists c, node, a; split; [by left|done]]. subst a.
    assert (Hid : account_id_map t !! public_account_id node = Some c).
    { apply Ha. exists node. split; [done|]. by apply list_elem_of_singleton. }
    assert (Hclean : cleaned (fun n => get_account (public_account_id n) = Ok Account_default) (has_depth d) t
      (tree_remove t (public_account_id node)).1).
    { unfold tree_remove. rewrite Hid. cbn [fst].
      apply (cleaned_delete _ _ t c node); [done..|by eapply has_depth_not_root| |done|done|done|].
      - by destruct Hc as [_ ->].
      - intros id. cbn [account_ids ChildKeysPublic_node]. case_decide as Hin.
        + apply list_elem_of_singleton in Hin as ->. apply lookup_delete_eq.
        + apply lookup_delete_ne. intros <-. apply Hin. by apply list_elem_of_singleton. }
    destruct (IH _ (cleaned_shape _ _ _ _ Hclean) (cleaned_accounts _ _ _ _ Hclean)) as (Hrest & Hgone & Hkept);
      [by eapply cleaned_depth|done|].
    split; [by eapply cleaned_trans|]. split; [|intros Hf; destruct (Hkept Hf) as (e & Hex); exists e; set_solver].
    intros Htrue e [->|He]%elem_of_cons; [|by apply Hgone].
    intros [n Hp]. apply (cleaned_sub _ _ _ _ Hrest) in Hp. unfold tree_remove in Hp. rewrite Hid in Hp.
    cbn [fst key_map] in Hp. by rewrite lookup_delete_eq in Hp.
  - destruct (IH t Hs Ha Hdeep Hids) as (Hrest & Hgone & Hkept). split; [done|].
    split; [|intros Hf; destruct (Hkept Hf) as (e & Hex); exists e; set_solver].
    intros Htrue e [->|He]%elem_of_cons; [|by apply Hgone].
    intros [n Hp]. apply (cleaned_sub _ _ _ _ Hrest) in Hp. congruence.
Qed.

Lemma depths_down_S n : depths_down (S (S n)) = S n :: depths_down (S n).
Proof. unfold depths_down. replace (S (S n) - 1)%nat with (S n) by lia. rewrite seq_S, reverse_snoc. do 3 f_equal. lia. Qed.

Section Loops.
Context `{ChainIndex.Itertools, !ChainIndex.ItertoolsLaws}.

Lemma chain_ids_at n : Z.of_nat n <= 2 ^ 32 -> Forall (has_depth n) (ChainIndex.chain_ids_at_depth n).
Proof. intros Hn. apply Forall_forall. intros c Hc. by apply ChainIndex.elem_of_chain_ids. Qed.

(** A completed layer is empty. *)
Lemma layer_done {N} `{KeyTreeNode N} (t : KeyTree N) n :
  Z.of_nat (S n) <= 2 ^ 32 -> shape t -> depth_at_most t (Z.of_nat (S n)) ->
  (forall c, c ∈ ChainIndex.chain_ids_at_depth (S n) -> ~ present t c) -> depth_at_most t (Z.of_nat n).
Proof.
  intros Hn Hs Hdeep Hgone c Hc. specialize (Hdeep c Hc).
  destruct (decide (ChainIndex.total c = Z.of_nat (S n))) as [Heq|]; [|lia].
  destruct (Hgone c); [|done]. apply ChainIndex.elem_of_chain_ids; [done|]. split; [by apply (shape_wf t Hs)|done].
Qed.

(** Where a cleanup stops: at the root, or at a layer with a node to keep. *)
Definition stops_at {N} `{KeyTreeNode N} (keep : N -> Prop) (t : KeyTree N) : Prop :=
  exists d, depth_at_most t (Z.of_nat d) /\
    (d = O \/ exists c node, has_depth d c /\ key_map t !! c = Some node /\ keep node).

Lemma private_loop_spec n t :
  Z.of_nat n < 2 ^ 32 -> shape t -> accounts_ok t -> depth_at_most t (Z.of_nat n) ->
  let t' := private_cleanup_loop t (depths_down (S n)) in
  cleaned (fun n => uninitialized n = true) (fun c => c <> ChainIndex.root) t t' /\
  stops_at (fun n => uninitialized n = false) t'.
Proof.
  revert t. induction n as [|n IH]; intros t Hn Hs Ha Hdeep.
  { split; [by apply cleaned_refl|]. exists O. split; [done|by left]. }
  rewrite depths_down_S. cbn [private_cleanup_loop].
  destruct (private_layer_spec (S n) (ChainIndex.chain_ids_at_depth (S n)) t ltac:(lia) Hs Ha Hdeep
    (chain_ids_at (S n) ltac:(lia))) as (Hc & Hgone & Hkept).
  destruct (private_cleanup_layer t (ChainIndex.chain_ids_at_depth (S n))) as [t1 flag]. cbn [fst snd] in *.
  assert (Hweak : forall c, has_depth (S n) c -> c <> ChainIndex.root)
    by (intros c; apply has_depth_not_root; lia).
  destruct flag.
  - destruct (IH t1) as [Hrest Hstop]; [lia|apply Hc|apply Hc|apply layer_done; [lia|apply Hc|by eapply cleaned_depth|by apply Hgone]|].
    split; [by eapply cleaned_trans|done].
  - split; [by eapply cleaned_trans; [..|apply cleaned_refl; apply Hc]|].
    exists (S n). split; [by eapply cleaned_depth|]. right. destruct (Hkept eq_refl) as (c & node & Hin & Hnode & Hu).
    exists c, node. split; [|done]. apply ChainIndex.elem_of_chain_ids in Hin; [done|lia].
Qed.

Lemma public_loop_spec {E} (get_account : AccountId -> outcome E Account) n t :
  Z.of_nat n < 2 ^ 32 -> shape t -> accounts_ok t -> depth_at_most t (Z.of_nat n) ->
  let r := public_cleanup_loop get_account t (depths_down (S n)) in
  cleaned (fun n => get_account (public_account_id n) = Ok Account_default) (fun c => c <> ChainIndex.root) t r.1 /\
  (r.2 = Ok () -> stops_at (fun n => exists a, get_account (public_account_id n) = Ok a /\ a <> Account_default) r.1).
Proof.
  revert t. induction n as [|n IH]; intros t Hn Hs Ha Hdeep.
  { split; [by apply cleaned_refl|]. exists O. split; [done|by left]. }
  rewrite depths_down_S. cbn [public_cleanup_loop].
  destruct (public_layer_spec get_account (S n) (ChainIndex.chain_ids_at_depth (S n)) t ltac:(lia) Hs Ha Hdeep
    (chain_ids_at (S n) ltac:(lia))) as (Hc & Hgone & Hkept).
  destruct (public_cleanup_layer get_account t (ChainIndex.chain_ids_at_depth (S n))) as [t1 flag]. cbn [fst snd] in *.
  assert (Hweak : forall c, has_depth (S n) c -> c <> ChainIndex.root)
    by (intros c; apply has_depth_not_root; lia).
  assert (Hstay : cleaned (fun n => get_account (public_account_id n) = Ok Account_default)
    (fun c => c <> ChainIndex.root) t t1) by (eapply cleaned_trans; [..|apply cleaned_refl; apply Hc]; done).
  destruct flag as [[]|e|msg]; [..|by split|by split].
  - destruct (IH t1) as [Hrest Hstop]; [lia|apply Hc|apply Hc|apply layer_done; [lia|apply Hc|by eapply cleaned_depth|by apply Hgone]|].
    split; [by eapply cleaned_trans|done].
  - split; [done|]. intros _. exists (S n). split; [by eapply cleaned_depth|]. right.
    destruct (Hkept eq_refl) as (c & node & a & Hin & Hnode & Hu).
    exists c, node. split; [|split; [done|by exists a]]. apply ChainIndex.elem_of_chain_ids in Hin; [done|lia].
Qed.
End Loops.
End Cleanup.

(** ** Generation of all nodes below a depth *)
Section Generate.
Context {N : Type} `{KeyTreeNode N, OverflowChecks}.
Implicit Types t : KeyTree N.
Implicit Types p c : ChainIndex.

Definition loop_spec {A} (P : A -> Prop) (m : option (guest A)) : Prop :=
  match m with Some r => run_spec P r | None => False end.

Lemma loop_spec_run {A} (P : A -> Prop) m : loop_spec P m -> exists r, m = Some r /\ run_spec P r.
Proof. destruct m; [by eexists|done]. Qed.

Definition child p (i : Z) : ChainIndex := p ++ [i].

(** The number of children that node [p] gets. *)
Definition width (D : Z) p : Z := Z.max 0 (D - 1 - ChainIndex.total p).

Lemma children_loop_spec D p fuel : forall t j stack,
  D < 2 ^ 32 -> ChainIndex.total p + 1 < 2 ^ 32 -> shape t -> present t p -> 0 <= j <= width D p ->
  (forall i, 0 <= i -> present t (child p i) <-> i < j) -> width D p - j < Z.of_nat fuel ->
  loop_spec (fun r => shape r.1 /\
      (forall c, present r.1 c <-> present t c \/ exists i, j <= i < width D p /\ c = child p i) /\
      r.2 = reverse (child p <$> seqZ j (width D p - j)) ++ stack)
    (children_loop fuel D t p (child p j) stack).
Proof.
  induction fuel as [|fuel IH]; intros t j stack HD Hp Hs Hpp Hj Hch Hf; [lia|].
  cbn [children_loop]. pose proof (shape_wf t Hs p Hpp) as Hwf. pose proof (ChainIndex.total_nonneg p Hwf).
  unfold width in Hj.
  assert (Hwf' : ChainIndex_wf (child p j)).
  { apply Forall_app. split; [done|]. apply Forall_singleton. unfold in_u. lia. }
  assert (Ht : ChainIndex.total (child p j) = ChainIndex.total p + j + 1).
  { unfold child. rewrite ChainIndex.total_app, ChainIndex.total_one. lia. }
  rewrite (ChainIndex.depth_total (child p j) Hwf') by lia. rewrite Ht. case_decide as Hd.
  - pose proof (generate_new_node_spec t p Hs Hpp) as Hg.
    destruct (generate_new_node t p) as [[t1 o]|[]|msg]; [|by apply Hg; fold (child p u32_max); rewrite Hch; unfold u32_max; lia].
    destruct Hg as (i & parent & node & Hi & _ & _ & [= -> _] & Hall & Hs1).
    { fold (child p u32_max). rewrite Hch; unfold u32_max; lia. }
    assert (i = j) as ->.
    { destruct Hi as [Hi _]. unfold child in Hch.
      assert (~ i < j) by (rewrite <- Hch, Hall by done; lia).
      assert (~ j < i) by (rewrite <- Hall, Hch by lia; lia). lia. }
    replace (ChainIndex.next_in_line (child p j)) with (Some (child p (j + 1)))
      by (symmetry; apply ChainIndex.next_in_line_snoc; lia).
    fold (child p j) in Hs1 |- *. cbn [fst] in Hs1.
    specialize (IH (add_node (child p j) node t) (j + 1) (child p j :: stack)).
    apply loop_spec_run in IH as (r & -> & Hr); [|done|done|done|by apply present_add; right|unfold width; lia| |lia].
    + destruct r as [[t2 st]|[]|msg]; [|done]. destruct Hr as (Hs2 & Hpres & Hst). cbn [fst snd] in *.
      split; [done|]. split.
      * intros c. rewrite Hpres, present_add. split.
        -- intros [[->|]|(i & Hi' & ->)]; [right; exists j; split; [unfold width; lia|done]|by left|].
           right. exists i. split; [lia|done].
        -- intros [|(i & Hi' & ->)]; [by left; right|]. destruct (decide (i = j)) as [->|]; [by left; left|].
           right. exists i. split; [lia|done].
      * rewrite Hst. replace (width D p - j) with (Z.succ (width D p - (j + 1))) by lia.
        rewrite (seqZ_cons j) by (unfold width; lia). replace (Z.succ j) with (j + 1) by lia.
        replace (Z.pred (Z.succ (width D p - (j + 1)))) with (width D p - (j + 1)) by lia.
        cbn [fmap list_fmap]. rewrite reverse_cons, <- app_assoc. done.
    + intros i Hi'. rewrite present_add. unfold child at 1 2. rewrite (Hch i Hi'). split.
      * intros [[_ ->]%List.app_inj_tail|]; lia.
      * intros Hlt. destruct (decide (i = j)) as [->|]; [by left|right; lia].
  - assert (Hw : width D p = j) by (unfold width; lia). split; [done|]. rewrite Hw. split.
    + intros c. split; [by left|]. intros [|(i & Hi & _)]; [done|lia].
    + cbn [snd]. by rewrite Z.sub_diag.
Qed.

Record gen_inv (D : Z) t (stack : list ChainIndex) : Prop := mk_gen_inv {
  gen_shape : shape t;
  gen_depth c : present t c -> c = ChainIndex.root \/ ChainIndex.total c < D;
  gen_present c : c ∈ stack -> present t c;
  gen_nodup : NoDup stack;
  gen_leaf c i : c ∈ stack -> ~ present t (child c i);
  gen_done c i : present t c -> c ∉ stack -> 0 <= i -> ChainIndex.total (child c i) < D -> present t (child c i);
}.

Lemma total_child p i : ChainIndex.total (child p i) = ChainIndex.total p + i + 1.
Proof. unfold child. rewrite ChainIndex.total_app, ChainIndex.total_one. lia. Qed.
Lemma child_ne p i : child p i <> p.
Proof. intros Heq%(f_equal length). unfold child in Heq. rewrite length_app in Heq. cbn in Heq. lia. Qed.
Lemma child_inj p q i j : child p i = child q j -> p = q /\ i = j.
Proof. apply List.app_inj_tail. Qed.

Lemma gen_step D t t1 p stack :
  gen_inv D t (p :: stack) -> shape t1 ->
  (forall c, present t1 c <-> present t c \/ exists i, 0 <= i < width D p /\ c = child p i) ->
  gen_inv D t1 (reverse (child p <$> seqZ 0 (width D p)) ++ stack).
Proof.
  intros [Hs Hdep Hpres Hnd Hleaf Hdone] Hs1 Hp1. apply NoDup_cons in Hnd as [Hpn Hnd].
  assert (Hin : forall c, c ∈ reverse (child p <$> seqZ 0 (width D p)) ++ stack <->
    (exists i, 0 <= i < width D p /\ c = child p i) \/ c ∈ stack).
  { intros c. rewrite elem_of_app, elem_of_reverse, list_elem_of_fmap. setoid_rewrite elem_of_seqZ.
    split; (intros [(i & ? & ?)|]; [left; exists i; split; first [lia|done]|by right]). }
  constructor; [done|..].
  - intros c [Hc|(i & Hi & ->)]%Hp1; [by apply Hdep|]. right. rewrite total_child. unfold width in Hi. lia.
  - intros c [Hc|Hc]%Hin; apply Hp1; [by right|]. left. apply Hpres. by right.
  - apply NoDup_app. split; [|split; [|done]].
    + rewrite reverse_Permutation.
      apply NoDup_fmap_2; [intros i j Hij; by apply child_inj in Hij as [_ ->]|apply NoDup_seqZ].
    + intros c Hc Hst. apply elem_of_reverse, list_elem_of_fmap in Hc as (i & -> & _).
      apply (Hleaf p i); [by left|]. apply Hpres. by right.
  - intros c k Hc [Hk|(j & _ & Heq)]%Hp1.
    + apply Hin in Hc as [(i & _ & ->)|Hc].
      * apply (shape_parent t Hs) in Hk. by apply (Hleaf p i); [left|].
      * by apply (Hleaf c k); [right|].
    + apply child_inj in Heq as [-> _]. apply Hin in Hc as [(i & _ & Heq)|Hc]; [by apply (child_ne p i)|done].
  - intros c k Hc Hnin Hk Hlt. apply Hp1. destruct (decide (c = p)) as [->|Hne].
    + right. exists k. split; [|done]. rewrite total_child in Hlt. unfold width. lia.
    + left. apply Hp1 in Hc as [Hc|(i & Hi & ->)].
      * apply Hdone; [done| |done|done]. intros [->|]%elem_of_cons; [done|]. apply Hnin, Hin. by right.
      * destruct Hnin. apply Hin. left. by exists i.
Qed.

Lemma list_sum_perm l k : l ≡ₚ k -> list_sum l = list_sum k.
Proof. intros Hp. by apply Permutation_list_sum. Qed.

Lemma list_sum_cons x l : list_sum (x :: l) = (x + list_sum l)%nat.
Proof. done. Qed.

Definition subtree (D : Z) p : nat := 2 ^ Z.to_nat (width D p).

Lemma sum_pow2 n : (list_sum ((fun i => 2 ^ (n - 1 - i)) <$> seq 0 n) + 1 = 2 ^ n)%nat.
Proof.
  induction n as [|n IH]; [done|]. rewrite <- cons_seq, <- fmap_S_seq. cbn [fmap list_fmap].
  rewrite <- list_fmap_compose, list_sum_cons. replace (S n - 1 - 0)%nat with n by lia.
  rewrite (list_fmap_ext _ (fun i => 2 ^ (n - 1 - i))%nat (seq 0 n)).
  - cbn [Nat.pow]. lia.
  - intros i x Hx. cbn. f_equal. lia.
Qed.

Lemma subtree_children D p :
  (list_sum (subtree D <$> reverse (child p <$> seqZ 0 (width D p))) + 1 = subtree D p)%nat.
Proof.
  rewrite fmap_reverse. rewrite (list_sum_perm _ _ (reverse_Permutation _)).
  rewrite <- list_fmap_compose. unfold seqZ. rewrite <- list_fmap_compose.
  unfold subtree at 2. rewrite <- (sum_pow2 (Z.to_nat (width D p))). do 2 f_equal.
  apply list_fmap_ext. intros i x [-> Hx]%lookup_seq. cbn. unfold subtree. f_equal. unfold width in *.
  rewrite total_child. lia.
Qed.

Lemma nodes_loop_spec D fuel : forall t stack,
  0 <= D < 2 ^ 32 -> gen_inv D t stack -> (list_sum (subtree D <$> stack) < fuel)%nat ->
  loop_spec (fun t' => gen_inv D t' []) (nodes_loop fuel D t stack).
Proof.
  induction fuel as [|fuel IH]; intros t stack HD Hinv Hf; [lia|]. cbn [nodes_loop].
  destruct stack as [|p stack]; [done|].
  assert (Hpp : present t p) by (apply (gen_present _ _ _ Hinv); by left).
  pose proof (gen_shape _ _ _ Hinv) as Hs. pose proof (ChainIndex.total_nonneg p (shape_wf t Hs p Hpp)).
  assert (Htot : ChainIndex.total p < D \/ ChainIndex.total p = 0).
  { destruct (gen_depth _ _ _ Hinv p Hpp) as [->|]; [by right|by left]. }
  pose proof (children_loop_spec D p (S (Z.to_nat D)) t 0 stack) as Hc.
  apply loop_spec_run in Hc as (r & Hr & Hc); [|lia|lia|done|done|unfold width; lia| |unfold width; lia].
  - unfold ChainIndex.nth_child. fold (child p 0). rewrite Hr.
    destruct r as [[t1 st1]|[]|msg]; [|done]. cbn [run_spec fst snd] in Hc. destruct Hc as (Hs1 & Hpres1 & ->).
    rewrite Z.sub_0_r in *. apply IH; [done|by eapply gen_step|].
    rewrite fmap_app, list_sum_app. cbn [fmap list_fmap] in Hf. rewrite list_sum_cons in Hf.
    pose proof (subtree_children D p). change (list_fmap _ _) with (@fmap list _) in Hf. lia.
  - intros i Hi. split; [|lia]. intros Hpr. exfalso. eapply (gen_leaf _ _ _ Hinv p i); [by left|done].
Qed.

(** The tree below a depth, generated from a root. *)
Lemma generate_tree_spec (r : N) D :
  0 <= D < 2 ^ 32 ->
  run_spec (fun t' => shape t' /\ forall c, present t' c <-> c = ChainIndex.root \/ (ChainIndex_wf c /\ ChainIndex.total c < D))
    (generate_tree_for_depth (new_from_root r) D).
Proof.
  intros HD. unfold generate_tree_for_depth.
  assert (Hp : forall c, present (new_from_root r) c <-> c = ChainIndex.root).
  { intros c. unfold present, new_from_root. cbn [key_map]. rewrite lookup_singleton_is_Some. naive_solver. }
  pose proof (nodes_loop_spec D (S (2 ^ Z.to_nat D)) (new_from_root r) [ChainIndex.root]) as Hl.
  apply loop_spec_run in Hl as (res & -> & Hl); [|done|..].
  - cbn [default from_option]. unfold id. destruct res as [t'|[]|msg]; [|done]. destruct Hl as [Hs Hdep _ _ _ Hdone].
    split; [done|]. intros c. split.
    + intros Hc. destruct (Hdep c Hc) as [|Hlt]; [by left|right]. split; [by apply (shape_wf t' Hs)|done].
    + intros [->|[Hwf Hlt]]; [apply Hs|]. induction c as [|i p IH] using rev_ind; [apply Hs|].
      apply Forall_app in Hwf as [Hwf [[Hi _] _]%Forall_cons].
      assert (Hlt' := Hlt). rewrite ChainIndex.total_app, ChainIndex.total_one in Hlt.
      apply (Hdone p i); [apply IH; [done|lia]|by apply not_elem_of_nil|done|done].
  - constructor.
    + apply new_from_root_shape.
    + intros c Hc%Hp. by left.
    + intros c ->%list_elem_of_singleton. by apply Hp.
    + apply NoDup_singleton.
    + intros c i ->%list_elem_of_singleton Hc%Hp. by apply child_ne in Hc.
    + intros c i ->%Hp Hn. destruct Hn. by apply list_elem_of_singleton.
  - cbn [fmap list_fmap]. rewrite list_sum_cons. cbn [list_sum foldr]. unfold subtree.
    assert (Hle : (Z.to_nat (width D ChainIndex.root) <= Z.to_nat D)%nat) by (unfold width; cbn; lia).
    apply (Nat.pow_le_mono_r 2) in Hle; [|done]. lia.
Qed.
End Generate.
