(* ===== verification/KeyTreeTheorems.v ===== *)
(** What trees of keys guarantee: their invariant under all operations of the
    wallet, the search for children and free slots, generation and cleanup. *)

From S2P Require Import Prelude Bytes Crypto Account Ids Host Transactions ChainIndex KeyDerivation KeyTree KeyTreeFacts.

(** ** Chain indices *)

(** The text form of chain indices: every index of [u32] segments is printed
    to a text that parses to it; a text without a leading slash is rejected, and
    so is one with an empty segment. *)
Theorem chain_index_roundtrip (c : ChainIndex) (s : string) :
  ChainIndex_wf c ->
  ChainIndex.from_str (ChainIndex.display c) = Ok c /\
  ((forall s', s <> "/" +:+ s') -> ChainIndex.from_str s = Err ChainIndex.NoRootFound) /\
  ChainIndex.from_str ("//" +:+ s) = Err ChainIndex.ParseIntError.
Proof.
  intros Hc. split; [by apply ChainIndex.from_display|]. split.
  - intros Hs. destruct s as [|a s]; [done|]. unfold ChainIndex.from_str.
    destruct a as [[] [] [] [] [] [] [] []]; try done. by destruct (Hs s).
  - change ("//" +:+ s) with ("/" +:+ ("" +:+ "/" +:+ s)).
    rewrite ChainIndex.from_str_cons by done. by rewrite ChainIndex.split_app.
Qed.

(** Witness: the index of the test [correct_display]. *)
Lemma chain_index_roundtrip_witness :
  ChainIndex.from_str (ChainIndex.display [5; 7; 8]) = Ok [5; 7; 8] /\
  ((forall s', "5/7" <> "/" +:+ s') -> ChainIndex.from_str "5/7" = Err ChainIndex.NoRootFound) /\
  ChainIndex.from_str ("//" +:+ "5/7") = Err ChainIndex.ParseIntError.
Proof. apply chain_index_roundtrip. repeat constructor; lia. Defined.

(** ** Lemmas: sizes *)
Section Size.
Context {N : Type} `{KeyTreeNode N}.

Lemma present_size (t : KeyTree N) (l : list ChainIndex) :
  NoDup l -> (forall c, c ∈ l -> present t c) -> (length l <= size (key_map t))%nat.
Proof.
  intros Hnd Hl. rewrite <- (size_list_to_set (C := gset ChainIndex) l Hnd), <- size_dom.
  apply subseteq_size. intros c Hc%elem_of_list_to_set. by apply elem_of_dom, Hl.
Qed.

(** A tree with fewer than [2^32 - 2] nodes has room below each of them. *)
Lemma room_for_children (t : KeyTree N) p :
  shape t -> Z.of_nat (size (key_map t)) < 2 ^ 32 - 2 -> ~ present t (p ++ [u32_max]).
Proof.
  intros Hs Hsize Hp. destruct (children t p Hs) as (k & Hk & Hall).
  apply Hall in Hp; [|unfold u32_max; lia].
  pose proof (present_size t (child p <$> seqZ 0 k)) as Hle.
  rewrite length_fmap, length_seqZ in Hle. unfold u32_max in Hp.
  enough (Z.to_nat k <= size (key_map t))%nat by lia. apply Hle.
  - apply NoDup_fmap_2; [intros i j Hij; by apply child_inj in Hij as [_ ->]|apply NoDup_seqZ].
  - intros c (i & -> & Hi%elem_of_seqZ)%list_elem_of_fmap. apply Hall; lia.
Qed.
End Size.

(** ** Key trees *)
Section Trees.
Context {N : Type} `{KeyTreeNode N}.

(** C40. The search for the next child: on every tree with the shape of a key tree
    and at most [2^32 - 3] nodes, and every node of it, the binary search ends
    within 35 probes, never reaches the unreachable case, and returns the number
    of children: the smallest number whose child is missing. *)
Theorem child_search_bounds (t : KeyTree N) (p : ChainIndex) :
  shape t -> Z.of_nat (size (key_map t)) < 2 ^ 32 - 2 -> present t p ->
  exists k, find_next_last_child_of_id t p = Ok (Some k) /\ 0 <= k < u32_max /\
    (forall i, 0 <= i < k -> present t (p ++ [i])) /\ forall i, k <= i -> ~ present t (p ++ [i]).
Proof.
  intros Hs Hsize Hp. pose proof (room_for_children t p Hs Hsize) as Hroom.
  destruct (find_next_last_child t p Hs Hp Hroom) as (k & Hf & Hk & Hall).
  exists k. split; [done|]. split; [|split; [intros i Hi; apply Hall; lia|intros i Hi; rewrite Hall by lia; lia]].
  destruct (decide (k = u32_max)) as [->|]; [|lia]. exfalso.
  pose proof (present_size t (child p <$> seqZ 0 u32_max)) as Hle. rewrite length_fmap, length_seqZ in Hle.
  enough (Z.to_nat u32_max <= size (key_map t))%nat by (unfold u32_max in *; lia). apply Hle.
  - apply NoDup_fmap_2; [intros i j Hij; by apply child_inj in Hij as [_ ->]|apply NoDup_seqZ].
  - intros c (i & -> & Hi%elem_of_seqZ)%list_elem_of_fmap. apply Hall; lia.
Qed.

(** Generation for a depth: from a root, the loops end and the tree holds,
    besides the root, exactly the indices below the depth, each node with its
    parent and without gaps among siblings; the only panics are those of key
    derivation. *)
Lemma generate_tree_exact `{OverflowChecks} (r : N) (D : Z) :
  0 <= D < 2 ^ 32 ->
  match generate_tree_for_depth (new_from_root r) D with
  | Ok t => shape t /\ forall c, present t c <-> c = ChainIndex.root \/ (ChainIndex_wf c /\ ChainIndex.total c < D)
  | Err _ => False
  | Panic msg => exists (node : N) i, derive_child node i = Panic msg
  end.
Proof. intros HD. by apply (generate_tree_spec r D HD). Qed.

(** Layered generation always finds a place: on every tree with the shape of
    a key tree it adds one node, derived from its parent, at a free index of the
    smallest depth that is not complete, and keeps the shape; the only panics are
    those of key derivation. *)
Theorem layered_generation `{ChainIndex.Itertools, !ChainIndex.ItertoolsLaws} (t : KeyTree N) :
  shape t -> Z.of_nat (size (key_map t)) < 2 ^ 32 - 2 ->
  match generate_new_node_layered t with
  | Ok (t', o) =>
      exists p i parent node, o = Some (p ++ [i]) /\ ~ present t (p ++ [i]) /\
        (forall c, ChainIndex_wf c -> ChainIndex.total c < ChainIndex.total (p ++ [i]) -> present t c) /\
        key_map t !! p = Some parent /\ derive_child parent i = Ok node /\
        key_map t' = <[p ++ [i] := node]> (key_map t) /\ shape t'
  | Err _ => False
  | Panic msg => exists (node : N) i, derive_child node i = Panic msg
  end.
Proof.
  intros Hs Hsize. pose proof (generate_new_node_layered_spec t Hs Hsize) as Hg.
  destruct (generate_new_node_layered t) as [[t' o]|[]|msg]; [|done].
  destruct Hg as (d & p & i & parent & node & [Hwf Ht] & Hd & Habs & Hfull & Hparent & Hder & [= -> ->] & Hs').
  exists p, i, parent, node. split; [done|]. split; [done|]. split; [|done].
  intros c Hc Hlt. rewrite Ht in Hlt. destruct (decide (c = [])) as [->|Hne]; [apply Hs|].
  pose proof (ChainIndex.length_le_total c Hc). assert (length c <> 0)%nat by (by destruct c).
  apply (Hfull (Z.to_nat (ChainIndex.total c))); [lia|]. split; [done|lia].
Qed.
End Trees.

(** ** Public trees of a wallet *)
Section PublicTrees.
Context `{HmacSha512, K256, Sha256, ChainIndex.Itertools, !ChainIndex.ItertoolsLaws}.

Lemma add_node_step {N} `{KeyTreeNode N} (t : KeyTree N) c node :
  shape (add_node c node t) -> accounts_ok t -> ~ present t c -> fresh_ids t node ->
  shape (add_node c node t) /\ accounts_ok (add_node c node t).
Proof. intros Hs Ha Hc Hf. split; [done|by apply add_node_accounts]. Qed.

Lemma generate_ok {N} `{KeyTreeNode N} (t t' : KeyTree N) p c :
  shape t -> accounts_ok t -> Z.of_nat (size (key_map t)) < 2 ^ 32 - 2 ->
  generate_new_node t p = Ok (t', Some c) ->
  (forall node, key_map t' !! c = Some node -> fresh_ids t node) -> shape t' /\ accounts_ok t'.
Proof.
  intros Hs Ha Hsize Hg Hfresh. assert (Hp : present t p).
  { unfold generate_new_node in Hg. destruct (key_map t !! p) eqn:Hp; [by eexists|done]. }
  pose proof (generate_new_node_spec t p Hs Hp (room_for_children t p Hs Hsize)) as Hspec. rewrite Hg in Hspec.
  destruct Hspec as (i & parent & node' & Hi & _ & _ & [= -> ->] & Hall & Hs').
  apply add_node_step; [done|done|rewrite Hall by apply Hi; lia|]. apply Hfresh. cbn. by rewrite lookup_insert_eq.
Qed.

Lemma generate_layered_ok {N} `{KeyTreeNode N} (t t' : KeyTree N) c :
  shape t -> accounts_ok t -> Z.of_nat (size (key_map t)) < 2 ^ 32 - 2 ->
  generate_new_node_layered t = Ok (t', Some c) ->
  (forall node, key_map t' !! c = Some node -> fresh_ids t node) -> shape t' /\ accounts_ok t'.
Proof.
  intros Hs Ha Hsize Hg Hfresh. pose proof (generate_new_node_layered_spec t Hs Hsize) as Hspec. rewrite Hg in Hspec.
  destruct Hspec as (d & p & i & parent & node' & _ & _ & Habs & _ & _ & _ & [= -> ->] & Hs').
  apply add_node_step; [done|done|done|]. apply Hfresh. cbn. by rewrite lookup_insert_eq.
Qed.

(** What a wallet does to its tree of public keys, as long as the derived account
    ids are distinct; the cleanup is called with a depth that covers the tree. *)
Inductive public_tree : KeyTree ChildKeysPublic -> Prop :=
  | public_new s t : KeyTree_new s = Ok t -> public_tree t
  | public_generate t p t' id c :
      public_tree t -> Z.of_nat (size (key_map t)) < 2 ^ 32 - 2 ->
      generate_new_public_node t p = Ok (t', Some (id, c)) ->
      (forall node, key_map t' !! c = Some node -> fresh_ids t node) -> public_tree t'
  | public_layered t t' id c :
      public_tree t -> Z.of_nat (size (key_map t)) < 2 ^ 32 - 2 ->
      generate_new_public_node_layered t = Ok (t', Some (id, c)) ->
      (forall node, key_map t' !! c = Some node -> fresh_ids t node) -> public_tree t'
  | public_cleanup {E} t n (get_account : AccountId -> outcome E Account) :
      public_tree t -> Z.of_nat n < 2 ^ 32 -> depth_at_most t (Z.of_nat n) ->
      public_tree (public_cleanup_tree_remove_uninit_layered t (S n) get_account).1.

Lemma with_account_id_ok r t' id c :
  with_account_id r = Ok (t', Some (id, c)) ->
  r = Ok (t', Some c) /\ exists node, key_map t' !! c = Some node /\ id = public_account_id node.
Proof.
  unfold with_account_id. intros ([t1 o] & -> & Hr)%bind_ok. injection Hr as -> Ho.
  destruct o as [c1|]; [|done]. cbn [mbind option_bind] in Ho.
  destruct (key_map t' !! c1) as [node|] eqn:Hn; [|done]. injection Ho as <- <-.
  split; [done|]. by exists node.
Qed.

Lemma public_tree_ok t :
  public_tree t -> shape t /\ accounts_ok t.
Proof.
  induction 1 as [s t Hnew|t p t' id c _ [Hs Ha] Hsize Hg Hfresh|t t' id c _ [Hs Ha] Hsize Hg Hfresh
                 |E t n get_account _ [Hs Ha] Hn Hdeep].
  - apply bind_ok in Hnew as (sd & _ & Hnew). apply bind_ok in Hnew as (r & _ & [= <-]).
    split; [apply new_from_root_shape|apply new_from_root_accounts].
  - apply with_account_id_ok in Hg as [Hg _]. by apply (generate_ok t t' p c).
  - apply with_account_id_ok in Hg as [Hg _]. by apply (generate_layered_ok t t' c).
  - destruct (public_loop_spec get_account n t Hn Hs Ha Hdeep) as [[? ? _ _] _]. by split.
Qed.
End PublicTrees.

(** ** Cleanup *)
Section Cleanups.
Context `{HmacSha512, K256, Sha256, ChainIndex.Itertools, !ChainIndex.ItertoolsLaws}.

(** Cleanup is safe and thorough: on a consistent tree that the given depth
    covers, the cleanup of a public tree removes only nodes whose account the
    sequencer reports as the default one, that of a private tree only nodes
    without a synchronised account, never the root; what stays is unchanged, the
    tree stays consistent, and unless a query fails, the deepest layer left holds
    a node in use or is the root. *)
Lemma cleanup_keeps_accounts {E} (n : nat) (tpub : KeyTree ChildKeysPublic) (tpriv : KeyTree ChildKeysPrivate)
    (get_account : AccountId -> outcome E Account) :
  Z.of_nat n < 2 ^ 32 -> shape tpub -> accounts_ok tpub -> depth_at_most tpub (Z.of_nat n) ->
  shape tpriv -> accounts_ok tpriv -> depth_at_most tpriv (Z.of_nat n) ->
  let r := public_cleanup_tree_remove_uninit_layered tpub (S n) get_account in
  let t := private_cleanup_tree_remove_uninit_layered tpriv (S n) in
  cleaned (fun k => get_account (public_account_id k) = Ok Account_default) (fun c => c <> ChainIndex.root) tpub r.1 /\
  (r.2 = Ok () -> stops_at (fun k => exists a, get_account (public_account_id k) = Ok a /\ a <> Account_default) r.1) /\
  cleaned (fun k => uninitialized k = true) (fun c => c <> ChainIndex.root) tpriv t /\
  stops_at (fun k => uninitialized k = false) t.
Proof.
  intros Hn Hs Ha Hd Hs' Ha' Hd'.
  destruct (public_loop_spec get_account n tpub Hn Hs Ha Hd) as [Hpub Hstop].
  destruct (private_loop_spec n tpriv Hn Hs' Ha' Hd') as [Hpriv Hstop'].
  split; [done|]. by split.
Qed.
End Cleanups.
