(* ===== verification/KeySamples.v ===== *)
(** Concrete runs of the key trees: toy instances of the third-party code, and
    the witnesses of the theorems about keys.

    The curve of the samples is the multiplicative action of the integers modulo
    251 on themselves, hashes and HMAC are polynomial checksums, AES-GCM xors nothing and
    appends a tag of zeros. *)

From Stdlib Require Import Factorial.
From S2P Require Import Prelude Bytes Crypto Account Ids Host Encryption Transactions ChainIndex KeyDerivation GroupKeys KeyTree KeyTreeFacts KeyTreeTheorems.

Module KeySamples.
(** ** Instances *)
Definition toy_digest (l : list byte) : Z :=
  foldl (fun h b => (h * 259 + byte_to_Z b + 1) mod 65521) 7 l.
#[global] Instance sample_sha : Sha256 := fun l => le_bytes 32 (toy_digest l).
#[global] Instance sample_sha_laws : Sha256Laws.
Proof. constructor. intros l. apply length_le_bytes. Qed.
#[global] Instance sample_hmac : HmacSha512 := fun input key =>
  le_bytes 32 (toy_digest (key ++ input)) ++ le_bytes 32 (toy_digest (input ++ key)).

Definition toy_order : Z := 251.
Definition toy_scalar (b : list byte) : Z := le_value b mod toy_order.
Definition toy_x (p : Z) : option (list byte) :=
  if decide (0 < p < toy_order) then Some (le_bytes 32 p) else None.
#[global] Instance sample_k256 : K256 := {|
  k_scalar := Z;
  scalar_from_repr b := Some (toy_scalar b);
  scalar_to_bytes s := le_bytes 32 s;
  scalar_add a b := (a + b) mod toy_order;
  scalar_mul a b := (a * b) mod toy_order;
  secret_key_from_bytes b := if decide (toy_scalar b = 0) then None else Some (toy_scalar b);
  k_point := Z;
  generator := 1;
  point_mul p s := (p * s) mod toy_order;
  encode_point p := Byte.x02 :: le_bytes 32 p;
  point_x := toy_x;
  decode_point b := Some (le_value (drop 1 b));
|}.

Lemma toy_no_zero_divisors :
  forallb (fun a => forallb (fun b => bool_decide ((1 * a mod toy_order) * b mod toy_order <> 0)) (seqZ 1 250)) (seqZ 1 250) = true.
Proof. vm_compute. reflexivity. Qed.

Lemma toy_mul_nonzero a b :
  0 < a < toy_order -> 0 < b < toy_order -> (1 * a mod toy_order) * b mod toy_order <> 0.
Proof.
  intros Ha Hb. pose proof toy_no_zero_divisors as Hall. rewrite List.forallb_forall in Hall.
  specialize (Hall a). rewrite <- list_elem_of_In, elem_of_seqZ, List.forallb_forall in Hall.
  unfold toy_order in Ha, Hb. specialize (Hall ltac:(lia) b).
  rewrite <- list_elem_of_In, elem_of_seqZ, bool_decide_eq_true in Hall. apply Hall. lia.
Qed.

Lemma toy_secret b s :
  secret_key_from_bytes b = Some s -> s = toy_scalar b /\ 0 < s < toy_order.
Proof.
  cbn. case_decide as Hd; [done|]. intros [= <-]. split; [done|].
  unfold toy_scalar in *. pose proof (Z.mod_pos_bound (le_value b) toy_order ltac:(done)). lia.
Qed.

Lemma toy_x_some p : 0 <= p < toy_order -> p <> 0 -> is_Some (toy_x p).
Proof. intros Hp Hne. unfold toy_x. rewrite decide_True by lia. by eexists. Qed.

#[global] Instance sample_k256_laws : K256Laws.
Proof.
  constructor.
  - intros p a b. cbn. rewrite !Z.mul_mod_idemp_l by done. f_equal. lia.
  - intros p x. cbn [decode_point encode_point point_x sample_k256 drop]. unfold toy_x.
    case_decide as Hp; [|done]. intros _. rewrite drop_0.
    rewrite (le_value_bytes_in 32 256 p); [done..|]. unfold in_u, toy_order in *. lia.
  - done.
  - intros p x. cbn [point_x sample_k256]. unfold toy_x. case_decide; [|done]. by intros [= <-].
  - by intros b s [-> _]%toy_secret.
  - intros b s [_ Hs]%toy_secret. apply toy_x_some.
    + by apply Z.mod_pos_bound.
    + cbn [point_mul generator sample_k256]. rewrite Z.mul_1_l, Z.mod_small; lia.
  - intros a b s t [_ Hs]%toy_secret [_ Ht]%toy_secret. apply toy_x_some.
    + by apply Z.mod_pos_bound.
    + by apply toy_mul_nonzero.
Qed.

#[global] Instance sample_aes : AesGcm := {|
  aes_encrypt _ _ m := Some (m ++ zeros 16);
  aes_decrypt _ _ c := Some (take (length c - 16) c);
|}.
#[global] Instance sample_aes_laws : AesGcmLaws.
Proof.
  constructor; cbn [aes_encrypt aes_decrypt sample_aes]; intros k n m.
  - by eexists.
  - intros c [= <-]. rewrite length_app. change (length (zeros 16)) with 16%nat.
    by rewrite Nat.add_sub, take_app_length.
  - intros c [= <-]. by rewrite length_app.
Qed.

#[global] Instance sample_itertools : ChainIndex.Itertools := {|
  ChainIndex.permutations := permutations;
  ChainIndex.unique := remove_dups;
|}.
Lemma length_interleave {A} (x : A) l : length (interleave x l) = S (length l).
Proof. induction l as [|y l IH]; [done|]. cbn. by rewrite length_fmap, IH. Qed.
Lemma length_permutations_fact {A} (l : list A) : length (permutations l) = fact (length l).
Proof.
  induction l as [|x l IH]; [done|]. cbn [permutations length].
  assert (Hlen : forall k : list (list A), (forall p, p ∈ k -> length p = length l) ->
    length (k ≫= interleave x) = (length k * S (length l))%nat).
  { induction k as [|p k IHk]; intros Hk; [done|]. cbn [mbind list_bind length].
    rewrite length_app, length_interleave, IHk by (intros q Hq; apply Hk; by right).
    rewrite (Hk p) by by left. lia. }
  rewrite Hlen, IH; [cbn [fact]; lia|]. intros p Hp%permutations_Permutation. by rewrite Hp.
Qed.
#[global] Instance sample_itertools_laws : ChainIndex.ItertoolsLaws.
Proof.
  constructor; cbn.
  - intros c p. rewrite permutations_Permutation. by split; intros ->.
  - apply length_permutations_fact.
  - apply NoDup_remove_dups.
  - intros l c. apply elem_of_remove_dups.
Qed.

(** ** A public tree: generated, extended layer by layer, cleaned up *)
Definition run {A} (d : A) (m : guest A) : A := match m with Ok a => a | _ => d end.
Definition no_tree {N} : KeyTree N := mk_KeyTree ∅ ∅.
Definition alice_seed : SeedHolder := mk_SeedHolder (replicate 64 Byte.x07).
Definition pub0 : KeyTree ChildKeysPublic := run no_tree (KeyTree_new alice_seed).
Definition pub1 : KeyTree ChildKeysPublic := (run (no_tree, None) (generate_new_node pub0 [])).1.
Definition pub2 : KeyTree ChildKeysPublic := (run (no_tree, None) (generate_new_node_layered pub1)).1.
Definition id_at (t : KeyTree ChildKeysPublic) (c : ChainIndex) : AccountId :=
  match key_map t !! c with Some node => public_account_id node | None => AccountId_new [] end.

(** Runs are compared by a decision procedure, without normal forms of maps. *)
Ltac decide_run := apply (bool_decide_unpack _); vm_compute; exact I.

Lemma pub0_run : KeyTree_new alice_seed = Ok pub0.
Proof. decide_run. Qed.
Lemma pub1_run : generate_new_public_node pub0 [] = Ok (pub1, Some (id_at pub1 [0], [0])).
Proof. decide_run. Qed.
Lemma pub2_node_run : generate_new_node_layered pub1 = Ok (pub2, Some [1]).
Proof. decide_run. Qed.
Lemma pub2_run : generate_new_public_node_layered pub1 = Ok (pub2, Some (id_at pub2 [1], [1])).
Proof. decide_run. Qed.

Lemma small_size {N} (t : KeyTree N) :
  bool_decide (Z.of_nat (size (key_map t)) < 2 ^ 32 - 2) = true -> Z.of_nat (size (key_map t)) < 2 ^ 32 - 2.
Proof. apply bool_decide_eq_true_1. Qed.
Lemma depth_check {N} `{KeyTreeNode N} (t : KeyTree N) d :
  bool_decide (map_Forall (fun c _ => ChainIndex.total c <= d) (key_map t)) = true -> depth_at_most t d.
Proof. intros Hall%bool_decide_eq_true_1 c [n Hn]. by apply (Hall c n). Qed.
Definition id_free (t : KeyTree ChildKeysPublic) (id : AccountId) : bool :=
  match account_id_map t !! id with None => true | Some _ => false end.
Lemma fresh_check (t t' : KeyTree ChildKeysPublic) c :
  id_free t (id_at t' c) = true ->
  forall node, key_map t' !! c = Some node -> fresh_ids t node.
Proof.
  unfold id_at, id_free. intros Hfree node Hn. rewrite Hn in Hfree. intros id ->%list_elem_of_singleton.
  by destruct (account_id_map t !! public_account_id node).
Qed.

Definition nobody (_ : AccountId) : outcome string Account := Ok Account_default.

Lemma pub1_tree : public_tree pub1.
Proof.
  apply (public_generate pub0 [] pub1 (id_at pub1 [0]) [0]).
  - apply (public_new alice_seed), pub0_run.
  - apply small_size. vm_compute. reflexivity.
  - apply pub1_run.
  - apply fresh_check. vm_compute. reflexivity.
Qed.
Lemma pub2_tree : public_tree pub2.
Proof.
  apply (public_layered pub1 pub2 (id_at pub2 [1]) [1]).
  - apply pub1_tree.
  - apply small_size. vm_compute. reflexivity.
  - apply pub2_run.
  - apply fresh_check. vm_compute. reflexivity.
Qed.
Lemma pub2_depth : depth_at_most pub2 (Z.of_nat 2).
Proof. apply depth_check. vm_compute. reflexivity. Qed.
(** ** Witnesses *)
Lemma child_search_bounds_witness :
  exists k, find_next_last_child_of_id pub2 [] = Ok (Some k) /\ 0 <= k < u32_max /\
    (forall i, 0 <= i < k -> present pub2 ([] ++ [i])) /\ forall i, k <= i -> ~ present pub2 ([] ++ [i]).
Proof.
  apply (child_search_bounds pub2 []).
  - apply (public_tree_ok pub2 pub2_tree).
  - apply small_size. vm_compute. reflexivity.
  - apply contains_present. vm_compute. reflexivity.
Defined.

Definition pub_root : ChildKeysPublic :=
  run (mk_ChildKeysPublic (mk_PrivateKey []) (mk_PublicKey []) [] None) (from_seed (seed alice_seed)).

Lemma generate_tree_exact_witness :
  exists t, generate_tree_for_depth (H0 := true) (new_from_root pub_root) 4 = Ok t /\
    shape t /\ forall c, present t c <-> c = ChainIndex.root \/ (ChainIndex_wf c /\ ChainIndex.total c < 4).
Proof.
  assert (Hrun : exists t, generate_tree_for_depth (H0 := true) (new_from_root pub_root) 4 = Ok t /\ true = true).
  { apply run_ok. vm_compute. reflexivity. }
  destruct Hrun as (t & Hrun & _). exists t. split; [exact Hrun|].
  assert (HD : 0 <= 4 < 2 ^ 32) by lia.
  pose proof (@generate_tree_exact _ _ true pub_root 4 HD) as Hspec. rewrite Hrun in Hspec. exact Hspec.
Defined.

Lemma layered_generation_witness :
  shape pub1 /\ generate_new_node_layered pub1 = Ok (pub2, Some [1]) /\
  exists p i parent node, Some [1] = Some (p ++ [i]) /\ ~ present pub1 (p ++ [i]) /\
    (forall c, ChainIndex_wf c -> ChainIndex.total c < ChainIndex.total (p ++ [i]) -> present pub1 c) /\
    key_map pub1 !! p = Some parent /\ derive_child parent i = Ok node /\
    key_map pub2 = <[p ++ [i] := node]> (key_map pub1) /\ shape pub2.
Proof.
  assert (Hs : shape pub1) by apply (public_tree_ok pub1 pub1_tree).
  assert (Hsize : Z.of_nat (size (key_map pub1)) < 2 ^ 32 - 2) by (apply small_size; vm_compute; reflexivity).
  pose proof (layered_generation pub1 Hs Hsize) as Hspec. rewrite pub2_node_run in Hspec.
  exact (conj Hs (conj pub2_node_run Hspec)).
Defined.

(** A private tree with one unused node. *)
Definition priv0 : KeyTree ChildKeysPrivate := run no_tree (KeyTree_new alice_seed).
Definition priv_root : ChildKeysPrivate :=
  run (mk_ChildKeysPrivate (mk_KeyChain (mk_SecretSpendingKey []) (mk_PrivateKeyHolder [] []) (mk_Npk []) (mk_Vpk []), ∅) [] None)
    (from_seed (seed alice_seed)).
Lemma priv0_root : priv0 = new_from_root priv_root.
Proof. decide_run. Qed.
Definition priv1 : KeyTree ChildKeysPrivate := (run (no_tree, None) (generate_new_node priv0 [])).1.

Lemma priv0_ok : shape priv0 /\ accounts_ok priv0.
Proof. rewrite priv0_root. split; [apply new_from_root_shape|apply new_from_root_accounts]. Qed.
Lemma priv1_run : generate_new_node priv0 [] = Ok (priv1, Some [0]).
Proof. decide_run. Qed.
Lemma fresh_all {N} `{KeyTreeNode N} (t t' : KeyTree N) c :
  match key_map t' !! c with
  | Some node => forallb (fun id => bool_decide (account_id_map t !! id = None)) (account_ids node)
  | None => true
  end = true -> forall node, key_map t' !! c = Some node -> fresh_ids t node.
Proof.
  intros Hall node Hn id Hid. rewrite Hn, List.forallb_forall in Hall.
  apply (bool_decide_eq_true_1 _), Hall. by apply list_elem_of_In.
Qed.
Lemma priv1_ok : shape priv1 /\ accounts_ok priv1.
Proof.
  apply (generate_ok priv0 priv1 [] [0]).
  - apply priv0_ok.
  - apply priv0_ok.
  - apply small_size. vm_compute. reflexivity.
  - apply priv1_run.
  - apply fresh_all. vm_compute. reflexivity.
Qed.

Lemma cleanup_keeps_accounts_witness :
  let r := public_cleanup_tree_remove_uninit_layered pub2 3 nobody in
  let t := private_cleanup_tree_remove_uninit_layered priv1 3 in
  bool_decide (size (key_map priv1) = 2%nat) && bool_decide (size (key_map t) = 1%nat) = true /\
  cleaned (fun k => nobody (public_account_id k) = Ok Account_default) (fun c => c <> ChainIndex.root) pub2 r.1 /\
  (r.2 = Ok () -> stops_at (fun k => exists a, nobody (public_account_id k) = Ok a /\ a <> Account_default) r.1) /\
  cleaned (fun k => uninitialized k = true) (fun c => c <> ChainIndex.root) priv1 t /\
  stops_at (fun k => uninitialized k = false) t.
Proof.
  intros r t. split; [vm_compute; reflexivity|]. apply (cleanup_keeps_accounts 2 pub2 priv1 nobody).
  - lia.
  - apply (public_tree_ok pub2 pub2_tree).
  - apply (public_tree_ok pub2 pub2_tree).
  - apply pub2_depth.
  - apply priv1_ok.
  - apply priv1_ok.
  - apply depth_check. vm_compute. reflexivity.
Defined.
End KeySamples.
