(* ===== verification/StorageFacts.v ===== *)
(** Facts about the persistent form of wallets: restoring what was stored. *)

From S2P Require Import Prelude Bytes Crypto Account Ids Host Transactions ChainIndex KeyDerivation GroupKeys KeyTree UserKeyChain KeyTreeFacts.

(** ** Trees *)
Section Trees.
Context {N : Type} `{KeyTreeNode N}.
Implicit Types t : KeyTree N.

(** What storing and restoring a tree needs: account ids lead to nodes, every
    node has one, and those of the root are registered. *)
Record storable t : Prop := mk_storable {
  storable_root : present t ChainIndex.root;
  storable_ids id c : account_id_map t !! id = Some c -> present t c;
  storable_nodes c : present t c -> exists id, account_id_map t !! id = Some c;
  storable_root_ids node id : key_map t !! ChainIndex.root = Some node -> id ∈ account_ids node ->
    account_id_map t !! id = Some ChainIndex.root;
}.

Lemma accounts_ok_storable t :
  shape t -> accounts_ok t -> (forall c node, key_map t !! c = Some node -> account_ids node <> []) -> storable t.
Proof.
  intros Hs Ha Hne. constructor.
  - apply Hs.
  - intros id c Hid. apply Ha in Hid as (node & Hn & _). by eexists.
  - intros c [node Hn]. destruct (account_ids node) as [|id ids] eqn:Hids; [by destruct (Hne c node Hn)|].
    exists id. apply Ha. exists node. split; [done|]. rewrite Hids. by left.
  - intros node id Hn Hid. apply Ha. by exists node.
Qed.

Definition subtree_of t1 t2 : Prop := key_map t1 ⊆ key_map t2 /\ account_id_map t1 ⊆ account_id_map t2.

Definition restore_tree t (l : list (AccountId * ChainIndex * N)) : KeyTree N :=
  foldl (fun t e => tree_insert t e.1.1 e.1.2 e.2) t l.

Lemma restore_tree_spec t l : forall t0,
  subtree_of t0 t ->
  (forall id c node, (id, c, node) ∈ l -> key_map t !! c = Some node /\ account_id_map t !! id = Some c) ->
  subtree_of (restore_tree t0 l) t /\ subtree_of t0 (restore_tree t0 l) /\
  forall id c node, (id, c, node) ∈ l ->
    key_map (restore_tree t0 l) !! c = Some node /\ account_id_map (restore_tree t0 l) !! id = Some c.
Proof.
  induction l as [|[[id c] node] l IH]; intros t0 [Hk Ha] Hl.
  { split; [done|]. split; [done|]. intros ? ? ? []%elem_of_nil. }
  destruct (Hl id c node) as [Hc Hid]; [by left|]. unfold restore_tree. cbn [foldl fst snd].
  destruct (IH (tree_insert t0 id c node)) as (Hsub & [Hk1 Ha1] & Hall).
  - split; cbn [tree_insert key_map account_id_map]; by apply insert_subseteq_l.
  - intros i d n Hin. apply Hl. by right.
  - fold (restore_tree (tree_insert t0 id c node) l) in *. cbn [tree_insert key_map account_id_map] in Hk1, Ha1.
    split; [done|]. split.
    + split.
      * etransitivity; [|apply Hk1]. apply map_subseteq_spec. intros d n Hd.
        destruct (decide (d = c)) as [->|]; [|by rewrite lookup_insert_ne].
        rewrite lookup_insert_eq. pose proof (lookup_weaken _ _ _ _ Hd Hk). congruence.
      * etransitivity; [|apply Ha1]. apply map_subseteq_spec. intros i d Hd.
        destruct (decide (i = id)) as [->|]; [|by rewrite lookup_insert_ne].
        rewrite lookup_insert_eq. pose proof (lookup_weaken _ _ _ _ Hd Ha). congruence.
    + intros i d n [[= -> -> ->]|Hin]%elem_of_cons; [|by apply Hall].
      split; eapply lookup_weaken; [|exact Hk1| |exact Ha1]; apply lookup_insert_eq.
Qed.

Definition entries_of t : list (AccountId * ChainIndex * N) := tree_entries (fun id c n => (id, c, n)) t.

Lemma elem_of_entries t id c node :
  (id, c, node) ∈ entries_of t <-> account_id_map t !! id = Some c /\ key_map t !! c = Some node.
Proof.
  unfold entries_of, tree_entries. rewrite list_elem_of_bind. split.
  - intros ([i d] & Hin & Hid%BTree.elem_of_iter). cbn [fst snd] in Hin.
    destruct (key_map t !! d) as [n|] eqn:Hd; [|by apply elem_of_nil in Hin].
    apply list_elem_of_singleton in Hin as [= -> -> ->]. done.
  - intros [Hid Hc]. exists (id, c). cbn [fst snd]. rewrite Hc. split; [by apply list_elem_of_singleton|].
    by apply BTree.elem_of_iter.
Qed.

Lemma tree_entries_map {D} (f : AccountId -> ChainIndex -> N -> D) t :
  tree_entries f t = (fun e => f e.1.1 e.1.2 e.2) <$> entries_of t.
Proof.
  unfold entries_of, tree_entries. induction (BTree.iter (account_id_map t)) as [|[id c] l IH]; [done|].
  cbn [mbind list_bind]. rewrite fmap_app, <- IH. cbn [fst snd]. by destruct (key_map t !! c).
Qed.

(** Restoring all entries over the root gives the tree back. *)
Lemma restore_tree_all t node :
  storable t -> key_map t !! ChainIndex.root = Some node ->
  restore_tree (new_from_root node) (entries_of t) = t.
Proof.
  intros [Hroot Hids Hnodes Hrids] Hnode.
  destruct (restore_tree_spec t (entries_of t) (new_from_root node)) as ([Hk Ha] & _ & Hall).
  - split; cbn [new_from_root key_map account_id_map].
    + by apply map_singleton_subseteq_l.
    + apply map_subseteq_spec. intros id c. rewrite insert_ids_lookup, lookup_empty.
      case_decide as Hin; [|done]. intros [= <-]. by apply (Hrids node).
  - intros id c n. rewrite elem_of_entries. naive_solver.
  - set (t' := restore_tree (new_from_root node) (entries_of t)) in *.
    assert (Hk' : key_map t ⊆ key_map t').
    { apply map_subseteq_spec. intros c n Hc. destruct (Hnodes c) as [id Hid]; [by eexists|].
      apply (Hall id c n). by apply elem_of_entries. }
    assert (Ha' : account_id_map t ⊆ account_id_map t').
    { apply map_subseteq_spec. intros id c Hid. destruct (Hids id c Hid) as [n Hn].
      apply (Hall id c n). by apply elem_of_entries. }
    destruct t as [km am], t' as [km' am']. cbn in *. f_equal; by apply (anti_symm (⊆)).
Qed.
End Trees.

(** ** Key chains *)
Section KeyChains.
Context `{HmacSha512, K256, Sha256}.
Implicit Types k : UserKeyChain.

Lemma private_persistent_roundtrip (n : ChildKeysPrivate) : from_private_persistent (to_private_persistent n) = n.
Proof.
  destruct n as [[c m] ccc cci]. unfold from_private_persistent, to_private_persistent.
  cbn [pers_value pers_ccc pers_cci priv_value priv_ccc priv_cci fst snd]. by rewrite BTree.from_iter_iter.
Qed.

Lemma restore_public_entries k l :
  foldl restore_entry k ((fun e => PersPublic e.1.1 e.1.2 e.2) <$> l) =
  with_public_tree (restore_tree (public_key_tree k) l) k.
Proof.
  revert k. induction l as [|[[id c] n] l IH]; intros k; [by destruct k|]. cbn [fmap list_fmap foldl fst snd].
  by rewrite IH.
Qed.
Lemma restore_private_entries k l :
  foldl restore_entry k ((fun e => PersPrivate e.1.1 e.1.2 (to_private_persistent e.2)) <$> l) =
  with_private_tree (restore_tree (private_key_tree k) l) k.
Proof.
  revert k. induction l as [|[[id c] n] l IH]; intros k; [by destruct k|]. cbn [fmap list_fmap foldl fst snd].
  rewrite IH. cbn [restore_entry]. by rewrite private_persistent_roundtrip.
Qed.
Lemma restore_imported_public k (l : list (AccountId * PrivateKey)) :
  foldl restore_entry k ((fun e => PersImportedPublic e.1 e.2) <$> l) =
  with_imported_public (fun m => foldl (fun m e => <[e.1 := e.2]> m) m l) k.
Proof.
  revert k. induction l as [|[id key] l IH]; intros k; [by destruct k|]. cbn [fmap list_fmap foldl fst snd].
  by rewrite IH.
Qed.

(** Imported private accounts: the entries of nested maps. *)
Abbreviation Imported := (gmap ImportedPrivateAccountKey (gmap PrivateAccountKind Account)).
Definition add_imported (m : Imported) (e : ImportedPrivateAccountKey * Identifier * Account) : Imported :=
  <[e.1.1 := <[Regular e.1.2 := e.2]> (default ∅ (m !! e.1.1))]> m.
Definition imported_entries (m : Imported) : list (ImportedPrivateAccountKey * Identifier * Account) :=
  e ← BTree.iter m; (fun a => (e.1, kind_identifier a.1, a.2)) <$> BTree.iter e.2.

Lemma restore_imported_private k (l : list (ImportedPrivateAccountKey * Identifier * Account)) :
  foldl restore_entry k
    ((fun e => PersImportedPrivate e.2 (imp_key_chain e.1.1) (imp_chain_index e.1.1) e.1.2) <$> l) =
  with_imported_private (fun m => foldl add_imported m l) k.
Proof.
  revert k. induction l as [|[[[c i] id] a] l IH]; intros k; [by destruct k|]. cbn [fmap list_fmap foldl fst snd].
  by rewrite IH.
Qed.

(** Only regular accounts are imported, and never an empty map. *)
Definition imported_ok (m : Imported) : Prop := forall key accounts, m !! key = Some accounts ->
  accounts <> ∅ /\ forall kind a, accounts !! kind = Some a -> kind = Regular (kind_identifier kind).

Lemma elem_of_imported_entries m key i a :
  imported_ok m -> (key, i, a) ∈ imported_entries m <->
  exists accounts, m !! key = Some accounts /\ accounts !! Regular i = Some a.
Proof.
  intros Hok. unfold imported_entries. rewrite list_elem_of_bind. split.
  - intros ([key' accounts] & ([kind a'] & Heq & Ha)%list_elem_of_fmap & Hm%BTree.elem_of_iter).
    injection Heq as -> -> ->. apply BTree.elem_of_iter in Ha. exists accounts. split; [done|].
    cbn [fst snd] in *. destruct (Hok _ _ Hm) as [_ Hreg]. by rewrite <- (Hreg kind a' Ha).
  - intros (accounts & Hm & Ha). exists (key, accounts). split; [|by apply BTree.elem_of_iter].
    apply list_elem_of_fmap. exists (Regular i, a). split; [done|]. by apply BTree.elem_of_iter.
Qed.

Definition sub_imported (m1 m2 : Imported) : Prop := forall key a1, m1 !! key = Some a1 ->
  exists a2, m2 !! key = Some a2 /\ a1 ⊆ a2.

Lemma add_imported_fold m l : forall m0,
  sub_imported m0 m ->
  (forall key i a, (key, i, a) ∈ l -> exists accounts, m !! key = Some accounts /\ accounts !! Regular i = Some a) ->
  sub_imported (foldl add_imported m0 l) m /\
  (forall key i a, (key, i, a) ∈ l \/ (exists accounts, m0 !! key = Some accounts /\ accounts !! Regular i = Some a) ->
     exists accounts, foldl add_imported m0 l !! key = Some accounts /\ accounts !! Regular i = Some a).
Proof.
  induction l as [|[[key i] a] l IH]; intros m0 Hsub Hl; cbn [foldl].
  { split; [done|]. intros key i a [[]%elem_of_nil|]. done. }
  destruct (Hl key i a) as (accounts & Hm & Ha); [by left|].
  destruct (IH (add_imported m0 (key, i, a))) as [Hsub' Hall].
  - intros key' a1. unfold add_imported. cbn [fst snd]. destruct (decide (key' = key)) as [->|Hne].
    + rewrite lookup_insert_eq. intros [= <-]. exists accounts. split; [done|]. apply insert_subseteq_l; [done|].
      destruct (m0 !! key) as [a0|] eqn:Hm0; cbn [default from_option]; [|apply map_empty_subseteq].
      destruct (Hsub _ _ Hm0) as (a2 & Hm2 & Hle). unfold id. by replace accounts with a2 by congruence.
    + rewrite lookup_insert_ne by done. apply Hsub.
  - intros key' i' a' Hin. apply Hl. by right.
  - split; [done|]. intros key' i' a' [[[= -> -> ->]|Hin]%elem_of_cons|(acc & Hm0 & Hacc)]; apply Hall.
    + right. eexists. unfold add_imported. cbn [fst snd]. rewrite lookup_insert_eq. split; [done|apply lookup_insert_eq].
    + by left.
    + right. unfold add_imported. cbn [fst snd]. destruct (decide (key' = key)) as [->|Hne].
      * rewrite lookup_insert_eq. eexists. split; [done|]. rewrite Hm0. cbn [default from_option]. unfold id.
        destruct (decide (i' = i)) as [->|]; [|by rewrite lookup_insert_ne by congruence].
        rewrite lookup_insert_eq. destruct (Hsub _ _ Hm0) as (a2 & Hm2 & Hle).
        assert (a2 = accounts) as -> by congruence. pose proof (lookup_weaken _ _ _ _ Hacc Hle). congruence.
      * rewrite lookup_insert_ne by done. by exists acc.
Qed.

Lemma imported_roundtrip m : imported_ok m -> foldl add_imported ∅ (imported_entries m) = m.
Proof.
  intros Hok. destruct (add_imported_fold m (imported_entries m) ∅) as [Hsub Hall].
  - intros key a1. by rewrite lookup_empty.
  - intros key i a Hin. by apply elem_of_imported_entries in Hin.
  - set (m' := foldl add_imported ∅ (imported_entries m)) in *.
    apply map_eq. intros key. destruct (m !! key) as [accounts|] eqn:Hm.
    + destruct (Hok _ _ Hm) as [Hne Hreg]. apply map_choose in Hne as (kind & a & Ha).
      assert (Hcover : forall kind a, accounts !! kind = Some a ->
        exists acc', m' !! key = Some acc' /\ acc' !! kind = Some a).
      { intros kind' a' Ha'. rewrite (Hreg _ _ Ha') in Ha' |- *. apply Hall. left.
        apply elem_of_imported_entries; [done|]. by exists accounts. }
      destruct (Hcover kind a Ha) as (acc' & Hm' & _). rewrite Hm'. f_equal.
      destruct (Hsub _ _ Hm') as (a2 & Hm2 & Hle). assert (a2 = accounts) as -> by congruence.
      apply (anti_symm (⊆)); [done|]. apply map_subseteq_spec. intros kind' a' Ha'.
      destruct (Hcover kind' a' Ha') as (acc2 & H2 & Hk). congruence.
    + destruct (m' !! key) as [acc'|] eqn:Hm'; [|done]. destruct (Hsub _ _ Hm') as (a2 & ? & _). congruence.
Qed.

(** The roots are found among the entries. *)
Definition is_public_entry (d : PersistentAccountData) : bool :=
  match d with PersPublic _ _ _ => true | _ => false end.
Definition is_private_entry (d : PersistentAccountData) : bool :=
  match d with PersPrivate _ _ _ => true | _ => false end.

Lemma public_root_found (t : KeyTree ChildKeysPublic) rest node :
  storable t -> key_map t !! ChainIndex.root = Some node ->
  public_root_of (tree_entries PersPublic t ++ rest) = Some node \/ exists d, d ∈ rest /\ is_public_entry d = true.
Proof.
  intros Hst Hnode. unfold public_root_of. rewrite tree_entries_map.
  destruct (List.find _ _) as [d|] eqn:Hf.
  - apply List.find_some in Hf as [Hin%list_elem_of_In Hd]. destruct d as [id c data| | |]; [|done..].
    apply bool_decide_eq_true_1 in Hd as ->. cbn [mbind option_bind].
    apply elem_of_app in Hin as [([[id' c'] n] & Heq & Hin)%list_elem_of_fmap|Hin]; [left|right; by eexists].
    injection Heq as -> <- ->. apply elem_of_entries in Hin as [_ Hn]. by rewrite Hnode in Hn.
  - exfalso. destruct (storable_nodes t Hst ChainIndex.root) as [id Hid]; [by eexists|].
    apply (List.find_none _ _) with (x := PersPublic id ChainIndex.root node) in Hf.
    + by apply bool_decide_eq_false_1 in Hf.
    + apply list_elem_of_In, elem_of_app. left. apply list_elem_of_fmap.
      exists (id, ChainIndex.root, node). split; [done|]. by apply elem_of_entries.
Qed.

Lemma private_root_found (t : KeyTree ChildKeysPrivate) before rest node :
  storable t -> key_map t !! ChainIndex.root = Some node ->
  private_root_of (before ++ tree_entries (fun id c n => PersPrivate id c (to_private_persistent n)) t ++ rest)
    = Some node \/ exists d, (d ∈ before \/ d ∈ rest) /\ is_private_entry d = true.
Proof.
  intros Hst Hnode. unfold private_root_of. rewrite tree_entries_map.
  destruct (List.find _ _) as [d|] eqn:Hf.
  - apply List.find_some in Hf as [Hin%list_elem_of_In Hd]. destruct d as [|id c data| |]; [done| |done..].
    apply bool_decide_eq_true_1 in Hd as ->. cbn [mbind option_bind].
    apply elem_of_app in Hin as [Hin|Hin]; [right; by eexists; split; [left|]|].
    apply elem_of_app in Hin as [([[id' c'] n] & Heq & Hin)%list_elem_of_fmap|Hin];
      [left|right; by eexists; split; [right|]].
    injection Heq as -> <- ->. apply elem_of_entries in Hin as [_ Hn].
    rewrite private_persistent_roundtrip. by rewrite Hnode in Hn.
  - exfalso. destruct (storable_nodes t Hst ChainIndex.root) as [id Hid]; [by eexists|].
    apply (List.find_none _ _) with (x := PersPrivate id ChainIndex.root (to_private_persistent node)) in Hf.
    + by apply bool_decide_eq_false_1 in Hf.
    + apply list_elem_of_In, elem_of_app. right. apply elem_of_app. left. apply list_elem_of_fmap.
      exists (id, ChainIndex.root, node). split; [done|]. by apply elem_of_entries.
Qed.

(** A key chain that can be stored and restored. *)
Record storable_keys k : Prop := mk_storable_keys {
  storable_public : storable (public_key_tree k);
  storable_private : storable (private_key_tree k);
  storable_imported : imported_ok (imported_private_accounts k);
}.

Lemma from_to_persistent k : storable_keys k -> from_persistent (to_persistent k) = Ok k.
Proof.
  intros [Hpub Hpriv Himp].
  destruct (storable_root _ Hpub) as [pub Hpubn]. destruct (storable_root _ Hpriv) as [priv Hprivn].
  unfold from_persistent, to_persistent. cbn [pers_accounts pers_sealing_secret_key pers_group_key_holders
    pers_shared_private_accounts].
  set (imps := (fun e => PersImportedPublic e.1 e.2) <$> BTree.iter (imported_public_accounts k)).
  assert (Heq : (e ← BTree.iter (imported_private_accounts k);
      (fun a => PersImportedPrivate a.2 (imp_key_chain e.1) (imp_chain_index e.1) (kind_identifier a.1)) <$> BTree.iter e.2)
    = (fun e => PersImportedPrivate e.2 (imp_key_chain e.1.1) (imp_chain_index e.1.1) e.1.2)
        <$> imported_entries (imported_private_accounts k)).
  { unfold imported_entries. induction (BTree.iter (imported_private_accounts k)) as [|[key m] l IH]; [done|].
    cbn [mbind list_bind]. rewrite fmap_app, <- IH, <- list_fmap_compose. done. }
  rewrite Heq. set (impp := _ <$> imported_entries _).
  set (privs := tree_entries (fun id c n => PersPrivate id c (to_private_persistent n)) (private_key_tree k)).
  destruct (public_root_found (public_key_tree k) (privs ++ imps ++ impp) pub Hpub Hpubn) as [->|(d & Hd & Hp)].
  2:{ exfalso. unfold privs, imps, impp in Hd. rewrite tree_entries_map, !elem_of_app, !list_elem_of_fmap in Hd.
      destruct Hd as [(? & -> & _)|[(? & -> & _)|(? & -> & _)]]; done. }
  cbn [ok_or mbind outcome_bind].
  destruct (private_root_found (private_key_tree k) (tree_entries PersPublic (public_key_tree k)) (imps ++ impp)
    priv Hpriv Hprivn) as [Hr|(d & Hd & Hp)].
  2:{ exfalso. unfold imps, impp in Hd. rewrite tree_entries_map, !elem_of_app, !list_elem_of_fmap in Hd.
      destruct Hd as [(? & -> & _)|[(? & -> & _)|(? & -> & _)]]; done. }
  fold privs in Hr. rewrite Hr. cbn [ok_or mbind outcome_bind]. f_equal.
  unfold privs, imps, impp. rewrite !tree_entries_map, !foldl_app.
  rewrite restore_public_entries, restore_private_entries, restore_imported_public, restore_imported_private.
  unfold with_imported_private, with_imported_public, with_private_tree, with_public_tree.
  cbn [public_key_tree private_key_tree imported_public_accounts imported_private_accounts shared_private_accounts group_key_holders sealing_secret_key].
  rewrite (restore_tree_all _ pub Hpub Hpubn), (restore_tree_all _ priv Hpriv Hprivn), (imported_roundtrip _ Himp).
  change (foldl (fun m e => <[e.1:=e.2]> m) ∅ (BTree.iter (imported_public_accounts k)))
    with (BTree.from_iter (BTree.iter (imported_public_accounts k))).
  rewrite BTree.from_iter_iter. by destruct k.
Qed.
End KeyChains.
