(* ===== verification/WalletFacts.v ===== *)
(** Facts about wallets: the invariant of their key chains, storing accounts and
    decoding transactions. *)

From S2P Require Import Prelude Bytes Crypto Account Ids ProgramCore Borsh Host State Encryption Transactions StateDiffs Chain ChainIndex KeyDerivation GroupKeys KeyTree UserKeyChain WalletSync KeyTreeFacts KeyTreeTheorems StorageFacts.

(** ** Predicates kept by generation *)
Section Preserve.
Context {N : Type} `{KeyTreeNode N, OverflowChecks}.
Implicit Types t : KeyTree N.

Lemma children_loop_keeps (Q : KeyTree N -> Prop) D p fuel :
  (forall t t' q o, Q t -> generate_new_node t q = Ok (t', o) -> Q t') ->
  forall t c stack r, Q t -> children_loop fuel D t p c stack = Some (Ok r) -> Q r.1.
Proof.
  intros HQ. induction fuel as [|fuel IH]; intros t c stack r Hq Hr; [done|]. cbn [children_loop] in Hr.
  destruct (ChainIndex.depth c) as [d|[]|msg]; [|done]. case_decide; [|by injection Hr as <-].
  destruct (generate_new_node t p) as [[t1 o]|[]|msg] eqn:Hg; [|done].
  pose proof (HQ _ _ _ _ Hq Hg) as Hq1. destruct (ChainIndex.next_in_line c); [by eapply IH|by injection Hr as <-].
Qed.

Lemma nodes_loop_keeps (Q : KeyTree N -> Prop) D fuel :
  (forall t t' q o, Q t -> generate_new_node t q = Ok (t', o) -> Q t') ->
  forall t stack t', Q t -> nodes_loop fuel D t stack = Some (Ok t') -> Q t'.
Proof.
  intros HQ. induction fuel as [|fuel IH]; intros t stack t' Hq Hr; [done|]. cbn [nodes_loop] in Hr.
  destruct stack as [|c stack]; [by injection Hr as <-|].
  destruct (children_loop _ _ _ _ _ _) as [[[t1 st]|[]|msg]|] eqn:Hc; [|done..].
  eapply IH; [|exact Hr]. by apply (children_loop_keeps Q _ _ _ HQ _ _ _ _ Hq Hc).
Qed.

Lemma generate_tree_keeps (Q : KeyTree N -> Prop) D t t' :
  (forall t t' q o, Q t -> generate_new_node t q = Ok (t', o) -> Q t') ->
  Q t -> generate_tree_for_depth t D = Ok t' -> Q t'.
Proof.
  intros HQ Hq. unfold generate_tree_for_depth. destruct (nodes_loop _ _ _ _) as [r|] eqn:Hr; [|done].
  cbn [default from_option]. unfold id. intros ->. by eapply nodes_loop_keeps.
Qed.

(** A new node is derived at its own last segment. *)
Lemma generate_new_node_derived t t' p o :
  generate_new_node t p = Ok (t', o) ->
  (t' = t) \/ exists i parent child, derive_child parent i = Ok child /\ t' = add_node (p ++ [i]) child t.
Proof.
  unfold generate_new_node. destruct (key_map t !! p) as [parent|]; [|intros [= <- _]; by left].
  intros (ofind & _ & Hg)%bind_ok. apply bind_ok in Hg as (i & _ & Hg). apply bind_ok in Hg as (child & Hd & [= <- _]).
  right. by exists i, parent, child.
Qed.

Lemma fill_node_derived t t' c o :
  fill_node t c = Ok (t', o) ->
  (t' = t) \/ exists p i parent child, c = p ++ [i] /\ derive_child parent i = Ok child /\ t' = add_node c child t.
Proof.
  unfold fill_node. destruct c as [|i p _] using rev_ind; [intros [= <- _]; by left|].
  rewrite ChainIndex.parent_snoc, last_snoc. cbn [mbind option_bind].
  destruct (key_map t !! p) as [parent|]; [|intros [= <- _]; by left].
  intros (child & Hd & [= <- _])%bind_ok. right. by exists p, i, parent, child.
Qed.
End Preserve.

(** ** The invariant of key chains *)
Section Wallets.
Context `{HmacSha512, K256, Sha256, ChainIndex.Itertools, !ChainIndex.ItertoolsLaws}.
Implicit Types k : UserKeyChain.

(** The viewing key of a node is the one its index derives. *)
Definition viewing_ok (t : KeyTree ChildKeysPrivate) : Prop := forall c node, key_map t !! c = Some node ->
  from_scalar (generate_viewing_secret_key (secret_spending_key (priv_value node).1) (ChainIndex.index c)) =
    Ok (vpk_bytes (viewing_public_key (priv_value node).1)).

Definition occupied (t : KeyTree ChildKeysPrivate) : Prop := forall c node, key_map t !! c = Some node ->
  (priv_value node).2 <> ∅.

Record keys_inv k : Prop := mk_keys_inv {
  inv_public_shape : shape (public_key_tree k);
  inv_public_accounts : accounts_ok (public_key_tree k);
  inv_private_shape : shape (private_key_tree k);
  inv_private_accounts : accounts_ok (private_key_tree k);
  inv_occupied : occupied (private_key_tree k);
  inv_viewing : viewing_ok (private_key_tree k);
  inv_imported : imported_ok (imported_private_accounts k);
}.

Lemma elem_of_private_ids (node : ChildKeysPrivate) id :
  id ∈ account_ids node <->
  exists kind, is_Some ((priv_value node).2 !! kind) /\ id = for_private_account (nullifier_public_key (priv_value node).1) kind.
Proof.
  change (account_ids node) with (private_account_ids node). unfold private_account_ids.
  rewrite list_elem_of_fmap. setoid_rewrite BTree.elem_of_keys. naive_solver.
Qed.

Lemma keys_inv_storable k : keys_inv k -> storable_keys k.
Proof.
  intros [Hps Hpa Hs Ha Hocc _ Himp]. constructor; [by apply accounts_ok_storable| |done].
  apply accounts_ok_storable; [done|done|]. intros c node Hn Hids.
  apply Hocc in Hn. apply map_choose in Hn as (kind & a & Hk).
  assert (Hin : for_private_account (nullifier_public_key (priv_value node).1) kind ∈ account_ids node).
  { apply elem_of_private_ids. exists kind. split; [by eexists|done]. }
  rewrite Hids in Hin. by apply elem_of_nil in Hin.
Qed.

Lemma private_node_ok ssk ccc cci node :
  private_node ssk ccc cci = Ok node ->
  (priv_value node).2 <> ∅ /\
  from_scalar (generate_viewing_secret_key (secret_spending_key (priv_value node).1) cci) =
    Ok (vpk_bytes (viewing_public_key (priv_value node).1)).
Proof.
  intros (p & Hp & [= <-])%bind_ok. cbn [priv_value fst snd secret_spending_key viewing_public_key vpk_bytes].
  split; [|done]. apply map_non_empty_singleton.
Qed.

Lemma derived_node_ok (parent child : ChildKeysPrivate) i :
  derive_child parent i = Ok child ->
  (priv_value child).2 <> ∅ /\
  from_scalar (generate_viewing_secret_key (secret_spending_key (priv_value child).1) (Some i)) =
    Ok (vpk_bytes (viewing_public_key (priv_value child).1)).
Proof.
  cbn [derive_child ChildKeysPrivate_node]. unfold private_nth_child.
  intros (nsk & _ & Hd)%bind_ok. apply bind_ok in Hd as (vsk & _ & Hd). by apply private_node_ok in Hd.
Qed.

Definition nodes_ok (t : KeyTree ChildKeysPrivate) : Prop := occupied t /\ viewing_ok t.

Lemma nodes_ok_add t p i (parent child : ChildKeysPrivate) :
  nodes_ok t -> derive_child parent i = Ok child -> nodes_ok (add_node (p ++ [i]) child t).
Proof.
  intros [Hocc Hview] [Hne Hv]%derived_node_ok.
  split; intros c node; cbn [add_node key_map]; destruct (decide (c = p ++ [i])) as [->|Hc].
  - rewrite lookup_insert_eq. by intros [= <-].
  - rewrite lookup_insert_ne by done. apply Hocc.
  - rewrite lookup_insert_eq. intros [= <-]. unfold ChainIndex.index. by rewrite last_snoc.
  - rewrite lookup_insert_ne by done. apply Hview.
Qed.

Lemma nodes_ok_generate t t' p o : nodes_ok t -> generate_new_node t p = Ok (t', o) -> nodes_ok t'.
Proof.
  intros Hok [->|(i & parent & child & Hd & ->)]%generate_new_node_derived; [done|]. by eapply nodes_ok_add.
Qed.
Lemma nodes_ok_layered t t' o : nodes_ok t -> generate_new_node_layered t = Ok (t', o) -> nodes_ok t'.
Proof.
  intros Hok (c & _ & Hg)%bind_ok.
  apply fill_node_derived in Hg as [->|(p & i & parent & child & -> & Hd & ->)]; [done|]. by eapply nodes_ok_add.
Qed.
Lemma nodes_ok_cleaned removable P t t' : nodes_ok t -> cleaned removable P t t' -> nodes_ok t'.
Proof. intros [Hocc Hview] [_ _ Hsub _]. split; intros c node Hn%Hsub; [by eapply Hocc|by apply Hview]. Qed.

(** *** Storing an account *)
Lemma shape_overwrite (t : KeyTree ChildKeysPrivate) c node m :
  shape t -> present t c -> shape (mk_KeyTree (<[c := node]> (key_map t)) m).
Proof.
  intros Hs Hc. assert (Hp : forall d, present (mk_KeyTree (<[c := node]> (key_map t)) m) d <-> present t d).
  { intros d. unfold present at 1. cbn [key_map]. destruct (decide (d = c)) as [->|].
    - rewrite lookup_insert_eq. split; [done|by eexists].
    - by rewrite lookup_insert_ne. }
  constructor.
  - apply Hp, Hs.
  - intros d. rewrite Hp. apply (shape_wf t Hs).
  - intros p i. rewrite !Hp. apply (shape_parent t Hs).
  - intros p i. rewrite !Hp. apply (shape_gap t Hs).
Qed.

Lemma set_node_account_ids kind a node id :
  id ∈ account_ids (set_node_account kind a node) <->
  id = for_private_account (nullifier_public_key (priv_value node).1) kind \/ id ∈ account_ids node.
Proof.
  rewrite !elem_of_private_ids. unfold set_node_account. cbn [priv_value fst snd]. split.
  - intros (kind' & Hk & ->). destruct (decide (kind' = kind)) as [->|Hne]; [by left|].
    rewrite lookup_insert_ne in Hk by done. right. by exists kind'.
  - intros [->|(kind' & Hk & ->)].
    + exists kind. rewrite lookup_insert_eq. split; [by eexists|done].
    + exists kind'. split; [|done]. destruct (decide (kind' = kind)) as [->|].
      * rewrite lookup_insert_eq. by eexists.
      * by rewrite lookup_insert_ne.
Qed.

Lemma store_accounts_ok (t : KeyTree ChildKeysPrivate) c node id kind a :
  accounts_ok t -> key_map t !! c = Some node ->
  id = for_private_account (nullifier_public_key (priv_value node).1) kind ->
  account_id_map t !! id = Some c \/ account_id_map t !! id = None ->
  accounts_ok (mk_KeyTree (<[c := set_node_account kind a node]> (key_map t)) (<[id := c]> (account_id_map t))).
Proof.
  intros Ha Hc Hid Hmap id' d. cbn [key_map account_id_map]. destruct (decide (d = c)) as [->|Hd].
  - rewrite lookup_insert_eq. split.
    + intros Hid'. exists (set_node_account kind a node). split; [done|]. apply set_node_account_ids.
      destruct (decide (id' = id)) as [->|Hne]; [by left|]. rewrite lookup_insert_ne in Hid' by done.
      apply Ha in Hid' as (n & Hn & Hin). right. congruence.
    + intros (n & [= <-] & Hin). apply set_node_account_ids in Hin as [->|Hin].
      * rewrite <- Hid. apply lookup_insert_eq.
      * destruct (decide (id' = id)) as [->|Hne]; [apply lookup_insert_eq|].
        rewrite lookup_insert_ne by done. apply Ha. by exists node.
  - rewrite (lookup_insert_ne (key_map t)) by done. destruct (decide (id' = id)) as [->|Hne].
    + rewrite lookup_insert_eq. split; [intros [= ->]; done|]. intros Hn. apply (Ha id d) in Hn.
      destruct Hmap; congruence.
    + rewrite lookup_insert_ne by done. apply (Ha id' d).
Qed.

Lemma nodes_ok_store t c node kind a m :
  nodes_ok t -> key_map t !! c = Some node ->
  nodes_ok (mk_KeyTree (<[c := set_node_account kind a node]> (key_map t)) m).
Proof.
  intros [Hocc Hview] Hc. split; intros d n; cbn [key_map]; destruct (decide (d = c)) as [->|Hd].
  - rewrite lookup_insert_eq. intros [= <-]. apply insert_non_empty.
  - rewrite lookup_insert_ne by done. apply Hocc.
  - rewrite lookup_insert_eq. intros [= <-]. by apply (Hview c node).
  - rewrite lookup_insert_ne by done. apply Hview.
Qed.

Lemma find_imported_some k id key kind :
  find_imported k id = Some (key, kind) ->
  exists accounts, imported_private_accounts k !! key = Some accounts /\ is_Some (accounts !! kind) /\
    for_private_account (nullifier_public_key (imp_key_chain key)) kind = id.
Proof.
  intros [Hin%list_elem_of_In Hid]%List.find_some. cbn [fst snd] in Hid.
  apply list_elem_of_bind in Hin as ([key' accounts] & Hk & Hm%BTree.elem_of_iter).
  apply list_elem_of_fmap in Hk as (kind' & [= -> ->] & Hk%BTree.elem_of_keys).
  exists accounts. split; [done|]. split; [done|]. by apply bool_decide_eq_true_1 in Hid.
Qed.

Lemma imported_ok_store m key kind a accounts :
  imported_ok m -> m !! key = Some accounts -> is_Some (accounts !! kind) ->
  imported_ok (alter <[kind := a]> key m).
Proof.
  intros Hok Hm [a0 Ha0] key' acc. destruct (decide (key' = key)) as [->|Hne].
  - rewrite lookup_alter_eq, Hm. intros [= <-]. destruct (Hok _ _ Hm) as [_ Hreg].
    split; [apply insert_non_empty|]. intros kind' a' Hk. destruct (decide (kind' = kind)) as [->|].
    + by apply (Hreg kind a0).
    + rewrite lookup_insert_ne in Hk by done. by apply (Hreg kind' a').
  - rewrite lookup_alter_ne by done. apply Hok.
Qed.

(** The node of an account id, as [insert_private_account] finds it. *)
Lemma insert_tree_case k id kind a k' :
  keys_inv k ->
  shared_private_accounts k !! id = None -> find_imported k id = None ->
  insert_private_account k id kind a = Ok k' ->
  (forall c node, account_id_map (private_key_tree k) !! id = Some c -> key_map (private_key_tree k) !! c = Some node ->
     id = for_private_account (nullifier_public_key (priv_value node).1) kind) ->
  exists c node, key_map (private_key_tree k) !! c = Some node /\
    id = for_private_account (nullifier_public_key (priv_value node).1) kind /\
    (account_id_map (private_key_tree k) !! id = Some c \/ account_id_map (private_key_tree k) !! id = None) /\
    k' = with_private_tree (mk_KeyTree (<[c := set_node_account kind a node]> (key_map (private_key_tree k)))
           (<[id := c]> (account_id_map (private_key_tree k)))) k.
Proof.
  intros Hinv Hsh Himp Hins Hcons. unfold insert_private_account in Hins. rewrite Hsh, Himp in Hins.
  destruct (account_id_map (private_key_tree k) !! id) as [c|] eqn:Hid.
  - apply bind_ok in Hins as (node & Hn%expect_ok & [= <-]). exists c, node. split; [done|].
    split; [by apply (Hcons c)|]. split; [by left|]. by rewrite (insert_id (account_id_map (private_key_tree k))).
  - destruct (List.find _ _) as [[c node]|] eqn:Hf; [|done]. injection Hins as <-.
    apply List.find_some in Hf as [Hin%list_elem_of_In Heq%bool_decide_eq_true_1].
    apply BTree.elem_of_iter in Hin. exists c, node. split; [done|]. split; [done|]. split; [by right|done].
Qed.

Lemma insert_inv k id kind a k' :
  keys_inv k -> insert_private_account k id kind a = Ok k' ->
  (forall c node, account_id_map (private_key_tree k) !! id = Some c -> key_map (private_key_tree k) !! c = Some node ->
     id = for_private_account (nullifier_public_key (priv_value node).1) kind) ->
  keys_inv k'.
Proof.
  intros Hinv Hins Hcons. destruct (shared_private_accounts k !! id) as [e|] eqn:Hsh.
  { unfold insert_private_account in Hins. rewrite Hsh in Hins. injection Hins as <-. by destruct Hinv. }
  destruct (find_imported k id) as [[key kind']|] eqn:Himp.
  { unfold insert_private_account in Hins. rewrite Hsh, Himp in Hins. injection Hins as <-.
    apply find_imported_some in Himp as (accounts & Hm & Hk & _).
    destruct Hinv. constructor; [done..|]. by eapply imported_ok_store. }
  destruct (insert_tree_case k id kind a k' Hinv Hsh Himp Hins Hcons) as (c & node & Hn & Hid & Hmap & ->).
  destruct Hinv as [Hps Hpa Hs Ha Hocc Hview Hok].
  destruct (nodes_ok_store (private_key_tree k) c node kind a (<[id := c]> (account_id_map (private_key_tree k)))
    (conj Hocc Hview) Hn) as [Hocc' Hview'].
  constructor; [done|done| | |done|done|done].
  - apply shape_overwrite; [done|by eexists].
  - by apply store_accounts_ok.
Qed.
End Wallets.
