(* ===== verification/SyncFacts.v ===== *)
(** Facts about synchronisation: which private accounts a wallet decodes from a
    transaction, and how they are stored. *)

From S2P Require Import Prelude Bytes Crypto Account Ids ProgramCore Borsh Host State Encryption Transactions StateDiffs Chain ChainIndex KeyDerivation GroupKeys KeyTree UserKeyChain WalletSync KeyTreeFacts KeyTreeTheorems StorageFacts WalletFacts.

Section Sync.
Context `{HmacSha512, K256, Sha256, ChaCha20, ChainIndex.Itertools, !ChainIndex.ItertoolsLaws}.
Implicit Types k : UserKeyChain.
Implicit Types m : PrivacyMessage.

Abbreviation npk_of node := (nullifier_public_key (priv_value node).1).
Abbreviation vpk_of node := (viewing_public_key (priv_value node).1).
Abbreviation node_at k c := (key_map (private_key_tree k) !! c).
Abbreviation id_of node kind := (for_private_account (npk_of node) kind).

(** ** Decoding *)

(** Output [j] of the message decodes to an account of the key chain. *)
Definition decoded (key_chain : KeyChain) (index : option ChainIndex) m (j : nat) kind a : Prop :=
  exists o comm s, encrypted_private_post_states m !! j = Some o /\ priv_new_commitments m !! j = Some comm /\
    view_tag o = compute_view_tag (nullifier_public_key key_chain) (viewing_public_key key_chain) /\
    calculate_shared_secret_receiver key_chain (epk o) (i ← index; ChainIndex.index i) = Ok s /\
    decrypt (ciphertext o) s comm (Z.of_nat j) = Some (kind, a).

(** Every output with the view tag of the key chain can be decoded. *)
Definition readable (key_chain : KeyChain) (index : option ChainIndex) m : Prop := forall j o,
  encrypted_private_post_states m !! j = Some o ->
  view_tag o = compute_view_tag (nullifier_public_key key_chain) (viewing_public_key key_chain) ->
  is_Some (priv_new_commitments m !! j) /\ Z.of_nat j < 2 ^ 32 /\
  exists s, calculate_shared_secret_receiver key_chain (epk o) (i ← index; ChainIndex.index i) = Ok s.

Lemma exists_from (P : nat -> Prop) n :
  (exists j, (n <= j)%nat /\ P j) <-> P n \/ exists j, (S n <= j)%nat /\ P j.
Proof.
  split.
  - intros (j & Hj & HP). destruct (decide (j = n)) as [->|]; [by left|]. right. exists j. split; [lia|done].
  - intros [HP|(j & Hj & HP)]; eexists; (split; [|exact HP]); lia.
Qed.
Lemma received_accounts_spec key_chain index m : forall outputs n,
  (forall j, outputs !! j = encrypted_private_post_states m !! (n + j)%nat) -> readable key_chain index m ->
  exists l, received_accounts key_chain index (priv_new_commitments m) n outputs = Ok l /\
    forall e, e ∈ l <-> exists j, (n <= j)%nat /\ decoded key_chain index m j e.1.2 e.2 /\
      e.1.1 = for_private_account (nullifier_public_key key_chain) e.1.2.
Proof.
  induction outputs as [|o outputs IH]; intros n Hat Hread.
  { exists []. split; [done|]. intros e. split; [by intros ?%elem_of_nil|].
    intros (j & Hj & (o & comm & s & Ho & _) & _). specialize (Hat (j - n)%nat).
    rewrite Nat.add_comm, Nat.sub_add in Hat by done. rewrite lookup_nil in Hat. congruence. }
  assert (Ho : encrypted_private_post_states m !! n = Some o).
  { specialize (Hat 0%nat). by rewrite Nat.add_0_r in Hat. }
  destruct (IH (S n)) as (l & Hl & Hall); [|done|].
  { intros j. specialize (Hat (S j)). rewrite Nat.add_succ_r in Hat. exact Hat. }
  pose proof (fun P => exists_from P n) as Hmore.
  cbn [received_accounts]. case_decide as Htag.
  - destruct (Hread n o Ho Htag) as ([comm Hc] & Hn & s & Hs).
    rewrite Hc. cbn [expect mbind outcome_bind]. rewrite Hs. cbn [mbind outcome_bind].
    rewrite decide_True by done. cbn [expect mbind outcome_bind]. rewrite Hl. cbn [mbind outcome_bind].
    assert (Hdec : forall kind a, decoded key_chain index m n kind a <->
      decrypt (ciphertext o) s comm (Z.of_nat n) = Some (kind, a)).
    { intros kind a. split.
      - intros (o' & comm' & s' & Ho' & Hc' & _ & Hs' & Hd). congruence.
      - intros Hd. by exists o, comm, s. }
    eexists. split; [done|]. intros e. rewrite Hmore, Hdec, <- Hall.
    destruct (decrypt _ _ _ _) as [[kind a]|]; [|naive_solver].
    rewrite elem_of_cons. destruct e as [[id kind'] a']. cbn [fst snd]. naive_solver.
  - exists l. split; [done|]. intros e. rewrite Hmore, Hall. split; [by right|].
    intros [[(o' & comm & s & ? & _ & ? & _) _]|He]; [by simplify_eq|done].
Qed.

Lemma fold_collect {A B} (f : A -> guest (list B)) (P : A -> B -> Prop) l : forall acc,
  (forall x, x ∈ l -> exists r, f x = Ok r /\ forall b, b ∈ r <-> P x b) ->
  exists r, fold_o (fun acc x => r ← f x; Ok (acc ++ r)) acc l = Ok (acc ++ r) /\
    forall b, b ∈ r <-> exists x, x ∈ l /\ P x b.
Proof.
  induction l as [|x l IH]; intros acc Hf; cbn [fold_o].
  { exists []. rewrite app_nil_r. split; [done|]. intros b. split; [by intros ?%elem_of_nil|].
    by intros (x & ?%elem_of_nil & _). }
  destruct (Hf x) as (r & -> & Hr); [by left|]. cbn [mbind outcome_bind].
  destruct (IH (acc ++ r)) as (r' & -> & Hr'). { intros y Hy. apply Hf. by right. }
  exists (r ++ r'). rewrite app_assoc. split; [done|]. intros b. rewrite elem_of_app, Hr, Hr'.
  setoid_rewrite elem_of_cons. naive_solver.
Qed.

Lemma affected_accounts_spec k m :
  (forall e, e ∈ private_account_key_chains k -> readable e.1.2 e.2 m) ->
  exists l, affected_accounts k m = Ok l /\
    forall r, r ∈ l <-> exists e, e ∈ private_account_key_chains k /\ exists j,
      decoded e.1.2 e.2 m j r.1.2 r.2 /\ r.1.1 = for_private_account (nullifier_public_key e.1.2) r.1.2.
Proof.
  intros Hread. unfold affected_accounts.
  destruct (fold_collect
    (fun e : AccountId * KeyChain * option ChainIndex =>
       received_accounts e.1.2 e.2 (priv_new_commitments m) 0 (encrypted_private_post_states m))
    (fun e r => exists j, decoded e.1.2 e.2 m j r.1.2 r.2 /\
       r.1.1 = for_private_account (nullifier_public_key e.1.2) r.1.2)
    (private_account_key_chains k) []) as (l & Hl & Hall).
  - intros e He. destruct (received_accounts_spec e.1.2 e.2 m (encrypted_private_post_states m) 0) as (r & Hr & Hm).
    + done.
    + by apply Hread.
    + exists r. split; [done|]. intros b. rewrite Hm. split.
      * intros (j & _ & Hj). by exists j.
      * intros (j & Hj). exists j. split; [lia|done].
  - exists l. split; [exact Hl|exact Hall].
Qed.

(** ** Storing *)

(** A wallet all of whose private accounts are in its tree. *)
Definition tree_only k : Prop := imported_private_accounts k = ∅ /\ shared_private_accounts k = ∅.

(** No two key chains of the tree and no two kinds among [K] share an account
    id. *)
Definition clash_free k (K : PrivateAccountKind -> Prop) : Prop := forall c d node node' kind kind',
  node_at k c = Some node -> node_at k d = Some node' -> K kind -> K kind' ->
  id_of node kind = id_of node' kind' -> npk_of node = npk_of node' /\ kind = kind'.

Definition covered k (K : PrivateAccountKind -> Prop) : Prop := forall c node kind,
  node_at k c = Some node -> is_Some ((priv_value node).2 !! kind) -> K kind.

(** The account of an id in the tree. *)
Definition holds k id a : Prop := exists c node kind,
  account_id_map (private_key_tree k) !! id = Some c /\ node_at k c = Some node /\
  id = id_of node kind /\ (priv_value node).2 !! kind = Some a.

Record storing k (K : PrivateAccountKind -> Prop) : Prop := mk_storing {
  storing_inv : keys_inv k;
  storing_tree : tree_only k;
  storing_clash : clash_free k K;
  storing_covered : covered k K;
}.

Lemma find_imported_none k id : tree_only k -> find_imported k id = None.
Proof. intros [Himp _]. unfold find_imported. rewrite Himp, BTree.iter_empty. done. Qed.

(** A store succeeds for the id of a key chain of the tree. *)
Lemma store_succeeds k K c node kind a :
  storing k K -> node_at k c = Some node -> K kind ->
  exists k', insert_private_account k (id_of node kind) kind a = Ok k'.
Proof.
  intros [Hinv Htree _ _] Hc Hk. unfold insert_private_account.
  rewrite (proj2 Htree), lookup_empty, (find_imported_none k _ Htree).
  destruct (account_id_map _ !! _) as [d|] eqn:Hd.
  - apply (inv_private_accounts k Hinv) in Hd as (n & Hn & _). rewrite Hn. by eexists.
  - destruct (List.find _ _) as [[ci n]|] eqn:Hf; [by eexists|]. exfalso.
    apply (List.find_none _ _) with (x := (c, node)) in Hf.
    + by apply bool_decide_eq_false_1 in Hf.
    + by apply list_elem_of_In, BTree.elem_of_iter.
Qed.

Lemma owner_of_id k K c node kind d node' :
  storing k K -> node_at k c = Some node -> K kind ->
  account_id_map (private_key_tree k) !! id_of node kind = Some d -> node_at k d = Some node' ->
  npk_of node = npk_of node' /\ is_Some ((priv_value node').2 !! kind).
Proof.
  intros [Hinv _ Hclash Hcov] Hc Hk Hid Hd. apply (inv_private_accounts k Hinv) in Hid as (n & Hn & Hin).
  assert (n = node') as -> by congruence. apply elem_of_private_ids in Hin as (kind' & Hkind' & Heq).
  destruct (Hclash c d node node' kind kind') as [? ->]; [done..| |done|done]. by eapply Hcov.
Qed.

Lemma store_step k K c node kind a :
  storing k K -> node_at k c = Some node -> K kind ->
  exists k', store_affected k (id_of node kind, kind, a) = Ok k' /\ storing k' K /\
    (forall d n, node_at k d = Some n -> exists n', node_at k' d = Some n' /\ npk_of n' = npk_of n) /\
    holds k' (id_of node kind) a /\ forall id b, id <> id_of node kind -> holds k id b -> holds k' id b.
Proof.
  intros Hst Hc Hk. destruct (store_succeeds k K c node kind a Hst Hc Hk) as [k' Hins].
  exists k'. unfold store_affected. cbn [fst snd]. rewrite Hins. split; [done|].
  assert (Hnames : forall d n, account_id_map (private_key_tree k) !! id_of node kind = Some d -> node_at k d = Some n ->
    id_of node kind = id_of n kind).
  { intros d n Hid Hd. by destruct (owner_of_id k K c node kind d n Hst Hc Hk Hid Hd) as [-> _]. }
  assert (Hinv' : keys_inv k') by (eapply insert_inv; [apply Hst|exact Hins|exact Hnames]).
  destruct Hst as [Hinv Htree Hclash Hcov].
  destruct (insert_tree_case k (id_of node kind) kind a k' Hinv) as (d & n & Hd & Hid & Hmap & Hk').
  { by rewrite (proj2 Htree), lookup_empty. }
  { by apply find_imported_none. }
  { done. }
  { exact Hnames. }
  assert (Hback : forall e n', node_at k' e = Some n' -> exists n0, node_at k e = Some n0 /\ npk_of n' = npk_of n0 /\
    forall kd, is_Some ((priv_value n').2 !! kd) -> kd = kind \/ is_Some ((priv_value n0).2 !! kd)).
  { intros e n'. rewrite Hk'. unfold with_private_tree. cbn [private_key_tree with_private_tree key_map].
    intros [[<- <-]|[Hne He]]%lookup_insert_Some; [|by exists n'; auto].
    exists n. split; [done|]. split; [done|]. intros kd. cbn [set_node_account priv_value snd].
    destruct (decide (kd = kind)) as [->|Hkd]; [by left|]. rewrite lookup_insert_ne by done. by right. }
  split; [|split; [|split]].
  - split; [done|by rewrite Hk'| |].
    + intros c1 c2 n1 n2 k1 k2 (m1 & Hm1 & -> & _)%Hback (m2 & Hm2 & -> & _)%Hback. by eapply Hclash.
    + intros e n' kd (n0 & Hn0 & _ & Hkinds)%Hback Hkd. apply Hkinds in Hkd as [->|Hkd]; [done|by eapply Hcov].
  - intros e n0 He. rewrite Hk'. unfold with_private_tree. cbn [private_key_tree with_private_tree key_map]. destruct (decide (e = d)) as [->|Hne].
    + rewrite lookup_insert_eq. eexists. split; [done|]. cbn [set_node_account priv_value fst]. congruence.
    + rewrite lookup_insert_ne by done. by exists n0.
  - rewrite Hk'. unfold with_private_tree. exists d, (set_node_account kind a n), kind.
    cbn [private_key_tree with_private_tree key_map account_id_map set_node_account priv_value fst snd].
    rewrite !lookup_insert_eq. done.
  - intros id b Hne (e & n0 & kd & Hide & He & -> & Hkd). rewrite Hk'. unfold with_private_tree.
    exists e, (if decide (e = d) then set_node_account kind a n else n0), kd.
    cbn [private_key_tree key_map account_id_map].
    rewrite lookup_insert_ne by done. split; [done|]. case_decide as Hed.
    + subst e. assert (n0 = n) as -> by congruence. rewrite lookup_insert_eq. split; [done|]. split; [done|].
      cbn [set_node_account priv_value snd]. rewrite lookup_insert_ne; [done|]. intros ->. by rewrite Hid in Hne.
    + by rewrite lookup_insert_ne.
Qed.

(** All decoded accounts are stored; an id whose entries agree ends with their
    account. *)
Lemma store_all K : forall l k,
  storing k K ->
  (forall e, e ∈ l -> exists c node, node_at k c = Some node /\ e.1.1 = id_of node e.1.2 /\ K e.1.2) ->
  exists k', fold_o store_affected k l = Ok k' /\ storing k' K /\
    forall id a, (forall e, e ∈ l -> e.1.1 = id -> e.2 = a) ->
      holds k id a \/ (exists e, e ∈ l /\ e.1.1 = id) -> holds k' id a.
Proof.
  induction l as [|[[id kind] a] l IH]; intros k Hst Hall; cbn [fold_o].
  { exists k. split; [done|]. split; [done|]. intros id a _ [?|(e & ?%elem_of_nil & _)]; done. }
  destruct (Hall (id, kind, a)) as (c & node & Hc & Hid & Hk); [by left|]. cbn [fst snd] in Hid, Hk. subst id.
  destruct (store_step k K c node kind a Hst Hc Hk) as (k1 & -> & Hst1 & Hnpk & Hheld & Hkept).
  cbn [mbind outcome_bind]. destruct (IH k1 Hst1) as (k' & Hk' & Hst' & Hend).
  { intros e He. destruct (Hall e) as (d & n & Hd & Hide & Hke); [by right|].
    destruct (Hnpk d n Hd) as (n' & Hn' & Hnn). exists d, n'. rewrite Hnn. done. }
  exists k'. split; [done|]. split; [done|]. intros id b Hagree Hid. apply Hend.
  { intros e He. apply Hagree. by right. }
  destruct (decide (id = id_of node kind)) as [->|Hne].
  - left. assert (a = b) as <- by (apply (Hagree (id_of node kind, kind, a)); [by left|done]). done.
  - destruct Hid as [Hid|(e & [->|He]%elem_of_cons & Heq)]; [left; by apply Hkept| |right; by exists e].
    by destruct Hne.
Qed.

(** The wallet reports the account it holds. *)
Lemma holds_account k K id a : storing k K -> holds k id a -> get_account_private k id = Some a.
Proof.
  intros Hst (c & node & kind & Hid & Hc & -> & Hk). pose proof (storing_covered k K Hst c node kind Hc ltac:(by eexists)) as HK.
  unfold get_account_private, private_account. unfold found_imported.
  rewrite (proj1 (storing_tree k K Hst)), BTree.iter_empty. cbn [mbind list_bind app].
  destruct (List.find _ _) as [f|] eqn:Hf.
  - apply List.find_some in Hf as [Hin%list_elem_of_In Heq%bool_decide_eq_true_1].
    apply list_elem_of_bind in Hin as ([d n] & Hin & Hd%BTree.elem_of_iter).
    apply list_elem_of_fmap in Hin as ([kd b] & -> & Hkd%BTree.elem_of_iter). cbn [fst snd] in Hkd, Hd.
    unfold found_id in Heq. cbn [found_key_chain found_kind fst snd] in Heq.
    destruct (storing_clash k K Hst d c n node kd kind Hd Hc) as [_ ->]; [|done|done|].
    { apply (storing_covered k K Hst d n kd Hd). by exists b. }
    assert (Hid' : account_id_map (private_key_tree k) !! id_of node kind = Some d).
    { apply (inv_private_accounts k (storing_inv k K Hst)). exists n. split; [done|].
      rewrite <- Heq. apply elem_of_private_ids. exists kind. split; [by exists b|done]. }
    assert (d = c) as -> by congruence. cbn. congruence.
  - exfalso. apply (List.find_none _ _) with (x := mk_Found a (priv_value node).1 kind (Some c)) in Hf.
    + by apply bool_decide_eq_false_1 in Hf.
    + apply list_elem_of_In, list_elem_of_bind. exists (c, node). split; [|by apply BTree.elem_of_iter].
      apply list_elem_of_fmap. exists (kind, a). split; [done|by apply BTree.elem_of_iter].
Qed.
(** *** Decoding that returns has read every output with a matching tag *)
Lemma received_readable key_chain index m : forall outputs n l,
  (forall j, outputs !! j = encrypted_private_post_states m !! (n + j)%nat) ->
  received_accounts key_chain index (priv_new_commitments m) n outputs = Ok l ->
  forall j o, (n <= j)%nat -> encrypted_private_post_states m !! j = Some o ->
    view_tag o = compute_view_tag (nullifier_public_key key_chain) (viewing_public_key key_chain) ->
    is_Some (priv_new_commitments m !! j) /\ Z.of_nat j < 2 ^ 32 /\
    exists s, calculate_shared_secret_receiver key_chain (epk o) (i ← index; ChainIndex.index i) = Ok s.
Proof.
  induction outputs as [|o outputs IH]; intros n l Hat Hl j o' Hj Ho' Htag.
  { specialize (Hat (j - n)%nat). rewrite Nat.add_comm, Nat.sub_add in Hat by done.
    rewrite lookup_nil in Hat. congruence. }
  assert (Ho : encrypted_private_post_states m !! n = Some o).
  { specialize (Hat 0%nat). by rewrite Nat.add_0_r in Hat. }
  assert (Hnext : forall i, outputs !! i = encrypted_private_post_states m !! (S n + i)%nat).
  { intros i. specialize (Hat (S i)). rewrite Nat.add_succ_r in Hat. exact Hat. }
  cbn [received_accounts] in Hl. case_decide as Hd.
  - apply bind_ok in Hl as (comm & Hc%expect_ok & Hl). apply bind_ok in Hl as (s & Hs & Hl).
    apply bind_ok in Hl as (i & Hi%expect_ok & Hl). apply bind_ok in Hl as (rest & Hrest & _).
    destruct (decide (j = n)) as [->|Hne]; [|by apply (IH (S n) rest Hnext Hrest j o'); [lia|..]].
    assert (o' = o) as -> by congruence. rewrite Hc. split; [by eexists|].
    case_decide; [|done]. split; [done|by exists s].
  - destruct (decide (j = n)) as [->|Hne]; [congruence|]. by apply (IH (S n) l Hnext Hl j o'); [lia|..].
Qed.

Lemma collected {A B} (f : A -> guest (list B)) l : forall acc r,
  fold_o (fun acc x => r ← f x; Ok (acc ++ r)) acc l = Ok r -> forall x, x ∈ l -> exists r', f x = Ok r'.
Proof.
  induction l as [|y l IH]; intros acc r Hf x; [by intros ?%elem_of_nil|]. cbn [fold_o] in Hf.
  apply bind_ok in Hf as (acc' & (r' & Hr & _)%bind_ok & Hf). intros [->|Hx]%elem_of_cons; [by exists r'|by eapply IH].
Qed.

Lemma affected_readable k m l :
  affected_accounts k m = Ok l -> forall e, e ∈ private_account_key_chains k -> readable e.1.2 e.2 m.
Proof.
  intros Hl e He. destruct (collected
    (fun e : AccountId * KeyChain * option ChainIndex =>
       received_accounts e.1.2 e.2 (priv_new_commitments m) 0 (encrypted_private_post_states m))
    _ _ _ Hl e He) as [r Hr].
  intros j o Ho Htag. eapply received_readable; [|exact Hr|lia|done|done]. done.
Qed.

(** A shared secret needs 33 bytes of ephemeral key. *)
Lemma short_key_unreadable key_chain index m o :
  o ∈ encrypted_private_post_states m ->
  view_tag o = compute_view_tag (nullifier_public_key key_chain) (viewing_public_key key_chain) ->
  length (epk_bytes (epk o)) <> 33%nat -> ~ readable key_chain index m.
Proof.
  intros [j Hj]%list_elem_of_lookup Htag Hlen Hread. destruct (Hread j o Hj Htag) as (_ & _ & s & Hs).
  unfold calculate_shared_secret_receiver, SharedSecretKey_new in Hs.
  apply bind_ok in Hs as (x & _ & Hs). by rewrite (bool_decide_eq_false_2 _ Hlen) in Hs.
Qed.

Lemma sync_readable k tx k' :
  sync_private_accounts_with_tx k (PrivacyPreserving tx) = Ok k' ->
  exists l k1, affected_accounts k (priv_message tx) = Ok l /\ fold_o store_affected k l = Ok k1 /\
    forall e, e ∈ private_account_key_chains k -> readable e.1.2 e.2 (priv_message tx).
Proof.
  intros (l & Hl & (k1 & Hk1 & _)%bind_ok)%bind_ok. exists l, k1. split; [done|]. split; [done|].
  by eapply affected_readable.
Qed.

(** *** An id that no part of the wallet owns *)
Record unowned k (id : AccountId) (owns : PrivateAccountKind -> Prop) : Prop := mk_unowned {
  unowned_shared : shared_private_accounts k !! id = None;
  unowned_imported key accounts kind : imported_private_accounts k !! key = Some accounts ->
    is_Some (accounts !! kind) -> for_private_account (nullifier_public_key (imp_key_chain key)) kind <> id;
  unowned_ids : account_id_map (private_key_tree k) !! id = None;
  unowned_nodes c node kind : node_at k c = Some node -> owns kind -> id_of node kind <> id;
}.

Lemma unowned_fails k id kind a (owns : PrivateAccountKind -> Prop) :
  unowned k id owns -> owns kind -> insert_private_account k id kind a = Err (AccountIdNotFound id).
Proof.
  intros [Hsh Himp Hid Hn] Hk. unfold insert_private_account. rewrite Hsh.
  destruct (find_imported k id) as [[key kd]|] eqn:Hf.
  { apply find_imported_some in Hf as (acc & Hm & Hkd & Heq). by destruct (Himp key acc kd Hm Hkd). }
  rewrite Hid. destruct (List.find _ _) as [[c node]|] eqn:Hfind; [|done]. exfalso.
  apply List.find_some in Hfind as [Hin%list_elem_of_In%BTree.elem_of_iter Heq%bool_decide_eq_true_1].
  by apply (Hn c node kind Hin Hk).
Qed.

Lemma unowned_keeps k id (owns : PrivateAccountKind -> Prop) id' kind a k' :
  unowned k id owns -> id' <> id -> insert_private_account k id' kind a = Ok k' -> unowned k' id owns.
Proof.
  intros [Hsh Himp Hid Hn] Hne Hins. unfold insert_private_account in Hins.
  assert (Hset : forall c0 node0 (m : gmap AccountId ChainIndex), node_at k c0 = Some node0 -> m !! id = None ->
    unowned (with_private_tree (mk_KeyTree (<[c0 := set_node_account kind a node0]> (key_map (private_key_tree k))) m) k) id owns).
  { intros c0 node0 m Hc0 Hm. constructor; [done|done|done|].
    unfold with_private_tree. cbn [private_key_tree key_map].
    intros c node kd [[_ <-]|[_ Hc]]%lookup_insert_Some; [|by apply (Hn c)]. exact (Hn c0 node0 kd Hc0). }
  destruct (shared_private_accounts k !! id') as [e|] eqn:Hsh'.
  { injection Hins as <-. constructor; [|done..]. unfold with_shared. cbn [shared_private_accounts].
    by rewrite lookup_alter_ne. }
  destruct (find_imported k id') as [[key kd]|] eqn:Hf.
  { injection Hins as <-. constructor; [done| |done..]. unfold with_imported_private. cbn [imported_private_accounts].
    intros key' acc kd'. destruct (decide (key = key')) as [<-|Hk].
    - rewrite lookup_alter_eq. destruct (imported_private_accounts k !! key) as [acc0|] eqn:Hm; [|done].
      intros [= <-] Hkd'. apply (Himp key acc0 kd' Hm). apply find_imported_some in Hf as (acc1 & Hm1 & Hkd & _).
      assert (acc1 = acc0) as -> by congruence.
      destruct (decide (kd = kd')) as [<-|]; [done|]. by rewrite lookup_insert_ne in Hkd'.
    - rewrite lookup_alter_ne by done. apply Himp. }
  destruct (account_id_map _ !! id') as [c|] eqn:Hc.
  - apply bind_ok in Hins as (node & Hnode%expect_ok & [= <-]). by apply Hset.
  - destruct (List.find _ _) as [[c node]|] eqn:Hfind; [|done]. injection Hins as <-.
    apply List.find_some in Hfind as [Hin%list_elem_of_In%BTree.elem_of_iter _].
    apply Hset; [done|]. by rewrite lookup_insert_ne.
Qed.

Lemma unowned_panics id (owns : PrivateAccountKind -> Prop) l : forall k k',
  unowned k id owns -> (forall e, e ∈ l -> owns e.1.2) -> (exists e, e ∈ l /\ e.1.1 = id) ->
  fold_o store_affected k l <> Ok k'.
Proof.
  induction l as [|e l IH]; intros k k' Hun Howns (e0 & He0 & Hid); [by apply elem_of_nil in He0|].
  cbn [fold_o]. intros (k1 & Hk1 & Hrest)%bind_ok. unfold store_affected in Hk1.
  destruct (decide (e.1.1 = id)) as [Heq|Hne].
  - rewrite Heq, (unowned_fails k id e.1.2 e.2 owns Hun) in Hk1; [done|]. apply Howns. by left.
  - destruct (insert_private_account k e.1.1 e.1.2 e.2) as [k2| |] eqn:Hins; [|done..]. injection Hk1 as ->.
    revert Hrest. apply IH.
    + by eapply unowned_keeps.
    + intros e' He'. apply Howns. by right.
    + exists e0. split; [|done]. apply elem_of_cons in He0 as [->|He0]; [by destruct Hne|done].
Qed.
End Sync.
