(* ===== verification/WalletTheorems.v ===== *)
(** What wallets guarantee: the invariant of their key chains, the round trip of
    their storage, and what synchronisation does with the private outputs of a
    transaction. *)

From S2P Require Import Prelude Bytes Crypto Account Ids ProgramCore Borsh Host State Encryption CircuitIo Transactions StateDiffs Chain ChainIndex KeyDerivation GroupKeys KeyTree UserKeyChain WalletSync KeyTreeFacts KeyTreeTheorems StorageFacts WalletFacts SyncFacts.

(** ** Trees whose account ids are distinct *)
Section Distinct.
Context {N : Type} `{KeyTreeNode N}.
Implicit Types t : KeyTree N.

(** No account id belongs to two nodes, and there is room for more nodes. *)
Definition distinct_ids t : Prop := forall id c d node node',
  key_map t !! c = Some node -> key_map t !! d = Some node' ->
  id ∈ account_ids node -> id ∈ account_ids node' -> c = d.
Definition small t : Prop := Z.of_nat (size (key_map t)) < 2 ^ 32 - 2.
Definition sound t : Prop := small t -> shape t /\ (distinct_ids t -> accounts_ok t).

Lemma small_add t c node : small (add_node c node t) -> small t.
Proof.
  unfold small. cbn [add_node key_map]. rewrite map_size_insert. unfold id. destruct (key_map t !! c); lia.
Qed.

Lemma sound_add t c node :
  sound t -> ~ present t c -> shape (add_node c node t) -> sound (add_node c node t).
Proof.
  intros Ht Hc Hs Hsmall. destruct (Ht (small_add t c node Hsmall)) as [Hshape Hacc]. split; [done|]. intros Hd.
  assert (Hne : forall d n, key_map t !! d = Some n -> c <> d) by (intros d n Hn ->; apply Hc; by eexists).
  assert (Ha : accounts_ok t).
  { apply Hacc. intros id c1 c2 n1 n2 H1 H2. apply (Hd id c1 c2 n1 n2); cbn; rewrite lookup_insert_ne; eauto. }
  apply add_node_accounts; [done|done|]. intros id Hid.
  destruct (account_id_map t !! id) as [d|] eqn:Hmap; [|done]. exfalso. apply Ha in Hmap as (n & Hn & Hin).
  apply (Hne d n Hn), (Hd id c d node n); [apply lookup_insert_eq| |done|done]. cbn.
  rewrite lookup_insert_ne; eauto.
Qed.

Lemma sound_generate t t' p o : sound t -> generate_new_node t p = Ok (t', o) -> sound t'.
Proof.
  intros Ht Hg Hsmall. destruct (generate_new_node_derived t t' p o Hg) as [->|(i & parent & child & _ & Heq)]; [by apply Ht|].
  assert (Hst : small t) by (rewrite Heq in Hsmall; by apply small_add in Hsmall).
  destruct (Ht Hst) as [Hs _]. destruct (key_map t !! p) as [n|] eqn:Hn.
  - assert (Hp : present t p) by by eexists.
    pose proof (generate_new_node_spec t p Hs Hp (room_for_children t p Hs Hst)) as Hspec. rewrite Hg in Hspec.
    destruct Hspec as (j & pn & node & Hj & _ & _ & [= Heq' _] & Hall & Hs'). cbn [fst] in Hs'.
    rewrite Heq' in Hs', Hsmall |- *. refine (sound_add t _ _ Ht _ Hs' Hsmall). rewrite Hall by apply Hj. lia.
  - unfold generate_new_node in Hg. rewrite Hn in Hg. injection Hg as <- _. by apply Ht.
Qed.

Lemma sound_layered `{ChainIndex.Itertools, !ChainIndex.ItertoolsLaws} t t' o :
  sound t -> generate_new_node_layered t = Ok (t', o) -> sound t'.
Proof.
  intros Ht Hg Hsmall. pose proof Hg as Hg'. apply bind_ok in Hg' as (c & _ & Hfill).
  destruct (fill_node_derived t t' c o Hfill) as [->|(p & i & parent & child & _ & _ & Heq)]; [by apply Ht|].
  assert (Hst : small t) by (rewrite Heq in Hsmall; by apply small_add in Hsmall).
  destruct (Ht Hst) as [Hs _]. pose proof (generate_new_node_layered_spec t Hs Hst) as Hspec. rewrite Hg in Hspec.
  destruct Hspec as (d & q & j & pn & node & _ & _ & Habs & _ & _ & _ & [= Heq' _] & Hs'). cbn [fst] in Hs'.
  rewrite Heq' in Hs', Hsmall |- *. by refine (sound_add t _ _ Ht Habs Hs' Hsmall).
Qed.

Lemma sound_ok t : small t -> distinct_ids t -> sound t -> shape t /\ accounts_ok t.
Proof. intros Hs Hd Ht. destruct (Ht Hs) as [? Ha]. split; [done|by apply Ha]. Qed.
End Distinct.

(** ** Key chains of wallets *)
Section Chains.
Context `{HmacSha512, K256, Sha256, ChainIndex.Itertools, !ChainIndex.ItertoolsLaws, OverflowChecks}.
Implicit Types k : UserKeyChain.

(** The key derivation gave distinct account ids so far. *)
Definition fits k : Prop :=
  small (public_key_tree k) /\ distinct_ids (public_key_tree k) /\
  small (private_key_tree k) /\ distinct_ids (private_key_tree k).

(** An account id that is the one of its node for this kind, if it is in the
    tree. *)
Definition names_kind k (id : AccountId) (kind : PrivateAccountKind) : Prop := forall c node,
  account_id_map (private_key_tree k) !! id = Some c -> key_map (private_key_tree k) !! c = Some node ->
  id = for_private_account (nullifier_public_key (priv_value node).1) kind.

(** What a wallet does to its key chain.  The cleanup is called with a depth that
    covers the trees. *)
Inductive wallet : UserKeyChain -> Prop :=
  | wallet_new s k : storage_trees s = Ok k -> wallet k
  | wallet_trees k depth k' : wallet k -> generate_trees_for_depth k depth = Ok k' -> fits k' -> wallet k'
  | wallet_public_key k parent k' r :
      wallet k -> generate_new_public_transaction_private_key k parent = Ok (k', r) -> fits k' -> wallet k'
  | wallet_private_key k parent k' c :
      wallet k -> create_private_accounts_key k parent = Ok (k', c) -> fits k' -> wallet k'
  | wallet_cleanup {E} k n (get_account : AccountId -> outcome E Account) :
      wallet k -> Z.of_nat n < 2 ^ 32 ->
      depth_at_most (public_key_tree k) (Z.of_nat n) -> depth_at_most (private_key_tree k) (Z.of_nat n) ->
      wallet (cleanup_trees_remove_uninit_layered k (S n) get_account).1
  | wallet_import_public k key k' : wallet k -> add_imported_public_account k key = Ok k' -> wallet k'
  | wallet_import_private k key_chain index i a :
      wallet k -> wallet (add_imported_private_account k key_chain index i a)
  | wallet_store k id kind a k' :
      wallet k -> insert_private_account k id kind a = Ok k' -> names_kind k id kind -> wallet k'
  | wallet_shared_pda k label seed program i k' info :
      wallet k -> create_shared_pda_account k label seed program i = Ok (k', info) -> wallet k'
  | wallet_shared_regular k label i k' info :
      wallet k -> create_shared_regular_account k label i = Ok (k', info) -> wallet k'
  | wallet_shared_state k id a : wallet k -> wallet (update_shared_private_account_state k id a)
  | wallet_add_group k label h : wallet k -> wallet (insert_group_key_holder k label h)
  | wallet_remove_group k label : wallet k -> wallet (remove_group_key_holder k label).1
  | wallet_sealing k key : wallet k -> wallet (set_sealing_secret_key k key).

(** Parts of a key chain the invariant does not look at. *)
Definition same_keys k k' : Prop :=
  public_key_tree k' = public_key_tree k /\ private_key_tree k' = private_key_tree k /\
  imported_private_accounts k' = imported_private_accounts k.
Lemma keys_inv_same k k' : same_keys k k' -> keys_inv k -> keys_inv k'.
Proof. intros (Hp & Hs & Hi) [? ? ? ? ? ? ?]. constructor; by rewrite ?Hp, ?Hs, ?Hi. Qed.

Lemma nodes_ok_root s (t : KeyTree ChildKeysPrivate) : KeyTree_new s = Ok t -> nodes_ok t.
Proof.
  intros (sd & _ & (r & Hr & [= <-])%bind_ok)%bind_ok. cbn [from_seed ChildKeysPrivate_node] in Hr.
  apply private_node_ok in Hr as [Hne Hv].
  split; intros c node; cbn [new_from_root key_map]; intros [<- <-]%lookup_singleton_Some; done.
Qed.
Lemma new_tree_ok {N} `{KeyTreeNode N} s (t : KeyTree N) : KeyTree_new s = Ok t -> shape t /\ accounts_ok t.
Proof.
  intros (sd & _ & (r & _ & [= <-])%bind_ok)%bind_ok. split; [apply new_from_root_shape|apply new_from_root_accounts].
Qed.
Lemma sound_intro {N} `{KeyTreeNode N} (t : KeyTree N) : shape t -> accounts_ok t -> sound t.
Proof. by split. Qed.

Lemma imported_ok_add m key i a :
  imported_ok m -> imported_ok (<[key := <[Regular i := a]> (default ∅ (m !! key))]> m).
Proof.
  intros Hok key' acc. destruct (decide (key' = key)) as [->|Hne].
  - rewrite lookup_insert_eq. intros [= <-]. split; [apply insert_non_empty|]. intros kind a'.
    destruct (decide (kind = Regular i)) as [->|Hk]; [done|]. rewrite lookup_insert_ne by done.
    destruct (m !! key) as [acc0|] eqn:Hm; cbn [default from_option]; [|by rewrite lookup_empty].
    by apply (proj2 (Hok key acc0 Hm)).
  - rewrite lookup_insert_ne by done. apply Hok.
Qed.

Lemma fits_inv k k' :
  fits k' -> keys_inv k -> imported_private_accounts k' = imported_private_accounts k ->
  sound (public_key_tree k') -> sound (private_key_tree k') -> nodes_ok (private_key_tree k') -> keys_inv k'.
Proof.
  intros (Hs1 & Hd1 & Hs2 & Hd2) Hinv Himp Hpub Hpriv [Hocc Hview].
  destruct (sound_ok _ Hs1 Hd1 Hpub), (sound_ok _ Hs2 Hd2 Hpriv). constructor; [done..|].
  rewrite Himp. apply Hinv.
Qed.

Lemma keys_inv_sound k :
  keys_inv k -> sound (public_key_tree k) /\ sound (private_key_tree k) /\ nodes_ok (private_key_tree k).
Proof. intros []. split; [by apply sound_intro|]. split; [by apply sound_intro|done]. Qed.

Lemma generate_trees_inv k depth k' :
  keys_inv k -> generate_trees_for_depth k depth = Ok k' -> fits k' -> keys_inv k'.
Proof.
  intros Hinv (pub & Hpub & (priv & Hpriv & [= <-])%bind_ok)%bind_ok Hfits.
  destruct (keys_inv_sound k Hinv) as (Hp & Hq & Hn). apply (fits_inv k); [done|done|done|..].
  - eapply generate_tree_keeps; [exact sound_generate|exact Hp|exact Hpub].
  - eapply generate_tree_keeps; [exact sound_generate|exact Hq|exact Hpriv].
  - eapply generate_tree_keeps; [exact nodes_ok_generate|exact Hn|exact Hpriv].
Qed.

Lemma with_id_run r t o : with_account_id r = Ok (t, o) -> exists o', r = Ok (t, o').
Proof. intros ([t1 o1] & -> & [= -> _])%bind_ok. by exists o1. Qed.

Lemma public_key_inv k parent k' r :
  keys_inv k -> generate_new_public_transaction_private_key k parent = Ok (k', r) -> fits k' -> keys_inv k'.
Proof.
  intros Hinv ([t o] & Hg & (r' & _ & [= <- _])%bind_ok)%bind_ok Hfits.
  destruct (keys_inv_sound k Hinv) as (Hp & Hq & Hn). apply (fits_inv k); [done..| |done|done].
  destruct parent; apply with_id_run in Hg as (o' & Hg); [by eapply sound_generate|by eapply sound_layered].
Qed.

Lemma private_key_inv k parent k' c :
  keys_inv k -> create_private_accounts_key k parent = Ok (k', c) -> fits k' -> keys_inv k'.
Proof.
  intros Hinv ([t o] & Hg & (c' & _ & [= <- _])%bind_ok)%bind_ok Hfits.
  destruct (keys_inv_sound k Hinv) as (Hp & Hq & Hn). apply (fits_inv k); [done..| |].
  - destruct parent; [by eapply sound_generate|by eapply sound_layered].
  - destruct parent; [by eapply nodes_ok_generate|by eapply nodes_ok_layered].
Qed.

Lemma cleanup_inv {E} k n (get_account : AccountId -> outcome E Account) :
  keys_inv k -> Z.of_nat n < 2 ^ 32 ->
  depth_at_most (public_key_tree k) (Z.of_nat n) -> depth_at_most (private_key_tree k) (Z.of_nat n) ->
  keys_inv (cleanup_trees_remove_uninit_layered k (S n) get_account).1.
Proof.
  intros Hinv Hn Hd Hd'. destruct Hinv as [Hps Hpa Hs Ha Hocc Hview Himp].
  destruct (public_loop_spec get_account n _ Hn Hps Hpa Hd) as [[Hps' Hpa' _ _] _].
  destruct (private_loop_spec n _ Hn Hs Ha Hd') as [Hc _].
  destruct (nodes_ok_cleaned _ _ _ _ (conj Hocc Hview) Hc) as [Hocc' Hview']. destruct Hc as [Hs' Ha' _ _].
  unfold cleanup_trees_remove_uninit_layered, public_cleanup_tree_remove_uninit_layered.
  unfold public_cleanup_tree_remove_uninit_layered in Hps', Hpa'.
  destruct (public_cleanup_loop _ _ _) as [pub [[]|e|msg]]; cbn [fst] in *; constructor; done.
Qed.

Lemma wallet_keys_inv k : wallet k -> keys_inv k.
Proof.
  induction 1 as [s k Hr|k depth k' _ IH Hr Hf|k parent k' r _ IH Hr Hf|k parent k' c _ IH Hr Hf
    |E k n get _ IH Hn Hd Hd'|k key k' _ IH Hr|k key_chain index i a _ IH|k id kind a k' _ IH Hr Hk
    |k label seed program i k' info _ IH Hr|k label i k' info _ IH Hr|k id a _ IH|k label h _ IH|k label _ IH|k key _ IH].
  - apply bind_ok in Hr as (pub & Hpub & (priv & Hpriv & [= <-])%bind_ok).
    destruct (nodes_ok_root s priv Hpriv), (new_tree_ok s pub Hpub), (new_tree_ok s priv Hpriv). by constructor.
  - by eapply generate_trees_inv.
  - by eapply public_key_inv.
  - by eapply private_key_inv.
  - by apply cleanup_inv.
  - apply bind_ok in Hr as (pk & _ & [= <-]). by apply (keys_inv_same k).
  - destruct IH. constructor; [done..|]. by apply imported_ok_add.
  - by eapply insert_inv.
  - apply bind_ok in Hr as (holder & _ & Hr). cbv zeta in Hr. case_match; [|done..].
    injection Hr as <- _. by apply (keys_inv_same k).
  - apply bind_ok in Hr as (holder & _ & Hr). cbv zeta in Hr. case_match; [|done..].
    injection Hr as <- _. by apply (keys_inv_same k).
  - by apply (keys_inv_same k).
  - by apply (keys_inv_same k).
  - by apply (keys_inv_same k).
  - by apply (keys_inv_same k).
Qed.

(** C37. The invariant of key chains: after any sequence of key generations, imports,
    stored accounts, group operations and cleanups, as long as the derived account
    ids are distinct, both trees keep the root, every node has its parent,
    siblings are numbered without gaps, the account ids of a tree are exactly
    those of its nodes, every private node has an account and the viewing key its
    index derives, and imported accounts are regular. *)
Theorem wallet_invariant k : wallet k -> keys_inv k.
Proof. apply wallet_keys_inv. Qed.

(** C38. Storing and restoring: the persistent form of the storage of a reachable
    wallet reads back as the same storage, with its keys, accounts, labels and
    last synchronised block. *)
Theorem storage_roundtrip (s : Storage) :
  wallet (key_chain s) -> storage_from_persistent (storage_to_persistent s) = Ok s.
Proof.
  intros Hw. unfold storage_from_persistent, storage_to_persistent. cbn [pers_key_chain pers_labels pers_last_synced_block].
  rewrite (from_to_persistent (key_chain s)); [by destruct s|]. by apply keys_inv_storable, wallet_keys_inv.
Qed.
End Chains.

(** ** Synchronisation *)
Section Sync.
Context `{HmacSha512, K256, !K256Laws, Sha256, ChaCha20, ChainIndex.Itertools, !ChainIndex.ItertoolsLaws}.
Implicit Types k : UserKeyChain.

(** Output [j] as a sender makes it for the keys of a node. *)
Definition sent (m : PrivacyMessage) (j : nat) (keys : KeyChain) (esk : list byte) kind a : Prop :=
  exists s p ct comm,
    produce_one_sided_shared_secret_receiver (viewing_public_key keys) esk = Ok (s, p) /\
    encrypt (E := Empty_set) a kind s comm (Z.of_nat j) = Ok ct /\
    priv_new_commitments m !! j = Some comm /\
    encrypted_private_post_states m !! j =
      Some (EncryptedAccountData_new ct (nullifier_public_key keys) (viewing_public_key keys) p).

(** The account kinds of the tree and of the outputs for it. *)
Definition kinds_in_use k m (kind : PrivateAccountKind) : Prop :=
  exists c node, key_map (private_key_tree k) !! c = Some node /\
    (is_Some ((priv_value node).2 !! kind) \/ exists j a, decoded (priv_value node).1 (Some c) m j kind a).

Lemma sent_decoded k m c node j esk kind a :
  keys_inv k -> key_map (private_key_tree k) !! c = Some node ->
  is_Some (secret_key_from_bytes (generate_viewing_secret_key (secret_spending_key (priv_value node).1) (ChainIndex.index c))) ->
  is_Some (secret_key_from_bytes esk) -> Account_wf a -> PrivateAccountKind_wf kind ->
  sent m j (priv_value node).1 esk kind a -> decoded (priv_value node).1 (Some c) m j kind a.
Proof.
  intros Hinv Hc Hvsk Hesk Ha Hkind (s & p & ct & comm & Hs & Hct & Hcomm & Ho).
  destruct (shared_secret_agreement _ _ Hvsk Hesk) as (pa & pb & s' & Hpa & Hpb & Hs1 & Hs2).
  rewrite (inv_viewing k Hinv c node Hc) in Hpa. injection Hpa as Hpa.
  apply bind_ok in Hs as (s2 & Hs & (p2 & Hp & [= <- <-])%bind_ok). rewrite Hpb in Hp. injection Hp as <-.
  rewrite Hpa, Hs2 in Hs. injection Hs as <-.
  eexists _, comm, s'. split; [exact Ho|]. split; [done|]. split; [done|]. split; [exact Hs1|].
  by apply decrypt_of_encrypt.
Qed.

Lemma tree_chains k e : imported_private_accounts k = ∅ ->
  e ∈ private_account_key_chains k ->
  exists c node, key_map (private_key_tree k) !! c = Some node /\ e.1.2 = (priv_value node).1 /\ e.2 = Some c.
Proof.
  intros Himp. unfold private_account_key_chains, found_imported. rewrite Himp, BTree.iter_empty. cbn [mbind list_bind app].
  intros (f & -> & Hin)%list_elem_of_fmap. apply list_elem_of_bind in Hin as ([c node] & Hin & Hc%BTree.elem_of_iter).
  apply list_elem_of_fmap in Hin as (e & -> & _). by exists c, node.
Qed.
Lemma node_chain k c node : keys_inv k -> key_map (private_key_tree k) !! c = Some node ->
  exists id, (id, (priv_value node).1, Some c) ∈ private_account_key_chains k.
Proof.
  intros Hinv Hc. destruct (map_choose (priv_value node).2) as (kind & a & Hk); [by eapply inv_occupied|].
  exists (for_private_account (nullifier_public_key (priv_value node).1) kind).
  apply list_elem_of_fmap. exists (mk_Found a (priv_value node).1 kind (Some c)). split; [done|].
  apply elem_of_app. right. apply list_elem_of_bind. exists (c, node). split; [|by apply BTree.elem_of_iter].
  apply list_elem_of_fmap. exists (kind, a). split; [done|by apply BTree.elem_of_iter].
Qed.

Lemma sync_shared_none k m : shared_private_accounts k = ∅ -> sync_shared_private_accounts_with_tx k m = Ok k.
Proof.
  intros Hs. unfold sync_shared_private_accounts_with_tx, shared_keys. by rewrite Hs, BTree.iter_empty.
Qed.

(** An output that a sender made for the keys of a node is decoded, stored and
    reported. *)
Lemma sync_receives_ok k tx c node j esk kind a :
  keys_inv k -> tree_only k ->
  (forall d n, key_map (private_key_tree k) !! d = Some n -> readable (priv_value n).1 (Some d) (priv_message tx)) ->
  clash_free k (kinds_in_use k (priv_message tx)) ->
  key_map (private_key_tree k) !! c = Some node ->
  is_Some (secret_key_from_bytes (generate_viewing_secret_key (secret_spending_key (priv_value node).1) (ChainIndex.index c))) ->
  is_Some (secret_key_from_bytes esk) -> Account_wf a -> PrivateAccountKind_wf kind ->
  sent (priv_message tx) j (priv_value node).1 esk kind a ->
  let id := for_private_account (nullifier_public_key (priv_value node).1) kind in
  (forall d n i kind' b, key_map (private_key_tree k) !! d = Some n ->
     decoded (priv_value n).1 (Some d) (priv_message tx) i kind' b ->
     for_private_account (nullifier_public_key (priv_value n).1) kind' = id -> b = a) ->
  exists k', sync_private_accounts_with_tx k (PrivacyPreserving tx) = Ok k' /\
    get_account_private k' id = Some a /\ keys_inv k'.
Proof.
  intros Hinv Htree Hread Hclash Hc Hvsk Hesk Ha Hkind Hsent id Hagree.
  pose proof (sent_decoded k _ c node j esk kind a Hinv Hc Hvsk Hesk Ha Hkind Hsent) as Hdec.
  destruct (affected_accounts_spec k (priv_message tx)) as (l & Hl & Hall).
  { intros e (d & n & Hd & -> & ->)%tree_chains; [by apply Hread|apply Htree]. }
  assert (Hmem : forall r, r ∈ l -> exists d n i, key_map (private_key_tree k) !! d = Some n /\
    decoded (priv_value n).1 (Some d) (priv_message tx) i r.1.2 r.2 /\
    r.1.1 = for_private_account (nullifier_public_key (priv_value n).1) r.1.2).
  { intros r (e & (d & n & Hd & He1 & He2)%tree_chains & i & Hi)%Hall; [|apply Htree].
    rewrite He1, He2 in Hi. by exists d, n, i. }
  assert (Hst : storing k (kinds_in_use k (priv_message tx))).
  { constructor; [done|done|done|]. intros d n kd Hd Hkd. exists d, n. split; [done|by left]. }
  destruct (store_all _ l k Hst) as (k' & Hk' & Hst' & Hend).
  { intros e (d & n & i & Hd & Hi & He)%Hmem. exists d, n. split; [done|]. split; [done|].
    exists d, n. split; [done|]. right. by exists i, e.2. }
  exists k'. unfold sync_private_accounts_with_tx. rewrite Hl. cbn [mbind outcome_bind]. rewrite Hk'. cbn [mbind outcome_bind].
  split; [apply sync_shared_none, (storing_tree _ _ Hst')|]. split; [|apply Hst'].
  eapply holds_account; [exact Hst'|]. apply Hend.
  - intros e (d & n & i & Hd & Hi & He)%Hmem Hid. apply (Hagree d n i e.1.2); [done|done|congruence].
  - right. exists (id, kind, a). split; [|done]. apply Hall. destruct (node_chain k c node Hinv Hc) as [id0 Hin].
    exists (id0, (priv_value node).1, Some c). split; [done|]. exists j. done.
Qed.

Lemma triple_eq {A B C} (a a' : A) (b b' : B) (c c' : C) : (a, b, c) = (a', b', c') -> b = b' /\ c = c'.
Proof. naive_solver. Qed.
(** A wallet that reads one output. *)
Lemma only_decoded k tx id kind0 a :
  keys_inv k -> affected_accounts k (priv_message tx) = Ok [(id, kind0, a)] ->
  forall d n i kind b, key_map (private_key_tree k) !! d = Some n ->
    decoded (priv_value n).1 (Some d) (priv_message tx) i kind b -> kind = kind0 /\ b = a.
Proof.
  intros Hinv Haff d n i kind b Hd Hdec. destruct (affected_accounts_spec k (priv_message tx)) as (l & Hl & Hall).
  { apply (affected_readable _ _ _ Haff). }
  destruct (node_chain k d n Hinv Hd) as [id0 Hin].
  assert (Hmem : (for_private_account (nullifier_public_key (priv_value n).1) kind, kind, b) ∈ l).
  { apply Hall. exists (id0, (priv_value n).1, Some d). split; [exact Hin|]. exists i. exact (conj Hdec eq_refl). }
  rewrite Haff in Hl. apply (proj1 (ok_inj _ _)) in Hl. rewrite <- Hl in Hmem. by apply list_elem_of_singleton, triple_eq in Hmem.
Qed.
(** A tree of a root with its first account. *)
Lemma root_clash_free k root tx kind0 :
  (forall c node, key_map (private_key_tree k) !! c = Some node -> c = [] /\ node = root) ->
  (priv_value root).2 = {[Regular 0 := Account_default]} ->
  (forall d n i kind b, key_map (private_key_tree k) !! d = Some n ->
    decoded (priv_value n).1 (Some d) (priv_message tx) i kind b -> kind = kind0) ->
  for_private_account (nullifier_public_key (priv_value root).1) (Regular 0) <>
    for_private_account (nullifier_public_key (priv_value root).1) kind0 ->
  clash_free k (kinds_in_use k (priv_message tx)).
Proof.
  intros Hroot Hv Hdec Hids.
  assert (Hkinds : forall kind, kinds_in_use k (priv_message tx) kind -> kind = Regular 0 \/ kind = kind0).
  { intros kind (c & node & Hc & [Hk|(j & a & Hj)]); [left|right; by eapply Hdec].
    apply Hroot in Hc as [-> ->]. rewrite Hv in Hk. by apply lookup_singleton_is_Some in Hk as <-. }
  intros c d node node' kind kind' [-> ->]%Hroot [-> ->]%Hroot Hk%Hkinds Hk'%Hkinds Heq.
  split; [reflexivity|]. destruct Hk as [->| ->], Hk' as [->| ->].
  - reflexivity.
  - destruct (Hids Heq).
  - destruct (Hids (eq_sym Heq)).
  - reflexivity.
Qed.
End Sync.

(** ** Outputs that stop a wallet *)
Section Crashes.
Context `{HmacSha512, K256, Sha256, ChaCha20, ChainIndex.Itertools, !ChainIndex.ItertoolsLaws}.
Implicit Types k : UserKeyChain.

Lemma guest_panics {A} (r : guest A) : (forall a, r <> Ok a) -> exists msg, r = Panic msg.
Proof. intros Hr. destruct r as [a|[]|msg]; [by destruct (Hr a)|by exists msg]. Qed.

(** The message with other outputs. *)
Definition with_outputs outputs (m : PrivacyMessage) : PrivacyMessage :=
  mk_PrivacyMessage (public_account_ids m) (priv_nonces m) (public_post_states m) outputs
    (priv_new_commitments m) (priv_new_nullifiers m) (priv_block_validity_window m) (priv_timestamp_validity_window m).
Definition with_tx_outputs outputs (tx : PrivacyPreservingTransaction) : PrivacyPreservingTransaction :=
  mk_PrivacyTx (with_outputs outputs (priv_message tx)) (priv_witness_set tx).

(** C39. Ephemeral keys and view tags are not validated by the chain, and an output
    with the view tag of a key chain and an ephemeral key that is not 33 bytes long
    makes the wallet of that key chain panic: replacing the keys and tags of an
    unsigned transaction leaves its state transition, or its error, unchanged, for
    every state, while no synchronisation with the result returns. *)
Theorem malformed_key_stops_wallet
    `{Schnorr, Borsh PrivacyMessage, Receipts, Serde PrivacyPreservingCircuitOutput}
    k e o tx outputs st block_id timestamp :
  priv_signatures (priv_witness_set tx) = [] ->
  ciphertext <$> outputs = ciphertext <$> encrypted_private_post_states (priv_message tx) ->
  e ∈ private_account_key_chains k -> o ∈ outputs ->
  view_tag o = compute_view_tag (nullifier_public_key e.1.2) (viewing_public_key e.1.2) ->
  length (epk_bytes (epk o)) <> 33%nat ->
  transition_from_privacy_preserving_transaction st (with_tx_outputs outputs tx) block_id timestamp =
    transition_from_privacy_preserving_transaction st tx block_id timestamp /\
  exists msg, sync_private_accounts_with_tx k (PrivacyPreserving (with_tx_outputs outputs tx)) = Panic msg.
Proof.
  intros Hsig Hct He Ho Htag Hlen. split.
  - unfold transition_from_privacy_preserving_transaction, from_privacy_preserving_transaction, check_privacy_message,
      check_privacy_preserving_circuit_proof_is_valid, circuit_output_of, signatures_are_valid_for, priv_signer_account_ids.
    cbn [with_tx_outputs with_outputs priv_message priv_witness_set public_account_ids priv_nonces public_post_states
      encrypted_private_post_states priv_new_commitments priv_new_nullifiers priv_block_validity_window
      priv_timestamp_validity_window]. by rewrite Hsig, Hct.
  - apply guest_panics. intros k' (l & k1 & _ & _ & Hread)%sync_readable.
    by apply (short_key_unreadable e.1.2 e.2 (with_outputs outputs (priv_message tx)) o); [..|apply Hread].
Qed.

(** A key chain receives under every identifier, a wallet knows only those it
    imported: an output that decodes for the key chain of an imported account to a
    kind under which the wallet owns no account makes synchronisation panic. *)
Theorem unknown_identifier_stops_wallet k tx e j kind a :
  e ∈ private_account_key_chains k -> decoded e.1.2 e.2 (priv_message tx) j kind a ->
  let id := for_private_account (nullifier_public_key e.1.2) kind in
  unowned k id (fun kind' => exists e' i b, e' ∈ private_account_key_chains k /\
    decoded e'.1.2 e'.2 (priv_message tx) i kind' b) ->
  exists msg, sync_private_accounts_with_tx k (PrivacyPreserving tx) = Panic msg.
Proof.
  intros He Hdec id Hun. apply guest_panics. intros k' (l & k1 & Hl & Hfold & Hread)%sync_readable.
  destruct (affected_accounts_spec k (priv_message tx) Hread) as (l' & Hl' & Hall).
  rewrite Hl in Hl'. injection Hl' as <-. revert Hfold. eapply unowned_panics; [exact Hun| |].
  - intros r (e' & He' & i & Hi & _)%Hall. by exists e', i, r.2.
  - exists (id, kind, a). split; [|done]. apply Hall. exists e. split; [done|]. by exists j.
Qed.
End Crashes.

(** ** Restoring keys *)
Section Restoration.
Context `{HmacSha512, K256, Sha256, ChaCha20, Bip39, ChainIndex.Itertools, !ChainIndex.ItertoolsLaws, OverflowChecks}.

(** Derived nodes have only default accounts. *)
Definition all_unused (t : KeyTree ChildKeysPrivate) : Prop := forall c node, key_map t !! c = Some node ->
  uninitialized node = true.
Lemma private_node_unused ssk ccc cci node : private_node ssk ccc cci = Ok node -> uninitialized node = true.
Proof.
  intros (p & _ & [= <-])%bind_ok. unfold uninitialized. cbn [priv_value snd]. rewrite BTree.iter_singleton.
  cbn [forallb snd]. by rewrite (bool_decide_eq_true_2 (Account_default = Account_default)), orb_true_r.
Qed.
Lemma unused_generate t t' p o : all_unused t -> generate_new_node t p = Ok (t', o) -> all_unused t'.
Proof.
  intros Hall [->|(i & parent & child & Hd & ->)]%generate_new_node_derived; [done|].
  intros c node. cbn [add_node key_map]. intros [[_ <-]|[_ Hc]]%lookup_insert_Some; [|by apply (Hall c)].
  cbn [derive_child ChildKeysPrivate_node] in Hd. unfold private_nth_child in Hd.
  apply bind_ok in Hd as (nsk & _ & Hd). apply bind_ok in Hd as (vsk & _ & Hd). by apply private_node_unused in Hd.
Qed.
Lemma unused_new s t : KeyTree_new s = Ok t -> all_unused t.
Proof.
  intros (sd & _ & (r & Hr & [= <-])%bind_ok)%bind_ok c node. cbn [new_from_root key_map].
  intros [_ <-]%lookup_singleton_Some. cbn [from_seed ChildKeysPrivate_node] in Hr. by apply private_node_unused in Hr.
Qed.

Lemma unused_cleanup n t :
  Z.of_nat n < 2 ^ 32 -> shape t -> accounts_ok t -> depth_at_most t (Z.of_nat n) -> all_unused t ->
  forall c, present (private_cleanup_tree_remove_uninit_layered t (S n)) c -> c = ChainIndex.root.
Proof.
  intros Hn Hs Ha Hd Hall c Hc. destruct (private_loop_spec n t Hn Hs Ha Hd) as [Hcl (d & Hdeep & Hstop)].
  destruct Hstop as [->|(c' & node & _ & Hnode & Hu)].
  - pose proof (Hdeep c Hc) as Ht. assert (Hwf : ChainIndex_wf c) by (by apply (shape_wf _ (cleaned_shape _ _ _ _ Hcl))).
    pose proof (ChainIndex.length_le_total c Hwf). destruct c; [done|]. cbn [length] in *. lia.
  - exfalso. apply (cleaned_sub _ _ _ _ Hcl) in Hnode. apply Hall in Hnode. congruence.
Qed.

(** Restoring the keys of a wallet that is already synchronised: [restore]
    resets the keys and the labels but not the last synchronised block, so when
    the chain has not grown since, the restoration reads no block: whatever the
    blocks hold, if it succeeds every private key but the root is removed again
    as unused. *)
Theorem restoration_loses_private_keys {E} (client : Z -> Z -> outcome E (list Block)) (latest : BlockId)
    (get_account : AccountId -> outcome E Account) n s m s1 s2 depth :
  Storage_restore s m = Ok s1 -> latest <= last_synced_block s -> 0 < Z.of_nat depth < 2 ^ 32 ->
  (forall k, generate_trees_for_depth (key_chain s1) (Z.of_nat depth) = Ok k -> fits k) ->
  execute_keys_restoration client (Ok latest) get_account n s1 depth = Ok (s2, Ok ()) ->
  last_synced_block s2 = last_synced_block s /\
  forall c, present (private_key_tree (key_chain s2)) c -> c = ChainIndex.root.
Proof.
  intros (k & Hk & [= <-])%bind_ok Hlatest Hdepth Hfits Hrun.
  apply bind_ok in Hrun as (k1 & Hk1 & Hrun). cbn [key_chain labels last_synced_block] in *.
  unfold sync_to_latest_block, sync_to_block in Hrun. cbn [last_synced_block] in Hrun.
  rewrite decide_True in Hrun by done. cbn [mbind outcome_bind key_chain labels last_synced_block] in Hrun.
  assert (Hw : keys_inv k1).
  { apply wallet_keys_inv. eapply wallet_trees; [eapply wallet_new, Hk|exact Hk1|by apply Hfits]. }
  apply bind_ok in Hk as (pub & Hpub & (priv & Hpriv & [= <-])%bind_ok).
  apply bind_ok in Hk1 as (pub1 & Hpub1 & (priv1 & Hpriv1 & [= <-])%bind_ok). unfold new_with_accounts in *. cbn [public_key_tree private_key_tree] in Hpub1, Hpriv1.
  assert (Hunused : all_unused priv1).
  { eapply generate_tree_keeps; [exact unused_generate|exact (unused_new _ _ Hpriv)|exact Hpriv1]. }
  assert (Hdeep : depth_at_most priv1 (Z.of_nat (depth - 1))).
  { apply bind_ok in Hpriv as (sd & _ & (r & _ & [= <-])%bind_ok).
    pose proof (generate_tree_spec r (Z.of_nat depth) ltac:(lia)) as Hspec. rewrite Hpriv1 in Hspec.
    intros c Hc. apply Hspec in Hc as [->|[_ Ht]]; cbn; lia. }
  unfold cleanup_trees_remove_uninit_layered in Hrun. destruct (public_cleanup_tree_remove_uninit_layered _ _ _) as [pub2 r].
  destruct r as [[]| |]; [|done..]. injection Hrun as <-. split; [done|]. intros c.
  cbn [key_chain]. unfold with_private_tree, with_public_tree. cbn [private_key_tree].
  replace depth with (S (depth - 1)) at 1 by lia.
  apply unused_cleanup; [lia|apply Hw|apply Hw|done|done].
Qed.
End Restoration.

(** ** Block ranges *)
Section Polling.
Context `{HmacSha512, K256, Sha256, ChaCha20}.

(** A client that answers a range with its blocks, one for each number. *)
Definition serves {E} (client : Z -> Z -> outcome E (list Block)) (block_at : Z -> Block) (range_end : Z) : Prop :=
  forall a b, 1 <= a -> a <= b -> b <= range_end -> client a b = Ok (block_at <$> seqZ a (b - a + 1)).

Lemma poll_complete {E} (client : Z -> Z -> outcome E (list Block)) block_at n range_end fuel :
  serves client block_at range_end -> 1 <= n -> range_end < u64_max -> forall start,
  1 <= start <= range_end -> range_end - start < Z.of_nat fuel ->
  poll_block_range fuel client n start range_end = Some (block_at <$> seqZ start (range_end - start + 1), Ok ()).
Proof.
  intros Hclient Hn Hend. induction fuel as [|fuel IH]; intros start Hs Hfuel; [lia|].
  cbn [poll_block_range]. cbv zeta. set (chunk_end := Z.min _ range_end).
  assert (Hc : chunk_end = Z.min (start + n - 1) range_end) by (unfold chunk_end, u64_max in *; lia).
  clearbody chunk_end. rewrite (Hclient start chunk_end) by lia. rewrite (Z.min_l (chunk_end + 1)) by (unfold u64_max in *; lia).
  case_decide as Hdone.
  - by replace chunk_end with range_end by lia.
  - rewrite IH by lia. rewrite <- fmap_app. repeat f_equal.
    replace (range_end - start + 1) with ((chunk_end - start + 1) + (range_end - (chunk_end + 1) + 1)) by lia.
    rewrite (seqZ_app start (chunk_end - start + 1)) by lia. by replace (start + (chunk_end - start + 1)) with (chunk_end + 1) by lia.
Qed.

(** Synchronisation reads every block once: against a sequencer that answers
    block ranges, for every positive chunk size, the loop over the chunks ends and
    [sync_to_block] processes exactly the blocks after the last synchronised one,
    in order, up to the requested one. *)
Lemma sync_reads_every_block {E} (client : Z -> Z -> outcome E (list Block)) block_at n s block_id :
  serves client block_at block_id -> 1 <= n -> 0 <= last_synced_block s < block_id -> block_id < u64_max ->
  sync_to_block client n s block_id =
    (s' ← fold_o sync_block s (block_at <$> seqZ (last_synced_block s + 1) (block_id - last_synced_block s));
     Ok (s', Ok ())).
Proof.
  intros Hclient Hn Hlast Hmax. unfold sync_to_block. rewrite decide_False by lia.
  rewrite (poll_complete client block_at n block_id) by (done || lia). cbn [expect mbind outcome_bind].
  replace (block_id - (last_synced_block s + 1) + 1) with (block_id - last_synced_block s) by lia.
  by destruct (fold_o sync_block s _).
Qed.
End Polling.
