(* ===== verification/WalletSamples.v ===== *)
(** A concrete wallet: keys, a payment received, an imported key, and the
    witnesses of the theorems about wallets.  The third-party code is that of
    [KeySamples]; the key stream of the samples is zero. *)

From S2P Require Import Prelude Bytes Crypto Account Ids ProgramCore Borsh MerkleTree Host State Encryption CircuitIo Transactions StateDiffs Chain ChainIndex KeyDerivation GroupKeys KeyTree UserKeyChain WalletSync KeyTreeFacts KeyTreeTheorems KeySamples StorageFacts WalletFacts SyncFacts WalletTheorems.
Import KeySamples.

Module WalletSamples.
#[global] Instance zero_stream : ChaCha20 := fun _ _ => Byte.x00.
#[global] Instance sample_overflow_checks : OverflowChecks := true.

Definition no_keys : UserKeyChain := new_with_accounts no_tree no_tree.
#[global] Instance SharedAccountEntry_eq_dec : EqDecision SharedAccountEntry.
Proof. solve_decision. Defined.
#[global] Instance GroupKeyHolder_eq_dec : EqDecision GroupKeyHolder.
Proof. solve_decision. Defined.
#[global] Instance UserKeyChain_eq_dec : EqDecision UserKeyChain.
Proof. solve_decision. Defined.

(** ** Alice's wallet *)
Definition alice : UserKeyChain := run no_keys (storage_trees alice_seed).
Lemma alice_run : storage_trees alice_seed = Ok alice.
Proof. decide_run. Qed.
Lemma alice_wallet : wallet alice.
Proof. apply (wallet_new alice_seed), alice_run. Qed.
Lemma alice_inv : keys_inv alice.
Proof. apply wallet_keys_inv, alice_wallet. Qed.

Definition alice_root : ChildKeysPrivate := priv_root.
Lemma alice_tree : private_key_tree alice = new_from_root alice_root.
Proof. decide_run. Qed.
Lemma alice_node c node : key_map (private_key_tree alice) !! c = Some node -> c = [] /\ node = alice_root.
Proof.
  rewrite alice_tree. change (key_map (new_from_root alice_root)) with ({[ ChainIndex.root := alice_root ]} : gmap ChainIndex ChildKeysPrivate).
  by intros [<- <-]%lookup_singleton_Some.
Qed.

(** A second private key, an account stored at it, and a group. *)
Definition alice1 : UserKeyChain := (run (no_keys, []) (create_private_accounts_key alice None)).1.
Lemma alice1_run : create_private_accounts_key alice None = Ok (alice1, [0]).
Proof. decide_run. Qed.
Definition node_ids (t : KeyTree ChildKeysPrivate) : list (ChainIndex * AccountId) :=
  e ← map_to_list (key_map t); (fun id => (e.1, id)) <$> private_account_ids e.2.
Lemma distinct_private (t : KeyTree ChildKeysPrivate) :
  forallb (fun e => forallb (fun f => bool_decide (e.2 = f.2 -> e.1 = f.1)) (node_ids t)) (node_ids t) = true ->
  distinct_ids t.
Proof.
  intros Hall id c d node node' Hc Hd Hid Hid'. rewrite List.forallb_forall in Hall.
  assert (Hin : forall c node, key_map t !! c = Some node -> id ∈ account_ids node -> (c, id) ∈ node_ids t).
  { intros c0 n Hc0 Hi. apply list_elem_of_bind. exists (c0, n). split; [|by apply elem_of_map_to_list].
    apply list_elem_of_fmap. by exists id. }
  specialize (Hall (c, id) (proj1 (list_elem_of_In _ _) (Hin c node Hc Hid))). rewrite List.forallb_forall in Hall.
  specialize (Hall (d, id) (proj1 (list_elem_of_In _ _) (Hin d node' Hd Hid'))).
  by apply (bool_decide_eq_true_1 _ Hall).
Qed.
Lemma distinct_root {N} `{KeyTreeNode N} (t : KeyTree N) (n : N) : key_map t = {[ [] := n ]} -> distinct_ids t.
Proof. intros Ht id c d node node'. rewrite Ht. by intros [<- _]%lookup_singleton_Some [<- _]%lookup_singleton_Some. Qed.
Lemma alice_public : key_map (public_key_tree alice) = {[ [] := pub_root ]}.
Proof. decide_run. Qed.

Lemma alice1_fits : fits alice1.
Proof.
  split; [|split; [|split]].
  - apply small_size. vm_compute. reflexivity.
  - apply (distinct_root _ pub_root). decide_run.
  - apply small_size. vm_compute. reflexivity.
  - apply distinct_private. vm_compute. reflexivity.
Qed.
Lemma alice1_wallet : wallet alice1.
Proof. apply (wallet_private_key alice None alice1 [0]); [apply alice_wallet|apply alice1_run|apply alice1_fits]. Qed.

Definition alice2 : UserKeyChain :=
  insert_group_key_holder (add_imported_private_account alice1 (priv_value alice_root).1 None 3 Account_default)
    "family" (from_gms (replicate 32 Byte.x2a)).
Lemma alice2_wallet : wallet alice2.
Proof. apply wallet_add_group, wallet_import_private, alice1_wallet. Qed.

Lemma wallet_invariant_witness :
  wallet alice2 /\ bool_decide (size (key_map (private_key_tree alice2)) = 2%nat) = true /\ keys_inv alice2.
Proof.
  split; [apply alice2_wallet|]. split; [vm_compute; reflexivity|]. apply wallet_invariant. apply alice2_wallet.
Defined.

Definition alice_storage : Storage :=
  mk_Storage alice2 {["savings" := PrivateId (AccountId_new (zeros 32))]} 42.
Lemma storage_roundtrip_witness :
  length (pers_accounts (pers_key_chain (storage_to_persistent alice_storage))) = 4%nat /\
  storage_from_persistent (storage_to_persistent alice_storage) = Ok alice_storage.
Proof. split; [vm_compute; reflexivity|]. apply storage_roundtrip. apply alice2_wallet. Defined.

(** ** A payment to Alice *)
Definition esk : list byte := replicate 32 Byte.x05.
Definition paid : Account := mk_Account DEFAULT_PROGRAM_ID 500 (mk_Data [Byte.x01; Byte.x02]) 7.
Definition paid_kind : PrivateAccountKind := Regular 5.
Definition no_epk : SharedSecretKey * EphemeralPublicKey := (mk_Ssk [], mk_Epk []).
Definition comm : Commitment := Commitment_new (AccountId_new (zeros 32)) paid.
Definition payment_to (keys : KeyChain) (kind : PrivateAccountKind) : EncryptedAccountData :=
  let '(s, p) := run no_epk (produce_one_sided_shared_secret_receiver (viewing_public_key keys) esk) in
  EncryptedAccountData_new (run (mk_Ciphertext []) (encrypt paid kind s comm 0))
    (nullifier_public_key keys) (viewing_public_key keys) p.
Definition always : ValidityWindow := mk_Window None None.
Definition tx_of (outputs : list EncryptedAccountData) : PrivacyPreservingTransaction :=
  mk_PrivacyTx (mk_PrivacyMessage [] [] [] outputs [comm] [] always always) (mk_PrivacyWitnessSet [] (mk_Proof [])).

Definition alice_keys : KeyChain := (priv_value alice_root).1.
Definition payment : PrivacyPreservingTransaction := tx_of [payment_to alice_keys paid_kind].
Definition alice_id : AccountId := for_private_account (nullifier_public_key alice_keys) paid_kind.

Lemma payment_affects : affected_accounts alice (priv_message payment) = Ok [(alice_id, paid_kind, paid)].
Proof. decide_run. Qed.
Lemma alice_decodes d n i kind b :
  key_map (private_key_tree alice) !! d = Some n ->
  decoded (priv_value n).1 (Some d) (priv_message payment) i kind b -> kind = paid_kind /\ b = paid.
Proof. apply (only_decoded alice payment alice_id); [apply alice_inv|apply payment_affects]. Qed.
Lemma alice_clash_free : clash_free alice (kinds_in_use alice (priv_message payment)).
Proof.
  apply (root_clash_free alice alice_root payment paid_kind).
  - apply alice_node.
  - decide_run.
  - intros d n i kind b Hd Hdec. by apply (alice_decodes d n i kind b).
  - decide_run.
Qed.
Lemma payment_sent : sent (priv_message payment) 0 alice_keys esk paid_kind paid.
Proof.
  destruct (run_ok (produce_one_sided_shared_secret_receiver (viewing_public_key alice_keys) esk) (fun _ => true))
    as ([s p] & Hs & _); [vm_compute; reflexivity|].
  destruct (run_ok (E := Empty_set) (encrypt paid paid_kind s comm 0) (fun _ => true)) as (ct & Hct & _).
  { destruct (encrypt_total paid paid_kind s comm 0) as (ct & -> & _); [| |done]; by apply (bool_decide_unpack _); vm_compute. }
  exists s, p, ct, comm. split; [exact Hs|]. split; [exact Hct|]. split; [done|].
  cbn [payment tx_of priv_message encrypted_private_post_states lookup list_lookup]. unfold payment_to.
  rewrite Hs. cbn [run]. by rewrite Hct.
Qed.

Lemma alice_receives :
  exists k', sync_private_accounts_with_tx alice (PrivacyPreserving payment) = Ok k' /\
    get_account_private k' alice_id = Some paid /\ keys_inv k'.
Proof.
  apply (sync_receives_ok alice payment [] alice_root 0 esk paid_kind paid).
  - apply alice_inv.
  - split; decide_run.
  - intros d n Hd. destruct (node_chain alice d n alice_inv Hd) as [id Hin].
    apply (affected_readable _ _ _ payment_affects _ Hin).
  - apply alice_clash_free.
  - decide_run.
  - apply (bool_decide_unpack _). vm_compute. exact I.
  - apply (bool_decide_unpack _). vm_compute. exact I.
  - apply (bool_decide_unpack _). vm_compute. exact I.
  - apply (bool_decide_unpack _). vm_compute. exact I.
  - apply payment_sent.
  - intros d n i kind' b Hd Hdec _. by apply (alice_decodes d n i kind' b).
Defined.

(** ** An output without an ephemeral key *)
#[global] Instance any_schnorr : Schnorr := {|
  schnorr_key_valid _ := true;
  schnorr_signature_valid _ := true;
  schnorr_verify_raw _ _ _ := true;
|}.
#[global] Instance any_receipts : Receipts := {|
  inner_receipt := ();
  inner_receipt_from_slice _ := Some ();
  receipt_verify _ _ := true;
|}.
#[global] Instance any_output_serde : Serde PrivacyPreservingCircuitOutput := {|
  serde_to_vec _ := [];
  serde_from_words _ := None;
|}.
#[global] Instance any_message_borsh : Borsh PrivacyMessage := {|
  borsh_to_vec _ := [];
  borsh_try_from_slice _ := None;
|}.
Definition empty_state : V03State :=
  mk_State ∅ (match cs_with_capacity 32 with Ok cs => cs | _ => mk_CommitmentSet (mk_Tree [] 0 0) ∅ ∅ end, ∅) ∅.
Definition bad_output : EncryptedAccountData :=
  mk_Encrypted (ciphertext (payment_to alice_keys paid_kind)) (mk_Epk [])
    (compute_view_tag (nullifier_public_key alice_keys) (viewing_public_key alice_keys)).
Definition applied (r : outcome NssaError V03State) : bool := match r with Ok _ => true | _ => false end.

Lemma malformed_key_stops_wallet_witness :
  applied (transition_from_privacy_preserving_transaction empty_state (with_tx_outputs [bad_output] payment) 1 1) = true /\
  transition_from_privacy_preserving_transaction empty_state (with_tx_outputs [bad_output] payment) 1 1 =
    transition_from_privacy_preserving_transaction empty_state payment 1 1 /\
  exists msg, sync_private_accounts_with_tx alice (PrivacyPreserving (with_tx_outputs [bad_output] payment)) = Panic msg.
Proof.
  split; [vm_compute; reflexivity|].
  apply (malformed_key_stops_wallet alice
    (for_private_account (nullifier_public_key alice_keys) (Regular 0), alice_keys, Some []) bad_output payment).
  - reflexivity.
  - reflexivity.
  - apply (bool_decide_unpack _). vm_compute. exact I.
  - apply list_elem_of_singleton. reflexivity.
  - reflexivity.
  - intros Hlen. discriminate Hlen.
Defined.

(** ** An imported key paid under another identifier *)
Definition bob_seed : SeedHolder := mk_SeedHolder (replicate 64 Byte.x09).
Definition bob : UserKeyChain := run no_keys (storage_trees bob_seed).
Definition bob_keys : KeyChain :=
  match key_map (private_key_tree bob) !! [] with Some node => (priv_value node).1 | None => alice_keys end.
Definition importer : UserKeyChain := add_imported_private_account alice bob_keys None 0 Account_default.
Definition unexpected : PrivacyPreservingTransaction := tx_of [payment_to bob_keys paid_kind].
Definition bob_id : AccountId := for_private_account (nullifier_public_key bob_keys) paid_kind.

Lemma unexpected_affects : affected_accounts importer (priv_message unexpected) = Ok [(bob_id, paid_kind, paid)].
Proof. decide_run. Qed.
Lemma importer_decodes e i kind b :
  e ∈ private_account_key_chains importer -> decoded e.1.2 e.2 (priv_message unexpected) i kind b -> kind = paid_kind.
Proof.
  intros He Hdec. destruct (affected_accounts_spec importer (priv_message unexpected)) as (l & Hl & Hall).
  { apply (affected_readable _ _ _ unexpected_affects). }
  assert (Hmem : (for_private_account (nullifier_public_key e.1.2) kind, kind, b) ∈ l).
  { apply Hall. exists e. split; [exact He|]. exists i. exact (conj Hdec eq_refl). }
  rewrite unexpected_affects in Hl. apply (proj1 (ok_inj _ _)) in Hl. rewrite <- Hl in Hmem.
  by apply list_elem_of_singleton, triple_eq in Hmem as [-> _].
Qed.
Lemma bob_is_paid : decoded bob_keys None (priv_message unexpected) 0 paid_kind paid.
Proof.
  destruct (run_ok (calculate_shared_secret_receiver bob_keys (epk (payment_to bob_keys paid_kind)) None)
    (fun s => bool_decide (decrypt (ciphertext (payment_to bob_keys paid_kind)) s comm 0 = Some (paid_kind, paid))))
    as (s & Hs & Hd); [vm_compute; reflexivity|].
  exists (payment_to bob_keys paid_kind), comm, s. split; [reflexivity|]. split; [reflexivity|].
  split; [reflexivity|]. split; [exact Hs|]. exact (bool_decide_eq_true_1 _ Hd).
Qed.
Lemma importer_unowned : unowned importer bob_id (fun kind => kind = paid_kind).
Proof.
  constructor.
  - decide_run.
  - intros key accounts kind Hkey Hk Heq.
    change (imported_private_accounts importer) with
      (<[mk_ImportedKey bob_keys None := <[Regular 0 := Account_default]> ∅]>
        (∅ : gmap ImportedPrivateAccountKey (gmap PrivateAccountKind Account))) in Hkey.
    apply lookup_insert_Some in Hkey as [[<- <-]|[_ Hkey]]; [|by rewrite lookup_empty in Hkey].
    rewrite lookup_insert_is_Some, lookup_empty in Hk. destruct Hk as [<-|[_ [? Hk]]]; [|discriminate Hk].
    revert Heq. cbn [imp_key_chain]. decide_run.
  - decide_run.
  - intros c node kind Hc -> Heq. apply alice_node in Hc as [-> ->]. revert Heq. decide_run.
Qed.

Lemma unknown_identifier_stops_wallet_witness :
  exists msg, sync_private_accounts_with_tx importer (PrivacyPreserving unexpected) = Panic msg.
Proof.
  apply (unknown_identifier_stops_wallet importer unexpected
    (for_private_account (nullifier_public_key bob_keys) (Regular 0), bob_keys, None) 0 paid_kind paid).
  - apply (bool_decide_unpack _). vm_compute. exact I.
  - exact bob_is_paid.
  - destruct importer_unowned as [Hsh Himp Hid Hnode]. constructor; [exact Hsh|exact Himp|exact Hid|].
    intros c node kind Hc (e & i & b & He & Hdec). apply (Hnode c node kind Hc).
    exact (importer_decodes e i kind b He Hdec).
Defined.

(** ** Restoring the keys of a synchronised wallet *)
#[global] Instance one_mnemonic : Bip39 := {|
  Mnemonic := ();
  mnemonic_from_entropy _ := Some ();
  to_seed _ _ := replicate 64 Byte.x07;
|}.
#[global] Instance Storage_eq_dec : EqDecision Storage.
Proof. solve_decision. Defined.
Definition phrase : Mnemonic (Bip39 := one_mnemonic) := ().
Definition synced : Storage := mk_Storage bob ∅ 7.
Definition emptied : Storage := mk_Storage alice ∅ 7.
Definition generated : UserKeyChain := run no_keys (generate_trees_for_depth alice 3).
Definition offline (_ _ : Z) : outcome string (list Block) := Err "no block is requested".
Definition restored : Storage :=
  (run (synced, Ok ()) (execute_keys_restoration offline (Ok 7) nobody 10 emptied 3)).1.

Lemma generated_run : generate_trees_for_depth alice 3 = Ok generated.
Proof. decide_run. Qed.
Lemma distinct_public (t : KeyTree ChildKeysPublic) :
  forallb (fun e => forallb (fun f => bool_decide (public_account_id e.2 = public_account_id f.2 -> e.1 = f.1))
    (map_to_list (key_map t))) (map_to_list (key_map t)) = true -> distinct_ids t.
Proof.
  intros Hall id c d node node' Hc Hd ->%list_elem_of_singleton Hid%list_elem_of_singleton.
  rewrite List.forallb_forall in Hall. apply elem_of_map_to_list, list_elem_of_In in Hc, Hd.
  specialize (Hall _ Hc). rewrite List.forallb_forall in Hall. specialize (Hall _ Hd).
  by apply (bool_decide_eq_true_1 _ Hall).
Qed.
Lemma generated_fits : fits generated.
Proof.
  split; [|split; [|split]].
  - apply small_size. vm_compute. reflexivity.
  - apply distinct_public. vm_compute. reflexivity.
  - apply small_size. vm_compute. reflexivity.
  - apply distinct_private. vm_compute. reflexivity.
Qed.

Lemma restoration_loses_private_keys_witness :
  bool_decide (size (key_map (private_key_tree generated)) = 4%nat) = true /\
  last_synced_block restored = 7 /\
  forall c, present (private_key_tree (key_chain restored)) c -> c = ChainIndex.root.
Proof.
  split; [vm_compute; reflexivity|].
  apply (restoration_loses_private_keys offline 7 nobody 10 synced phrase emptied restored 3).
  - decide_run.
  - apply Z.le_refl.
  - split; reflexivity.
  - intros k Hk. change (generate_trees_for_depth alice 3 = Ok k) in Hk. rewrite generated_run in Hk. apply (proj1 (ok_inj _ _)) in Hk. rewrite <- Hk. apply generated_fits.
  - decide_run.
Defined.

(** ** Polling in chunks of three blocks *)
Definition block_numbered (id : Z) : Block :=
  mk_Block (mk_BlockHeader id [] [] 0 (mk_Signature [])) [] Pending [].
Definition chunk_server (a b : Z) : outcome string (list Block) := Ok (block_numbered <$> seqZ a (b - a + 1)).
Lemma sync_reads_every_block_witness :
  sync_to_block chunk_server 3 synced 15 =
    (s' ← fold_o sync_block synced (block_numbered <$> seqZ (last_synced_block synced + 1) (15 - last_synced_block synced));
     Ok (s', Ok ())).
Proof.
  apply (sync_reads_every_block chunk_server block_numbered 3 synced 15).
  - intros a b _ _ _. reflexivity.
  - lia.
  - cbn [synced last_synced_block]. lia.
  - unfold u64_max. lia.
Defined.
End WalletSamples.
