(* ===== verification/WalletTx.v ===== *)
(** How a wallet builds a privacy preserving transaction:
    [wallet/src/privacy_preserving_tx.rs] and the corresponding operations of
    [WalletCore] in [wallet/src/lib.rs].

    The answers of the sequencer are functions, signatures and the random bytes of
    the ephemeral keys (one array per account, by position) are arguments. *)

From S2P Require Import Prelude Bytes Crypto Account Ids ProgramCore Borsh MerkleTree Host State Encryption CircuitIo Circuit Transactions Prover StateDiffs Chain ChainIndex KeyDerivation GroupKeys KeyTree UserKeyChain WalletSync.

(** ** Data *)
Inductive PrivacyPreservingAccount :=
  | AccPublic (id : AccountId)
  | PrivateOwned (id : AccountId)
  | PrivateForeign (npk : NullifierPublicKey) (vpk : ViewingPublicKey) (identifier : Identifier)
  | PrivatePdaOwned (id : AccountId)
  | PrivatePdaForeign (id : AccountId) (npk : NullifierPublicKey) (vpk : ViewingPublicKey) (identifier : Identifier)
  | PrivateShared (nsk : NullifierSecretKey) (npk : NullifierPublicKey) (vpk : ViewingPublicKey)
      (identifier : Identifier)
  | PrivatePdaShared (id : AccountId) (nsk : NullifierSecretKey) (npk : NullifierPublicKey) (vpk : ViewingPublicKey)
      (identifier : Identifier).
Definition acc_is_public (a : PrivacyPreservingAccount) : bool :=
  match a with AccPublic _ => true | _ => false end.
Definition acc_is_private (a : PrivacyPreservingAccount) : bool :=
  match a with
  | PrivateOwned _ | PrivateForeign _ _ _ | PrivatePdaOwned _ | PrivatePdaForeign _ _ _ _
  | PrivateShared _ _ _ _ | PrivatePdaShared _ _ _ _ _ => true
  | AccPublic _ => false
  end.

Record PrivateAccountKeys := mk_PrivateAccountKeys {
  keys_npk : NullifierPublicKey;
  keys_ssk : SharedSecretKey;
  keys_vpk : ViewingPublicKey;
  keys_epk : EphemeralPublicKey;
}.
Record AccountPreparedData := mk_Prepared {
  pd_nsk : option NullifierSecretKey;
  pd_npk : NullifierPublicKey;
  pd_identifier : Identifier;
  pd_vpk : ViewingPublicKey;
  pd_pre_state : AccountWithMetadata;
  pd_proof : option MembershipProof;
  pd_ssk : SharedSecretKey;
  pd_epk : EphemeralPublicKey;
  pd_is_pda : bool;
}.
Inductive AccState :=
  | StPublic (account : AccountWithMetadata) (sk : option PrivateKey)
  | StPrivate (pre : AccountPreparedData).

(** [ExecutionFailureKind]; [SequencerError] wraps the errors of the client. *)
Inductive ExecutionFailureKind (E : Type) :=
  | SequencerError (e : E)
  | AmountMismatchError
  | KeyNotFoundError
  | SequencerClientError (e : E)
  | InsufficientFundsError
  | AccountDataError (id : AccountId)
  | TransactionBuildError (e : NssaError).
Arguments SequencerError {E} _.
Arguments AmountMismatchError {E}.
Arguments KeyNotFoundError {E}.
Arguments SequencerClientError {E} _.
Arguments InsufficientFundsError {E}.
Arguments AccountDataError {E} _.
Arguments TransactionBuildError {E} _.

(** A computation without errors in a computation with errors. *)
Definition lift_guest {E A} (m : guest A) : outcome E A :=
  match m with Ok a => Ok a | Err e => match e with end | Panic msg => Panic msg end.

(** ** The account manager *)
Section Manager.
Context `{HmacSha512, K256, Sha256} {E : Type}.

(** The client of the sequencer. *)
Variable get_account : AccountId -> outcome E Account.
Variable get_proof_for_commitment : Commitment -> outcome E (option MembershipProof).

(** [check_private_account_initialized] *)
Definition check_private_account_initialized (k : UserKeyChain) (id : AccountId) :
    outcome E (option MembershipProof) :=
  match get_private_account_commitment k id with
  | Some acc_comm => get_proof_for_commitment acc_comm
  | None => Ok None
  end.

(** [EphemeralKeyHolder::new] and the two calls that follow it, in all five
    places. *)
Definition ephemeral (npk : NullifierPublicKey) (vpk : ViewingPublicKey) (nonce : list byte) :
    guest (SharedSecretKey * EphemeralPublicKey) :=
  let eph_holder := EphemeralKeyHolder_new npk nonce in
  ssk ← calculate_shared_secret_sender eph_holder vpk;
  epk ← generate_ephemeral_public_key eph_holder;
  Ok (ssk, epk).

Definition private_key_tree_acc_preparation (k : UserKeyChain) (id : AccountId) (is_pda : bool) (nonce : list byte) :
    outcome (ExecutionFailureKind E) AccountPreparedData :=
  from_acc ← ok_or (private_account k id) KeyNotFoundError;
  let from_keys := found_key_chain from_acc in
  proof ← match check_private_account_initialized k id with
          | Ok proof => Ok proof
          | Err _ => Panic "called `Result::unwrap()` on an `Err` value"
          | Panic msg => Panic msg
          end;
  let sender_pre := mk_AWM (found_account from_acc) true id in
  '(ssk, epk) ← lift_guest (ephemeral (nullifier_public_key from_keys) (viewing_public_key from_keys) nonce);
  Ok (mk_Prepared (Some (nullifier_secret_key (private_key_holder from_keys))) (nullifier_public_key from_keys)
        (kind_identifier (found_kind from_acc)) (viewing_public_key from_keys) sender_pre proof ssk epk is_pda).

Definition private_shared_acc_preparation (k : UserKeyChain) (id : AccountId) (nsk : NullifierSecretKey)
    (npk : NullifierPublicKey) (vpk : ViewingPublicKey) (identifier : Identifier) (is_pda : bool)
    (nonce : list byte) : outcome (ExecutionFailureKind E) AccountPreparedData :=
  let acc := match shared_private_account k id with Some e => shared_account e | None => Account_default end in
  let pre_state := mk_AWM acc true id in
  proof ← match check_private_account_initialized k id with
          | Ok proof => Ok proof
          | Err _ => Ok None
          | Panic msg => Panic msg
          end;
  '(ssk, epk) ← lift_guest (ephemeral npk vpk nonce);
  Ok (mk_Prepared (Some nsk) npk identifier vpk pre_state proof ssk epk is_pda).

(** A foreign account is a new one, the default account. *)
Definition foreign_acc_preparation (id : AccountId) (npk : NullifierPublicKey) (vpk : ViewingPublicKey)
    (identifier : Identifier) (is_pda : bool) (nonce : list byte) :
    outcome (ExecutionFailureKind E) AccountPreparedData :=
  '(ssk, epk) ← lift_guest (ephemeral npk vpk nonce);
  Ok (mk_Prepared None npk identifier vpk (mk_AWM Account_default false id) None ssk epk is_pda).

(** The match of the loop of [AccountManager::new]. *)
Definition prepare (k : UserKeyChain) (account : PrivacyPreservingAccount) (nonce : list byte) :
    outcome (ExecutionFailureKind E) AccState :=
  match account with
  | AccPublic id =>
      acc ← map_err SequencerError (get_account id);
      let sk := pub_account_signing_key k id in
      Ok (StPublic (mk_AWM acc (bool_decide (is_Some sk)) id) sk)
  | PrivateOwned id => StPrivate <$> private_key_tree_acc_preparation k id false nonce
  | PrivateForeign npk vpk i =>
      StPrivate <$> foreign_acc_preparation (for_regular_private_account npk i) npk vpk i false nonce
  | PrivatePdaOwned id => StPrivate <$> private_key_tree_acc_preparation k id true nonce
  | PrivatePdaForeign id npk vpk i => StPrivate <$> foreign_acc_preparation id npk vpk i true nonce
  | PrivateShared nsk npk vpk i =>
      StPrivate <$> private_shared_acc_preparation k (for_regular_private_account npk i) nsk npk vpk i false nonce
  | PrivatePdaShared id nsk npk vpk i =>
      StPrivate <$> private_shared_acc_preparation k id nsk npk vpk i true nonce
  end.
Fixpoint AccountManager_new (k : UserKeyChain) (accounts : list PrivacyPreservingAccount) (nonces : nat -> list byte) :
    outcome (ExecutionFailureKind E) (list AccState) :=
  match accounts with
  | [] => Ok []
  | account :: accounts =>
      state ← prepare k account (nonces O);
      states ← AccountManager_new k accounts (nonces ∘ S);
      Ok (state :: states)
  end.
End Manager.

(** The views of the prepared accounts. *)
Definition st_pre_state (s : AccState) : AccountWithMetadata :=
  match s with StPublic account _ => account | StPrivate pre => pd_pre_state pre end.
Definition am_pre_states (states : list AccState) : list AccountWithMetadata := st_pre_state <$> states.
Definition public_account_nonces (states : list AccState) : list Nonce :=
  omap (fun s => match s with
                 | StPublic acc sk => (fun _ => nonce (account acc)) <$> sk
                 | StPrivate _ => None
                 end) states.
Definition private_account_keys (states : list AccState) : list PrivateAccountKeys :=
  omap (fun s => match s with
                 | StPrivate pre => Some (mk_PrivateAccountKeys (pd_npk pre) (pd_ssk pre) (pd_vpk pre) (pd_epk pre))
                 | StPublic _ _ => None
                 end) states.
Definition st_identity (s : AccState) : InputAccountIdentity :=
  match s with
  | StPublic _ _ => CircuitIo.Public
  | StPrivate pre =>
      if pd_is_pda pre then
        match pd_nsk pre, pd_proof pre with
        | Some nsk, Some membership_proof => PrivatePdaUpdate (pd_ssk pre) nsk membership_proof (pd_identifier pre)
        | _, _ => PrivatePdaInit (pd_npk pre) (pd_ssk pre) (pd_identifier pre)
        end
      else
        match pd_nsk pre, pd_proof pre with
        | Some nsk, Some membership_proof =>
            PrivateAuthorizedUpdate (pd_ssk pre) nsk membership_proof (pd_identifier pre)
        | Some nsk, None => PrivateAuthorizedInit (pd_ssk pre) nsk (pd_identifier pre)
        | None, _ => PrivateUnauthorized (pd_npk pre) (pd_ssk pre) (pd_identifier pre)
        end
  end.
Definition am_account_identities (states : list AccState) : list InputAccountIdentity := st_identity <$> states.
Definition am_public_account_ids (states : list AccState) : list AccountId :=
  omap (fun s => match s with StPublic account _ => Some (account_id account) | StPrivate _ => None end) states.
Definition public_account_auth (states : list AccState) : list PrivateKey :=
  omap (fun s => match s with StPublic _ sk => sk | StPrivate _ => None end) states.

(** ** Signing: [Signature::new], [WitnessSet::for_message]

    [schnorr_sign] is the signing of the crate [k256] with its random bytes;
    [None] stands for the keys it refuses. *)
Class SchnorrSign := schnorr_sign : list byte -> list byte -> option (list byte).

Section Sending.
Context `{HmacSha512, K256, Sha256, ZkVm, Serde ProgramOutput, CircuitProver, SchnorrSign, Borsh PrivacyMessage}.
Context {E : Type}.

Definition Signature_new (key : PrivateKey) (message : list byte) : guest Signature :=
  v ← expect (schnorr_sign (private_key_value key) message) "Expect valid signing key";
  Ok (mk_Signature v).
(** The signatures of both kinds of witness sets. *)
Definition sign_all (message_hash : list byte) (private_keys : list PrivateKey) : guest SignaturesAndKeys :=
  fold_o (fun sks key =>
      s ← Signature_new key message_hash;
      pk ← new_from_private_key key;
      Ok (sks ++ [(s, pk)])) [] private_keys.
Definition for_message (m : PrivacyMessage) (p : Proof_) (private_keys : list PrivateKey) : guest PrivacyWitnessSet :=
  sks ← sign_all (priv_hash m) private_keys;
  Ok (mk_PrivacyWitnessSet sks p).
Definition pub_for_message `{Borsh PublicMessage} (m : PublicMessage) (private_keys : list PrivateKey) :
    guest PublicWitnessSet :=
  sks ← sign_all (pub_hash m) private_keys;
  Ok (mk_PublicWitnessSet sks).

Variable get_account : AccountId -> outcome E Account.
Variable get_proof_for_commitment : Commitment -> outcome E (option MembershipProof).

(** [send_privacy_preserving_tx_with_pre_check], up to the call that sends. *)
Definition build_privacy_preserving_tx (k : UserKeyChain) (accounts : list PrivacyPreservingAccount)
    (instruction_data : InstructionData) (program : ProgramWithDependencies)
    (tx_pre_check : list Account -> outcome (ExecutionFailureKind E) ()) (nonces : nat -> list byte) :
    outcome (ExecutionFailureKind E) (PrivacyPreservingTransaction * list SharedSecretKey) :=
  states ← AccountManager_new get_account get_proof_for_commitment k accounts nonces;
  let pre_states := am_pre_states states in
  tx_pre_check (account <$> pre_states) ;;
  let keys := private_account_keys states in
  '(output, proof) ← unwrap (execute_and_prove pre_states instruction_data (am_account_identities states) program);
  message ← unwrap (try_from_circuit_output (am_public_account_ids states) (public_account_nonces states)
                      ((fun keys => (keys_npk keys, keys_vpk keys, keys_epk keys)) <$> keys) output);
  witness_set ← lift_guest (for_message message proof (public_account_auth states));
  Ok (mk_PrivacyTx message witness_set, keys_ssk <$> keys).
Definition send_privacy_preserving_tx_with_pre_check {H} (send_transaction : NSSATransaction -> outcome E H)
    (k : UserKeyChain) (accounts : list PrivacyPreservingAccount) (instruction_data : InstructionData)
    (program : ProgramWithDependencies) (tx_pre_check : list Account -> outcome (ExecutionFailureKind E) ())
    (nonces : nat -> list byte) : outcome (ExecutionFailureKind E) (H * list SharedSecretKey) :=
  '(tx, shared_secrets) ← build_privacy_preserving_tx k accounts instruction_data program tx_pre_check nonces;
  hash ← map_err SequencerClientError (send_transaction (PrivacyPreserving tx));
  Ok (hash, shared_secrets).
Definition send_privacy_preserving_tx {H} (send_transaction : NSSATransaction -> outcome E H) (k : UserKeyChain)
    (accounts : list PrivacyPreservingAccount) (instruction_data : InstructionData)
    (program : ProgramWithDependencies) (nonces : nat -> list byte) :
    outcome (ExecutionFailureKind E) (H * list SharedSecretKey) :=
  send_privacy_preserving_tx_with_pre_check send_transaction k accounts instruction_data program (fun _ => Ok ()) nonces.

(** [resolve_private_account] *)
Definition resolve_private_account (k : UserKeyChain) (id : AccountId) : guest (option PrivacyPreservingAccount) :=
  match private_account k id with
  | Some _ => Ok (Some (PrivateOwned id))
  | None =>
      match shared_private_account k id with
      | None => Ok None
      | Some entry =>
          match group_key_holder k (group_label entry) with
          | None => Ok None
          | Some holder =>
              match shared_pda_seed entry, shared_pda_program_id entry with
              | Some pda_seed, Some program_id =>
                  let keys := derive_keys_for_pda holder program_id pda_seed in
                  let npk := generate_nullifier_public_key keys in
                  vpk ← generate_viewing_public_key keys;
                  Ok (Some (PrivatePdaShared id (nullifier_secret_key keys) npk vpk (shared_identifier entry)))
              | _, _ =>
                  let keys := derive_keys_for_shared_account holder (derivation_seed (shared_identifier entry)) in
                  let npk := generate_nullifier_public_key keys in
                  vpk ← generate_viewing_public_key keys;
                  Ok (Some (PrivateShared (nullifier_secret_key keys) npk vpk (shared_identifier entry)))
              end
          end
      end
  end.
End Sending.
