(* ===== verification/WalletTxTheorems.v ===== *)
(** What wallets send: the transaction a wallet builds carries, for every private
    account, the output the circuit computed for it under the keys of its owner, so
    that a payment arrives; and the requests that the prover always refuses. *)

From S2P Require Import Prelude Bytes Crypto Account Ids ProgramCore Borsh MerkleTree Host State Encryption CircuitIo Circuit Transactions Prover StateDiffs CircuitFacts Chain ChainIndex KeyDerivation GroupKeys KeyTree UserKeyChain WalletSync KeyTreeFacts KeyTreeTheorems StorageFacts WalletFacts SyncFacts WalletTheorems WalletTx.

(** ** Lists *)
Lemma omap_nth {A B} (f : A -> option B) (l : list A) i x y :
  l !! i = Some x -> f x = Some y -> omap f l !! length (omap f (take i l)) = Some y.
Proof.
  intros Hi Hf. assert (Heq : omap f l = omap f (take i l) ++ y :: omap f (drop (S i) l)).
  { transitivity (omap f (take i l ++ x :: drop (S i) l)); [by rewrite (take_drop_middle l i x Hi)|].
    rewrite omap_app. cbn [omap list_omap]. by rewrite Hf. }
  rewrite Heq. by apply list_lookup_middle.
Qed.

(** ** The circuit, position by position *)
Section Positions.
Context `{Sha256, ChaCha20}.

Definition private_part (i : InputAccountIdentity) : option InputAccountIdentity :=
  if CircuitIo.is_public i then None else Some i.

Definition grown (o o' : PrivacyPreservingCircuitOutput) : Prop :=
  co_ciphertexts o `prefix_of` co_ciphertexts o' /\ co_new_commitments o `prefix_of` co_new_commitments o'.
Lemma grown_refl o : grown o o.
Proof. by split. Qed.
Lemma grown_trans o1 o2 o3 : grown o1 o2 -> grown o2 o3 -> grown o1 o3.
Proof. intros [? ?] [? ?]. split; by etrans. Qed.

(** A step emits one ciphertext and one commitment, exactly for private
    accounts. *)
Definition stepped (identity : InputAccountIdentity) (o : PrivacyPreservingCircuitOutput) (index : Z)
    (o' : PrivacyPreservingCircuitOutput) (index' : Z) : Prop :=
  grown o o' /\
  (length (co_ciphertexts o') = length (co_ciphertexts o) + length (omap private_part [identity]))%nat /\
  (length (co_new_commitments o') = length (co_new_commitments o) + length (omap private_part [identity]))%nat /\
  index' = index + Z.of_nat (length (omap private_part [identity])).

Lemma emit_stepped identity o index post id kind ssk nullifier n o' index' :
  CircuitIo.is_public identity = false ->
  emit_private_output o index post id kind ssk nullifier n = Ok (o', index') ->
  stepped identity o index o' index' /\
  exists ct, encrypt (E := Empty_set) (set_nonce n post) kind ssk (Commitment_new id (set_nonce n post)) index = Ok ct /\
    co_ciphertexts o' = co_ciphertexts o ++ [ct] /\
    co_new_commitments o' = co_new_commitments o ++ [Commitment_new id (set_nonce n post)].
Proof.
  intros Hp He. unfold emit_private_output in He. apply bind_ok in He as (ct & Hct & He).
  apply bind_ok in He as (i' & Hi%expect_ok & [= <- <-]). apply checked_add_Some in Hi as [_ ->]. split; [|by exists ct].
  unfold stepped, grown. cbn [co_ciphertexts co_new_commitments omap list_omap]. unfold private_part. rewrite Hp.
  cbn [length]. rewrite !length_app. cbn [length].
  split; [by split; apply prefix_app_r|]. split; [done|]. split; [done|]. lia.
Qed.

Lemma output_one_stepped seeds o index pos identity pre post o' index' :
  output_one seeds o index pos identity pre post = Ok (o', index') -> stepped identity o index o' index'.
Proof.
  intros Ho. unfold output_one in Ho. destruct identity; inv_ok.
  all: try (eapply emit_stepped; [|eassumption]; done).
  unfold stepped, grown, emit_public_output. cbn [co_ciphertexts co_new_commitments omap list_omap private_part CircuitIo.is_public length].
  split; [by split|]. lia.
Qed.

Lemma output_loop_at seeds : forall identities pos index pres posts o o' i identity,
  output_loop seeds pos index identities pres posts o = Ok o' -> length identities = length pres ->
  identities !! i = Some identity ->
  exists pre post o1 o2 index2, pres !! i = Some pre /\ posts !! account_id pre = Some post /\
    output_one seeds o1 (index + Z.of_nat (length (omap private_part (take i identities)))) (pos + i) identity pre post
      = Ok (o2, index2) /\
    (length (co_ciphertexts o1) = length (co_ciphertexts o) + length (omap private_part (take i identities)))%nat /\
    (length (co_new_commitments o1) = length (co_new_commitments o) + length (omap private_part (take i identities)))%nat /\
    grown o2 o'.
Proof.
  induction identities as [|identity0 identities IH]; intros pos index [|pre pres] posts o o' i identity Ho Hlen Hi; try done.
  cbn [output_loop] in Ho. apply bind_ok in Ho as (post & Hpost%expect_ok & Ho).
  apply bind_ok in Ho as ([o1 index1] & Hone & Ho). pose proof (output_one_stepped _ _ _ _ _ _ _ _ _ Hone) as (Hg & Hct & Hcm & Hix).
  assert (Hrest : forall seeds pos index identities pres posts o o',
    output_loop seeds pos index identities pres posts o = Ok o' -> grown o o').
  { clear. intros seeds pos index identities. revert pos index. induction identities as [|x l IH];
      intros pos index [|pre pres] posts o o' Ho; try (injection Ho as <-; apply grown_refl).
    cbn [output_loop] in Ho. apply bind_ok in Ho as (post & _ & Ho). apply bind_ok in Ho as ([o1 index1] & Hone & Ho).
    apply output_one_stepped in Hone as [Hg _]. eapply grown_trans; [exact Hg|by eapply IH]. }
  destruct i as [|i].
  - injection Hi as ->. exists pre, post, o, o1, index1. cbn [take omap list_omap length].
    rewrite Z.add_0_r, !Nat.add_0_r. repeat (split; [done|]). by eapply Hrest.
  - destruct (IH (S pos) index1 pres (delete (account_id pre) posts) o1 o' i identity Ho) as
      (pre' & post' & oa & ob & ix & Hpre & Hpost' & Hrun & Hcta & Hcma & Hend); [by injection Hlen|done|].
    exists pre', post', oa, ob, ix. apply lookup_delete_Some in Hpost' as [_ Hpost'].
    split; [done|]. split; [done|]. cbn [take]. change (identity0 :: take i identities) with ([identity0] ++ take i identities).
    rewrite omap_app, length_app, Nat2Z.inj_add, Z.add_assoc, <- Hix, Nat.add_succ_r.
    split; [exact Hrun|]. split; [lia|]. by split; [lia|].
Qed.
End Positions.

(** ** Building a transaction *)
Section Building.
Context `{HmacSha512, K256, Sha256, ChaCha20, ZkVm, Serde ProgramOutput, CircuitProver, SchnorrSign, Borsh PrivacyMessage}.
Context {E : Type}.
Context (get_account : AccountId -> outcome E Account).
Context (get_proof : Commitment -> outcome E (option MembershipProof)).
Implicit Types k : UserKeyChain.

(** A prover that returns a journal has run the circuit on its input, whose parts
    have their Rust types, and the circuit committed that journal. *)
Class ProverRuns := prover_runs (i : PrivacyPreservingCircuitInput) assumptions bytes o :
  prove_with_opts i assumptions = inr (bytes, o) ->
  input_wf i /\ exists assumptions', privacy_circuit i = Ok (o, assumptions').

Lemma manager_lookup k : forall accounts nonces states i account,
  AccountManager_new get_account get_proof k accounts nonces = Ok states -> accounts !! i = Some account ->
  exists state, states !! i = Some state /\ prepare get_account get_proof k account (nonces i) = Ok state.
Proof.
  induction accounts as [|a accounts IH]; intros nonces states i account Hm Hi; [done|]. cbn [AccountManager_new] in Hm.
  apply bind_ok in Hm as (s & Hs & (states' & Hstates & [= <-])%bind_ok). destruct i as [|i].
  - injection Hi as ->. by exists s.
  - apply (IH _ _ _ _ Hstates Hi).
Qed.

(** *** What a finished transaction is made of *)
Record built (states : list AccState) (m : PrivacyMessage) (secrets : list SharedSecretKey)
    (output : PrivacyPreservingCircuitOutput) : Prop := mk_built {
  built_secrets : secrets = keys_ssk <$> private_account_keys states;
  built_encrypted : encrypted_private_post_states m =
    zip_with (fun c keys => EncryptedAccountData_new c (keys_npk keys) (keys_vpk keys) (keys_epk keys))
      (co_ciphertexts output) (private_account_keys states);
  built_length : length (private_account_keys states) = length (co_ciphertexts output);
  built_commitments : priv_new_commitments m = co_new_commitments output;
}.

Lemma lift_guest_ok {F A} (r : guest A) a : lift_guest (E := F) r = Ok a -> r = Ok a.
Proof. destruct r as [a'|[]|msg]; [|done]. by intros [= ->]. Qed.

Lemma build_ok k accounts instr program pre_check nonces tx secrets :
  build_privacy_preserving_tx get_account get_proof k accounts instr program pre_check nonces = Ok (tx, secrets) ->
  exists states output proof, AccountManager_new get_account get_proof k accounts nonces = Ok states /\
    execute_and_prove (am_pre_states states) instr (am_account_identities states) program = Ok (output, proof) /\
    built states (priv_message tx) secrets output.
Proof.
  unfold build_privacy_preserving_tx. intros (states & Hstates & Hb)%bind_ok.
  apply bind_ok in Hb as (? & _ & Hb). apply bind_ok in Hb as ([output proof] & Hprove%unwrap_ok & Hb).
  apply bind_ok in Hb as (message & Hm%unwrap_ok & Hb). apply bind_ok in Hb as (w & _ & [= <- <-]).
  exists states, output, proof. split; [done|]. split; [done|].
  unfold try_from_circuit_output in Hm. rewrite length_fmap in Hm.
  apply bind_ok in Hm as (? & Hlen & [= <-]). apply ensure_ok, bool_decide_eq_true_1 in Hlen.
  constructor; [done| |done|done]. cbn [priv_message encrypted_private_post_states].
  by rewrite zip_with_fmap_r.
Qed.

(** The run of the circuit behind a finished transaction. *)
Lemma proved_run `{!ProverRuns} pres instr identities program output proof :
  execute_and_prove pres instr identities program = Ok (output, proof) ->
  exists receipts es, prove_loop PROVE_LOOP_FUEL (dependencies program) 0
      [(prover_initial_call program pres instr, main_program program, None)] [] = Some (Ok receipts) /\
    input_wf (mk_CircuitInput receipts.*2 identities (program_id (main_program program))) /\
    (exists asm, derive_from_outputs identities (program_id (main_program program)) receipts.*2 = Ok (es, asm)) /\
    compute_circuit_output es identities = Ok output.
Proof.
  unfold execute_and_prove. intros (receipts & Hr & Hp)%bind_ok.
  destruct (prove_loop _ _ _ _ _) as [r|] eqn:Hloop; [|done]. subst r.
  destruct (prove_with_opts _ _) as [e|[bytes o]] eqn:Hprove; [done|]. injection Hp as -> _.
  apply prover_runs in Hprove as (Hwf & asm & Hc). apply bind_ok in Hc as ([es asm'] & Hd & Hc).
  apply bind_ok in Hc as (o' & Hc & [= -> _]). exists receipts, es. split; [done|]. split; [done|]. split; [by exists asm'|done].
Qed.

(** *** The position of an account among the private ones *)
Definition private_before (states : list AccState) (i : nat) : nat := length (private_account_keys (take i states)).

Lemma private_before_identities states i :
  length (omap private_part (take i (am_account_identities states))) = private_before states i.
Proof.
  unfold am_account_identities, private_before, private_account_keys. rewrite <- fmap_take.
  induction (take i states) as [|s l IH]; [done|]. rewrite fmap_cons. cbn [omap list_omap].
  destruct s as [a sk|pre]; cbn [st_identity private_part CircuitIo.is_public]; [exact IH|].
  assert (Hp : CircuitIo.is_public (st_identity (StPrivate pre)) = false).
  { cbn. by destruct (pd_is_pda pre), (pd_nsk pre), (pd_proof pre). }
  unfold private_part at 1. cbn [st_identity] in Hp. rewrite Hp. cbn [length]. by rewrite IH.
Qed.
End Building.

(** ** The accounts of the first program *)
Section FirstOutput.
Context `{Sha256, Serde ProgramOutput}.

Definition same_accounts (es es' : ExecutionState) : Prop :=
  es_pre_states es' = es_pre_states es /\ es_post_states es' = es_post_states es.

Lemma resolve_same es id pos caller seeds prev es' b :
  resolve_authorization_and_record_bindings es id pos caller seeds prev = Ok (es', b) -> same_accounts es es'.
Proof.
  unfold resolve_authorization_and_record_bindings.
  destruct (matched_caller_seed _ _ _ _) as [[[seed private_form] c]|]; [|by intros [= <- _]].
  intros (f & _ & (m & _ & [= <- _])%bind_ok)%bind_ok. done.
Qed.

Lemma check_claim_same identities p es pre post c es' :
  check_claim identities p es pre post c = Ok es' -> same_accounts es es'.
Proof.
  unfold check_claim. intros Hc. apply bind_ok in Hc as (_ & _ & Hc). apply bind_ok in Hc as ([pos acc] & _ & Hc).
  apply bind_ok in Hc as (identity & _ & Hc).
  destruct (CircuitIo.is_public identity); [|destruct (is_private_pda identity)]; [..|by injection Hc as <-];
    destruct c as [|seed].
  - apply bind_ok in Hc as (_ & _ & [= <-]). done.
  - apply bind_ok in Hc as (_ & _ & (f & _ & [= <-])%bind_ok). done.
  - apply bind_ok in Hc as (_ & _ & [= <-]). done.
  - apply bind_ok in Hc as ([npk i] & _ & Hc). apply bind_ok in Hc as (_ & _ & Hc).
    apply bind_ok in Hc as (m & _ & (f & _ & [= <-])%bind_ok). done.
Qed.

(** A step registers an account that is new, and no other. *)
Lemma sync_one_accounts identities p caller seeds es pre post es' :
  sync_one identities p caller seeds es (pre, post) = Ok es' ->
  es_pre_states es' = es_pre_states es ++ (if decide (is_Some (es_post_states es !! account_id pre)) then [] else [pre]) /\
  forall id, is_Some (es_post_states es' !! id) <-> id = account_id pre \/ is_Some (es_post_states es !! id).
Proof.
  unfold sync_one. intros (es1 & Hes1 & ([es2 a] & Hes2 & [= <-])%bind_ok)%bind_ok.
  cbn [es_with_accounts es_pre_states es_post_states].
  assert (H12 : same_accounts es1 es2).
  { destruct (claim post); [|by injection Hes2 as <- _]. apply bind_ok in Hes2 as (e & He & [= <- _]).
    by apply check_claim_same in He. }
  destruct H12 as [-> ->].
  assert (Hsync : es_pre_states es1 = es_pre_states es ++ (if decide (is_Some (es_post_states es !! account_id pre)) then [] else [pre])
    /\ es_post_states es1 = es_post_states es).
  { unfold sync_pre_state in Hes1. destruct (es_post_states es !! account_id pre) as [known|] eqn:Hk.
    - rewrite decide_True by by eexists. rewrite app_nil_r.
      apply bind_ok in Hes1 as (_ & _ & Hes1). apply bind_ok in Hes1 as ([pos acc] & _ & Hes1).
      apply bind_ok in Hes1 as ([e b] & Hr & (_ & _ & [= <-])%bind_ok). by apply resolve_same in Hr as [-> ->].
    - rewrite decide_False by by intros []. by injection Hes1 as <-. }
  destruct Hsync as [-> ->]. split; [done|]. intros id. rewrite lookup_insert_is_Some.
  destruct (decide (account_id pre = id)) as [->|]; naive_solver.
Qed.

Lemma sync_prefix identities p caller seeds pres posts es es' :
  validate_and_sync_states identities p caller seeds pres posts es = Ok es' ->
  es_pre_states es `prefix_of` es_pre_states es'.
Proof.
  unfold validate_and_sync_states. revert es. induction (zip pres posts) as [|[pre post] l IH]; intros es Hs.
  - by injection Hs as <-.
  - cbn [fold_o] in Hs. apply bind_ok in Hs as (es1 & Hone & Hs). apply sync_one_accounts in Hone as [Hpre _].
    etrans; [|by apply IH]. rewrite Hpre. by apply prefix_app_r.
Qed.

Lemma sync_registers identities p caller seeds : forall pres posts es es',
  validate_and_sync_states identities p caller seeds pres posts es = Ok es' ->
  length pres = length posts -> NoDup (account_id <$> pres) ->
  (forall pre, pre ∈ pres -> es_post_states es !! account_id pre = None) ->
  es_pre_states es' = es_pre_states es ++ pres.
Proof.
  induction pres as [|pre pres IH]; intros [|post posts] es es' Hs Hlen Hnd Hnew; try done.
  - injection Hs as <-. by rewrite app_nil_r.
  - unfold validate_and_sync_states in Hs. cbn [zip zip_with fold_o] in Hs. apply bind_ok in Hs as (es1 & Hone & Hs).
    apply sync_one_accounts in Hone as [Hpre Hpost]. rewrite fmap_cons, NoDup_cons in Hnd. destruct Hnd as [Hout Hnd].
    rewrite (Hnew pre) in Hpre by by left. rewrite decide_False in Hpre by by intros [].
    rewrite (IH posts es1 es'); [by rewrite Hpre, <- app_assoc|exact Hs|by injection Hlen|done|].
    intros q Hq. destruct (es_post_states es1 !! account_id q) as [b|] eqn:Hb; [|done].
    destruct (proj1 (Hpost (account_id q))) as [Heq|[c Hc]]; [by exists b| |].
    + destruct Hout. rewrite <- Heq. by apply list_elem_of_fmap_2.
    + rewrite (Hnew q) in Hc by by right. done.
Qed.

Lemma outputs_loop_prefix identities : forall outputs counter calls es asm es' asm',
  outputs_loop identities counter calls outputs es asm = Ok (es', asm') -> es_pre_states es `prefix_of` es_pre_states es'.
Proof.
  induction outputs as [|o outputs IH]; intros counter calls es asm es' asm' Ho.
  - destruct calls as [|[call caller] calls]; cbn [outputs_loop] in Ho; apply bind_ok in Ho as (_ & _ & Ho); [|done].
    by injection Ho as <- _.
  - destruct calls as [|[call caller] calls]; cbn [outputs_loop] in Ho; apply bind_ok in Ho as (u & Hchk & Ho).
    { by apply assert_ok, bool_decide_eq_true_1 in Hchk. }
    apply bind_ok in Ho as (_ & _ & Ho). cbv zeta in Ho. apply bind_ok in Ho as (es1 & Hs & Ho).
    apply bind_ok in Ho as (c & _ & Ho). etrans; [by eapply sync_prefix|by eapply IH].
Qed.

(** The accounts of the circuit begin with those of the first program. *)
Lemma derive_first_accounts identities p o outputs es asm :
  Forall output_typed (o :: outputs) ->
  derive_from_outputs identities p (o :: outputs) = Ok (es, asm) -> pre_states o `prefix_of` es_pre_states es.
Proof.
  intros [Ht _]%Forall_cons Hd. unfold derive_from_outputs in Hd. apply bind_ok in Hd as (bw & _ & Hd).
  apply bind_ok in Hd as (tw & _ & Hd). apply bind_ok in Hd as (first & [= <-]%expect_ok & Hd).
  apply bind_ok in Hd as ([es1 asm1] & Hloop & Hd). apply bind_ok in Hd as (_ & _ & Hd).
  apply bind_ok in Hd as (_ & _ & [= <- _]).
  cbn [outputs_loop] in Hloop. apply bind_ok in Hloop as (_ & _ & Hloop). apply bind_ok in Hloop as ([] & Hcheck & Hloop).
  cbv zeta in Hloop. apply bind_ok in Hloop as (es2 & Hs & Hloop). apply bind_ok in Hloop as (c & _ & Hloop).
  apply outputs_loop_prefix in Hloop. etrans; [|exact Hloop].
  destruct (check_program_output_ok _ _ _ (proj1 Ht) Hcheck) as (_ & _ & _ & Hwb).
  rewrite (sync_registers _ _ _ _ _ _ _ _ Hs); [done|..].
  - apply (Forall2_length _ _ _ (wb_pairs _ _ _ Hwb)).
  - apply Hwb.
  - intros pre _. apply lookup_empty.
Qed.
End FirstOutput.

(** ** What is sent *)
Section Payments.
Context `{HmacSha512, K256, Sha256, ChaCha20, ZkVm, Serde ProgramOutput, CircuitProver, !ProverRuns, SchnorrSign, Borsh PrivacyMessage}.
Context {E : Type}.
Context (get_account : AccountId -> outcome E Account).
Context (get_proof : Commitment -> outcome E (option MembershipProof)).
Implicit Types k : UserKeyChain.

(** The keys and the identifier of the holder of a regular private account. *)
Definition addressee k (account : PrivacyPreservingAccount) : option (NullifierPublicKey * ViewingPublicKey * Identifier) :=
  match account with
  | PrivateForeign npk vpk i | PrivateShared _ npk vpk i => Some (npk, vpk, i)
  | PrivateOwned id =>
      f ← private_account k id;
      Some (nullifier_public_key (found_key_chain f), viewing_public_key (found_key_chain f), kind_identifier (found_kind f))
  | _ => None
  end.
(** Private accounts before a position: the number of its output. *)
Definition output_position (accounts : list PrivacyPreservingAccount) (i : nat) : nat :=
  length (List.filter acc_is_private (take i accounts)).
Definition ephemeral_secret (npk : NullifierPublicKey) (nonce : list byte) : list byte :=
  ephemeral_secret_key (EphemeralKeyHolder_new npk nonce).

Lemma prepare_private k account nonce state :
  prepare get_account get_proof k account nonce = Ok state ->
  acc_is_private account = match state with StPrivate _ => true | StPublic _ _ => false end.
Proof.
  destruct account; cbn [prepare acc_is_private]; intros Hp;
    first [apply bind_ok in Hp as (acc & _ & [= <-]); done
          |destruct (private_key_tree_acc_preparation _ _ _ _ _); [|done..]; by injection Hp as <-
          |destruct (foreign_acc_preparation _ _ _ _ _ _); [|done..]; by injection Hp as <-
          |destruct (private_shared_acc_preparation _ _ _ _ _ _ _ _ _); [|done..]; by injection Hp as <-].
Qed.

Lemma private_before_accounts k : forall accounts nonces states i,
  AccountManager_new get_account get_proof k accounts nonces = Ok states ->
  private_before states i = output_position accounts i.
Proof.
  induction accounts as [|a accounts IH]; intros nonces states i Hm; cbn [AccountManager_new] in Hm.
  { injection Hm as <-. unfold private_before, output_position. by rewrite !take_nil. }
  apply bind_ok in Hm as (s & Hs & (states' & Hstates & [= <-])%bind_ok). destruct i as [|i]; [done|].
  specialize (IH _ _ i Hstates). apply prepare_private in Hs.
  unfold private_before, output_position, private_account_keys in *. cbn [take List.filter omap list_omap].
  rewrite Hs. by destruct s; cbn [length]; rewrite IH.
Qed.

Lemma prepared_addressee k account nonce state npk vpk idf :
  prepare get_account get_proof k account nonce = Ok state -> addressee k account = Some (npk, vpk, idf) ->
  exists pre, state = StPrivate pre /\ pd_is_pda pre = false /\ pd_npk pre = npk /\ pd_vpk pre = vpk /\
    pd_identifier pre = idf /\ ephemeral npk vpk nonce = Ok (pd_ssk pre, pd_epk pre) /\
    (account = PrivateForeign npk vpk idf -> pd_nsk pre = None).
Proof.
  destruct account as [|id|npk0 vpk0 i0| | |nsk0 npk0 vpk0 i0|]; cbn [prepare addressee]; try done; intros Hp.
  - destruct (private_account k id) as [f|] eqn:Hf; [|done]. cbn [mbind option_bind]. intros [= <- <- <-].
    unfold private_key_tree_acc_preparation in Hp. rewrite Hf in Hp. cbn [ok_or mbind outcome_bind] in Hp.
    destruct (check_private_account_initialized _ _ _); [|done..]. cbn [mbind outcome_bind] in Hp.
    destruct (ephemeral _ _ _) as [[ssk epk]|[]|msg]; [|done]. injection Hp as <-. by eexists.
  - intros [= <- <- <-]. unfold foreign_acc_preparation in Hp.
    destruct (ephemeral _ _ _) as [[ssk epk]|[]|msg]; [|done]. injection Hp as <-. by eexists.
  - intros [= <- <- <-]. unfold private_shared_acc_preparation in Hp.
    assert (Hproof : exists proof, match check_private_account_initialized get_proof k (for_regular_private_account npk0 i0) with
      | Ok proof => Ok proof | Err _ => Ok None | Panic msg => Panic (E := ExecutionFailureKind E) msg end = Ok proof).
    { destruct (check_private_account_initialized _ _ _); [by eexists|by eexists|done]. }
    destruct Hproof as [proof Hproof]. rewrite Hproof in Hp. cbn [mbind outcome_bind] in Hp.
    destruct (ephemeral _ _ _) as [[ssk epk]|[]|msg]; [|done]. injection Hp as <-. by eexists.
Qed.

(** The step of the circuit for a regular private account. *)
Lemma regular_step seeds o index pos pre0 pre post o' index' :
  pd_is_pda pre0 = false -> output_one seeds o index pos (st_identity (StPrivate pre0)) pre post = Ok (o', index') ->
  exists id n, in_u 128 n /\ (pd_nsk pre0 = None -> id = for_regular_private_account (pd_npk pre0) (pd_identifier pre0)) /\
    exists ct, encrypt (E := Empty_set) (set_nonce n post) (Regular (pd_identifier pre0)) (pd_ssk pre0)
      (Commitment_new id (set_nonce n post)) index = Ok ct /\
    co_ciphertexts o' = co_ciphertexts o ++ [ct] /\
    co_new_commitments o' = co_new_commitments o ++ [Commitment_new id (set_nonce n post)].
Proof.
  intros Hpda Ho. cbn [st_identity] in Ho. rewrite Hpda in Ho. unfold output_one in Ho.
  destruct (pd_nsk pre0) as [nsk|], (pd_proof pre0) as [mp|]; inv_ok;
    (apply (emit_stepped (PrivateUnauthorized (pd_npk pre0) (pd_ssk pre0) 0)) in Ho; [|done];
     destruct Ho as [_ Ho]; eexists _, _; split; [|split; [|exact Ho]]; [apply private_nonce_in|by intros [=]]).
Qed.

Lemma set_nonce_wf n a : in_u 128 n -> Account_wf a -> Account_wf (set_nonce n a).
Proof. intros Hn (? & ? & ? & _). by split_and!. Qed.

(** The output at the position of a regular private account. *)
Lemma regular_output states i pre0 instr program output proof :
  execute_and_prove (am_pre_states states) instr (am_account_identities states) program = Ok (output, proof) ->
  states !! i = Some (StPrivate pre0) -> pd_is_pda pre0 = false ->
  exists id a ct, Account_wf a /\ (pd_nsk pre0 = None -> id = for_regular_private_account (pd_npk pre0) (pd_identifier pre0)) /\
    encrypt (E := Empty_set) a (Regular (pd_identifier pre0)) (pd_ssk pre0) (Commitment_new id a)
      (Z.of_nat (private_before states i)) = Ok ct /\
    co_ciphertexts output !! private_before states i = Some ct /\
    co_new_commitments output !! private_before states i = Some (Commitment_new id a).
Proof.
  intros Hprove Hi Hpda. destruct (proved_run _ _ _ _ _ _ Hprove) as (receipts & es & _ & (Ht & Hp & _) & (asm & Hd) & Hc).
  apply derive_from_outputs_ok in Hd as [[[_ _ _ _ _ Hwf] _ _ _ _ _] _]; [|done..].
  unfold compute_circuit_output in Hc. apply bind_ok in Hc as (u & Hlen & Hloop).
  apply assert_ok, bool_decide_eq_true_1 in Hlen.
  destruct (output_loop_at _ _ _ _ _ _ _ _ i (st_identity (StPrivate pre0)) Hloop Hlen) as
    (pre & post & o1 & o2 & ix & _ & Hpost & Hone & Hct1 & Hcm1 & [[ct' Hct] [cm' Hcm]]).
  { unfold am_account_identities. by rewrite list_lookup_fmap, Hi. }
  rewrite private_before_identities in *. cbn [co_ciphertexts co_new_commitments length Nat.add] in Hct1, Hcm1.
  apply regular_step in Hone as (id & n & Hn & Hid & ct & Henc & Hc2 & Hm2); [|done].
  exists id, (set_nonce n post), ct. split; [apply set_nonce_wf; [done|by eapply Hwf]|]. split; [exact Hid|].
  split; [by rewrite Z.add_0_l in Henc|]. rewrite Hct, Hcm, Hc2, Hm2, <- Hct1, <- !app_assoc.
  split; [by apply list_lookup_middle|]. apply list_lookup_middle. by rewrite Hcm1.
Qed.

(** What a wallet sends is what the holders can read: in a transaction it built,
    the output at the position of a regular private account is the account the
    circuit committed to, encrypted for the keys of its holder with the ephemeral
    secret of that account, and the shared secret handed back to the wallet for
    this position is the one it was encrypted with. *)
Lemma payments_are_sent k accounts instr program pre_check nonces tx secrets i account npk vpk idf :
  build_privacy_preserving_tx get_account get_proof k accounts instr program pre_check nonces = Ok (tx, secrets) ->
  accounts !! i = Some account -> addressee k account = Some (npk, vpk, idf) ->
  let j := output_position accounts i in
  exists id a s p, Account_wf a /\
    priv_new_commitments (priv_message tx) !! j = Some (Commitment_new id a) /\
    (forall keys, nullifier_public_key keys = npk -> viewing_public_key keys = vpk ->
       sent (priv_message tx) j keys (ephemeral_secret npk (nonces i)) (Regular idf) a) /\
    secrets !! j = Some s /\
    produce_one_sided_shared_secret_receiver vpk (ephemeral_secret npk (nonces i)) = Ok (s, p) /\
    (account = PrivateForeign npk vpk idf -> id = for_regular_private_account npk idf).
Proof.
  intros Hb Hi Haddr j. destruct (build_ok _ _ _ _ _ _ _ _ _ _ Hb) as (states & output & proof & Hm & Hprove & [-> Henc Hlen Hcm]).
  destruct (manager_lookup _ _ _ _ _ _ _ _ Hm Hi) as (state & Hst & Hprep).
  destruct (prepared_addressee _ _ _ _ _ _ _ Hprep Haddr) as (pre & -> & Hpda & Hnpk & Hvpk & Hidf & Heph & Hforeign).
  destruct (regular_output _ _ _ _ _ _ _ Hprove Hst Hpda) as (id & a & ct & Hwf & Hid & Hct & Hlct & Hlcm).
  rewrite (private_before_accounts _ _ _ _ _ Hm) in *. fold j in Hct, Hlct, Hlcm.
  assert (Hkeys : private_account_keys states !! j = Some (mk_PrivateAccountKeys npk (pd_ssk pre) vpk (pd_epk pre))).
  { unfold j. rewrite <- (private_before_accounts _ _ _ _ i Hm). unfold private_before, private_account_keys.
    rewrite <- Hnpk, <- Hvpk. by apply (omap_nth _ states i (StPrivate pre)). }
  assert (Hprod : produce_one_sided_shared_secret_receiver vpk (ephemeral_secret npk (nonces i)) = Ok (pd_ssk pre, pd_epk pre)).
  { apply bind_ok in Heph as (ssk & Hssk & (epk & Hepk & [= <- <-])%bind_ok).
    unfold calculate_shared_secret_sender in Hssk. unfold generate_ephemeral_public_key in Hepk.
    apply bind_ok in Hepk as (x & Hx & [= <-]). unfold produce_one_sided_shared_secret_receiver, ephemeral_secret.
    rewrite Hssk. cbn [mbind outcome_bind]. by rewrite Hx. }
  exists id, a, (pd_ssk pre), (pd_epk pre). split; [done|]. split; [by rewrite Hcm|]. split.
  - intros keys Hn Hv. exists (pd_ssk pre), (pd_epk pre), ct, (Commitment_new id a). rewrite Hn, Hv, Hcm, <- Hidf.
    split; [done|]. split; [done|]. split; [done|]. rewrite Henc, lookup_zip_with, Hlct. cbn [mbind option_bind].
    rewrite Hkeys. done.
  - rewrite list_lookup_fmap, Hkeys. split; [done|]. split; [done|]. intros Hacc. rewrite (Hid (Hforeign Hacc)). by subst.
Qed.

End Payments.

(** ** What arrives *)
Section Arrival.
Context `{HmacSha512, K256, !K256Laws, Sha256, ChaCha20, ZkVm, Serde ProgramOutput, CircuitProver, !ProverRuns,
  SchnorrSign, Borsh PrivacyMessage, ChainIndex.Itertools, !ChainIndex.ItertoolsLaws}.
Context {E : Type}.
Context (get_account : AccountId -> outcome E Account).
Context (get_proof : Commitment -> outcome E (option MembershipProof)).

Lemma payment_received k r accounts instr program pre_check nonces tx secrets i account idf c node :
  build_privacy_preserving_tx get_account get_proof k accounts instr program pre_check nonces = Ok (tx, secrets) ->
  accounts !! i = Some account ->
  addressee k account =
    Some (nullifier_public_key (priv_value node).1, viewing_public_key (priv_value node).1, idf) ->
  in_u 128 idf ->
  is_Some (secret_key_from_bytes (ephemeral_secret (nullifier_public_key (priv_value node).1) (nonces i))) ->
  keys_inv r -> tree_only r -> key_map (private_key_tree r) !! c = Some node ->
  is_Some (secret_key_from_bytes (generate_viewing_secret_key (secret_spending_key (priv_value node).1) (ChainIndex.index c))) ->
  (forall d n, key_map (private_key_tree r) !! d = Some n -> readable (priv_value n).1 (Some d) (priv_message tx)) ->
  clash_free r (kinds_in_use r (priv_message tx)) ->
  let id := for_regular_private_account (nullifier_public_key (priv_value node).1) idf in
  (forall d n j kind b d' n' j' kind' b',
     key_map (private_key_tree r) !! d = Some n -> decoded (priv_value n).1 (Some d) (priv_message tx) j kind b ->
     key_map (private_key_tree r) !! d' = Some n' -> decoded (priv_value n').1 (Some d') (priv_message tx) j' kind' b' ->
     for_private_account (nullifier_public_key (priv_value n).1) kind = id ->
     for_private_account (nullifier_public_key (priv_value n').1) kind' = id -> b = b') ->
  exists committed a r', priv_new_commitments (priv_message tx) !! output_position accounts i =
      Some (Commitment_new committed a) /\
    sync_private_accounts_with_tx r (PrivacyPreserving tx) = Ok r' /\
    get_account_private r' id = Some a /\ keys_inv r' /\
    ((exists vpk, account = PrivateForeign (nullifier_public_key (priv_value node).1) vpk idf) -> committed = id).
Proof.
  intros Hb Hi Haddr Hidf Hesk Hinv Htree Hc Hvsk Hread Hclash id Hagree.
  destruct (payments_are_sent get_account get_proof k _ _ _ _ _ _ _ _ _ _ _ _ Hb Hi Haddr)
    as (committed & a & s & p & Hwf & Hcm & Hsent & _ & _ & Hpaid).
  specialize (Hsent (priv_value node).1 eq_refl eq_refl).
  assert (Hkind : PrivateAccountKind_wf (Regular idf)) by (split; [exact Hidf|done]).
  destruct (sync_receives_ok r tx c node _ _ (Regular idf) a Hinv Htree Hread Hclash Hc Hvsk Hesk Hwf Hkind Hsent) as (r' & Hr' & Hget & Hinv').
  - intros d n j' kind' b Hd Hdec Hid. symmetry.
    apply (Hagree c node (output_position accounts i) (Regular idf) a d n j' kind' b Hc); [|exact Hd|exact Hdec|reflexivity|exact Hid].
    exact (sent_decoded r _ c node _ _ (Regular idf) a Hinv Hc Hvsk Hesk Hwf Hkind Hsent).
  - exists committed, a, r'. split_and!; [done..|]. intros [vpk Hacc]. apply Hpaid. rewrite Hacc in Haddr |- *.
    cbn [addressee] in Haddr. by injection Haddr as ->.
Qed.

(** From wallet to wallet: when a wallet builds a transaction that pays a regular
    account held under the keys of a node of a wallet [r], and [r] synchronises
    with it, synchronisation returns, [r] keeps its invariant and reports under the
    id of that account exactly the state that the transaction commits to.  The
    outputs for [r] are readable, no account ids collide, and no other output goes
    to the same account. *)
Lemma payment_arrives k r accounts instr program pre_check nonces tx secrets i account idf c node :
  build_privacy_preserving_tx get_account get_proof k accounts instr program pre_check nonces = Ok (tx, secrets) ->
  accounts !! i = Some account ->
  addressee k account =
    Some (nullifier_public_key (priv_value node).1, viewing_public_key (priv_value node).1, idf) ->
  in_u 128 idf ->
  is_Some (secret_key_from_bytes (ephemeral_secret (nullifier_public_key (priv_value node).1) (nonces i))) ->
  keys_inv r -> tree_only r -> key_map (private_key_tree r) !! c = Some node ->
  is_Some (secret_key_from_bytes (generate_viewing_secret_key (secret_spending_key (priv_value node).1) (ChainIndex.index c))) ->
  (forall d n, key_map (private_key_tree r) !! d = Some n -> readable (priv_value n).1 (Some d) (priv_message tx)) ->
  clash_free r (kinds_in_use r (priv_message tx)) ->
  let id := for_regular_private_account (nullifier_public_key (priv_value node).1) idf in
  (forall d n j kind b d' n' j' kind' b',
     key_map (private_key_tree r) !! d = Some n -> decoded (priv_value n).1 (Some d) (priv_message tx) j kind b ->
     key_map (private_key_tree r) !! d' = Some n' -> decoded (priv_value n').1 (Some d') (priv_message tx) j' kind' b' ->
     for_private_account (nullifier_public_key (priv_value n).1) kind = id ->
     for_private_account (nullifier_public_key (priv_value n').1) kind' = id -> b = b') ->
  exists committed a r', priv_new_commitments (priv_message tx) !! output_position accounts i =
      Some (Commitment_new committed a) /\
    sync_private_accounts_with_tx r (PrivacyPreserving tx) = Ok r' /\
    get_account_private r' id = Some a /\ keys_inv r'.
Proof.
  intros Hb Hi Haddr Hidf Hesk Hinv Htree Hc Hvsk Hread Hclash id Hagree.
  destruct (payment_received k r accounts instr program pre_check nonces tx secrets i account idf c node
    Hb Hi Haddr Hidf Hesk Hinv Htree Hc Hvsk Hread Hclash Hagree) as (committed & a & r' & Hcm & Hr' & Hget & Hinv' & _).
  by exists committed, a, r'.
Qed.
End Arrival.

(** ** What is refused *)
Section Refusals.
Context `{HmacSha512, K256, Sha256, ChaCha20, ZkVm, Serde ProgramOutput, CircuitProver, !ProverRuns, SchnorrSign, Borsh PrivacyMessage}.
Context {E : Type}.
Context (get_account : AccountId -> outcome E Account).
Context (get_proof : Commitment -> outcome E (option MembershipProof)).
Implicit Types k : UserKeyChain.

Lemma prove_loop_prefix deps : forall fuel counter queue receipts receipts',
  prove_loop fuel deps counter queue receipts = Some (Ok receipts') -> receipts `prefix_of` receipts'.
Proof.
  induction fuel as [|fuel IH]; intros counter queue receipts receipts' Hr; [done|]. cbn [prove_loop] in Hr.
  destruct queue as [|[[call program] caller] queue]; [by injection Hr as <-|]. case_decide; [done|].
  destruct (_ ≫= _) as [[o q]| |]; [|done..]. etrans; [|by eapply IH]. by apply prefix_app_r.
Qed.

(** The first output is that of the main program on the given accounts. *)
Lemma first_receipt program pres instr receipts :
  prove_loop PROVE_LOOP_FUEL (dependencies program) 0
    [(prover_initial_call program pres instr, main_program program, None)] [] = Some (Ok receipts) ->
  exists o rest, receipts.*2 = o :: rest /\
    vm_execute (elf (main_program program)) (program_id (main_program program)) None pres instr = inr o.
Proof.
  unfold PROVE_LOOP_FUEL. set (fuel := 10%nat). cbn [prove_loop]. rewrite decide_False by (unfold MAX_NUMBER_CHAINED_CALLS; lia).
  unfold execute_and_prove_program. cbn [prover_initial_call cc_pre_states cc_instruction_data].
  destruct (vm_execute _ _ _ _ _) as [e|o]; [done|]. cbn [mbind outcome_bind].
  destruct (push_calls _ _ _ _) as [q| |]; [|done..]. cbn [mbind outcome_bind].
  intros Hr%prove_loop_prefix. destruct Hr as [rest ->]. by exists o, rest.*2.
Qed.

Lemma proved_position states i state instr program output proof :
  (forall o, vm_execute (elf (main_program program)) (program_id (main_program program)) None (am_pre_states states) instr = inr o ->
     pre_states o = am_pre_states states) ->
  execute_and_prove (am_pre_states states) instr (am_account_identities states) program = Ok (output, proof) ->
  states !! i = Some state ->
  exists seeds o1 index pos post r, output_one seeds o1 index pos (st_identity state) (st_pre_state state) post = Ok r.
Proof.
  intros Hhonest Hprove Hi. destruct (proved_run _ _ _ _ _ _ Hprove) as (receipts & es & Hloop & (Ht & Hp & _) & (asm & Hd) & Hc).
  destruct (first_receipt _ _ _ _ Hloop) as (o & rest & Hrec & Hvm). cbn [program_outputs] in Ht. rewrite Hrec in *.
  apply derive_first_accounts in Hd as [more Hpres]; [|done]. rewrite (Hhonest o Hvm) in Hpres.
  unfold compute_circuit_output in Hc. apply bind_ok in Hc as (u & Hlen & Hrun).
  apply assert_ok, bool_decide_eq_true_1 in Hlen.
  destruct (output_loop_at _ _ _ _ _ _ _ _ i (st_identity state) Hrun Hlen) as
    (pre & post & o1 & o2 & ix & Hpre & _ & Hone & _).
  { unfold am_account_identities. by rewrite list_lookup_fmap, Hi. }
  rewrite Hpres in Hpre. unfold am_pre_states in Hpre. rewrite lookup_app_l in Hpre.
  - rewrite list_lookup_fmap, Hi in Hpre. injection Hpre as <-. by eexists _, _, _, _, _, _.
  - rewrite length_fmap. by eapply lookup_lt_Some.
Qed.

(** Requests that never succeed, for a program that reports the accounts it is
    given: a wallet authorizes its private PDA accounts, but the circuit creates a
    private PDA only from an unauthorized account, so the first use of a PDA of its
    own or of a group (one without a membership proof) never yields a transaction;
    nor does a PDA of the key tree addressed as [PrivateOwned], which is what
    [resolve_private_account] returns for it. *)
Lemma refused_requests k accounts instr program pre_check nonces i account r :
  (forall pres o, vm_execute (elf (main_program program)) (program_id (main_program program)) None pres instr = inr o ->
     pre_states o = pres) ->
  accounts !! i = Some account ->
  match account with
  | PrivatePdaOwned id | PrivatePdaShared id _ _ _ _ =>
      forall proof, check_private_account_initialized get_proof k id <> Ok (Some proof)
  | PrivateOwned id =>
      exists f p s idf, private_account k id = Some f /\ found_kind f = Pda p s idf /\
        for_regular_private_account (npk_from_nsk (nullifier_secret_key (private_key_holder (found_key_chain f)))) idf <> id
  | _ => False
  end ->
  build_privacy_preserving_tx get_account get_proof k accounts instr program pre_check nonces <> Ok r.
Proof.
  intros Hhonest Hi Hcase Hb. destruct r as [tx secrets].
  destruct (build_ok _ _ _ _ _ _ _ _ _ _ Hb) as (states & output & proof & Hm & Hprove & _).
  destruct (manager_lookup _ _ _ _ _ _ _ _ Hm Hi) as (state & Hst & Hprep).
  destruct (proved_position states i state instr program output proof (Hhonest _) Hprove Hst) as (seeds & o1 & ix & pos & post & res & Hone).
  destruct account as [|id| |id| | |id nsk npk vpk idf]; try done; cbn [prepare] in Hprep.
  - destruct Hcase as (f & p & s & idf & Hf & Hk & Hne). unfold private_key_tree_acc_preparation in Hprep. rewrite Hf in Hprep.
    cbn [ok_or mbind outcome_bind] in Hprep. destruct (check_private_account_initialized _ _ _) as [mp| |]; [|done..].
    cbn [mbind outcome_bind] in Hprep. destruct (ephemeral _ _ _) as [[ssk epk]|[]|msg]; [|done]. injection Hprep as <-.
    cbn [st_identity pd_is_pda pd_nsk pd_proof st_pre_state pd_pre_state] in Hone. rewrite Hk in Hone. cbn [kind_identifier pd_identifier] in Hone.
    destruct mp; unfold output_one in Hone; cbn [account_id] in Hone;
      (apply bind_ok in Hone as (u & Hid & _); by apply assert_ok, bool_decide_eq_true_1 in Hid).
  - unfold private_key_tree_acc_preparation in Hprep. destruct (private_account k id) as [f|]; [|done].
    cbn [ok_or mbind outcome_bind] in Hprep. destruct (check_private_account_initialized _ _ _) as [[mp|]| |]; [by destruct (Hcase mp)| |done..].
    cbn [mbind outcome_bind] in Hprep. destruct (ephemeral _ _ _) as [[ssk epk]|[]|msg]; [|done]. by injection Hprep as <-.
  - unfold private_shared_acc_preparation in Hprep.
    destruct (check_private_account_initialized _ _ _) as [[mp|]| |]; [by destruct (Hcase mp)| | |done];
      cbn [mbind outcome_bind] in Hprep; (destruct (ephemeral _ _ _) as [[ssk epk]|[]|msg]; [|done]; by injection Hprep as <-).
Qed.
End Refusals.
