(* ===== verification/WalletTxSamples.v ===== *)
(** A payment from one concrete wallet to another: Alice pays Bob from a public
    account, through a program that moves five units; and a request that is
    refused.  The witnesses of the theorems about wallet transactions. *)

From S2P Require Import Prelude Bytes Crypto Account Ids ProgramCore Borsh MerkleTree Host State Encryption CircuitIo Circuit Transactions Prover StateDiffs CircuitFacts Chain ChainIndex KeyDerivation GroupKeys KeyTree UserKeyChain WalletSync KeyTreeFacts KeyTreeTheorems KeySamples StorageFacts WalletFacts SyncFacts WalletTheorems WalletSamples WalletTx WalletTxTheorems.

Open Scope Z_scope.

(** ** A prover for the samples: it runs the circuit on the input, when the input fits
    its types, and adds an empty proof. *)
Module HonestProver.
#[global] Instance output_wf_decision o : Decision (Output_wf o).
Proof. unfold Output_wf, PostState_wf. apply _. Defined.
#[global] Instance claim_wf_dec p : Decision (claim_wf p).
Proof. unfold claim_wf. destruct (claim p) as [[]|]; apply _. Defined.
#[global] Instance output_typed_dec o : Decision (output_typed o).
Proof. unfold output_typed, call_wf. apply _. Defined.
#[global] Instance identity_wf_dec i : Decision (identity_wf i).
Proof. destruct i; apply _. Defined.
#[global] Instance input_wf_dec i : Decision (input_wf i).
Proof. unfold input_wf. apply _. Defined.

Section Prover.
Context `{Sha256, ChaCha20, Serde ProgramOutput}.
#[global] Instance honest_prover : CircuitProver := fun i _ =>
  if decide (input_wf i) then
    match privacy_circuit i with
    | Ok (o, _) => inr ([], o)
    | _ => inl "the circuit panics"
    end
  else inl "not an input of the circuit".
#[global] Instance honest_prover_runs : ProverRuns.
Proof.
  intros i asm bytes o Hp. unfold prove_with_opts, honest_prover in Hp.
  destruct (decide (input_wf i)) as [Hwf|]; [|discriminate Hp]. split; [exact Hwf|].
  destruct (privacy_circuit i) as [[o' asm']|e|msg]; [|discriminate Hp..]. injection Hp as _ <-. by exists asm'.
Qed.
End Prover.
End HonestProver.

Import KeySamples WalletSamples HonestProver.

Module WalletTxSamples.
(** ** The third-party code *)
#[global] Instance constant_output_serde : Serde ProgramOutput := {|
  serde_to_vec o := instruction_data o;
  serde_from_words _ := None;
|}.
#[global] Instance constant_signature : SchnorrSign := fun _ _ => Some (zeros 64).

(** A program that moves five units from its first account to its second one. *)
Definition credit_id : ProgramId := replicate 8 9.
Definition credit : Program := mk_Program credit_id [Byte.x09].
Definition moved (a b : Account) : list AccountPostState :=
  [PostState_new (mk_Account (program_owner a) (balance a - 5) (data a) (nonce a));
   new_claimed (mk_Account (program_owner b) (balance b + 5) (data b) (nonce b)) Authorized].
#[global] Instance credit_vm : ZkVm := fun _ self caller pre instr =>
  match pre with
  | [a; b] => inr (ProgramOutput_new self caller instr pre (moved (account a) (account b)))
  | _ => inl "two accounts"
  end.

(** ** The payment *)
Definition node : Type := string.
Definition bank_id : AccountId := public_account_id pub_root.
Definition bank_account (_ : AccountId) : outcome node Account := Ok (mk_Account credit_id 100 (mk_Data []) 3).
Definition no_proof (_ : Commitment) : outcome node (option MembershipProof) := Ok None.
Definition randomness (i : nat) : list byte := le_bytes 32 (Z.of_nat i + 1).
Definition to_bob : PrivacyPreservingAccount :=
  PrivateForeign (nullifier_public_key bob_keys) (viewing_public_key bob_keys) 5.
Definition request : list PrivacyPreservingAccount := [AccPublic bank_id; to_bob].
Definition no_check (_ : list Account) : outcome (ExecutionFailureKind node) () := Ok ().

Definition from {F A} (d : A) (m : outcome F A) : A := match m with Ok a => a | _ => d end.
Lemma from_ok {F A} (d : A) (m : outcome F A) : is_ok m = true -> m = Ok (from d m).
Proof. by destruct m. Qed.

Definition build k (accounts : list PrivacyPreservingAccount) :=
  build_privacy_preserving_tx bank_account no_proof k accounts [] (mk_WithDeps credit ∅) no_check randomness.
Definition sent_tx : PrivacyPreservingTransaction * list SharedSecretKey := from (payment, []) (build alice request).
Lemma request_built : build alice request = Ok sent_tx.
Proof. apply from_ok. vm_compute. reflexivity. Qed.

(** ** Bob's wallet *)
Definition bob_root : ChildKeysPrivate := from priv_root (ok_or (E := ()) (key_map (private_key_tree bob) !! []) ()).
Lemma bob_run : storage_trees bob_seed = Ok bob.
Proof. decide_run. Qed.
Lemma bob_wallet : wallet bob.
Proof. apply (wallet_new bob_seed bob), bob_run. Qed.
Lemma bob_inv : keys_inv bob.
Proof. apply wallet_keys_inv, bob_wallet. Qed.
Lemma bob_node c node : key_map (private_key_tree bob) !! c = Some node -> c = [] /\ node = bob_root.
Proof.
  assert (Hmap : key_map (private_key_tree bob) = {[ [] := bob_root ]}) by decide_run.
  rewrite Hmap. intros [Hc Hn]%lookup_singleton_Some. exact (conj (eq_sym Hc) (eq_sym Hn)).
Qed.
Definition to_bob_id : AccountId := for_private_account (nullifier_public_key bob_keys) paid_kind.
Definition received : Account :=
  match affected_accounts bob (priv_message sent_tx.1) with Ok [(_, _, a)] => a | _ => Account_default end.
Lemma received_five : balance received = 5 /\ program_owner received = credit_id.
Proof. split; vm_compute; reflexivity. Qed.
Lemma bob_affected : affected_accounts bob (priv_message sent_tx.1) = Ok [(to_bob_id, paid_kind, received)].
Proof. decide_run. Qed.
Lemma bob_decodes d n i kind b :
  key_map (private_key_tree bob) !! d = Some n ->
  decoded (priv_value n).1 (Some d) (priv_message sent_tx.1) i kind b -> kind = paid_kind /\ b = received.
Proof. apply (only_decoded bob sent_tx.1 to_bob_id); [apply bob_inv|apply bob_affected]. Qed.
Lemma bob_clash_free : clash_free bob (kinds_in_use bob (priv_message sent_tx.1)).
Proof.
  apply (root_clash_free bob bob_root sent_tx.1 paid_kind).
  - apply bob_node.
  - decide_run.
  - intros d n i kind b Hd Hdec. by apply (bob_decodes d n i kind b).
  - decide_run.
Qed.

(** ** Witnesses *)
Lemma payment_arrives_witness :
  exists committed a r',
    priv_new_commitments (priv_message sent_tx.1) !! 0%nat = Some (Commitment_new committed a) /\
    sync_private_accounts_with_tx bob (PrivacyPreserving sent_tx.1) = Ok r' /\
    get_account_private r' (for_regular_private_account (nullifier_public_key bob_keys) 5) = Some a /\ keys_inv r'.
Proof.
  apply (payment_arrives bank_account no_proof alice bob request [] (mk_WithDeps credit ∅) no_check randomness
    sent_tx.1 sent_tx.2 1 to_bob 5 [] bob_root).
  - rewrite <- surjective_pairing. exact request_built.
  - reflexivity.
  - decide_run.
  - decide_run.
  - decide_run.
  - apply bob_inv.
  - split; decide_run.
  - decide_run.
  - decide_run.
  - intros d n Hd. destruct (node_chain bob d n bob_inv Hd) as [id Hin].
    apply (affected_readable _ _ _ bob_affected _ Hin).
  - apply bob_clash_free.
  - intros d n j kind b d' n' j' kind' b' Hd Hb Hd' Hb' _ _.
    apply bob_decodes in Hb as [_ ->]; [|exact Hd]. by apply bob_decodes in Hb' as [_ ->].
Defined.

(** The first use of an account of a group. *)
Definition pda_request : list PrivacyPreservingAccount :=
  [AccPublic bank_id; PrivatePdaShared (AccountId_new (zeros 32)) (zeros 32) (nullifier_public_key bob_keys)
     (viewing_public_key bob_keys) 0].
Lemma refused_requests_witness : ~ exists r, build alice pda_request = Ok r.
Proof.
  intros [r Hr]. revert Hr.
  apply (refused_requests bank_account no_proof alice pda_request [] (mk_WithDeps credit ∅) no_check randomness 1
    (PrivatePdaShared (AccountId_new (zeros 32)) (zeros 32) (nullifier_public_key bob_keys) (viewing_public_key bob_keys) 0) r).
  - intros pres o. unfold vm_execute, credit_vm. destruct pres as [|a [|b [|]]]; [discriminate..| |discriminate].
    intros Ho. injection Ho as <-. reflexivity.
  - reflexivity.
  - intros proof. unfold check_private_account_initialized. destruct (get_private_account_commitment _ _); discriminate.
Defined.
End WalletTxSamples.
