(* ===== verification/WalletFacades.v ===== *)
(** The program facades of the wallet: [wallet/src/program_facades].

    A facade chooses the accounts of a call, in the order the program expects,
    fetches their nonces, signs, and sends one transaction.  [SequencerClient] is the
    RPC client; the key chain and the random bytes of the ephemeral keys are
    arguments. *)

From S2P Require Import Prelude Bytes Crypto Account Ids ProgramCore Borsh MerkleTree Host State Encryption CircuitIo Circuit Transactions Prover StateDiffs NativePrograms Approval Token Amm TokenClients Chain ChainIndex KeyDerivation GroupKeys KeyTree UserKeyChain WalletSync WalletTx.

(** ** The RPC client

    [rpc_get_transaction] also takes the number of the attempt, since its answer
    changes while a transaction is being included. *)
Class SequencerClient (E : Type) := {
  rpc_get_account : AccountId -> outcome E Account;
  rpc_get_account_balance : AccountId -> outcome E Z;
  rpc_get_accounts_nonces : list AccountId -> outcome E (list Nonce);
  rpc_get_proof_for_commitment : Commitment -> outcome E (option MembershipProof);
  rpc_send_transaction : NSSATransaction -> outcome E HashType;
  rpc_get_transaction : nat -> HashType -> outcome E (option NSSATransaction);
}.

Section Facades.
Context `{HmacSha512, K256, Sha256, ZkVm, Serde ProgramOutput, CircuitProver, SchnorrSign, Borsh PrivacyMessage,
  Borsh PublicMessage, BuiltinPrograms}.
Context {E : Type} `{!SequencerClient E}.
Abbreviation result A := (outcome (ExecutionFailureKind E) A).

(** The key chain of the wallet and the bytes that [OsRng] returns. *)
Variable k : UserKeyChain.
Variable random : nat -> list byte.

(** ** Steps shared by the facades *)
Definition get_accounts_nonces (ids : list AccountId) : result (list Nonce) :=
  map_err SequencerError (rpc_get_accounts_nonces ids).
Definition get_account_public (id : AccountId) : result Account := map_err SequencerError (rpc_get_account id).
Definition signing_key (id : AccountId) : result PrivateKey := ok_or (pub_account_signing_key k id) KeyNotFoundError.
(** [resolve_private_account(..).ok_or(KeyNotFoundError)?] *)
Definition resolve (id : AccountId) : result PrivacyPreservingAccount :=
  a ← lift_guest (resolve_private_account k id);
  ok_or a KeyNotFoundError.
(** The witness set for a message, and the sending. *)
Definition send_public (message : PublicMessage) (private_keys : list PrivateKey) : result HashType :=
  witness_set ← lift_guest (pub_for_message message private_keys);
  map_err SequencerClientError (rpc_send_transaction (Chain.Public (mk_PublicTx message witness_set))).
(** A second account signs when the wallet has its key. *)
Definition optional_signer (id : AccountId) (private_keys : list PrivateKey) (nonces : list Nonce) :
    result (list PrivateKey * list Nonce) :=
  match pub_account_signing_key k id with
  | Some sk =>
      more ← get_accounts_nonces [id];
      Ok (private_keys ++ [sk], nonces ++ more)
  | None => Ok (private_keys, nonces)
  end.

Abbreviation Sent := (HashType * list SharedSecretKey)%type.
Definition send_private (accounts : list PrivacyPreservingAccount) (instruction_data : InstructionData)
    (program : ProgramWithDependencies) : result Sent :=
  send_privacy_preserving_tx rpc_get_account rpc_get_proof_for_commitment rpc_send_transaction k accounts
    instruction_data program random.
Definition first_secret (msg : string) (r : Sent) : result (HashType * SharedSecretKey) :=
  first ← expect (head r.2) msg;
  Ok (r.1, first).
Definition two_secrets (msg1 msg2 : string) (r : Sent) : result (HashType * (SharedSecretKey * SharedSecretKey)) :=
  first ← expect (r.2 !! 0%nat) msg1;
  second ← expect (r.2 !! 1%nat) msg2;
  Ok (r.1, (first, second)).
Definition pop_secret (msg : string) (r : Sent) : result (HashType * SharedSecretKey) :=
  secret ← expect (last r.2) msg;
  Ok (r.1, secret).
Definition without_dependencies (p : Program) : ProgramWithDependencies := mk_WithDeps p ∅.
End Facades.

(** ** native_token_transfer *)
Module NativeFacade.
Section NativeFacade.
Context `{HmacSha512, K256, Sha256, ZkVm, Serde ProgramOutput, CircuitProver, SchnorrSign, Borsh PrivacyMessage,
  Borsh PublicMessage, BuiltinPrograms, Serde AuthTransfer.Instruction}.
Context {E : Type} `{!SequencerClient E}.
Abbreviation result A := (outcome (ExecutionFailureKind E) A).
Variable k : UserKeyChain.
Variable random : nat -> list byte.

(** [auth_transfer_preparation] *)
Definition auth_transfer_preparation (balance_to_move : Z) :
    InstructionData * Program * (list Account -> result ()) :=
  (serde_to_vec (AuthTransfer.Transfer balance_to_move), authenticated_transfer_program,
   fun accounts =>
     from ← expect (head accounts) "index out of bounds";
     ensure (bool_decide (balance from >= balance_to_move)) InsufficientFundsError).
Definition send_checked (accounts : list PrivacyPreservingAccount) (balance_to_move : Z) :
    result (HashType * list SharedSecretKey) :=
  let '(instruction_data, program, tx_pre_check) := auth_transfer_preparation balance_to_move in
  send_privacy_preserving_tx_with_pre_check rpc_get_account rpc_get_proof_for_commitment rpc_send_transaction k accounts
    instruction_data (without_dependencies program) tx_pre_check random.

Definition send_public_transfer (from to : AccountId) (balance_to_move : Z) : result HashType :=
  balance ← map_err SequencerError (rpc_get_account_balance from);
  if decide (balance >= balance_to_move) then
    nonces ← get_accounts_nonces [from];
    from_signing_key ← signing_key k from;
    '(private_keys, nonces) ← optional_signer k to [from_signing_key] nonces;
    message ← unwrap (pub_try_new (program_id authenticated_transfer_program) [from; to] nonces
                        (AuthTransfer.Transfer balance_to_move));
    send_public message private_keys
  else Err InsufficientFundsError.
Definition register_account (from : AccountId) : result HashType :=
  nonces ← get_accounts_nonces [from];
  message ← unwrap (pub_try_new (program_id authenticated_transfer_program) [from] nonces AuthTransfer.Initialize);
  key ← signing_key k from;
  send_public message [key].

Definition register_account_private (from : AccountId) : result (HashType * SharedSecretKey) :=
  account ← resolve k from;
  r ← send_private k random [account] (serde_to_vec AuthTransfer.Initialize)
        (without_dependencies authenticated_transfer_program);
  first_secret "expected sender's secret" r.
Definition send_private_transfer_to_outer_account (from : AccountId) (to_npk : NullifierPublicKey)
    (to_vpk : ViewingPublicKey) (to_identifier : Identifier) (balance_to_move : Z) :
    result (HashType * (SharedSecretKey * SharedSecretKey)) :=
  from ← resolve k from;
  r ← send_checked [from; PrivateForeign to_npk to_vpk to_identifier] balance_to_move;
  two_secrets "expected sender's secret" "expected receiver's secret" r.
Definition send_private_transfer_to_owned_account (from to : AccountId) (balance_to_move : Z) :
    result (HashType * (SharedSecretKey * SharedSecretKey)) :=
  from_account ← resolve k from;
  to_account ← resolve k to;
  r ← send_checked [from_account; to_account] balance_to_move;
  two_secrets "expected sender's secret" "expected receiver's secret" r.
Definition send_shielded_transfer (from to : AccountId) (balance_to_move : Z) : result (HashType * SharedSecretKey) :=
  to ← resolve k to;
  r ← send_checked [AccPublic from; to] balance_to_move;
  first_secret "expected sender's secret" r.
Definition send_shielded_transfer_to_outer_account (from : AccountId) (to_npk : NullifierPublicKey)
    (to_vpk : ViewingPublicKey) (to_identifier : Identifier) (balance_to_move : Z) :
    result (HashType * SharedSecretKey) :=
  r ← send_checked [AccPublic from; PrivateForeign to_npk to_vpk to_identifier] balance_to_move;
  first_secret "expected sender's secret" r.
Definition send_deshielded_transfer (from to : AccountId) (balance_to_move : Z) : result (HashType * SharedSecretKey) :=
  from ← resolve k from;
  r ← send_checked [from; AccPublic to] balance_to_move;
  first_secret "expected sender's secret" r.
End NativeFacade.
End NativeFacade.

(** ** pinata *)
Module PinataFacade.
Section PinataFacade.
Context `{HmacSha512, K256, Sha256, ZkVm, Serde ProgramOutput, CircuitProver, SchnorrSign, Borsh PrivacyMessage,
  Borsh PublicMessage, BuiltinPrograms, Serde Pinata.Instruction}.
Context {E : Type} `{!SequencerClient E}.
Abbreviation result A := (outcome (ExecutionFailureKind E) A).
Variable k : UserKeyChain.
Variable random : nat -> list byte.

Definition claim (pinata_account_id winner_account_id : AccountId) (solution : Pinata.Instruction) : result HashType :=
  message ← unwrap (pub_try_new (program_id pinata_program) [pinata_account_id; winner_account_id] [] solution);
  send_public message [].
Definition claim_private_owned_account (pinata_account_id winner_account_id : AccountId)
    (solution : Pinata.Instruction) : result (HashType * SharedSecretKey) :=
  winner ← resolve k winner_account_id;
  r ← send_private k random [AccPublic pinata_account_id; winner] (serde_to_vec solution)
        (without_dependencies pinata_program);
  first_secret "expected recipient's secret" r.
Definition claim_private_owned_account_already_initialized (pinata_account_id winner_account_id : AccountId)
    (solution : Pinata.Instruction) (_ : MembershipProof) : result (HashType * SharedSecretKey) :=
  claim_private_owned_account pinata_account_id winner_account_id solution.
End PinataFacade.
End PinataFacade.

(** ** token *)
Module TokenFacade.
Section TokenFacade.
Context `{HmacSha512, K256, Sha256, ZkVm, Serde ProgramOutput, CircuitProver, SchnorrSign, Borsh PrivacyMessage,
  Borsh PublicMessage, BuiltinPrograms, Serde Token.Instruction}.
Context {E : Type} `{!SequencerClient E}.
Abbreviation result A := (outcome (ExecutionFailureKind E) A).
Variable k : UserKeyChain.
Variable random : nat -> list byte.

Definition token_private (accounts : list PrivacyPreservingAccount) (instruction : Token.Instruction) :
    result (HashType * list SharedSecretKey) :=
  send_private k random accounts (serde_to_vec instruction) (without_dependencies token_program).
Definition token_message (account_ids : list AccountId) (nonces : list Nonce) (instruction : Token.Instruction) :
    result PublicMessage :=
  unwrap (pub_try_new (program_id token_program) account_ids nonces instruction).

(** *** New definitions *)
Definition send_new_definition (definition_account_id supply_account_id : AccountId) (name : string)
    (total_supply : Z) : result HashType :=
  let account_ids := [definition_account_id; supply_account_id] in
  nonces ← get_accounts_nonces account_ids;
  message ← token_message account_ids nonces (Token.NewFungibleDefinition name total_supply);
  def_private_key ← signing_key k definition_account_id;
  supply_private_key ← signing_key k supply_account_id;
  send_public message [def_private_key; supply_private_key].
Definition send_new_definition_private_owned_supply (definition_account_id supply_account_id : AccountId)
    (name : string) (total_supply : Z) : result (HashType * SharedSecretKey) :=
  supply ← resolve k supply_account_id;
  r ← token_private [AccPublic definition_account_id; supply] (Token.NewFungibleDefinition name total_supply);
  first_secret "expected supply's secret" r.
Definition send_new_definition_private_owned_definiton (definition_account_id supply_account_id : AccountId)
    (name : string) (total_supply : Z) : result (HashType * SharedSecretKey) :=
  definition ← resolve k definition_account_id;
  r ← token_private [definition; AccPublic supply_account_id] (Token.NewFungibleDefinition name total_supply);
  first_secret "expected definition's secret" r.
Definition send_new_definition_private_owned_definiton_and_supply
    (definition_account_id supply_account_id : AccountId) (name : string) (total_supply : Z) :
    result (HashType * (SharedSecretKey * SharedSecretKey)) :=
  definition ← resolve k definition_account_id;
  supply ← resolve k supply_account_id;
  r ← token_private [definition; supply] (Token.NewFungibleDefinition name total_supply);
  two_secrets "expected definition's secret" "expected supply's secret" r.
Definition send_new_definition_with_authority (definition_account_id supply_account_id : AccountId) (name : string)
    (total_supply : Z) (mint_authority : option AccountId) : result HashType :=
  let account_ids := [definition_account_id; supply_account_id] in
  nonces ← get_accounts_nonces account_ids;
  message ← token_message account_ids nonces
              (Token.NewFungibleDefinitionWithAuthority name total_supply mint_authority);
  def_private_key ← signing_key k definition_account_id;
  supply_private_key ← signing_key k supply_account_id;
  send_public message [def_private_key; supply_private_key].

(** *** Transfers *)
Definition send_transfer_transaction (sender_account_id recipient_account_id : AccountId) (amount : Z) :
    result HashType :=
  nonces ← get_accounts_nonces [sender_account_id];
  sender_sk ← signing_key k sender_account_id;
  '(private_keys, nonces) ← optional_signer k recipient_account_id [sender_sk] nonces;
  message ← token_message [sender_account_id; recipient_account_id] nonces (Token.Transfer amount);
  send_public message private_keys.
Definition send_transfer_transaction_private_owned_account (sender_account_id recipient_account_id : AccountId)
    (amount : Z) : result (HashType * (SharedSecretKey * SharedSecretKey)) :=
  sender ← resolve k sender_account_id;
  recipient ← resolve k recipient_account_id;
  r ← token_private [sender; recipient] (Token.Transfer amount);
  two_secrets "expected sender's secret" "expected recipient's secret" r.
Definition send_transfer_transaction_private_foreign_account (sender_account_id : AccountId)
    (recipient_npk : NullifierPublicKey) (recipient_vpk : ViewingPublicKey) (recipient_identifier : Identifier)
    (amount : Z) : result (HashType * (SharedSecretKey * SharedSecretKey)) :=
  sender ← resolve k sender_account_id;
  r ← token_private [sender; PrivateForeign recipient_npk recipient_vpk recipient_identifier] (Token.Transfer amount);
  two_secrets "expected sender's secret" "expected recipient's secret" r.
Definition send_transfer_transaction_deshielded (sender_account_id recipient_account_id : AccountId) (amount : Z) :
    result (HashType * SharedSecretKey) :=
  sender ← resolve k sender_account_id;
  r ← token_private [sender; AccPublic recipient_account_id] (Token.Transfer amount);
  first_secret "expected sender's secret" r.
Definition send_transfer_transaction_shielded_owned_account (sender_account_id recipient_account_id : AccountId)
    (amount : Z) : result (HashType * SharedSecretKey) :=
  recipient ← resolve k recipient_account_id;
  r ← token_private [AccPublic sender_account_id; recipient] (Token.Transfer amount);
  first_secret "expected recipient's secret" r.
Definition send_transfer_transaction_shielded_foreign_account (sender_account_id : AccountId)
    (recipient_npk : NullifierPublicKey) (recipient_vpk : ViewingPublicKey) (recipient_identifier : Identifier)
    (amount : Z) : result (HashType * SharedSecretKey) :=
  r ← token_private [AccPublic sender_account_id; PrivateForeign recipient_npk recipient_vpk recipient_identifier]
        (Token.Transfer amount);
  first_secret "expected recipient's secret" r.

(** *** Burning *)
Definition send_burn_transaction (definition_account_id holder_account_id : AccountId) (amount : Z) :
    result HashType :=
  nonces ← get_accounts_nonces [holder_account_id];
  message ← token_message [definition_account_id; holder_account_id] nonces (Token.Burn amount);
  key ← signing_key k holder_account_id;
  send_public message [key].
Definition send_burn_transaction_private_owned_account (definition_account_id holder_account_id : AccountId)
    (amount : Z) : result (HashType * (SharedSecretKey * SharedSecretKey)) :=
  definition ← resolve k definition_account_id;
  holder ← resolve k holder_account_id;
  r ← token_private [definition; holder] (Token.Burn amount);
  two_secrets "expected definition's secret" "expected holder's secret" r.
Definition send_burn_transaction_deshielded_owned_account (definition_account_id holder_account_id : AccountId)
    (amount : Z) : result (HashType * SharedSecretKey) :=
  definition ← resolve k definition_account_id;
  r ← token_private [definition; AccPublic holder_account_id] (Token.Burn amount);
  first_secret "expected definition's secret" r.
Definition send_burn_transaction_shielded (definition_account_id holder_account_id : AccountId) (amount : Z) :
    result (HashType * SharedSecretKey) :=
  holder ← resolve k holder_account_id;
  r ← token_private [AccPublic definition_account_id; holder] (Token.Burn amount);
  first_secret "expected holder's secret" r.

(** *** Minting *)
Definition send_mint_transaction (definition_account_id holder_account_id : AccountId) (amount : Z) :
    result HashType :=
  nonces ← get_accounts_nonces [definition_account_id];
  definition_sk ← signing_key k definition_account_id;
  '(private_keys, nonces) ← optional_signer k holder_account_id [definition_sk] nonces;
  message ← token_message [definition_account_id; holder_account_id] nonces (Token.Mint amount);
  send_public message private_keys.
Definition send_mint_transaction_private_owned_account (definition_account_id holder_account_id : AccountId)
    (amount : Z) : result (HashType * (SharedSecretKey * SharedSecretKey)) :=
  definition ← resolve k definition_account_id;
  holder ← resolve k holder_account_id;
  r ← token_private [definition; holder] (Token.Mint amount);
  two_secrets "expected definition's secret" "expected holder's secret" r.
Definition send_mint_transaction_private_foreign_account (definition_account_id : AccountId)
    (holder_npk : NullifierPublicKey) (holder_vpk : ViewingPublicKey) (holder_identifier : Identifier) (amount : Z) :
    result (HashType * (SharedSecretKey * SharedSecretKey)) :=
  definition ← resolve k definition_account_id;
  r ← token_private [definition; PrivateForeign holder_npk holder_vpk holder_identifier] (Token.Mint amount);
  two_secrets "expected definition's secret" "expected holder's secret" r.
Definition send_mint_transaction_deshielded (definition_account_id holder_account_id : AccountId) (amount : Z) :
    result (HashType * SharedSecretKey) :=
  definition ← resolve k definition_account_id;
  r ← token_private [definition; AccPublic holder_account_id] (Token.Mint amount);
  first_secret "expected definition's secret" r.
Definition send_mint_transaction_shielded_owned_account (definition_account_id holder_account_id : AccountId)
    (amount : Z) : result (HashType * SharedSecretKey) :=
  holder ← resolve k holder_account_id;
  r ← token_private [AccPublic definition_account_id; holder] (Token.Mint amount);
  first_secret "expected holder's secret" r.
Definition send_mint_transaction_shielded_foreign_account (definition_account_id : AccountId)
    (holder_npk : NullifierPublicKey) (holder_vpk : ViewingPublicKey) (holder_identifier : Identifier) (amount : Z) :
    result (HashType * SharedSecretKey) :=
  r ← token_private [AccPublic definition_account_id; PrivateForeign holder_npk holder_vpk holder_identifier]
        (Token.Mint amount);
  first_secret "expected holder's secret" r.

(** *** The mint authority *)
Definition send_mint_with_authority (definition_account_id holder_account_id authority_account_id : AccountId)
    (amount : Z) : result HashType :=
  nonces ← get_accounts_nonces [authority_account_id];
  authority_sk ← signing_key k authority_account_id;
  '(private_keys, nonces) ← optional_signer k holder_account_id [authority_sk] nonces;
  message ← token_message [definition_account_id; holder_account_id; authority_account_id] nonces
              (Token.MintWithAuthority amount);
  send_public message private_keys.
Definition send_rotate_authority (definition_account_id authority_account_id new_admin : AccountId) :
    result HashType :=
  nonces ← get_accounts_nonces [authority_account_id];
  authority_sk ← signing_key k authority_account_id;
  message ← token_message [definition_account_id; authority_account_id] nonces (Token.RotateAuthority new_admin);
  send_public message [authority_sk].
Definition send_revoke_authority (definition_account_id authority_account_id : AccountId) : result HashType :=
  nonces ← get_accounts_nonces [authority_account_id];
  authority_sk ← signing_key k authority_account_id;
  message ← token_message [definition_account_id; authority_account_id] nonces Token.RevokeAuthority;
  send_public message [authority_sk].
End TokenFacade.
End TokenFacade.

(** ** ata *)
Module AtaFacade.
Section AtaFacade.
Context `{HmacSha512, K256, Sha256, ZkVm, Serde ProgramOutput, CircuitProver, SchnorrSign, Borsh PrivacyMessage,
  Borsh PublicMessage, BuiltinPrograms, Serde Ata.Instruction}.
Context {E : Type} `{!SequencerClient E}.
Abbreviation result A := (outcome (ExecutionFailureKind E) A).
Variable k : UserKeyChain.
Variable random : nat -> list byte.

Definition ata_id_of (owner_id definition_id : AccountId) : AccountId :=
  Ata.get_associated_token_account_id (program_id ata_program) (Ata.compute_ata_seed owner_id definition_id).
Definition ata_with_token_dependency : ProgramWithDependencies :=
  mk_WithDeps ata_program {[program_id token_program := token_program]}.

(** The three public calls, which the owner signs. *)
Definition send_ata (owner_id : AccountId) (account_ids : list AccountId) (instruction : Ata.Instruction) :
    result HashType :=
  nonces ← get_accounts_nonces [owner_id];
  key ← signing_key k owner_id;
  message ← map_err TransactionBuildError (pub_try_new (program_id ata_program) account_ids nonces instruction);
  send_public message [key].
Definition send_create (owner_id definition_id : AccountId) : result HashType :=
  let ata_id := ata_id_of owner_id definition_id in
  send_ata owner_id [owner_id; definition_id; ata_id] (Ata.Create (program_id ata_program)).
Definition send_transfer (owner_id definition_id recipient_id : AccountId) (amount : Z) : result HashType :=
  let sender_ata_id := ata_id_of owner_id definition_id in
  send_ata owner_id [owner_id; sender_ata_id; recipient_id] (Ata.Transfer (program_id ata_program) amount).
Definition send_burn (owner_id definition_id : AccountId) (amount : Z) : result HashType :=
  let holder_ata_id := ata_id_of owner_id definition_id in
  send_ata owner_id [owner_id; holder_ata_id; definition_id] (Ata.Burn (program_id ata_program) amount).

Definition send_create_private_owner (owner_id definition_id : AccountId) : result (HashType * SharedSecretKey) :=
  let ata_id := ata_id_of owner_id definition_id in
  owner ← resolve k owner_id;
  r ← send_private k random [owner; AccPublic definition_id; AccPublic ata_id]
        (serde_to_vec (Ata.Create (program_id ata_program))) ata_with_token_dependency;
  pop_secret "expected owner's secret" r.
Definition send_transfer_private_owner (owner_id definition_id recipient_id : AccountId) (amount : Z) :
    result (HashType * SharedSecretKey) :=
  let sender_ata_id := ata_id_of owner_id definition_id in
  owner ← resolve k owner_id;
  r ← send_private k random [owner; AccPublic sender_ata_id; AccPublic recipient_id]
        (serde_to_vec (Ata.Transfer (program_id ata_program) amount)) ata_with_token_dependency;
  pop_secret "expected owner's secret" r.
Definition send_burn_private_owner (owner_id definition_id : AccountId) (amount : Z) :
    result (HashType * SharedSecretKey) :=
  let holder_ata_id := ata_id_of owner_id definition_id in
  owner ← resolve k owner_id;
  r ← send_private k random [owner; AccPublic holder_ata_id; AccPublic definition_id]
        (serde_to_vec (Ata.Burn (program_id ata_program) amount)) ata_with_token_dependency;
  pop_secret "expected owner's secret" r.
End AtaFacade.
End AtaFacade.

(** ** amm *)
Module AmmFacade.
Section AmmFacade.
Context `{HmacSha512, K256, Sha256, ZkVm, Serde ProgramOutput, CircuitProver, SchnorrSign, Borsh PrivacyMessage,
  Borsh PublicMessage, BuiltinPrograms, Serde Amm.Instruction, Borsh TokenHolding}.
Context {E : Type} `{!SequencerClient E}.
Abbreviation result A := (outcome (ExecutionFailureKind E) A).
Variable k : UserKeyChain.

(** The token of a holding on chain. *)
Definition definition_of (a : Account) (holding : AccountId) : result AccountId :=
  h ← ok_or (borsh_try_from_slice (data_bytes (data a))) (AccountDataError holding);
  Ok (definition_id h).
Definition definitions_of (user_holding_a user_holding_b : AccountId) : result (AccountId * AccountId) :=
  user_a_acc ← get_account_public user_holding_a;
  user_b_acc ← get_account_public user_holding_b;
  definition_token_a_id ← definition_of user_a_acc user_holding_a;
  definition_token_b_id ← definition_of user_b_acc user_holding_b;
  Ok (definition_token_a_id, definition_token_b_id).
(** The pool and its vaults. *)
Definition pool_and_vaults (definition_token_a_id definition_token_b_id : AccountId) :
    result (AccountId * AccountId * AccountId) :=
  let amm_program_id := program_id amm_program in
  amm_pool ← lift_guest (compute_pool_pda amm_program_id definition_token_a_id definition_token_b_id);
  Ok (amm_pool, compute_vault_pda amm_program_id amm_pool definition_token_a_id,
      compute_vault_pda amm_program_id amm_pool definition_token_b_id).
Definition amm_message (account_ids : list AccountId) (nonces : list Nonce) (instruction : Amm.Instruction) :
    result PublicMessage :=
  unwrap (pub_try_new (program_id amm_program) account_ids nonces instruction).

Definition send_new_definition (user_holding_a user_holding_b user_holding_lp : AccountId) (balance_a balance_b : Z) :
    result HashType :=
  '(definition_token_a_id, definition_token_b_id) ← definitions_of user_holding_a user_holding_b;
  '(amm_pool, vault_holding_a, vault_holding_b) ← pool_and_vaults definition_token_a_id definition_token_b_id;
  let pool_lp := compute_liquidity_token_pda (program_id amm_program) amm_pool in
  let account_ids := [amm_pool; vault_holding_a; vault_holding_b; pool_lp; user_holding_a; user_holding_b;
                      user_holding_lp] in
  nonces ← get_accounts_nonces [user_holding_a; user_holding_b];
  signing_key_a ← signing_key k user_holding_a;
  signing_key_b ← signing_key k user_holding_b;
  '(private_keys, nonces) ← optional_signer k user_holding_lp [signing_key_a; signing_key_b] nonces;
  message ← amm_message account_ids nonces (Amm.NewDefinition balance_a balance_b (program_id amm_program));
  send_public message private_keys.

(** The two swaps differ in the instruction only. *)
Definition send_swap (user_holding_a user_holding_b : AccountId) (instruction : Amm.Instruction)
    (token_definition_id_in : AccountId) : result HashType :=
  '(definition_token_a_id, definition_token_b_id) ← definitions_of user_holding_a user_holding_b;
  '(amm_pool, vault_holding_a, vault_holding_b) ← pool_and_vaults definition_token_a_id definition_token_b_id;
  let account_ids := [amm_pool; vault_holding_a; vault_holding_b; user_holding_a; user_holding_b] in
  account_id_auth ← (if decide (definition_token_a_id = token_definition_id_in) then Ok user_holding_a
                     else if decide (definition_token_b_id = token_definition_id_in) then Ok user_holding_b
                     else Err (AccountDataError token_definition_id_in));
  nonces ← get_accounts_nonces [account_id_auth];
  key ← signing_key k account_id_auth;
  message ← amm_message account_ids nonces instruction;
  send_public message [key].
Definition send_swap_exact_input (user_holding_a user_holding_b : AccountId) (swap_amount_in min_amount_out : Z)
    (token_definition_id_in : AccountId) : result HashType :=
  send_swap user_holding_a user_holding_b
    (Amm.SwapExactInput swap_amount_in min_amount_out token_definition_id_in) token_definition_id_in.
Definition send_swap_exact_output (user_holding_a user_holding_b : AccountId) (exact_amount_out max_amount_in : Z)
    (token_definition_id_in : AccountId) : result HashType :=
  send_swap user_holding_a user_holding_b
    (Amm.SwapExactOutput exact_amount_out max_amount_in token_definition_id_in) token_definition_id_in.

(** The accounts of the calls that change the liquidity. *)
Definition liquidity_accounts (user_holding_a user_holding_b user_holding_lp : AccountId) : result (list AccountId) :=
  '(definition_token_a_id, definition_token_b_id) ← definitions_of user_holding_a user_holding_b;
  '(amm_pool, vault_holding_a, vault_holding_b) ← pool_and_vaults definition_token_a_id definition_token_b_id;
  let pool_lp := compute_liquidity_token_pda (program_id amm_program) amm_pool in
  Ok [amm_pool; vault_holding_a; vault_holding_b; pool_lp; user_holding_a; user_holding_b; user_holding_lp].
Definition send_add_liquidity (user_holding_a user_holding_b user_holding_lp : AccountId)
    (min_amount_liquidity max_amount_to_add_token_a max_amount_to_add_token_b : Z) : result HashType :=
  account_ids ← liquidity_accounts user_holding_a user_holding_b user_holding_lp;
  nonces ← get_accounts_nonces [user_holding_a; user_holding_b];
  signing_key_a ← signing_key k user_holding_a;
  signing_key_b ← signing_key k user_holding_b;
  message ← amm_message account_ids nonces
              (Amm.AddLiquidity min_amount_liquidity max_amount_to_add_token_a max_amount_to_add_token_b);
  send_public message [signing_key_a; signing_key_b].
Definition send_remove_liquidity (user_holding_a user_holding_b user_holding_lp : AccountId)
    (remove_liquidity_amount min_amount_to_remove_token_a min_amount_to_remove_token_b : Z) : result HashType :=
  account_ids ← liquidity_accounts user_holding_a user_holding_b user_holding_lp;
  nonces ← get_accounts_nonces [user_holding_lp];
  signing_key_lp ← signing_key k user_holding_lp;
  message ← amm_message account_ids nonces
              (Amm.RemoveLiquidity remove_liquidity_amount min_amount_to_remove_token_a min_amount_to_remove_token_b);
  send_public message [signing_key_lp].
End AmmFacade.
End AmmFacade.
