(* ===== verification/TransferTheorems.v ===== *)
(** A public transfer from the wallet to the state: what
    [NativeFacade.send_public_transfer] sends is accepted by the chain exactly when
    the recipient has an owner, or is fresh and its key is in the wallet, and then
    moves the amount.  First, the signing keys of wallets. *)

From S2P Require Import Prelude Bytes Crypto Account Ids ProgramCore Borsh MerkleTree Host State Encryption CircuitIo Circuit Transactions Prover StateDiffs NativePrograms Approval Token Amm TokenClients Chain ChainIndex KeyDerivation GroupKeys KeyTree UserKeyChain WalletSync KeyTreeFacts KeyTreeTheorems StorageFacts WalletFacts WalletTheorems WalletTx WalletFacades.

Open Scope Z_scope.

(** ** Signing keys of wallets: the key that a wallet finds for a public account is the
    key of that account, and what is signed with it verifies. *)
(** ** The keys of public accounts *)
Section Keys.
Context `{HmacSha512, K256, Sha256, ChainIndex.Itertools, !ChainIndex.ItertoolsLaws, OverflowChecks}.
Implicit Types k : UserKeyChain.

(** [key] is the private key behind the account [id]. *)
Definition controls (key : PrivateKey) (id : AccountId) : Prop := exists pk,
  new_from_private_key key = Ok pk /\ account_id_of_public_key (public_key_value pk) = id.

Definition public_keys_ok (t : KeyTree ChildKeysPublic) : Prop := forall c node, key_map t !! c = Some node ->
  new_from_private_key (csk node) = Ok (cpk node).
Definition signing_ok k : Prop :=
  public_keys_ok (public_key_tree k) /\ forall id key, imported_public_accounts k !! id = Some key -> controls key id.

Lemma public_keys_add t c (parent child : ChildKeysPublic) i :
  public_keys_ok t -> derive_child parent i = Ok child -> public_keys_ok (add_node c child t).
Proof.
  intros Hok Hd d node. cbn [add_node key_map]. destruct (decide (d = c)) as [->|Hne].
  - rewrite lookup_insert_eq. intros [= <-]. cbn [derive_child ChildKeysPublic_node] in Hd. unfold public_nth_child in Hd.
    repeat (apply bind_ok in Hd as (? & ? & Hd)). by injection Hd as <-.
  - rewrite lookup_insert_ne by done. apply Hok.
Qed.
Lemma public_keys_generate t t' p o : public_keys_ok t -> generate_new_node t p = Ok (t', o) -> public_keys_ok t'.
Proof.
  intros Hok [->|(i & parent & child & Hd & ->)]%generate_new_node_derived; [done|]. by eapply public_keys_add.
Qed.
Lemma public_keys_layered t t' o : public_keys_ok t -> generate_new_node_layered t = Ok (t', o) -> public_keys_ok t'.
Proof.
  intros Hok (c & _ & Hg)%bind_ok.
  apply fill_node_derived in Hg as [->|(p & i & parent & child & -> & Hd & ->)]; [done|]. by eapply public_keys_add.
Qed.
Lemma public_keys_root s t : KeyTree_new s = Ok t -> public_keys_ok t.
Proof.
  intros (sd & _ & (r & Hr & [= <-])%bind_ok)%bind_ok c node. cbn [new_from_root key_map].
  intros [_ <-]%lookup_singleton_Some. cbn [from_seed ChildKeysPublic_node] in Hr. unfold public_root in Hr.
  repeat (apply bind_ok in Hr as (? & ? & Hr)). by injection Hr as <-.
Qed.

Lemma signing_same k k' :
  public_key_tree k' = public_key_tree k -> imported_public_accounts k' = imported_public_accounts k ->
  signing_ok k -> signing_ok k'.
Proof. unfold signing_ok. by intros -> ->. Qed.

Lemma insert_private_public k id kind a k' :
  insert_private_account k id kind a = Ok k' ->
  public_key_tree k' = public_key_tree k /\ imported_public_accounts k' = imported_public_accounts k.
Proof.
  unfold insert_private_account. repeat case_match; intros Hi;
    repeat (apply bind_ok in Hi as (? & ? & Hi)); try discriminate Hi; by injection Hi as <-.
Qed.

Lemma cleanup_signing {E} k n (get_account : AccountId -> outcome E Account) :
  keys_inv k -> Z.of_nat n < 2 ^ 32 -> depth_at_most (public_key_tree k) (Z.of_nat n) ->
  signing_ok k -> signing_ok (cleanup_trees_remove_uninit_layered k (S n) get_account).1.
Proof.
  intros Hinv Hn Hd [Hkeys Himp].
  destruct (public_loop_spec get_account n _ Hn (inv_public_shape k Hinv) (inv_public_accounts k Hinv) Hd)
    as [[_ _ Hsub _] _].
  unfold cleanup_trees_remove_uninit_layered, public_cleanup_tree_remove_uninit_layered.
  destruct (public_cleanup_loop _ _ _) as [pub [[]|e|msg]]; cbn [fst] in *; (split; [|exact Himp]);
    intros c node Hc; by apply (Hkeys c), Hsub.
Qed.

Lemma wallet_signing_ok k : wallet k -> signing_ok k.
Proof.
  induction 1 as [s k Hr|k depth k' _ IH Hr _|k parent k' r _ IH Hr _|k parent k' c _ IH Hr _
    |E k n get Hk IH Hn Hd _|k key k' _ IH Hr|k key_chain index i a _ IH|k id kind a k' _ IH Hr _
    |k label seed program i k' info _ IH Hr|k label i k' info _ IH Hr|k id a _ IH|k label h _ IH|k label _ IH|k key _ IH].
  - apply bind_ok in Hr as (pub & Hpub & (priv & Hpriv & [= <-])%bind_ok).
    split; [by eapply public_keys_root|]. intros id key. cbn. by rewrite lookup_empty.
  - destruct IH as [Hkeys Himp]. apply bind_ok in Hr as (pub & Hpub & (priv & Hpriv & [= <-])%bind_ok).
    split; [|exact Himp]. eapply generate_tree_keeps; [exact public_keys_generate|exact Hkeys|exact Hpub].
  - destruct IH as [Hkeys Himp]. apply bind_ok in Hr as ([t o] & Hg & (r' & _ & [= <- _])%bind_ok).
    split; [|exact Himp]. destruct parent; apply with_id_run in Hg as (o' & Hg);
      [by eapply public_keys_generate|by eapply public_keys_layered].
  - apply bind_ok in Hr as ([t o] & _ & (r' & _ & [= <- _])%bind_ok). exact IH.
  - apply cleanup_signing; [by apply wallet_keys_inv|done..].
  - destruct IH as [Hkeys Himp]. apply bind_ok in Hr as (pk & Hpk & [= <-]). split; [exact Hkeys|].
    intros id key'. cbn [with_imported_public imported_public_accounts].
    destruct (decide (account_id_of_public_key (public_key_value pk) = id)) as [<-|Hne].
    + rewrite lookup_insert_eq. intros [= <-]. by exists pk.
    + rewrite lookup_insert_ne by done. apply Himp.
  - exact IH.
  - apply insert_private_public in Hr as [Ht Hi]. by apply (signing_same k).
  - apply bind_ok in Hr as (holder & _ & Hr). cbv zeta in Hr. case_match; [|done..]. by injection Hr as <- _.
  - apply bind_ok in Hr as (holder & _ & Hr). cbv zeta in Hr. case_match; [|done..]. by injection Hr as <- _.
  - exact IH.
  - exact IH.
  - exact IH.
  - exact IH.
Qed.

(** The key found for an account controls it. *)
Lemma signing_key_controls k id key :
  wallet k -> pub_account_signing_key k id = Some key -> controls key id.
Proof.
  intros Hw. destruct (wallet_signing_ok k Hw) as [Hkeys Himp]. unfold pub_account_signing_key.
  destruct (imported_public_accounts k !! id) as [key'|] eqn:Hi; [intros [= <-]; by apply Himp|].
  intros (node & Hn & ->)%fmap_Some. unfold get_node in Hn.
  apply bind_Some in Hn as (c & Hc & Hn). exists (cpk node). split; [by eapply Hkeys|].
  apply (inv_public_accounts k (wallet_keys_inv k Hw)) in Hc as (node' & Hn' & Hid). assert (node' = node) as -> by congruence.
  cbn [account_ids ChildKeysPublic_node] in Hid. by apply list_elem_of_singleton in Hid.
Qed.
End Keys.

(** ** Signatures

    A signature made with a key verifies under its public key ([k256::schnorr]). *)
Class SchnorrSignLaws `{K256, SchnorrSign, Schnorr} := sign_verifies (key : PrivateKey) pk (message : list byte) :
  new_from_private_key key = Ok pk -> exists s,
    schnorr_sign (private_key_value key) message = Some s /\ signature_is_valid_for (mk_Signature s) message pk = true.

Section Signing.
Context `{K256, Sha256, SchnorrSign, Schnorr, !SchnorrSignLaws}.

Lemma signatures_valid_app h a b : signatures_valid h (a ++ b) = signatures_valid h a && signatures_valid h b.
Proof. induction a as [|[s pk] a IH]; [done|]. cbn. by case_match. Qed.

Lemma sign_loop h keys ids : Forall2 controls keys ids -> forall sks,
  signatures_valid h sks = true -> exists more,
  fold_o (fun sks key =>
      s ← Signature_new key h;
      pk ← new_from_private_key key;
      Ok (sks ++ [(s, pk)])) sks keys = Ok (sks ++ more) /\
  signatures_valid h (sks ++ more) = true /\ signer_ids more = ids.
Proof.
  induction 1 as [|key id keys ids (pk & Hpk & <-) _ IH]; intros sks Hv.
  { exists []. by rewrite app_nil_r. }
  destruct (sign_verifies key pk h Hpk) as (s & Hs & Hok). assert (Hsig : Signature_new key h = Ok (mk_Signature s)).
  { unfold Signature_new. by rewrite Hs. }
  cbn [fold_o]. rewrite Hsig, Hpk. cbn [mbind outcome_bind].
  destruct (IH (sks ++ [(mk_Signature s, pk)])) as (more & -> & Hall & Hids).
  { rewrite signatures_valid_app, Hv. cbn. by rewrite Hok. }
  exists ((mk_Signature s, pk) :: more). rewrite <- app_assoc in *. split; [done|]. split; [done|].
  unfold signer_ids in *. cbn. by rewrite Hids.
Qed.

(** Signing with the keys of accounts gives signatures that verify, and the signers
    are these accounts. *)
Lemma sign_all_ok h keys ids : Forall2 controls keys ids -> exists sks,
  sign_all h keys = Ok sks /\ signatures_valid h sks = true /\ signer_ids sks = ids /\ length sks = length ids.
Proof.
  intros Hk. destruct (sign_loop h keys ids Hk []) as (sks & Hrun & Hv & Hids); [done|].
  exists sks. split; [exact Hrun|]. split; [exact Hv|]. split; [exact Hids|].
  rewrite <- Hids. unfold signer_ids. by rewrite length_fmap.
Qed.
End Signing.

(** ** The call of the transfer program *)
Section Call.
Context `{Sha256, ZkVm, Schnorr, Borsh PublicMessage, BuiltinPrograms, Serde AuthTransfer.Instruction}.
Context (st : V03State) (block_id : BlockId) (timestamp : Timestamp).

(** The machine runs the built-in program. *)
Definition vm_runs_transfer : Prop := forall self caller pre words o,
  AuthTransfer.main (mk_Env self caller pre words) = Ok (Some o) ->
  vm_execute (elf authenticated_transfer_program) self caller pre words = inr o.

(** A transfer that balances, nonces and owners allow. *)
Record transferable (from to : AccountId) (n : Z) : Prop := mk_transferable {
  tf_distinct : from <> to;
  tf_deployed : programs st !! program_id authenticated_transfer_program = Some authenticated_transfer_program;
  tf_program : program_id authenticated_transfer_program <> DEFAULT_PROGRAM_ID;
  tf_owner : program_owner (get_account_by_id st from) = program_id authenticated_transfer_program;
  tf_amount : 0 <= n <= balance (get_account_by_id st from);
  tf_sender : in_u 128 (balance (get_account_by_id st from));
  tf_recipient : 0 <= balance (get_account_by_id st to) /\ balance (get_account_by_id st to) + n < 2 ^ 128;
}.

(** The account receives the amount, and an owner if it has none. *)
Definition received (n : Z) (a : Account) : Account :=
  let a' := set_balance (balance a + n) a in
  if decide (program_owner a = DEFAULT_PROGRAM_ID) then set_program_owner (program_id authenticated_transfer_program) a' else a'.
Definition paid_by (n : Z) (a : Account) : Account := set_balance (balance a - n) a.
(** Who can receive: an account with an owner, or a fresh one that signs. *)
Definition can_receive (signers : list AccountId) (to : AccountId) : Prop :=
  program_owner (get_account_by_id st to) <> DEFAULT_PROGRAM_ID \/
  get_account_by_id st to = Account_default /\ to ∈ signers.

Context (from to : AccountId) (n : Z) (signers : list AccountId).
Context `{!SerdeLaws AuthTransfer.Instruction} (Hvm : vm_runs_transfer) (Htf : transferable from to n) (Hfrom : from ∈ signers).

Abbreviation auth_id := (program_id authenticated_transfer_program).
Definition transfer_pre : list AccountWithMetadata := input_pre_states st signers [from; to].
Definition transfer_call : ChainedCall := mk_ChainedCall auth_id transfer_pre (serde_to_vec (AuthTransfer.Transfer n)) [].
Definition recipient_post : AccountPostState :=
  let b := set_balance (balance (get_account_by_id st to) + n) (get_account_by_id st to) in
  if decide (program_owner b = DEFAULT_PROGRAM_ID) then new_claimed b Authorized else PostState_new b.
Definition transfer_output : ProgramOutput :=
  ProgramOutput_new auth_id None (serde_to_vec (AuthTransfer.Transfer n)) transfer_pre
    [PostState_new (paid_by n (get_account_by_id st from)); recipient_post].

Lemma transfer_pre_eq : transfer_pre =
  [AccountWithMetadata_new (get_account_by_id st from) true from;
   AccountWithMetadata_new (get_account_by_id st to) (bool_decide (to ∈ signers)) to].
Proof. unfold transfer_pre, input_pre_states. cbn [fmap list_fmap]. by rewrite bool_decide_true by done. Qed.

Lemma transfer_executes :
  Program_execute authenticated_transfer_program None transfer_pre (serde_to_vec (AuthTransfer.Transfer n)) = Ok transfer_output.
Proof.
  unfold Program_execute. rewrite (Hvm auth_id None transfer_pre (serde_to_vec (AuthTransfer.Transfer n)) transfer_output); [done|].
  unfold transfer_output. rewrite transfer_pre_eq. unfold AuthTransfer.main, read_inputs, read_nssa_inputs.
  cbn [env_self env_caller env_pre_states env_instruction]. rewrite serde_roundtrip.
  cbn [expect mbind outcome_bind in_instruction in_pre_states array2].
  unfold AuthTransfer.transfer. cbn [AccountWithMetadata_new is_authorized account assert_ mbind outcome_bind].
  destruct Htf as [_ _ _ _ Hn Hs Hr]. unfold in_u in Hs.
  rewrite (proj2 (checked_sub_Some _ _ (balance (get_account_by_id st from) - n))) by lia.
  cbn [expect mbind outcome_bind]. rewrite (proj2 (checked_add_Some _ _ _ (balance (get_account_by_id st to) + n))) by lia.
  reflexivity.
Qed.

Lemma recipient_post_account :
  post_account recipient_post = set_balance (balance (get_account_by_id st to) + n) (get_account_by_id st to).
Proof. unfold recipient_post. by case_decide. Qed.

Lemma transfer_pre_valid is_auth : (forall id, id ∈ signers -> is_auth id = true) ->
  iter_o (check_pre_state st ∅ is_auth) transfer_pre = Ok ().
Proof.
  intros Hauth. apply iter_o_ok. rewrite transfer_pre_eq.
  assert (Hone : forall id auth, (auth = true -> id ∈ signers) ->
    check_pre_state st ∅ is_auth (AccountWithMetadata_new (get_account_by_id st id) auth id) = Ok ()).
  { intros id auth Ha. assert (Hexp : expected_account st ∅ id = get_account_by_id st id) by done.
    unfold check_pre_state. cbn [AccountWithMetadata_new account_id account is_authorized].
    rewrite Hexp, (bool_decide_true (get_account_by_id st id = get_account_by_id st id)) by done. cbn [ensure mbind outcome_bind].
    destruct auth; [|done]. by rewrite (Hauth id (Ha eq_refl)). }
  constructor; [by apply Hone|]. constructor; [|constructor]. apply Hone. apply bool_decide_eq_true_1.
Qed.

(** The execution is valid exactly when the recipient has an owner or is fresh. *)
Lemma transfer_valid :
  validate_execution transfer_pre (post_states transfer_output) auth_id = Ok () <->
  (program_owner (get_account_by_id st to) = DEFAULT_PROGRAM_ID -> get_account_by_id st to = Account_default).
Proof.
  destruct Htf as [Hne _ Hid Howner Hn Hs Hr]. unfold in_u in Hs. rewrite transfer_pre_eq.
  unfold transfer_output, ProgramOutput_new. cbn [post_states].
  rewrite validate_execution_spec.
  - split.
    + intros [_ Hp _ _]. inversion_clear Hp as [|? ? ? ? _ Hq]. inversion_clear Hq as [|? ? ? ? Hpost _].
      rewrite recipient_post_account in Hpost. exact (pair_default _ _ _ Hpost).
    + intros Hd. constructor.
      * cbn. apply NoDup_cons. split; [by intros ?%list_elem_of_singleton|apply NoDup_singleton].
      * constructor; [|constructor; [|constructor]].
        -- constructor; cbn; [done|done|by intros []|done|intros Ho; destruct Hid; rewrite <- Howner; exact Ho].
        -- rewrite recipient_post_account. constructor; cbn; [done|done|lia|done|exact Hd].
      * cbn. rewrite recipient_post_account. unfold sum_Z. cbn. lia.
      * unfold sum_Z. cbn. lia.
  - repeat constructor; cbn; unfold in_u; lia.
  - constructor; [cbn; unfold in_u; lia|]. constructor; [|constructor]. rewrite recipient_post_account. cbn. unfold in_u. lia.
Qed.

Abbreviation caller := (mk_Caller None (list_to_set signers)).
Lemma transfer_checked r :
  validate_execution transfer_pre (post_states transfer_output) auth_id = Ok () ->
  claim_posts auth_id transfer_pre 0 (post_states transfer_output) = r ->
  check_output st block_id timestamp ∅ transfer_call caller transfer_output = r.
Proof.
  intros Hvalid <-. unfold check_output. cbn [cd_program_id cc_pda_seeds transfer_call authorized_accounts cc_program_id].
  change (pre_states transfer_output) with transfer_pre.
  rewrite transfer_pre_valid by (intros id Hid; apply orb_true_iff; right; by apply bool_decide_eq_true_2, elem_of_list_to_set).
  cbn [mbind outcome_bind]. change (self_program_id transfer_output) with auth_id. rewrite bool_decide_true by done.
  change (caller_program_id transfer_output) with (None (A := ProgramId)). rewrite bool_decide_true by done.
  cbn [ensure mbind outcome_bind]. rewrite Hvalid. reflexivity.
Qed.

Lemma transfer_claimed : can_receive signers to -> exists post,
  claim_posts auth_id transfer_pre 0 (post_states transfer_output) =
    Ok [PostState_new (paid_by n (get_account_by_id st from)); post] /\
  post_account post = received n (get_account_by_id st to).
Proof.
  intros Hto. unfold transfer_output, ProgramOutput_new. cbn [post_states claim_posts PostState_new claim mbind outcome_bind].
  rewrite transfer_pre_eq. unfold recipient_post, received. cbn [set_balance program_owner]. case_decide as Hd; [|by eexists].
  destruct Hto as [Ho|[_ Hin]]; [by destruct Ho|]. cbn [claim new_claimed lookup list_lookup expect mbind outcome_bind].
  unfold apply_claim. cbn [post_account new_claimed set_balance program_owner AccountWithMetadata_new is_authorized].
  rewrite !bool_decide_true by done. cbn. by eexists.
Qed.

Lemma transfer_runs : can_receive signers to ->
  run_call st block_id timestamp ∅ transfer_call caller =
    Ok (<[to := received n (get_account_by_id st to)]> {[from := paid_by n (get_account_by_id st from)]}, []).
Proof.
  intros Hto. destruct (transfer_claimed Hto) as (post & Hclaim & Hpost). unfold run_call.
  cbn [cc_program_id transfer_call cd_program_id cc_pre_states cc_instruction_data].
  rewrite (tf_deployed _ _ _ Htf). cbn [ok_or mbind outcome_bind]. rewrite transfer_executes. cbn [mbind outcome_bind].
  rewrite (transfer_checked _ (proj2 transfer_valid (fun Hd => match Hto with
    | or_introl Ho => False_ind _ (Ho Hd) | or_intror Hf => proj1 Hf end)) Hclaim).
  cbn [mbind outcome_bind]. change (pre_states transfer_output) with transfer_pre. rewrite transfer_pre_eq.
  unfold update_diff. cbn. by rewrite Hpost.
Qed.

Lemma transfer_refused r : ~ can_receive signers to -> run_call st block_id timestamp ∅ transfer_call caller <> Ok r.
Proof.
  intros Hno Hrun. unfold run_call in Hrun.
  cbn [cc_program_id transfer_call cd_program_id cc_pre_states cc_instruction_data] in Hrun.
  rewrite (tf_deployed _ _ _ Htf) in Hrun. cbn [ok_or mbind outcome_bind] in Hrun.
  rewrite transfer_executes in Hrun. cbn [mbind outcome_bind] in Hrun. apply bind_ok in Hrun as (posts & Hc & _). unfold check_output in Hc. inv_ok.
  change (validate_execution transfer_pre (post_states transfer_output) auth_id = Ok ()) in Hs2.
  pose proof (proj1 transfer_valid Hs2) as Hfresh.
  change (claim_posts auth_id transfer_pre 0 (post_states transfer_output) = Ok posts) in Hc.
  unfold transfer_output, ProgramOutput_new in Hc. cbn [post_states claim_posts PostState_new claim mbind outcome_bind] in Hc.
  rewrite transfer_pre_eq in Hc. unfold recipient_post in Hc. cbn [set_balance program_owner] in Hc.
  destruct (decide (program_owner (get_account_by_id st to) = DEFAULT_PROGRAM_ID)) as [Hd|Ho]; [|by destruct Hno; left].
  cbn [claim new_claimed lookup list_lookup expect mbind outcome_bind] in Hc. unfold apply_claim in Hc. inv_ok.
  destruct Hno. right. split; [by apply Hfresh|]. eapply bool_decide_eq_true_1. eassumption.
Qed.
End Call.

(** ** The transaction *)
Lemma nonce_bumped_eq j a a' : nonce_bumped j a a' -> a' = set_nonce (nonce a + Z.of_nat j) a.
Proof. destruct a, a'. intros [Ho Hb Hd Hn]. cbn in *. by subst. Qed.
Lemma occurrences_NoDup id ids : NoDup ids -> occurrences id ids = if decide (id ∈ ids) then 1%nat else 0%nat.
Proof.
  unfold occurrences. induction 1 as [|i ids Hi _ IH]; [by rewrite decide_False by apply not_elem_of_nil|].
  rewrite filter_cons. destruct (decide (i = id)) as [->|Hne].
  - rewrite (decide_True (P := id ∈ id :: ids)) by by left. cbn [length]. by rewrite IH, decide_False.
  - rewrite IH. apply decide_ext. rewrite elem_of_cons. naive_solver.
Qed.
Lemma increments_succeed ids : forall st, NoDup ids ->
  Forall (fun id => nonce (get_account_by_id st id) < u128_max) ids ->
  exists st', fold_o increment_signer_nonce st ids = Ok st'.
Proof.
  induction ids as [|id ids IH]; intros st Hnd Hn; [by eexists|].
  apply NoDup_cons in Hnd as [Hid Hnd]. apply Forall_cons in Hn as [Hn Hall]. cbn [fold_o].
  unfold increment_signer_nonce, public_account_nonce_increment. unfold u128_max in Hn.
  rewrite (proj2 (checked_add_Some _ _ _ (nonce (get_account_by_id st id) + 1))) by lia.
  cbn [expect mbind outcome_bind]. apply IH; [done|]. rewrite Forall_forall in Hall. apply Forall_forall.
  intros i Hi. rewrite get_insert. case_decide as Heq; [by subst|by apply Hall].
Qed.

Section Transaction.
Context `{Sha256, !DefaultsChain, ZkVm, Schnorr, Borsh PublicMessage, BuiltinPrograms, Serde AuthTransfer.Instruction,
  !SerdeLaws AuthTransfer.Instruction}.
Context (st : V03State) (vs : list Commitment) (block_id : BlockId) (timestamp : Timestamp).
Context (from to : AccountId) (n : Z) (signers : list AccountId).

(** Adding no commitment to a set that recognises its own digest changes nothing. *)
Lemma cs_extend_nothing cs cs' d :
  digest cs = Ok d -> d ∈ root_history cs -> cs_extend cs [] = Ok cs' -> cs' = cs.
Proof.
  intros Hd Hin. unfold cs_extend. cbn [fold_o mbind outcome_bind]. rewrite Hd. cbn [mbind outcome_bind].
  intros [= <-]. destruct cs as [t m h]. cbn in *. f_equal. set_solver.
Qed.

(** The state after a transfer that [signers] signed: every account, the programs,
    and the commitments with their tree and history of roots and the nullifiers. *)
Record transferred (st' : V03State) : Prop := {
  tr_accounts id : get_account_by_id st' id =
    let a := get_account_by_id st id in
    let a' := if decide (id = from) then paid_by n a else if decide (id = to) then received n a else a in
    if decide (id ∈ signers) then set_nonce (nonce a + 1) a' else a';
  tr_programs : programs st' = programs st;
  tr_private : private_state st' = private_state st;
}.

Definition transfer_message : PublicMessage :=
  mk_PublicMessage (program_id authenticated_transfer_program) [from; to]
    ((fun id => nonce (get_account_by_id st id)) <$> signers) (serde_to_vec (AuthTransfer.Transfer n)).

Context (Hvm : vm_runs_transfer) (Htf : transferable st from to n) (Hfrom : from ∈ signers) (Hnd : NoDup signers).
Context (Hnonce : Forall (fun id => nonce (get_account_by_id st id) < u128_max) signers).
Context (Hinv : state_inv st vs) (Hroom : Z.of_nat (length vs) <= 2 ^ 31).
Context (w : PublicWitnessSet) (Hids : signer_ids (pub_signatures w) = signers)
  (Hvalid : pub_is_valid_for w transfer_message = true).
Let tx := mk_PublicTx transfer_message w.

Lemma transfer_message_checked : check_public_message st tx = Ok ().
Proof.
  unfold check_public_message. cbn [tx pub_message pub_witness_set transfer_message pub_account_ids pub_nonces].
  rewrite (bool_decide_true (n_distinct [from; to] = length [from; to])).
  2: { apply n_distinct_NoDup, NoDup_cons. split; [|apply NoDup_singleton].
       intros Heq%list_elem_of_singleton. by apply (tf_distinct _ _ _ _ Htf). }
  cbn [ensure mbind outcome_bind]. rewrite bool_decide_true.
  2: { rewrite length_fmap, <- Hids. unfold signer_ids. by rewrite length_fmap. }
  cbn [ensure mbind outcome_bind]. rewrite Hvalid. cbn [ensure mbind outcome_bind].
  unfold check_nonces. apply iter_o_ok. unfold pub_signer_account_ids. cbn [tx pub_witness_set]. rewrite Hids.
  clear. induction signers as [|id ids IH]; cbn; [constructor|]. constructor; [|exact IH]. cbn [fst snd].
  by rewrite bool_decide_true.
Qed.

Lemma transfer_queue : initial_queue st tx = [(transfer_call st from to n signers, mk_Caller None (list_to_set signers))].
Proof. unfold initial_queue, pub_signer_account_ids. cbn [tx pub_witness_set pub_message]. by rewrite Hids. Qed.

Lemma transfer_accepted : can_receive st signers to -> exists st',
  transition_from_public_transaction st tx block_id timestamp = Ok st' /\ transferred st'.
Proof.
  intros Hto. pose (d := <[to := received n (get_account_by_id st to)]>
    {[from := paid_by n (get_account_by_id st from)]} : Diff).
  assert (Hdiff : from_public_transaction st block_id timestamp tx = Ok (mk_Diff signers d [] [] None)).
  { unfold from_public_transaction. rewrite transfer_message_checked, transfer_queue. cbn [mbind outcome_bind].
    unfold MAX_LOOP_FUEL. cbn [call_loop]. rewrite decide_True by done.
    rewrite (transfer_runs st block_id timestamp from to n signers Hvm Htf Hfrom Hto). cbn [app]. fold d.
    cbn [mbind outcome_bind]. unfold pub_signer_account_ids. cbn [tx pub_witness_set]. rewrite Hids.
    enough (iter_o (check_claimed st) (map_to_list d) = Ok ()) as -> by done.
    apply iter_o_ok, Forall_forall. intros [id a] Ha%elem_of_map_to_list. unfold check_claimed. cbn [fst snd].
    case_decide as Ho; [done|]. case_decide; [done|]. unfold d in Ha.
    destruct (decide (id = to)) as [->|Hid].
    - rewrite lookup_insert_eq in Ha. injection Ha as <-. unfold received. rewrite (decide_True (P := program_owner (get_account_by_id st to) = DEFAULT_PROGRAM_ID)) by exact Ho.
      cbn [set_program_owner program_owner]. by rewrite bool_decide_true by apply (tf_program _ _ _ _ Htf).
    - rewrite lookup_insert_ne in Ha by done. apply lookup_singleton_Some in Ha as [<- _].
      destruct (tf_program _ _ _ _ Htf). by rewrite <- (tf_owner _ _ _ _ Htf). }
  destruct (inv_cs st vs Hinv) as (D & HD & Hcs).
  destruct (cs_extend_represents [] D _ vs HD Hcs) as (cs' & D' & _ & Hext & _); [cbn; lia|].
  assert (Hout : forall id, default (get_account_by_id st id) (d !! id) =
    if decide (id = from) then paid_by n (get_account_by_id st id)
    else if decide (id = to) then received n (get_account_by_id st id) else get_account_by_id st id).
  { intros id. unfold d. pose proof (tf_distinct _ _ _ _ Htf) as Hne. destruct (decide (id = to)) as [->|Ht].
    - rewrite lookup_insert_eq. cbn. by rewrite decide_False.
    - rewrite lookup_insert_ne by done. destruct (decide (id = from)) as [->|Hf].
      + by rewrite lookup_singleton_eq.
      + by rewrite lookup_singleton_ne. }
  assert (Hget : forall id, nonce (default (get_account_by_id st id) (d !! id)) = nonce (get_account_by_id st id)).
  { intros id. rewrite Hout. unfold received. by repeat case_decide. }
  assert (Happ : exists st', apply_state_diff st (mk_Diff signers d [] [] None) = Ok st').
  { unfold apply_state_diff. cbn [public_diff signer_account_ids new_commitments new_nullifiers diff_program].
    destruct (increments_succeed signers (with_public (fun m => map_fold (fun id a m => <[id := a]> m) m d) st)) as (st1 & Hst1).
    - done.
    - eapply Forall_impl; [exact Hnonce|]. cbn beta. intros id Hlt. rewrite <- Hget in Hlt.
      unfold get_account_by_id in *. cbn [with_public public_state]. rewrite map_fold_insert_union, lookup_union.
      by destruct (d !! id), (public_state st !! id).
    - pose proof (increment_nonces_spec signers _ _ Hst1) as (_ & _ & Hpriv & _). rewrite Hst1. cbn [mbind outcome_bind].
      rewrite Hpriv. cbn [with_public private_state]. rewrite Hext. by eexists. }
  destruct Happ as (st' & Happ). exists st'. unfold transition_from_public_transaction. rewrite Hdiff.
  split; [exact Happ|]. apply apply_state_diff_ok in Happ as (Hacc & _ & Hcs' & Hns & Hprog).
  cbn [signer_account_ids public_diff new_commitments new_nullifiers diff_program] in *. constructor; [|done|].
  2: { destruct (membership_proofs_verify st vs DUMMY_COMMITMENT Hinv) as (root & Hdig & Hin & _).
       apply (cs_extend_nothing _ _ root Hdig Hin) in Hcs'. destruct (private_state st'), (private_state st). cbn in *.
       by subst. }
  intros id. cbv zeta. specialize (Hacc id). apply nonce_bumped_eq in Hacc. rewrite occurrences_NoDup in Hacc by done.
  rewrite Hget, Hout in Hacc. rewrite Hacc. case_decide; [done|]. rewrite Z.add_0_r, <- Hget, Hout.
  by destruct (if decide (id = from) then _ else _).
Qed.

Lemma transfer_rejected st' : ~ can_receive st signers to ->
  transition_from_public_transaction st tx block_id timestamp <> Ok st'.
Proof.
  intros Hno Hrun. apply bind_ok in Hrun as (diff & Hdiff & _). unfold from_public_transaction in Hdiff.
  rewrite transfer_message_checked, transfer_queue in Hdiff. cbn [mbind outcome_bind] in Hdiff.
  unfold MAX_LOOP_FUEL in Hdiff. cbn [call_loop] in Hdiff. rewrite decide_True in Hdiff by done.
  pose proof (transfer_refused st block_id timestamp from to n signers Hvm Htf Hfrom) as Hr.
  destruct (run_call _ _ _ _ _ _) as [r|e|msg]; [by apply (Hr r Hno)|done..].
Qed.
End Transaction.

(** ** The wallet *)
Section Wallet.
Context `{HmacSha512, K256, Sha256, !DefaultsChain, ChainIndex.Itertools, !ChainIndex.ItertoolsLaws, OverflowChecks, ZkVm,
  Serde ProgramOutput, CircuitProver, SchnorrSign, Schnorr, !SchnorrSignLaws, Borsh PrivacyMessage, Borsh PublicMessage,
  BuiltinPrograms, Serde AuthTransfer.Instruction, !SerdeLaws AuthTransfer.Instruction}.
Context {E : Type} `{!SequencerClient E}.

(** The node answers from the state [st]. *)
Record node_at (st : V03State) : Prop := {
  na_balance id : rpc_get_account_balance id = Ok (balance (get_account_by_id st id));
  na_nonces ids : rpc_get_accounts_nonces ids = Ok ((fun id => nonce (get_account_by_id st id)) <$> ids);
}.
(** The wallet signs for the recipient when it has its key. *)
Definition transfer_signers (k : UserKeyChain) (from to : AccountId) : list AccountId :=
  from :: match pub_account_signing_key k to with Some _ => [to] | None => [] end.

Lemma send_transfer_signed k st from to n :
  wallet k -> node_at st -> n <= balance (get_account_by_id st from) -> is_Some (pub_account_signing_key k from) ->
  exists w, NativeFacade.send_public_transfer k from to n =
      map_err SequencerClientError
        (rpc_send_transaction (Chain.Public (mk_PublicTx (transfer_message st from to n (transfer_signers k from to)) w))) /\
    signer_ids (pub_signatures w) = transfer_signers k from to /\
    pub_is_valid_for w (transfer_message st from to n (transfer_signers k from to)) = true.
Proof.
  intros Hw [Hbal Hnonces] Hn [key Hkey].
  assert (Hkeys : exists keys, optional_signer k to [key] [nonce (get_account_by_id st from)] =
      Ok (keys, (fun id => nonce (get_account_by_id st id)) <$> transfer_signers k from to) /\
      Forall2 controls keys (transfer_signers k from to)).
  { pose proof (signing_key_controls k from key Hw Hkey) as Hc. unfold optional_signer, transfer_signers.
    destruct (pub_account_signing_key k to) as [key'|] eqn:Hto.
    - unfold get_accounts_nonces. rewrite Hnonces. exists [key; key']. split; [done|].
      constructor; [exact Hc|]. constructor; [by apply (signing_key_controls k)|constructor].
    - exists [key]. split; [done|]. by constructor. }
  destruct Hkeys as (keys & Hopt & Hctl).
  destruct (sign_all_ok (pub_hash (transfer_message st from to n (transfer_signers k from to))) keys _ Hctl)
    as (sks & Hsign & Hvalid & Hids & _).
  exists (mk_PublicWitnessSet sks). split; [|by split]. unfold NativeFacade.send_public_transfer.
  rewrite Hbal. cbn [map_err mbind outcome_bind]. rewrite decide_True by lia.
  unfold get_accounts_nonces, signing_key. rewrite Hnonces. cbn [map_err fmap list_fmap mbind outcome_bind].
  rewrite Hkey. cbn [ok_or mbind outcome_bind]. rewrite Hopt. cbn [mbind outcome_bind pub_try_new unwrap].
  unfold send_public, pub_for_message.
  change (mk_PublicMessage _ _ _ _) with (transfer_message st from to n (transfer_signers k from to)).
  by rewrite Hsign.
Qed.

Lemma transfer_signers_facts k st from to n :
  transferable st from to n ->
  nonce (get_account_by_id st from) < u128_max -> nonce (get_account_by_id st to) < u128_max ->
  from ∈ transfer_signers k from to /\ NoDup (transfer_signers k from to) /\
  Forall (fun id => nonce (get_account_by_id st id) < u128_max) (transfer_signers k from to).
Proof.
  intros Htf Hnf Hnt. pose proof (tf_distinct _ _ _ _ Htf). split; [by left|].
  unfold transfer_signers. destruct (pub_account_signing_key k to); split; try by repeat constructor.
  - apply NoDup_cons. split; [by intros ?%list_elem_of_singleton|apply NoDup_singleton].
  - apply NoDup_singleton.
Qed.

(** C29. From the wallet to the state: a public transfer of the wallet, to a node that
    answers from the current state, sends one transaction.  When the recipient has an
    owner, or is untouched and its key is in the same wallet, the state accepts the
    transaction: the amount moves, an unowned recipient becomes an account of the
    transfer program, the nonces of the signers advance, and every other account, the
    programs, the commitments with their tree and history of roots, and the nullifiers
    stay as they are.  Otherwise the wallet still sends the transaction and the state refuses it. *)
Theorem public_transfer_arrives k st vs from to n block_id timestamp :
  wallet k -> state_inv st vs -> Z.of_nat (length vs) <= 2 ^ 31 -> node_at st -> vm_runs_transfer ->
  transferable st from to n -> is_Some (pub_account_signing_key k from) ->
  nonce (get_account_by_id st from) < u128_max -> nonce (get_account_by_id st to) < u128_max ->
  exists tx,
    NativeFacade.send_public_transfer k from to n =
      map_err SequencerClientError (rpc_send_transaction (Chain.Public tx)) /\
    (can_receive st (transfer_signers k from to) to -> exists st',
       transition_from_public_transaction st tx block_id timestamp = Ok st' /\
       transferred st from to n (transfer_signers k from to) st') /\
    (~ can_receive st (transfer_signers k from to) to -> forall st',
       transition_from_public_transaction st tx block_id timestamp <> Ok st').
Proof.
  intros Hw Hinv Hroom Hnode Hvm Htf Hkey Hnf Hnt.
  destruct (send_transfer_signed k st from to n Hw Hnode (proj2 (tf_amount _ _ _ _ Htf)) Hkey) as (w & Hsend & Hids & Hvalid).
  exists (mk_PublicTx (transfer_message st from to n (transfer_signers k from to)) w). split; [exact Hsend|].
  destruct (transfer_signers_facts k st from to n Htf Hnf Hnt) as (Hfrom & Hnd & Hnonce).
  split.
  - intros Hto. by eapply transfer_accepted.
  - intros Hno st'. by eapply transfer_rejected.
Qed.
End Wallet.
