(* ===== verification/WalletLoops.v ===== *)
(** The two loops of the command line wallet: polling for a transaction
    ([poll_tx] of [wallet/src/poller.rs]) and the search for a solution of the
    pinata ([wallet/src/cli/programs/pinata.rs]). *)

From S2P Require Import Prelude Bytes Crypto Account Ids ProgramCore Borsh Host State Transactions NativePrograms Chain ChainIndex KeyDerivation GroupKeys KeyTree UserKeyChain WalletSync WalletTx WalletFacades.

Open Scope Z_scope.

(** ** Polling *)
(** The delay and the client are left out. *)
Record TxPoller := mk_TxPoller {
  polling_max_blocks_to_query : Z;
  polling_max_error_attempts : Z;
  block_poll_max_amount : Z;
}.
Inductive PollError := TransactionNotFound.

Section Poll.
Context {E : Type} `{!SequencerClient E}.
Variable p : TxPoller.

(** The inner [loop]: the answer to attempt number [attempt], then the counter.
    The result is the transaction, or the number of the next attempt.  [None]
    means that the fuel ran out. *)
Fixpoint try_loop (fuel : nat) (h : HashType) (try_error_counter : Z) (attempt : nat) :
    option (guest (NSSATransaction + nat)) :=
  match fuel with
  | O => None
  | S fuel =>
      match rpc_get_transaction attempt h with
      | Ok (Some tx) => Some (Ok (inl tx))
      | Panic msg => Some (Panic msg)
      | Ok None | Err _ =>
          match checked_add 64 try_error_counter 1 with
          | None => Some (Panic "We check error counter in this loop")
          | Some counter =>
              if decide (counter > polling_max_error_attempts p) then Some (Ok (inr (S attempt)))
              else try_loop fuel h counter (S attempt)
          end
      end
  end.
Definition TRY_FUEL : nat := S (Z.to_nat (polling_max_error_attempts p)).

(** [for poll_id in 1..max_blocks_to_query]: [polls] rounds. *)
Fixpoint poll_rounds (polls : nat) (h : HashType) (attempt : nat) : outcome PollError NSSATransaction :=
  match polls with
  | O => Err TransactionNotFound
  | S polls =>
      match try_loop TRY_FUEL h 0 attempt with
      | None => Panic "out of fuel"
      | Some (Panic msg) => Panic msg
      | Some (Err e) => match e with end
      | Some (Ok (inl tx)) => Ok tx
      | Some (Ok (inr attempt)) => poll_rounds polls h attempt
      end
  end.
Definition poll_tx (h : HashType) : outcome PollError NSSATransaction :=
  poll_rounds (Z.to_nat (polling_max_blocks_to_query p - 1)) h 0.

(** *** What the loop returns *)

(** The number of answers that are waited for. *)
Definition poll_budget : nat := Z.to_nat (polling_max_blocks_to_query p - 1) * TRY_FUEL.
Definition answered (h : HashType) (attempt : nat) (tx : NSSATransaction) : Prop :=
  rpc_get_transaction attempt h = Ok (Some tx).
Definition unanswered (h : HashType) (attempt : nat) : Prop :=
  match rpc_get_transaction attempt h with Ok None | Err _ => True | _ => False end.

Lemma try_loop_spec h : forall fuel counter attempt,
  0 <= counter -> polling_max_error_attempts p - counter < Z.of_nat fuel ->
  counter <= polling_max_error_attempts p < u64_max ->
  let n := Z.to_nat (polling_max_error_attempts p - counter + 1) in
  (forall i, (i < n)%nat -> unanswered h (attempt + i) \/ exists tx, answered h (attempt + i) tx) ->
  (exists i tx, (i < n)%nat /\ answered h (attempt + i) tx /\ (forall j, (j < i)%nat -> unanswered h (attempt + j)) /\
     try_loop fuel h counter attempt = Some (Ok (inl tx))) \/
  ((forall j, (j < n)%nat -> unanswered h (attempt + j)) /\
     try_loop fuel h counter attempt = Some (Ok (inr (attempt + n)%nat))).
Proof.
  induction fuel as [|fuel IH]; intros counter attempt Hpos Hfuel Hmax n Hans; [lia|].
  unfold u64_max in Hmax. cbn [try_loop]. destruct (Hans 0%nat) as [Hun|[tx Htx]]; [lia| |].
  - rewrite Nat.add_0_r in Hun. unfold unanswered in Hun.
    assert (Hnext : (match rpc_get_transaction attempt h with
      | Ok (Some tx) => Some (Ok (inl tx))
      | Panic msg => Some (Panic msg)
      | Ok None | Err _ => match checked_add 64 counter 1 with
        | None => Some (Panic "We check error counter in this loop")
        | Some counter => if decide (counter > polling_max_error_attempts p) then Some (Ok (inr (S attempt)))
            else try_loop fuel h counter (S attempt) end end : option (guest (NSSATransaction + nat))) =
      if decide (counter + 1 > polling_max_error_attempts p) then Some (Ok (inr (S attempt)))
      else try_loop fuel h (counter + 1) (S attempt)).
    { rewrite (proj2 (checked_add_Some 64 counter 1 (counter + 1))) by lia. by destruct (rpc_get_transaction attempt h) as [[]| |]. }
    rewrite Hnext. case_decide as Hend.
    + right. replace n with 1%nat by lia. split; [|by rewrite Nat.add_1_r].
      intros j Hj. replace j with 0%nat by lia. by rewrite Nat.add_0_r.
    + destruct (IH (counter + 1) (S attempt)) as [(i & tx & Hi & Htx & Hbefore & ->)|[Hall ->]]; [lia|lia|unfold u64_max; lia| | |].
      * intros i Hi. specialize (Hans (S i)). rewrite Nat.add_succ_r in Hans. apply Hans. lia.
      * left. exists (S i), tx. rewrite Nat.add_succ_r. split; [lia|]. split; [done|]. split; [|done].
        intros [|j] Hj; [by rewrite Nat.add_0_r|]. rewrite Nat.add_succ_r. apply Hbefore. lia.
      * right. split; [|do 3 f_equal; lia]. intros [|j] Hj; [by rewrite Nat.add_0_r|].
        rewrite Nat.add_succ_r. apply Hall. lia.
  - rewrite Nat.add_0_r in Htx. left. exists 0%nat, tx. rewrite Nat.add_0_r. split; [lia|]. split; [done|].
    split; [intros j Hj; lia|]. unfold answered in Htx. by rewrite Htx.
Qed.

(** Polling returns the first transaction that the node reports within its
    budget of attempts, and otherwise gives up after exactly that many. *)
Lemma poll_tx_ok h :
  0 <= polling_max_error_attempts p < u64_max ->
  (forall i, (i < poll_budget)%nat -> unanswered h i \/ exists tx, answered h i tx) ->
  (exists i tx, (i < poll_budget)%nat /\ answered h i tx /\ (forall j, (j < i)%nat -> unanswered h j) /\
     poll_tx h = Ok tx) \/
  ((forall j, (j < poll_budget)%nat -> unanswered h j) /\ poll_tx h = Err TransactionNotFound).
Proof.
  intros Hmax. unfold poll_budget, poll_tx. generalize (Z.to_nat (polling_max_blocks_to_query p - 1)). intros polls.
  change (forall i, (i < polls * TRY_FUEL)%nat -> unanswered h i \/ exists tx, answered h i tx)
    with (forall i, (i < polls * TRY_FUEL)%nat -> unanswered h (0 + i) \/ exists tx, answered h (0 + i) tx).
  intros Hans. enough (Hgen : forall attempt,
    (forall i, (i < polls * TRY_FUEL)%nat -> unanswered h (attempt + i) \/ exists tx, answered h (attempt + i) tx) ->
    (exists i tx, (i < polls * TRY_FUEL)%nat /\ answered h (attempt + i) tx /\
       (forall j, (j < i)%nat -> unanswered h (attempt + j)) /\ poll_rounds polls h attempt = Ok tx) \/
    ((forall j, (j < polls * TRY_FUEL)%nat -> unanswered h (attempt + j)) /\
       poll_rounds polls h attempt = Err TransactionNotFound)) by exact (Hgen 0%nat Hans).
  clear Hans. induction polls as [|polls IH]; intros attempt Hans.
  { right. split; [intros j Hj; lia|done]. }
  assert (Hn : Z.to_nat (polling_max_error_attempts p - 0 + 1) = TRY_FUEL) by (unfold TRY_FUEL; lia).
  destruct (try_loop_spec h TRY_FUEL 0 attempt) as [(i & tx & Hi & Htx & Hbefore & Hrun)|[Hall Hrun]];
    [lia|unfold TRY_FUEL; lia|lia| | |]; rewrite ?Hn in *; cbn [poll_rounds].
  - intros i Hi. apply Hans. lia.
  - left. exists i, tx. rewrite Hrun. split; [lia|done].
  - rewrite Hrun. destruct (IH (attempt + TRY_FUEL)%nat) as [(i & tx & Hi & Htx & Hbefore & ->)|[Hrest ->]].
    + intros i Hi. rewrite <- Nat.add_assoc. apply Hans. lia.
    + left. exists (TRY_FUEL + i)%nat, tx. rewrite Nat.add_assoc. split; [lia|]. split; [done|]. split; [|done].
      intros j Hj. destruct (decide (j < TRY_FUEL)%nat) as [|Hge]; [by apply Hall|].
      replace (attempt + j)%nat with (attempt + TRY_FUEL + (j - TRY_FUEL))%nat by lia. apply Hbefore. lia.
    + right. split; [|done]. intros j Hj. destruct (decide (j < TRY_FUEL)%nat) as [|Hge]; [by apply Hall|].
      replace (attempt + j)%nat with (attempt + TRY_FUEL + (j - TRY_FUEL))%nat by lia. apply Hrest. lia.
Qed.
End Poll.

(** ** The search for a solution *)

(** A bounded loop: [f] is tried on [n], [n + 1], ... for [count] values; the
    result is the first value accepted, or the value after the last one. *)
Fixpoint search (f : Z -> guest bool) (count : positive) (n : Z) : guest (Z + Z) :=
  let twice p n := r ← search f p n; match r with inl s => Ok (inl s) | inr n => search f p n end in
  match count with
  | xH => b ← f n; Ok (if b : bool then inl n else inr (n + 1))
  | xO p => twice p n
  | xI p => b ← f n; if b : bool then Ok (inl n) else twice p (n + 1)
  end.

Section Pinata.
Context `{Sha256}.

Definition validate_solution (difficulty : Z) (seed : list byte) (solution : Z) : guest bool :=
  let digest := hash_bytes (seed ++ le_bytes 16 solution) in
  prefix ← expect (if decide (difficulty <= Z.of_nat (length digest)) then Some (take (Z.to_nat difficulty) digest) else None)
             "range end index out of range";
  Ok (forallb (fun b => bool_decide (b = Byte.x00)) prefix).
(** The loop tries every [u128], since the counter panics after the last one. *)
Definition compute_solution (data : list byte) : guest Z :=
  let difficulty := byte_to_Z (hd Byte.x00 data) in
  let seed := tl data in
  r ← search (validate_solution difficulty seed) (2 ^ 128) 0;
  match r with
  | inl solution => Ok solution
  | inr _ => Panic "solution overflowed u128"
  end.
Definition find_solution {E} `{!SequencerClient E} (pinata_account_id : AccountId) : outcome (option E) Z :=
  account ← map_err Some (rpc_get_account pinata_account_id);
  data ← ok_or (if decide (length (data_bytes (data account)) = 33%nat) then Some (data_bytes (data account)) else None) None;
  match compute_solution data with
  | Ok s => Ok s
  | Err e => match e with end
  | Panic msg => Panic msg
  end.
End Pinata.

(** *** The search finds the least accepted value *)
Lemma search_spec (f : Z -> guest bool) (g : Z -> bool) : (forall n, f n = Ok (g n)) -> forall count n,
  (exists s, search f count n = Ok (inl s) /\ n <= s < n + Z.pos count /\ g s = true /\
     forall m, n <= m < s -> g m = false) \/
  (search f count n = Ok (inr (n + Z.pos count)) /\ forall m, n <= m < n + Z.pos count -> g m = false).
Proof.
  intros Hf. induction count as [p IH|p IH|]; intros n; cbn [search].
  - rewrite Hf. cbn [mbind outcome_bind]. destruct (g n) eqn:Hn.
    { left. exists n. split; [done|]. split; [lia|]. split; [done|]. intros m Hm. lia. }
    destruct (IH (n + 1)) as [(s & -> & Hs & Hgs & Hlt)|[-> Hall]]; cbn [mbind outcome_bind].
    { left. exists s. split; [done|]. split; [lia|]. split; [done|]. intros m Hm.
      destruct (decide (m = n)) as [->|]; [done|]. apply Hlt. lia. }
    destruct (IH (n + 1 + Z.pos p)) as [(s & -> & Hs & Hgs & Hlt)|[-> Hall2]].
    + left. exists s. split; [done|]. split; [lia|]. split; [done|]. intros m Hm.
      destruct (decide (m = n)) as [->|]; [done|].
      destruct (decide (m < n + 1 + Z.pos p)); [apply Hall|apply Hlt]; lia.
    + right. split; [do 2 f_equal; lia|]. intros m Hm. destruct (decide (m = n)) as [->|]; [done|].
      destruct (decide (m < n + 1 + Z.pos p)); [apply Hall|apply Hall2]; lia.
  - destruct (IH n) as [(s & -> & Hs & Hgs & Hlt)|[-> Hall]]; cbn [mbind outcome_bind].
    { left. exists s. split; [done|]. split; [lia|]. split; [done|]. exact Hlt. }
    destruct (IH (n + Z.pos p)) as [(s & -> & Hs & Hgs & Hlt)|[-> Hall2]].
    + left. exists s. split; [done|]. split; [lia|]. split; [done|]. intros m Hm.
      destruct (decide (m < n + Z.pos p)); [apply Hall|apply Hlt]; lia.
    + right. split; [do 2 f_equal; lia|]. intros m Hm.
      destruct (decide (m < n + Z.pos p)); [apply Hall|apply Hall2]; lia.
  - rewrite Hf. cbn [mbind outcome_bind]. destruct (g n) eqn:Hn; [left; exists n|right].
    + split; [done|]. split; [lia|]. split; [done|]. intros m Hm. lia.
    + split; [done|]. intros m Hm. by assert (m = n) as -> by lia.
Qed.

Section PinataFacts.
Context `{Sha256, !Sha256Laws}.

(** The wallet and the program agree on what a solution is. *)
Lemma validate_solution_ok data challenge n :
  Pinata.Challenge_new data = Ok challenge ->
  validate_solution (byte_to_Z (hd Byte.x00 data)) (tl data) n = Ok (Pinata.validate_solution challenge n).
Proof.
  unfold Pinata.Challenge_new. intros (u & _ & Hc)%bind_ok. apply bind_ok in Hc as (u' & Hd & [= <-]).
  apply assert_ok, bool_decide_eq_true_1 in Hd. unfold validate_solution. rewrite length_hash_bytes.
  rewrite decide_True by lia. done.
Qed.

(** What the wallet computes for the data of a pinata is the least solution that
    the program accepts, if there is any; a difficulty beyond the digest makes
    it panic. *)
Lemma compute_solution_ok data challenge :
  Pinata.Challenge_new data = Ok challenge ->
  (exists s, compute_solution data = Ok s /\ in_u 128 s /\ Pinata.validate_solution challenge s = true /\
     forall m, 0 <= m < s -> Pinata.validate_solution challenge m = false) \/
  (compute_solution data = Panic "solution overflowed u128" /\
     forall m, in_u 128 m -> Pinata.validate_solution challenge m = false).
Proof.
  intros Hc. unfold compute_solution. cbv zeta.
  destruct (search_spec (validate_solution (byte_to_Z (hd Byte.x00 data)) (tl data)) (Pinata.validate_solution challenge)
    (fun n => validate_solution_ok data challenge n Hc) (2 ^ 128)%positive 0) as [(s & Hrun & Hs & Hgs & Hlt)|[Hrun Hall]].
  - left. exists s. rewrite Hrun. unfold in_u. change (Z.pos (2 ^ 128)) with (2 ^ 128) in Hs. done.
  - right. rewrite Hrun. unfold in_u. change (Z.pos (2 ^ 128)) with (2 ^ 128) in Hall. done.
Qed.
End PinataFacts.
