(* ===== verification/WalletCommands.v ===== *)
(** The program commands of the wallet: [wallet/src/cli/programs] and their
    dispatch in [wallet/src/cli/mod.rs].

    A command resolves the accounts it mentions, picks the facade for their
    privacy, sends, polls for the transaction and stores the accounts it decodes
    from it.  The storage is the state; whether it can be written to its file is a
    parameter, and a command whose last step, the writing, fails ends in
    [StoreFailed] with the storage that is then in memory.  Printed text and the
    context of error messages are not modelled. *)

From S2P Require Import Prelude Bytes Crypto Account Ids ProgramCore Borsh MerkleTree Host State Encryption CircuitIo Circuit Transactions Prover StateDiffs NativePrograms Approval Token Amm TokenClients Chain ChainIndex KeyDerivation GroupKeys KeyTree UserKeyChain WalletSync TextForms WalletTx WalletFacades WalletLoops.

(** ** Data of [cli/mod.rs] *)
Inductive SubcommandReturnValue :=
  | PrivacyPreservingTransfer (tx_hash : HashType)
  | RegisterAccount (account_id : AccountId)
  | ReturnAccount (account : Account)
  | Empty
  | SyncedToBlock (block_id : BlockId).

(** The errors that end a command. *)
Inductive CliError (E : Type) :=
  | ExecutionError (e : ExecutionFailureKind E)
  | ClientError (e : E)
  | PollFailed (e : PollError)
  | NoAccountForLabel (label : Label)
  | FromHexError
  | AccountIdParseError
  | Bail (msg : string)
  | StoreFailed (in_memory : Storage).
Arguments ExecutionError {E} _.
Arguments ClientError {E} _.
Arguments PollFailed {E} _.
Arguments NoAccountForLabel {E} _.
Arguments FromHexError {E}.
Arguments AccountIdParseError {E}.
Arguments Bail {E} _.
Arguments StoreFailed {E} _.

(** [Storage::save_to_path]: the file system decides. *)
Class StorageFile := save_to_path : Storage -> bool.
(** [WalletCore::store_persistent_data]; what is in memory stays. *)
Definition store_persistent_data `{StorageFile} {E} (s : Storage) : outcome (CliError E) Storage :=
  if save_to_path s then Ok s else Err (StoreFailed s).
(** How a command ends whose last step writes the storage [s]. *)
Definition written `{StorageFile} {E A} (s : Storage) (v : A) : outcome (CliError E) A :=
  if save_to_path s then Ok v else Err (StoreFailed s).

(** [CliAccountMention::resolve] *)
Definition mention_resolve {E} (s : Storage) (m : CliAccountMention) : outcome (CliError E) AccountIdWithPrivacy :=
  match m with
  | MentionId id => Ok id
  | MentionLabel label => ok_or (resolve_label s label) (NoAccountForLabel label)
  end.
Definition mention_resolve_option {E} (s : Storage) (m : option CliAccountMention) :
    outcome (CliError E) (option AccountIdWithPrivacy) :=
  match m with
  | Some m => Some <$> mention_resolve s m
  | None => Ok None
  end.

(** ** Steps shared by the commands *)
Section Steps.
Context `{HmacSha512, K256, Sha256, ChaCha20, Hex, StorageFile}.
Context {E : Type} `{!SequencerClient E}.
Abbreviation cli A := (outcome (CliError E) A).
Variable poller : TxPoller.

Definition execution {A} (r : outcome (ExecutionFailureKind E) A) : cli A := map_err ExecutionError r.
Definition with_key_chain (k : UserKeyChain) (s : Storage) : Storage := mk_Storage k (labels s) (last_synced_block s).

(** [poll_native_token_transfer], [decode_insert_privacy_preserving_transaction_results]
    and [store_persistent_data]: the end of the private commands. *)
Definition poll_and_decode (s : Storage) (tx_hash : HashType) (acc_decode_data : list AccDecodeData) : cli Storage :=
  transfer_tx ← map_err PollFailed (poll_tx poller tx_hash);
  s ← match transfer_tx with
      | PrivacyPreserving tx =>
          k ← lift_guest (decode_insert_privacy_preserving_transaction_results (key_chain s) (priv_message tx)
                            acc_decode_data);
          Ok (with_key_chain k s)
      | _ => Ok s
      end;
  store_persistent_data s.
Definition store_one (s : Storage) (id : AccountId) (r : HashType * SharedSecretKey) :
    cli (Storage * SubcommandReturnValue) :=
  let '(tx_hash, secret) := r in
  s ← poll_and_decode s tx_hash [Decode secret id];
  Ok (s, PrivacyPreservingTransfer tx_hash).
Definition store_two (s : Storage) (id1 id2 : AccountId) (r : HashType * (SharedSecretKey * SharedSecretKey)) :
    cli (Storage * SubcommandReturnValue) :=
  let '(tx_hash, (secret1, secret2)) := r in
  s ← poll_and_decode s tx_hash [Decode secret1 id1; Decode secret2 id2];
  Ok (s, PrivacyPreservingTransfer tx_hash).
(** Only the first secret is used when the second account is foreign. *)
Definition store_first (s : Storage) (id : AccountId) (r : HashType * (SharedSecretKey * SharedSecretKey)) :
    cli (Storage * SubcommandReturnValue) :=
  store_one s id (r.1, r.2.1).
Definition sent_publicly (s : Storage) (r : outcome (ExecutionFailureKind E) HashType) :
    cli (Storage * SubcommandReturnValue) :=
  execution r ;; Ok (s, Empty).

(** The keys of a foreign account: [copy_from_slice] panics for other lengths. *)
Definition parse_npk (npk : string) : cli NullifierPublicKey :=
  bytes ← ok_or (hex_decode npk) FromHexError;
  npk ← expect (if decide (length bytes = 32%nat) then Some bytes else None)
          "copy_from_slice: source slice length does not match destination slice length";
  Ok (mk_Npk npk).
Definition parse_vpk (vpk : string) : cli ViewingPublicKey :=
  bytes ← ok_or (hex_decode vpk) FromHexError;
  vpk ← expect (if decide (length bytes = 33%nat) then Some bytes else None)
          "copy_from_slice: source slice length does not match destination slice length";
  Ok (mk_Vpk vpk).
End Steps.

(** ** token.rs *)
Module TokenCommand.
Inductive CreateNew :=
  | NewPublicDefPublicSupp (definition_account_id supply_account_id : AccountId) (name : string) (total_supply : Z)
  | NewPublicDefPrivateSupp (definition_account_id supply_account_id : AccountId) (name : string) (total_supply : Z)
  | NewPrivateDefPublicSupp (definition_account_id supply_account_id : AccountId) (name : string) (total_supply : Z)
  | NewPrivateDefPrivateSupp (definition_account_id supply_account_id : AccountId) (name : string) (total_supply : Z).
Inductive Public :=
  | TransferToken (sender_account_id recipient_account_id : AccountId) (balance_to_move : Z)
  | BurnToken (definition_account_id holder_account_id : AccountId) (amount : Z)
  | MintToken (definition_account_id holder_account_id : AccountId) (amount : Z).
Inductive Private :=
  | TransferTokenPrivateOwned (sender_account_id recipient_account_id : AccountId) (balance_to_move : Z)
  | TransferTokenPrivateForeign (sender_account_id : AccountId) (recipient_npk recipient_vpk : string)
      (recipient_identifier : option Identifier) (balance_to_move : Z)
  | BurnTokenPrivateOwned (definition_account_id holder_account_id : AccountId) (amount : Z)
  | MintTokenPrivateOwned (definition_account_id holder_account_id : AccountId) (amount : Z)
  | MintTokenPrivateForeign (definition_account_id : AccountId) (holder_npk holder_vpk : string)
      (holder_identifier : option Identifier) (amount : Z).
Inductive Deshielded :=
  | TransferTokenDeshielded (sender_account_id recipient_account_id : AccountId) (balance_to_move : Z)
  | BurnTokenDeshieldedOwned (definition_account_id holder_account_id : AccountId) (amount : Z)
  | MintTokenDeshielded (definition_account_id holder_account_id : AccountId) (amount : Z).
Inductive Shielded :=
  | TransferTokenShieldedOwned (sender_account_id recipient_account_id : AccountId) (balance_to_move : Z)
  | TransferTokenShieldedForeign (sender_account_id : AccountId) (recipient_npk recipient_vpk : string)
      (recipient_identifier : option Identifier) (balance_to_move : Z)
  | BurnTokenShielded (definition_account_id holder_account_id : AccountId) (amount : Z)
  | MintTokenShieldedOwned (definition_account_id holder_account_id : AccountId) (amount : Z)
  | MintTokenShieldedForeign (definition_account_id : AccountId) (holder_npk holder_vpk : string)
      (holder_identifier : option Identifier) (amount : Z).
(** [TokenProgramSubcommand] *)
Inductive Subcommand :=
  | Create (c : CreateNew)
  | SubPublic (c : Public)
  | SubPrivate (c : Private)
  | SubDeshielded (c : Deshielded)
  | SubShielded (c : Shielded).
(** [TokenProgramAgnosticSubcommand] *)
Inductive Agnostic :=
  | New (definition_account_id supply_account_id : CliAccountMention) (name : string) (total_supply : Z)
  | Send (from : CliAccountMention) (to : option CliAccountMention) (to_npk to_vpk : option string)
      (to_identifier : option Identifier) (amount : Z)
  | Burn (definition holder : CliAccountMention) (amount : Z)
  | Mint (definition : CliAccountMention) (holder : option CliAccountMention) (holder_npk holder_vpk : option string)
      (holder_identifier : option Identifier) (amount : Z)
  | NewFungibleWithAuthority (definition_account_id supply_account_id : AccountId) (name : string) (total_supply : Z)
      (mint_authority : option AccountId)
  | MintWithAuthority (definition_account_id holder_account_id authority_account_id : AccountId) (amount : Z)
  | RotateAuthority (definition_account_id authority_account_id new_admin : AccountId)
  | RevokeAuthority (definition_account_id authority_account_id : AccountId).

Section Handlers.
Context `{HmacSha512, K256, Sha256, ChaCha20, ZkVm, Serde ProgramOutput, CircuitProver, SchnorrSign, Borsh PrivacyMessage,
  Borsh PublicMessage, BuiltinPrograms, Serde Token.Instruction, Hex, StorageFile}.
Context {E : Type} `{!SequencerClient E}.
Abbreviation cli A := (outcome (CliError E) A).
Variable poller : TxPoller.
(** The random bytes of ephemeral keys, and [rand::random] for an identifier. *)
Variable random : nat -> list byte.
Variable random_identifier : Identifier.

Definition handle_public (s : Storage) (c : Public) : cli (Storage * SubcommandReturnValue) :=
  let k := key_chain s in
  match c with
  | TransferToken sender recipient balance_to_move =>
      sent_publicly s (TokenFacade.send_transfer_transaction k sender recipient balance_to_move)
  | BurnToken definition holder amount =>
      sent_publicly s (TokenFacade.send_burn_transaction k definition holder amount)
  | MintToken definition holder amount =>
      sent_publicly s (TokenFacade.send_mint_transaction k definition holder amount)
  end.
Definition handle_private (s : Storage) (c : Private) : cli (Storage * SubcommandReturnValue) :=
  let k := key_chain s in
  match c with
  | TransferTokenPrivateOwned sender recipient balance_to_move =>
      r ← execution (TokenFacade.send_transfer_transaction_private_owned_account k random sender recipient
                       balance_to_move);
      store_two poller s sender recipient r
  | TransferTokenPrivateForeign sender recipient_npk recipient_vpk recipient_identifier balance_to_move =>
      npk ← parse_npk recipient_npk;
      vpk ← parse_vpk recipient_vpk;
      r ← execution (TokenFacade.send_transfer_transaction_private_foreign_account k random sender npk vpk
                       (default random_identifier recipient_identifier) balance_to_move);
      store_first poller s sender r
  | BurnTokenPrivateOwned definition holder amount =>
      r ← execution (TokenFacade.send_burn_transaction_private_owned_account k random definition holder amount);
      store_two poller s definition holder r
  | MintTokenPrivateOwned definition holder amount =>
      r ← execution (TokenFacade.send_mint_transaction_private_owned_account k random definition holder amount);
      store_two poller s definition holder r
  | MintTokenPrivateForeign definition holder_npk holder_vpk holder_identifier amount =>
      npk ← parse_npk holder_npk;
      vpk ← parse_vpk holder_vpk;
      r ← execution (TokenFacade.send_mint_transaction_private_foreign_account k random definition npk vpk
                       (default random_identifier holder_identifier) amount);
      store_first poller s definition r
  end.
Definition handle_deshielded (s : Storage) (c : Deshielded) : cli (Storage * SubcommandReturnValue) :=
  let k := key_chain s in
  match c with
  | TransferTokenDeshielded sender recipient balance_to_move =>
      r ← execution (TokenFacade.send_transfer_transaction_deshielded k random sender recipient balance_to_move);
      store_one poller s sender r
  | BurnTokenDeshieldedOwned definition holder amount =>
      r ← execution (TokenFacade.send_burn_transaction_deshielded_owned_account k random definition holder amount);
      store_one poller s definition r
  | MintTokenDeshielded definition holder amount =>
      r ← execution (TokenFacade.send_mint_transaction_deshielded k random definition holder amount);
      store_one poller s definition r
  end.
Definition handle_shielded (s : Storage) (c : Shielded) : cli (Storage * SubcommandReturnValue) :=
  let k := key_chain s in
  match c with
  | TransferTokenShieldedForeign sender recipient_npk recipient_vpk recipient_identifier balance_to_move =>
      npk ← parse_npk recipient_npk;
      vpk ← parse_vpk recipient_vpk;
      '(tx_hash, _) ← execution (TokenFacade.send_transfer_transaction_shielded_foreign_account k random sender npk vpk
                                   (default random_identifier recipient_identifier) balance_to_move);
      s ← poll_and_decode poller s tx_hash [];
      Ok (s, PrivacyPreservingTransfer tx_hash)
  | TransferTokenShieldedOwned sender recipient balance_to_move =>
      r ← execution (TokenFacade.send_transfer_transaction_shielded_owned_account k random sender recipient
                       balance_to_move);
      store_one poller s recipient r
  | BurnTokenShielded definition holder amount =>
      r ← execution (TokenFacade.send_burn_transaction_shielded k random definition holder amount);
      store_one poller s holder r
  | MintTokenShieldedOwned definition holder amount =>
      r ← execution (TokenFacade.send_mint_transaction_shielded_owned_account k random definition holder amount);
      store_one poller s holder r
  | MintTokenShieldedForeign definition holder_npk holder_vpk holder_identifier amount =>
      npk ← parse_npk holder_npk;
      vpk ← parse_vpk holder_vpk;
      '(tx_hash, _) ← execution (TokenFacade.send_mint_transaction_shielded_foreign_account k random definition npk vpk
                                   (default random_identifier holder_identifier) amount);
      s ← poll_and_decode poller s tx_hash [];
      Ok (s, PrivacyPreservingTransfer tx_hash)
  end.
Definition handle_create (s : Storage) (c : CreateNew) : cli (Storage * SubcommandReturnValue) :=
  let k := key_chain s in
  match c with
  | NewPrivateDefPrivateSupp definition supply name total_supply =>
      r ← execution (TokenFacade.send_new_definition_private_owned_definiton_and_supply k random definition supply name
                       total_supply);
      store_two poller s definition supply r
  | NewPrivateDefPublicSupp definition supply name total_supply =>
      r ← execution (TokenFacade.send_new_definition_private_owned_definiton k random definition supply name
                       total_supply);
      store_one poller s definition r
  | NewPublicDefPrivateSupp definition supply name total_supply =>
      r ← execution (TokenFacade.send_new_definition_private_owned_supply k random definition supply name total_supply);
      store_one poller s supply r
  | NewPublicDefPublicSupp definition supply name total_supply =>
      sent_publicly s (TokenFacade.send_new_definition k definition supply name total_supply)
  end.
Definition handle_subcommand (s : Storage) (c : Subcommand) : cli (Storage * SubcommandReturnValue) :=
  match c with
  | Create c => handle_create s c
  | SubPrivate c => handle_private s c
  | SubPublic c => handle_public s c
  | SubDeshielded c => handle_deshielded s c
  | SubShielded c => handle_shielded s c
  end.

(** The choice of a subcommand by the privacy of the accounts. *)
Definition create_for (definition supply : AccountIdWithPrivacy) (name : string) (total_supply : Z) : Subcommand :=
  Create (match definition, supply with
          | PublicId d, PublicId s => NewPublicDefPublicSupp d s name total_supply
          | PublicId d, PrivateId s => NewPublicDefPrivateSupp d s name total_supply
          | PrivateId d, PrivateId s => NewPrivateDefPrivateSupp d s name total_supply
          | PrivateId d, PublicId s => NewPrivateDefPublicSupp d s name total_supply
          end).
Definition send_for (from : AccountIdWithPrivacy) (to : option AccountIdWithPrivacy) (to_npk to_vpk : option string)
    (to_identifier : option Identifier) (amount : Z) : cli Subcommand :=
  match to, to_npk, to_vpk with
  | None, None, None => Err (Bail "Provide either account account_id of receiver or their public keys")
  | Some _, Some _, Some _ =>
      Err (Bail "Provide only one variant: either account account_id of receiver or their public keys")
  | _, Some _, None | _, None, Some _ => Err (Bail "List of public keys is uncomplete")
  | Some to, None, None =>
      Ok (match from, to with
          | PublicId from, PublicId to => SubPublic (TransferToken from to amount)
          | PrivateId from, PrivateId to => SubPrivate (TransferTokenPrivateOwned from to amount)
          | PrivateId from, PublicId to => SubDeshielded (TransferTokenDeshielded from to amount)
          | PublicId from, PrivateId to => SubShielded (TransferTokenShieldedOwned from to amount)
          end)
  | None, Some to_npk, Some to_vpk =>
      Ok (match from with
          | PrivateId from => SubPrivate (TransferTokenPrivateForeign from to_npk to_vpk to_identifier amount)
          | PublicId from => SubShielded (TransferTokenShieldedForeign from to_npk to_vpk to_identifier amount)
          end)
  end.
Definition burn_for (definition holder : AccountIdWithPrivacy) (amount : Z) : Subcommand :=
  match definition, holder with
  | PublicId d, PublicId h => SubPublic (BurnToken d h amount)
  | PrivateId d, PrivateId h => SubPrivate (BurnTokenPrivateOwned d h amount)
  | PrivateId d, PublicId h => SubDeshielded (BurnTokenDeshieldedOwned d h amount)
  | PublicId d, PrivateId h => SubShielded (BurnTokenShielded d h amount)
  end.
Definition mint_for (definition : AccountIdWithPrivacy) (holder : option AccountIdWithPrivacy)
    (holder_npk holder_vpk : option string) (holder_identifier : option Identifier) (amount : Z) : cli Subcommand :=
  match holder, holder_npk, holder_vpk with
  | None, None, None => Err (Bail "Provide either account account_id of holder or their public keys")
  | Some _, Some _, Some _ =>
      Err (Bail "Provide only one variant: either account_id of holder or their public keys")
  | _, Some _, None | _, None, Some _ => Err (Bail "List of public keys is uncomplete")
  | Some holder, None, None =>
      Ok (match definition, holder with
          | PublicId d, PublicId h => SubPublic (MintToken d h amount)
          | PrivateId d, PrivateId h => SubPrivate (MintTokenPrivateOwned d h amount)
          | PrivateId d, PublicId h => SubDeshielded (MintTokenDeshielded d h amount)
          | PublicId d, PrivateId h => SubShielded (MintTokenShieldedOwned d h amount)
          end)
  | None, Some holder_npk, Some holder_vpk =>
      Ok (match definition with
          | PrivateId d => SubPrivate (MintTokenPrivateForeign d holder_npk holder_vpk holder_identifier amount)
          | PublicId d => SubShielded (MintTokenShieldedForeign d holder_npk holder_vpk holder_identifier amount)
          end)
  end.
Definition handle (s : Storage) (c : Agnostic) : cli (Storage * SubcommandReturnValue) :=
  let k := key_chain s in
  match c with
  | New definition supply name total_supply =>
      definition ← mention_resolve s definition;
      supply ← mention_resolve s supply;
      handle_subcommand s (create_for definition supply name total_supply)
  | Send from to to_npk to_vpk to_identifier amount =>
      from ← mention_resolve s from;
      to ← mention_resolve_option s to;
      sub ← send_for from to to_npk to_vpk to_identifier amount;
      handle_subcommand s sub
  | Burn definition holder amount =>
      definition ← mention_resolve s definition;
      holder ← mention_resolve s holder;
      handle_subcommand s (burn_for definition holder amount)
  | Mint definition holder holder_npk holder_vpk holder_identifier amount =>
      definition ← mention_resolve s definition;
      holder ← mention_resolve_option s holder;
      sub ← mint_for definition holder holder_npk holder_vpk holder_identifier amount;
      handle_subcommand s sub
  | NewFungibleWithAuthority definition supply name total_supply mint_authority =>
      sent_publicly s (TokenFacade.send_new_definition_with_authority k definition supply name total_supply
                         mint_authority)
  | MintWithAuthority definition holder authority amount =>
      sent_publicly s (TokenFacade.send_mint_with_authority k definition holder authority amount)
  | RotateAuthority definition authority new_admin =>
      sent_publicly s (TokenFacade.send_rotate_authority k definition authority new_admin)
  | RevokeAuthority definition authority =>
      sent_publicly s (TokenFacade.send_revoke_authority k definition authority)
  end.
End Handlers.
End TokenCommand.

(** ** native_token_transfer.rs *)
Module NativeCommand.
Inductive Private :=
  | PrivateOwned (from to : AccountId) (amount : Z)
  | PrivateForeign (from : AccountId) (to_npk to_vpk : string) (to_identifier : option Identifier) (amount : Z).
Inductive Shielded :=
  | ShieldedOwned (from to : AccountId) (amount : Z)
  | ShieldedForeign (from : AccountId) (to_npk to_vpk : string) (to_identifier : option Identifier) (amount : Z).
(** [NativeTokenTransferProgramSubcommand] *)
Inductive Subcommand :=
  | SubPublic (from to : AccountId) (amount : Z)
  | SubPrivate (c : Private)
  | SubDeshielded (from to : AccountId) (amount : Z)
  | SubShielded (c : Shielded).
(** [AuthTransferSubcommand] *)
Inductive Agnostic :=
  | Init (account_id : CliAccountMention)
  | Send (from : CliAccountMention) (to : option CliAccountMention) (to_npk to_vpk : option string)
      (to_identifier : option Identifier) (amount : Z).

Section Handlers.
Context `{HmacSha512, K256, Sha256, ChaCha20, ZkVm, Serde ProgramOutput, CircuitProver, SchnorrSign, Borsh PrivacyMessage,
  Borsh PublicMessage, BuiltinPrograms, Serde AuthTransfer.Instruction, Hex, StorageFile}.
Context {E : Type} `{!SequencerClient E}.
Abbreviation cli A := (outcome (CliError E) A).
Variable poller : TxPoller.
Variable random : nat -> list byte.
Variable random_identifier : Identifier.

Definition handle_private (s : Storage) (c : Private) : cli (Storage * SubcommandReturnValue) :=
  let k := key_chain s in
  match c with
  | PrivateOwned from to amount =>
      r ← execution (NativeFacade.send_private_transfer_to_owned_account k random from to amount);
      store_two poller s from to r
  | PrivateForeign from to_npk to_vpk to_identifier amount =>
      npk ← parse_npk to_npk;
      vpk ← parse_vpk to_vpk;
      r ← execution (NativeFacade.send_private_transfer_to_outer_account k random from npk vpk
                       (default random_identifier to_identifier) amount);
      store_first poller s from r
  end.
(** Unlike its sibling of the token commands, [ShieldedForeign] does not poll. *)
Definition handle_shielded (s : Storage) (c : Shielded) : cli (Storage * SubcommandReturnValue) :=
  let k := key_chain s in
  match c with
  | ShieldedOwned from to amount =>
      r ← execution (NativeFacade.send_shielded_transfer k random from to amount);
      store_one poller s to r
  | ShieldedForeign from to_npk to_vpk to_identifier amount =>
      npk ← parse_npk to_npk;
      vpk ← parse_vpk to_vpk;
      '(tx_hash, _) ← execution (NativeFacade.send_shielded_transfer_to_outer_account k random from npk vpk
                                   (default random_identifier to_identifier) amount);
      s ← store_persistent_data s;
      Ok (s, PrivacyPreservingTransfer tx_hash)
  end.
Definition handle_subcommand (s : Storage) (c : Subcommand) : cli (Storage * SubcommandReturnValue) :=
  let k := key_chain s in
  match c with
  | SubPrivate c => handle_private s c
  | SubShielded c => handle_shielded s c
  | SubDeshielded from to amount =>
      r ← execution (NativeFacade.send_deshielded_transfer k random from to amount);
      store_one poller s from r
  | SubPublic from to amount =>
      tx_hash ← execution (NativeFacade.send_public_transfer k from to amount);
      map_err PollFailed (poll_tx poller tx_hash) ;;
      s ← store_persistent_data s;
      Ok (s, Empty)
  end.
Definition send_for (from : AccountIdWithPrivacy) (to : option AccountIdWithPrivacy) (to_npk to_vpk : option string)
    (to_identifier : option Identifier) (amount : Z) : cli Subcommand :=
  match to, to_npk, to_vpk with
  | None, None, None => Err (Bail "Provide either account account_id of receiver or their public keys")
  | Some _, Some _, Some _ =>
      Err (Bail "Provide only one variant: either account account_id of receiver or their public keys")
  | _, Some _, None | _, None, Some _ => Err (Bail "List of public keys is uncomplete")
  | Some to, None, None =>
      Ok (match from, to with
          | PublicId from, PublicId to => SubPublic from to amount
          | PrivateId from, PrivateId to => SubPrivate (PrivateOwned from to amount)
          | PrivateId from, PublicId to => SubDeshielded from to amount
          | PublicId from, PrivateId to => SubShielded (ShieldedOwned from to amount)
          end)
  | None, Some to_npk, Some to_vpk =>
      Ok (match from with
          | PrivateId from => SubPrivate (PrivateForeign from to_npk to_vpk to_identifier amount)
          | PublicId from => SubShielded (ShieldedForeign from to_npk to_vpk to_identifier amount)
          end)
  end.
Definition handle (s : Storage) (c : Agnostic) : cli (Storage * SubcommandReturnValue) :=
  let k := key_chain s in
  match c with
  | Init account_id =>
      resolved ← mention_resolve s account_id;
      match resolved with
      | PublicId account_id =>
          tx_hash ← execution (NativeFacade.register_account k account_id);
          map_err PollFailed (poll_tx poller tx_hash) ;;
          s ← store_persistent_data s;
          Ok (s, Empty)
      | PrivateId account_id =>
          r ← execution (NativeFacade.register_account_private k random account_id);
          s ← poll_and_decode poller s r.1 [Decode r.2 account_id];
          Ok (s, Empty)
      end
  | Send from to to_npk to_vpk to_identifier amount =>
      from ← mention_resolve s from;
      to ← mention_resolve_option s to;
      sub ← send_for from to to_npk to_vpk to_identifier amount;
      handle_subcommand s sub
  end.
End Handlers.
End NativeCommand.

(** ** pinata.rs *)
Module PinataCommand.
Definition PINATA_BASE58 : string := "EfQhKQAkX2FJiwNii2WFQsGndjvF1Mzd7RuVe7QdPLw7".
(** [PinataProgramSubcommand] with its two variants of one constructor each. *)
Inductive Subcommand :=
  | Claim (pinata_account_id winner_account_id : AccountId)
  | ClaimPrivateOwned (pinata_account_id winner_account_id : AccountId).

Section Handlers.
Context `{HmacSha512, K256, Sha256, ChaCha20, ZkVm, Serde ProgramOutput, CircuitProver, SchnorrSign, Borsh PrivacyMessage,
  Borsh PublicMessage, BuiltinPrograms, Serde Pinata.Instruction, Base58, StorageFile}.
Context {E : Type} `{!SequencerClient E}.
Abbreviation cli A := (outcome (CliError E) A).
Variable poller : TxPoller.
Variable random : nat -> list byte.

Definition ensure_public_recipient_initialized (winner_account_id : AccountId) : cli () :=
  account ← map_err ClientError (rpc_get_account winner_account_id);
  ensure (negb (bool_decide (account = Account_default))) (Bail "Recipient account is uninitialized").
Definition ensure_private_owned_recipient_initialized (k : UserKeyChain) (winner_account_id : AccountId) : cli () :=
  match get_account_private k winner_account_id with
  | None => Err (Bail "Recipient account is not found in this wallet")
  | Some account =>
      ensure (negb (bool_decide (account = Account_default))) (Bail "Recipient account is uninitialized")
  end.
Definition solution_for (pinata_account_id : AccountId) : cli Z :=
  map_err (fun e => match e with Some e => ClientError e | None => Bail "invalid pinata account data" end)
    (find_solution pinata_account_id).

Definition handle_subcommand (s : Storage) (c : Subcommand) : cli (Storage * SubcommandReturnValue) :=
  let k := key_chain s in
  match c with
  | Claim pinata winner =>
      ensure_public_recipient_initialized winner ;;
      solution ← solution_for pinata;
      tx_hash ← execution (PinataFacade.claim pinata winner solution);
      map_err PollFailed (poll_tx poller tx_hash) ;;
      Ok (s, Empty)
  | ClaimPrivateOwned pinata winner =>
      ensure_private_owned_recipient_initialized k winner ;;
      solution ← solution_for pinata;
      r ← execution (PinataFacade.claim_private_owned_account k random pinata winner solution);
      store_one poller s winner r
  end.
Definition claim_for (to : AccountIdWithPrivacy) : cli Subcommand :=
  pinata ← map_err (fun _ => AccountIdParseError) (AccountId_from_str PINATA_BASE58);
  Ok (match to with PublicId to => Claim pinata to | PrivateId to => ClaimPrivateOwned pinata to end).
(** [PinataProgramAgnosticSubcommand::Claim] *)
Definition handle (s : Storage) (to : CliAccountMention) : cli (Storage * SubcommandReturnValue) :=
  to ← mention_resolve s to;
  sub ← claim_for to;
  handle_subcommand s sub.
End Handlers.
End PinataCommand.

(** ** ata.rs *)
Module AtaCommand.
Inductive Subcommand :=
  | Address (owner token_definition : AccountId)
  | Create (owner : CliAccountMention) (token_definition : AccountId)
  | Send (from : CliAccountMention) (token_definition to : AccountId) (amount : Z)
  | Burn (holder : CliAccountMention) (token_definition : AccountId) (amount : Z)
  | List (owner : AccountId) (token_definition : list AccountId).

Section Handlers.
Context `{HmacSha512, K256, Sha256, ChaCha20, ZkVm, Serde ProgramOutput, CircuitProver, SchnorrSign, Borsh PrivacyMessage,
  Borsh PublicMessage, BuiltinPrograms, Serde Ata.Instruction, Borsh TokenHolding, StorageFile}.
Context {E : Type} `{!SequencerClient E}.
Abbreviation cli A := (outcome (CliError E) A).
Variable poller : TxPoller.
Variable random : nat -> list byte.

Definition store_owner (s : Storage) (id : AccountId) (r : HashType * SharedSecretKey) :
    cli (Storage * SubcommandReturnValue) :=
  s ← poll_and_decode poller s r.1 [Decode r.2 id];
  Ok (s, Empty).
(** One line of the listing: the balance of a fungible holding, if there is one. *)
Definition list_one (owner def : AccountId) : cli () :=
  account ← map_err ClientError (rpc_get_account (AtaFacade.ata_id_of owner def));
  if decide (account = Account_default) then Ok ()
  else
    ok_or (E := CliError E) (borsh_try_from_slice (A := TokenHolding) (data_bytes (data account)))
      (Bail "invalid token holding") ;;
    Ok ().
Definition handle (s : Storage) (c : Subcommand) : cli (Storage * SubcommandReturnValue) :=
  let k := key_chain s in
  match c with
  | Address _ _ => Ok (s, Empty)
  | Create owner definition_id =>
      owner ← mention_resolve s owner;
      match owner with
      | PublicId owner_id => sent_publicly s (AtaFacade.send_create k owner_id definition_id)
      | PrivateId owner_id =>
          r ← execution (AtaFacade.send_create_private_owner k random owner_id definition_id);
          store_owner s owner_id r
      end
  | Send from definition_id to_id amount =>
      from ← mention_resolve s from;
      match from with
      | PublicId from_id => sent_publicly s (AtaFacade.send_transfer k from_id definition_id to_id amount)
      | PrivateId from_id =>
          r ← execution (AtaFacade.send_transfer_private_owner k random from_id definition_id to_id amount);
          store_owner s from_id r
      end
  | Burn holder definition_id amount =>
      holder ← mention_resolve s holder;
      match holder with
      | PublicId holder_id => sent_publicly s (AtaFacade.send_burn k holder_id definition_id amount)
      | PrivateId holder_id =>
          r ← execution (AtaFacade.send_burn_private_owner k random holder_id definition_id amount);
          store_owner s holder_id r
      end
  | List owner token_definition =>
      iter_o (list_one owner) token_definition ;;
      Ok (s, Empty)
  end.
End Handlers.
End AtaCommand.

(** ** amm.rs *)
Module AmmCommand.
Inductive Subcommand :=
  | New (user_holding_a user_holding_b user_holding_lp : CliAccountMention) (balance_a balance_b : Z)
  | SwapExactInput (user_holding_a user_holding_b : CliAccountMention) (amount_in min_amount_out : Z)
      (token_definition : AccountId)
  | SwapExactOutput (user_holding_a user_holding_b : CliAccountMention) (exact_amount_out max_amount_in : Z)
      (token_definition : AccountId)
  | AddLiquidity (user_holding_a user_holding_b user_holding_lp : CliAccountMention)
      (min_amount_lp max_amount_a max_amount_b : Z)
  | RemoveLiquidity (user_holding_a user_holding_b user_holding_lp : CliAccountMention)
      (balance_lp min_amount_a min_amount_b : Z).

Section Handlers.
Context `{HmacSha512, K256, Sha256, ZkVm, Serde ProgramOutput, CircuitProver, SchnorrSign, Borsh PrivacyMessage,
  Borsh PublicMessage, BuiltinPrograms, Serde Amm.Instruction, Borsh TokenHolding}.
Context {E : Type} `{!SequencerClient E}.
Abbreviation cli A := (outcome (CliError E) A).

Definition only_public {A} : cli A := Err (Bail "Only public execution allowed for Amm calls").
Definition resolve_two (s : Storage) (a b : CliAccountMention) : cli (AccountId * AccountId) :=
  a ← mention_resolve s a;
  b ← mention_resolve s b;
  match a, b with
  | PublicId a, PublicId b => Ok (a, b)
  | _, _ => only_public
  end.
Definition resolve_three (s : Storage) (a b lp : CliAccountMention) : cli (AccountId * AccountId * AccountId) :=
  a ← mention_resolve s a;
  b ← mention_resolve s b;
  lp ← mention_resolve s lp;
  match a, b, lp with
  | PublicId a, PublicId b, PublicId lp => Ok (a, b, lp)
  | _, _, _ => only_public
  end.
Definition handle (s : Storage) (c : Subcommand) : cli (Storage * SubcommandReturnValue) :=
  let k := key_chain s in
  match c with
  | New a b lp balance_a balance_b =>
      '(a, b, lp) ← resolve_three s a b lp;
      sent_publicly s (AmmFacade.send_new_definition k a b lp balance_a balance_b)
  | SwapExactInput a b amount_in min_amount_out token_definition =>
      '(a, b) ← resolve_two s a b;
      sent_publicly s (AmmFacade.send_swap_exact_input k a b amount_in min_amount_out token_definition)
  | SwapExactOutput a b exact_amount_out max_amount_in token_definition =>
      '(a, b) ← resolve_two s a b;
      sent_publicly s (AmmFacade.send_swap_exact_output k a b exact_amount_out max_amount_in token_definition)
  | AddLiquidity a b lp min_amount_lp max_amount_a max_amount_b =>
      '(a, b, lp) ← resolve_three s a b lp;
      sent_publicly s (AmmFacade.send_add_liquidity k a b lp min_amount_lp max_amount_a max_amount_b)
  | RemoveLiquidity a b lp balance_lp min_amount_a min_amount_b =>
      '(a, b, lp) ← resolve_three s a b lp;
      sent_publicly s (AmmFacade.send_remove_liquidity k a b lp balance_lp min_amount_a min_amount_b)
  end.
End Handlers.
End AmmCommand.

(** ** The program commands among [Command] of [cli/mod.rs] *)
Inductive ProgramCommand :=
  | AuthTransferCommand (c : NativeCommand.Agnostic)
  | PinataClaim (to : CliAccountMention)
  | TokenCommand_ (c : TokenCommand.Agnostic)
  | AMM (c : AmmCommand.Subcommand)
  | AtaCommand_ (c : AtaCommand.Subcommand).
Section Execute.
Context `{HmacSha512, K256, Sha256, ChaCha20, ZkVm, Serde ProgramOutput, CircuitProver, SchnorrSign, Borsh PrivacyMessage,
  Borsh PublicMessage, BuiltinPrograms, Hex, Base58, Borsh TokenHolding, Serde AuthTransfer.Instruction,
  Serde Pinata.Instruction, Serde Token.Instruction, Serde Amm.Instruction, Serde Ata.Instruction, StorageFile}.
Context {E : Type} `{!SequencerClient E}.
Variable poller : TxPoller.
Variable random : nat -> list byte.
Variable random_identifier : Identifier.

Definition execute_subcommand (s : Storage) (c : ProgramCommand) :
    outcome (CliError E) (Storage * SubcommandReturnValue) :=
  match c with
  | AuthTransferCommand c => NativeCommand.handle poller random random_identifier s c
  | PinataClaim to => PinataCommand.handle poller random s to
  | TokenCommand_ c => TokenCommand.handle poller random random_identifier s c
  | AMM c => AmmCommand.handle s c
  | AtaCommand_ c => AtaCommand.handle poller random s c
  end.
End Execute.
