(* ===== verification/AccountCommands.v ===== *)
(** The commands of the wallet on its own storage: [wallet/src/cli/account.rs] and
    [wallet/src/cli/group.rs].

    Random numbers are arguments; what [group] prints for other members (the
    public sealing key, the sealed secret) is part of its result, other printed
    text is not.  JSON is third-party code, and the file system says whether the
    storage can be written. *)

From S2P Require Import Prelude Bytes Crypto Account Ids ProgramCore Borsh MerkleTree Host State Encryption CircuitIo Circuit Transactions Prover StateDiffs NativePrograms Chain ChainIndex KeyDerivation GroupKeys KeyTree UserKeyChain WalletSync TextForms WalletTx WalletFacades WalletLoops WalletCommands.

(** The methods of the RPC client that these commands use. *)
Class ChainClient (E : Type) := {
  rpc_get_last_block_id : outcome E BlockId;
  rpc_get_block : BlockId -> outcome E (option Block);
  rpc_get_block_range : BlockId -> BlockId -> outcome E (list Block);
  rpc_get_program_ids : outcome E (gmap string ProgramId);
}.
(** [serde_json::from_str] for key chains. *)
Class KeyChainJson := key_chain_from_json : string -> option KeyChain.

(** ** Commands

    A command works on the storage in place: it reads it, changes it step by step,
    and an error ends it with the storage as it is at that step. *)
Abbreviation commanded E A := (guest (Storage * outcome (CliError E) A)).
Definition cmd (E A : Type) : Type := Storage -> commanded E A.
#[global] Instance cmd_ret {E} : MRet (cmd E) := fun A a s => Ok (s, Ok a).
#[global] Instance cmd_bind {E} : MBind (cmd E) := fun A B f m s =>
  '(s, r) ← m s;
  match r with
  | Ok a => f a s
  | Err e => Ok (s, Err e)
  | Panic msg => Panic msg
  end.

Section Steps.
Context {E : Type}.

(** What came out of reading, in the storage [s]. *)
Definition read_result {A} (s : Storage) (r : outcome (CliError E) A) : commanded E A :=
  match r with
  | Ok a => Ok (s, Ok a)
  | Err e => Ok (s, Err e)
  | Panic msg => Panic msg
  end.
(** A step through [&self]. *)
Definition reading {A} (f : Storage -> outcome (CliError E) A) : cmd E A := fun s => read_result s (f s).
(** A method of the key chain through [&mut self] that fails before it changes
    anything, if it fails. *)
Definition on_key_chain {A} (f : UserKeyChain -> outcome (CliError E) (UserKeyChain * A)) : cmd E A := fun s =>
  match f (key_chain s) with
  | Ok (k, a) => Ok (with_key_chain k s, Ok a)
  | Err e => Ok (s, Err e)
  | Panic msg => Panic msg
  end.
(** [self.store_persistent_data()?] *)
Definition save `{StorageFile} : cmd E () := reading (fun s => store_persistent_data s ;; Ok ()).

(** Labels *)
Definition label_error (r : StorageError) : CliError E := Bail "Label is already in use".
Definition check_label (label : option Label) : cmd E () := reading (fun s =>
  match label with
  | Some label => map_err label_error (check_label_availability s label)
  | None => Ok ()
  end).
(** [add_label] fails before it changes anything. *)
Definition assign_label (label : option Label) (id : AccountIdWithPrivacy) : cmd E () := fun s =>
  match label with
  | Some label =>
      match add_label s label id with
      | Ok s => Ok (s, Ok ())
      | Err e => Ok (s, Err (label_error e))
      | Panic msg => Panic msg
      end
  | None => Ok (s, Ok ())
  end.
End Steps.

(** ** account.rs *)
Module AccountCommand.
Inductive NewSubcommand :=
  | NewPublic (cci : option ChainIndex) (label : option Label)
  | NewPrivate (cci : option ChainIndex) (label : option Label)
  | NewPrivateGms (group : Label) (label : option Label) (pda : bool) (seed program_id : option string)
      (identifier : option Identifier)
  | NewPrivateAccountsKey (cci : option ChainIndex).
Inductive ImportSubcommand :=
  | ImportPublic (private_key : PrivateKey)
  | ImportPrivate (key_chain_json : string) (account_state : HumanReadableAccount) (chain_index : option ChainIndex)
      (identifier : Identifier).
Inductive Subcommand :=
  | Get (raw keys : bool) (account_id : CliAccountMention)
  | New (c : NewSubcommand)
  | SyncPrivate
  | List (long : bool)
  | SetLabel (account_id : CliAccountMention) (label : Label)
  | Import (c : ImportSubcommand).

Section Handlers.
Context `{HmacSha512, K256, Sha256, ChaCha20, ChainIndex.Itertools, Hex, Base58, KeyChainJson, StorageFile}.
Context {E : Type} `{!SequencerClient E, !ChainClient E}.
Abbreviation cli A := (outcome (CliError E) A).
Variable poller : TxPoller.
(** [rand::random] for an identifier. *)
Variable random_identifier : Identifier.

(** The errors of [create_shared_pda_account] and its sibling. *)
Definition group_not_found (e : WalletError) : CliError E := Bail "Group not found".

Definition parse_pda (seed program_id : option string) : cli (PdaSeed * ProgramId) :=
  seed_hex ← ok_or seed (Bail "--seed is required for PDA accounts");
  pid_hex ← ok_or program_id (Bail "--program-id is required for PDA accounts");
  seed_bytes ← ok_or (hex_decode seed_hex) (Bail "Invalid seed hex");
  ensure (bool_decide (length seed_bytes = 32%nat)) (Bail "Seed must be exactly 32 bytes") ;;
  pid_bytes ← ok_or (hex_decode pid_hex) (Bail "Invalid program ID hex");
  ensure (bool_decide (length pid_bytes = 32%nat)) (Bail "Program ID must be exactly 32 bytes") ;;
  '(pid, _) ← unwrap (read_words 8 pid_bytes);
  Ok (PdaSeed_new seed_bytes, pid).

Definition handle_new (c : NewSubcommand) : cmd E SubcommandReturnValue :=
  match c with
  | NewPublic cci label =>
      check_label label ;;
      '(account_id, _) ← on_key_chain (fun k => lift_guest (generate_new_public_transaction_private_key k cci));
      private_key ← reading (fun s => expect (pub_account_signing_key (key_chain s) account_id)
                                        "called `Option::unwrap()` on a `None` value");
      reading (fun _ => lift_guest (new_from_private_key private_key)) ;;
      assign_label label (PublicId account_id) ;;
      save ;;
      mret (RegisterAccount account_id)
  | NewPrivate cci label =>
      check_label label ;;
      '(account_id, _) ← on_key_chain (fun k =>
                           lift_guest (generate_new_privacy_preserving_transaction_key_chain k cci));
      assign_label label (PrivateId account_id) ;;
      reading (fun s => expect (private_account (key_chain s) account_id) "Account should exist after creation") ;;
      save ;;
      mret (RegisterAccount account_id)
  | NewPrivateGms group label pda seed program_id identifier =>
      check_label label ;;
      info ← (if pda then
                '(pda_seed, pid) ← reading (fun _ => parse_pda seed program_id);
                on_key_chain (fun k => map_err group_not_found
                  (create_shared_pda_account k group pda_seed pid (default random_identifier identifier)))
              else on_key_chain (fun k => map_err group_not_found
                     (create_shared_regular_account k group random_identifier)));
      assign_label label (PrivateId (info_account_id info)) ;;
      save ;;
      mret (RegisterAccount (info_account_id info))
  | NewPrivateAccountsKey cci =>
      chain_index ← on_key_chain (fun k => lift_guest (create_private_accounts_key k cci));
      reading (fun s => expect (private_account_key_chain_by_index (key_chain s) chain_index)
                          "Key chain should exist after creation") ;;
      save ;;
      mret Empty
  end.

Definition handle_import (c : ImportSubcommand) : cmd E SubcommandReturnValue :=
  match c with
  | ImportPublic private_key =>
      on_key_chain (fun k => k ← lift_guest (add_imported_public_account k private_key); Ok (k, ())) ;;
      save ;;
      mret Empty
  | ImportPrivate key_chain_json account_state chain_index identifier =>
      keys ← reading (fun _ => ok_or (key_chain_from_json key_chain_json) (Bail "Invalid key chain JSON"));
      account ← reading (fun _ => lift_guest (account_of_human account_state));
      on_key_chain (fun k => Ok (add_imported_private_account k keys chain_index identifier account, ())) ;;
      save ;;
      mret Empty
  end.

(** [WalletCore::get_account] *)
Definition get_account (s : Storage) (id : AccountIdWithPrivacy) : cli Account :=
  match id with
  | PublicId acc_id => map_err ClientError (rpc_get_account acc_id)
  | PrivateId acc_id => ok_or (get_account_private (key_chain s) acc_id) (Bail "Private account not found in storage")
  end.
Definition display_keys (s : Storage) (id : AccountIdWithPrivacy) : cli () :=
  match id with
  | PublicId account_id =>
      private_key ← ok_or (pub_account_signing_key (key_chain s) account_id) (Bail "Public account not found in storage");
      lift_guest (new_from_private_key private_key) ;;
      Ok ()
  | PrivateId account_id =>
      ok_or (private_account (key_chain s) account_id) (Bail "Private account not found in storage") ;;
      Ok ()
  end.
(** With [raw], and for an account in use, the keys are not shown. *)
Definition show_account (s : Storage) (raw keys : bool) (account_id : CliAccountMention) : cli () :=
  resolved ← mention_resolve s account_id;
  account ← get_account s resolved;
  if decide (account = Account_default) then (if keys then display_keys s resolved else Ok ())
  else if raw then Ok ()
  else if keys then display_keys s resolved else Ok ().

Definition sync_private : cmd E SubcommandReturnValue := fun s =>
  '(s, r) ← sync_to_latest_block rpc_get_block_range rpc_get_last_block_id (block_poll_max_amount poller) s;
  Ok (s, SyncedToBlock <$> map_err ClientError r).

Definition handle (c : Subcommand) : cmd E SubcommandReturnValue :=
  match c with
  | Get raw keys account_id => reading (fun s => show_account s raw keys account_id) ;; mret Empty
  | New c => handle_new c
  | SyncPrivate => sync_private
  | List _ => mret Empty
  | SetLabel account_id label =>
      account_id ← reading (fun s => mention_resolve s account_id);
      assign_label (Some label) account_id ;;
      save ;;
      mret Empty
  | Import c => handle_import c
  end.
End Handlers.
End AccountCommand.

(** ** group.rs *)
Module GroupCommand.
Inductive Subcommand :=
  | New (name : Label)
  | List
  | Remove (name : Label)
  | Invite (name : Label) (key : string)
  | Join (name : Label) (sealed : string)
  | NewSealingKey.

(** What [OsRng] returns. *)
Record Randomness := mk_Randomness {
  random_gms : list byte;
  random_scalar : list byte;
  random_nonce : list byte;
  random_secret : list byte;
}.

Section Handlers.
Context `{HmacSha512, K256, Sha256, AesGcm, Hex, StorageFile} {E : Type}.
Abbreviation cli A := (outcome (CliError E) A).
Variable rng : Randomness.

Definition group_error (r : SealError) : CliError E := Bail "Failed to unseal".
Definition sealing_secret_key_of (s : Storage) : cli SealingSecretKey :=
  ok_or (sealing_secret_key (key_chain s)) (Bail "No sealing key found").

Definition free_name (name : Label) : cmd E () := reading (fun s =>
  ensure (negb (bool_decide (is_Some (group_key_holder (key_chain s) name)))) (Bail "Group already exists")).
Definition insert_holder (name : Label) (holder : GroupKeyHolder) : cmd E () :=
  on_key_chain (fun k => Ok (insert_group_key_holder k name holder, ())).

(** The result is the text for other members. *)
Definition handle (c : Subcommand) : cmd E (option string) :=
  match c with
  | New name =>
      free_name name ;;
      insert_holder name (from_gms (random_gms rng)) ;;
      save ;;
      mret None
  | List => mret None
  | Remove name =>
      removed ← on_key_chain (fun k => Ok (remove_group_key_holder k name));
      reading (fun _ => ok_or removed (Bail "Group not found")) ;;
      save ;;
      mret None
  | Invite name key =>
      holder ← reading (fun s => ok_or (group_key_holder (key_chain s) name) (Bail "Group not found"));
      key_bytes ← reading (fun _ => ok_or (hex_decode key) (Bail "Invalid key hex"));
      sealed ← reading (fun _ =>
        lift_guest (seal_for holder (mk_SealingPublicKey key_bytes) (random_scalar rng) (random_nonce rng)));
      mret (Some (hex_encode sealed))
  | Join name sealed =>
      free_name name ;;
      sealing_key ← reading sealing_secret_key_of;
      sealed_bytes ← reading (fun _ => ok_or (hex_decode sealed) (Bail "Invalid sealed hex"));
      holder ← reading (fun _ => map_err group_error (unseal sealed_bytes sealing_key));
      insert_holder name holder ;;
      save ;;
      mret None
  | NewSealingKey =>
      reading (fun s => ensure (negb (bool_decide (is_Some (sealing_secret_key (key_chain s)))))
                          (Bail "Sealing key already exists")) ;;
      let secret := random_secret rng in
      public_key ← reading (fun _ => lift_guest (sealing_from_scalar secret));
      on_key_chain (fun k => Ok (set_sealing_secret_key k secret, ())) ;;
      save ;;
      mret (Some (hex_encode (sealing_bytes public_key)))
  end.
End Handlers.
End GroupCommand.
