(* ===== verification/WalletCli.v ===== *)
(** The command line wallet: the dispatch of [wallet/src/cli/mod.rs] over
    [WalletCore], with the configuration and the commands that have no file of their own.

    What is read from the standard input or from a file is part of the command
    ([None] when it cannot be read or parsed). *)

From Stdlib Require Import Ascii DecimalString.
From S2P Require Import Prelude Bytes Crypto Account Ids ProgramCore Borsh MerkleTree Host State Encryption CircuitIo Circuit Transactions Prover StateDiffs NativePrograms Approval Token Amm TokenClients Chain ChainIndex KeyDerivation GroupKeys KeyTree UserKeyChain WalletSync TextForms WalletTx WalletFacades WalletLoops WalletCommands AccountCommands.

Open Scope Z_scope.

(** ** The configuration of the wallet: [wallet/src/config.rs] and
    [wallet/src/cli/config.rs].  URLs and durations are third-party text forms; the
    file system says whether the configuration can be written. *)

(** The crates [url] and [humantime]; a duration is in nanoseconds. *)
Class ConfigText := {
  parse_url : string -> option string;
  parse_duration : string -> option Z;
}.

(** [u64::from_str]; [usize] has 64 bits. *)
Definition parse_u64 (s : string) : option Z :=
  let digits := match s with String "+" s' => s' | _ => s end in
  match digits with
  | EmptyString => None
  | _ =>
      d ← NilEmpty.uint_of_string digits;
      let n := Z.of_N (N.of_uint d) in
      if decide (n < 2 ^ 64) then Some n else None
  end.

Record WalletConfig := mk_WalletConfig {
  sequencer_addr : string;
  seq_poll_timeout : Z;
  seq_tx_poll_max_blocks : Z;
  seq_poll_max_retries : Z;
  seq_block_poll_max_amount : Z;
  basic_auth : option BasicAuth;
}.
(** [#[optfield] WalletConfigOverrides] with [rewrap]. *)
Record WalletConfigOverrides := mk_Overrides {
  o_sequencer_addr : option string;
  o_seq_poll_timeout : option Z;
  o_seq_tx_poll_max_blocks : option Z;
  o_seq_poll_max_retries : option Z;
  o_seq_block_poll_max_amount : option Z;
  o_basic_auth : option (option BasicAuth);
}.
Definition WalletConfig_default : WalletConfig :=
  mk_WalletConfig "http://127.0.0.1:3040" (12 * 10 ^ 9) 5 5 100 None.
Definition apply_overrides (c : WalletConfig) (o : WalletConfigOverrides) : WalletConfig :=
  mk_WalletConfig (default (sequencer_addr c) (o_sequencer_addr o))
    (default (seq_poll_timeout c) (o_seq_poll_timeout o))
    (default (seq_tx_poll_max_blocks c) (o_seq_tx_poll_max_blocks o))
    (default (seq_poll_max_retries c) (o_seq_poll_max_retries o))
    (default (seq_block_poll_max_amount c) (o_seq_block_poll_max_amount o))
    (default (basic_auth c) (o_basic_auth o)).
(** [TxPoller::new] *)
Definition TxPoller_new (c : WalletConfig) : TxPoller :=
  mk_TxPoller (seq_tx_poll_max_blocks c) (seq_poll_max_retries c) (seq_block_poll_max_amount c).

(** ** [ConfigSubcommand] *)
Module ConfigCommand.
Inductive Subcommand :=
  | Get (all : bool) (key : option string)
  | Set_ (key value : string)
  | Description (key : string).

Section Handlers.
Context `{ConfigText} {E : Type}.

Definition set_field (config : WalletConfig) (key value : string) : outcome (CliError E) WalletConfig :=
  let '(mk_WalletConfig addr timeout blocks retries amount auth) := config in
  if decide (key = "sequencer_addr"%string) then
    v ← ok_or (parse_url value) (Bail "invalid URL"); Ok (mk_WalletConfig v timeout blocks retries amount auth)
  else if decide (key = "seq_poll_timeout"%string) then
    v ← ok_or (parse_duration value) (Bail "Invalid duration"); Ok (mk_WalletConfig addr v blocks retries amount auth)
  else if decide (key = "seq_tx_poll_max_blocks"%string) then
    v ← ok_or (parse_u64 value) (Bail "invalid integer"); Ok (mk_WalletConfig addr timeout v retries amount auth)
  else if decide (key = "seq_poll_max_retries"%string) then
    v ← ok_or (parse_u64 value) (Bail "invalid integer"); Ok (mk_WalletConfig addr timeout blocks v amount auth)
  else if decide (key = "seq_block_poll_max_amount"%string) then
    v ← ok_or (parse_u64 value) (Bail "invalid integer"); Ok (mk_WalletConfig addr timeout blocks retries v auth)
  else if decide (key = "basic_auth"%string) then
    Ok (mk_WalletConfig addr timeout blocks retries amount (Some (BasicAuth_from_str value)))
  else if decide (key = "initial_accounts"%string) then
    Err (Bail "Setting this field from wallet is not supported")
  else Err (Bail "Unknown field").
(** Getting and describing a field only prints. *)
Definition handle (config : WalletConfig) (c : Subcommand) : outcome (CliError E) WalletConfig :=
  match c with
  | Set_ key value => set_field config key value
  | Get _ _ | Description _ => Ok config
  end.
End Handlers.
End ConfigCommand.


(** [WalletCore::store_config_changes] *)
Class ConfigFile := store_config_changes : WalletConfig -> bool.

(** ** [WalletCore], without paths and client *)
Record WalletCore := mk_WalletCore {
  core_config : WalletConfig;
  core_storage : Storage;
  core_poller : TxPoller;
}.
Definition WalletCore_new (config : WalletConfig) (config_overrides : option WalletConfigOverrides) (s : Storage) :
    WalletCore :=
  let config := match config_overrides with Some o => apply_overrides config o | None => config end in
  mk_WalletCore config s (TxPoller_new config).
Definition with_storage (s : Storage) (w : WalletCore) : WalletCore := mk_WalletCore (core_config w) s (core_poller w).
(** [set_config]; the poller keeps the values it was created with. *)
Definition set_config (c : WalletConfig) (w : WalletCore) : WalletCore := mk_WalletCore c (core_storage w) (core_poller w).

(** [ChainSubcommand] *)
Inductive ChainSubcommand :=
  | CurrentBlockId
  | GetBlock (id : BlockId)
  | GetTransaction (hash : HashType).

Section Cli.
Context `{HmacSha512, K256, Sha256, ChaCha20, AesGcm, Bip39, ChainIndex.Itertools, OverflowChecks, ZkVm, Serde ProgramOutput,
  CircuitProver, SchnorrSign, Borsh PrivacyMessage, Borsh PublicMessage, BuiltinPrograms, Hex, Base58, KeyChainJson,
  ConfigText, Borsh TokenHolding, Serde AuthTransfer.Instruction, Serde Pinata.Instruction, Serde Token.Instruction,
  Serde Amm.Instruction, Serde Ata.Instruction, StorageFile, ConfigFile}.
Context {E : Type} `{!SequencerClient E, !ChainClient E}.
(** The image id of the circuit, a constant generated at build. *)
Variable PRIVACY_PRESERVING_CIRCUIT_ID : ProgramId.
(** Random bytes. *)
Variable random : nat -> list byte.
Variable random_identifier : Identifier.
Variable rng : GroupCommand.Randomness.

Inductive Command :=
  | ProgramCmd (c : ProgramCommand)
  | ChainInfo (c : ChainSubcommand)
  | AccountCmd (c : AccountCommand.Subcommand)
  | GroupCmd (c : GroupCommand.Subcommand)
  | CheckHealth
  | ConfigCmd (c : ConfigCommand.Subcommand)
  | RestoreKeys (mnemonic : option Mnemonic) (depth : nat)
  | DeployProgram (bytecode : option (list byte)).

Definition handle_chain (c : ChainSubcommand) : outcome (CliError E) () :=
  match c with
  | CurrentBlockId => map_err ClientError (rpc_get_last_block_id) ;; Ok ()
  | GetBlock id => map_err ClientError (rpc_get_block id) ;; Ok ()
  | GetTransaction hash => map_err ClientError (rpc_get_transaction 0 hash) ;; Ok ()
  end.

(** Every failed check panics. *)
Definition check_health : guest () :=
  remote_program_ids ← match rpc_get_program_ids with
                       | Ok ids => Ok ids
                       | Err _ => Panic "Error fetching program ids"
                       | Panic msg => Panic msg
                       end;
  authenticated_transfer_id ← expect (remote_program_ids !! "authenticated_transfer"%string)
                                "Missing authenticated transfer ID from remote";
  assert_ (bool_decide (authenticated_transfer_id = program_id authenticated_transfer_program))
    "Local ID for authenticated transfer program is different from remote" ;;
  token_id ← expect (remote_program_ids !! "token"%string) "Missing token program ID from remote";
  assert_ (bool_decide (token_id = program_id token_program))
    "Local ID for token program is different from remote" ;;
  circuit_id ← expect (remote_program_ids !! "privacy_preserving_circuit"%string)
                 "Missing privacy preserving circuit ID from remote";
  assert_ (bool_decide (circuit_id = PRIVACY_PRESERVING_CIRCUIT_ID))
    "Local ID for privacy preserving circuit is different from remote" ;;
  amm_id ← expect (remote_program_ids !! "amm"%string) "Missing AMM program ID from remote";
  assert_ (bool_decide (amm_id = program_id amm_program)) "Local ID for AMM program is different from remote".

Definition deploy_program (bytecode : option (list byte)) : outcome (CliError E) () :=
  bytecode ← ok_or bytecode (Bail "Failed to read program binary");
  map_err ClientError (rpc_send_transaction (ProgramDeployment (mk_DeploymentTx (mk_DeploymentMessage bytecode)))) ;;
  Ok ().

Definition restore_keys (w : WalletCore) (mnemonic : option Mnemonic) (depth : nat) :
    commanded E SubcommandReturnValue :=
  match mnemonic with
  | None => Ok (core_storage w, Err (Bail "Invalid mnemonic phrase"))
  | Some mnemonic =>
      s ← Storage_restore (core_storage w) mnemonic;
      '(s, r) ← execute_keys_restoration rpc_get_block_range rpc_get_last_block_id rpc_get_account
                  (block_poll_max_amount (core_poller w)) s depth;
      match r with
      | Ok _ => (save ;; mret (M := cmd E) Empty) s
      | Err e => Ok (s, Err (ClientError e))
      | Panic msg => Panic msg
      end
  end.

(** A program command changes the storage in [poll_and_decode] only, after which
    nothing can fail but the writing of the file. *)
Definition program_command (r : outcome (CliError E) (Storage * SubcommandReturnValue)) :
    cmd E SubcommandReturnValue := fun s =>
  match r with
  | Ok (s, v) => Ok (s, Ok v)
  | Err (StoreFailed in_memory) => Ok (in_memory, Err (StoreFailed in_memory))
  | Err e => Ok (s, Err e)
  | Panic msg => Panic msg
  end.

(** [wallet_core.set_config] and [store_config_changes]; only [set] writes the file. *)
Definition config_command (w : WalletCore) (c : ConfigCommand.Subcommand) :
    guest (WalletCore * outcome (CliError E) SubcommandReturnValue) :=
  match ConfigCommand.handle (core_config w) c with
  | Ok config =>
      let w := set_config config w in
      match c with
      | ConfigCommand.Set_ _ _ =>
          if store_config_changes config then Ok (w, Ok Empty) else Ok (w, Err (Bail "Failed to store the configuration"))
      | _ => Ok (w, Ok Empty)
      end
  | Err e => Ok (w, Err e)
  | Panic msg => Panic msg
  end.

(** [execute_subcommand], for one run of the wallet. *)
Definition execute_command (w : WalletCore) (c : Command) :
    guest (WalletCore * outcome (CliError E) SubcommandReturnValue) :=
  let s := core_storage w in
  let on_storage (m : cmd E SubcommandReturnValue) := '(s, v) ← m s; Ok (with_storage s w, v) in
  match c with
  | ProgramCmd c => on_storage (program_command (execute_subcommand (core_poller w) random random_identifier s c))
  | ChainInfo c => on_storage (reading (fun _ => handle_chain c) ;; mret Empty)
  | AccountCmd c => on_storage (AccountCommand.handle (core_poller w) random_identifier c)
  | GroupCmd c => on_storage (GroupCommand.handle rng c ;; mret Empty)
  | CheckHealth => check_health ;; Ok (w, Ok Empty)
  | ConfigCmd c => config_command w c
  | RestoreKeys mnemonic depth => on_storage (fun _ => restore_keys w mnemonic depth)
  | DeployProgram bytecode => on_storage (reading (fun _ => deploy_program bytecode) ;; mret Empty)
  end.
End Cli.
