(* ===== verification/CMemory.v ===== *)
(** The memory that the C interfaces hand out: addresses and what they hold.

    [Box::into_raw], [CString::into_raw] and [Vec::into_raw_parts] give an address
    that is not in use; [from_raw] takes the object back.  Taking back what is not
    there is undefined behaviour, which is [Panic] here. *)

From S2P Require Import Prelude.

Section Memory.
Context {O : Type}.
Implicit Types m : gmap positive O.

Definition into_raw (o : O) m : positive * gmap positive O :=
  let p := fresh (dom m) in (p, <[p := o]> m).
Definition from_raw (p : positive) m : guest (O * gmap positive O) :=
  match m !! p with
  | Some o => Ok (o, delete p m)
  | None => Panic "undefined behaviour: freed memory that is not allocated"
  end.
Definition drop_raw (p : positive) m : guest (gmap positive O) := snd <$> from_raw p m.

Lemma into_raw_spec o m p m' : into_raw o m = (p, m') -> m !! p = None /\ m' = <[p := o]> m.
Proof.
  unfold into_raw. intros [= <- <-]. split; [|done]. apply not_elem_of_dom, is_fresh.
Qed.
Lemma from_inserted p o m : m !! p = None -> from_raw p (<[p := o]> m) = Ok (o, m).
Proof. intros Hp. unfold from_raw. by rewrite lookup_insert_eq, delete_insert_id. Qed.
Lemma drop_inserted p o m : m !! p = None -> drop_raw p (<[p := o]> m) = Ok m.
Proof. intros Hp. unfold drop_raw. by rewrite from_inserted. Qed.
End Memory.

(** ** Parts of the memory

    A piece of code that allocates [gives] a part of the memory, apart from the rest;
    one that frees [takes] such a part, wherever it is. *)
Section Parts.
Context {O : Type}.
Abbreviation Mem := (gmap positive O).
(** Code that works on the memory. *)
Definition heap (A : Type) : Type := Mem -> guest (A * Mem).
#[global] Instance heap_ret : MRet heap := fun A a m => Ok (a, m).
#[global] Instance heap_bind : MBind heap := fun A B f c m =>
  match c m with
  | Ok (a, m) => f a m
  | Err e => Err e
  | Panic msg => Panic msg
  end.
Definition lift_heap {A} (c : guest A) : heap A := fun m => (fun a => (a, m)) <$> c.

Definition gives {A} (c : heap A) (m : Mem) (a : A) (part : Mem) : Prop :=
  c m = Ok (a, part ∪ m) /\ part ##ₘ m.
Definition takes {A} (c : heap A) (part : Mem) (a : A) : Prop :=
  forall m, part ##ₘ m -> c (part ∪ m) = Ok (a, m).

Lemma gives_ret {A} (a : A) m : gives (mret a) m a ∅.
Proof. split; [|apply map_disjoint_empty_l]. unfold mret, heap_ret. by rewrite map_empty_union. Qed.
Lemma gives_bind {A B} (c : heap A) (k : A -> heap B) m a b part rest :
  gives c m a part -> gives (k a) (part ∪ m) b rest -> gives (c ≫= k) m b (rest ∪ part).
Proof.
  intros [Hc Hd] [Hk Hdk]. unfold gives, mbind, heap_bind. rewrite Hc, Hk, (assoc (∪)). split; [done|]. solve_map_disjoint.
Qed.
Lemma gives_apart {A B} (c : heap A) (k : heap B) m a b part rest :
  gives c m a part -> gives k (part ∪ m) b rest -> rest ##ₘ part.
Proof. intros _ [_ Hd]. solve_map_disjoint. Qed.
Lemma takes_ret {A} (a : A) : takes (mret a) ∅ a.
Proof. intros m _. unfold mret, heap_ret. by rewrite map_empty_union. Qed.
Lemma takes_bind {A B} (c : heap A) (k : A -> heap B) part rest a b :
  takes c part a -> takes (k a) rest b -> rest ##ₘ part -> takes (c ≫= k) (rest ∪ part) b.
Proof.
  intros Hc Hk Hd m Hm. unfold mbind, heap_bind. rewrite (map_union_comm rest part), <- (assoc (∪)) by done.
  rewrite Hc by solve_map_disjoint. apply Hk. solve_map_disjoint.
Qed.
Lemma takes_comm {A} (c : heap A) part rest a : rest ##ₘ part -> takes c (rest ∪ part) a -> takes c (part ∪ rest) a.
Proof. intros Hd Hc. by rewrite map_union_comm. Qed.
(** What is ignored is still freed. *)
Lemma takes_ignore {A} (c : heap A) part a : takes c part a -> takes (c ;; mret ()) part ().
Proof.
  intros Hc m Hm. unfold mbind, heap_bind. by rewrite Hc.
Qed.
Lemma gives_into_raw o m : exists p, gives (fun m => Ok (into_raw o m)) m p {[p := o]}.
Proof.
  destruct (into_raw o m) as [p m'] eqn:Hr. exists p. pose proof Hr as [Hp ->]%into_raw_spec. split.
  - by rewrite Hr, <- insert_union_singleton_l.
  - by apply map_disjoint_singleton_l.
Qed.
Lemma takes_from_raw p o : takes (from_raw p) {[p := o]} o.
Proof.
  intros m Hd. rewrite <- insert_union_singleton_l. apply from_inserted. by apply map_disjoint_singleton_l in Hd.
Qed.
End Parts.
Arguments heap O A : clear implicits.
