(* ===== verification/WalletFfi.v ===== *)
(** The C interface of the wallet: [wallet-ffi/src].

    A pointer is [None] when it is null.  What C owns is passed as a value: the
    structs behind input pointers, and the struct behind an output pointer, which a
    call returns with its new contents.  What the interface allocates with
    [into_raw] is in [CMemory], until the matching function frees it; freeing
    or reading memory that is not allocated is undefined behaviour, and is [Panic]
    here, like a panic of the wallet, which ends the process at the boundary.
    Messages on the standard error are not modelled. *)

From Stdlib Require Import Ascii.
From S2P Require Import Prelude Bytes Crypto Account Ids ProgramCore Borsh MerkleTree Host State Encryption CircuitIo Circuit Transactions Prover StateDiffs NativePrograms Approval Token Amm TokenClients Chain ChainIndex KeyDerivation GroupKeys KeyTree UserKeyChain WalletSync TextForms WalletTx WalletFacades WalletLoops WalletCommands AccountCommands WalletCli CMemory.

Open Scope Z_scope.

(** ** error.rs *)
Inductive WalletFfiError :=
  | Success
  | NullPointer
  | InvalidUtf8
  | WalletNotInitialized
  | ConfigError
  | FfiStorageError
  | NetworkError
  | AccountNotFound
  | KeyNotFound
  | InsufficientFunds
  | InvalidAccountId
  | RuntimeError
  | PasswordRequired
  | SyncError
  | SerializationError
  | InvalidTypeConversion
  | InvalidKeyValue
  | FfiInternalError.
#[global] Instance WalletFfiError_eq_dec : EqDecision WalletFfiError.
Proof. solve_decision. Defined.

(** [map_execution_error] *)
Definition map_execution_error {E} (e : ExecutionFailureKind E) : WalletFfiError :=
  match e with
  | InsufficientFundsError => InsufficientFunds
  | KeyNotFoundError => KeyNotFound
  | SequencerError _ | SequencerClientError _ => NetworkError
  | _ => FfiInternalError
  end.

(** ** Memory *)
Record FfiAccountListEntry := mk_ListEntry { entry_account_id : list byte; entry_is_public : bool }.
Inductive Object :=
  | CStringObject (s : string)
  | BytesObject (l : list byte)
  | EntriesObject (l : list FfiAccountListEntry).
Abbreviation CMemory := (gmap positive Object).
Abbreviation Ptr := (option positive).

(** [slice::from_raw_parts] for bytes. *)
Definition raw_bytes (p : Ptr) (len : Z) (m : CMemory) : guest (list byte) :=
  match p ≫= fun p => m !! p with
  | Some (BytesObject l) =>
      if decide (len <= Z.of_nat (length l)) then Ok (take (Z.to_nat len) l)
      else Panic "undefined behaviour: read beyond an allocation"
  | _ => Panic "undefined behaviour: read of memory that is not allocated"
  end.
(** [CString::new], which refuses the character zero. *)
Definition CString_new (s : string) : option string :=
  if has_char Ascii.zero s then None else Some s.
Definition string_into_raw (s : string) (m : CMemory) : Ptr * CMemory :=
  match CString_new s with
  | Some s => let '(p, m) := into_raw (CStringObject s) m in (Some p, m)
  | None => (None, m)
  end.

(** A string that C passes, as [CStr::to_str] sees it. *)
Inductive CStr := Utf8 (s : string) | NotUtf8.
Definition c_str_to_string (p : option CStr) : outcome WalletFfiError string :=
  match p with
  | None => Err NullPointer
  | Some (Utf8 s) => Ok s
  | Some NotUtf8 => Err InvalidUtf8
  end.
Definition c_str_to_path (p : option CStr) : outcome WalletFfiError string := c_str_to_string p.

(** ** types.rs *)
(** [FfiBytes32], [FfiU128], [[u8; 16]] are the bytes. *)
Record FfiAccount := mk_FfiAccount {
  ffi_program_owner : list Z;
  ffi_balance : list byte;
  ffi_data : Ptr;
  ffi_data_len : Z;
  ffi_nonce : list byte;
}.
Record FfiPrivateAccountKeys := mk_FfiKeys {
  ffi_nullifier_public_key : list byte;
  ffi_viewing_public_key : Ptr;
  ffi_viewing_public_key_len : Z;
}.
Record FfiAccountList := mk_FfiList { ffi_entries : Ptr; ffi_count : Z }.
Record FfiTransferResult := mk_FfiResult { ffi_tx_hash : Ptr; ffi_success : bool }.
Definition FfiAccount_default : FfiAccount := mk_FfiAccount (replicate 8 0) (zeros 16) None 0 (zeros 16).
Definition FfiPrivateAccountKeys_default : FfiPrivateAccountKeys := mk_FfiKeys (zeros 32) None 0.
Definition FfiAccountList_default : FfiAccountList := mk_FfiList None 0.
Definition FfiTransferResult_default : FfiTransferResult := mk_FfiResult None false.

Definition u128_of_ffi (b : list byte) : Z := le_value b.
Definition u128_to_ffi (n : Z) : list byte := le_bytes 16 n.

(** [FfiPrivateAccountKeys::npk], [vpk] *)
Definition keys_npk (k : FfiPrivateAccountKeys) : NullifierPublicKey := mk_Npk (ffi_nullifier_public_key k).
Definition keys_vpk (k : FfiPrivateAccountKeys) (m : CMemory) : outcome WalletFfiError ViewingPublicKey :=
  if decide (ffi_viewing_public_key_len k = 33) then
    slice ← lift_guest (raw_bytes (ffi_viewing_public_key k) (ffi_viewing_public_key_len k) m);
    Ok (mk_Vpk slice)
  else Err InvalidKeyValue.

(** [From<nssa::Account> for FfiAccount] and back. *)
Definition account_to_ffi (a : Account) (m : CMemory) : FfiAccount * CMemory :=
  let data_vec := data_bytes (data a) in
  let data_len := Z.of_nat (length data_vec) in
  let '(p, m) := if decide (data_len > 0) then let '(p, m) := into_raw (BytesObject data_vec) m in (Some p, m) else (None, m) in
  (mk_FfiAccount (program_owner a) (u128_to_ffi (balance a)) p data_len (u128_to_ffi (nonce a)), m).
Definition account_from_ffi (f : FfiAccount) (m : CMemory) : outcome WalletFfiError Account :=
  d ← (if decide (ffi_data_len f > 0) then
         slice ← lift_guest (raw_bytes (ffi_data f) (ffi_data_len f) m);
         map_err (fun _ => InvalidTypeConversion) (Data_try_from slice)
       else Ok Data_default);
  Ok (mk_Account (ffi_program_owner f) (u128_of_ffi (ffi_balance f)) d (u128_of_ffi (ffi_nonce f))).
(** [FfiPublicAccountKey] is the key. *)
Definition public_key_from_ffi `{Schnorr} (b : list byte) : outcome WalletFfiError PublicKey :=
  map_err (fun _ => InvalidTypeConversion) (PublicKey_try_new b).

(** *** Freeing *)
Definition free_ptr (p : Ptr) (m : CMemory) : guest CMemory :=
  match p with Some p => drop_raw p m | None => Ok m end.
Definition wallet_ffi_free_string (p : Ptr) (m : CMemory) : guest CMemory := free_ptr p m.
Definition wallet_ffi_free_transfer_result (r : option FfiTransferResult) (m : CMemory) : guest CMemory :=
  match r with Some r => free_ptr (ffi_tx_hash r) m | None => Ok m end.
Definition wallet_ffi_free_account_list (l : option FfiAccountList) (m : CMemory) : guest CMemory :=
  match l with
  | Some l => if decide (ffi_count l > 0) then free_ptr (ffi_entries l) m else Ok m
  | None => Ok m
  end.
Definition wallet_ffi_free_account_data (a : option FfiAccount) (m : CMemory) : guest CMemory :=
  match a with
  | Some a => if decide (ffi_data_len a > 0) then free_ptr (ffi_data a) m else Ok m
  | None => Ok m
  end.
Definition wallet_ffi_free_private_account_keys (k : option FfiPrivateAccountKeys) (m : CMemory) : guest CMemory :=
  match k with
  | Some k => if decide (ffi_viewing_public_key_len k > 0) then free_ptr (ffi_viewing_public_key k) m else Ok m
  | None => Ok m
  end.

(** ** wallet.rs *)
(** [WalletWrapper]; the lock is poisoned when a thread panicked with it. *)
Record WalletWrapper := mk_Wrapper { wrapper_core : WalletCore; poisoned : bool }.
Abbreviation WalletHandle := (option WalletWrapper).

Definition get_wallet (handle : WalletHandle) : outcome WalletFfiError WalletWrapper := ok_or handle NullPointer.
Definition lock (w : WalletWrapper) : outcome WalletFfiError WalletCore :=
  if poisoned w then Err FfiInternalError else Ok (wrapper_core w).
Definition unlock (c : WalletCore) (w : WalletWrapper) : WalletHandle := Some (mk_Wrapper c (poisoned w)).
(** [is_null] *)
Definition non_null {A} (p : option A) : outcome WalletFfiError A := ok_or p NullPointer.

(** A call that returns early leaves what it was given. *)
Definition returns {A} (given : A) (r : outcome WalletFfiError (WalletFfiError * A)) : guest (WalletFfiError * A) :=
  match r with
  | Ok r => Ok r
  | Err e => Ok (e, given)
  | Panic msg => Panic msg
  end.
Definition null_on_error {A} (given : A) (r : outcome WalletFfiError (Ptr * A)) : guest (Ptr * A) :=
  match r with
  | Ok r => Ok r
  | Err _ => Ok (None, given)
  | Panic msg => Panic msg
  end.

(** [wallet_ffi_create_new], [wallet_ffi_open]: what is read from the paths, and
    the entropy, are arguments; a handle that is not null is a new one. *)
Definition wallet_ffi_create_new `{HmacSha512, K256, Sha256, Bip39} (config_path storage_path password : option CStr)
    (config_at : string -> option WalletConfig) (entropy : list byte) : guest WalletHandle :=
  match (config_path ← c_str_to_path config_path; storage_path ← c_str_to_path storage_path;
         password ← c_str_to_string password; Ok config_path) with
  | Ok config_path =>
      '(storage, _mnemonic) ← Storage_new entropy;
      Ok ((fun config => mk_Wrapper (WalletCore_new config None storage) false) <$> config_at config_path)
  | Err _ => Ok None
  | Panic msg => Panic msg
  end.
Definition wallet_ffi_open (config_path storage_path : option CStr) (config_at : string -> option WalletConfig)
    (storage_at : string -> option Storage) : guest WalletHandle :=
  match (config_path ← c_str_to_path config_path; storage_path ← c_str_to_path storage_path; Ok (config_path, storage_path)) with
  | Ok (config_path, storage_path) =>
      Ok (storage ← storage_at storage_path; config ← config_at config_path;
          Some (mk_Wrapper (WalletCore_new config None storage) false))
  | Err _ => Ok None
  | Panic msg => Panic msg
  end.
(** Nothing is behind the handle after it; the file is not written. *)
Definition wallet_ffi_destroy (_ : WalletHandle) : WalletHandle := None.
(** [saved]: whether the file can be written. *)
Definition store_persistent_data (saved : bool) : outcome WalletFfiError () := if saved then Ok () else Err FfiStorageError.
Definition wallet_ffi_save (handle : WalletHandle) (saved : bool) : guest (WalletFfiError * ()) :=
  returns () (wrapper ← get_wallet handle;
              lock wrapper ;;
              store_persistent_data saved ;;
              Ok (Success, ())).
Definition wallet_ffi_get_sequencer_addr (handle : WalletHandle) (m : CMemory) : guest (Ptr * CMemory) :=
  null_on_error m (wrapper ← get_wallet handle;
                   wallet ← lock wrapper;
                   Ok (string_into_raw (sequencer_addr (core_config wallet)) m)).

(** ** account.rs *)
(** [serde_json::from_str] for the state of an account. *)
Class AccountJson := account_from_json : string -> option HumanReadableAccount.

Section Accounts.
Context `{HmacSha512, K256, Sha256, ChainIndex.Itertools}.

Definition wallet_ffi_create_account_public (handle : WalletHandle) (out_account_id : option (list byte)) :
    guest (WalletFfiError * (WalletHandle * option (list byte))) :=
  returns (handle, out_account_id)
    (wrapper ← get_wallet handle;
     non_null out_account_id ;;
     wallet ← lock wrapper;
     let s := core_storage wallet in
     '(k, (account_id, _)) ← lift_guest (generate_new_public_transaction_private_key (key_chain s) None);
     Ok (Success, (unlock (with_storage (with_key_chain k s) wallet) wrapper, Some (value account_id)))).
Definition wallet_ffi_create_account_private (handle : WalletHandle) (out_account_id : option (list byte)) :
    guest (WalletFfiError * (WalletHandle * option (list byte))) :=
  returns (handle, out_account_id)
    (wrapper ← get_wallet handle;
     non_null out_account_id ;;
     wallet ← lock wrapper;
     let s := core_storage wallet in
     '(k, (account_id, _)) ← lift_guest (generate_new_privacy_preserving_transaction_key_chain (key_chain s) None);
     Ok (Success, (unlock (with_storage (with_key_chain k s) wallet) wrapper, Some (value account_id)))).

(** The public keys of a key chain, for C. *)
Definition keys_to_ffi (key_chain : KeyChain) (m : CMemory) : FfiPrivateAccountKeys * CMemory :=
  let vpk := vpk_bytes (viewing_public_key key_chain) in
  let '(p, m) := into_raw (BytesObject vpk) m in
  (mk_FfiKeys (npk_bytes (nullifier_public_key key_chain)) (Some p) (Z.of_nat (length vpk)), m).
Definition wallet_ffi_create_private_accounts_key (handle : WalletHandle) (out_keys : option FfiPrivateAccountKeys)
    (m : CMemory) : guest (WalletFfiError * (WalletHandle * option FfiPrivateAccountKeys * CMemory)) :=
  returns (handle, out_keys, m)
    (wrapper ← get_wallet handle;
     non_null out_keys ;;
     wallet ← lock wrapper;
     let s := core_storage wallet in
     '(k, chain_index) ← lift_guest (create_private_accounts_key (key_chain s) None);
     keys ← expect (private_account_key_chain_by_index k chain_index) "Node was just inserted";
     let '(out, m) := keys_to_ffi keys m in
     Ok (Success, (unlock (with_storage (with_key_chain k s) wallet) wrapper, Some out, m))).

Definition list_entry (e : AccountIdWithPrivacy * option ChainIndex) : FfiAccountListEntry :=
  match e.1 with
  | PublicId id => mk_ListEntry (value id) true
  | PrivateId id => mk_ListEntry (value id) false
  end.
Definition wallet_ffi_list_accounts (handle : WalletHandle) (out_list : option FfiAccountList) (m : CMemory) :
    guest (WalletFfiError * (option FfiAccountList * CMemory)) :=
  returns (out_list, m)
    (wrapper ← get_wallet handle;
     non_null out_list ;;
     wallet ← lock wrapper;
     let entries := list_entry <$> kc_account_ids (key_chain (core_storage wallet)) in
     let count := Z.of_nat (length entries) in
     if decide (count = 0) then Ok (Success, (Some (mk_FfiList None 0), m))
     else let '(p, m) := into_raw (EntriesObject entries) m in
          Ok (Success, (Some (mk_FfiList (Some p) count), m))).

Section Balance.
Context {E : Type} `{!SequencerClient E}.
Definition wallet_ffi_get_balance (handle : WalletHandle) (account_id : option (list byte)) (is_public : bool)
    (out_balance : option (list byte)) : guest (WalletFfiError * option (list byte)) :=
  returns out_balance
    (wrapper ← get_wallet handle;
     account_id ← non_null account_id;
     non_null out_balance ;;
     wallet ← lock wrapper;
     balance ← (if is_public then map_err (fun _ => NetworkError) (rpc_get_account_balance (AccountId_new account_id))
                else account ← ok_or (get_account_private (key_chain (core_storage wallet)) (AccountId_new account_id)) AccountNotFound;
                     Ok (balance account));
     Ok (Success, Some (u128_to_ffi balance))).
Definition wallet_ffi_get_account_public (handle : WalletHandle) (account_id : option (list byte))
    (out_account : option FfiAccount) (m : CMemory) : guest (WalletFfiError * (option FfiAccount * CMemory)) :=
  returns (out_account, m)
    (wrapper ← get_wallet handle;
     account_id ← non_null account_id;
     non_null out_account ;;
     lock wrapper ;;
     account ← map_err (fun _ => NetworkError) (rpc_get_account (AccountId_new account_id));
     let '(out, m) := account_to_ffi account m in
     Ok (Success, (Some out, m))).
End Balance.
Definition wallet_ffi_get_account_private (handle : WalletHandle) (account_id : option (list byte))
    (out_account : option FfiAccount) (m : CMemory) : guest (WalletFfiError * (option FfiAccount * CMemory)) :=
  returns (out_account, m)
    (wrapper ← get_wallet handle;
     account_id ← non_null account_id;
     non_null out_account ;;
     wallet ← lock wrapper;
     account ← ok_or (get_account_private (key_chain (core_storage wallet)) (AccountId_new account_id)) AccountNotFound;
     let '(out, m) := account_to_ffi account m in
     Ok (Success, (Some out, m))).

(** [PrivateKey::from_str] *)
Definition PrivateKey_from_str `{Hex} (s : string) : outcome NssaError PrivateKey :=
  bytes ← ok_or (hex_decode s) InvalidPrivateKey;
  ensure (bool_decide (length bytes = 32%nat)) InvalidPrivateKey ;;
  PrivateKey_try_new bytes.
(** The imported account stays in the wallet when the file cannot be written. *)
Definition after_import (saved : bool) (k : UserKeyChain) (wallet : WalletCore) (wrapper : WalletWrapper) :
    outcome WalletFfiError (WalletFfiError * WalletHandle) :=
  let handle := unlock (with_storage (with_key_chain k (core_storage wallet)) wallet) wrapper in
  Ok (if saved then Success else FfiStorageError, handle).
Definition wallet_ffi_import_public_account `{Hex} (handle : WalletHandle)
    (private_key_hex : option CStr) (saved : bool) :
    guest (WalletFfiError * WalletHandle) :=
  returns handle
    (wrapper ← get_wallet handle;
     private_key_hex ← c_str_to_string private_key_hex;
     private_key ← map_err (fun _ => InvalidKeyValue) (PrivateKey_from_str private_key_hex);
     wallet ← lock wrapper;
     k ← lift_guest (add_imported_public_account (key_chain (core_storage wallet)) private_key);
     after_import saved k wallet wrapper).
Definition wallet_ffi_import_private_account `{KeyChainJson, AccountJson, Base58, Hex} (handle : WalletHandle)
    (key_chain_json chain_index : option CStr) (identifier : option (list byte)) (account_state_json : option CStr)
    (saved : bool) : guest (WalletFfiError * WalletHandle) :=
  returns handle
    (wrapper ← get_wallet handle;
     identifier ← non_null identifier;
     key_chain_json ← c_str_to_string key_chain_json;
     account_state_json ← c_str_to_string account_state_json;
     keys ← ok_or (key_chain_from_json key_chain_json) SerializationError;
     account_state ← ok_or (account_from_json account_state_json) SerializationError;
     account ← lift_guest (account_of_human account_state);
     wallet ← lock wrapper;
     chain_index ← match chain_index with
                   | None => Ok None
                   | Some _ =>
                       path ← c_str_to_string chain_index;
                       i ← map_err (fun _ => InvalidTypeConversion) (ChainIndex.from_str path);
                       Ok (Some i)
                   end;
     after_import saved
       (add_imported_private_account (key_chain (core_storage wallet)) keys chain_index (u128_of_ffi identifier) account)
       wallet wrapper).

(** ** keys.rs *)
Definition wallet_ffi_get_public_account_key (handle : WalletHandle)
    (account_id out_public_key : option (list byte)) :
    guest (WalletFfiError * option (list byte)) :=
  returns out_public_key
    (wrapper ← get_wallet handle;
     account_id ← non_null account_id;
     non_null out_public_key ;;
     wallet ← lock wrapper;
     private_key ← ok_or (pub_account_signing_key (key_chain (core_storage wallet)) (AccountId_new account_id)) KeyNotFound;
     public_key ← lift_guest (new_from_private_key private_key);
     Ok (Success, Some (public_key_value public_key))).
Definition wallet_ffi_get_private_account_keys (handle : WalletHandle) (account_id : option (list byte))
    (out_keys : option FfiPrivateAccountKeys) (m : CMemory) :
    guest (WalletFfiError * (option FfiPrivateAccountKeys * CMemory)) :=
  returns (out_keys, m)
    (wrapper ← get_wallet handle;
     account_id ← non_null account_id;
     non_null out_keys ;;
     wallet ← lock wrapper;
     acc ← ok_or (private_account (key_chain (core_storage wallet)) (AccountId_new account_id)) AccountNotFound;
     let '(out, m) := keys_to_ffi (found_key_chain acc) m in
     Ok (Success, (Some out, m))).
Definition wallet_ffi_account_id_to_base58 `{Base58} (account_id : option (list byte)) (m : CMemory) : Ptr * CMemory :=
  match account_id with
  | None => (None, m)
  | Some account_id => string_into_raw (AccountId_display (AccountId_new account_id)) m
  end.
Definition wallet_ffi_account_id_from_base58 `{Base58} (base58_str : option CStr) (out_account_id : option (list byte)) :
    guest (WalletFfiError * option (list byte)) :=
  returns out_account_id
    (non_null base58_str ;;
     non_null out_account_id ;;
     str_slice ← c_str_to_string base58_str;
     account_id ← map_err (fun _ => InvalidAccountId) (AccountId_from_str str_slice);
     Ok (Success, Some (value account_id))).
End Accounts.

(** ** transfer.rs and pinata.rs *)
Section Sending.
Context `{HmacSha512, K256, Sha256, ZkVm, Serde ProgramOutput, CircuitProver, SchnorrSign, Borsh PrivacyMessage,
  Borsh PublicMessage, BuiltinPrograms, Serde AuthTransfer.Instruction, Serde Pinata.Instruction, Hex}.
Context {E : Type} `{!SequencerClient E}.
(** Random bytes. *)
Variable random : nat -> list byte.
Abbreviation result A := (outcome (ExecutionFailureKind E) A).

(** The match at the end of every function that sends a transaction. *)
Definition write_result (r : result HashType) (m : CMemory) :
    outcome WalletFfiError (WalletFfiError * (option FfiTransferResult * CMemory)) :=
  match r with
  | Ok tx_hash =>
      let '(p, m) := string_into_raw (HashType_display tx_hash) m in
      Ok (Success, (Some (mk_FfiResult p true), m))
  | Err e => Ok (map_execution_error e, (Some (mk_FfiResult None false), m))
  | Panic msg => Panic msg
  end.

Abbreviation sent := (guest (WalletFfiError * (option FfiTransferResult * CMemory))).

Definition wallet_ffi_transfer_public (handle : WalletHandle) (from to amount : option (list byte))
    (out_result : option FfiTransferResult) (m : CMemory) : sent :=
  returns (out_result, m)
    (wrapper ← get_wallet handle;
     from ← non_null from;
     to ← non_null to;
     amount ← non_null amount;
     non_null out_result ;;
     wallet ← lock wrapper;
     write_result (NativeFacade.send_public_transfer (key_chain (core_storage wallet))
                     (AccountId_new from) (AccountId_new to) (u128_of_ffi amount)) m).
Definition wallet_ffi_transfer_shielded (handle : WalletHandle)
    (from : option (list byte)) (to_keys : option FfiPrivateAccountKeys)
    (to_identifier amount : option (list byte))
    (out_result : option FfiTransferResult) (m : CMemory) : sent :=
  returns (out_result, m)
    (wrapper ← get_wallet handle;
     from ← non_null from;
     to_keys ← non_null to_keys;
     to_identifier ← non_null to_identifier;
     amount ← non_null amount;
     non_null out_result ;;
     wallet ← lock wrapper;
     let to_npk := keys_npk to_keys in
     to_vpk ← keys_vpk to_keys m;
     write_result (fst <$> NativeFacade.send_shielded_transfer_to_outer_account (key_chain (core_storage wallet)) random
                     (AccountId_new from) to_npk to_vpk
                     (u128_of_ffi to_identifier) (u128_of_ffi amount)) m).
Definition wallet_ffi_transfer_deshielded (handle : WalletHandle) (from to amount : option (list byte))
    (out_result : option FfiTransferResult) (m : CMemory) : sent :=
  returns (out_result, m)
    (wrapper ← get_wallet handle;
     from ← non_null from;
     to ← non_null to;
     amount ← non_null amount;
     non_null out_result ;;
     wallet ← lock wrapper;
     write_result (fst <$> NativeFacade.send_deshielded_transfer (key_chain (core_storage wallet)) random
                     (AccountId_new from) (AccountId_new to) (u128_of_ffi amount)) m).
Definition wallet_ffi_transfer_private (handle : WalletHandle)
    (from : option (list byte)) (to_keys : option FfiPrivateAccountKeys)
    (to_identifier amount : option (list byte))
    (out_result : option FfiTransferResult) (m : CMemory) : sent :=
  returns (out_result, m)
    (wrapper ← get_wallet handle;
     from ← non_null from;
     to_keys ← non_null to_keys;
     to_identifier ← non_null to_identifier;
     amount ← non_null amount;
     non_null out_result ;;
     wallet ← lock wrapper;
     let to_npk := keys_npk to_keys in
     to_vpk ← keys_vpk to_keys m;
     write_result (fst <$> NativeFacade.send_private_transfer_to_outer_account (key_chain (core_storage wallet)) random
                     (AccountId_new from) to_npk to_vpk
                     (u128_of_ffi to_identifier) (u128_of_ffi amount)) m).
Definition wallet_ffi_transfer_shielded_owned (handle : WalletHandle) (from to amount : option (list byte))
    (out_result : option FfiTransferResult) (m : CMemory) : sent :=
  returns (out_result, m)
    (wrapper ← get_wallet handle;
     from ← non_null from;
     to ← non_null to;
     amount ← non_null amount;
     non_null out_result ;;
     wallet ← lock wrapper;
     write_result (fst <$> NativeFacade.send_shielded_transfer (key_chain (core_storage wallet)) random
                     (AccountId_new from) (AccountId_new to) (u128_of_ffi amount)) m).
Definition wallet_ffi_transfer_private_owned (handle : WalletHandle) (from to amount : option (list byte))
    (out_result : option FfiTransferResult) (m : CMemory) : sent :=
  returns (out_result, m)
    (wrapper ← get_wallet handle;
     from ← non_null from;
     to ← non_null to;
     amount ← non_null amount;
     non_null out_result ;;
     wallet ← lock wrapper;
     write_result (fst <$> NativeFacade.send_private_transfer_to_owned_account (key_chain (core_storage wallet)) random
                     (AccountId_new from) (AccountId_new to) (u128_of_ffi amount)) m).
Definition wallet_ffi_register_public_account (handle : WalletHandle) (account_id : option (list byte))
    (out_result : option FfiTransferResult) (m : CMemory) : sent :=
  returns (out_result, m)
    (wrapper ← get_wallet handle;
     account_id ← non_null account_id;
     non_null out_result ;;
     wallet ← lock wrapper;
     write_result (NativeFacade.register_account (key_chain (core_storage wallet)) (AccountId_new account_id)) m).
Definition wallet_ffi_register_private_account (handle : WalletHandle) (account_id : option (list byte))
    (out_result : option FfiTransferResult) (m : CMemory) : sent :=
  returns (out_result, m)
    (wrapper ← get_wallet handle;
     account_id ← non_null account_id;
     non_null out_result ;;
     wallet ← lock wrapper;
     write_result (fst <$> NativeFacade.register_account_private (key_chain (core_storage wallet)) random
                     (AccountId_new account_id)) m).
Definition wallet_ffi_claim_pinata (handle : WalletHandle)
    (pinata_account_id winner_account_id solution : option (list byte))
    (out_result : option FfiTransferResult) (m : CMemory) : sent :=
  returns (out_result, m)
    (wrapper ← get_wallet handle;
     pinata_account_id ← non_null pinata_account_id;
     winner_account_id ← non_null winner_account_id;
     solution ← non_null solution;
     non_null out_result ;;
     wallet ← lock wrapper;
     write_result (PinataFacade.claim
                     (AccountId_new pinata_account_id) (AccountId_new winner_account_id) (u128_of_ffi solution)) m).
(** The array of siblings is C's; the proof is passed on to a function that ignores it. *)
Definition proof_siblings (p : option (list (list byte))) (len : Z) : guest (list (list byte)) :=
  if decide (len > 0) then
    l ← expect p "undefined behaviour: read of memory that is not allocated";
    assert_ (bool_decide (len <= Z.of_nat (length l))) "undefined behaviour: read beyond an array" ;;
    Ok (take (Z.to_nat len) l)
  else Ok [].
Definition wallet_ffi_claim_pinata_private_owned_already_initialized (handle : WalletHandle)
    (pinata_account_id winner_account_id solution : option (list byte))
    (winner_proof_index : Z) (winner_proof_siblings : option (list (list byte))) (winner_proof_siblings_len : Z)
    (out_result : option FfiTransferResult) (m : CMemory) : sent :=
  returns (out_result, m)
    (wrapper ← get_wallet handle;
     pinata_account_id ← non_null pinata_account_id;
     winner_account_id ← non_null winner_account_id;
     solution ← non_null solution;
     non_null out_result ;;
     ensure (bool_decide (winner_proof_siblings_len <= 0) || bool_decide (is_Some winner_proof_siblings)) NullPointer ;;
     wallet ← lock wrapper;
     siblings ← lift_guest (proof_siblings winner_proof_siblings winner_proof_siblings_len);
     write_result (fst <$> PinataFacade.claim_private_owned_account_already_initialized (key_chain (core_storage wallet)) random
                     (AccountId_new pinata_account_id)
                     (AccountId_new winner_account_id) (u128_of_ffi solution) (winner_proof_index, siblings)) m).
Definition wallet_ffi_claim_pinata_private_owned_not_initialized (handle : WalletHandle)
    (pinata_account_id winner_account_id solution : option (list byte))
    (out_result : option FfiTransferResult) (m : CMemory) : sent :=
  returns (out_result, m)
    (wrapper ← get_wallet handle;
     pinata_account_id ← non_null pinata_account_id;
     winner_account_id ← non_null winner_account_id;
     solution ← non_null solution;
     non_null out_result ;;
     wallet ← lock wrapper;
     write_result (fst <$> PinataFacade.claim_private_owned_account (key_chain (core_storage wallet)) random
                     (AccountId_new pinata_account_id) (AccountId_new winner_account_id) (u128_of_ffi solution)) m).
End Sending.

(** ** sync.rs *)
Section Syncing.
Context `{HmacSha512, K256, Sha256, ChaCha20}.
Context {E : Type} `{!ChainClient E}.

(** The blocks that were read before an error are kept. *)
Definition wallet_ffi_sync_to_block (handle : WalletHandle)
    (block_id : BlockId) : guest (WalletFfiError * WalletHandle) :=
  returns handle
    (wrapper ← get_wallet handle;
     wallet ← lock wrapper;
     '(s, r) ← lift_guest (sync_to_block rpc_get_block_range (block_poll_max_amount (core_poller wallet))
                             (core_storage wallet) block_id);
     let handle := unlock (with_storage s wallet) wrapper in
     match r with
     | Ok _ => Ok (Success, handle)
     | Err _ => Ok (SyncError, handle)
     | Panic msg => Panic msg
     end).
Definition wallet_ffi_get_last_synced_block (handle : WalletHandle) (out_block_id : option BlockId) :
    guest (WalletFfiError * option BlockId) :=
  returns out_block_id
    (wrapper ← get_wallet handle;
     non_null out_block_id ;;
     wallet ← lock wrapper;
     Ok (Success, Some (last_synced_block (core_storage wallet)))).
Definition wallet_ffi_get_current_block_height (handle : WalletHandle) (out_block_height : option BlockId) :
    guest (WalletFfiError * option BlockId) :=
  returns out_block_height
    (wrapper ← get_wallet handle;
     non_null out_block_height ;;
     lock wrapper ;;
     last_block_id ← map_err (fun _ => NetworkError) rpc_get_last_block_id;
     Ok (Success, Some last_block_id)).
End Syncing.
