(* ===== verification/WalletFfiTheorems.v ===== *)
(** Properties of the C interface of the wallet: every call that sends is the
    request of the wallet behind it, the memory that it hands out is freed without
    undefined behaviour and without leaks, and its data read back. *)

From Stdlib Require Import Ascii.
From S2P Require Import Prelude Bytes Crypto Account Ids ProgramCore Borsh MerkleTree Host State Encryption CircuitIo Circuit Transactions Prover StateDiffs NativePrograms Approval Token Amm TokenClients Chain ChainIndex KeyDerivation GroupKeys KeyTree UserKeyChain WalletSync TextForms WalletTx WalletFacades WalletLoops WalletCommands AccountCommands WalletCli CMemory WalletFfi.

Open Scope Z_scope.

(** ** Allocation *)
Lemma raw_bytes_inserted p l m len : Z.of_nat (length l) = len -> raw_bytes (Some p) len (<[p := BytesObject l]> m) = Ok l.
Proof.
  intros <-. unfold raw_bytes. cbn [mbind option_bind]. rewrite lookup_insert_eq, decide_True by lia. by rewrite Nat2Z.id, take_ge.
Qed.

(** A pointer that is new in a memory, or null. *)
Definition handed_out (p : Ptr) (m m' : CMemory) : Prop :=
  match p with
  | Some p => m !! p = None /\ exists o, m' = <[p := o]> m
  | None => m' = m
  end.
Lemma string_handed_out s m p m' : string_into_raw s m = (p, m') -> handed_out p m m'.
Proof.
  unfold string_into_raw. destruct (CString_new s) as [t|]; [|by intros [= <- <-]].
  destruct (into_raw _ m) as [q m1] eqn:Hr. intros [= <- <-]. apply into_raw_spec in Hr as [Hq ->]. split; [done|by eexists].
Qed.
Lemma returns_ok {A} (given : A) r e x : returns given r = Ok (e, x) -> r = Ok (e, x) \/ r = Err e /\ x = given.
Proof. destruct r as [?|e'|]; cbn; [by intros [= ->]; left|by intros [= <- <-]; right|done]. Qed.

(** ** Data that crosses the boundary *)

(** What the interface hands out reads back: the struct of an account is the
    account again when it is read in the memory of the call, its bytes are the only
    allocation, and freeing it gives the memory back; the public keys of a private
    account, passed to a transfer of any wallet, are the keys of the account, so that
    they address its owner; and so is the text of an account id. *)
Lemma ffi_data_roundtrip `{Base58, !Base58Laws} a key_chain id m :
  Account_wf a -> length (vpk_bytes (viewing_public_key key_chain)) = 33%nat -> AccountId_wf id ->
  has_char Ascii.zero (AccountId_display id) = false ->
  (let '(f, m') := account_to_ffi a m in
   account_from_ffi f m' = Ok a /\ wallet_ffi_free_account_data (Some f) m' = Ok m) /\
  (let '(f, m') := keys_to_ffi key_chain m in
   keys_npk f = nullifier_public_key key_chain /\ keys_vpk f m' = Ok (viewing_public_key key_chain) /\
   wallet_ffi_free_private_account_keys (Some f) m' = Ok m) /\
  (exists p s, wallet_ffi_account_id_to_base58 (Some (value id)) m = (Some p, <[p := CStringObject s]> m) /\
     wallet_ffi_account_id_from_base58 (Some (Utf8 s)) (Some (zeros 32)) = Ok (Success, Some (value id)) /\
     wallet_ffi_free_string (Some p) (<[p := CStringObject s]> m) = Ok m).
Proof.
  intros [Ho [Hb [Hd Hn]]] Hv Hid Hz. split_and!.
  - unfold account_to_ffi, account_from_ffi, u128_to_ffi, u128_of_ffi. case_decide as Hlen.
    + destruct (into_raw _ m) as [p m'] eqn:Hr. apply into_raw_spec in Hr as [Hp ->].
      cbn [ffi_data_len ffi_data ffi_program_owner ffi_balance ffi_nonce wallet_ffi_free_account_data].
      rewrite !decide_True by done. split; [|by apply drop_inserted].
      rewrite raw_bytes_inserted by done. cbn [lift_guest mbind outcome_bind].
      rewrite (proj2 (Data_try_from_ok _ (data a))) by (by destruct (data a)). cbn [map_err mbind outcome_bind].
      rewrite !(le_value_bytes_in 16 128) by done. by destruct a.
    + cbn [ffi_data_len ffi_data ffi_program_owner ffi_balance ffi_nonce wallet_ffi_free_account_data].
      rewrite !decide_False by done. split; [|done]. cbn [mbind outcome_bind].
      rewrite !(le_value_bytes_in 16 128) by done. destruct a as [? ? [[|]] ?]; [done|cbn in *; lia].
  - unfold keys_to_ffi. destruct (into_raw _ m) as [p m'] eqn:Hr. apply into_raw_spec in Hr as [Hp ->].
    unfold keys_npk, keys_vpk, wallet_ffi_free_private_account_keys. cbn [ffi_nullifier_public_key ffi_viewing_public_key_len ffi_viewing_public_key].
    rewrite !decide_True by lia. rewrite raw_bytes_inserted by done. cbn [lift_guest mbind outcome_bind].
    split_and!; [by destruct (nullifier_public_key key_chain)|by destruct (viewing_public_key key_chain)|by apply drop_inserted].
  - unfold wallet_ffi_account_id_to_base58, string_into_raw, CString_new. cbn [value].
    replace (AccountId_new (value id)) with id by (by destruct id). rewrite Hz.
    destruct (into_raw _ m) as [p m'] eqn:Hr. apply into_raw_spec in Hr as [Hp ->]. exists p, (AccountId_display id).
    split_and!; [done| |by apply drop_inserted].
    unfold wallet_ffi_account_id_from_base58. cbn [non_null ok_or mbind outcome_bind c_str_to_string].
    by rewrite AccountId_from_display.
Qed.

(** The state of an imported account is not checked before it is converted: a text
    that is no base58 in the place of the owner ends in a panic. *)
Lemma malformed_account_state_aborts `{HmacSha512, K256, Sha256, KeyChainJson, AccountJson, Base58, Hex}
    w key_chain_json keys chain_index identifier account_state_json a saved :
  key_chain_from_json key_chain_json = Some keys -> account_from_json account_state_json = Some a ->
  from_base58 (hr_program_owner a) = None ->
  exists msg, wallet_ffi_import_private_account (Some w) (Some (Utf8 key_chain_json)) chain_index (Some identifier)
                (Some (Utf8 account_state_json)) saved = Panic msg.
Proof.
  intros Hk Ha Ho. unfold wallet_ffi_import_private_account.
  cbn [get_wallet non_null ok_or mbind outcome_bind c_str_to_string]. rewrite Hk, Ha. cbn [ok_or mbind outcome_bind].
  unfold account_of_human. rewrite Ho. by eexists.
Qed.

(** ** Sending *)
Section Sending.
Context `{HmacSha512, K256, Sha256, ZkVm, Serde ProgramOutput, CircuitProver, SchnorrSign, Borsh PrivacyMessage,
  Borsh PublicMessage, BuiltinPrograms, Serde AuthTransfer.Instruction, Serde Pinata.Instruction, Hex}.
Context {E : Type} `{!SequencerClient E}.

(** The calls that send a transaction, with what C passes. *)
Inductive SendingCall :=
  | TransferPublic (from to amount : option (list byte))
  | TransferShielded (from : option (list byte)) (to_keys : option FfiPrivateAccountKeys) (to_identifier amount : option (list byte))
  | TransferDeshielded (from to amount : option (list byte))
  | TransferPrivate (from : option (list byte)) (to_keys : option FfiPrivateAccountKeys) (to_identifier amount : option (list byte))
  | TransferShieldedOwned (from to amount : option (list byte))
  | TransferPrivateOwned (from to amount : option (list byte))
  | RegisterPublic (account_id : option (list byte))
  | RegisterPrivate (account_id : option (list byte))
  | ClaimPinata (pinata_account_id winner_account_id solution : option (list byte))
  | ClaimPinataInitialized (pinata_account_id winner_account_id solution : option (list byte)) (winner_proof_index : Z)
      (winner_proof_siblings : option (list (list byte))) (winner_proof_siblings_len : Z)
  | ClaimPinataNotInitialized (pinata_account_id winner_account_id solution : option (list byte)).
Definition sending_call (random : nat -> list byte) (c : SendingCall) (handle : WalletHandle)
    (out : option FfiTransferResult) (m : CMemory) : guest (WalletFfiError * (option FfiTransferResult * CMemory)) :=
  match c with
  | TransferPublic from to amount => wallet_ffi_transfer_public handle from to amount out m
  | TransferShielded from keys i amount => wallet_ffi_transfer_shielded random handle from keys i amount out m
  | TransferDeshielded from to amount => wallet_ffi_transfer_deshielded random handle from to amount out m
  | TransferPrivate from keys i amount => wallet_ffi_transfer_private random handle from keys i amount out m
  | TransferShieldedOwned from to amount => wallet_ffi_transfer_shielded_owned random handle from to amount out m
  | TransferPrivateOwned from to amount => wallet_ffi_transfer_private_owned random handle from to amount out m
  | RegisterPublic id => wallet_ffi_register_public_account handle id out m
  | RegisterPrivate id => wallet_ffi_register_private_account random handle id out m
  | ClaimPinata p w s => wallet_ffi_claim_pinata handle p w s out m
  | ClaimPinataInitialized p w s i l len => wallet_ffi_claim_pinata_private_owned_already_initialized random handle p w s i l len out m
  | ClaimPinataNotInitialized p w s => wallet_ffi_claim_pinata_private_owned_not_initialized random handle p w s out m
  end.

(** The request to the wallet that a call with no null pointer stands for; an
    array of siblings has the length that is passed with it. *)
Abbreviation id := AccountId_new.
Abbreviation num := u128_of_ffi.
Definition request (random : nat -> list byte) (k : UserKeyChain) (m : CMemory) (c : SendingCall) :
    option (outcome WalletFfiError (outcome (ExecutionFailureKind E) HashType)) :=
  match c with
  | TransferPublic (Some from) (Some to) (Some amount) =>
      Some (Ok (NativeFacade.send_public_transfer k (id from) (id to) (num amount)))
  | TransferShielded (Some from) (Some keys) (Some i) (Some amount) =>
      Some (vpk ← keys_vpk keys m;
            Ok (fst <$> NativeFacade.send_shielded_transfer_to_outer_account k random (id from) (keys_npk keys) vpk (num i) (num amount)))
  | TransferDeshielded (Some from) (Some to) (Some amount) =>
      Some (Ok (fst <$> NativeFacade.send_deshielded_transfer k random (id from) (id to) (num amount)))
  | TransferPrivate (Some from) (Some keys) (Some i) (Some amount) =>
      Some (vpk ← keys_vpk keys m;
            Ok (fst <$> NativeFacade.send_private_transfer_to_outer_account k random (id from) (keys_npk keys) vpk (num i) (num amount)))
  | TransferShieldedOwned (Some from) (Some to) (Some amount) =>
      Some (Ok (fst <$> NativeFacade.send_shielded_transfer k random (id from) (id to) (num amount)))
  | TransferPrivateOwned (Some from) (Some to) (Some amount) =>
      Some (Ok (fst <$> NativeFacade.send_private_transfer_to_owned_account k random (id from) (id to) (num amount)))
  | RegisterPublic (Some a) => Some (Ok (NativeFacade.register_account k (id a)))
  | RegisterPrivate (Some a) => Some (Ok (fst <$> NativeFacade.register_account_private k random (id a)))
  | ClaimPinata (Some p) (Some w) (Some s) => Some (Ok (PinataFacade.claim (id p) (id w) (num s)))
  | ClaimPinataInitialized (Some p) (Some w) (Some s) i l len =>
      match l with
      | Some l => Some (Ok (fst <$> PinataFacade.claim_private_owned_account_already_initialized k random (id p) (id w) (num s) (i, take (Z.to_nat len) l)))
      | None => if decide (0 < len) then None
                else Some (Ok (fst <$> PinataFacade.claim_private_owned_account_already_initialized k random (id p) (id w) (num s) (i, [])))
      end
  | ClaimPinataNotInitialized (Some p) (Some w) (Some s) => Some (Ok (fst <$> PinataFacade.claim_private_owned_account k random (id p) (id w) (num s)))
  | _ => None
  end.
Definition siblings_given (c : SendingCall) : Prop :=
  match c with
  | ClaimPinataInitialized _ _ _ _ (Some l) len => len = Z.of_nat (length l)
  | _ => True
  end.

(** What C sees of a request in its memory [m]. *)
Definition seen (m : CMemory) (out : option FfiTransferResult) (r : outcome WalletFfiError (outcome (ExecutionFailureKind E) HashType))
    (got : guest (WalletFfiError * (option FfiTransferResult * CMemory))) : Prop :=
  match r with
  | Ok (Ok h) =>
      exists p, m !! p = None /\
        got = Ok (Success, (Some (mk_FfiResult (Some p) true), <[p := CStringObject (HashType_display h)]> m)) /\
        wallet_ffi_free_transfer_result (Some (mk_FfiResult (Some p) true)) (<[p := CStringObject (HashType_display h)]> m) = Ok m
  | Ok (Err e) => got = Ok (map_execution_error e, (Some FfiTransferResult_default, m)) /\ map_execution_error e <> Success
  | Err e => got = Ok (e, (out, m)) /\ e <> Success
  | Ok (Panic msg) | Panic msg => got = Panic msg
  end.

Lemma write_result_seen r m out :
  (forall h, has_char Ascii.zero (HashType_display h) = false) -> seen m out (Ok r) (returns (out, m) (write_result r m)).
Proof.
  intros Hz. destruct r as [h|e|msg]; cbn [seen write_result returns]; [|by split; [|destruct e]|done].
  unfold string_into_raw, CString_new. rewrite Hz. destruct (into_raw _ m) as [p m'] eqn:Hr. apply into_raw_spec in Hr as [Hp ->].
  exists p. split; [done|]. split; [done|]. by apply drop_inserted.
Qed.
Lemma keys_vpk_seen keys m out (f : ViewingPublicKey -> outcome (ExecutionFailureKind E) HashType) :
  (forall h, has_char Ascii.zero (HashType_display h) = false) ->
  seen m out (vpk ← keys_vpk keys m; Ok (f vpk)) (returns (out, m) (vpk ← keys_vpk keys m; write_result (f vpk) m)).
Proof.
  intros Hz. destruct (keys_vpk keys m) as [vpk|e|msg] eqn:Hk; cbn [mbind outcome_bind]; [by apply write_result_seen| |done].
  cbn. split; [done|]. unfold keys_vpk in Hk. case_decide; [by destruct (raw_bytes _ _ _) as [?|[]|]|]. by injection Hk as <-.
Qed.

Lemma claim_initialized_eq random p w s i l len wrapper o m :
  len <= 0 \/ is_Some l ->
  wallet_ffi_claim_pinata_private_owned_already_initialized random (Some wrapper) (Some p) (Some w) (Some s) i l len (Some o) m =
  if poisoned wrapper then Ok (FfiInternalError, (Some o, m))
  else returns (Some o, m)
    (siblings ← lift_guest (proof_siblings l len);
     write_result (fst <$> PinataFacade.claim_private_owned_account_already_initialized
                     (key_chain (core_storage (wrapper_core wrapper))) random (id p) (id w) (num s) (i, siblings)) m).
Proof.
  intros Hl. unfold wallet_ffi_claim_pinata_private_owned_already_initialized.
  cbn [get_wallet non_null ok_or mbind outcome_bind].
  assert (bool_decide (len <= 0) || bool_decide (is_Some l) = true) as ->
    by (apply orb_true_iff; rewrite !bool_decide_eq_true; done).
  by unfold lock; destruct (poisoned wrapper).
Qed.
Lemma proof_siblings_all l : proof_siblings (Some l) (Z.of_nat (length l)) = Ok l.
Proof.
  unfold proof_siblings. case_decide as Hl; [|by destruct l].
  cbn [expect mbind outcome_bind]. rewrite bool_decide_true by lia. cbn. by rewrite Nat2Z.id, take_ge.
Qed.

(** C33. Every call that sends is the wallet's request: with a handle and a place for
    the result, and no null pointer, a request that is sent gives [Success] and a
    fresh string with its hash, which frees to the memory before; a request that
    fails gives the code of its error, never [Success], and a null result; keys of
    the wrong length give their own code and leave the result alone; a panic of the
    wallet is the only other end.  A null pointer and a poisoned lock are reported
    before anything is sent, and change nothing. *)
Theorem ffi_sends_like_the_wallet random c handle out m :
  (forall h, has_char Ascii.zero (HashType_display h) = false) -> siblings_given c ->
  match handle, out with
  | Some w, Some _ =>
      match request random (key_chain (core_storage (wrapper_core w))) m c with
      | None => sending_call random c handle out m = Ok (NullPointer, (out, m))
      | Some r =>
          if poisoned w then sending_call random c handle out m = Ok (FfiInternalError, (out, m))
          else seen m out r (sending_call random c handle out m)
      end
  | _, _ => sending_call random c handle out m = Ok (NullPointer, (out, m))
  end.
Proof.
  intros Hz Hs. destruct handle as [[core p]|], out as [o|];
    destruct c; repeat match goal with x : option _ |- _ => destruct x end; try reflexivity;
    cbn [siblings_given request wrapper_core] in *; subst; try (destruct p; [reflexivity|]).
  all: try (by apply write_result_seen). all: try (by apply keys_vpk_seen).
  - cbn [sending_call]. rewrite claim_initialized_eq by (by right). destruct p; [done|]. cbn [poisoned].
    rewrite proof_siblings_all. by apply write_result_seen.
  - case_decide.
    + unfold sending_call, wallet_ffi_claim_pinata_private_owned_already_initialized.
      cbn [get_wallet non_null ok_or mbind outcome_bind]. by rewrite (bool_decide_false (_ <= 0)) by lia.
    + cbn [sending_call]. rewrite claim_initialized_eq by (left; lia). destruct p; [done|]. cbn [poisoned].
      unfold proof_siblings. rewrite decide_False by lia. by apply write_result_seen.
Qed.

(** ** What the checks of the interface miss *)
(** A viewing key is checked for its length only: the shielded transfer to 33 bytes
    that are not a point ends in a panic. *)
Lemma malformed_viewing_key_aborts random w from keys i amount o m l acc :
  poisoned w = false -> keys_vpk keys m = Ok (mk_Vpk l) -> decode_point l = None -> rpc_get_account (AccountId_new from) = Ok acc ->
  exists msg, wallet_ffi_transfer_shielded random (Some w) (Some from) (Some keys) (Some i) (Some amount) (Some o) m = Panic msg.
Proof.
  intros Hw Hk Hl Hacc.
  assert (forall s, exists msg, SharedSecretKey_new s l = Panic msg) as Hs.
  { intros s. unfold SharedSecretKey_new. destruct (scalar_from_repr s); cbn; [|by eexists]. destruct (bool_decide _); cbn; [|by eexists].
    rewrite Hl. by eexists. }
  unfold wallet_ffi_transfer_shielded, lock. cbn [get_wallet non_null ok_or mbind outcome_bind]. rewrite Hw. cbv zeta.
  cbn [mbind outcome_bind]. rewrite Hk. cbn [mbind outcome_bind].
  assert (exists msg, NativeFacade.send_shielded_transfer_to_outer_account (key_chain (core_storage (wrapper_core w))) random
    (id from) (keys_npk keys) (mk_Vpk l) (num i) (num amount) = Panic msg) as [msg ->]; [|by exists msg].
  unfold NativeFacade.send_shielded_transfer_to_outer_account, NativeFacade.send_checked, NativeFacade.auth_transfer_preparation,
    send_privacy_preserving_tx_with_pre_check, build_privacy_preserving_tx, AccountManager_new, prepare, foreign_acc_preparation,
    ephemeral, calculate_shared_secret_sender.
  rewrite Hacc. cbn [map_err mbind outcome_bind vpk_bytes]. cbv zeta.
  destruct (Hs (ephemeral_secret_key (EphemeralKeyHolder_new (keys_npk keys) ((random ∘ S) 0%nat)))) as [msg Hmsg].
  rewrite Hmsg. by exists msg.
Qed.
End Sending.

(** ** The life of what C is handed *)
Inductive Handed :=
  | HandedString (p : Ptr)
  | HandedResult (r : FfiTransferResult)
  | HandedList (l : FfiAccountList)
  | HandedAccount (a : FfiAccount)
  | HandedKeys (k : FfiPrivateAccountKeys).
(** The function that frees it. *)
Definition free (h : Handed) (m : CMemory) : guest CMemory :=
  match h with
  | HandedString p => wallet_ffi_free_string p m
  | HandedResult r => wallet_ffi_free_transfer_result (Some r) m
  | HandedList l => wallet_ffi_free_account_list (Some l) m
  | HandedAccount a => wallet_ffi_free_account_data (Some a) m
  | HandedKeys k => wallet_ffi_free_private_account_keys (Some k) m
  end.
Fixpoint free_all (l : list Handed) (m : CMemory) : guest CMemory :=
  match l with [] => Ok m | h :: l => m ← free h m; free_all l m end.

Section Client.
Context `{HmacSha512, K256, Sha256, ZkVm, Serde ProgramOutput, CircuitProver, SchnorrSign, Borsh PrivacyMessage,
  Borsh PublicMessage, BuiltinPrograms, Serde AuthTransfer.Instruction, Serde Pinata.Instruction, Hex, Base58, ChainIndex.Itertools}.
Context {E : Type} `{!SequencerClient E}.

(** A call that hands something out, with its result structs initialised to null,
    whatever it returns and whatever wallet it is for.  A viewing key is not empty. *)
Inductive hands_out (m : CMemory) : Handed -> CMemory -> Prop :=
  | hands_sequencer_addr handle p m' :
      wallet_ffi_get_sequencer_addr handle m = Ok (p, m') -> hands_out m (HandedString p) m'
  | hands_base58 account_id p m' :
      wallet_ffi_account_id_to_base58 account_id m = (p, m') -> hands_out m (HandedString p) m'
  | hands_result random c handle e r m' :
      sending_call random c handle (Some FfiTransferResult_default) m = Ok (e, (Some r, m')) -> hands_out m (HandedResult r) m'
  | hands_list handle e l m' :
      wallet_ffi_list_accounts handle (Some FfiAccountList_default) m = Ok (e, (Some l, m')) -> hands_out m (HandedList l) m'
  | hands_account_public handle account_id e a m' :
      wallet_ffi_get_account_public handle account_id (Some FfiAccount_default) m = Ok (e, (Some a, m')) -> hands_out m (HandedAccount a) m'
  | hands_account_private handle account_id e a m' :
      wallet_ffi_get_account_private handle account_id (Some FfiAccount_default) m = Ok (e, (Some a, m')) -> hands_out m (HandedAccount a) m'
  | hands_new_keys handle e handle' k m' :
      wallet_ffi_create_private_accounts_key handle (Some FfiPrivateAccountKeys_default) m = Ok (e, (handle', Some k, m')) ->
      (e = Success -> 0 < ffi_viewing_public_key_len k) -> hands_out m (HandedKeys k) m'
  | hands_keys handle account_id e k m' :
      wallet_ffi_get_private_account_keys handle account_id (Some FfiPrivateAccountKeys_default) m = Ok (e, (Some k, m')) ->
      (e = Success -> 0 < ffi_viewing_public_key_len k) -> hands_out m (HandedKeys k) m'.

(** A client that frees nothing twice: what it holds, and its memory. *)
Inductive client : list Handed -> CMemory -> Prop :=
  | client_start : client [] ∅
  | client_call held m h m' : client held m -> hands_out m h m' -> client (h :: held) m'
  | client_free held h held' m m' : client (held ++ h :: held') m -> free h m = Ok m' -> client (held ++ held') m'.

(** The allocation that a result owns. *)
Definition owns (h : Handed) : option (positive * Object) -> Prop := fun o =>
  (forall m, free h m = free_ptr (fst <$> o) m) /\
  match h with
  | HandedAccount a =>
      if decide (ffi_data_len a > 0) then exists p l, ffi_data a = Some p /\ o = Some (p, BytesObject l) /\ ffi_data_len a = Z.of_nat (length l) else o = None
  | HandedKeys k =>
      if decide (ffi_viewing_public_key_len k > 0) then
        exists p l, ffi_viewing_public_key k = Some p /\ o = Some (p, BytesObject l) /\ ffi_viewing_public_key_len k = Z.of_nat (length l) else o = None
  | _ => True
  end.
Definition add_owned (o : option (positive * Object)) (m : CMemory) : CMemory :=
  match o with Some (p, o) => <[p := o]> m | None => m end.
Definition is_new (o : option (positive * Object)) (m : CMemory) : Prop :=
  match o with Some (p, _) => m !! p = None | None => True end.

Lemma string_owned s m p m' : string_into_raw s m = (p, m') ->
  exists o, m' = add_owned o m /\ is_new o m /\ p = fst <$> o.
Proof.
  intros Hs. apply string_handed_out in Hs. destruct p as [p|]; cbn in Hs.
  - destruct Hs as [Hp [o ->]]. by exists (Some (p, o)).
  - subst. by exists None.
Qed.

Lemma sending_writes random c handle given m e r m' :
  sending_call random c handle (Some given) m = Ok (e, (Some r, m')) ->
  r = given /\ m' = m \/ exists res, write_result (E := E) res m = Ok (e, (Some r, m')).
Proof.
  destruct c; cbn [sending_call]; intros Hc;
    (apply returns_ok in Hc as [Hc|[_ [= -> ->]]]; [right|by left]); inv_ok; cbv zeta in *; inv_ok; eauto.
Qed.
Lemma write_result_owned res m e r m' : write_result (E := E) res m = Ok (e, (Some r, m')) ->
  exists o, owns (HandedResult r) o /\ is_new o m /\ m' = add_owned o m.
Proof.
  destruct res as [h|err|]; cbn [write_result]; [|intros [= <- <- <-]; by exists None|done].
  destruct (string_into_raw _ m) as [p m1] eqn:Hs. intros [= <- <- <-]. apply string_owned in Hs as (o & -> & Hn & ->). by exists o.
Qed.
Lemma account_owned a m f m' : account_to_ffi a m = (f, m') ->
  exists o, owns (HandedAccount f) o /\ is_new o m /\ m' = add_owned o m.
Proof.
  unfold account_to_ffi. case_decide as Hl.
  - destruct (into_raw _ m) as [p m1] eqn:Hr. apply into_raw_spec in Hr as [Hp ->]. intros [= <- <-].
    exists (Some (p, BytesObject (data_bytes (data a)))). split_and!; [|done|done].
    split; [by intros ?; apply decide_True|]. cbn [ffi_data_len ffi_data]. rewrite decide_True by done. by eexists _, _.
  - intros [= <- <-]. exists None. split_and!; [|done|done].
    split; [by intros ?; apply decide_False|]. by rewrite decide_False.
Qed.
Lemma keys_owned k m f m' : keys_to_ffi k m = (f, m') -> 0 < ffi_viewing_public_key_len f ->
  exists o, owns (HandedKeys f) o /\ is_new o m /\ m' = add_owned o m.
Proof.
  unfold keys_to_ffi. destruct (into_raw _ m) as [p m1] eqn:Hr. apply into_raw_spec in Hr as [Hp ->]. intros [= <- <-] Hl.
  cbn [ffi_viewing_public_key_len] in Hl. exists (Some (p, BytesObject (vpk_bytes (viewing_public_key k)))). split_and!; [|done|done].
  split; [intros ?; apply decide_True; cbn; lia|]. cbn [ffi_viewing_public_key_len ffi_viewing_public_key].
  rewrite decide_True by lia. by eexists _, _.
Qed.

Lemma hands_out_owned m h m' : hands_out m h m' -> exists o, owns h o /\ is_new o m /\ m' = add_owned o m.
Proof.
  assert (forall h, owns h None -> exists o, owns h o /\ is_new o m /\ m = add_owned o m) as Hnone by (intros; by exists None).
  intros [handle p m1 Hc|i p m1 Hc|rnd c handle e r m1 Hc|handle e l m1 Hc|handle i e a m1 Hc|handle i e a m1 Hc
         |handle e handle' k m1 Hc Hk|handle i e k m1 Hc Hk].
  - unfold wallet_ffi_get_sequencer_addr, null_on_error in Hc. destruct (_ ≫= _) as [[q m2]|err|] eqn:Hr; [|by injection Hc as <- <-; apply Hnone; split|done].
    injection Hc as -> ->. inv_ok. apply string_owned in Hr as (o & -> & Hn & ->). by exists o.
  - destruct i as [i|]; [|by injection Hc as <- <-; apply Hnone; split].
    apply string_owned in Hc as (o & -> & Hn & ->). by exists o.
  - apply sending_writes in Hc as [[-> ->]|[res Hc]]; [by apply Hnone; split|by eapply write_result_owned].
  - apply returns_ok in Hc as [Hc|[_ [= -> ->]]]; [|by apply Hnone; split]. inv_ok. cbv zeta in *. case_decide as Hcount.
    + inv_ok. by apply Hnone; split.
    + destruct (into_raw _ m) as [p m2] eqn:Hr. apply into_raw_spec in Hr as [Hp ->]. inv_ok.
      eexists (Some (p, _)). split_and!; [|done|done]. split; [|done]. intros m1. cbn [free wallet_ffi_free_account_list ffi_count ffi_entries].
      by rewrite decide_True by lia.
  - apply returns_ok in Hc as [Hc|[_ [= -> ->]]]; [|by apply Hnone; split]. inv_ok.
    destruct (account_to_ffi _ m) eqn:Ha. inv_ok. by eapply account_owned.
  - apply returns_ok in Hc as [Hc|[_ [= -> ->]]]; [|by apply Hnone; split]. inv_ok.
    destruct (account_to_ffi _ m) eqn:Ha. inv_ok. by eapply account_owned.
  - apply returns_ok in Hc as [Hc|[_ [= -> -> ->]]]; [|by apply Hnone; split]. inv_ok. cbv zeta in *. inv_ok.
    repeat (case_match; simplify_eq; inv_ok). eapply keys_owned; [eassumption|by apply Hk].
  - apply returns_ok in Hc as [Hc|[_ [= -> ->]]]; [|by apply Hnone; split]. inv_ok.
    destruct (keys_to_ffi _ m) eqn:Ha. inv_ok. eapply keys_owned; [eassumption|by apply Hk].
Qed.

(** What the client holds owns the memory, each its own part. *)
Abbreviation cells os := (omap (fun o : option (positive * Object) => o) os).
Definition owned_by (held : list Handed) (m : CMemory) : Prop :=
  exists os, Forall2 owns held os /\ NoDup (cells os).*1 /\ m = list_to_map (cells os).

Lemma owned_by_perm held held' m : held ≡ₚ held' -> owned_by held m -> owned_by held' m.
Proof.
  intros Hp (os & Hos & Hnd & ->). eapply Permutation_Forall2 in Hos as (os' & Hos' & Ho); [|exact Hp].
  assert (cells os ≡ₚ cells os') as Hc by (by rewrite Hos').
  exists os'. split_and!; [done|by rewrite <- Hc|by apply list_to_map_proper].
Qed.
Lemma owned_by_add held m h o : owned_by held m -> owns h o -> is_new o m -> owned_by (h :: held) (add_owned o m).
Proof.
  intros (os & Hos & Hnd & ->) Ho Hn. exists (o :: os). split; [by constructor|]. destruct o as [[p x]|]; [|done]. cbn.
  split; [|done]. constructor; [|done]. by apply not_elem_of_list_to_map.
Qed.
Lemma owned_by_free held m h : owned_by (h :: held) m -> exists m', free h m = Ok m' /\ owned_by held m'.
Proof.
  intros (os & Hos & Hnd & ->). inversion Hos as [|? o ? os' Ho Hos']; subst. rewrite (proj1 Ho).
  destruct o as [[p x]|]; cbn in *; [|by eexists; split; [|by eexists]].
  apply NoDup_cons in Hnd as [Hp Hnd]. exists (list_to_map (cells os')).
  rewrite drop_inserted by (by apply not_elem_of_list_to_map). split; [done|]. by exists os'.
Qed.
Lemma client_owned held m : client held m -> owned_by held m.
Proof.
  induction 1 as [|held m h m' _ IH Hh|held h held' m m' _ IH Hf]; [exists []; split_and!; [done|constructor|done]| |].
  - apply hands_out_owned in Hh as (o & Ho & Hn & ->). by apply owned_by_add.
  - apply owned_by_perm with (held' := h :: held ++ held') in IH; [|by rewrite Permutation_middle].
    apply owned_by_free in IH as (m1 & Hf1 & Ho). rewrite Hf in Hf1. by injection Hf1 as ->.
Qed.
Lemma free_all_owned held m : owned_by held m -> free_all held m = Ok ∅.
Proof.
  revert m. induction held as [|h held IH]; intros m Ho.
  - destruct Ho as (os & Hos & _ & ->). by inversion Hos.
  - apply owned_by_free in Ho as (m' & Hf & Ho). cbn [free_all]. rewrite Hf. by apply IH.
Qed.

(** Reading it back does not go wrong. *)
Definition readable (h : Handed) (m : CMemory) : Prop :=
  match h with
  | HandedAccount a => forall msg, account_from_ffi a m <> Panic msg
  | HandedKeys k => forall msg, keys_vpk k m <> Panic msg
  | _ => True
  end.
Lemma owned_readable h held m : owned_by (h :: held) m -> readable h m.
Proof.
  intros (os & Hos & _ & ->). inversion Hos as [|? o ? os' [_ Ho] _]; subst.
  destruct h as [| | |a|k]; cbn [readable]; try done; intros msg.
  - unfold account_from_ffi. case_decide; [|done]. destruct Ho as (p & l & -> & -> & Hl). cbn [omap list_omap list_to_map foldr].
    cbn. rewrite raw_bytes_inserted by done. cbn. unfold Data_try_from. by case_decide.
  - unfold keys_vpk. destruct (decide (_ = 33)); [|done]. rewrite decide_True in Ho by lia. destruct Ho as (p & l & -> & -> & Hl). cbn.
    by rewrite raw_bytes_inserted.
Qed.

(** C34. A client that frees each result once, with the function for it, never reaches
    undefined behaviour and leaks nothing: whatever calls it made, in any order, with
    null pointers, errors and failures of the node among them, and whatever it freed
    in between, what it holds can be freed in any order, which leaves no memory
    allocated; and the accounts and keys it holds can be read until then. *)
Theorem ffi_memory_safe held m :
  client held m ->
  (forall order, order ≡ₚ held -> free_all order m = Ok ∅) /\ Forall (fun h => readable h m) held.
Proof.
  intros Hc%client_owned. split.
  - intros order Hp. apply free_all_owned. by eapply owned_by_perm.
  - apply Forall_forall. intros h Hh. apply elem_of_Permutation in Hh as [held' Hp].
    eapply owned_readable, owned_by_perm; [exact Hp|exact Hc].
Qed.
End Client.
