(* ===== verification/SharedTheorems.v ===== *)
(** Groups and their shared accounts: what the members of a group agree on after an
    invitation, and what synchronisation stores for a shared account. *)

From S2P Require Import Prelude Bytes Crypto Account Ids ProgramCore Borsh MerkleTree Host State Encryption CircuitIo Circuit Transactions Prover StateDiffs NativePrograms Chain ChainIndex KeyDerivation GroupKeys KeyTree UserKeyChain WalletSync TextForms KeyTreeFacts StorageFacts WalletFacts SyncFacts WalletTheorems WalletTx WalletFacades WalletLoops WalletCommands AccountCommands.

(** ** Synchronisation of shared accounts *)
Section Shared.
Context `{HmacSha512, K256, Sha256, ChaCha20}.
Implicit Types (k : UserKeyChain) (m : PrivacyMessage).
Abbreviation shared_key := (AccountId * NullifierPublicKey * ViewingPublicKey * ViewingSecretKey)%type.

(** Output [j] decrypts under the keys of a shared account, whatever kind of
    account it is for. *)
Definition shared_decodes m (e : shared_key) (j : nat) (a : Account) : Prop := exists o s comm kind,
  encrypted_private_post_states m !! j = Some o /\ view_tag o = compute_view_tag e.1.1.2 e.1.2 /\
  SharedSecretKey_new e.2 (epk_bytes (epk o)) = Ok s /\ priv_new_commitments m !! j = Some comm /\
  decrypt (ciphertext o) s comm (Z.of_nat j) = Some (kind, a).
(** Every output with the view tag of the keys can be decoded. *)
Definition shared_readable m (e : shared_key) : Prop := forall j o,
  encrypted_private_post_states m !! j = Some o -> view_tag o = compute_view_tag e.1.1.2 e.1.2 ->
  is_Some (priv_new_commitments m !! j) /\ Z.of_nat j < 2 ^ 32 /\
  exists s, SharedSecretKey_new e.2 (epk_bytes (epk o)) = Ok s.

Definition store_shared k (e : shared_key) (l : list Account) : UserKeyChain :=
  foldl (fun k a => update_shared_private_account_state k e.1.1.1 a) k l.

Lemma update_shared_spec m e : shared_readable m e -> forall outputs n k,
  (forall j, outputs !! j = encrypted_private_post_states m !! (n + j)%nat) ->
  exists l, update_shared e.1.1.1 e.1.1.2 e.1.2 e.2 (priv_new_commitments m) n outputs k = Ok (store_shared k e l) /\
    forall a, a ∈ l <-> exists j, (n <= j)%nat /\ shared_decodes m e j a.
Proof.
  intros Hread. induction outputs as [|o outputs IH]; intros n k Hat.
  { exists []. split; [done|]. intros a. split; [by intros ?%elem_of_nil|].
    intros (j & Hj & o & _ & _ & _ & Ho & _). specialize (Hat (j - n)%nat).
    rewrite Nat.add_comm, Nat.sub_add in Hat by done. rewrite lookup_nil in Hat. congruence. }
  assert (Ho : encrypted_private_post_states m !! n = Some o).
  { specialize (Hat 0%nat). by rewrite Nat.add_0_r in Hat. }
  assert (Hrest : forall j, outputs !! j = encrypted_private_post_states m !! (S n + j)%nat).
  { intros j. specialize (Hat (S j)). rewrite Nat.add_succ_r in Hat. exact Hat. }
  pose proof (fun P => exists_from P n) as Hmore.
  cbn [update_shared]. case_decide as Htag.
  - destruct (Hread n o Ho Htag) as ([comm Hc] & Hn & s & Hs). rewrite Hs. cbn [mbind outcome_bind].
    rewrite Hc. cbn [expect mbind outcome_bind]. rewrite decide_True by done. cbn [expect mbind outcome_bind].
    destruct (decrypt (ciphertext o) s comm (Z.of_nat n)) as [[kind a]|] eqn:Hd.
    + destruct (IH (S n) (update_shared_private_account_state k e.1.1.1 a) Hrest) as (l & -> & Hl).
      exists (a :: l). split; [done|]. intros a'. rewrite elem_of_cons, Hl, Hmore. split; (intros [Ha|?]; [left|by right]).
      * subst a'. by exists o, s, comm, kind.
      * destruct Ha as (o' & s' & comm' & kind' & Ho' & _ & Hs' & Hc' & Hd'). congruence.
    + destruct (IH (S n) k Hrest) as (l & -> & Hl). exists l. split; [done|]. intros a'. rewrite Hl, Hmore.
      split; [by right|]. intros [(o' & s' & comm' & kind' & Ho' & _ & Hs' & Hc' & Hd')|?]; [congruence|done].
  - cbn [mbind outcome_bind]. destruct (IH (S n) k Hrest) as (l & -> & Hl). exists l. split; [done|]. intros a'. rewrite Hl, Hmore.
    split; [by right|]. intros [(o' & s' & comm' & kind' & Ho' & Ht & _)|?]; [congruence|done].
Qed.

(** Only the shared account with the id of the keys changes. *)
Lemma store_shared_frame e l : forall k, exists f, store_shared k e l = with_shared f k /\
  forall id, id <> e.1.1.1 -> f (shared_private_accounts k) !! id = shared_private_accounts k !! id.
Proof.
  induction l as [|a l IH]; intros k; [exists (fun t => t); by destruct k|].
  destruct (IH (update_shared_private_account_state k e.1.1.1 a)) as (f & Hf & Hid).
  exists (fun t => f (alter (set_shared_account a) e.1.1.1 t)). split; [exact Hf|]. intros id Hne.
  etrans; [by apply Hid|]. by apply lookup_alter_ne.
Qed.
Lemma store_shared_last e l a entry : forall k,
  (forall a', a' ∈ l -> a' = a) ->
  (l <> [] /\ shared_private_accounts k !! e.1.1.1 = Some entry \/
   shared_private_accounts k !! e.1.1.1 = Some (set_shared_account a entry)) ->
  shared_private_accounts (store_shared k e l) !! e.1.1.1 = Some (set_shared_account a entry).
Proof.
  induction l as [|a' l IH]; intros k Hall Hk; [by destruct Hk as [[]|]|].
  rewrite (Hall a') in * by by left. apply IH; [intros b Hb; apply Hall; by right|]. right.
  cbn [update_shared_private_account_state with_shared shared_private_accounts]. rewrite lookup_alter_eq.
  by destruct Hk as [[_ ->]| ->].
Qed.

Lemma shared_fold m id entry a : forall es k,
  (forall e, e ∈ es -> shared_readable m e) ->
  (forall e, e ∈ es -> e.1.1.1 = id -> (exists j, shared_decodes m e j a) /\ forall j a', shared_decodes m e j a' -> a' = a) ->
  (shared_private_accounts k !! id = Some entry /\ (exists e, e ∈ es /\ e.1.1.1 = id) \/
   shared_private_accounts k !! id = Some (set_shared_account a entry)) ->
  exists f, fold_o (fun k (e : shared_key) =>
      update_shared e.1.1.1 e.1.1.2 e.1.2 e.2 (priv_new_commitments m) 0 (encrypted_private_post_states m) k) k es =
    Ok (with_shared f k) /\ f (shared_private_accounts k) !! id = Some (set_shared_account a entry).
Proof.
  induction es as [|e es IH]; intros k Hread Hid Hk.
  { exists (fun t => t). split; [by destruct k|]. by destruct Hk as [[_ (e & Hin%elem_of_nil & _)]|]. }
  destruct (update_shared_spec m e (Hread e (list_elem_of_here e es)) (encrypted_private_post_states m) 0 k ltac:(done))
    as (l & Hl & Hmem). destruct (store_shared_frame e l k) as (f & Hf & Hframe).
  destruct (IH (store_shared k e l)) as (g & Hg & Hgid).
  - intros e' He'. apply Hread. by right.
  - intros e' He'. apply Hid. by right.
  - destruct (decide (e.1.1.1 = id)) as [Heq|Hne].
    + right. subst id. destruct (Hid e (list_elem_of_here e es) eq_refl) as [[j Hj] Honly]. apply store_shared_last.
      * intros a' (i & _ & Hi)%Hmem. by eapply Honly.
      * destruct Hk as [[Hk _]|Hk]; [left|by right]. split; [|done]. intros ->.
        apply (not_elem_of_nil a), Hmem. exists j. split; [lia|done].
    + rewrite Hf. cbn [with_shared shared_private_accounts]. rewrite Hframe by congruence.
      destruct Hk as [[Hk (e' & He' & Heq)]|Hk]; [left|by right]. split; [done|]. exists e'. split; [|done].
      apply elem_of_cons in He' as [->|He']; [congruence|done].
  - cbn [fold_o]. rewrite Hl. cbn [mbind outcome_bind]. rewrite Hg. rewrite Hf in *. exists (fun t => g (f t)). by destruct k.
Qed.

(** The keys that are scanned are those of the entries. *)
Lemma fold_app_mem {A B} (f : A -> guest (list B)) : forall l acc,
  (forall a, a ∈ l -> exists r, f a = Ok r) ->
  exists r, fold_o (fun acc a => l ← f a; Ok (acc ++ l)) acc l = Ok r /\
    forall b, b ∈ r <-> b ∈ acc \/ exists a r', a ∈ l /\ f a = Ok r' /\ b ∈ r'.
Proof.
  induction l as [|a l IH]; intros acc Hall; cbn [fold_o].
  { exists acc. split; [done|]. intros b. split; [by left|]. intros [|(a & r & Ha%elem_of_nil & _)]; done. }
  destruct (Hall a (list_elem_of_here a l)) as [ra Hra]. rewrite Hra. cbn [mbind outcome_bind].
  destruct (IH (acc ++ ra)) as (r & Hr & Hmem); [intros a' Ha'; apply Hall; by right|]. exists r. split; [exact Hr|].
  intros b. rewrite Hmem, elem_of_app. split.
  - intros [[|]|(a' & r' & Ha' & Hr' & Hb)]; [by left|right; by exists a, ra; split; [left|]|].
    right. exists a', r'. split; [by right|done].
  - intros [|(a' & r' & [->|Ha']%elem_of_cons & Hr' & Hb)]; [by left; left| |right; by exists a', r'].
    left. right. congruence.
Qed.
End Shared.

(** ** What is stored for a shared account *)
Section SharedSync.
Context `{HmacSha512, K256, !K256Laws, Sha256, ChaCha20}.
Implicit Types (k : UserKeyChain) (m : PrivacyMessage).

Lemma sent_shared_decodes m id (keys : PrivateKeyHolder) vpk kc j esk kind a :
  generate_viewing_public_key keys = Ok vpk ->
  nullifier_public_key kc = generate_nullifier_public_key keys -> viewing_public_key kc = vpk ->
  is_Some (secret_key_from_bytes (viewing_secret_key keys)) -> is_Some (secret_key_from_bytes esk) ->
  Account_wf a -> PrivateAccountKind_wf kind -> sent m j kc esk kind a ->
  shared_decodes m (id, generate_nullifier_public_key keys, vpk, viewing_secret_key keys) j a.
Proof.
  intros Hvpk Hnpk Hv Hvsk Hesk Ha Hkind (s & p & ct & comm & Hs & Hct & Hcomm & Ho).
  destruct (shared_secret_agreement _ _ Hvsk Hesk) as (pa & pb & s' & Hpa & Hpb & Hs1 & Hs2).
  unfold generate_viewing_public_key in Hvpk. rewrite Hpa in Hvpk. injection Hvpk as <-.
  apply bind_ok in Hs as (s2 & Hs & (p2 & Hp & [= <- <-])%bind_ok). rewrite Hpb in Hp. injection Hp as <-.
  rewrite Hv in Hs. cbn [vpk_bytes] in Hs. rewrite Hs2 in Hs. injection Hs as <-. rewrite Hnpk, Hv in Ho.
  eexists _, s', comm, kind. split; [exact Ho|]. split; [done|]. split; [exact Hs1|]. split; [done|].
  by apply decrypt_of_encrypt.
Qed.

(** Shared accounts whose keys can be derived and whose outputs can be decoded. *)
Definition shared_scannable k m : Prop := forall id entry, shared_private_accounts k !! id = Some entry ->
  exists l, shared_keys_of k id entry = Ok l /\ forall e, e ∈ l -> shared_readable m e.

Lemma shared_keys_mem k m : shared_scannable k m ->
  exists es, shared_keys k = Ok es /\ (forall e, e ∈ es -> shared_readable m e) /\
    forall e, e ∈ es <-> exists id entry l, shared_private_accounts k !! id = Some entry /\
      shared_keys_of k id entry = Ok l /\ e ∈ l.
Proof.
  intros Hscan. destruct (fold_app_mem (fun e => shared_keys_of k e.1 e.2) (BTree.iter (shared_private_accounts k)) [])
    as (es & Hes & Hmem).
  { intros [id entry] Hin%BTree.elem_of_iter. destruct (Hscan id entry Hin) as (l & Hl & _). by exists l. }
  assert (Hiff : forall e, e ∈ es <-> exists id entry l, shared_private_accounts k !! id = Some entry /\
      shared_keys_of k id entry = Ok l /\ e ∈ l).
  { intros e. rewrite Hmem. split.
    - intros [He%elem_of_nil|([id entry] & l & Hin%BTree.elem_of_iter & Hl & He)]; [done|]. by exists id, entry, l.
    - intros (id & entry & l & Hin & Hl & He). right. exists (id, entry), l. split; [by apply BTree.elem_of_iter|done]. }
  exists es. split; [exact Hes|]. split; [|exact Hiff]. intros e (id & entry & l & Hin & Hl & He)%Hiff.
  destruct (Hscan id entry Hin) as (l' & Hl' & Hall). apply Hall. congruence.
Qed.

Lemma shared_keys_id k id entry l e : shared_keys_of k id entry = Ok l -> e ∈ l -> e.1.1.1 = id.
Proof.
  unfold shared_keys_of. destruct (group_key_holder _ _) as [holder|]; [|by intros [= <-] ?%elem_of_nil].
  destruct (shared_pda_seed entry) as [sd|], (shared_pda_program_id entry) as [pid|]; cbv beta iota;
    first [by intros [= <-] ?%elem_of_nil|intros (vpk & _ & [= <-])%bind_ok; by intros ->%list_elem_of_singleton].
Qed.

(** C36. A shared account takes the state of any output for its keys: when a wallet
    that does not own the outputs of a transaction itself synchronises with it, and
    output [j] was made for the keys of a shared account, whatever the kind of
    account the sender made it for, the wallet stores the state of that output
    for the shared account and from then on looks for the commitment of that state
    under the id of the shared account.  The keys of the group can be derived,
    and no other output for these keys has another state. *)
Theorem shared_account_takes_any_output k tx id entry (keys : PrivateKeyHolder) vpk kc j esk kind a :
  affected_accounts k (priv_message tx) = Ok [] ->
  shared_private_accounts k !! id = Some entry ->
  generate_viewing_public_key keys = Ok vpk ->
  shared_keys_of k id entry = Ok [(id, generate_nullifier_public_key keys, vpk, viewing_secret_key keys)] ->
  nullifier_public_key kc = generate_nullifier_public_key keys -> viewing_public_key kc = vpk ->
  is_Some (secret_key_from_bytes (viewing_secret_key keys)) -> is_Some (secret_key_from_bytes esk) ->
  Account_wf a -> PrivateAccountKind_wf kind -> sent (priv_message tx) j kc esk kind a ->
  shared_scannable k (priv_message tx) ->
  (forall i b, shared_decodes (priv_message tx) (id, generate_nullifier_public_key keys, vpk, viewing_secret_key keys) i b ->
     b = a) ->
  exists k', sync_private_accounts_with_tx k (PrivacyPreserving tx) = Ok k' /\
    shared_private_account k' id = Some (set_shared_account a entry) /\
    (private_account k id = None -> get_private_account_commitment k' id = Some (Commitment_new id a)).
Proof.
  intros Haff Hentry Hvpk Hkeys Hnpk Hv Hvsk Hesk Ha Hkind Hsent Hscan Honly.
  pose proof (sent_shared_decodes _ id keys vpk kc j esk kind a Hvpk Hnpk Hv Hvsk Hesk Ha Hkind Hsent) as Hj.
  destruct (shared_keys_mem k _ Hscan) as (es & Hes & Hread & Hmem).
  assert (Hid : forall e, e ∈ es -> e.1.1.1 = id -> e = (id, generate_nullifier_public_key keys, vpk, viewing_secret_key keys)).
  { intros e (id' & entry' & l & Hin & Hl & He)%Hmem Heq. rewrite (shared_keys_id _ _ _ _ _ Hl He) in Heq. subst id'.
    rewrite Hentry in Hin. injection Hin as <-. rewrite Hkeys in Hl. injection Hl as <-. by apply list_elem_of_singleton. }
  destruct (shared_fold (priv_message tx) id entry a es k Hread) as (f & Hrun & Hf).
  - intros e He Heq. rewrite (Hid e He Heq). split; [by exists j|exact Honly].
  - left. split; [done|]. exists (id, generate_nullifier_public_key keys, vpk, viewing_secret_key keys). split; [|done].
    apply Hmem. eexists _, _, _. split; [exact Hentry|]. split; [exact Hkeys|]. by apply list_elem_of_singleton.
  - exists (with_shared f k). split; [|split; [exact Hf|]].
    + cbn [sync_private_accounts_with_tx]. rewrite Haff. cbn [mbind outcome_bind fold_o].
      unfold sync_shared_private_accounts_with_tx. rewrite Hes. exact Hrun.
    + intros Hnone. unfold get_private_account_commitment. change (private_account (with_shared f k) id) with (private_account k id).
      rewrite Hnone. unfold shared_private_account. cbn [with_shared shared_private_accounts]. by rewrite Hf.
Qed.
End SharedSync.

(** ** Members of a group *)
Section Groups.
Context `{HmacSha512, K256, !K256Laws, Sha256, AesGcm, !AesGcmLaws, Hex, !HexLaws, StorageFile} {E : Type}.
Implicit Types s : Storage.

(** Accounts that two wallets registered under names for the same group. *)
Lemma resolve_created k k' name name' h id i seed program a a' :
  group_key_holder k name = Some h -> group_key_holder k' name' = Some h ->
  private_account k id = None -> private_account k' id = None ->
  resolve_private_account (insert_shared_private_account k' id (mk_SharedEntry name' i seed program a')) id =
  resolve_private_account (insert_shared_private_account k id (mk_SharedEntry name i seed program a)) id.
Proof.
  intros Hg Hg' Hn Hn'. unfold resolve_private_account, shared_private_account.
  change (private_account (insert_shared_private_account ?k id ?e) id) with (private_account k id).
  change (group_key_holder (insert_shared_private_account ?k id ?e) ?l) with (group_key_holder k l).
  cbn [insert_shared_private_account with_shared shared_private_accounts]. rewrite Hn, Hn', !lookup_insert_eq.
  cbn [group_label]. rewrite Hg, Hg'. reflexivity.
Qed.

Lemma save_then `{StorageFile} {A} s (v : A) : (save (E := E) ;; mret v) s = Ok (s, written s v).
Proof. unfold written, save, store_persistent_data, mbind, cmd_bind, reading, read_result. by destruct (save_to_path s). Qed.

(** C35. An invitation through the command line makes a member: a wallet without
    sealing key creates one and prints its public part; whoever holds a group seals
    the group secret for that text; joining with the printed message succeeds;
    and from then on both wallets, each under its own name for the group, derive
    the same id and keys for every shared account, and use the same keys
    to spend from it.  (A wallet whose storage file cannot be written reports that
    after each of its two steps, and has the same storage in memory.) *)
Theorem invited_members_share_accounts sa sb name name' h (rnga rngb : GroupCommand.Randomness) :
  group_key_holder (key_chain sa) name = Some h -> length (gms h) = 32%nat ->
  group_key_holder (key_chain sb) name' = None -> sealing_secret_key (key_chain sb) = None ->
  is_Some (secret_key_from_bytes (GroupCommand.random_secret rngb)) ->
  is_Some (secret_key_from_bytes (GroupCommand.random_scalar rnga)) ->
  length (GroupCommand.random_nonce rnga) = 12%nat ->
  exists key sb1 sealed sb2,
    GroupCommand.handle (E := E) rngb GroupCommand.NewSealingKey sb = Ok (sb1, written sb1 (Some key)) /\
    GroupCommand.handle (E := E) rnga (GroupCommand.Invite name key) sa = Ok (sa, Ok (Some sealed)) /\
    GroupCommand.handle (E := E) rngb (GroupCommand.Join name' sealed) sb1 = Ok (sb2, written sb2 None) /\
    labels sb2 = labels sb /\
    forall seed program i,
      let pda := create_shared_pda_account (key_chain sa) name seed program i in
      let regular := create_shared_regular_account (key_chain sa) name i in
      let pda' := create_shared_pda_account (key_chain sb2) name' seed program i in
      let regular' := create_shared_regular_account (key_chain sb2) name' i in
      snd <$> pda' = snd <$> pda /\ snd <$> regular' = snd <$> regular /\
      forall ka kb info, (pda = Ok (ka, info) /\ pda' = Ok (kb, info)) \/ (regular = Ok (ka, info) /\ regular' = Ok (kb, info)) ->
        private_account (key_chain sa) (info_account_id info) = None ->
        private_account (key_chain sb) (info_account_id info) = None ->
        resolve_private_account kb (info_account_id info) = resolve_private_account ka (info_account_id info).
Proof.
  intros Hga Hgms Hgb Hkb Hsecret Hscalar Hnonce.
  destruct (shared_secret_agreement _ _ Hsecret Hscalar) as (po & pe & sh & Hpo & Hpe & Hso & Hse).
  destruct (unseal_seal_ok h (GroupCommand.random_secret rngb) (GroupCommand.random_scalar rnga)
    (GroupCommand.random_nonce rnga) Hgms Hnonce Hsecret Hscalar) as (key & sealed & Hkey & Hsealed & _ & Hunseal & _).
  pose (k1 := set_sealing_secret_key (key_chain sb) (GroupCommand.random_secret rngb)).
  exists (hex_encode (sealing_bytes key)), (with_key_chain k1 sb), (hex_encode sealed),
    (with_key_chain (insert_group_key_holder k1 name' h) sb).
  split; [|split; [|split; [|split]]].
  - unfold GroupCommand.handle, mbind, cmd_bind, reading, read_result. rewrite Hkb, bool_decide_false by (by intros []).
    cbn [negb ensure mbind outcome_bind]. rewrite Hkey. cbn [lift_guest mbind outcome_bind on_key_chain]. apply save_then.
  - unfold GroupCommand.handle, mbind, cmd_bind, reading, read_result. rewrite Hga. cbn [ok_or mbind outcome_bind].
    rewrite hex_decode_encode. cbn [ok_or mbind outcome_bind]. destruct key as [key]. cbn [sealing_bytes]. by rewrite Hsealed.
  - unfold GroupCommand.handle, GroupCommand.free_name, GroupCommand.insert_holder, mbind, cmd_bind, reading, read_result.
    change (group_key_holder (key_chain (with_key_chain k1 sb)) name') with (group_key_holder (key_chain sb) name').
    rewrite Hgb, bool_decide_false by (by intros []). cbn [negb ensure mbind outcome_bind].
    change (GroupCommand.sealing_secret_key_of (E := E) (with_key_chain k1 sb)) with (Ok (E := CliError E) (GroupCommand.random_secret rngb)).
    cbn [mbind outcome_bind]. rewrite hex_decode_encode. cbn [ok_or mbind outcome_bind]. rewrite Hunseal.
    cbn [map_err mbind outcome_bind on_key_chain]. apply save_then.
  - done.
  - intros seed program i.
    assert (Hgb' : group_key_holder (key_chain (with_key_chain (insert_group_key_holder k1 name' h) sb)) name' = Some h).
    { apply lookup_insert_eq. }
    cbv zeta. unfold create_shared_pda_account, create_shared_regular_account. rewrite Hga, Hgb'.
    cbn [ok_or mbind outcome_bind].
    split; [by destruct (generate_viewing_public_key _)|]. split; [by destruct (generate_viewing_public_key _)|].
    intros ka kb info Hcases Hna Hnb. destruct Hcases as [Hcase|Hcase];
      destruct (generate_viewing_public_key _) as [vpk|[]|msg]; try (by destruct Hcase);
      destruct Hcase as [[= <- <-] [= <-]]; cbn [info_account_id] in *; by apply (resolve_created (key_chain sa) _ name name' h).
Qed.
End Groups.
