(* ===== verification/AccountTheorems.v ===== *)
(** The commands of the wallet on its own storage keep it well formed, and what they
    leave in memory when they fail. *)

From S2P Require Import Prelude Bytes Crypto Account Ids ProgramCore Borsh MerkleTree Host State Encryption CircuitIo Circuit Transactions Prover StateDiffs NativePrograms Approval Token Amm TokenClients Chain ChainIndex KeyDerivation GroupKeys KeyTree UserKeyChain WalletSync TextForms KeyTreeFacts KeyTreeTheorems StorageFacts WalletFacts SyncFacts WalletTheorems WalletTx WalletTxTheorems WalletFacades WalletLoops WalletCommands AccountCommands WalletCli.

(** ** Labels *)
Section Labels.
Context {E : Type}.

(** [s'] is [s] with another key chain and, when asked for, a new label for [id]. *)
Record registered (s s' : Storage) (label : option Label) (id : AccountIdWithPrivacy) : Prop := {
  registered_labels : labels s' = match label with Some l => <[l := id]> (labels s) | None => labels s end;
  registered_fresh l : label = Some l -> labels s !! l = None;
  registered_synced : last_synced_block s' = last_synced_block s;
}.
Lemma registered_subset s s' label id : registered s s' label id -> labels s ⊆ labels s'.
Proof. intros [-> Hfresh _]. destruct label as [l|]; [|done]. by apply insert_subseteq, Hfresh. Qed.
Lemma registered_key_chain k s s' label id : registered (with_key_chain k s) s' label id -> registered s s' label id.
Proof. by intros [? ? ?]. Qed.
End Labels.

(** ** Steps of a command *)
Section Steps.
Context `{StorageFile} {E : Type}.
Implicit Types s : Storage.

Lemma cmd_bind_ok {A B} (m : cmd E A) (f : A -> cmd E B) s s' r : (m ≫= f) s = Ok (s', r) ->
  (exists s1 a, m s = Ok (s1, Ok a) /\ f a s1 = Ok (s', r)) \/ (exists e, m s = Ok (s', Err e) /\ r = Err e).
Proof.
  unfold mbind, cmd_bind. intros ([s1 [a|e|msg]] & Hm & Hf)%bind_ok; [left; by exists s1, a| |done].
  injection Hf as <- <-. right. by exists e.
Qed.
Lemma reading_ok {A} (f : Storage -> outcome (CliError E) A) s s' r : reading f s = Ok (s', r) -> s' = s /\ f s = r.
Proof. unfold reading, read_result. destruct (f s); intros [= <- <-]; done. Qed.
Lemma reading_bind {A B} (f : Storage -> outcome (CliError E) A) (g : A -> cmd E B) s s' r :
  (reading f ≫= g) s = Ok (s', r) ->
  (exists a, f s = Ok a /\ g a s = Ok (s', r)) \/ (s' = s /\ exists e, f s = Err e /\ r = Err e).
Proof.
  intros [(s1 & a & [-> Hf]%reading_ok & Hg)|(e & [-> Hf]%reading_ok & ->)]%cmd_bind_ok; [left; by exists a|].
  right. split; [done|]. by exists e.
Qed.
(** Steps that only panic. *)
Lemma expect_bind {A B} (o : Storage -> option A) msg (g : A -> cmd E B) s s' r :
  (reading (fun s => expect (o s) msg) ≫= g) s = Ok (s', r) -> exists a, o s = Some a /\ g a s = Ok (s', r).
Proof.
  intros [(a & Ha%expect_ok & Hg)|(_ & e & He & _)]%reading_bind; [by exists a|]. by destruct (o s).
Qed.
Lemma guest_bind {A B} (m : guest A) (g : A -> cmd E B) s s' r :
  (reading (fun _ => lift_guest m) ≫= g) s = Ok (s', r) -> exists a, m = Ok a /\ g a s = Ok (s', r).
Proof.
  intros [(a & Ha%lift_guest_ok & Hg)|(_ & e & He & _)]%reading_bind; [by exists a|]. by destruct m as [|[]|].
Qed.
Lemma key_chain_bind {A B} (f : UserKeyChain -> outcome (CliError E) (UserKeyChain * A)) (g : A -> cmd E B) s s' r :
  (on_key_chain f ≫= g) s = Ok (s', r) ->
  (exists k a, f (key_chain s) = Ok (k, a) /\ g a (with_key_chain k s) = Ok (s', r)) \/ (s' = s /\ exists e, r = Err e).
Proof.
  intros [(s1 & a & Hf & Hg)|(e & Hf & ->)]%cmd_bind_ok; unfold on_key_chain in Hf;
    destruct (f (key_chain s)) as [[k b]|e'|]; try discriminate Hf; injection Hf as <- <-.
  - left. by exists k, b.
  - right. split; [done|]. by eexists.
Qed.
Lemma key_chain_guest_bind {A B} (f : UserKeyChain -> guest (UserKeyChain * A)) (g : A -> cmd E B) s s' r :
  (on_key_chain (fun k => lift_guest (f k)) ≫= g) s = Ok (s', r) ->
  exists k a, f (key_chain s) = Ok (k, a) /\ g a (with_key_chain k s) = Ok (s', r).
Proof.
  intros [(s1 & a & Hf & Hg)|(e & Hf & ->)]%cmd_bind_ok; unfold on_key_chain in Hf;
    destruct (f (key_chain s)) as [[k b]|[]|]; try discriminate Hf; injection Hf as <- <-. by exists k, b.
Qed.
Lemma check_label_bind {B} label (g : () -> cmd E B) s s' r : (check_label label ≫= g) s = Ok (s', r) ->
  ((forall l, label = Some l -> labels s !! l = None) /\ g () s = Ok (s', r)) \/ (s' = s /\ exists e, r = Err e).
Proof.
  intros [([] & Hc & Hg)|(-> & e & _ & ->)]%reading_bind; [left|right; split; [done|by eexists]].
  split; [|done]. intros l ->. unfold check_label_availability in Hc. by destruct (labels s !! l).
Qed.
(** A free label is assigned. *)
Lemma assign_label_bind {B} label id (g : () -> cmd E B) s s' r :
  (forall l, label = Some l -> labels s !! l = None) -> (assign_label label id ≫= g) s = Ok (s', r) ->
  exists s1, key_chain s1 = key_chain s /\ registered s s1 label id /\ g () s1 = Ok (s', r).
Proof.
  intros Hfree. unfold mbind, cmd_bind, assign_label. intros ([s1 r1] & Ha & Hg)%bind_ok. destruct label as [l|].
  - unfold add_label in Ha. rewrite (Hfree l eq_refl) in Ha. injection Ha as <- <-. eexists. split; [|split; [|exact Hg]]; [done|].
    split; [done|by intros l' [= <-]; apply Hfree|done].
  - injection Ha as <- <-. exists s. split; [done|]. split; [|done]. by split.
Qed.
Lemma save_bind {A} (v : A) s s' r : (save (E := E) ;; mret v) s = Ok (s', r) ->
  s' = s /\ r = written s v.
Proof.
  unfold written, save, store_persistent_data. intros [([] & Hs & [= <- <-])|(-> & e & He & ->)]%reading_bind;
    destruct (save_to_path s); try discriminate; [done|by injection He as <-].
Qed.

(** How a command that changes the storage ends: it fails before it changes
    anything, or it ends by writing the changed storage, which may fail. *)
Definition ends {A} s (P : Storage -> A -> Prop) s' (r : outcome (CliError E) A) : Prop :=
  (s' = s /\ exists e, r = Err e) \/ exists v, P s' v /\ r = written s' v.
Lemma ends_err {A} s (P : Storage -> A -> Prop) e : ends s P s (Err e).
Proof. left. by split; [|eexists]. Qed.
Lemma ends_saved {A} s0 s (P : Storage -> A -> Prop) s' v r : (save (E := E) ;; mret v) s = Ok (s', r) -> P s v -> ends s0 P s' r.
Proof. intros [-> ->]%save_bind Hp. right. by exists v. Qed.
End Steps.

(** Next step of a command that has not failed. *)
Ltac fails := let e := fresh "e" in let H := fresh in intros H; destruct H as [-> [e ->]]; apply ends_err.
Ltac next_reading Hc :=
  apply reading_bind in Hc as [(? & ? & Hc)|[-> (? & _ & ->)]]; [|apply ends_err].
Ltac next_key_chain Hc k a H :=
  apply key_chain_bind in Hc as [(k & a & H & Hc)|[-> [? ->]]]; [|apply ends_err].

(** ** Single commands *)
Section Commands.
Context `{HmacSha512, K256, !K256Laws, Sha256, ChaCha20, ChainIndex.Itertools, !ChainIndex.ItertoolsLaws, Hex, Base58,
  KeyChainJson, StorageFile, OverflowChecks}.
Context {E : Type} `{!SequencerClient E, !ChainClient E}.
Implicit Types s : Storage.

Definition asked_label (c : AccountCommand.NewSubcommand) : option Label :=
  match c with
  | AccountCommand.NewPublic _ label | AccountCommand.NewPrivate _ label
  | AccountCommand.NewPrivateGms _ label _ _ _ _ => label
  | AccountCommand.NewPrivateAccountsKey _ => None
  end.

(** What a command for a new account has done when it writes the storage. *)
Definition new_account s (c : AccountCommand.NewSubcommand) s' (v : SubcommandReturnValue) : Prop :=
  (fits (key_chain s') -> wallet (key_chain s')) /\ exists id, registered s s' (asked_label c) id /\
    match v with RegisterAccount i => id = PublicId i \/ id = PrivateId i | _ => True end.

Lemma new_ends random_identifier s c s' r :
  wallet (key_chain s) -> AccountCommand.handle_new (E := E) random_identifier c s = Ok (s', r) ->
  ends s (new_account s c) s' r.
Proof.
  intros Hw Hc. destruct c as [cci label|cci label|group label pda seed program i|cci]; cbn [AccountCommand.handle_new asked_label] in *.
  - apply check_label_bind in Hc as [[Hfree Hc]|[-> [e ->]]]; [|apply ends_err].
    apply key_chain_guest_bind in Hc as (k & [id ci] & Hk & Hc). cbv beta iota in Hc.
    apply expect_bind in Hc as (key & _ & Hc). apply guest_bind in Hc as (pk & _ & Hc).
    apply assign_label_bind in Hc as (s1 & Hs & Hreg%registered_key_chain & Hc); [|done].
    eapply ends_saved; [exact Hc|]. split.
    + rewrite Hs. intros Hf. by eapply wallet_public_key.
    + exists (PublicId id). split; [done|by left].
  - apply check_label_bind in Hc as [[Hfree Hc]|[-> [e ->]]]; [|apply ends_err].
    apply key_chain_guest_bind in Hc as (k & [id ci] & Hk & Hc). cbv beta iota in Hc.
    apply assign_label_bind in Hc as (s1 & Hs & Hreg%registered_key_chain & Hc); [|done].
    apply expect_bind in Hc as (found & _ & Hc). eapply ends_saved; [exact Hc|]. split.
    + apply bind_ok in Hk as ([k1 c1] & Hk & (node & _ & (kind & _ & [= <- _ _])%bind_ok)%bind_ok).
      rewrite Hs. intros Hf. by eapply wallet_private_key.
    + exists (PrivateId id). split; [done|by right].
  - apply check_label_bind in Hc as [[Hfree Hc]|[-> [e ->]]]; [|apply ends_err].
    assert (Hshared : (exists k info, (fits k -> wallet k) /\
      (assign_label label (PrivateId (info_account_id info)) ;; save ;; mret (RegisterAccount (info_account_id info)))
        (with_key_chain k s) = Ok (s', r)) \/ (s' = s /\ exists e, r = Err e)).
    { apply cmd_bind_ok in Hc as [(s1 & info & Hk & Hc)|(e & Hk & ->)]; destruct pda.
      - apply reading_bind in Hk as [([sd pid] & _ & Hk)|(_ & e & _ & He)]; [|discriminate He]. cbv beta iota in Hk.
        unfold on_key_chain in Hk. destruct (create_shared_pda_account _ _ _ _ _) as [[k1 info1]| |] eqn:Hcr; [|done..].
        injection Hk as <- <-. left. exists k1, info1. split; [|exact Hc]. intros _. by eapply wallet_shared_pda.
      - unfold on_key_chain in Hk. destruct (create_shared_regular_account _ _ _) as [[k1 info1]| |] eqn:Hcr; [|done..].
        injection Hk as <- <-. left. exists k1, info1. split; [|exact Hc]. intros _. by eapply wallet_shared_regular.
      - right. split; [|by exists e]. apply reading_bind in Hk as [([sd pid] & _ & Hk)|[-> _]]; [|done]. cbv beta iota in Hk.
        unfold on_key_chain in Hk. destruct (create_shared_pda_account _ _ _ _ _) as [[k1 info1]| |]; [done| |done].
        by injection Hk as <- _.
      - right. split; [|by exists e]. unfold on_key_chain in Hk.
        destruct (create_shared_regular_account _ _ _) as [[k1 info1]| |]; [done| |done]. by injection Hk as <- _. }
    destruct Hshared as [(k & info & Hk & Hs)|[-> [e ->]]]; [|apply ends_err].
    apply assign_label_bind in Hs as (s1 & Hs1 & Hreg%registered_key_chain & Hs); [|done].
    eapply ends_saved; [exact Hs|]. split; [by rewrite Hs1|]. exists (PrivateId (info_account_id info)). split; [done|by right].
  - apply key_chain_guest_bind in Hc as (k & ci & Hk & Hc). apply expect_bind in Hc as (found & _ & Hc).
    eapply ends_saved; [exact Hc|]. split; [by intros Hf; eapply wallet_private_key|].
    exists (PublicId (AccountId_new [])). split; [by split|done].
Qed.

(** What the other commands may have done. *)
Definition new_keys {A} s s' (v : A) : Prop :=
  wallet (key_chain s') /\ labels s' = labels s /\ last_synced_block s' = last_synced_block s.
Lemma new_keys_ok {A} k s (v : A) : wallet k -> new_keys s (with_key_chain k s) v.
Proof. by split. Qed.

Lemma import_ends s c s' r :
  wallet (key_chain s) -> AccountCommand.handle_import (E := E) c s = Ok (s', r) -> ends s (new_keys s) s' r.
Proof.
  intros Hw Hc. destruct c as [key|json state index i]; cbn [AccountCommand.handle_import] in Hc.
  - next_key_chain Hc k u Hk. apply bind_ok in Hk as (k1 & Hk%lift_guest_ok & [= <- <-]).
    eapply ends_saved; [exact Hc|]. by eapply new_keys_ok, wallet_import_public.
  - next_reading Hc. apply guest_bind in Hc as (a & _ & Hc). next_key_chain Hc k u Hk. injection Hk as <- <-.
    eapply ends_saved; [exact Hc|]. by eapply new_keys_ok, wallet_import_private.
Qed.
End Commands.

Section GroupCommands.
Context `{HmacSha512, K256, Sha256, AesGcm, Hex, ChainIndex.Itertools, StorageFile, OverflowChecks} {E : Type}.
(** Listing and inviting write nothing. *)
Lemma group_ends rng s c s' text :
  wallet (key_chain s) -> GroupCommand.handle (E := E) rng c s = Ok (s', text) ->
  (s' = s /\ exists t, text = Ok t) \/ ends s (new_keys s) s' text.
Proof.
  intros Hw Hc. destruct c as [name| |name|name key|name sealed|]; cbn [GroupCommand.handle] in Hc;
    unfold GroupCommand.free_name, GroupCommand.insert_holder in Hc.
  - right. next_reading Hc. next_key_chain Hc k u Hk. injection Hk as <- <-. eapply ends_saved; [exact Hc|].
    by apply new_keys_ok, wallet_add_group.
  - injection Hc as <- <-. left. split; [done|by eexists].
  - right. next_key_chain Hc k removed Hk. unfold remove_group_key_holder in Hk. injection Hk as <- <-.
    apply reading_bind in Hc as [(h & Hh & Hc)|[-> (e & He & ->)]].
    + eapply ends_saved; [exact Hc|]. by apply new_keys_ok, (wallet_remove_group _ name).
    + left. split; [|by eexists]. destruct (group_key_holders (key_chain s) !! name) eqn:Hn; [done|].
      unfold with_key_chain, with_group_keys. rewrite (delete_id _ _ Hn). by destruct s as [[] ? ?].
  - apply reading_bind in Hc as [(holder & _ & Hc)|[-> (e & _ & ->)]]; [|right; apply ends_err].
    apply reading_bind in Hc as [(key' & _ & Hc)|[-> (e & _ & ->)]]; [|right; apply ends_err].
    apply guest_bind in Hc as (sealed & _ & Hc). injection Hc as <- <-. left. split; [done|by eexists].
  - right. next_reading Hc. next_reading Hc. next_reading Hc. next_reading Hc. next_key_chain Hc k u Hk. injection Hk as <- <-.
    eapply ends_saved; [exact Hc|]. by apply new_keys_ok, wallet_add_group.
  - right. next_reading Hc. cbv zeta in Hc. apply guest_bind in Hc as (pk & _ & Hc). next_key_chain Hc k u Hk. injection Hk as <- <-.
    eapply ends_saved; [exact Hc|]. by apply new_keys_ok, wallet_sealing.
Qed.
End GroupCommands.

(** ** The command line *)
Section Cli.
Context `{HmacSha512, K256, !K256Laws, Sha256, ChaCha20, AesGcm, Bip39, ChainIndex.Itertools, !ChainIndex.ItertoolsLaws,
  OverflowChecks, ZkVm, Serde ProgramOutput, CircuitProver, SchnorrSign, Borsh PrivacyMessage, Borsh PublicMessage,
  BuiltinPrograms, Hex, Base58, KeyChainJson, ConfigText, Borsh TokenHolding, Serde AuthTransfer.Instruction,
  Serde Pinata.Instruction, Serde Token.Instruction, Serde Amm.Instruction, Serde Ata.Instruction, StorageFile, ConfigFile}.
Context {E : Type} `{!SequencerClient E, !ChainClient E}.
Context (circuit_id : ProgramId) (random : nat -> list byte) (random_identifier : Identifier)
  (rng : GroupCommand.Randomness).

(** Commands that read no block and send no call of a program. *)
Definition local (c : Command) : bool :=
  match c with
  | ProgramCmd _ | AccountCmd AccountCommand.SyncPrivate | RestoreKeys _ _ => false
  | _ => true
  end.
(** The label that a command gives to an account. *)
Definition label_of (c : Command) : option Label :=
  match c with
  | AccountCmd (AccountCommand.New c) => asked_label c
  | AccountCmd (AccountCommand.SetLabel _ label) => Some label
  | _ => None
  end.

(** What one command does to the storage. *)
Definition named (s s' : Storage) (label : option Label) (v : SubcommandReturnValue) : Prop :=
  forall l, label = Some l -> labels s !! l = None /\ exists id, labels s' !! l = Some id /\
    match v with RegisterAccount i => id = PublicId i \/ id = PrivateId i | _ => True end.
Definition kept (s s' : Storage) (label : option Label) (r : outcome (CliError E) SubcommandReturnValue) : Prop :=
  wallet (key_chain s') /\ last_synced_block s' = last_synced_block s /\ labels s ⊆ labels s' /\
  match r with
  | Ok v => named s s' label v /\ (s' = s \/ save_to_path s' = true)
  | Err e => s' = s \/ e = StoreFailed s' /\ save_to_path s' = false /\ exists v, named s s' label v
  | Panic _ => False
  end.

Lemma kept_same s v : wallet (key_chain s) -> kept s s None (Ok v).
Proof. intros Hw. split_and!; try done. by left. Qed.
Lemma kept_err s label e : wallet (key_chain s) -> kept s s label (Err e).
Proof. intros Hw. split_and!; try done. by left. Qed.
Lemma kept_registered s s' label id v : registered s s' label id ->
  match v with RegisterAccount i => id = PublicId i \/ id = PrivateId i | _ => True end -> named s s' label v.
Proof.
  intros Hr Hv l ->. split; [by apply (registered_fresh _ _ _ _ Hr)|]. exists id.
  by rewrite (registered_labels _ _ _ _ Hr), lookup_insert_eq.
Qed.
(** From the way a command ends. *)
Lemma ends_kept s label (P : Storage -> SubcommandReturnValue -> Prop) s' r : wallet (key_chain s) -> fits (key_chain s') ->
  (forall v, P s' v -> fits (key_chain s') -> wallet (key_chain s') /\ last_synced_block s' = last_synced_block s /\
     labels s ⊆ labels s' /\ named s s' label v) ->
  ends s P s' r -> kept s s' label r.
Proof.
  intros Hw Hfits Hp [[-> [e ->]]|(v & Hv & ->)]; [by apply kept_err|].
  destruct (Hp v Hv Hfits) as (Hw' & Hs & Hl & Hn). split; [done|]. split; [done|]. split; [done|].
  unfold written. destruct (save_to_path s') eqn:Hsave; [split; [done|by right]|]. right. split; [done|].
  split; [done|]. by exists v.
Qed.
Lemma new_keys_kept s s' (v : SubcommandReturnValue) : new_keys s s' v ->
  wallet (key_chain s') /\ last_synced_block s' = last_synced_block s /\ labels s ⊆ labels s' /\ named s s' None v.
Proof. intros (Hw & -> & ->). by split_and!. Qed.
(** Commands that only read. *)
Lemma reading_kept s (f : Storage -> outcome (CliError E) ()) s' r : wallet (key_chain s) ->
  (reading f ;; mret Empty) s = Ok (s', r) -> kept s s' None r.
Proof.
  intros Hw [(a & _ & [= <- <-])|(-> & e & _ & ->)]%reading_bind; [by apply kept_same|by apply kept_err].
Qed.

Lemma account_kept poller s c s' r :
  local (AccountCmd c) = true -> wallet (key_chain s) -> fits (key_chain s') ->
  AccountCommand.handle poller random_identifier c s = Ok (s', r) -> kept s s' (label_of (AccountCmd c)) r.
Proof.
  intros Hlocal Hw Hfits. destruct c as [raw keys m|c| |long|m label|c]; [| |done|..]; cbn [AccountCommand.handle label_of].
  - by apply reading_kept.
  - intros Hc%new_ends; [|done]. eapply ends_kept; [done|done| |exact Hc].
    intros v (Hw' & id & Hreg & Hv) Hf. split; [by apply Hw'|]. split; [apply Hreg|].
    split; [by eapply registered_subset|by eapply kept_registered].
  - intros [= <- <-]. by apply kept_same.
  - intros [(id & _ & Hc)|(-> & e & _ & ->)]%reading_bind; [|by apply kept_err].
    destruct (labels s !! label) as [other|] eqn:Hl.
    + apply cmd_bind_ok in Hc as [(s1 & [] & Ha & _)|(e & Ha & ->)]; cbn [assign_label] in Ha; unfold add_label in Ha;
        rewrite Hl in Ha; [discriminate Ha|]. injection Ha as <- _. by apply kept_err.
    + apply assign_label_bind in Hc as (s1 & Hk & Hreg & Hc); [|by intros l [= <-]].
      eapply ends_kept; [done|done| |eapply (ends_saved s s1 (fun s2 v => v = Empty /\ registered s s2 (Some label) id /\ key_chain s2 = key_chain s));
        [exact Hc|done]].
      intros v (-> & Hr & Hkey) _. rewrite Hkey. split; [done|]. split; [apply Hr|]. split; [by eapply registered_subset|].
      by eapply kept_registered.
  - intros Hc%import_ends; [|done]. eapply ends_kept; [done|done| |exact Hc]. intros v Hv _. by apply new_keys_kept.
Qed.
Lemma group_kept s c s' r : wallet (key_chain s) -> fits (key_chain s') ->
  (GroupCommand.handle rng c ;; mret Empty) s = Ok (s', r) -> kept s s' None r.
Proof.
  intros Hw Hfits Hc. apply cmd_bind_ok in Hc as [(s1 & text & Hg & [= <- <-])|(e & Hg & ->)]; apply group_ends in Hg; try done.
  - destruct Hg as [[-> _]|[[-> [e He]]|(v & Hv & Hr)]]; [by apply kept_same|done|].
    unfold written in Hr. destruct (save_to_path s1) eqn:Hsave; [|done]. destruct Hv as (Hw' & Hl & Hb).
    split; [done|]. split; [done|]. split; [by rewrite Hl|]. split; [done|by right].
  - destruct Hg as [[_ [t Ht]]|Hg]; [done|]. destruct Hg as [[-> _]|(v & Hv & Hr)]; [by apply kept_err|].
    unfold written in Hr. destruct (save_to_path s') eqn:Hsave; [done|]. injection Hr as ->. destruct Hv as (Hw' & Hl & Hb).
    split; [done|]. split; [done|]. split; [by rewrite Hl|]. right. split; [done|]. split; [done|]. by exists Empty.
Qed.

(** C32. Commands that neither synchronise nor call a program keep a wallet a wallet:
    its key chain stays reachable by the wallet's operations, no label is lost or
    rebound, a label given to an account was free and names it, and the
    synchronisation point stays.  A command that succeeds has left the storage
    as it was or written what it changed to the file; a command that fails leaves
    the storage as it was, unless what failed is the last step, the writing of the
    file: then the change, complete, stays in memory.  The trees stay within the bounds of
    [fits]. *)
Theorem local_commands_keep_wallet (w : WalletCore) (c : Command) w' r :
  local c = true -> wallet (key_chain (core_storage w)) ->
  execute_command circuit_id random random_identifier rng w c = Ok (w', r) -> fits (key_chain (core_storage w')) ->
  kept (core_storage w) (core_storage w') (label_of c) r /\ core_poller w' = core_poller w.
Proof.
  intros Hlocal Hw Hrun Hfits. destruct c as [c|c|c|c| |c|m d|b]; [done|..|done|]; cbn [execute_command label_of] in *.
  - apply bind_ok in Hrun as ([s v] & Hr & [= <- <-]). split; [|done]. by eapply reading_kept.
  - apply bind_ok in Hrun as ([s v] & Hr & [= <- <-]). split; [|done]. by eapply account_kept.
  - apply bind_ok in Hrun as ([s v] & Hr & [= <- <-]). split; [|done]. by eapply group_kept.
  - apply bind_ok in Hrun as ([] & _ & [= <- <-]). split; [by apply kept_same|done].
  - unfold config_command in Hrun. destruct (ConfigCommand.handle _ _) as [config|e|]; [|by injection Hrun as <- <-; split; [apply kept_err|]|done].
    destruct c; [|case_match|]; injection Hrun as <- <-; (split; [|done]); first [by apply kept_same|by apply kept_err].
  - apply bind_ok in Hrun as ([s v] & Hr & [= <- <-]). split; [|done]. by eapply reading_kept.
Qed.
End Cli.
