(* ===== verification/CommandTheorems.v ===== *)
(** The commands of the wallet: whatever the privacy of the accounts it mentions,
    a command sends one transaction over these accounts and stores what the
    transaction says about the wallet's own. *)

From S2P Require Import Prelude Bytes Crypto Account Ids ProgramCore Borsh MerkleTree Host State Encryption CircuitIo Circuit Transactions Prover StateDiffs CircuitFacts NativePrograms Approval Token Amm TokenClients Chain ChainIndex KeyDerivation GroupKeys KeyTree UserKeyChain WalletSync TextForms KeyTreeFacts KeyTreeTheorems StorageFacts WalletFacts SyncFacts WalletTheorems WalletTx WalletTxTheorems WalletFacades WalletLoops WalletCommands.

(** ** Positions *)
Lemma filter_position : forall accounts j a, List.filter acc_is_private accounts !! j = Some a ->
  exists i, accounts !! i = Some a /\ output_position accounts i = j.
Proof.
  unfold output_position. induction accounts as [|b accounts IH]; intros j a Hj; [done|]. cbn [List.filter] in Hj.
  destruct (acc_is_private b) eqn:Hb; [destruct j as [|j]|].
  - injection Hj as ->. by exists 0%nat.
  - destruct (IH j a Hj) as (i & Hi & Hpos). exists (S i). split; [done|]. cbn [take List.filter]. rewrite Hb. cbn [length]. by rewrite Hpos.
  - destruct (IH j a Hj) as (i & Hi & Hpos). exists (S i). split; [done|]. cbn [take List.filter]. by rewrite Hb.
Qed.

(** ** Decoding one's own outputs *)
Section Decoding.
Context `{HmacSha512, K256, Sha256, ChaCha20, ChainIndex.Itertools, !ChainIndex.ItertoolsLaws}.
Implicit Types k : UserKeyChain.

(** Output [j] decrypts under [secret] to the account that the commitment is for. *)
Definition opens (m : PrivacyMessage) (j : nat) (secret : SharedSecretKey) (kind : PrivateAccountKind) (a : Account) : Prop :=
  exists ead comm, encrypted_private_post_states m !! j = Some ead /\ priv_new_commitments m !! j = Some comm /\
    Z.of_nat j < 2 ^ 32 /\ decrypt (ciphertext ead) secret comm (Z.of_nat j) = Some (kind, a).

Lemma decode_fold m : forall secrets ids (l : list (AccountId * PrivateAccountKind * Account)) j k,
  length l = length ids ->
  (forall i id, ids !! i = Some id -> exists secret e, secrets !! i = Some secret /\ l !! i = Some e /\ e.1.1 = id /\
     opens m (j + i) secret e.1.2 e.2) ->
  fold_o (fun k (e : nat * AccDecodeData) =>
      match e.2 with
      | Decode secret id =>
          acc_ead ← expect (encrypted_private_post_states m !! e.1) "index out of bounds";
          acc_comm ← expect (priv_new_commitments m !! e.1) "index out of bounds";
          i ← expect (if decide (Z.of_nat e.1 < 2 ^ 32) then Some (Z.of_nat e.1) else None)
                "Output index is expected to fit in u32";
          '(kind, res_acc) ← expect (decrypt (ciphertext acc_ead) secret acc_comm i)
                               "called `Option::unwrap()` on a `None` value";
          store_affected k (id, kind, res_acc)
      | Skip => Ok k
      end) k (zip (seq j (length (zip_with Decode secrets ids))) (zip_with Decode secrets ids)) =
  fold_o store_affected k l.
Proof.
  intros secrets ids. revert secrets. induction ids as [|id ids IH]; intros secrets l j k Hlen Hall.
  { destruct l; [|done]. by rewrite zip_with_nil_r. }
  destruct l as [|e l]; [done|]. injection Hlen as Hlen.
  destruct (Hall 0%nat id eq_refl) as (secret & e' & Hs & [= <-] & Hid & ead & comm & Head & Hcomm & Hj & Hdec).
  destruct secrets as [|s secrets]; [done|]. injection Hs as ->. rewrite Nat.add_0_r in *.
  cbn [zip_with length seq zip fold_o fst snd]. rewrite Head, Hcomm. cbn [expect mbind outcome_bind].
  rewrite decide_True by done. cbn [expect mbind outcome_bind]. rewrite Hdec. cbn [expect mbind outcome_bind].
  subst id. destruct e as [[id kind] a]. cbn [fst snd].
  destruct (store_affected k (id, kind, a)) as [k1| |]; [|done..]. cbn [mbind outcome_bind].
  apply IH; [done|]. intros i id' Hi. specialize (Hall (S i) id' Hi). by rewrite Nat.add_succ_r in Hall.
Qed.

(** The private accounts of a tree-only wallet. *)
Lemma found_in_nodes k id f :
  tree_only k -> private_account k id = Some f ->
  exists c node, key_map (private_key_tree k) !! c = Some node /\
    found_key_chain f = (priv_value node).1 /\ (priv_value node).2 !! found_kind f = Some (found_account f) /\
    id = for_private_account (nullifier_public_key (priv_value node).1) (found_kind f).
Proof.
  intros [Himp _] Hf. unfold private_account, found_imported in Hf. rewrite Himp, BTree.iter_empty in Hf.
  cbn [mbind list_bind app] in Hf. apply List.find_some in Hf as [Hin%list_elem_of_In Hid%bool_decide_eq_true_1].
  apply list_elem_of_bind in Hin as ([c node] & Hin & Hc%BTree.elem_of_iter).
  apply list_elem_of_fmap in Hin as ([kind a] & -> & Hk%BTree.elem_of_iter). by exists c, node.
Qed.

(** The kinds of the accounts that a wallet holds. *)
Definition kinds_held k (kind : PrivateAccountKind) : Prop := exists c node,
  key_map (private_key_tree k) !! c = Some node /\ is_Some ((priv_value node).2 !! kind).
Definition well_kept k : Prop := keys_inv k /\ tree_only k /\ clash_free k (kinds_held k).
Lemma well_kept_storing k : well_kept k -> storing k (kinds_held k).
Proof. intros (? & ? & ?). constructor; [done..|]. intros c node kind Hc Hk. by exists c, node. Qed.
Definition held_regular k id : Prop := exists f i,
  private_account k id = Some f /\ found_kind f = Regular i /\ in_u 128 i.

Lemma decode_own k m secrets ids (states : list (PrivateAccountKind * Account)) :
  well_kept k -> NoDup ids -> length states = length ids ->
  (forall j id, ids !! j = Some id -> exists secret f a, secrets !! j = Some secret /\
     private_account k id = Some f /\ states !! j = Some (found_kind f, a) /\ opens m j secret (found_kind f) a) ->
  exists k', decode_insert_privacy_preserving_transaction_results k m (zip_with Decode secrets ids) = Ok k' /\
    keys_inv k' /\ tree_only k' /\
    forall j id kind a, ids !! j = Some id -> states !! j = Some (kind, a) -> get_account_private k' id = Some a.
Proof.
  intros Hkept Hnd Hlen Hall. pose proof (well_kept_storing k Hkept) as Hst.
  pose (l := zip_with (fun id (e : PrivateAccountKind * Account) => (id, e.1, e.2)) ids states).
  assert (Hl : forall j e, l !! j = Some e <-> ids !! j = Some e.1.1 /\ states !! j = Some (e.1.2, e.2)).
  { intros j [[id kind] a]. unfold l. rewrite lookup_zip_with_Some. cbn [fst snd]. split.
    - intros (id' & [kind' a'] & [= -> -> ->] & ? & ?). done.
    - intros [? ?]. by exists id, (kind, a). }
  assert (Hmem : forall e, e ∈ l -> exists c node,
    key_map (private_key_tree k) !! c = Some node /\
    e.1.1 = for_private_account (nullifier_public_key (priv_value node).1) e.1.2 /\ kinds_held k e.1.2).
  { intros e [j [Hid Hs]%Hl]%list_elem_of_lookup. destruct (Hall j _ Hid) as (secret & f & a & _ & Hf & Hs' & _).
    rewrite Hs in Hs'. injection Hs' as Hkind _. destruct (found_in_nodes k _ f (proj1 (proj2 Hkept)) Hf) as (c & node & Hc & _ & Hk & Hide).
    exists c, node. split; [done|]. rewrite Hkind. split; [done|]. exists c, node. split; [done|by eexists]. }
  destruct (store_all (kinds_held k) l k Hst Hmem) as (k' & Hrun & Hst' & Hend).
  exists k'. split; [|split; [apply Hst'|split; [apply Hst'|]]].
  - rewrite <- Hrun. unfold decode_insert_privacy_preserving_transaction_results. apply decode_fold.
    + unfold l. rewrite length_zip_with. lia.
    + intros i id Hi. destruct (Hall i id Hi) as (secret & f & a & Hsec & Hf & Hs & Hop).
      exists secret, (id, found_kind f, a). split; [done|]. split; [by apply Hl|]. done.
  - intros j id kind a Hid Hs. eapply holds_account; [exact Hst'|]. apply Hend.
    + intros e [i [Hi Hsi]%Hl]%list_elem_of_lookup Heq. rewrite Heq in Hi.
      assert (i = j) as -> by (by eapply NoDup_lookup). congruence.
    + right. exists (id, kind, a). split; [|done]. apply list_elem_of_lookup. exists j. by apply Hl.
Qed.
End Decoding.

Lemma lookup_choice {A B} (P : nat -> A -> B -> Prop) : forall (l : list A) n,
  (forall j x, l !! j = Some x -> exists y, P (n + j)%nat x y) ->
  exists l', length l' = length l /\ forall j x, l !! j = Some x -> exists y, l' !! j = Some y /\ P (n + j)%nat x y.
Proof.
  induction l as [|a l IH]; intros n Hall; [by exists []|].
  destruct (Hall 0%nat a eq_refl) as [b Hb]. destruct (IH (S n)) as (l' & Hlen & Hl').
  { intros j x Hj. destruct (Hall (S j) x Hj) as [y Hy]. exists y. by rewrite Nat.add_succ_r in Hy. }
  exists (b :: l'). split; [cbn; by rewrite Hlen|]. intros [|j] x Hj.
  - injection Hj as <-. by exists b.
  - destruct (Hl' j x Hj) as (y & Hy & HP). exists y. split; [done|]. by rewrite Nat.add_succ_r.
Qed.

(** ** One's own outputs in a transaction that the wallet built *)
Section Own.
Context `{HmacSha512, K256, Sha256, ChaCha20, ZkVm, Serde ProgramOutput, CircuitProver, !ProverRuns, SchnorrSign,
  Borsh PrivacyMessage, ChainIndex.Itertools, !ChainIndex.ItertoolsLaws}.
Context {E : Type}.
Context (get_account : AccountId -> outcome E Account).
Context (get_proof : Commitment -> outcome E (option MembershipProof)).
Implicit Types k : UserKeyChain.

Lemma secrets_length k accounts instr program check random tx secrets :
  build_privacy_preserving_tx get_account get_proof k accounts instr program check random = Ok (tx, secrets) ->
  length secrets = length (List.filter acc_is_private accounts).
Proof.
  intros Hb. destruct (build_ok get_account get_proof _ _ _ _ _ _ _ _ Hb) as (states & output & proof & Hm & _ & [-> _ _ _]).
  rewrite length_fmap. pose proof (private_before_accounts get_account get_proof k _ _ _ (length accounts) Hm) as Hpos.
  assert (Hlen : length states = length accounts).
  { clear Hb Hpos. revert states random Hm. induction accounts as [|a accounts IH]; intros states random Hm; cbn [AccountManager_new] in Hm.
    - by injection Hm as <-.
    - apply bind_ok in Hm as (st & _ & (sts & Hsts & [= <-])%bind_ok). cbn [length]. by rewrite (IH sts _ Hsts). }
  unfold private_before, output_position in Hpos. by rewrite !firstn_all2 in Hpos by lia.
Qed.

Lemma own_outputs k accounts own rest instr program check random tx secrets :
  build_privacy_preserving_tx get_account get_proof k accounts instr program check random = Ok (tx, secrets) ->
  List.filter acc_is_private accounts = (PrivateOwned <$> own) ++ rest ->
  Z.of_nat (length accounts) < 2 ^ 32 ->
  (forall id, id ∈ own -> held_regular k id) ->
  forall j id, own !! j = Some id -> exists secret f committed a, secrets !! j = Some secret /\
    private_account k id = Some f /\
    priv_new_commitments (priv_message tx) !! j = Some (Commitment_new committed a) /\
    opens (priv_message tx) j secret (found_kind f) a.
Proof.
  intros Hb Hfil Hlen Hreg j id Hj. destruct (Hreg id) as (f & idf & Hf & Hk & Hidf); [by eapply list_elem_of_lookup_2|].
  destruct (filter_position accounts j (PrivateOwned id)) as (i & Hi & Hpos).
  { rewrite Hfil, lookup_app_l, list_lookup_fmap, Hj; [done|]. rewrite length_fmap. by eapply lookup_lt_Some. }
  destruct (payments_are_sent get_account get_proof k _ _ _ _ _ _ _ i (PrivateOwned id) (nullifier_public_key (found_key_chain f))
    (viewing_public_key (found_key_chain f)) idf Hb Hi) as (committed & a & s & p & Hwf & Hcm & Hsent & Hsec & Hprod & _).
  { cbn [addressee]. rewrite Hf. cbn [mbind option_bind]. by rewrite Hk. }
  rewrite Hpos in *. exists s, f, committed, a. split; [done|]. split; [done|]. split; [done|].
  destruct (Hsent (found_key_chain f) eq_refl eq_refl) as (s' & p' & ct & comm & Hs' & Hct & Hcomm & Hout).
  rewrite Hprod in Hs'. injection Hs' as <- <-. exists (EncryptedAccountData_new ct (nullifier_public_key (found_key_chain f))
    (viewing_public_key (found_key_chain f)) p), comm. split; [done|]. split; [done|]. split.
  - apply lookup_lt_Some in Hi. assert (j <= i)%nat; [|lia]. rewrite <- Hpos. unfold output_position.
    etrans; [apply filter_length_le|]. rewrite length_take. lia.
  - cbn [ciphertext EncryptedAccountData_new]. rewrite Hk. by apply decrypt_of_encrypt.
Qed.

(** The wallet reads back exactly what it committed to. *)
Lemma own_stored k accounts own rest instr program check random tx secrets :
  build_privacy_preserving_tx get_account get_proof k accounts instr program check random = Ok (tx, secrets) ->
  List.filter acc_is_private accounts = (PrivateOwned <$> own) ++ rest ->
  Z.of_nat (length accounts) < 2 ^ 32 -> well_kept k -> NoDup own -> (forall id, id ∈ own -> held_regular k id) ->
  exists k', decode_insert_privacy_preserving_transaction_results k (priv_message tx) (zip_with Decode secrets own) = Ok k' /\
    keys_inv k' /\ tree_only k' /\
    forall j id, own !! j = Some id -> exists committed a,
      priv_new_commitments (priv_message tx) !! j = Some (Commitment_new committed a) /\ get_account_private k' id = Some a.
Proof.
  intros Hb Hfil Hlen Hkept Hnd Hreg.
  destruct (lookup_choice (fun j id (e : PrivateAccountKind * Account) => exists secret f committed, secrets !! j = Some secret /\
    private_account k id = Some f /\ found_kind f = e.1 /\
    priv_new_commitments (priv_message tx) !! j = Some (Commitment_new committed e.2) /\
    opens (priv_message tx) j secret (found_kind f) e.2) own 0) as (states & Hslen & Hstates).
  { intros j id Hj. destruct (own_outputs k accounts own rest _ _ _ _ _ _ Hb Hfil Hlen Hreg j id Hj) as (secret & f & committed & a & ? & ? & ? & ?).
    by exists (found_kind f, a), secret, f, committed. }
  destruct (decode_own k (priv_message tx) secrets own states Hkept Hnd Hslen) as (k' & Hrun & Hinv & Htree & Hget).
  { intros j id Hj. destruct (Hstates j id Hj) as ([kind a] & Hs & secret & f & committed & ? & ? & ? & _ & ?).
    exists secret, f, a. cbn [fst snd] in *. subst kind. done. }
  exists k'. split; [done|]. split; [done|]. split; [done|]. intros j id Hj.
  destruct (Hstates j id Hj) as ([kind a] & Hs & secret & f & committed & _ & _ & _ & Hcm & _).
  exists committed, a. split; [done|]. by apply (Hget j id kind a).
Qed.
End Own.

(** ** What a command asks for

    A request is a call over accounts, some of them the wallet's own private
    ones.  [requests] says which request a command stands for: the accounts it
    mentions, each with the privacy of its mention, in the order the program
    expects.  The code has a path of its own for every combination.  [own] is how
    an account of the wallet takes part: as one of its own key tree
    ([PrivateOwned]) or as one that it shares with a group. *)
Definition party (own : AccountId -> PrivacyPreservingAccount) (a : AccountIdWithPrivacy) : PrivacyPreservingAccount :=
  match a with PublicId id => AccPublic id | PrivateId id => own id end.
Definition own_of (l : list AccountIdWithPrivacy) : list AccountId :=
  omap (fun a => match a with PrivateId id => Some id | PublicId _ => None end) l.
Lemma filter_parties l rest :
  List.filter acc_is_private ((party PrivateOwned <$> l) ++ rest) = (PrivateOwned <$> own_of l) ++ List.filter acc_is_private rest.
Proof. induction l as [|[id|id] l IH]; [done|exact IH|]. cbn. by f_equal. Qed.

Record Request (E : Type) := mk_Request {
  rq_parties : list AccountIdWithPrivacy;
  rq_foreign : list PrivacyPreservingAccount;
  rq_instruction : InstructionData;
  rq_program : ProgramWithDependencies;
  rq_check : list Account -> outcome (ExecutionFailureKind E) ();
  rq_waits : bool;
}.
Arguments mk_Request {E} _ _ _ _ _ _.
Arguments rq_parties {E} _.
Arguments rq_foreign {E} _.
Arguments rq_instruction {E} _.
Arguments rq_program {E} _.
Arguments rq_check {E} _ _.
Arguments rq_waits {E} _.

Section Requests.
Context `{HmacSha512, K256, Sha256, ChaCha20, ZkVm, Serde ProgramOutput, CircuitProver, SchnorrSign, Borsh PrivacyMessage,
  Borsh PublicMessage, BuiltinPrograms, Hex, Base58, Borsh TokenHolding, Serde AuthTransfer.Instruction,
  Serde Pinata.Instruction, Serde Token.Instruction, Serde Amm.Instruction, Serde Ata.Instruction, StorageFile}.
Context {E : Type} `{!SequencerClient E}.
Variable poller : TxPoller.
Variable random : nat -> list byte.
Variable random_identifier : Identifier.
Variable own : AccountId -> PrivacyPreservingAccount.

Definition rq_accounts (rq : Request E) : list PrivacyPreservingAccount := (party own <$> rq_parties rq) ++ rq_foreign rq.
Definition rq_own (rq : Request E) : list AccountId := own_of (rq_parties rq).
Definition build_request (k : UserKeyChain) (rq : Request E) :=
  build_privacy_preserving_tx rpc_get_account rpc_get_proof_for_commitment k (rq_accounts rq) (rq_instruction rq)
    (rq_program rq) (rq_check rq) random.

(** Build, send, wait for the transaction unless the command does not, store the
    wallet's own accounts, in memory and in its file. *)
Definition fulfil (s : Storage) (rq : Request E) (ret : HashType -> SubcommandReturnValue) :
    outcome (CliError E) (Storage * SubcommandReturnValue) :=
  '(tx, secrets) ← execution (build_request (key_chain s) rq);
  tx_hash ← execution (map_err SequencerClientError (rpc_send_transaction (PrivacyPreserving tx)));
  s ← (if rq_waits rq then poll_and_decode poller s tx_hash (zip_with Decode secrets (rq_own rq))
       else store_persistent_data s);
  Ok (s, ret tx_hash).

Definition no_check (_ : list Account) : outcome (ExecutionFailureKind E) () := Ok ().
Definition call (p : Program) (parties : list AccountIdWithPrivacy) (foreign : list PrivacyPreservingAccount)
    (instruction : InstructionData) : Request E :=
  mk_Request parties foreign instruction (without_dependencies p) no_check true.
Definition native_call (parties : list AccountIdWithPrivacy) (foreign : list PrivacyPreservingAccount) (amount : Z)
    (waits : bool) : Request E :=
  mk_Request parties foreign (serde_to_vec (AuthTransfer.Transfer amount))
    (without_dependencies authenticated_transfer_program) (NativeFacade.auth_transfer_preparation amount).2 waits.
Definition ata_call (owner a b : AccountId) (instruction : Ata.Instruction) : Request E :=
  mk_Request [PrivateId owner; PublicId a; PublicId b] [] (serde_to_vec instruction) AtaFacade.ata_with_token_dependency
    no_check true.

(** Of the paths to foreign keys, the native one from a public account does not wait. *)
Definition is_private_id (a : AccountIdWithPrivacy) : bool := match a with PrivateId _ => true | PublicId _ => false end.
Inductive requests (s : Storage) : ProgramCommand -> Request E -> (HashType -> SubcommandReturnValue) -> Prop :=
  | requests_token_new d d' u u' name n :
      mention_resolve (E := E) s d = Ok d' -> mention_resolve (E := E) s u = Ok u' ->
      requests s (TokenCommand_ (TokenCommand.New d u name n))
        (call token_program [d'; u'] [] (serde_to_vec (Token.NewFungibleDefinition name n))) PrivacyPreservingTransfer
  | requests_token_send from from' to to' i n :
      mention_resolve (E := E) s from = Ok from' -> mention_resolve (E := E) s to = Ok to' ->
      requests s (TokenCommand_ (TokenCommand.Send from (Some to) None None i n))
        (call token_program [from'; to'] [] (serde_to_vec (Token.Transfer n))) PrivacyPreservingTransfer
  | requests_token_send_foreign from from' npk npk' vpk vpk' i n :
      mention_resolve (E := E) s from = Ok from' -> parse_npk (E := E) npk = Ok npk' -> parse_vpk (E := E) vpk = Ok vpk' ->
      requests s (TokenCommand_ (TokenCommand.Send from None (Some npk) (Some vpk) i n))
        (call token_program [from'] [PrivateForeign npk' vpk' (default random_identifier i)] (serde_to_vec (Token.Transfer n)))
        PrivacyPreservingTransfer
  | requests_token_burn d d' h h' n :
      mention_resolve (E := E) s d = Ok d' -> mention_resolve (E := E) s h = Ok h' ->
      requests s (TokenCommand_ (TokenCommand.Burn d h n))
        (call token_program [d'; h'] [] (serde_to_vec (Token.Burn n))) PrivacyPreservingTransfer
  | requests_token_mint d d' h h' i n :
      mention_resolve (E := E) s d = Ok d' -> mention_resolve (E := E) s h = Ok h' ->
      requests s (TokenCommand_ (TokenCommand.Mint d (Some h) None None i n))
        (call token_program [d'; h'] [] (serde_to_vec (Token.Mint n))) PrivacyPreservingTransfer
  | requests_token_mint_foreign d d' npk npk' vpk vpk' i n :
      mention_resolve (E := E) s d = Ok d' -> parse_npk (E := E) npk = Ok npk' -> parse_vpk (E := E) vpk = Ok vpk' ->
      requests s (TokenCommand_ (TokenCommand.Mint d None (Some npk) (Some vpk) i n))
        (call token_program [d'] [PrivateForeign npk' vpk' (default random_identifier i)] (serde_to_vec (Token.Mint n)))
        PrivacyPreservingTransfer
  | requests_native_init m id :
      mention_resolve (E := E) s m = Ok (PrivateId id) ->
      requests s (AuthTransferCommand (NativeCommand.Init m))
        (call authenticated_transfer_program [PrivateId id] [] (serde_to_vec AuthTransfer.Initialize)) (fun _ => Empty)
  | requests_native_send from from' to to' i n :
      mention_resolve (E := E) s from = Ok from' -> mention_resolve (E := E) s to = Ok to' ->
      requests s (AuthTransferCommand (NativeCommand.Send from (Some to) None None i n))
        (native_call [from'; to'] [] n true) PrivacyPreservingTransfer
  | requests_native_send_foreign from from' npk npk' vpk vpk' i n :
      mention_resolve (E := E) s from = Ok from' -> parse_npk (E := E) npk = Ok npk' -> parse_vpk (E := E) vpk = Ok vpk' ->
      requests s (AuthTransferCommand (NativeCommand.Send from None (Some npk) (Some vpk) i n))
        (native_call [from'] [PrivateForeign npk' vpk' (default random_identifier i)] n (is_private_id from'))
        PrivacyPreservingTransfer
  | requests_pinata to id pinata solution :
      mention_resolve (E := E) s to = Ok (PrivateId id) -> AccountId_from_str PinataCommand.PINATA_BASE58 = Ok pinata ->
      PinataCommand.ensure_private_owned_recipient_initialized (E := E) (key_chain s) id = Ok () ->
      PinataCommand.solution_for pinata = Ok solution ->
      requests s (PinataClaim to)
        (call pinata_program [PublicId pinata; PrivateId id] [] (serde_to_vec solution)) PrivacyPreservingTransfer
  | requests_ata_create m owner d :
      mention_resolve (E := E) s m = Ok (PrivateId owner) ->
      requests s (AtaCommand_ (AtaCommand.Create m d))
        (ata_call owner d (AtaFacade.ata_id_of owner d) (Ata.Create (program_id ata_program))) (fun _ => Empty)
  | requests_ata_send m owner d to n :
      mention_resolve (E := E) s m = Ok (PrivateId owner) ->
      requests s (AtaCommand_ (AtaCommand.Send m d to n))
        (ata_call owner (AtaFacade.ata_id_of owner d) to (Ata.Transfer (program_id ata_program) n)) (fun _ => Empty)
  | requests_ata_burn m owner d n :
      mention_resolve (E := E) s m = Ok (PrivateId owner) ->
      requests s (AtaCommand_ (AtaCommand.Burn m d n))
        (ata_call owner (AtaFacade.ata_id_of owner d) d (Ata.Burn (program_id ata_program) n)) (fun _ => Empty).

(** *** Every path is the request *)
Definition resolves (s : Storage) (rq : Request E) : Prop :=
  forall id, id ∈ rq_own rq -> resolve (E := E) (key_chain s) id = Ok (own id).
Lemma resolve_private k id a : resolve (E := E) k id = Ok a -> acc_is_private a = true.
Proof.
  unfold resolve. intros (o & Ho & ->%ok_or_ok)%bind_ok. unfold lift_guest in Ho.
  destruct (resolve_private_account k id) as [o|[]|] eqn:Hr; [|done]. injection Ho as ->. unfold resolve_private_account in Hr.
  destruct (private_account k id); [by injection Hr as <-|]. destruct (shared_private_account k id) as [entry|]; [|done].
  destruct (group_key_holder k (group_label entry)) as [holder|]; [|done].
  destruct (shared_pda_seed entry), (shared_pda_program_id entry); cbv beta zeta iota in Hr;
    apply bind_ok in Hr as (vpk & _ & Hr); by injection Hr as <-.
Qed.

Lemma fulfil_unfold {B} s rq ret (pick : HashType * list SharedSecretKey -> outcome (ExecutionFailureKind E) B)
    (use : B -> outcome (CliError E) (Storage * SubcommandReturnValue)) :
  (forall h secrets, length secrets = length (List.filter acc_is_private (rq_accounts rq)) ->
     (b ← execution (pick (h, secrets)); use b) =
     (s' ← (if rq_waits rq then poll_and_decode poller s h (zip_with Decode secrets (rq_own rq))
            else store_persistent_data s); Ok (s', ret h))) ->
  (b ← execution (r ← send_privacy_preserving_tx_with_pre_check rpc_get_account rpc_get_proof_for_commitment
                        rpc_send_transaction (key_chain s) (rq_accounts rq) (rq_instruction rq) (rq_program rq)
                        (rq_check rq) random;
                  pick r); use b) = fulfil s rq ret.
Proof.
  intros Hpick. unfold fulfil, send_privacy_preserving_tx_with_pre_check, build_request.
  destruct (build_privacy_preserving_tx _ _ _ _ _ _ _ _) as [[tx secrets]|e|msg] eqn:Hb; [|done..].
  cbn [mbind outcome_bind execution map_err]. destruct (rpc_send_transaction _) as [h|e|msg]; [|done..].
  cbn [mbind outcome_bind execution map_err]. apply Hpick. by eapply secrets_length.
Qed.

(** The steps that resolve one's own accounts, then the call. *)
Ltac resolve_steps :=
  repeat match goal with
  | Hr : ?m = Ok _ |- context [?m] => rewrite Hr
  | Hr : ?m = Some _ |- context [?m] => rewrite Hr
  end; cbn [mbind outcome_bind].
Ltac pick_secrets :=
  let h := fresh "h" in let secrets := fresh "secrets" in let Hlen := fresh "Hlen" in
  intros h secrets Hlen; cbn in Hlen;
  repeat match goal with
  | Hp : forall id, id ∈ _ -> acc_is_private (own id) = true |- _ =>
      match type of Hlen with context [acc_is_private (own ?id)] =>
        rewrite (Hp id) in Hlen by (cbn; rewrite !elem_of_cons; tauto); cbn in Hlen end
  end;
  first [destruct secrets as [|? [|? [|? ?]]]; discriminate Hlen | idtac];
  repeat (destruct secrets as [|? secrets]; try discriminate Hlen);
  cbn; unfold AtaCommand.store_owner; cbn; solve [reflexivity | by destruct (poll_and_decode _ _ _ _)].

Ltac resolve_all :=
  repeat match goal with
  | Hres : forall id, id ∈ _ -> resolve _ id = _ |- context [resolve _ ?id] =>
      rewrite (Hres id) by (cbn; rewrite !elem_of_cons; tauto)
  end; cbn [mbind outcome_bind].
Ltac fulfils :=
  unfold TokenFacade.token_private, NativeFacade.send_checked, send_private, send_privacy_preserving_tx;
  cbn [NativeFacade.auth_transfer_preparation];
  match goal with |- _ = fulfil ?s ?rq ?ret => eapply (fulfil_unfold s rq ret); pick_secrets end.

Lemma token_requests s c rq ret :
  requests s (TokenCommand_ c) rq ret -> List.filter acc_is_private (rq_accounts rq) <> [] ->
  resolves s rq ->
  TokenCommand.handle poller random random_identifier s c = fulfil s rq ret.
Proof.
  intros Hc Hpriv Hres. pose proof (fun id Hid => resolve_private _ _ _ (Hres id Hid)) as Hprivate.
  unfold resolves in Hres. inversion Hc; subst; clear Hc; cbn [TokenCommand.handle mention_resolve_option]; resolve_steps;
    cbn [mbind outcome_bind fmap outcome_fmap].
  - destruct d' as [d'|d'], u' as [u'|u']; [by destruct Hpriv|..];
      cbn [TokenCommand.create_for TokenCommand.handle_subcommand TokenCommand.handle_create];
      unfold TokenFacade.send_new_definition_private_owned_supply, TokenFacade.send_new_definition_private_owned_definiton,
        TokenFacade.send_new_definition_private_owned_definiton_and_supply; resolve_all; fulfils.
  - destruct from' as [f|f], to' as [t|t]; [by destruct Hpriv|..];
      cbn [mbind outcome_bind TokenCommand.send_for TokenCommand.handle_subcommand TokenCommand.handle_private
           TokenCommand.handle_shielded TokenCommand.handle_deshielded];
      unfold TokenFacade.send_transfer_transaction_private_owned_account, TokenFacade.send_transfer_transaction_deshielded,
        TokenFacade.send_transfer_transaction_shielded_owned_account; resolve_all; fulfils.
  - destruct from' as [f|f];
      cbn [mbind outcome_bind TokenCommand.send_for TokenCommand.handle_subcommand TokenCommand.handle_private
           TokenCommand.handle_shielded]; resolve_steps;
      unfold TokenFacade.send_transfer_transaction_private_foreign_account,
        TokenFacade.send_transfer_transaction_shielded_foreign_account; resolve_all; fulfils.
  - destruct d' as [d'|d'], h' as [h'|h']; [by destruct Hpriv|..];
      cbn [TokenCommand.burn_for TokenCommand.handle_subcommand TokenCommand.handle_private
           TokenCommand.handle_shielded TokenCommand.handle_deshielded];
      unfold TokenFacade.send_burn_transaction_private_owned_account, TokenFacade.send_burn_transaction_deshielded_owned_account,
        TokenFacade.send_burn_transaction_shielded; resolve_all; fulfils.
  - destruct d' as [d'|d'], h' as [h'|h']; [by destruct Hpriv|..];
      cbn [mbind outcome_bind TokenCommand.mint_for TokenCommand.handle_subcommand TokenCommand.handle_private
           TokenCommand.handle_shielded TokenCommand.handle_deshielded];
      unfold TokenFacade.send_mint_transaction_private_owned_account, TokenFacade.send_mint_transaction_deshielded,
        TokenFacade.send_mint_transaction_shielded_owned_account; resolve_all; fulfils.
  - destruct d' as [d'|d'];
      cbn [mbind outcome_bind TokenCommand.mint_for TokenCommand.handle_subcommand TokenCommand.handle_private
           TokenCommand.handle_shielded]; resolve_steps;
      unfold TokenFacade.send_mint_transaction_private_foreign_account,
        TokenFacade.send_mint_transaction_shielded_foreign_account; resolve_all; fulfils.
Qed.

Lemma native_requests s c rq ret :
  requests s (AuthTransferCommand c) rq ret -> List.filter acc_is_private (rq_accounts rq) <> [] ->
  resolves s rq ->
  NativeCommand.handle poller random random_identifier s c = fulfil s rq ret.
Proof.
  intros Hc Hpriv Hres. pose proof (fun id Hid => resolve_private _ _ _ (Hres id Hid)) as Hprivate.
  unfold resolves in Hres. inversion Hc; subst; clear Hc; cbn [NativeCommand.handle mention_resolve_option]; resolve_steps;
    cbn [mbind outcome_bind fmap outcome_fmap].
  - unfold NativeFacade.register_account_private; resolve_all; fulfils.
  - destruct from' as [f|f], to' as [t|t]; [by destruct Hpriv|..];
      cbn [mbind outcome_bind NativeCommand.send_for NativeCommand.handle_subcommand NativeCommand.handle_private
           NativeCommand.handle_shielded];
      unfold NativeFacade.send_private_transfer_to_owned_account, NativeFacade.send_deshielded_transfer,
        NativeFacade.send_shielded_transfer; resolve_all; fulfils.
  - destruct from' as [f|f]; cbn [mbind outcome_bind NativeCommand.send_for NativeCommand.handle_subcommand
        NativeCommand.handle_private NativeCommand.handle_shielded]; resolve_steps;
      unfold NativeFacade.send_private_transfer_to_outer_account, NativeFacade.send_shielded_transfer_to_outer_account;
      resolve_all; fulfils.
Qed.

Lemma execute_requests s c rq ret :
  requests s c rq ret -> List.filter acc_is_private (rq_accounts rq) <> [] ->
  resolves s rq -> execute_subcommand poller random random_identifier s c = fulfil s rq ret.
Proof.
  intros Hc Hpriv Hres. pose proof (fun id Hid => resolve_private _ _ _ (Hres id Hid)) as Hprivate.
  destruct c; cbn [execute_subcommand]; [by apply native_requests| |by apply token_requests|by inversion Hc|];
    unfold resolves in Hres; inversion Hc; subst; clear Hc Hpriv; cbn [PinataCommand.handle AtaCommand.handle]; resolve_steps;
    cbn [mbind outcome_bind].
  - unfold PinataCommand.handle, PinataCommand.claim_for; resolve_steps; cbn [mbind outcome_bind]; resolve_steps; cbn [map_err mbind outcome_bind PinataCommand.handle_subcommand];
      resolve_steps; unfold PinataFacade.claim_private_owned_account; resolve_all; fulfils.
  - unfold AtaFacade.send_create_private_owner; resolve_all; fulfils.
  - unfold AtaFacade.send_transfer_private_owner; resolve_all; fulfils.
  - unfold AtaFacade.send_burn_private_owner; resolve_all; fulfils.
Qed.
Lemma waits_or_foreign s c rq ret : requests s c rq ret -> rq_waits rq = true \/ rq_own rq = [].
Proof. destruct 1; try by left. destruct from'; [by right|by left]. Qed.
End Requests.

Lemma resolve_own `{HmacSha512, K256, Sha256} {E : Type} k id :
  is_Some (private_account k id) -> resolve (E := E) k id = Ok (PrivateOwned id).
Proof. intros [f Hf]. unfold resolve, resolve_private_account. by rewrite Hf. Qed.

(** ** The commands of a wallet *)
Section Commands.
Context `{HmacSha512, K256, Sha256, ChaCha20, ZkVm, Serde ProgramOutput, CircuitProver, SchnorrSign, Borsh PrivacyMessage,
  Borsh PublicMessage, BuiltinPrograms, Hex, Base58, Borsh TokenHolding, Serde AuthTransfer.Instruction,
  Serde Pinata.Instruction, Serde Token.Instruction, Serde Amm.Instruction, Serde Ata.Instruction, StorageFile}.
Context {E : Type} `{!SequencerClient E}.
Context (poller : TxPoller) (random : nat -> list byte) (random_identifier : Identifier).

(** C31. Every private path of the program commands is the same request: a command
    that mentions a private account of its wallet, of its own key tree or shared with
    a group, or the keys of a foreign one, once its mentions resolve and its keys
    parse (and, for a claim from the faucet game, the recipient is initialized and
    the solution found), builds one transaction over the accounts it mentions, in
    the order the program expects, sends it, waits for it, and decodes the outputs
    of the wallet's accounts with the secrets of exactly these outputs; from there
    it returns, fails or panics where these steps do.  Only the native transfer from
    a public account to foreign keys does not wait for its transaction. *)
Theorem commands_are_requests own s c rq ret :
  requests random_identifier s c rq ret -> List.filter acc_is_private (rq_accounts (E := E) own rq) <> [] ->
  resolves own s rq ->
  execute_subcommand poller random random_identifier s c = fulfil poller random own s rq ret.
Proof. apply execute_requests. Qed.

Lemma requests_short s c rq ret :
  requests (E := E) random_identifier s c rq ret -> Z.of_nat (length (rq_accounts PrivateOwned rq)) < 2 ^ 32.
Proof. by destruct 1. Qed.

Context `{!ProverRuns, !ChainIndex.Itertools, !ChainIndex.ItertoolsLaws}.

Lemma decoded_and_stored s h tx (acc_decode_data : list AccDecodeData) k' (v : SubcommandReturnValue) :
  poll_tx poller h = Ok (PrivacyPreserving tx) ->
  decode_insert_privacy_preserving_transaction_results (key_chain s) (priv_message tx) acc_decode_data = Ok k' ->
  (s' ← poll_and_decode (E := E) poller s h acc_decode_data; Ok (s', v)) =
    written (with_key_chain k' s) (with_key_chain k' s, v).
Proof.
  intros Hpoll Hrun. unfold poll_and_decode. rewrite Hpoll. cbn [map_err mbind outcome_bind]. rewrite Hrun.
  cbn [lift_guest mbind outcome_bind]. unfold store_persistent_data, written. by destruct (save_to_path _).
Qed.

(** C30. After a private command the wallet knows what it sent: when the transaction
    is built, accepted for sending and reported by the node, the command succeeds if
    its storage can be written to the file, and otherwise fails with the same storage
    in memory; the wallet keeps its invariant, its labels and its synchronisation
    point, and reports for every own account of the request, in its position, exactly
    the state that the transaction commits to. *)
Theorem commands_store_sent_accounts s c rq ret tx secrets h :
  requests random_identifier s c rq ret -> List.filter acc_is_private (rq_accounts (E := E) PrivateOwned rq) <> [] ->
  well_kept (key_chain s) -> NoDup (rq_own rq) -> (forall id, id ∈ rq_own rq -> held_regular (key_chain s) id) ->
  build_request random PrivateOwned (key_chain s) rq = Ok (tx, secrets) ->
  rpc_send_transaction (PrivacyPreserving tx) = Ok h -> poll_tx poller h = Ok (PrivacyPreserving tx) ->
  exists s', execute_subcommand poller random random_identifier s c = written s' (s', ret h) /\
    keys_inv (key_chain s') /\ labels s' = labels s /\ last_synced_block s' = last_synced_block s /\
    forall j id, rq_own rq !! j = Some id -> exists committed a,
      priv_new_commitments (priv_message tx) !! j = Some (Commitment_new committed a) /\
      get_account_private (key_chain s') id = Some a.
Proof.
  intros Hc Hpriv Hkept Hnd Hreg Hb Hsend Hpoll.
  destruct (own_stored rpc_get_account rpc_get_proof_for_commitment (key_chain s) (rq_accounts PrivateOwned rq) (rq_own rq)
    (List.filter acc_is_private (rq_foreign rq)) _ _ _ _ _ _ Hb) as (k' & Hrun & Hinv & _ & Hall); [|by eapply requests_short|done..|].
  { apply filter_parties. }
  rewrite (execute_requests poller random random_identifier PrivateOwned s c rq ret Hc Hpriv).
  2: { intros id Hid. destruct (Hreg id Hid) as (f & _ & Hf & _). apply resolve_own. by eexists. }
  unfold fulfil. rewrite Hb. cbn [execution map_err mbind outcome_bind]. rewrite Hsend.
  cbn [execution map_err mbind outcome_bind]. destruct (waits_or_foreign _ _ _ _ _ Hc) as [Hw|Hnone].
  - exists (with_key_chain k' s). split; [|done]. rewrite Hw. by apply decoded_and_stored with tx.
  - destruct (rq_waits rq) eqn:Hw.
    + exists (with_key_chain k' s). split; [|done]. by apply decoded_and_stored with tx.
    + exists s. split; [unfold store_persistent_data, written; by destruct (save_to_path s)|]. split; [apply Hkept|]. split; [done|]. split; [done|]. intros j id Hj. by rewrite Hnone in Hj.
Qed.
End Commands.
