(* ===== verification/AccountSamples.v ===== *)
(** Commands on concrete storages: a labelled private account, an invitation to a
    group, a payment that overwrites a shared account, and calls of the C interface.
    The witnesses of the theorems about text forms, local commands, shared accounts
    and the C interface. *)

From Stdlib Require Import Ascii.
From S2P Require Import Prelude Bytes Crypto Account Ids ProgramCore Borsh MerkleTree Host State Encryption CircuitIo Circuit Transactions Prover StateDiffs CircuitFacts NativePrograms Approval Token Amm TokenClients Chain ChainIndex KeyDerivation GroupKeys KeyTree UserKeyChain WalletSync TextForms KeyTreeFacts KeyTreeTheorems KeySamples StorageFacts WalletFacts SyncFacts WalletTheorems WalletSamples WalletTx WalletTxTheorems WalletTxSamples WalletFacades WalletLoops WalletCommands AccountCommands WalletCli CMemory WalletFfi WalletFfiTheorems SharedTheorems AccountTheorems CommandTheorems.

Open Scope Z_scope.

(** ** A command of a concrete wallet: Alice initializes her first private account
    with the transfer program.  The witnesses of the theorems about commands. *)
Import KeySamples WalletSamples HonestProver.

Module CommandSamples.
(** ** The third-party code *)
#[global] Instance plain_output_serde : Serde ProgramOutput := {|
  serde_to_vec o := instruction_data o;
  serde_from_words _ := None;
|}.
#[global] Instance plain_signature : SchnorrSign := fun _ _ => Some (zeros 64).
#[global] Instance plain_message_borsh : Borsh PublicMessage := {|
  borsh_to_vec m := words_bytes (pub_program_id m) ++ words_bytes (pub_instruction_data m);
  borsh_try_from_slice _ := None;
|}.
#[global] Instance plain_auth_serde : Serde AuthTransfer.Instruction := {|
  serde_to_vec i := match i with AuthTransfer.Transfer n => [0; n] | AuthTransfer.Initialize => [1] end;
  serde_from_words w := match w with
                        | [0; n] => Some (AuthTransfer.Transfer n)
                        | [1] => Some AuthTransfer.Initialize
                        | _ => None
                        end;
|}.
#[global] Instance plain_pinata_serde : Serde Pinata.Instruction := {|
  serde_to_vec n := [n];
  serde_from_words _ := None;
|}.
Definition opaque_serde {A} : Serde A := {| serde_to_vec _ := []; serde_from_words _ := None |}.
#[global] Instance plain_token_serde : Serde Token.Instruction := opaque_serde.
#[global] Instance plain_amm_serde : Serde Amm.Instruction := opaque_serde.
#[global] Instance plain_ata_serde : Serde Ata.Instruction := opaque_serde.
#[global] Instance writable_storage : StorageFile := fun _ => true.
#[global] Instance plain_holding_borsh : Borsh TokenHolding := {|
  borsh_to_vec _ := [];
  borsh_try_from_slice _ := None;
|}.
(** Text is its bytes. *)
#[global] Instance plain_hex : Hex := {|
  hex_encode := String.string_of_list_byte;
  hex_decode s := Some (String.list_byte_of_string s);
|}.
#[global] Instance plain_hex_laws : HexLaws.
Proof. intros b. cbn [hex_decode hex_encode plain_hex]. f_equal. apply String.list_byte_of_string_of_list_byte. Qed.
#[global] Instance plain_base58 : Base58 := {|
  to_base58 := String.string_of_list_byte;
  from_base58 s := Some (String.list_byte_of_string s);
|}.
#[global] Instance plain_base58_laws : Base58Laws.
Proof. intros b. cbn [from_base58 to_base58 plain_base58]. f_equal. apply String.list_byte_of_string_of_list_byte. Qed.

Definition auth_id : ProgramId := replicate 8 1.
Definition auth_program : Program := mk_Program auth_id [Byte.x01].
Definition other (n : Z) : Program := mk_Program (replicate 8 n) [].
#[global] Instance plain_builtins : BuiltinPrograms := {|
  authenticated_transfer_program := auth_program;
  token_program := other 2;
  amm_program := other 3;
  ata_program := other 4;
  clock_program := other 5;
  vault_program := other 6;
  faucet_program := other 7;
  pinata_program := other 8;
  pinata_token_program := other 9;
|}.
(** The machine runs the transfer program. *)
#[global] Instance auth_vm : ZkVm := fun elf self caller pre instr =>
  match elf, AuthTransfer.main (mk_Env self caller pre instr) with
  | [Byte.x01], Ok (Some o) => inr o
  | _, _ => inl "no output"%string
  end.

(** ** The node: it reports every transaction once it has been asked twice *)
Definition alice_first : AccountId := for_private_account (nullifier_public_key alice_keys) (Regular 0).
Definition init : ProgramCommand := AuthTransferCommand (NativeCommand.Init (MentionId (PrivateId alice_first))).
Definition alice_wallet_storage : Storage := mk_Storage alice {["first" := PrivateId alice_first]} 7.
Definition randomness (i : nat) : list byte := le_bytes 32 (Z.of_nat i + 1).
Definition poller : TxPoller := mk_TxPoller 4 1 100.
Definition from {F A} (d : A) (m : outcome F A) : A := match m with Ok a => a | _ => d end.
Lemma answer_ok {F A} (d : A) (m : outcome F A) : is_ok m = true -> m = Ok (from d m).
Proof. by destruct m. Qed.

Definition node_account (_ : AccountId) : outcome string Account := Ok Account_default.
Definition no_proof (_ : Commitment) : outcome string (option MembershipProof) := Ok None.
Definition sent_tx : PrivacyPreservingTransaction * list SharedSecretKey :=
  from (payment, []) (build_privacy_preserving_tx node_account no_proof alice [PrivateOwned alice_first]
    (serde_to_vec AuthTransfer.Initialize) (without_dependencies authenticated_transfer_program) no_check randomness).
#[global] Instance patient_node : SequencerClient string := {|
  rpc_get_account := node_account;
  rpc_get_account_balance _ := Ok 0;
  rpc_get_accounts_nonces ids := Ok ((fun _ => 0) <$> ids);
  rpc_get_proof_for_commitment := no_proof;
  rpc_send_transaction _ := Ok (zeros 32);
  rpc_get_transaction attempt _ := Ok (if decide (attempt < 2)%nat then None else Some (PrivacyPreserving sent_tx.1));
|}.

(** ** Alice's wallet *)
Definition init_request : Request string :=
  call authenticated_transfer_program [PrivateId alice_first] [] (serde_to_vec AuthTransfer.Initialize).
Lemma init_is_requested : requests 0 alice_wallet_storage init init_request (fun _ => Empty).
Proof. apply requests_native_init. reflexivity. Qed.
Lemma init_built : build_request randomness PrivateOwned alice init_request = Ok sent_tx.
Proof. apply answer_ok. vm_compute. reflexivity. Qed.
Lemma init_polled : poll_tx poller (zeros 32) = Ok (PrivacyPreserving sent_tx.1).
Proof. reflexivity. Qed.
Lemma alice_first_found : exists f, private_account alice alice_first = Some f /\ found_kind f = Regular 0.
Proof.
  assert (Hf : found_kind <$> private_account alice alice_first = Some (Regular 0)) by decide_run.
  destruct (private_account alice alice_first) as [f|]; [|discriminate Hf]. exists f. split; [reflexivity|].
  by injection Hf.
Qed.
Lemma alice_well_kept : well_kept alice.
Proof.
  assert (Hkind : forall kind, kinds_held alice kind -> kind = Regular 0).
  { intros kind (c & node & Hc & Hk). apply alice_node in Hc as [-> ->].
    assert (Hv : (priv_value alice_root).2 = {[Regular 0 := Account_default]}) by decide_run.
    rewrite Hv in Hk. symmetry. by apply lookup_singleton_is_Some in Hk. }
  split; [apply alice_inv|]. split; [split; decide_run|].
  intros c d node node' kind kind' [-> ->]%alice_node [-> ->]%alice_node ->%Hkind ->%Hkind _. exact (conj eq_refl eq_refl).
Qed.

(** ** Witnesses *)
Lemma commands_are_requests_witness :
  execute_subcommand poller randomness 0 alice_wallet_storage init =
    fulfil poller randomness PrivateOwned alice_wallet_storage init_request (fun _ => Empty).
Proof.
  apply commands_are_requests.
  - exact init_is_requested.
  - intros Hnil. discriminate Hnil.
  - intros id Hid. apply list_elem_of_singleton in Hid as ->. destruct alice_first_found as (f & Hf & _). apply resolve_own. by exists f.
Defined.

Lemma commands_store_sent_accounts_witness :
  exists s', execute_subcommand poller randomness 0 alice_wallet_storage init = Ok (s', Empty) /\
    keys_inv (key_chain s') /\ exists committed a,
      priv_new_commitments (priv_message sent_tx.1) !! 0%nat = Some (Commitment_new committed a) /\
      get_account_private (key_chain s') alice_first = Some a.
Proof.
  destruct (commands_store_sent_accounts poller randomness 0 alice_wallet_storage init init_request (fun _ => Empty)
    sent_tx.1 sent_tx.2 (zeros 32)) as (s' & Hrun & Hinv & _ & _ & Hall).
  - exact init_is_requested.
  - intros Hnil. discriminate Hnil.
  - exact alice_well_kept.
  - apply NoDup_singleton.
  - intros id Hid. apply list_elem_of_singleton in Hid as ->. destruct alice_first_found as (f & Hf & Hk).
    exists f, 0. split; [exact Hf|]. split; [exact Hk|]. unfold in_u. lia.
  - rewrite <- surjective_pairing. exact init_built.
  - reflexivity.
  - exact init_polled.
  - exists s'. split; [exact Hrun|]. split; [exact Hinv|]. exact (Hall 0%nat alice_first eq_refl).
Defined.
(** The account is now owned by the transfer program. *)
Lemma first_initialized :
  (program_owner <$> match execute_subcommand poller randomness 0 alice_wallet_storage init with
                     | Ok (s', _) => get_account_private (key_chain s') alice_first
                     | _ => None
                     end) = Some auth_id.
Proof. vm_compute. reflexivity. Qed.
End CommandSamples.

Import KeySamples WalletSamples CommandSamples.

Module AccountSamples.
#[global] Instance one_json : KeyChainJson := fun _ => None.
#[global] Instance plain_config_text : ConfigText := {|
  parse_url s := Some s;
  parse_duration _ := None;
|}.
#[global] Instance quiet_chain : ChainClient string := {|
  rpc_get_last_block_id := Ok 7;
  rpc_get_block _ := Ok None;
  rpc_get_block_range _ _ := Ok [];
  rpc_get_program_ids := Ok ∅;
|}.
#[global] Instance writable_config : ConfigFile := fun _ => true.
Definition rng : GroupCommand.Randomness :=
  GroupCommand.mk_Randomness (replicate 32 Byte.x2b) (replicate 32 Byte.x03) (zeros 12) (replicate 32 Byte.x05).

(** ** Text forms *)
Lemma text_forms_roundtrip_witness :
  AccountId_wf alice_first /\
  mention_from_str (mention_display (MentionId (PrivateId alice_first))) = MentionId (PrivateId alice_first) /\
  account_of_human (human_of_account paid) = Ok paid /\
  BasicAuth_from_str (BasicAuth_display (mk_BasicAuth "user" (Some "pa:ss"%string))) = mk_BasicAuth "user" (Some "pa:ss"%string).
Proof.
  destruct text_forms_roundtrip as (_ & Hm & Ha & _ & Hb).
  assert (Hwf : AccountId_wf alice_first) by (vm_compute; reflexivity).
  split; [exact Hwf|]. split; [exact (proj2 (Hm alice_first Hwf))|]. split.
  - apply Ha. apply (bool_decide_unpack _). vm_compute. exact I.
  - apply Hb; [reflexivity|discriminate].
Defined.

(** ** A new private account with a label *)
Definition core : WalletCore := WalletCore_new WalletConfig_default None (mk_Storage alice {["first" := PrivateId alice_first]} 7).
Definition new_savings : Command := AccountCmd (AccountCommand.New (AccountCommand.NewPrivate None (Some "savings"%string))).
Definition run_core (c : Command) := execute_command (replicate 8 0) randomness 0 rng core c.
Definition savings_core : WalletCore :=
  match run_core new_savings with Ok (w, _) => w | _ => core end.
Definition savings_id : AccountId :=
  match run_core new_savings with Ok (_, Ok (RegisterAccount id)) => id | _ => alice_first end.
Lemma savings_created : run_core new_savings = Ok (savings_core, Ok (RegisterAccount savings_id)).
Proof.
  unfold savings_core, savings_id. destruct (run_ok (run_core new_savings)
    (fun r => match r with (_, Ok (RegisterAccount _)) => true | _ => false end)) as ([w r] & Hrun & Hr); [vm_compute; reflexivity|].
  rewrite Hrun. destruct r as [[]| |]; try discriminate Hr. reflexivity.
Qed.
Lemma savings_chain : key_chain (core_storage savings_core) = alice1.
Proof. decide_run. Qed.
Lemma local_commands_keep_wallet_witness :
  kept (core_storage core) (core_storage savings_core) (Some "savings"%string) (Ok (E := CliError string) (RegisterAccount savings_id)).
Proof.
  apply (local_commands_keep_wallet (replicate 8 0) randomness 0 rng core new_savings).
  - reflexivity.
  - exact alice_wallet.
  - exact savings_created.
  - rewrite savings_chain. exact alice1_fits.
Defined.

(** ** Bob joins the family *)
Definition family : GroupKeyHolder := from_gms (replicate 32 Byte.x2a).
Definition alice_family : Storage := mk_Storage alice2 ∅ 7.
Definition bob_storage : Storage := mk_Storage bob ∅ 3.
Lemma invited_members_share_accounts_witness :
  exists key sb1 sealed sb2,
    GroupCommand.handle (E := string) rng GroupCommand.NewSealingKey bob_storage = Ok (sb1, Ok (Some key)) /\
    GroupCommand.handle (E := string) rng (GroupCommand.Invite "family" key) alice_family = Ok (alice_family, Ok (Some sealed)) /\
    GroupCommand.handle (E := string) rng (GroupCommand.Join "relatives" sealed) sb1 = Ok (sb2, Ok None) /\
    snd <$> create_shared_regular_account (key_chain sb2) "relatives" 3 = snd <$> create_shared_regular_account alice2 "family" 3.
Proof.
  destruct (invited_members_share_accounts (E := string) alice_family bob_storage "family" "relatives" family rng rng)
    as (key & sb1 & sealed & sb2 & Hkey & Hinvite & Hjoin & _ & Hshare).
  - reflexivity.
  - reflexivity.
  - decide_run.
  - decide_run.
  - decide_run.
  - decide_run.
  - reflexivity.
  - exists key, sb1, sealed, sb2. split; [exact Hkey|]. split; [exact Hinvite|]. split; [exact Hjoin|].
    exact (proj1 (proj2 (Hshare (PdaSeed_new (zeros 32)) (replicate 8 0) 3))).
Defined.

(** ** A payment under another identifier

    The family has an account with identifier 3 and 500 units.  Somebody pays 1 unit
    to the public keys of that account under identifier 9. *)
Definition family_keys : PrivateKeyHolder := derive_keys_for_shared_account family (derivation_seed 3).
Definition family_vpk : ViewingPublicKey := run (mk_Vpk []) (generate_viewing_public_key family_keys).
Definition family_chain : KeyChain :=
  mk_KeyChain (mk_SecretSpendingKey []) family_keys (generate_nullifier_public_key family_keys) family_vpk.
Definition family_id : AccountId := for_regular_private_account (generate_nullifier_public_key family_keys) 3.
Definition family_entry : SharedAccountEntry := mk_SharedEntry "family" 3 None None paid.
Definition saver : UserKeyChain := insert_shared_private_account alice2 family_id family_entry.
Definition dust : Account := mk_Account DEFAULT_PROGRAM_ID 1 (mk_Data []) 0.
Definition dust_comm : Commitment :=
  Commitment_new (for_regular_private_account (generate_nullifier_public_key family_keys) 9) dust.
Definition dust_secret : SharedSecretKey * EphemeralPublicKey :=
  run no_epk (produce_one_sided_shared_secret_receiver family_vpk esk).
Definition dust_payment : PrivacyPreservingTransaction :=
  mk_PrivacyTx (mk_PrivacyMessage [] [] []
    [EncryptedAccountData_new (run (mk_Ciphertext []) (encrypt dust (Regular 9) dust_secret.1 dust_comm 0))
       (generate_nullifier_public_key family_keys) family_vpk dust_secret.2] [dust_comm] [] always always)
    (mk_PrivacyWitnessSet [] (mk_Proof [])).

Lemma dust_sent : sent (priv_message dust_payment) 0 family_chain esk (Regular 9) dust.
Proof.
  destruct (run_ok (produce_one_sided_shared_secret_receiver family_vpk esk) (fun _ => true)) as ([s p] & Hs & _);
    [vm_compute; reflexivity|].
  assert (Hsp : dust_secret = (s, p)) by (unfold dust_secret; by rewrite Hs).
  destruct (run_ok (E := Empty_set) (encrypt dust (Regular 9) s dust_comm 0) (fun _ => true)) as (ct & Hct & _).
  { destruct (encrypt_total dust (Regular 9) s dust_comm 0) as (ct & -> & _); [| |done]; by apply (bool_decide_unpack _); vm_compute. }
  exists s, p, ct, dust_comm. split; [exact Hs|]. split; [exact Hct|]. split; [done|].
  cbn [dust_payment priv_message encrypted_private_post_states lookup list_lookup]. rewrite Hsp. cbn [fst snd]. by rewrite Hct.
Qed.
Definition family_key : AccountId * NullifierPublicKey * ViewingPublicKey * ViewingSecretKey :=
  (family_id, generate_nullifier_public_key family_keys, family_vpk, viewing_secret_key family_keys).
Lemma family_scanned : shared_keys_of saver family_id family_entry = Ok [family_key].
Proof. decide_run. Qed.
Lemma saver_shared id entry : shared_private_accounts saver !! id = Some entry -> id = family_id /\ entry = family_entry.
Proof.
  assert (Hempty : shared_private_accounts alice2 = ∅) by decide_run.
  unfold saver, insert_shared_private_account, with_shared. cbn [shared_private_accounts]. rewrite Hempty.
  intros Hin. apply lookup_singleton_Some in Hin as [-> ->]. exact (conj eq_refl eq_refl).
Qed.
Lemma dust_output j o : encrypted_private_post_states (priv_message dust_payment) !! j = Some o ->
  j = 0%nat /\ o = hd (EncryptedAccountData_new (mk_Ciphertext []) (generate_nullifier_public_key family_keys) family_vpk (mk_Epk []))
                    (encrypted_private_post_states (priv_message dust_payment)).
Proof. destruct j as [|j]; [|discriminate]. intros Ho. apply (inj Some) in Ho as <-. exact (conj eq_refl eq_refl). Qed.
Lemma dust_readable : shared_readable (priv_message dust_payment) family_key.
Proof.
  intros j o Ho _. destruct (dust_output j o Ho) as [-> ->]. split; [by eexists|]. split; [done|].
  destruct (run_ok (SharedSecretKey_new family_key.2 (epk_bytes (epk (hd (EncryptedAccountData_new (mk_Ciphertext [])
    (generate_nullifier_public_key family_keys) family_vpk (mk_Epk [])) (encrypted_private_post_states (priv_message dust_payment))))))
    (fun _ => true)) as (x & Hx & _); [vm_compute; reflexivity|]. exists x. exact Hx.
Qed.
Lemma saver_scannable : shared_scannable saver (priv_message dust_payment).
Proof.
  intros id entry Hin. destruct (saver_shared id entry Hin) as [-> ->]. exists [family_key]. split; [exact family_scanned|].
  intros e He. apply list_elem_of_singleton in He as ->. exact dust_readable.
Qed.
Lemma dust_vsk : is_Some (secret_key_from_bytes (viewing_secret_key family_keys)).
Proof. decide_run. Qed.
Lemma dust_esk : is_Some (secret_key_from_bytes esk).
Proof. decide_run. Qed.
Lemma family_vpk_ok : generate_viewing_public_key family_keys = Ok family_vpk.
Proof. decide_run. Qed.
Lemma dust_wf : Account_wf dust /\ PrivateAccountKind_wf (Regular 9).
Proof. split; apply (bool_decide_unpack _); vm_compute; exact I. Qed.
Lemma dust_only i b : shared_decodes (priv_message dust_payment) family_key i b -> b = dust.
Proof.
  intros (o & x & c & kind & Ho & _ & Hx & Hc & Hd). pose proof (sent_shared_decodes (priv_message dust_payment) family_id family_keys
    family_vpk family_chain 0 esk (Regular 9) dust family_vpk_ok eq_refl eq_refl dust_vsk dust_esk (proj1 dust_wf) (proj2 dust_wf) dust_sent)
    as (o' & x' & c' & kind' & Ho' & _ & Hx' & Hc' & Hd').
  destruct (dust_output i o Ho) as [-> ->]. destruct (dust_output 0 o' Ho') as [_ ->].
  change family_key.2 with (viewing_secret_key family_keys) in Hx. cbn [snd] in Hx'. rewrite Hx' in Hx.
  apply (proj1 (ok_inj _ _)) in Hx. subst x'. rewrite Hc' in Hc. apply (inj Some) in Hc. subst c'. rewrite Hd' in Hd.
  apply (inj Some) in Hd. exact (eq_sym (f_equal snd Hd)).
Qed.

Lemma shared_account_takes_any_output_witness :
  shared_account <$> shared_private_account saver family_id = Some paid /\
  exists k', sync_private_accounts_with_tx saver (PrivacyPreserving dust_payment) = Ok k' /\
    shared_account <$> shared_private_account k' family_id = Some dust /\
    get_private_account_commitment k' family_id = Some (Commitment_new family_id dust) /\
    bool_decide (Commitment_new family_id dust ∈ priv_new_commitments (priv_message dust_payment)) = false.
Proof.
  split; [decide_run|].
  destruct (shared_account_takes_any_output saver dust_payment family_id family_entry family_keys family_vpk family_chain 0 esk
    (Regular 9) dust) as (k' & Hrun & Hstate & Hcomm).
  - decide_run.
  - decide_run.
  - exact family_vpk_ok.
  - exact family_scanned.
  - reflexivity.
  - reflexivity.
  - exact dust_vsk.
  - exact dust_esk.
  - exact (proj1 dust_wf).
  - exact (proj2 dust_wf).
  - exact dust_sent.
  - exact saver_scannable.
  - exact dust_only.
  - exists k'. split; [exact Hrun|]. split; [rewrite Hstate; reflexivity|]. split; [apply Hcomm; decide_run|].
    vm_compute. reflexivity.
Defined.
End AccountSamples.

(** ** The C interface over the same wallet *)
Module FfiSamples.
Import AccountSamples.
Definition digit (n : nat) : Ascii.ascii := Ascii.ascii_of_nat (97 + n).
Fixpoint letters (l : list byte) : string :=
  match l with
  | [] => EmptyString
  | b :: l => let n := N.to_nat (Byte.to_N b) in String (digit (n / 16)) (String (digit (n mod 16)) (letters l))
  end.
(** Text with two letters for a byte. *)
#[local] Instance letter_hex : Hex := {| hex_encode := letters; hex_decode _ := None |}.
Lemma letters_not_zero l : has_char Ascii.zero (letters l) = false.
Proof. induction l as [|b l IH]; [reflexivity|]. cbn -[has_char]. destruct b; exact IH. Qed.
#[local] Instance FfiAccountListEntry_eq_dec : EqDecision FfiAccountListEntry.
Proof. solve_decision. Defined.
#[local] Instance Object_eq_dec : EqDecision Object.
Proof. solve_decision. Defined.
#[local] Instance FfiAccountList_eq_dec : EqDecision FfiAccountList.
Proof. solve_decision. Defined.
#[local] Instance FfiTransferResult_eq_dec : EqDecision FfiTransferResult.
Proof. solve_decision. Defined.
Definition alice_handle : WalletHandle := Some (mk_Wrapper core false).
Definition register_first : SendingCall := RegisterPrivate (Some (value alice_first)).
Lemma first_requested : request randomness alice ∅ register_first = Some (Ok (Ok (E := ExecutionFailureKind string) (zeros 32))).
Proof.
  destruct (run_ok (fst <$> NativeFacade.register_account_private alice randomness alice_first) (fun h => bool_decide (h = zeros 32)))
    as (h & Hh & Hz); [vm_compute; reflexivity|]. apply bool_decide_eq_true in Hz as ->. cbn [request register_first].
  by f_equal.
Qed.
Lemma ffi_sends_like_the_wallet_witness :
  exists p, sending_call randomness register_first alice_handle (Some FfiTransferResult_default) ∅ =
      Ok (Success, (Some (mk_FfiResult (Some p) true), {[p := CStringObject (letters (zeros 32))]})) /\
    wallet_ffi_free_transfer_result (Some (mk_FfiResult (Some p) true)) {[p := CStringObject (letters (zeros 32))]} = Ok ∅.
Proof.
  pose proof (ffi_sends_like_the_wallet randomness register_first alice_handle (Some FfiTransferResult_default) ∅
    letters_not_zero I) as Hseen. cbn [alice_handle wrapper_core poisoned] in Hseen.
  change (key_chain (core_storage core)) with alice in Hseen. rewrite first_requested in Hseen.
  destruct Hseen as (p & _ & Hcall & Hfree). exists p. split; [exact Hcall|exact Hfree].
Defined.

Definition alice_account : Account := mk_Account (replicate 8 7) 500 (mk_Data [Byte.x01; Byte.x02]) 3.
Lemma ffi_data_roundtrip_witness :
  (let '(f, m') := account_to_ffi alice_account ∅ in
   account_from_ffi f m' = Ok alice_account /\ wallet_ffi_free_account_data (Some f) m' = Ok ∅) /\
  (let '(f, m') := keys_to_ffi alice_keys ∅ in
   keys_npk f = nullifier_public_key alice_keys /\ keys_vpk f m' = Ok (viewing_public_key alice_keys)).
Proof.
  destruct (ffi_data_roundtrip alice_account alice_keys (AccountId_new (replicate 32 Byte.x41)) ∅) as (Ha & Hk & _).
  - apply (bool_decide_unpack _). vm_compute. exact I.
  - vm_compute. reflexivity.
  - reflexivity.
  - vm_compute. reflexivity.
  - split; [exact Ha|]. exact (conj (proj1 Hk) (proj1 (proj2 Hk))).
Defined.

(** Alice's client asks for the address of the sequencer, for its accounts and for a
    registration that fails, and frees the list. *)
Definition address_call := run (None, ∅) (wallet_ffi_get_sequencer_addr alice_handle ∅).
Definition list_call := run (Success, (None, ∅)) (wallet_ffi_list_accounts alice_handle (Some FfiAccountList_default) address_call.2).
Definition failed_call := run (Success, (None, ∅)) (sending_call randomness (RegisterPrivate (Some (zeros 32))) alice_handle
  (Some FfiTransferResult_default) list_call.2.2).
Definition held : list Handed :=
  [HandedResult (default FfiTransferResult_default failed_call.2.1); HandedList (default FfiAccountList_default list_call.2.1);
   HandedString address_call.1].
Lemma held_by_client : client held failed_call.2.2.
Proof.
  apply (client_call (tail held) list_call.2.2 (hd (HandedString None) held)); [|apply (hands_result _ randomness
    (RegisterPrivate (Some (zeros 32))) alice_handle failed_call.1); decide_run].
  apply (client_call (tail (tail held)) address_call.2); [|apply (hands_list _ alice_handle list_call.1); decide_run].
  apply (client_call [] ∅); [exact client_start|]. apply (hands_sequencer_addr _ alice_handle). decide_run.
Qed.
Lemma ffi_memory_safe_witness : size failed_call.2.2 = 2%nat /\ free_all held failed_call.2.2 = Ok ∅.
Proof.
  split; [vm_compute; reflexivity|]. destruct (ffi_memory_safe held failed_call.2.2 held_by_client) as [Hfree _].
  apply Hfree. reflexivity.
Defined.
End FfiSamples.
