(* ===== verification/IndexerService.v ===== *)
(** The ingestion loop and the RPC service of the indexer:
    [indexer/core/src/lib.rs], the zone cursor of [block_store.rs], and
    [indexer/service/src/service.rs], after the types of the service
    [indexer/service/protocol] and their conversions.

    The loop reads the messages of a channel of the settlement layer through the
    zone SDK, a third-party client: [next_messages] gives the messages after a
    cursor.  It ends for no reason of its own; the model has the effect of one
    message and of one poll. *)

From S2P Require Import Prelude Bytes Crypto Account Ids ProgramCore Borsh MerkleTree Host State Encryption CircuitIo Transactions StateDiffs Chain SequencerStore IndexerStore TextForms.

Open Scope Z_scope.

(** ** The types that the indexer service sends to its clients and the conversions
    between them and the types of the node: [indexer/service/protocol].

    The module [Protocol] holds the types of the crate, which repeat those of the
    node with public fields and with the hash of a transaction next to it.  A
    conversion to a protocol type is [of_x], the conversion back, which can fail, is
    [to_x].  JSON, base58, base64 and hexadecimal are third-party code. *)

(** [collect::<Result<Vec<_>, _>>()] stops at the first error. *)
Lemma mapM_ok {E A B} (f : A -> outcome E B) (g : A -> B) l :
  (forall x, x ∈ l -> f x = Ok (g x)) -> mapM f l = Ok (g <$> l).
Proof.
  induction l as [|x l IH]; intros Hf; [done|]. cbn [mapM]. rewrite (Hf x) by by left.
  cbn [mbind outcome_bind]. rewrite IH; [done|]. intros y Hy. apply Hf. by right.
Qed.
Lemma mapM_inv {E A B} (f : A -> outcome E B) l k : mapM f l = Ok k -> Forall2 (fun x y => f x = Ok y) l k.
Proof.
  revert k. induction l as [|x l IH]; intros k Hm; cbn [mapM] in Hm; [injection Hm as <-; constructor|].
  apply bind_ok in Hm as (y & Hy & Hm). apply bind_ok in Hm as (k' & Hk & [= <-]). constructor; [done|by apply IH].
Qed.

Lemma fmap_ok {E A B} (f : A -> B) (m : outcome E A) b : f <$> m = Ok b <-> exists a, m = Ok a /\ b = f a.
Proof. destruct m; cbn; naive_solver. Qed.

(** ** The types *)
Module Protocol.
Record ProgramId := mk_ProgramId { program_id_words : list Z }.
Record AccountId := mk_AccountId { id_value : list byte }.
Record Data := mk_PData { inner_data : list byte }.
Record HashType := mk_Hash { hash_bytes_of : list byte }.
Record Signature := mk_Sig { sig_value : list byte }.
Record PublicKey := mk_Pk { pk_value : list byte }.
Record EphemeralPublicKey := mk_PEpk { epk_value : list byte }.
Record Ciphertext := mk_PCiphertext { ciphertext_value : list byte }.
Record Commitment := mk_PCommitment { commitment_value : list byte }.
Record Nullifier := mk_PNullifier { nullifier_value : list byte }.
Record CommitmentSetDigest := mk_Digest { digest_value : list byte }.
Record Proof := mk_PProof { proof_value : list byte }.
Record MantleMsgId := mk_MsgId { msg_id_value : list byte }.
Record ValidityWindow := mk_PWindow { window_pair : option Z * option Z }.

Record Account := mk_PAccount {
  p_program_owner : ProgramId;
  p_balance : Z;
  p_data : Data;
  p_nonce : Z;
}.
Record EncryptedAccountData := mk_PEncrypted {
  p_ciphertext : Ciphertext;
  p_epk : EphemeralPublicKey;
  p_view_tag : byte;
}.
Record PublicMessage := mk_PPublicMessage {
  m_program_id : ProgramId;
  m_account_ids : list AccountId;
  m_nonces : list Z;
  m_instruction_data : InstructionData;
}.
Record PrivacyPreservingMessage := mk_PPrivacyMessage {
  p_public_account_ids : list AccountId;
  p_nonces : list Z;
  p_public_post_states : list Account;
  p_encrypted_private_post_states : list EncryptedAccountData;
  p_new_commitments : list Commitment;
  p_new_nullifiers : list (Nullifier * CommitmentSetDigest);
  p_block_validity_window : ValidityWindow;
  p_timestamp_validity_window : ValidityWindow;
}.
Record ProgramDeploymentMessage := mk_PDeploymentMessage { p_bytecode : list byte }.
Record WitnessSet := mk_PWitnessSet {
  signatures_and_public_keys : list (Signature * PublicKey);
  p_proof : option Proof;
}.
Record PublicTransaction := mk_PPublicTx {
  pub_hash_ : HashType;
  p_pub_message : PublicMessage;
  p_pub_witness_set : WitnessSet;
}.
Record PrivacyPreservingTransaction := mk_PPrivacyTx {
  priv_hash_ : HashType;
  p_priv_message : PrivacyPreservingMessage;
  p_priv_witness_set : WitnessSet;
}.
Record ProgramDeploymentTransaction := mk_PDeploymentTx {
  dep_hash_ : HashType;
  p_dep_message : ProgramDeploymentMessage;
}.
Inductive Transaction :=
  | Public (tx : PublicTransaction)
  | PrivacyPreserving (tx : PrivacyPreservingTransaction)
  | ProgramDeployment (tx : ProgramDeploymentTransaction).
(** [Transaction::hash] *)
Definition hash (tx : Transaction) : HashType :=
  match tx with
  | Public tx => pub_hash_ tx
  | PrivacyPreserving tx => priv_hash_ tx
  | ProgramDeployment tx => dep_hash_ tx
  end.
Record BlockHeader := mk_PHeader {
  p_block_id : BlockId;
  p_prev_block_hash : HashType;
  p_hash : HashType;
  p_timestamp : Timestamp;
  p_signature : Signature;
}.
Record BlockBody := mk_PBody { transactions : list Transaction }.
Inductive BedrockStatus := Pending | Safe | Finalized.
Record Block := mk_PBlock {
  p_header : BlockHeader;
  p_body : BlockBody;
  p_bedrock_status : BedrockStatus;
  p_bedrock_parent_id : MantleMsgId;
}.
End Protocol.

(** ** Text forms *)
Section Text.
Context `{Base58, Hex}.

Inductive ProgramIdParseError := PInvalidBase58 | PInvalidLength (n : nat).
Definition program_id_display (p : Protocol.ProgramId) : string := to_base58 (words_bytes (Protocol.program_id_words p)).
Definition program_id_from_str (s : string) : outcome ProgramIdParseError Protocol.ProgramId :=
  bytes ← ok_or (from_base58 s) PInvalidBase58;
  ensure (bool_decide (length bytes = 32%nat)) (PInvalidLength (length bytes)) ;;
  '(arr, _) ← unwrap (read_words 8 bytes);
  Ok (Protocol.mk_ProgramId arr).
Definition account_id_display (id : Protocol.AccountId) : string := to_base58 (Protocol.id_value id).
Definition account_id_from_str (s : string) : option Protocol.AccountId :=
  bytes ← from_base58 s;
  if decide (length bytes = 32%nat) then Some (Protocol.mk_AccountId bytes) else None.
(** [hex::decode_to_slice] into an array of [n] bytes. *)
Definition decode_to_slice (n : nat) (s : string) : option (list byte) :=
  bytes ← hex_decode s;
  if decide (length bytes = n) then Some bytes else None.
Definition signature_display (s : Protocol.Signature) : string := hex_encode (Protocol.sig_value s).
Definition signature_from_str (s : string) : option Protocol.Signature := Protocol.mk_Sig <$> decode_to_slice 64 s.
Definition hash_display (h : Protocol.HashType) : string := hex_encode (Protocol.hash_bytes_of h).
Definition hash_from_str (s : string) : option Protocol.HashType := Protocol.mk_Hash <$> decode_to_slice 32 s.
End Text.

(** ** Conversions *)

(** Values of one field *)
Definition of_program_id (p : ProgramId) : Protocol.ProgramId := Protocol.mk_ProgramId p.
Definition to_program_id (p : Protocol.ProgramId) : ProgramId := Protocol.program_id_words p.
Definition of_account_id (id : AccountId) : Protocol.AccountId := Protocol.mk_AccountId (value id).
Definition to_account_id (id : Protocol.AccountId) : AccountId := AccountId_new (Protocol.id_value id).
Definition of_data (d : Data) : Protocol.Data := Protocol.mk_PData (data_bytes d).
Definition to_data (d : Protocol.Data) : outcome DataTooBigError Data := Data_try_from (Protocol.inner_data d).
Definition of_commitment (c : Commitment) : Protocol.Commitment := Protocol.mk_PCommitment (commitment_bytes c).
Definition to_commitment (c : Protocol.Commitment) : Commitment := mk_Commitment (Protocol.commitment_value c).
Definition of_nullifier (n : Nullifier) : Protocol.Nullifier := Protocol.mk_PNullifier (nullifier_bytes n).
Definition to_nullifier (n : Protocol.Nullifier) : Nullifier := mk_Nullifier (Protocol.nullifier_value n).
Definition of_digest (d : CommitmentSetDigest) : Protocol.CommitmentSetDigest := Protocol.mk_Digest d.
Definition to_digest (d : Protocol.CommitmentSetDigest) : CommitmentSetDigest := Protocol.digest_value d.
Definition of_ciphertext (c : Ciphertext) : Protocol.Ciphertext := Protocol.mk_PCiphertext (ciphertext_bytes c).
Definition to_ciphertext (c : Protocol.Ciphertext) : Ciphertext := mk_Ciphertext (Protocol.ciphertext_value c).
Definition of_epk (k : EphemeralPublicKey) : Protocol.EphemeralPublicKey := Protocol.mk_PEpk (epk_bytes k).
Definition to_epk (k : Protocol.EphemeralPublicKey) : EphemeralPublicKey := mk_Epk (Protocol.epk_value k).
Definition of_signature (s : Signature) : Protocol.Signature := Protocol.mk_Sig (signature_value s).
Definition to_signature (s : Protocol.Signature) : Signature := mk_Signature (Protocol.sig_value s).
Definition of_public_key (k : PublicKey) : Protocol.PublicKey := Protocol.mk_Pk (public_key_value k).
Definition to_public_key `{Schnorr} (k : Protocol.PublicKey) : outcome NssaError PublicKey :=
  PublicKey_try_new (Protocol.pk_value k).
Definition of_proof (p : Proof_) : Protocol.Proof := Protocol.mk_PProof (proof_bytes p).
Definition to_proof (p : Protocol.Proof) : Proof_ := mk_Proof (Protocol.proof_value p).
Definition of_hash (h : HashType) : Protocol.HashType := Protocol.mk_Hash h.
Definition to_hash (h : Protocol.HashType) : HashType := Protocol.hash_bytes_of h.
Definition of_window (w : ValidityWindow) : Protocol.ValidityWindow := Protocol.mk_PWindow (win_from w, win_to w).
Definition to_window (w : Protocol.ValidityWindow) : outcome InvalidWindow ValidityWindow :=
  window_try_from (Protocol.window_pair w).

(** Accounts *)
Definition of_account (a : Account) : Protocol.Account :=
  Protocol.mk_PAccount (of_program_id (program_owner a)) (balance a) (of_data (data a)) (nonce a).
Definition to_account (a : Protocol.Account) : outcome DataTooBigError Account :=
  d ← to_data (Protocol.p_data a);
  Ok (mk_Account (to_program_id (Protocol.p_program_owner a)) (Protocol.p_balance a) d (Protocol.p_nonce a)).

(** Messages *)
Definition of_encrypted (e : EncryptedAccountData) : Protocol.EncryptedAccountData :=
  Protocol.mk_PEncrypted (of_ciphertext (ciphertext e)) (of_epk (epk e)) (view_tag e).
Definition to_encrypted (e : Protocol.EncryptedAccountData) : EncryptedAccountData :=
  mk_Encrypted (to_ciphertext (Protocol.p_ciphertext e)) (to_epk (Protocol.p_epk e)) (Protocol.p_view_tag e).
Definition of_public_message (m : PublicMessage) : Protocol.PublicMessage :=
  Protocol.mk_PPublicMessage (of_program_id (pub_program_id m)) (of_account_id <$> pub_account_ids m) (pub_nonces m)
    (pub_instruction_data m).
Definition to_public_message (m : Protocol.PublicMessage) : PublicMessage :=
  mk_PublicMessage (to_program_id (Protocol.m_program_id m)) (to_account_id <$> Protocol.m_account_ids m)
    (Protocol.m_nonces m) (Protocol.m_instruction_data m).
Definition of_privacy_message (m : PrivacyMessage) : Protocol.PrivacyPreservingMessage :=
  Protocol.mk_PPrivacyMessage (of_account_id <$> public_account_ids m) (priv_nonces m) (of_account <$> public_post_states m)
    (of_encrypted <$> encrypted_private_post_states m) (of_commitment <$> priv_new_commitments m)
    ((fun p => (of_nullifier p.1, of_digest p.2)) <$> priv_new_nullifiers m)
    (of_window (priv_block_validity_window m)) (of_window (priv_timestamp_validity_window m)).
Definition to_privacy_message (m : Protocol.PrivacyPreservingMessage) : outcome NssaError PrivacyMessage :=
  posts ← map_err (fun _ => InvalidInput "Data exceeds maximum length") (mapM to_account (Protocol.p_public_post_states m));
  block_window ← map_err (fun _ => InvalidInput "Invalid window") (to_window (Protocol.p_block_validity_window m));
  timestamp_window ← map_err (fun _ => InvalidInput "Invalid window") (to_window (Protocol.p_timestamp_validity_window m));
  Ok (mk_PrivacyMessage (to_account_id <$> Protocol.p_public_account_ids m) (Protocol.p_nonces m) posts
        (to_encrypted <$> Protocol.p_encrypted_private_post_states m) (to_commitment <$> Protocol.p_new_commitments m)
        ((fun p => (to_nullifier p.1, to_digest p.2)) <$> Protocol.p_new_nullifiers m) block_window timestamp_window).
Definition of_deployment_message (m : DeploymentMessage) : Protocol.ProgramDeploymentMessage :=
  Protocol.mk_PDeploymentMessage (bytecode m).
Definition to_deployment_message (m : Protocol.ProgramDeploymentMessage) : DeploymentMessage :=
  mk_DeploymentMessage (Protocol.p_bytecode m).

Section Transactions.
Context `{Sha256, Schnorr, TransactionEncodings}.

(** Witness sets *)
Definition of_signatures (l : SignaturesAndKeys) : list (Protocol.Signature * Protocol.PublicKey) :=
  (fun p => (of_signature p.1, of_public_key p.2)) <$> l.
Definition to_signatures (l : list (Protocol.Signature * Protocol.PublicKey)) : outcome NssaError SignaturesAndKeys :=
  mapM (fun p : Protocol.Signature * Protocol.PublicKey => pk ← to_public_key p.2; Ok (to_signature p.1, pk)) l.
Definition of_public_witness (w : PublicWitnessSet) : Protocol.WitnessSet :=
  Protocol.mk_PWitnessSet (of_signatures (pub_signatures w)) None.
Definition of_privacy_witness (w : PrivacyWitnessSet) : Protocol.WitnessSet :=
  Protocol.mk_PWitnessSet (of_signatures (priv_signatures w)) (Some (of_proof (proof w))).
Definition to_privacy_witness (w : Protocol.WitnessSet) : outcome NssaError PrivacyWitnessSet :=
  sigs ← to_signatures (Protocol.signatures_and_public_keys w);
  proof ← ok_or (to_proof <$> Protocol.p_proof w) (InvalidInput "Missing proof");
  Ok (mk_PrivacyWitnessSet sigs proof).

(** Transactions.  The hash that is sent along is not looked at on the way back. *)
Definition of_public_tx (tx : PublicTransaction) : Protocol.PublicTransaction :=
  Protocol.mk_PPublicTx (of_hash (pub_tx_hash tx)) (of_public_message (pub_message tx)) (of_public_witness (pub_witness_set tx)).
Definition to_public_tx (tx : Protocol.PublicTransaction) : outcome NssaError PublicTransaction :=
  sigs ← to_signatures (Protocol.signatures_and_public_keys (Protocol.p_pub_witness_set tx));
  Ok (mk_PublicTx (to_public_message (Protocol.p_pub_message tx)) (mk_PublicWitnessSet sigs)).
Definition of_privacy_tx (tx : PrivacyPreservingTransaction) : Protocol.PrivacyPreservingTransaction :=
  Protocol.mk_PPrivacyTx (of_hash (priv_tx_hash tx)) (of_privacy_message (priv_message tx))
    (of_privacy_witness (priv_witness_set tx)).
Definition to_privacy_tx (tx : Protocol.PrivacyPreservingTransaction) : outcome NssaError PrivacyPreservingTransaction :=
  m ← to_privacy_message (Protocol.p_priv_message tx);
  w ← to_privacy_witness (Protocol.p_priv_witness_set tx);
  Ok (mk_PrivacyTx m w).
Definition of_deployment_tx (tx : ProgramDeploymentTransaction) : Protocol.ProgramDeploymentTransaction :=
  Protocol.mk_PDeploymentTx (of_hash (dep_tx_hash tx)) (of_deployment_message (dep_message tx)).
Definition to_deployment_tx (tx : Protocol.ProgramDeploymentTransaction) : ProgramDeploymentTransaction :=
  mk_DeploymentTx (to_deployment_message (Protocol.p_dep_message tx)).
Definition of_tx (tx : NSSATransaction) : Protocol.Transaction :=
  match tx with
  | Public tx => Protocol.Public (of_public_tx tx)
  | PrivacyPreserving tx => Protocol.PrivacyPreserving (of_privacy_tx tx)
  | ProgramDeployment tx => Protocol.ProgramDeployment (of_deployment_tx tx)
  end.
Definition to_tx (tx : Protocol.Transaction) : outcome NssaError NSSATransaction :=
  match tx with
  | Protocol.Public tx => Public <$> to_public_tx tx
  | Protocol.PrivacyPreserving tx => PrivacyPreserving <$> to_privacy_tx tx
  | Protocol.ProgramDeployment tx => Ok (ProgramDeployment (to_deployment_tx tx))
  end.

(** Blocks *)
Definition of_header (h : BlockHeader) : Protocol.BlockHeader :=
  Protocol.mk_PHeader (header_block_id h) (of_hash (prev_block_hash h)) (of_hash (header_hash h)) (header_timestamp h)
    (of_signature (signature h)).
Definition to_header (h : Protocol.BlockHeader) : BlockHeader :=
  mk_BlockHeader (Protocol.p_block_id h) (to_hash (Protocol.p_prev_block_hash h)) (to_hash (Protocol.p_hash h))
    (Protocol.p_timestamp h) (to_signature (Protocol.p_signature h)).
Definition of_body (b : list NSSATransaction) : Protocol.BlockBody := Protocol.mk_PBody (of_tx <$> b).
Definition to_body (b : Protocol.BlockBody) : outcome NssaError (list NSSATransaction) := mapM to_tx (Protocol.transactions b).
Definition of_status (s : BedrockStatus) : Protocol.BedrockStatus :=
  match s with Pending => Protocol.Pending | Safe => Protocol.Safe | Finalized => Protocol.Finalized end.
Definition to_status (s : Protocol.BedrockStatus) : BedrockStatus :=
  match s with Protocol.Pending => Pending | Protocol.Safe => Safe | Protocol.Finalized => Finalized end.
Definition of_block (b : Block) : Protocol.Block :=
  Protocol.mk_PBlock (of_header (header b)) (of_body (body b)) (of_status (bedrock_status b))
    (Protocol.mk_MsgId (bedrock_parent_id b)).
Definition to_block (b : Protocol.Block) : outcome NssaError Block :=
  txs ← to_body (Protocol.p_body b);
  Ok (mk_Block (to_header (Protocol.p_header b)) txs (to_status (Protocol.p_bedrock_status b))
        (Protocol.msg_id_value (Protocol.p_bedrock_parent_id b))).
End Transactions.

(** ** What is sent reads back *)
Section RoundTrips.
Context `{Sha256, Schnorr, TransactionEncodings}.

(** The transactions that the types of the protocol can carry: valid public keys,
    windows that are not empty, data within its limit. *)
Definition keys_valid (l : SignaturesAndKeys) : Prop := Forall (fun p => schnorr_key_valid (public_key_value p.2) = true) l.
Definition window_ok (w : ValidityWindow) : Prop := check_window w = Ok ().
Definition tx_readable (tx : NSSATransaction) : Prop :=
  match tx with
  | Public t => keys_valid (pub_signatures (pub_witness_set t))
  | PrivacyPreserving t =>
      keys_valid (priv_signatures (priv_witness_set t)) /\
      Forall (fun a => Data_wf (data a)) (public_post_states (priv_message t)) /\
      window_ok (priv_block_validity_window (priv_message t)) /\ window_ok (priv_timestamp_validity_window (priv_message t))
  | ProgramDeployment _ => True
  end.

Lemma fmap_id_ext {A B} (f : A -> B) (g : B -> A) (l : list A) : (forall x, g (f x) = x) -> g <$> (f <$> l) = l.
Proof. intros Hid. induction l as [|x l IH]; [done|]. cbn. by rewrite Hid, IH. Qed.

(** A partial inverse, element by element. *)
Lemma mapM_back {E A B} (P : A -> Prop) (f : A -> B) (g : B -> outcome E A) l :
  (forall x y, g (f x) = Ok y -> P x /\ y = x) -> (forall x, P x -> g (f x) = Ok x) ->
  (forall k, mapM g (f <$> l) = Ok k -> Forall P l /\ k = l) /\ (Forall P l -> mapM g (f <$> l) = Ok l).
Proof.
  intros Hinv Hok. induction l as [|x l [IHi IHo]]; cbn [fmap list_fmap mapM].
  { split; [intros k [= <-]; by split|done]. }
  split.
  - intros k (y & Hy & (k' & Hk & [= <-])%bind_ok)%bind_ok. apply Hinv in Hy as [HP ->].
    apply IHi in Hk as [HPl ->]. split; [by constructor|done].
  - intros [HP Hl]%Forall_cons. rewrite (Hok x HP). cbn [mbind outcome_bind]. by rewrite (IHo Hl).
Qed.

Lemma data_back d d' : to_data (of_data d) = Ok d' <-> d' = d /\ Data_wf d.
Proof. unfold to_data, of_data. cbn. rewrite Data_try_from_ok. destruct d. naive_solver. Qed.
Lemma account_back a a' : to_account (of_account a) = Ok a' <-> a' = a /\ Data_wf (data a).
Proof.
  unfold to_account. cbn [of_account Protocol.p_data Protocol.p_program_owner Protocol.p_balance Protocol.p_nonce]. split.
  - intros (d & [-> Hwf]%data_back & [= <-])%bind_ok. by destruct a.
  - intros [-> Hwf]. rewrite (proj2 (data_back (data a) (data a))) by done. by destruct a.
Qed.
Lemma window_back w w' : to_window (of_window w) = Ok w' <-> w' = w /\ window_ok w.
Proof.
  unfold to_window, of_window, window_ok, window_try_from. cbn [Protocol.window_pair fst snd].
  change (mk_Window (win_from w) (win_to w)) with (mk_Window (win_from w) (win_to w)).
  assert (Hw : mk_Window (win_from w) (win_to w) = w) by by destruct w. rewrite Hw.
  destruct (check_window w) as [[]| |]; cbn; naive_solver.
Qed.
Lemma signatures_back l :
  (forall k, to_signatures (of_signatures l) = Ok k -> keys_valid l /\ k = l) /\
  (keys_valid l -> to_signatures (of_signatures l) = Ok l).
Proof.
  apply (mapM_back (fun p : Signature * PublicKey => schnorr_key_valid (public_key_value p.2) = true)).
  - intros [[s] [k]] y. unfold to_public_key, PublicKey_try_new. cbn. case_match; [|done]. by intros [= <-].
  - intros [[s] [k]] Hk. unfold to_public_key, PublicKey_try_new. cbn in *. by rewrite Hk.
Qed.

Lemma public_message_back m : to_public_message (of_public_message m) = m.
Proof.
  unfold to_public_message. cbn. rewrite (fmap_id_ext of_account_id to_account_id) by by intros [].
  by destruct m.
Qed.
Definition message_readable (m : PrivacyMessage) : Prop :=
  Forall (fun a => Data_wf (data a)) (public_post_states m) /\
  window_ok (priv_block_validity_window m) /\ window_ok (priv_timestamp_validity_window m).
Lemma privacy_message_back m :
  (forall m', to_privacy_message (of_privacy_message m) = Ok m' -> message_readable m /\ m' = m) /\
  (message_readable m -> to_privacy_message (of_privacy_message m) = Ok m).
Proof.
  destruct (mapM_back (fun a => Data_wf (data a)) of_account to_account (public_post_states m)) as [Hinv Hok].
  { by intros a a' [-> ?]%account_back. }
  { intros a Ha. by apply account_back. }
  assert (Hm : mk_PrivacyMessage (to_account_id <$> (of_account_id <$> public_account_ids m)) (priv_nonces m) (public_post_states m)
    (to_encrypted <$> (of_encrypted <$> encrypted_private_post_states m)) (to_commitment <$> (of_commitment <$> priv_new_commitments m))
    ((fun p => (to_nullifier p.1, to_digest p.2)) <$> ((fun p => (of_nullifier p.1, of_digest p.2)) <$> priv_new_nullifiers m))
    (priv_block_validity_window m) (priv_timestamp_validity_window m) = m).
  { rewrite !fmap_id_ext; [by destruct m|by intros [[] d]|by intros []|by intros [[] [] t]|by intros []]. }
  unfold to_privacy_message, of_privacy_message, message_readable.
  cbn [Protocol.p_public_account_ids Protocol.p_nonces Protocol.p_public_post_states Protocol.p_encrypted_private_post_states
    Protocol.p_new_commitments Protocol.p_new_nullifiers Protocol.p_block_validity_window Protocol.p_timestamp_validity_window].
  split.
  - intros m' (posts & Hp%map_err_ok & (w1 & Hw1%map_err_ok & (w2 & Hw2%map_err_ok & [= <-])%bind_ok)%bind_ok)%bind_ok.
    apply Hinv in Hp as [Hdata ->]. apply window_back in Hw1 as [-> Hw1]. apply window_back in Hw2 as [-> Hw2]. by split.
  - intros (Hdata & Hw1 & Hw2). rewrite (Hok Hdata), (proj2 (window_back _ _) (conj eq_refl Hw1)).
    cbn [map_err mbind outcome_bind]. rewrite (proj2 (window_back _ _) (conj eq_refl Hw2)). cbn [map_err mbind outcome_bind].
    by rewrite Hm.
Qed.

Lemma tx_back tx : (forall tx', to_tx (of_tx tx) = Ok tx' -> tx_readable tx /\ tx' = tx) /\ (tx_readable tx -> to_tx (of_tx tx) = Ok tx).
Proof.
  destruct tx as [t|t|t]; cbn [of_tx to_tx tx_readable].
  - destruct (signatures_back (pub_signatures (pub_witness_set t))) as [Hinv Hok].
    unfold to_public_tx. cbn [of_public_tx Protocol.p_pub_witness_set Protocol.p_pub_message of_public_witness
      Protocol.signatures_and_public_keys]. rewrite public_message_back. split.
    + intros tx' (t' & (k & [Hv ->]%Hinv & [= <-])%bind_ok & ->)%fmap_ok. by destruct t as [m []].
    + intros Hv. rewrite (Hok Hv). by destruct t as [m []].
  - destruct (signatures_back (priv_signatures (priv_witness_set t))) as [Hinv Hok].
    destruct (privacy_message_back (priv_message t)) as [Hminv Hmok]. unfold to_privacy_tx, to_privacy_witness.
    cbn [of_privacy_tx Protocol.p_priv_message Protocol.p_priv_witness_set of_privacy_witness
      Protocol.signatures_and_public_keys Protocol.p_proof]. split.
    + intros tx' (t' & (m & [Hm ->]%Hminv & (w & (k & [Hv ->]%Hinv & [= <-])%bind_ok & [= <-])%bind_ok)%bind_ok & ->)%fmap_ok.
      split; [by split|]. by destruct t as [m [s []]].
    + intros (Hv & Hm). rewrite (Hmok Hm), (Hok Hv). cbn. by destruct t as [m [s []]].
  - by split; [intros tx' [= <-]|]; destruct t as [[]].
Qed.

(** A block of the service reads back exactly when its transactions are readable,
    and never as another block. *)
Lemma block_back b :
  (forall b', to_block (of_block b) = Ok b' -> Forall tx_readable (body b) /\ b' = b) /\
  (Forall tx_readable (body b) -> to_block (of_block b) = Ok b).
Proof.
  destruct (mapM_back tx_readable of_tx to_tx (body b)) as [Hinv Hok].
  { intros tx tx' Ht. by apply (proj1 (tx_back tx)). }
  { intros tx Ht. by apply tx_back. }
  assert (Hb : mk_Block (to_header (of_header (header b))) (body b) (to_status (of_status (bedrock_status b))) (bedrock_parent_id b) = b).
  { destruct b as [[id prev h ts []] txs [] parent]; done. }
  unfold to_block, to_body. cbn [of_block Protocol.p_header Protocol.p_body Protocol.p_bedrock_status
    Protocol.p_bedrock_parent_id of_body Protocol.transactions Protocol.msg_id_value]. split.
  - intros b' (txs & Ht & [= <-])%bind_ok. apply Hinv in Ht as [Hr ->]. by split.
  - intros Hr. rewrite (Hok Hr). cbn [mbind outcome_bind]. by rewrite Hb.
Qed.

(** *** The hash next to a transaction

    Reading a transaction and sending it again restores everything but the hash,
    which is computed anew, and a proof next to a public transaction. *)
Definition sealed (tx : NSSATransaction) (p : Protocol.Transaction) : Protocol.Transaction :=
  match p with
  | Protocol.Public t => Protocol.Public (Protocol.mk_PPublicTx (of_hash (tx_hash tx)) (Protocol.p_pub_message t)
      (Protocol.mk_PWitnessSet (Protocol.signatures_and_public_keys (Protocol.p_pub_witness_set t)) None))
  | Protocol.PrivacyPreserving t => Protocol.PrivacyPreserving (Protocol.mk_PPrivacyTx (of_hash (tx_hash tx))
      (Protocol.p_priv_message t) (Protocol.p_priv_witness_set t))
  | Protocol.ProgramDeployment t => Protocol.ProgramDeployment (Protocol.mk_PDeploymentTx (of_hash (tx_hash tx))
      (Protocol.p_dep_message t))
  end.

Lemma mapM_forth {E A B} (f : A -> B) (g : B -> outcome E A) l k :
  (forall x y, g x = Ok y -> f y = x) -> mapM g l = Ok k -> f <$> k = l.
Proof.
  intros Hg Hm%mapM_inv. induction Hm as [|x y l k Hxy _ IH]; [done|]. cbn. by rewrite (Hg x y Hxy), IH.
Qed.
Lemma signatures_forth l k : to_signatures l = Ok k -> of_signatures k = l.
Proof.
  apply mapM_forth. intros [[s] [pk]] y. unfold to_public_key, PublicKey_try_new. cbn. case_match; [|done]. by intros [= <-].
Qed.
Lemma window_forth w w' : to_window w = Ok w' -> of_window w' = w.
Proof. destruct w as [[f t]]. unfold to_window. intros [-> _]%window_try_from_ok. done. Qed.
Lemma account_forth a a' : to_account a = Ok a' -> of_account a' = a.
Proof.
  destruct a as [[p] b [d] n]. unfold to_account, to_data. cbn [Protocol.p_data Protocol.inner_data].
  intros (d' & [-> _]%Data_try_from_ok & [= <-])%bind_ok. done.
Qed.
Lemma privacy_message_forth m m' : to_privacy_message m = Ok m' -> of_privacy_message m' = m.
Proof.
  intros (posts & Hp%map_err_ok & (w1 & Hw1%map_err_ok & (w2 & Hw2%map_err_ok & [= <-])%bind_ok)%bind_ok)%bind_ok.
  unfold of_privacy_message. cbn [public_account_ids priv_nonces public_post_states encrypted_private_post_states
    priv_new_commitments priv_new_nullifiers priv_block_validity_window priv_timestamp_validity_window].
  rewrite (mapM_forth _ _ _ _ account_forth Hp), (window_forth _ _ Hw1), (window_forth _ _ Hw2).
  rewrite !fmap_id_ext; [by destruct m|by intros [[] []]|by intros []|by intros [[] [] t]|by intros []].
Qed.
Lemma public_message_forth m : of_public_message (to_public_message m) = m.
Proof.
  unfold of_public_message. cbn. rewrite (fmap_id_ext to_account_id of_account_id) by by intros [].
  by destruct m as [[] ? ? ?].
Qed.

Lemma tx_forth p tx : to_tx p = Ok tx -> of_tx tx = sealed tx p.
Proof.
  destruct p as [t|t|t]; cbn [to_tx sealed].
  - unfold to_public_tx. destruct (to_signatures _) as [k| |] eqn:Hk; [|done..]. intros [= <-].
    cbn [of_tx of_public_tx]. unfold of_public_tx. cbn [pub_message pub_witness_set of_public_witness pub_signatures].
    unfold of_public_witness. cbn [pub_signatures]. by rewrite public_message_forth, (signatures_forth _ _ Hk).
  - unfold to_privacy_tx. destruct (to_privacy_message _) as [m| |] eqn:Hm; [|done..]. unfold to_privacy_witness.
    destruct (to_signatures _) as [k| |] eqn:Hk; [|done..]. cbn [mbind outcome_bind].
    destruct t as [h msg [sigs [[pr]|]]]; [|done]. intros [= <-].
    cbn [of_tx of_privacy_tx priv_message priv_witness_set of_privacy_witness priv_signatures proof].
    unfold of_privacy_tx, of_privacy_witness. cbn [priv_message priv_witness_set priv_signatures proof].
    cbn [Protocol.p_priv_message Protocol.p_priv_witness_set Protocol.signatures_and_public_keys] in *.
    by rewrite (privacy_message_forth _ _ Hm), (signatures_forth _ _ Hk).
  - intros [= <-]. by destruct t as [h []].
Qed.
End RoundTrips.


(** ** The channel *)
Abbreviation MsgId := (list byte).
Abbreviation Slot := Z.
Abbreviation Cursor := (MsgId * Slot)%type.
Inductive ZoneMessage :=
  | ZoneBlock (id : MsgId) (data : list byte)
  | Deposit
  | Withdraw.
(** The zone SDK: the messages that the [n]-th call of [next_messages] gives until
    its stream ends. *)
Class ZoneIndexer := next_messages : option Cursor -> nat -> list (ZoneMessage * Slot).
(** [serde_json] for cursors, and the derived encoding of blocks. *)
Class CursorJson := {
  cursor_to_json : Cursor -> list byte;
  cursor_from_json : list byte -> option Cursor;
}.
Class CursorJsonLaws `{CursorJson} := cursor_from_to_json c : cursor_from_json (cursor_to_json c) = Some c.

(** ** The cursor in the database *)
Definition put_zone_sdk_indexer_cursor_bytes (bytes : list byte) (d : IxDb.RocksDBIO) : IxDb.RocksDBIO :=
  IxDb.mk_RocksDBIO (IxDb.cf_block d) (IxDb.cf_breakpoint d) (IxDb.cf_hash_to_id d) (IxDb.cf_tx_to_id d) (IxDb.cf_acc_meta d)
    (IxDb.cf_acc_to_tx d) (IxDb.first_block_in_db d) (IxDb.first_block_set d) (IxDb.last_block_in_db d)
    (IxDb.last_observed_l1_lib_header d) (IxDb.last_breakpoint_id d) (Some bytes).
Inductive CursorError := CursorNotDeserialized.
Section Cursors.
Context `{CursorJson}.

Definition get_zone_cursor (s : IndexerStore) : outcome CursorError (option Cursor) :=
  match IxDb.zone_sdk_indexer_cursor (ix_dbio s) with
  | None => Ok None
  | Some bytes => cursor ← ok_or (cursor_from_json bytes) CursorNotDeserialized; Ok (Some cursor)
  end.
Definition set_zone_cursor (cursor : Cursor) (s : IndexerStore) : IndexerStore :=
  mk_IndexerStore (put_zone_sdk_indexer_cursor_bytes (cursor_to_json cursor) (ix_dbio s)) (current_state s).
End Cursors.

(** ** [subscribe_parse_block_stream] *)
Record BlockStream := mk_BlockStream {
  stream_cursor : option Cursor;
  stream_store : IndexerStore;
}.
Section Ingestion.
Context `{Validation, TransactionEncodings, CursorJson, Borsh Block}.

Definition placeholder_l1_header : list byte := zeros 32.

(** Before the loop. *)
Definition start_stream (store : IndexerStore) : guest BlockStream :=
  match get_zone_cursor store with
  | Ok cursor => Ok (mk_BlockStream cursor store)
  | _ => Panic "Failed to load zone-sdk indexer cursor"
  end.

(** One message, and the block that is yielded.  A block that cannot be stored is
    logged and yielded all the same. *)
Definition process_message (s : BlockStream) (m : ZoneMessage * Slot) : guest (BlockStream * option Block) :=
  let '(msg, slot) := m in
  match msg with
  | Deposit | Withdraw => Ok (s, None)
  | ZoneBlock id data =>
      match borsh_try_from_slice data with
      | None => Ok (mk_BlockStream (Some (id, slot)) (set_zone_cursor (id, slot) (stream_store s)), None)
      | Some block =>
          store ← match ix_put_block block placeholder_l1_header (stream_store s) with
                  | (store, Panic msg) => Panic msg
                  | (store, _) => Ok store
                  end;
          Ok (mk_BlockStream (Some (id, slot)) (set_zone_cursor (id, slot) store), Some block)
      end
  end.
(** The messages of one call of [next_messages], and the blocks that are yielded. *)
Definition process_messages (s : BlockStream) (batch : list (ZoneMessage * Slot)) : guest (BlockStream * list Block) :=
  fold_o (fun (acc : BlockStream * list Block) m =>
    '(s, b) ← process_message acc.1 m;
    Ok (s, acc.2 ++ option_list b)) (s, []) batch.
(** One turn of the loop. *)
Definition poll `{ZoneIndexer} (n : nat) (s : BlockStream) : guest (BlockStream * list Block) :=
  process_messages s (next_messages (stream_cursor s) n).
End Ingestion.

(** ** Subscriptions

    The loop of the service hands the id of every new block to its subscribers;
    a sink that does not accept it is logged and kept. *)
Section Subscriptions.
Context {Sink : Type} (try_send : Sink -> BlockId -> Sink * bool).

Inductive LoopEvent :=
  | NewSubscription (sink : Sink)
  | NewBlock (b : Protocol.Block).
Definition respond_subscribers (subscribers : list Sink) (e : LoopEvent) : list Sink :=
  match e with
  | NewSubscription sink => subscribers ++ [sink]
  | NewBlock b => (fun sink => (try_send sink (Protocol.p_block_id (Protocol.p_header b))).1) <$> subscribers
  end.
End Subscriptions.

(** ** The RPC handlers *)
Module Rpc.
Section Handlers.
Context `{Validation, TransactionEncodings}.
Implicit Types s : IndexerStore.

Definition get_last_finalized_block_id s : option BlockId := IxDb.last_block_in_db (ix_dbio s).
Definition get_block_by_id s (block_id : BlockId) : option Protocol.Block :=
  of_block <$> IxDb.get_block (ix_dbio s) block_id.
Definition get_block_by_hash s (block_hash : Protocol.HashType) : option Protocol.Block :=
  of_block <$> ix_get_block_by_hash s (to_hash block_hash).
Definition get_account s (account_id : Protocol.AccountId) : Protocol.Account :=
  of_account (account_current_state s (to_account_id account_id)).
Definition get_account_at_block s (account_id : Protocol.AccountId) (block_id : BlockId) : outcome DbError Protocol.Account :=
  of_account <$> account_state_at_block s (to_account_id account_id) block_id.
Definition get_transaction s (hash : Protocol.HashType) : option Protocol.Transaction :=
  of_tx <$> ix_get_transaction_by_hash s (to_hash hash).
Definition get_blocks s (before : option BlockId) (limit : nat) : list Protocol.Block :=
  of_block <$> IxDb.get_block_batch (ix_dbio s) before limit.
Definition get_transactions_by_account s (account_id : Protocol.AccountId) (offset limit : Z) :
    outcome DbError (list Protocol.Transaction) :=
  (fun txs : list NSSATransaction => of_tx <$> txs) <$>
    IxDb.get_acc_transactions (ix_dbio s) (AccountId_new (Protocol.id_value account_id)) offset limit.
(** The state is computed once more. *)
Definition healthcheck s : outcome DbError () := IxDb.final_state (ix_dbio s) ;; Ok ().
End Handlers.
End Rpc.
