(* ===== verification/IndexerTheorems.v ===== *)
(** What the indexer guarantees: it ingests the blocks of its channel once and in
    order, whatever the batches it gets and after whichever completed message it is
    restarted, and its answers are those of the chain it has ingested. *)

From S2P Require Import Prelude Bytes Crypto Account Ids ProgramCore Borsh MerkleTree Host State Transactions StateDiffs NativePrograms Chain SequencerStore Sequencer IndexerStore SequencerInvariant IndexerInvariant TextForms IndexerService.

Open Scope Z_scope.

(** ** The channel *)
Definition cursor_of (m : ZoneMessage * Slot) : option Cursor :=
  match m with (ZoneBlock id _, slot) => Some (id, slot) | _ => None end.
Definition block_of `{Borsh Block} (m : ZoneMessage * Slot) : option Block :=
  match m.1 with ZoneBlock _ data => borsh_try_from_slice data | _ => None end.
Definition channel_blocks `{Borsh Block} (channel : list (ZoneMessage * Slot)) : list Block := omap block_of channel.
Definition channel_cursors (channel : list (ZoneMessage * Slot)) : list Cursor := omap cursor_of channel.
(** The messages after a cursor. *)
Definition after (c : option Cursor) (channel : list (ZoneMessage * Slot)) : list (ZoneMessage * Slot) :=
  match c with
  | None => channel
  | Some c => match list_find (fun m => cursor_of m = Some c) channel with
              | Some (i, _) => drop (S i) channel
              | None => []
              end
  end.
(** A call gives some of the messages after the cursor, in their order. *)
Class ZoneIndexerLaws `{ZoneIndexer} (channel : list (ZoneMessage * Slot)) :=
  next_messages_follow c n : next_messages c n `prefix_of` after c channel.

Lemma omap_snoc {A B} (f : A -> option B) l x : omap f (l ++ [x]) = omap f l ++ option_list (f x).
Proof. rewrite omap_app. cbn. by destruct (f x). Qed.

Lemma cursors_snoc l x : channel_cursors (l ++ [x]) = channel_cursors l ++ option_list (cursor_of x).
Proof. apply omap_snoc. Qed.
Lemma blocks_snoc `{Borsh Block} l x : channel_blocks (l ++ [x]) = channel_blocks l ++ option_list (block_of x).
Proof. apply omap_snoc. Qed.

(** The messages after the last cursor of a prefix of the channel: those from some
    place on with no block between it and the end of the prefix. *)
Lemma after_last `{Borsh Block} channel k :
  NoDup (channel_cursors channel) -> (k <= length channel)%nat ->
  exists j, (j <= k)%nat /\ after (last (channel_cursors (take k channel))) channel = drop j channel /\
    channel_cursors (take j channel) = channel_cursors (take k channel) /\
    channel_blocks (take j channel) = channel_blocks (take k channel).
Proof.
  intros Hnd. induction k as [|k IH]; intros Hk; [by exists 0%nat|].
  destruct (lookup_lt_is_Some_2 channel k ltac:(lia)) as [m Hm]. rewrite (take_S_r _ _ _ Hm), cursors_snoc.
  destruct (cursor_of m) as [c|] eqn:Hc; [change (option_list (Some c)) with [c]|change (option_list (@None Cursor)) with (@nil Cursor)].
  2:{ rewrite app_nil_r. destruct IH as (j & Hj & Ha & Hcs & Hbs); [lia|]. exists j. split_and!; [lia|done|done|].
      rewrite blocks_snoc, Hbs. destruct m as [[] slot]; [done|by rewrite app_nil_r..]. }
  exists (S k). split; [done|]. split_and!; [| |by rewrite (take_S_r _ _ _ Hm)].
  - rewrite last_snoc. unfold after. destruct (list_find _ channel) as [[i m']|] eqn:Hf.
    + apply list_find_Some in Hf as (Hi & Hci & Hfirst). enough (i = k) as -> by done.
      destruct (decide (i < k)%nat) as [Hlt|Hge].
      * exfalso. rewrite <- (take_drop k channel) in Hnd. unfold channel_cursors in Hnd. rewrite omap_app in Hnd.
        apply NoDup_app in Hnd as (_ & Hdis & _). apply (Hdis c).
        -- apply list_elem_of_omap. exists m'. split; [|done]. apply list_elem_of_lookup_2 with i. by rewrite lookup_take_lt.
        -- apply list_elem_of_omap. exists m. split; [|done]. apply list_elem_of_lookup_2 with 0%nat.
           by rewrite lookup_drop, Nat.add_0_r.
      * destruct (decide (i = k)) as [|Hne]; [done|]. by destruct (Hfirst k m Hm ltac:(lia)).
    + apply list_find_None in Hf. apply (list_elem_of_lookup_2 channel k) in Hm.
      by destruct (proj1 (Forall_forall _ _) Hf m Hm).
  - by rewrite (take_S_r _ _ _ Hm), cursors_snoc, Hc.
Qed.

(** ** Accepted transactions can be sent

    The public states of a privacy preserving transaction are [Data] within its
    limit by their type; the rest is checked by the replay. *)
Definition tx_typed (tx : NSSATransaction) : Prop :=
  match tx with
  | PrivacyPreserving t => Forall (fun a => Data_wf (data a)) (public_post_states (priv_message t))
  | _ => True
  end.

Section Readable.
Context `{Validation}.

Lemma valid_keys h sks : signatures_valid h sks = true -> keys_valid sks.
Proof.
  rewrite signatures_valid_Forall. intros Hf. eapply Forall_impl; [exact Hf|]. intros [s pk]. unfold signature_is_valid_for. cbn. by destruct (schnorr_key_valid (public_key_value pk)).
Qed.
Lemma valid_window w v : is_valid_for w v = true -> window_ok w.
Proof.
  intros [Hf Ht]%is_valid_for_iff. unfold window_ok, check_window. destruct w as [[f|] [t|]]; cbn in *; try done.
  rewrite decide_False; [done|]. specialize (Hf f eq_refl). specialize (Ht t eq_refl). lia.
Qed.
Lemma public_readable st id ts t diff : from_public_transaction st id ts t = Ok diff -> tx_readable (Public t).
Proof.
  unfold from_public_transaction, check_public_message. intros Hf. inv_ok.
  match goal with Hv : pub_is_valid_for _ _ = true |- _ => by eapply valid_keys end.
Qed.
Lemma privacy_readable st id ts t diff :
  from_privacy_preserving_transaction st id ts t = Ok diff -> tx_typed (PrivacyPreserving t) -> tx_readable (PrivacyPreserving t).
Proof.
  intros Hf Hty. unfold from_privacy_preserving_transaction, check_privacy_message in Hf. inv_ok.
  match goal with Hv : signatures_are_valid_for _ _ = true |- _ => apply valid_keys in Hv end.
  split_and!; [done|done|by eapply valid_window; eassumption..].
Qed.

Lemma replay_tx_readable id ts st tx st' : replay_tx id ts st tx = Ok st' -> tx_typed tx -> tx_readable tx.
Proof.
  unfold replay_tx. case_decide.
  - destruct tx as [t|t|t]; [|done..]. intros (diff & Hd & _)%map_err_ok%bind_ok _. by eapply public_readable.
  - intros (tx' & Hs%map_err_ok%stateless_check_ok & (diff & [Hd _]%validate_ok_diff & _)%map_err_ok%bind_ok)%bind_ok Hty.
    subst tx'. destruct tx as [t|t|t]; [by eapply public_readable|by eapply privacy_readable|done].
Qed.
Lemma replay_txs_readable id ts txs : forall st st',
  replay_txs id ts st txs = (st', Ok ()) -> Forall tx_typed txs -> Forall tx_readable txs.
Proof.
  induction txs as [|tx txs IH]; intros st st' Hr Hty; [done|]. cbn [replay_txs] in Hr.
  apply Forall_cons in Hty as [Hty Htys]. destruct (replay_tx id ts st tx) as [st1| |] eqn:Hx; [|done..].
  constructor; [by eapply replay_tx_readable|by eapply IH].
Qed.
Lemma replay_readable st b st' : replay_ok st b = Ok st' -> Forall tx_typed (body b) -> Forall tx_readable (body b).
Proof.
  intros Hr%replay_ok_spec Hty. unfold replay_block in Hr. destruct (last (body b)) as [tx|] eqn:Hl; [|done].
  apply last_Some in Hl as [l Hb]. rewrite Hb in *. case_decide; [|done]. subst tx.
  assert (Htake : take (pred (length (l ++ [Public (clock_invocation (header_timestamp (header b)))]))) (l ++ [Public (clock_invocation (header_timestamp (header b)))]) = l).
  { rewrite length_app. cbn [length]. rewrite Nat.add_1_r. cbn [pred]. apply take_app_length. }
  rewrite Htake in Hr. apply Forall_app in Hty as [Hty _]. apply Forall_app. split; [|by repeat constructor].
  destruct (replay_txs _ _ st l) as [st1 [[]| |]] eqn:Hx; [|done..]. by eapply replay_txs_readable.
Qed.
Lemma chain_readable blocks : forall st st' b,
  fold_o replay_ok st blocks = Ok st' -> b ∈ blocks -> Forall tx_typed (body b) -> Forall tx_readable (body b).
Proof.
  induction blocks as [|b0 blocks IH]; intros st st' b Hf Hb; [by apply elem_of_nil in Hb|].
  apply bind_ok in Hf as (st1 & Hr & Hf). apply elem_of_cons in Hb as [->|Hb]; [by eapply replay_readable|by eapply IH].
Qed.
End Readable.

(** ** Ingestion *)
Section Ingestion.
Context `{Validation, TransactionEncodings, CursorJson, !CursorJsonLaws, Borsh Block}.
Variable initial : V03State.
Variable channel : list (ZoneMessage * Slot).

(** The channel has distinct cursors, and its blocks are a chain that replays. *)
Record chain_channel : Prop := {
  cc_cursors : NoDup (channel_cursors channel);
  cc_ids i b : channel_blocks channel !! i = Some b -> header_block_id (header b) = Z.of_nat i + 1;
  cc_replays : exists st, fold_o replay_ok initial (channel_blocks channel) = Ok st;
  cc_bound : Z.of_nat (length (channel_blocks channel)) < 2 ^ 64;
}.

(** The indexer has handled the first [k] messages. *)
Abbreviation finalized ys := (SeqDb.set_status Finalized <$> ys).
Definition at_place (k : nat) (s : BlockStream) (ys : list Block) : Prop :=
  (k <= length channel)%nat /\ ys = channel_blocks (take k channel) /\
  stream_cursor s = last (channel_cursors (take k channel)) /\
  get_zone_cursor (stream_store s) = Ok (stream_cursor s) /\
  (exists B o, ix_inv initial B o (finalized ys) (stream_store s)) /\
  indexed (finalized ys) (ix_dbio (stream_store s)).

Lemma cursor_read c st : get_zone_cursor (set_zone_cursor c st) = Ok (Some c).
Proof.
  unfold get_zone_cursor, set_zone_cursor. cbn [ix_dbio put_zone_sdk_indexer_cursor_bytes IxDb.zone_sdk_indexer_cursor].
  by rewrite cursor_from_to_json.
Qed.
Lemma set_cursor_inv B o bs c st : ix_inv initial B o bs st -> ix_inv initial B o bs (set_zone_cursor c st).
Proof. intros ([] & Hrest). split; [by split|exact Hrest]. Qed.
Lemma set_cursor_indexed bs c st : indexed bs (ix_dbio st) -> indexed bs (ix_dbio (set_zone_cursor c st)).
Proof. by apply indexed_ext. Qed.

Lemma fold_finalized st ys : fold_o replay_ok st (finalized ys) = fold_o replay_ok st ys.
Proof.
  revert st. induction ys as [|b ys IH]; intros st; [done|]. cbn [fmap list_fmap fold_o]. rewrite replay_ok_set_status.
  destruct (replay_ok st b); cbn; [apply IH|done..].
Qed.

(** A block that follows is stored, in the tables too. *)
Lemma next_block_stored k s ys b :
  chain_channel -> at_place k s ys -> channel_blocks channel !! length ys = Some b -> ys ++ [b] `prefix_of` channel_blocks channel ->
  exists store, ix_put_block b placeholder_l1_header (stream_store s) = (store, Ok ()) /\
    (exists B o, ix_inv initial B o (finalized (ys ++ [b])) store) /\ indexed (finalized (ys ++ [b])) (ix_dbio store).
Proof.
  intros [_ Hids [stl Hr] Hbound] (_ & _ & _ & _ & (B & o & Hinv) & Hix) Hb [rest Hrest].
  pose proof (lookup_lt_Some _ _ _ Hb) as Hlt. pose proof (Hids _ _ Hb) as Hid.
  assert (Hst : exists st, replay_block (current_state (stream_store s)) b = (st, Ok ())).
  { destruct Hinv as (_ & Hcur & _). rewrite fold_finalized in Hcur. rewrite Hrest, fold_o_app, fold_o_app, Hcur in Hr.
    cbn [mbind outcome_bind fold_o] in Hr. apply bind_ok in Hr as (st & Hst & _).
    apply bind_ok in Hst as (st' & Hst & _). exists st'. by apply replay_ok_spec. }
  destruct Hst as [st Hst].
  destruct (ix_put_block_inv _ _ _ _ _ b placeholder_l1_header st Hinv) as (store & Hput & _ & Hinv'); [by rewrite length_fmap|rewrite length_fmap; lia|done|].
  exists store. rewrite fmap_app. split_and!; [exact Hput|by exists B, o|].
  pose proof (put_block_indexed _ _ (SeqDb.set_status Finalized b) placeholder_l1_header Hix) as Hix'.
  unfold ix_put_block in Hput. rewrite Hst in Hput. destruct (IxDb.put_block _ _ _) as [d r].
  injection Hput as <- _. apply Hix'. by rewrite length_fmap.
Qed.

Lemma message_handled k s ys m :
  chain_channel -> at_place k s ys -> channel !! k = Some m ->
  exists s', process_message s m = Ok (s', block_of m) /\ at_place (S k) s' (ys ++ option_list (block_of m)).
Proof.
  intros Hcc Hat Hm. pose proof Hat as (Hk & Hys & Hcur & Hread & (B & o & Hinv) & Hix).
  assert (Hpos : (S k <= length channel)%nat) by by eapply lookup_lt_Some.
  assert (Hblocks : ys ++ option_list (block_of m) = channel_blocks (take (S k) channel))
    by by rewrite (take_S_r _ _ _ Hm), blocks_snoc, Hys.
  assert (Hcursors : channel_cursors (take (S k) channel) = channel_cursors (take k channel) ++ option_list (cursor_of m))
    by by rewrite (take_S_r _ _ _ Hm), cursors_snoc.
  destruct m as [[id data| |] slot]; cbn [process_message].
  2,3: exists s; split; [done|]; split_and!; [done|done|by rewrite Hcursors; cbn; rewrite app_nil_r|done| |];
    cbn; rewrite app_nil_r; [by exists B, o|done].
  assert (Hlast : last (channel_cursors (take (S k) channel)) = Some (id, slot)) by by rewrite Hcursors; cbn; rewrite last_snoc.
  unfold block_of in Hblocks |- *. cbn [fst] in Hblocks |- *. destruct (borsh_try_from_slice data) as [b|].
  - assert (Hpre : ys ++ [b] `prefix_of` channel_blocks channel).
    { exists (channel_blocks (drop (S k) channel)). cbn in Hblocks. rewrite Hblocks. unfold channel_blocks.
      by rewrite <- omap_app, take_drop. }
    destruct (next_block_stored k s ys b Hcc Hat) as (store & Hput & (B' & o' & Hinv') & Hix'); [|done|].
    { destruct Hpre as [rest ->]. rewrite <- app_assoc. by apply list_lookup_middle. }
    eexists. rewrite Hput. split; [reflexivity|]. split_and!; [done|done|done|apply cursor_read| |].
    + exists B', o'. by apply set_cursor_inv.
    + by apply set_cursor_indexed.
  - eexists. split; [reflexivity|]. split_and!; [done|done|done|apply cursor_read| |]; cbn in *; rewrite app_nil_r in *.
    + exists B, o. by apply set_cursor_inv.
    + by apply set_cursor_indexed.
Qed.

Lemma batch_handled batch : forall k s ys acc,
  chain_channel -> at_place k s ys -> batch `prefix_of` drop k channel ->
  exists s', fold_o (fun (acc : BlockStream * list Block) m =>
      '(s, b) ← process_message acc.1 m; Ok (s, acc.2 ++ option_list b)) (s, acc) batch =
      Ok (s', acc ++ channel_blocks batch) /\ at_place (k + length batch) s' (ys ++ channel_blocks batch).
Proof.
  induction batch as [|m batch IH]; intros k s ys acc Hcc Hat Hpre.
  - exists s. cbn. by rewrite !app_nil_r, Nat.add_0_r.
  - destruct Hpre as [rest Hdrop]. assert (Hm : channel !! k = Some m).
    { rewrite <- (Nat.add_0_r k), <- lookup_drop, Hdrop. done. }
    destruct (message_handled k s ys m Hcc Hat Hm) as (s1 & Hs1 & Hat1).
    destruct (IH (S k) s1 _ (acc ++ option_list (block_of m)) Hcc Hat1) as (s' & Hs' & Hat').
    { exists rest. rewrite (drop_S _ _ _ Hm) in Hdrop. by injection Hdrop. }
    assert (Hcons : channel_blocks (m :: batch) = option_list (block_of m) ++ channel_blocks batch).
    { unfold channel_blocks. cbn. by destruct (block_of m). }
    exists s'. cbn [fold_o fst snd]. rewrite Hs1. cbn [mbind outcome_bind]. rewrite Hs', Hcons, !app_assoc.
    split; [done|]. cbn [length]. by rewrite Nat.add_succ_r.
Qed.

(** The place can be taken just after the last block. *)
Lemma poll_handled k s ys batch :
  chain_channel -> at_place k s ys -> batch `prefix_of` after (stream_cursor s) channel ->
  exists j s', (j <= k)%nat /\ after (stream_cursor s) channel = drop j channel /\ at_place j s ys /\
    process_messages s batch = Ok (s', channel_blocks batch) /\ at_place (j + length batch) s' (ys ++ channel_blocks batch).
Proof.
  intros Hcc Hat Hpre. pose proof Hat as (Hk & Hys & Hcur & Hrest).
  destruct (after_last channel k (cc_cursors Hcc) Hk) as (j & Hj & Ha & Hcs & Hbs). rewrite <- Hcur in Ha.
  assert (Hatj : at_place j s ys) by by split_and!; [lia|by rewrite Hbs|by rewrite Hcs|..]; apply Hrest.
  rewrite Ha in Hpre. destruct (batch_handled batch j s ys [] Hcc Hatj Hpre) as (s' & Hs' & Hat').
  exists j, s'. by split_and!.
Qed.

(** Opening: the first time, and after a stop. *)
Lemma open_inv d store :
  ix_open_db d initial = Ok store -> ix_dbio store = IxDb.open_or_create d initial.
Proof. unfold ix_open_db. by intros (st & _ & [= <-])%bind_ok. Qed.
Lemma open_cursor d d' st st' : IxDb.zone_sdk_indexer_cursor d = IxDb.zone_sdk_indexer_cursor d' ->
  get_zone_cursor (mk_IndexerStore d st) = get_zone_cursor (mk_IndexerStore d' st').
Proof. intros Hd. unfold get_zone_cursor. cbn. by rewrite Hd. Qed.

Lemma first_open store s :
  ix_open_db IxDb.empty initial = Ok store -> start_stream store = Ok s -> at_place 0 s [].
Proof.
  intros Hopen Hstart. destruct (ix_open_empty initial) as (store' & Hopen' & Hinv).
  rewrite Hopen in Hopen'. injection Hopen' as <-. pose proof (open_inv _ _ Hopen) as Hd.
  destruct store as [d st]. cbn in Hd. subst d. unfold start_stream in Hstart. cbn in Hstart. injection Hstart as <-.
  split_and!; [lia|done|done|done|by exists 0, 0|]. apply open_or_create_indexed, indexed_empty.
Qed.
Lemma reopened k s ys store s' :
  at_place k s ys -> ix_open_db (ix_dbio (stream_store s)) initial = Ok store -> start_stream store = Ok s' -> at_place k s' ys.
Proof.
  intros (Hk & Hys & Hcur & Hread & (B & o & Hinv) & Hix) Hopen Hstart.
  assert (Hclose : IxDb.closest_breakpoint_id (Z.of_nat (length (finalized ys))) <= Z.max B (written o (finalized ys))).
  { destruct (Z.le_gt_cases (IxDb.closest_breakpoint_id (Z.of_nat (length (finalized ys)))) (Z.max B (written o (finalized ys))))
      as [|Hgt]; [done|]. destruct Hinv as (Hdc & _). apply open_or_create_chain in Hdc.
    apply bind_ok in Hopen as (st & Hst & _). unfold IxDb.final_state in Hst. rewrite (dc_last _ _ _ _ _ Hdc) in Hst.
    by rewrite (calculate_state_missing _ _ _ _ _ _ Hdc) in Hst by (done || lia). }
  destruct (ix_reopen_inv _ _ _ _ _ Hinv Hclose) as (store' & Hopen' & _ & Hinv').
  rewrite Hopen in Hopen'. injection Hopen' as <-. pose proof (open_inv _ _ Hopen) as Hd.
  assert (Hcursor : get_zone_cursor store = Ok (stream_cursor s)).
  { rewrite <- Hread. destruct store as [d st], (stream_store s) as [d0 st0]. cbn in Hd. subst d. by apply open_cursor. }
  unfold start_stream in Hstart. rewrite Hcursor in Hstart. injection Hstart as <-.
  split_and!; [done..|by exists (Z.max B (written o (finalized ys))), (Z.of_nat (length (finalized ys)) / 100)|].
  cbn [stream_store]. rewrite Hd. by apply open_or_create_indexed.
Qed.

(** The indexer, from its first start on; [ys] are the blocks that were yielded.  It
    is stopped between two polls, or within a poll after the first [k] of its
    messages, and goes on when its database can be opened again.  Two things are
    left out: a stop between the two writes for one message, the block and then the
    cursor, after which the block runs twice ([interrupted_block_runs_twice] of
    IndexerSamples.v), and what follows a database that cannot be opened
    ([reopened_indexer_loses_states] of ChainTheorems.v). *)
Context `{ZoneIndexer}.
Inductive indexing : BlockStream -> list Block -> Prop :=
  | indexing_open store s :
      ix_open_db IxDb.empty initial = Ok store -> start_stream store = Ok s -> indexing s []
  | indexing_poll s ys n s' bs : indexing s ys -> poll n s = Ok (s', bs) -> indexing s' (ys ++ bs)
  | indexing_reopen s ys store s' :
      indexing s ys -> ix_open_db (ix_dbio (stream_store s)) initial = Ok store -> start_stream store = Ok s' ->
      indexing s' ys
  | indexing_stop s ys n k s1 bs store s' :
      indexing s ys -> process_messages s (take k (next_messages (stream_cursor s) n)) = Ok (s1, bs) ->
      ix_open_db (ix_dbio (stream_store s1)) initial = Ok store -> start_stream store = Ok s' ->
      indexing s' (ys ++ bs).

Context `{!ZoneIndexerLaws channel}.
Lemma indexing_at_place s ys : chain_channel -> indexing s ys -> exists k, at_place k s ys.
Proof.
  intros Hcc. induction 1 as [store s Hopen Hstart|s ys n s' bs _ [k Hat] Hpoll|s ys store s' _ [k Hat] Hopen Hstart|
    s ys n m s1 bs store s' _ [k Hat] Hpart Hopen Hstart].
  - exists 0%nat. by eapply first_open.
  - destruct (poll_handled k s ys _ Hcc Hat (next_messages_follow _ n)) as (j & s1 & _ & _ & _ & Hp & Hat').
    unfold poll in Hpoll. rewrite Hp in Hpoll. injection Hpoll as <- <-. by eexists.
  - exists k. by eapply reopened.
  - assert (Hpre : take m (next_messages (stream_cursor s) n) `prefix_of` after (stream_cursor s) channel).
    { etrans; [apply prefix_take|apply next_messages_follow]. }
    destruct (poll_handled k s ys _ Hcc Hat Hpre) as (j & s2 & _ & _ & _ & Hp & Hat').
    rewrite Hp in Hpart. injection Hpart as <- <-. eexists. by eapply reopened.
Qed.

(** C20. On a channel whose blocks are a chain, an indexer ingests the blocks exactly
    once and in their order, however its polls cut the messages, and whether or not
    it is stopped between polls or between two messages of a poll, as long as its
    database can be opened again.  In every such run it has yielded a prefix of the
    blocks of the channel, its database holds this prefix as finalized blocks, its
    state is the replay of the prefix, its cursor is persisted, the next poll does
    not fail, and a poll that gives every message after the cursor completes the
    chain.  Inscriptions that are not blocks, deposits and withdrawals are passed
    over.  Stops between the two writes for one block are not among these runs
    (there the block runs twice, [interrupted_block_runs_twice]), and reopening can
    fail ([reopened_indexer_loses_states]). *)
Theorem indexer_ingests_channel s ys :
  chain_channel -> indexing s ys ->
  ys `prefix_of` channel_blocks channel /\
  fold_o replay_ok initial ys = Ok (current_state (stream_store s)) /\
  holds_chain (IxDb.cf_block (ix_dbio (stream_store s))) (finalized ys) /\
  get_zone_cursor (stream_store s) = Ok (stream_cursor s) /\
  (forall n, exists s' bs, poll n s = Ok (s', bs)) /\
  exists s' bs, process_messages s (after (stream_cursor s) channel) = Ok (s', bs) /\
    ys ++ bs = channel_blocks channel /\
    fold_o replay_ok initial (channel_blocks channel) = Ok (current_state (stream_store s')).
Proof.
  intros Hcc [k Hat]%indexing_at_place; [|done]. pose proof Hat as (Hk & Hys & _ & Hread & (B & o & _ & Hcur & _) & Hix).
  rewrite fold_finalized in Hcur. split_and!; [|done|by apply ix_blocks|done| |].
  - exists (channel_blocks (drop k channel)). rewrite Hys. unfold channel_blocks. by rewrite <- omap_app, take_drop.
  - intros n. destruct (poll_handled k s ys _ Hcc Hat (next_messages_follow _ n)) as (j & s' & _ & _ & _ & Hp & _). by eexists _, _.
  - destruct (poll_handled k s ys _ Hcc Hat (reflexivity (after (stream_cursor s) channel))) as (j & s' & Hj & Ha & Hatj & Hp & Hat').
    exists s', (channel_blocks (after (stream_cursor s) channel)).
    assert (Hall : ys ++ channel_blocks (after (stream_cursor s) channel) = channel_blocks channel).
    { destruct Hatj as (_ & -> & _). rewrite Ha. unfold channel_blocks. by rewrite <- omap_app, take_drop. }
    split_and!; [done|done|]. destruct Hat' as (_ & _ & _ & _ & (B' & o' & _ & Hcur' & _) & _).
    by rewrite fold_finalized, Hall in Hcur'.
Qed.

(** ** Answers *)
Lemma chain_txs_finalized ys : chain_txs (finalized ys) = chain_txs ys.
Proof. unfold chain_txs. f_equal. rewrite <- list_fmap_compose. by apply list_fmap_ext. Qed.
Lemma history_finalized id ys : history id (finalized ys) = history id ys.
Proof. unfold history. by rewrite chain_txs_finalized. Qed.
Lemma hash_value h : to_hash (of_hash h) = h.
Proof. done. Qed.

Lemma block_answer store bs i : indexed bs (ix_dbio store) ->
  Rpc.get_block_by_id store (Z.of_nat i + 1) = of_block <$> bs !! i.
Proof. intros Hix. unfold Rpc.get_block_by_id, IxDb.get_block. by rewrite (ix_blocks _ _ Hix). Qed.

Lemma hash_answer store bs h : indexed bs (ix_dbio store) ->
  match Rpc.get_block_by_hash store (of_hash h) with
  | Some pb => exists b, b ∈ bs /\ header_hash (header b) = h /\ pb = of_block b
  | None => forall b, b ∈ bs -> header_hash (header b) <> h
  end.
Proof.
  intros Hix. unfold Rpc.get_block_by_hash, ix_get_block_by_hash. rewrite hash_value.
  destruct (IxDb.cf_hash_to_id (ix_dbio store) !! h) as [id|] eqn:Hid.
  - destruct (ix_block_sound _ _ Hix _ _ Hid) as (i & b & -> & Hb & Hh). cbn [mbind option_bind].
    unfold IxDb.get_block. rewrite (ix_blocks _ _ Hix), Hb. cbn. exists b. split_and!; [|done|done].
    by eapply list_elem_of_lookup_2.
  - cbn. intros b Hb <-. destruct (ix_block_complete _ _ Hix _ Hb) as [id Hid']. by rewrite Hid in Hid'.
Qed.

Lemma transaction_answer store bs h : indexed bs (ix_dbio store) ->
  match Rpc.get_transaction store (of_hash h) with
  | Some ptx => exists tx, tx ∈ chain_txs bs /\ tx_hash tx = h /\ ptx = of_tx tx
  | None => forall tx, tx ∈ chain_txs bs -> tx_hash tx <> h
  end.
Proof.
  intros Hix. unfold Rpc.get_transaction, ix_get_transaction_by_hash. rewrite hash_value.
  destruct (IxDb.cf_tx_to_id (ix_dbio store) !! h) as [id|] eqn:Hid.
  - destruct (ix_tx_sound _ _ Hix _ _ Hid) as (i & b & -> & Hb & (t & Hf & Ht & Hh)%find_hash_some).
    cbn [mbind option_bind]. unfold IxDb.get_block. rewrite (ix_blocks _ _ Hix), Hb. cbn [mbind option_bind]. rewrite Hf.
    exists t. split_and!; [|done|done]. apply chain_txs_elem. exists b. split; [by eapply list_elem_of_lookup_2|done].
  - cbn. intros tx (b & Hb & Htx)%chain_txs_elem <-. destruct (ix_tx_complete _ _ Hix _ _ Hb Htx) as [id Hid'].
    by rewrite Hid in Hid'.
Qed.

(** C21. The answers of the indexer are those of the chain [ys] that it has
    ingested: blocks by id and by hash, blocks downwards from any id, a
    transaction by its hash, every page of the history of an account, and the last
    block.  A hash that no block or transaction of the chain has gives nothing.
    That a hash names one transaction is an assumption on the hashes of the chain. *)
Theorem indexer_answers s ys :
  chain_channel -> indexing s ys -> hashes_identify ys ->
  let store := stream_store s in
  let bs := finalized ys in
  default 0 (Rpc.get_last_finalized_block_id store) = Z.of_nat (length ys) /\
  (forall i : nat, Rpc.get_block_by_id store (Z.of_nat i + 1) = of_block <$> bs !! i) /\
  (forall (k limit : nat), (k <= length ys)%nat ->
    Rpc.get_blocks store (Some (Z.of_nat k + 1)) limit = of_block <$> take limit (reverse (take k bs))) /\
  (forall limit, Rpc.get_blocks store None limit = of_block <$> take limit (reverse bs)) /\
  (forall h, match Rpc.get_block_by_hash store (of_hash h) with
             | Some pb => exists b, b ∈ bs /\ header_hash (header b) = h /\ pb = of_block b
             | None => forall b, b ∈ bs -> header_hash (header b) <> h
             end) /\
  (forall h, match Rpc.get_transaction store (of_hash h) with
             | Some ptx => exists tx, tx ∈ chain_txs ys /\ tx_hash tx = h /\ ptx = of_tx tx
             | None => forall tx, tx ∈ chain_txs ys -> tx_hash tx <> h
             end) /\
  (forall id (offset limit : nat), Z.of_nat offset + Z.of_nat limit < 2 ^ 64 ->
    Rpc.get_transactions_by_account store (of_account_id id) (Z.of_nat offset) (Z.of_nat limit) =
      Ok (of_tx <$> take limit (drop offset (history id ys)))).
Proof.
  intros Hcc [k Hat]%indexing_at_place Hinj store bs; [|done].
  destruct Hat as (_ & _ & _ & _ & (B & o & Hdc & _) & Hix). fold store bs in Hdc, Hix.
  assert (Hinj' : hashes_identify bs) by (unfold hashes_identify, bs; rewrite chain_txs_finalized; exact Hinj).
  assert (Hlen : length bs = length ys) by apply length_fmap.
  pose proof (dc_last _ _ _ _ _ Hdc) as Hlast. rewrite Hlen in Hlast. split_and!.
  - exact Hlast.
  - intros i. by apply block_answer.
  - intros n limit Hn. unfold Rpc.get_blocks, IxDb.get_block_batch. f_equal.
    replace (Z.max 0 (Z.of_nat n + 1 - 1)) with (Z.of_nat n) by lia. apply block_batch_down; [done|lia].
  - intros limit. unfold Rpc.get_blocks, IxDb.get_block_batch. unfold IxDb.last_block in Hlast. f_equal.
    destruct (IxDb.last_block_in_db (ix_dbio store)) as [id|]; cbn in Hlast.
    + rewrite Hlast, (block_batch_down bs) by (done || lia). by rewrite (take_ge bs) by lia.
    + assert (length bs = 0%nat) as ->%nil_length_inv by lia. by destruct limit.
  - intros h. by apply hash_answer.
  - intros h. pose proof (transaction_answer store bs h Hix) as Ht. unfold bs in Ht. by rewrite chain_txs_finalized in Ht.
  - intros id offset limit Hb. unfold Rpc.get_transactions_by_account. rewrite (history_page bs) by done.
    unfold bs. by rewrite history_finalized.
Qed.

(** What the indexer sends is what was ingested: every block and every
    transaction that it answers reads back, at a client, as the block of the chain
    and as the transaction, so that no accepted transaction is lost in the types
    of the service.  The account that it answers is that of the replayed chain,
    and the account at an earlier block is that of the replay up to the block,
    unless the breakpoint for it is missing. *)
Lemma indexer_answers_read_back s ys :
  chain_channel -> indexing s ys -> (forall b, b ∈ ys -> Forall tx_typed (body b)) ->
  let store := stream_store s in
  (forall (i : nat) b, ys !! i = Some b -> exists pb,
    Rpc.get_block_by_id store (Z.of_nat i + 1) = Some pb /\ to_block pb = Ok (SeqDb.set_status Finalized b)) /\
  (hashes_identify ys -> forall tx, tx ∈ chain_txs ys -> exists ptx,
    Rpc.get_transaction store (of_hash (tx_hash tx)) = Some ptx /\ to_tx ptx = Ok tx) /\
  (forall id st, fold_o replay_ok initial ys = Ok st ->
    Rpc.get_account store (of_account_id id) = of_account (get_account_by_id st id)) /\
  (forall id (n : nat), (n <= length ys)%nat -> exists st, fold_o replay_ok initial (take n ys) = Ok st /\
    (Rpc.get_account_at_block store (of_account_id id) (Z.of_nat n) = Ok (of_account (get_account_by_id st id)) \/
     Rpc.get_account_at_block store (of_account_id id) (Z.of_nat n) = Err (DbInteractionError "breakpoint not found"))).
Proof.
  intros Hcc [k Hat]%indexing_at_place Hty store; [|done].
  destruct Hat as (_ & _ & _ & _ & (B & o & Hdc & Hcur & _) & Hix). fold store in Hdc, Hix, Hcur.
  assert (Hfold : fold_o replay_ok initial ys = Ok (current_state store)) by by rewrite <- fold_finalized.
  assert (Hread : forall b, b ∈ ys -> Forall tx_readable (body b)).
  { intros b Hb. eapply chain_readable; [exact Hfold|done|by apply Hty]. }
  split_and!.
  - intros i b Hb. exists (of_block (SeqDb.set_status Finalized b)). rewrite (block_answer _ _ _ Hix), list_lookup_fmap, Hb.
    split; [done|]. apply block_back. apply (Hread b). by eapply list_elem_of_lookup_2.
  - intros Hinj tx Htx. exists (of_tx tx). split.
    + pose proof (transaction_answer store (finalized ys) (tx_hash tx) Hix) as Ht. rewrite chain_txs_finalized in Ht.
      destruct (Rpc.get_transaction _ _) as [ptx|].
      * destruct Ht as (tx' & Htx' & Hh & ->). by rewrite (Hinj tx' tx Htx' Htx Hh).
      * by destruct (Ht tx Htx eq_refl).
    + apply tx_back. apply chain_txs_elem in Htx as (b & Hb & Htx). exact (proj1 (Forall_forall _ _) (Hread b Hb) tx Htx).
  - intros id st Hst. rewrite Hfold in Hst. injection Hst as <-. by destruct id.
  - intros id n Hn. destruct (state_after_ok initial (finalized ys) n _ Hcur) as [st Hst].
    unfold state_after in Hst. rewrite <- fmap_take, fold_finalized in Hst. exists st. split; [done|].
    unfold Rpc.get_account_at_block, account_state_at_block, get_state_at_block.
    destruct (Z.le_gt_cases (IxDb.closest_breakpoint_id (Z.of_nat n)) (Z.max B (written o (finalized ys)))) as [Hle|Hgt].
    + destruct (calculate_state_ok _ _ _ _ _ n Hdc) as (st' & Hc & Ha); [by rewrite length_fmap|done|].
      unfold state_after in Ha. rewrite <- fmap_take, fold_finalized, Hst in Ha. injection Ha as <-.
      left. rewrite Hc. by destruct id.
    + right. rewrite (calculate_state_missing _ _ _ _ _ n Hdc); [done|by rewrite length_fmap|done].
Qed.
End Ingestion.
