(* ===== verification/IndexerFfi.v ===== *)
(** The C interface of the indexer: [indexer/ffi/src].

    What the interface hands out is on the heap of [CMemory]: a box is a cell with
    one element, a vector that is not empty a cell with its elements; a vector
    that is empty has no allocation.  [FfiBytes32], [FfiBytes64] and [FfiU128] are
    their bytes, [FfiProgramId] its words.  The client that asks the indexer is the
    class [IndexerClient], the start of the server a parameter. *)

From S2P Require Import Prelude Bytes Crypto Account Ids ProgramCore Borsh MerkleTree Host State Encryption CircuitIo Transactions StateDiffs Chain SequencerStore IndexerStore TextForms IndexerService CMemory.

Open Scope Z_scope.

(** ** errors.rs *)
Inductive OperationStatus := StatusOk | NullPointer | InitializationError | ClientError.
#[global] Instance OperationStatus_eq_dec : EqDecision OperationStatus.
Proof. solve_decision. Defined.
Definition is_status_ok (s : OperationStatus) : bool := bool_decide (s = StatusOk).
Definition is_status_error (s : OperationStatus) : bool := negb (is_status_ok s).

(** ** The structs of api/types *)
Record FfiVec (T : Type) := mk_FfiVec { entries : option positive; len : Z; capacity : Z }.
Arguments mk_FfiVec {T} _ _ _.
Arguments entries {T} _.
Arguments len {T} _.
Arguments capacity {T} _.
Record FfiOption (T : Type) := mk_FfiOption { opt_value : option positive; is_some : bool }.
Arguments mk_FfiOption {T} _ _.
Arguments opt_value {T} _.
Arguments is_some {T} _.

Record FfiAccount := mk_FfiAccount {
  f_program_owner : list Z;
  f_balance : list byte;
  f_data : option positive;
  f_data_len : Z;
  f_data_cap : Z;
  f_nonce : list byte;
}.
Record FfiSignaturePubKeyEntry := mk_FfiSigEntry { f_signature : list byte; f_public_key : list byte }.
Record FfiNullifierCommitmentSet := mk_FfiNullifier { f_nullifier : list byte; f_commitment_set_digest : list byte }.
Record FfiEncryptedAccountData := mk_FfiEncrypted { f_ciphertext : FfiVec byte; f_epk : FfiVec byte; f_view_tag : byte }.
Record FfiPublicMessage := mk_FfiPublicMessage {
  f_program_id : list Z;
  f_account_ids : FfiVec (list byte);
  f_nonces : FfiVec (list byte);
  f_instruction_data : FfiVec Z;
}.
Record FfiPublicTransactionBody := mk_FfiPublicBody {
  f_pub_hash : list byte;
  f_pub_message : FfiPublicMessage;
  f_pub_witness_set : FfiVec FfiSignaturePubKeyEntry;
}.
Record FfiPrivacyPreservingMessage := mk_FfiPrivacyMessage {
  f_public_account_ids : FfiVec (list byte);
  f_priv_nonces : FfiVec (list byte);
  f_public_post_states : FfiVec FfiAccount;
  f_encrypted_private_post_states : FfiVec FfiEncryptedAccountData;
  f_new_commitments : FfiVec (list byte);
  f_new_nullifiers : FfiVec FfiNullifierCommitmentSet;
  f_block_validity_window : Z * Z;
  f_timestamp_validity_window : Z * Z;
}.
Record FfiPrivateTransactionBody := mk_FfiPrivateBody {
  f_priv_hash : list byte;
  f_priv_message : FfiPrivacyPreservingMessage;
  f_priv_witness_set : FfiVec FfiSignaturePubKeyEntry;
  f_proof : FfiVec byte;
}.
Record FfiProgramDeploymentTransactionBody := mk_FfiDeploymentBody { f_dep_hash : list byte; f_dep_message : FfiVec byte }.
Record FfiTransactionBody := mk_FfiTxBody {
  public_body : option positive;
  private_body : option positive;
  program_deployment_body : option positive;
}.
Inductive FfiTransactionKind := KindPublic | KindPrivate | KindProgramDeploy.
Record FfiTransaction := mk_FfiTx { f_body : FfiTransactionBody; f_kind : FfiTransactionKind }.
Record FfiBlockHeader := mk_FfiHeader {
  f_block_id : Z;
  f_prev_block_hash : list byte;
  f_hash : list byte;
  f_timestamp : Z;
  f_header_signature : list byte;
}.
Inductive FfiBedrockStatus := FfiPending | FfiSafe | FfiFinalized.
Record FfiBlock := mk_FfiBlock {
  f_header : FfiBlockHeader;
  f_block_body : FfiVec FfiTransaction;
  f_bedrock_status : FfiBedrockStatus;
  f_bedrock_parent_id : list byte;
}.
(** [PointerResult] *)
Record PointerResult (T : Type) := mk_PointerResult { pr_value : option positive; pr_error : OperationStatus }.
Arguments mk_PointerResult {T} _ _.
Arguments pr_value {T} _.
Arguments pr_error {T} _.
(** [IndexerServiceFFI]: the two opaque pointers. *)
Record IndexerServiceFFI := mk_ServiceFFI { indexer_handle : option positive; indexer_client : option positive }.
(** [IndexerHandle] with its address, the web socket behind [IndexerClient]. *)
Record IndexerHandle := mk_Handle { handle_addr : string }.
Record WsClient := mk_WsClient { ws_url : string }.

(** runtime.rs: [Runtime] around the third-party runtime, which is opaque here; a raw
    pointer gives a reference unless it is null. *)
Inductive TokioRuntime := mk_Tokio.
Inductive PointerKind := Owned (p : option positive) | Borrowed (p : option positive) | NullKind.
Record Runtime := mk_Runtime { runtime_inner : PointerKind }.
Definition pointer_as_ref (k : PointerKind) : option positive :=
  match k with Owned p | Borrowed p => p | NullKind => None end.

(** ** The heap *)
Inductive Cell :=
  | CBytes (l : list byte)
  | CArrays (l : list (list byte))
  | CWords (l : list Z)
  | CAccounts (l : list FfiAccount)
  | CSignatures (l : list FfiSignaturePubKeyEntry)
  | CNullifiers (l : list FfiNullifierCommitmentSet)
  | CEncrypted (l : list FfiEncryptedAccountData)
  | CPublicBodies (l : list FfiPublicTransactionBody)
  | CPrivateBodies (l : list FfiPrivateTransactionBody)
  | CDeploymentBodies (l : list FfiProgramDeploymentTransactionBody)
  | CTransactions (l : list FfiTransaction)
  | CBlocks (l : list FfiBlock)
  | CBlockOptions (l : list (FfiOption FfiBlock))
  | CTransactionOptions (l : list (FfiOption FfiTransaction))
  | CBlockVecs (l : list (FfiVec FfiBlock))
  | CTransactionVecs (l : list (FfiVec FfiTransaction))
  | CLastBlocks (l : list (option BlockId))
  | CServices (l : list IndexerServiceFFI)
  | CHandles (l : list IndexerHandle)
  | CClients (l : list WsClient)
  | CRuntimes (l : list Runtime)
  | CTokio (l : list TokioRuntime).
Class Storable (T : Type) := { to_cell : list T -> Cell; of_cell : Cell -> option (list T) }.
Class StorableLaws (T : Type) `{Storable T} := of_to_cell l : of_cell (to_cell l) = Some l.
#[global] Instance byte_storable : Storable byte := {| to_cell := CBytes; of_cell c := match c with CBytes l => Some l | _ => None end |}.
#[global] Instance array_storable : Storable (list byte) := {| to_cell := CArrays; of_cell c := match c with CArrays l => Some l | _ => None end |}.
#[global] Instance word_storable : Storable Z := {| to_cell := CWords; of_cell c := match c with CWords l => Some l | _ => None end |}.
#[global] Instance account_storable : Storable FfiAccount := {| to_cell := CAccounts; of_cell c := match c with CAccounts l => Some l | _ => None end |}.
#[global] Instance signature_storable : Storable FfiSignaturePubKeyEntry :=
  {| to_cell := CSignatures; of_cell c := match c with CSignatures l => Some l | _ => None end |}.
#[global] Instance nullifier_storable : Storable FfiNullifierCommitmentSet :=
  {| to_cell := CNullifiers; of_cell c := match c with CNullifiers l => Some l | _ => None end |}.
#[global] Instance encrypted_storable : Storable FfiEncryptedAccountData :=
  {| to_cell := CEncrypted; of_cell c := match c with CEncrypted l => Some l | _ => None end |}.
#[global] Instance public_body_storable : Storable FfiPublicTransactionBody :=
  {| to_cell := CPublicBodies; of_cell c := match c with CPublicBodies l => Some l | _ => None end |}.
#[global] Instance private_body_storable : Storable FfiPrivateTransactionBody :=
  {| to_cell := CPrivateBodies; of_cell c := match c with CPrivateBodies l => Some l | _ => None end |}.
#[global] Instance deployment_body_storable : Storable FfiProgramDeploymentTransactionBody :=
  {| to_cell := CDeploymentBodies; of_cell c := match c with CDeploymentBodies l => Some l | _ => None end |}.
#[global] Instance transaction_storable : Storable FfiTransaction :=
  {| to_cell := CTransactions; of_cell c := match c with CTransactions l => Some l | _ => None end |}.
#[global] Instance block_storable : Storable FfiBlock := {| to_cell := CBlocks; of_cell c := match c with CBlocks l => Some l | _ => None end |}.
#[global] Instance block_opt_storable : Storable (FfiOption FfiBlock) :=
  {| to_cell := CBlockOptions; of_cell c := match c with CBlockOptions l => Some l | _ => None end |}.
#[global] Instance transaction_opt_storable : Storable (FfiOption FfiTransaction) :=
  {| to_cell := CTransactionOptions; of_cell c := match c with CTransactionOptions l => Some l | _ => None end |}.
#[global] Instance block_vec_storable : Storable (FfiVec FfiBlock) :=
  {| to_cell := CBlockVecs; of_cell c := match c with CBlockVecs l => Some l | _ => None end |}.
#[global] Instance transaction_vec_storable : Storable (FfiVec FfiTransaction) :=
  {| to_cell := CTransactionVecs; of_cell c := match c with CTransactionVecs l => Some l | _ => None end |}.
#[global] Instance last_block_storable : Storable (option BlockId) :=
  {| to_cell := CLastBlocks; of_cell c := match c with CLastBlocks l => Some l | _ => None end |}.
#[global] Instance service_storable : Storable IndexerServiceFFI :=
  {| to_cell := CServices; of_cell c := match c with CServices l => Some l | _ => None end |}.
#[global] Instance handle_storable : Storable IndexerHandle :=
  {| to_cell := CHandles; of_cell c := match c with CHandles l => Some l | _ => None end |}.
#[global] Instance client_storable : Storable WsClient := {| to_cell := CClients; of_cell c := match c with CClients l => Some l | _ => None end |}.

#[global] Instance runtime_storable : Storable Runtime := {| to_cell := CRuntimes; of_cell c := match c with CRuntimes l => Some l | _ => None end |}.
#[global] Instance tokio_storable : Storable TokioRuntime := {| to_cell := CTokio; of_cell c := match c with CTokio l => Some l | _ => None end |}.

Abbreviation Ffi := (heap Cell).

(** [Vec::into_raw_parts] and [Vec::from_raw_parts] *)
Definition vec_into_ffi {T} `{Storable T} (l : list T) : Ffi (FfiVec T) := fun m =>
  match l with
  | [] => Ok (mk_FfiVec None 0 0, m)
  | _ => let '(p, m) := into_raw (to_cell l) m in
         let n := Z.of_nat (length l) in Ok (mk_FfiVec (Some p) n n, m)
  end.
Definition vec_from_cell {T} `{Storable T} (n : Z) (c : Cell) : guest (list T) :=
  l ← expect (of_cell c) "undefined behaviour: memory of another type";
  assert_ (bool_decide (n = Z.of_nat (length l))) "undefined behaviour: memory of another size" ;;
  Ok l.
Definition vec_from_ffi {T} `{Storable T} (v : FfiVec T) : Ffi (list T) := fun m =>
  if decide (capacity v = 0) then Ok ([], m)
  else p ← expect (entries v) "undefined behaviour: vector at a null pointer";
       '(c, m) ← from_raw p m;
       l ← vec_from_cell (len v) c;
       Ok (l, m).
(** [Box::into_raw(Box::new(..))] and [Box::from_raw] *)
Definition box_into_raw {T} `{Storable T} (x : T) : Ffi (option positive) := fun m =>
  let '(p, m) := into_raw (to_cell [x]) m in Ok (Some p, m).
Definition box_from_raw {T} `{Storable T} (p : option positive) : Ffi T := fun m =>
  p ← expect p "undefined behaviour: box at a null pointer";
  '(c, m) ← from_raw p m;
  l ← vec_from_cell 1 c;
  x ← expect (head l) "undefined behaviour: memory of another size";
  Ok (x, m).

(** Vectors of structs: [into_iter().map(..).collect()] before and after. *)
Definition list_into_ffi {A T} `{Storable T} (convert : A -> Ffi T) (l : list A) : Ffi (FfiVec T) :=
  l ← mapM convert l; vec_into_ffi l.
Definition list_from_ffi {A T} `{Storable T} (convert : T -> Ffi A) (v : FfiVec T) : Ffi (list A) :=
  l ← vec_from_ffi v; mapM convert l.
(** [FfiOption::from_value], [from_none] *)
Definition option_from_value {T} `{Storable T} (val : T) : Ffi (FfiOption T) :=
  p ← box_into_raw val; mret (mk_FfiOption p true).
Definition option_from_none {T} : FfiOption T := mk_FfiOption None false.
(** [PointerResult::from_value], [from_error] *)
Definition result_from_value {T} `{Storable T} (value : T) : Ffi (PointerResult T) :=
  p ← box_into_raw value; mret (mk_PointerResult p StatusOk).
Definition result_from_error {T} (error : OperationStatus) : PointerResult T := mk_PointerResult None error.

(** ** api/types/mod.rs, account.rs *)
Definition u128_to_ffi (n : Z) : list byte := le_bytes 16 n.
Definition u128_of_ffi (b : list byte) : Z := le_value b.
(** The state of an account that the indexer answers is one of the chain. *)
Definition nssa_account (a : Protocol.Account) : guest Account :=
  match to_account a with
  | Ok a => Ok a
  | Err _ => Panic "Source is in blocks, must fit"
  | Panic msg => Panic msg
  end.
Definition account_into_ffi (a : Account) : Ffi FfiAccount :=
  v ← vec_into_ffi (data_bytes (data a));
  mret (mk_FfiAccount (program_owner a) (u128_to_ffi (balance a)) (entries v) (len v) (capacity v) (u128_to_ffi (nonce a))).
Definition account_from_ffi (f : FfiAccount) : Ffi Protocol.Account :=
  data ← vec_from_ffi (T := byte) (mk_FfiVec (f_data f) (f_data_len f) (f_data_cap f));
  mret (Protocol.mk_PAccount (Protocol.mk_ProgramId (f_program_owner f)) (u128_of_ffi (f_balance f)) (Protocol.mk_PData data)
          (u128_of_ffi (f_nonce f))).
Definition free_ffi_account (val : FfiAccount) : Ffi () := account_from_ffi val ;; mret ().

(** ** api/types/transaction.rs *)
Definition cast_validity_window (w : Protocol.ValidityWindow) : Z * Z :=
  (default 0 (Protocol.window_pair w).1, default u64_max (Protocol.window_pair w).2).
Definition cast_ffi_validity_window (w : Z * Z) : Protocol.ValidityWindow :=
  Protocol.mk_PWindow ((if decide (w.1 = 0) then None else Some w.1), (if decide (w.2 = u64_max) then None else Some w.2)).

Definition signature_into_ffi (p : Protocol.Signature * Protocol.PublicKey) : FfiSignaturePubKeyEntry :=
  mk_FfiSigEntry (Protocol.sig_value p.1) (Protocol.pk_value p.2).
Definition signature_from_ffi (e : FfiSignaturePubKeyEntry) : Protocol.Signature * Protocol.PublicKey :=
  (Protocol.mk_Sig (f_signature e), Protocol.mk_Pk (f_public_key e)).
Definition nullifier_into_ffi (p : Protocol.Nullifier * Protocol.CommitmentSetDigest) : FfiNullifierCommitmentSet :=
  mk_FfiNullifier (Protocol.nullifier_value p.1) (Protocol.digest_value p.2).
Definition nullifier_from_ffi (e : FfiNullifierCommitmentSet) : Protocol.Nullifier * Protocol.CommitmentSetDigest :=
  (Protocol.mk_PNullifier (f_nullifier e), Protocol.mk_Digest (f_commitment_set_digest e)).
Definition encrypted_into_ffi (e : Protocol.EncryptedAccountData) : Ffi FfiEncryptedAccountData :=
  ciphertext ← vec_into_ffi (Protocol.ciphertext_value (Protocol.p_ciphertext e));
  epk ← vec_into_ffi (Protocol.epk_value (Protocol.p_epk e));
  mret (mk_FfiEncrypted ciphertext epk (Protocol.p_view_tag e)).
Definition encrypted_from_ffi (f : FfiEncryptedAccountData) : Ffi Protocol.EncryptedAccountData :=
  ciphertext ← vec_from_ffi (f_ciphertext f);
  epk ← vec_from_ffi (f_epk f);
  mret (Protocol.mk_PEncrypted (Protocol.mk_PCiphertext ciphertext) (Protocol.mk_PEpk epk) (f_view_tag f)).

Definition public_message_into_ffi (m : Protocol.PublicMessage) : Ffi FfiPublicMessage :=
  account_ids ← vec_into_ffi (Protocol.id_value <$> Protocol.m_account_ids m);
  nonces ← vec_into_ffi (u128_to_ffi <$> Protocol.m_nonces m);
  instruction_data ← vec_into_ffi (Protocol.m_instruction_data m);
  mret (mk_FfiPublicMessage (Protocol.program_id_words (Protocol.m_program_id m)) account_ids nonces instruction_data).
Definition public_message_from_ffi (f : FfiPublicMessage) : Ffi Protocol.PublicMessage :=
  account_ids ← vec_from_ffi (f_account_ids f);
  nonces ← vec_from_ffi (f_nonces f);
  instruction_data ← vec_from_ffi (f_instruction_data f);
  mret (Protocol.mk_PPublicMessage (Protocol.mk_ProgramId (f_program_id f)) (Protocol.mk_AccountId <$> account_ids)
          (u128_of_ffi <$> nonces) instruction_data).
Definition public_body_into_ffi (tx : Protocol.PublicTransaction) : Ffi FfiPublicTransactionBody :=
  message ← public_message_into_ffi (Protocol.p_pub_message tx);
  witness_set ← vec_into_ffi (signature_into_ffi <$> Protocol.signatures_and_public_keys (Protocol.p_pub_witness_set tx));
  mret (mk_FfiPublicBody (Protocol.hash_bytes_of (Protocol.pub_hash_ tx)) message witness_set).
Definition public_tx_from_ffi (f : FfiPublicTransactionBody) : Ffi Protocol.PublicTransaction :=
  message ← public_message_from_ffi (f_pub_message f);
  signatures ← vec_from_ffi (f_pub_witness_set f);
  mret (Protocol.mk_PPublicTx (Protocol.mk_Hash (f_pub_hash f)) message
          (Protocol.mk_PWitnessSet (signature_from_ffi <$> signatures) None)).

Definition post_state_into_ffi (a : Protocol.Account) : Ffi FfiAccount := a ← lift_heap (nssa_account a); account_into_ffi a.
Definition privacy_message_into_ffi (m : Protocol.PrivacyPreservingMessage) : Ffi FfiPrivacyPreservingMessage :=
  public_account_ids ← vec_into_ffi (Protocol.id_value <$> Protocol.p_public_account_ids m);
  nonces ← vec_into_ffi (u128_to_ffi <$> Protocol.p_nonces m);
  public_post_states ← list_into_ffi post_state_into_ffi (Protocol.p_public_post_states m);
  encrypted_private_post_states ← list_into_ffi encrypted_into_ffi (Protocol.p_encrypted_private_post_states m);
  new_commitments ← vec_into_ffi (Protocol.commitment_value <$> Protocol.p_new_commitments m);
  new_nullifiers ← vec_into_ffi (nullifier_into_ffi <$> Protocol.p_new_nullifiers m);
  mret (mk_FfiPrivacyMessage public_account_ids nonces public_post_states encrypted_private_post_states new_commitments
          new_nullifiers (cast_validity_window (Protocol.p_block_validity_window m))
          (cast_validity_window (Protocol.p_timestamp_validity_window m))).
Definition privacy_message_from_ffi (f : FfiPrivacyPreservingMessage) : Ffi Protocol.PrivacyPreservingMessage :=
  public_account_ids ← vec_from_ffi (f_public_account_ids f);
  nonces ← vec_from_ffi (f_priv_nonces f);
  public_post_states ← list_from_ffi account_from_ffi (f_public_post_states f);
  encrypted_private_post_states ← list_from_ffi encrypted_from_ffi (f_encrypted_private_post_states f);
  new_commitments ← vec_from_ffi (f_new_commitments f);
  new_nullifiers ← vec_from_ffi (f_new_nullifiers f);
  mret (Protocol.mk_PPrivacyMessage (Protocol.mk_AccountId <$> public_account_ids) (u128_of_ffi <$> nonces) public_post_states
          encrypted_private_post_states (Protocol.mk_PCommitment <$> new_commitments) (nullifier_from_ffi <$> new_nullifiers)
          (cast_ffi_validity_window (f_block_validity_window f)) (cast_ffi_validity_window (f_timestamp_validity_window f))).
Definition private_body_into_ffi (tx : Protocol.PrivacyPreservingTransaction) : Ffi FfiPrivateTransactionBody :=
  message ← privacy_message_into_ffi (Protocol.p_priv_message tx);
  witness_set ← vec_into_ffi (signature_into_ffi <$> Protocol.signatures_and_public_keys (Protocol.p_priv_witness_set tx));
  proof ← lift_heap (expect (Protocol.p_proof (Protocol.p_priv_witness_set tx)) "Private execution: proof must be present");
  proof ← vec_into_ffi (Protocol.proof_value proof);
  mret (mk_FfiPrivateBody (Protocol.hash_bytes_of (Protocol.priv_hash_ tx)) message witness_set proof).
Definition private_tx_from_ffi (f : FfiPrivateTransactionBody) : Ffi Protocol.PrivacyPreservingTransaction :=
  message ← privacy_message_from_ffi (f_priv_message f);
  signatures ← vec_from_ffi (f_priv_witness_set f);
  proof ← vec_from_ffi (f_proof f);
  mret (Protocol.mk_PPrivacyTx (Protocol.mk_Hash (f_priv_hash f)) message
          (Protocol.mk_PWitnessSet (signature_from_ffi <$> signatures) (Some (Protocol.mk_PProof proof)))).
Definition deployment_body_into_ffi (tx : Protocol.ProgramDeploymentTransaction) : Ffi FfiProgramDeploymentTransactionBody :=
  message ← vec_into_ffi (Protocol.p_bytecode (Protocol.p_dep_message tx));
  mret (mk_FfiDeploymentBody (Protocol.hash_bytes_of (Protocol.dep_hash_ tx)) message).
Definition deployment_tx_from_ffi (f : FfiProgramDeploymentTransactionBody) : Ffi Protocol.ProgramDeploymentTransaction :=
  bytecode ← vec_from_ffi (f_dep_message f);
  mret (Protocol.mk_PDeploymentTx (Protocol.mk_Hash (f_dep_hash f)) (Protocol.mk_PDeploymentMessage bytecode)).
Definition tx_into_ffi (tx : Protocol.Transaction) : Ffi FfiTransaction :=
  match tx with
  | Protocol.Public tx =>
      body ← public_body_into_ffi tx; p ← box_into_raw body;
      mret (mk_FfiTx (mk_FfiTxBody p None None) KindPublic)
  | Protocol.PrivacyPreserving tx =>
      body ← private_body_into_ffi tx; p ← box_into_raw body;
      mret (mk_FfiTx (mk_FfiTxBody None p None) KindPrivate)
  | Protocol.ProgramDeployment tx =>
      body ← deployment_body_into_ffi tx; p ← box_into_raw body;
      mret (mk_FfiTx (mk_FfiTxBody None None p) KindProgramDeploy)
  end.
Definition free_ffi_transaction (val : FfiTransaction) : Ffi () :=
  match f_kind val with
  | KindPublic => body ← box_from_raw (public_body (f_body val)); public_tx_from_ffi body ;; mret ()
  | KindPrivate => body ← box_from_raw (private_body (f_body val)); private_tx_from_ffi body ;; mret ()
  | KindProgramDeploy => body ← box_from_raw (program_deployment_body (f_body val)); deployment_tx_from_ffi body ;; mret ()
  end.
Definition free_ffi_transaction_opt (val : FfiOption FfiTransaction) : Ffi () :=
  if is_some val then value ← box_from_raw (opt_value val); free_ffi_transaction value else mret ().
Definition free_ffi_transaction_vec (val : FfiVec FfiTransaction) : Ffi () :=
  list_from_ffi free_ffi_transaction val ;; mret ().

(** ** api/types/block.rs *)
Definition header_into_ffi (h : Protocol.BlockHeader) : FfiBlockHeader :=
  mk_FfiHeader (Protocol.p_block_id h) (Protocol.hash_bytes_of (Protocol.p_prev_block_hash h))
    (Protocol.hash_bytes_of (Protocol.p_hash h)) (Protocol.p_timestamp h) (Protocol.sig_value (Protocol.p_signature h)).
Definition status_into_ffi (s : Protocol.BedrockStatus) : FfiBedrockStatus :=
  match s with
  | Protocol.Finalized => FfiFinalized
  | Protocol.Pending => FfiPending
  | Protocol.Safe => FfiSafe
  end.
Definition status_from_ffi (s : FfiBedrockStatus) : Protocol.BedrockStatus :=
  match s with
  | FfiFinalized => Protocol.Finalized
  | FfiPending => Protocol.Pending
  | FfiSafe => Protocol.Safe
  end.
Definition block_into_ffi (b : Protocol.Block) : Ffi FfiBlock :=
  body ← list_into_ffi tx_into_ffi (Protocol.transactions (Protocol.p_body b));
  mret (mk_FfiBlock (header_into_ffi (Protocol.p_header b)) body (status_into_ffi (Protocol.p_bedrock_status b))
          (Protocol.msg_id_value (Protocol.p_bedrock_parent_id b))).
Definition free_ffi_block (val : FfiBlock) : Ffi () := free_ffi_transaction_vec (f_block_body val).
Definition free_ffi_block_opt (val : FfiOption FfiBlock) : Ffi () :=
  if is_some val then value ← box_from_raw (opt_value val); free_ffi_transaction_vec (f_block_body value) else mret ().
Definition free_ffi_block_vec (val : FfiVec FfiBlock) : Ffi () :=
  list_from_ffi free_ffi_block val ;; mret ().

(** ** indexer.rs and api/lifecycle.rs *)
(** [IndexerServiceFFI::client] *)
Definition service_client (indexer : IndexerServiceFFI) : Ffi WsClient := fun m =>
  p ← expect (indexer_client indexer) "Indexer Client must be non-null pointer";
  c ← expect (m !! p) "undefined behaviour: read of memory that is not allocated";
  l ← vec_from_cell 1 c;
  x ← expect (head l) "undefined behaviour: memory of another size";
  Ok (x, m).
Definition service_new (handle : IndexerHandle) (client : WsClient) : Ffi IndexerServiceFFI :=
  indexer_handle ← box_into_raw handle;
  indexer_client ← box_into_raw client;
  mret (mk_ServiceFFI indexer_handle indexer_client).
(** [Drop for IndexerServiceFFI] *)
Definition service_drop (s : IndexerServiceFFI) : Ffi () :=
  match indexer_handle s with Some p => box_from_raw (T := IndexerHandle) (Some p) ;; mret () | None => mret () end ;;
  match indexer_client s with Some p => box_from_raw (T := WsClient) (Some p) ;; mret () | None => mret () end.

(** ** runtime.rs: [as_ref] *)
Definition runtime_as_ref (r : Runtime) : guest positive :=
  expect (pointer_as_ref (runtime_inner r)) "Runtime pointer should not be null".
(** [unsafe { &*runtime }]: no function of the interface checks this pointer. *)
Definition runtime_deref (runtime : option Runtime) : guest Runtime :=
  expect runtime "undefined behaviour: reference to a null runtime".

(** [Runtime::new], when the third-party constructor succeeds. *)
Definition Runtime_new (made : bool) : Ffi (option Runtime) :=
  if made then inner ← box_into_raw mk_Tokio; mret (Some (mk_Runtime (Owned inner))) else mret None.
Definition new_runtime (made : bool) : Ffi (PointerResult Runtime) :=
  r ← Runtime_new made;
  match r with
  | Some runtime => result_from_value runtime
  | None => mret (result_from_error InitializationError)
  end.

(** A panic stays one. *)
Definition lift_guest_status {A} (r : guest A) : outcome OperationStatus A :=
  match r with Ok a => Ok a | Err e => match e with end | Panic msg => Panic msg end.

Section Lifecycle.
(** The configuration file, the server, the parser of addresses and the connection. *)
Context {Config : Type}.
Variable from_path : string -> option Config.
Variable run_server : Config -> Z -> option IndexerHandle.
Variable addr_to_url : string -> option string.
Variable connect : string -> option WsClient.
(** The text at [config_path], which is not checked either; a path that is not UTF-8
    is [Some None]. *)
Definition setup_indexer (runtime : option Runtime) (config_path : option (option string)) (port : Z) :
    outcome OperationStatus (IndexerHandle * WsClient) :=
  config_path ← expect config_path "undefined behaviour: string at a null pointer";
  path ← ok_or config_path InitializationError;
  config ← ok_or (from_path path) InitializationError;
  runtime ← lift_guest_status (runtime_deref runtime);
  lift_guest_status (runtime_as_ref runtime) ;;
  indexer_handle ← ok_or (run_server config port) InitializationError;
  indexer_url ← ok_or (addr_to_url (handle_addr indexer_handle)) InitializationError;
  indexer_client ← ok_or (connect indexer_url) InitializationError;
  Ok (indexer_handle, indexer_client).
Definition start_indexer (runtime : option Runtime) (config_path : option (option string)) (port : Z) :
    Ffi (PointerResult IndexerServiceFFI) :=
  match setup_indexer runtime config_path port with
  | Ok (handle, client) => service ← service_new handle client; result_from_value service
  | Err e => mret (result_from_error e)
  | Panic msg => lift_heap (Panic msg)
  end.
End Lifecycle.
Definition stop_indexer (indexer : option positive) : Ffi OperationStatus :=
  match indexer with
  | None => mret NullPointer
  | Some p => service ← box_from_raw (Some p); service_drop service ;; mret StatusOk
  end.

(** ** api/query.rs *)
(** The answers of the client: [RpcClient] of the indexer service. *)
Class IndexerClient (E : Type) := {
  cl_get_last_finalized_block_id : outcome E (option BlockId);
  cl_get_block_by_id : BlockId -> outcome E (option Protocol.Block);
  cl_get_block_by_hash : Protocol.HashType -> outcome E (option Protocol.Block);
  cl_get_account : Protocol.AccountId -> outcome E Protocol.Account;
  cl_get_transaction : Protocol.HashType -> outcome E (option Protocol.Transaction);
  cl_get_blocks : option BlockId -> Z -> outcome E (list Protocol.Block);
  cl_get_transactions_by_account : Protocol.AccountId -> Z -> Z -> outcome E (list Protocol.Transaction);
}.
Section Queries.
Context {E : Type} `{!IndexerClient E}.

(** What the queries do around the call: the null pointer to the service is reported,
    the one to the runtime is not; [prepare] is what is read of the arguments before
    the call. *)
Definition query {A B T} `{Storable T} (runtime : option Runtime) (indexer : option IndexerServiceFFI)
    (prepare : Ffi B) (call : B -> outcome E A) (convert : A -> Ffi T) : Ffi (PointerResult T) :=
  match indexer with
  | None => mret (result_from_error NullPointer)
  | Some indexer =>
      service_client indexer ;;
      runtime ← lift_heap (runtime_deref runtime);
      arguments ← prepare;
      lift_heap (runtime_as_ref runtime) ;;
      match call arguments with
      | Ok a => value ← convert a; result_from_value value
      | Err _ => mret (result_from_error ClientError)
      | Panic msg => lift_heap (Panic msg)
      end
  end.
(** [before.is_some.then(|| unsafe { *before.value })] *)
Definition read_option {T} `{Storable T} (o : FfiOption T) : Ffi (option T) := fun m =>
  if is_some o then
    p ← expect (opt_value o) "undefined behaviour: read at a null pointer";
    c ← expect (m !! p) "undefined behaviour: read of memory that is not allocated";
    l ← vec_from_cell 1 c;
    x ← expect (head l) "undefined behaviour: memory of another size";
    Ok (Some x, m)
  else Ok (None, m).
Definition option_into_ffi {A T} `{Storable T} (convert : A -> Ffi T) (o : option A) : Ffi (FfiOption T) :=
  match o with
  | Some a => x ← convert a; option_from_value x
  | None => mret option_from_none
  end.
Definition query_last_block runtime indexer : Ffi (PointerResult (option BlockId)) :=
  query runtime indexer (mret ()) (fun _ => cl_get_last_finalized_block_id) mret.
Definition query_block runtime indexer (block_id : BlockId) : Ffi (PointerResult (FfiOption FfiBlock)) :=
  query runtime indexer (mret ()) (fun _ => cl_get_block_by_id block_id) (option_into_ffi block_into_ffi).
Definition query_block_by_hash runtime indexer (hash : list byte) : Ffi (PointerResult (FfiOption FfiBlock)) :=
  query runtime indexer (mret ()) (fun _ => cl_get_block_by_hash (Protocol.mk_Hash hash)) (option_into_ffi block_into_ffi).
Definition query_account runtime indexer (account_id : list byte) : Ffi (PointerResult FfiAccount) :=
  query runtime indexer (mret ()) (fun _ => cl_get_account (Protocol.mk_AccountId account_id)) post_state_into_ffi.
Definition query_transaction runtime indexer (hash : list byte) : Ffi (PointerResult (FfiOption FfiTransaction)) :=
  query runtime indexer (mret ()) (fun _ => cl_get_transaction (Protocol.mk_Hash hash)) (option_into_ffi tx_into_ffi).
Definition query_block_vec runtime indexer (before : FfiOption BlockId) (limit : Z) :
    Ffi (PointerResult (FfiVec FfiBlock)) :=
  query runtime indexer (read_option before) (fun before_std => cl_get_blocks before_std limit)
    (list_into_ffi block_into_ffi).
Definition query_transactions_by_account runtime indexer (account_id : list byte) (offset limit : Z) :
    Ffi (PointerResult (FfiVec FfiTransaction)) :=
  query runtime indexer (mret ())
    (fun _ => cl_get_transactions_by_account (Protocol.mk_AccountId account_id) offset limit) (list_into_ffi tx_into_ffi).
End Queries.

(** ** What crosses the interface comes back *)

(** [crosses into from a b]: what [into a] hands out, [from] takes back as [b]. *)
Definition crosses {A B F} (into : A -> Ffi F) (from : F -> Ffi B) (a : A) (b : B) : Prop :=
  forall m, exists f part, gives (into a) m f part /\ takes (from f) part b.

#[export] Instance byte_laws : StorableLaws byte. Proof. done. Qed.
#[export] Instance array_laws : StorableLaws (list byte). Proof. done. Qed.
#[export] Instance word_laws : StorableLaws Z. Proof. done. Qed.
#[export] Instance account_laws : StorableLaws FfiAccount. Proof. done. Qed.
#[export] Instance signature_laws : StorableLaws FfiSignaturePubKeyEntry. Proof. done. Qed.
#[export] Instance nullifier_laws : StorableLaws FfiNullifierCommitmentSet. Proof. done. Qed.
#[export] Instance encrypted_laws : StorableLaws FfiEncryptedAccountData. Proof. done. Qed.
#[export] Instance public_body_laws : StorableLaws FfiPublicTransactionBody. Proof. done. Qed.
#[export] Instance private_body_laws : StorableLaws FfiPrivateTransactionBody. Proof. done. Qed.
#[export] Instance deployment_body_laws : StorableLaws FfiProgramDeploymentTransactionBody. Proof. done. Qed.
#[export] Instance transaction_laws : StorableLaws FfiTransaction. Proof. done. Qed.
#[export] Instance block_laws : StorableLaws FfiBlock. Proof. done. Qed.

Lemma takes_cell {T} `{StorableLaws T} p (l : list T) n : n = Z.of_nat (length l) ->
  takes (fun m => '(c, m) ← from_raw p m; l ← vec_from_cell n c; Ok (l, m)) {[p := to_cell l]} l.
Proof.
  intros -> m Hm. rewrite (takes_from_raw p (to_cell l) m Hm). cbn [mbind outcome_bind].
  unfold vec_from_cell. rewrite of_to_cell. cbn [expect mbind outcome_bind]. by rewrite bool_decide_true.
Qed.
Lemma vec_crosses {T} `{StorableLaws T} (l : list T) : crosses vec_into_ffi vec_from_ffi l l.
Proof.
  intros m. destruct l as [|x l]; [by exists (mk_FfiVec None 0 0), ∅; split; [apply gives_ret|apply takes_ret]|].
  destruct (gives_into_raw (to_cell (x :: l)) m) as (p & [Hp Hd]). injection Hp as Hp Hm.
  exists (mk_FfiVec (Some p) (Z.of_nat (length (x :: l))) (Z.of_nat (length (x :: l)))), {[p := to_cell (x :: l)]}. split.
  - split; [|done]. unfold vec_into_ffi. by rewrite <- Hm, <- Hp.
  - intros r Hr. unfold vec_from_ffi. cbn [capacity entries len]. rewrite decide_False by (cbn; lia).
    by apply (takes_cell p (x :: l) _ eq_refl r).
Qed.
Lemma box_crosses {T} `{StorableLaws T} (x : T) : crosses box_into_raw box_from_raw x x.
Proof.
  intros m. destruct (gives_into_raw (to_cell [x]) m) as (p & [Hp Hd]). injection Hp as Hp Hm.
  exists (Some p), {[p := to_cell [x]]}. split.
  - split; [|done]. unfold box_into_raw. by rewrite <- Hm, <- Hp.
  - intros r Hr. unfold box_from_raw. cbn [expect mbind outcome_bind].
    pose proof (takes_cell p [x] 1 eq_refl r Hr) as Hc. cbv beta in Hc.
    destruct (from_raw p _) as [[c m']|[]|]; [|discriminate Hc]. cbn [mbind outcome_bind] in *.
    destruct (vec_from_cell 1 c) as [l|[]|]; [|discriminate Hc]. by injection Hc as -> ->.
Qed.
(** In sequence, one part after the other. *)
Lemma crosses_then {A B F G} (into : A -> Ffi F) (into' : F -> Ffi G) (from' : G -> Ffi F) (from : F -> Ffi B) a b :
  crosses into from a b -> (forall f, crosses into' from' f f) ->
  crosses (fun a => x ← into a; into' x) (fun g => x ← from' g; from x) a b.
Proof.
  intros Hc Hbox m. destruct (Hc m) as (f & part & Hg & Ht). destruct (Hbox f (part ∪ m)) as (g & part' & Hg' & Ht').
  exists g, (part' ∪ part). split; [by eapply gives_bind|].
  apply takes_comm; [|eapply takes_bind; [exact Ht'|exact Ht|]]; pose proof (gives_apart _ _ _ _ _ _ _ Hg Hg'); [done|by symmetry].
Qed.
Lemma mapM_crosses {A B F} (into : A -> Ffi F) (from : F -> Ffi B) l k :
  Forall2 (crosses into from) l k -> crosses (mapM into) (mapM from) l k.
Proof.
  induction 1 as [|a b l k Hab _ IH]; intros m; [by exists [], ∅; split; [apply gives_ret|apply takes_ret]|].
  destruct (Hab m) as (f & part & Hg & Ht). destruct (IH (part ∪ m)) as (fs & part' & Hg' & Ht').
  exists (f :: fs), ((∅ ∪ part') ∪ part). cbn [mapM]. split.
  - eapply gives_bind; [exact Hg|]. eapply gives_bind; [exact Hg'|]. apply gives_ret.
  - pose proof (gives_apart _ _ _ _ _ _ _ Hg Hg'). eapply takes_bind; [exact Ht| |rewrite (left_id ∅ (∪)); done].
    eapply takes_bind; [exact Ht'|apply takes_ret|apply map_disjoint_empty_l].
Qed.
Lemma list_crosses {A B F} `{StorableLaws F} (into : A -> Ffi F) (from : F -> Ffi B) l k :
  Forall2 (crosses into from) l k -> crosses (list_into_ffi into) (list_from_ffi from) l k.
Proof. intros Hl. apply (crosses_then (mapM into) vec_into_ffi vec_from_ffi (mapM from)); [by apply mapM_crosses|apply vec_crosses]. Qed.

(** The parts of a struct, in the order of its fields. *)
Ltac gives_all := repeat (eapply gives_bind; [eassumption|]); apply gives_ret.
Ltac apart :=
  repeat match goal with H : gives _ _ _ _ |- _ => destruct H as [_ H] end;
  repeat match goal with H : _ ##ₘ _ ∪ _ |- _ => apply map_disjoint_union_r in H as [??] end;
  rewrite ?map_disjoint_union_l; split_and?; first [apply map_disjoint_empty_l|assumption|symmetry; assumption].
Ltac takes_all := cbn beta iota; repeat (eapply takes_bind; [eassumption| |]); try apply takes_ret; apart.

Lemma account_crosses a : Account_wf a -> crosses account_into_ffi account_from_ffi a (of_account a).
Proof.
  intros (Ho & Hb & Hd & Hn) m. destruct (vec_crosses (data_bytes (data a)) m) as (v & part & Hg & Ht).
  eexists _, (∅ ∪ part). split; [unfold account_into_ffi; gives_all|].
  unfold account_from_ffi. cbn [f_data f_data_len f_data_cap f_program_owner f_balance f_nonce].
  replace (mk_FfiVec (entries v) (len v) (capacity v)) with v by (by destruct v).
  eapply takes_bind; [exact Ht| |apply map_disjoint_empty_l]. unfold u128_of_ffi, u128_to_ffi.
  rewrite !(le_value_bytes_in 16 128) by done. apply takes_ret.
Qed.
Lemma encrypted_crosses e : crosses encrypted_into_ffi encrypted_from_ffi e e.
Proof.
  intros m. destruct e as [[c] [k] t].
  destruct (vec_crosses c m) as (v & part & Hg & Ht).
  destruct (vec_crosses k (part ∪ m)) as (v' & part' & Hg' & Ht').
  eexists _, ((∅ ∪ part') ∪ part). split; [unfold encrypted_into_ffi; cbn; gives_all|].
  unfold encrypted_from_ffi. cbn [f_ciphertext f_epk f_view_tag].
  takes_all.
Qed.
Lemma mapM_fmap_back {A B} (f : A -> B) (g : B -> A) (P : A -> Prop) l : (forall x, P x -> g (f x) = x) -> Forall P l -> g <$> (f <$> l) = l.
Proof. intros Hg. induction 1 as [|x l Hx _ IH]; [done|]. cbn. by rewrite Hg, IH. Qed.

(** What is read back: a public transaction without a proof, and an open end of a
    window for its extreme value. *)
Definition ffi_window (w : Protocol.ValidityWindow) : Protocol.ValidityWindow := cast_ffi_validity_window (cast_validity_window w).
Definition ffi_public_tx (tx : Protocol.PublicTransaction) : Protocol.PublicTransaction :=
  Protocol.mk_PPublicTx (Protocol.pub_hash_ tx) (Protocol.p_pub_message tx)
    (Protocol.mk_PWitnessSet (Protocol.signatures_and_public_keys (Protocol.p_pub_witness_set tx)) None).
Definition ffi_privacy_message (m : Protocol.PrivacyPreservingMessage) : Protocol.PrivacyPreservingMessage :=
  Protocol.mk_PPrivacyMessage (Protocol.p_public_account_ids m) (Protocol.p_nonces m) (Protocol.p_public_post_states m)
    (Protocol.p_encrypted_private_post_states m) (Protocol.p_new_commitments m) (Protocol.p_new_nullifiers m)
    (ffi_window (Protocol.p_block_validity_window m)) (ffi_window (Protocol.p_timestamp_validity_window m)).
Definition ffi_tx (tx : Protocol.Transaction) : Protocol.Transaction :=
  match tx with
  | Protocol.Public tx => Protocol.Public (ffi_public_tx tx)
  | Protocol.PrivacyPreserving tx =>
      Protocol.PrivacyPreserving (Protocol.mk_PPrivacyTx (Protocol.priv_hash_ tx) (ffi_privacy_message (Protocol.p_priv_message tx))
        (Protocol.p_priv_witness_set tx))
  | Protocol.ProgramDeployment tx => Protocol.ProgramDeployment tx
  end.
(** What the interface converts without a panic: nonces and balances are numbers of
    128 bits, the data of post states fits, private transactions have a proof. *)
Definition state_crossable (p : Protocol.Account) : Prop := exists a, Account_wf a /\ p = of_account a.
Definition tx_crossable (tx : Protocol.Transaction) : Prop :=
  match tx with
  | Protocol.Public tx => Forall (in_u 128) (Protocol.m_nonces (Protocol.p_pub_message tx))
  | Protocol.PrivacyPreserving tx =>
      Forall (in_u 128) (Protocol.p_nonces (Protocol.p_priv_message tx)) /\
      Forall state_crossable (Protocol.p_public_post_states (Protocol.p_priv_message tx)) /\
      stdpp.base.is_Some (Protocol.p_proof (Protocol.p_priv_witness_set tx))
  | Protocol.ProgramDeployment _ => True
  end.

Lemma u128s_back l : Forall (in_u 128) l -> u128_of_ffi <$> (u128_to_ffi <$> l) = l.
Proof. apply mapM_fmap_back. intros n Hn. by apply (le_value_bytes_in 16 128). Qed.
Lemma ids_back (l : list Protocol.AccountId) : Protocol.mk_AccountId <$> (Protocol.id_value <$> l) = l.
Proof. apply (mapM_fmap_back _ _ (fun _ => True)); [by intros []|by apply Forall_true]. Qed.
Lemma ffi_signatures_back (l : list (Protocol.Signature * Protocol.PublicKey)) : signature_from_ffi <$> (signature_into_ffi <$> l) = l.
Proof. apply (mapM_fmap_back _ _ (fun _ => True)); [by intros [[] []]|by apply Forall_true]. Qed.
Lemma commitments_back (l : list Protocol.Commitment) : Protocol.mk_PCommitment <$> (Protocol.commitment_value <$> l) = l.
Proof. apply (mapM_fmap_back _ _ (fun _ => True)); [by intros []|by apply Forall_true]. Qed.
Lemma nullifiers_back (l : list (Protocol.Nullifier * Protocol.CommitmentSetDigest)) : nullifier_from_ffi <$> (nullifier_into_ffi <$> l) = l.
Proof. apply (mapM_fmap_back _ _ (fun _ => True)); [by intros [[] []]|by apply Forall_true]. Qed.
Lemma state_into_crosses p : state_crossable p -> crosses post_state_into_ffi account_from_ffi p p.
Proof.
  intros (a & Hwf & ->) m. destruct (account_crosses a Hwf m) as (f & part & Hg & Ht).
  exists f, part. split; [|exact Ht]. unfold post_state_into_ffi, gives. unfold mbind, heap_bind, lift_heap, nssa_account.
  replace (to_account (of_account a)) with (Ok (E := DataTooBigError) a); [exact Hg|].
  destruct Hwf as (_ & _ & Hd & _). unfold to_account, of_account, to_data. cbn [Protocol.p_data of_data Protocol.inner_data].
  rewrite (proj2 (Data_try_from_ok _ (data a))) by (by destruct (data a)). by destruct a.
Qed.
Lemma public_message_crosses msg : Forall (in_u 128) (Protocol.m_nonces msg) ->
  crosses public_message_into_ffi public_message_from_ffi msg msg.
Proof.
  intros Hn m. destruct msg as [[o] ids nonces instr]. cbn in Hn.
  destruct (vec_crosses (Protocol.id_value <$> ids) m) as (v & part & Hg & Ht).
  destruct (vec_crosses (u128_to_ffi <$> nonces) (part ∪ m)) as (v' & part' & Hg' & Ht').
  destruct (vec_crosses instr (part' ∪ (part ∪ m))) as (v'' & part'' & Hg'' & Ht'').
  eexists _, (((∅ ∪ part'') ∪ part') ∪ part). split; [unfold public_message_into_ffi; cbn; gives_all|].
  unfold public_message_from_ffi. cbn [f_account_ids f_nonces f_instruction_data f_program_id].
  rewrite <- (ids_back ids), <- (u128s_back nonces) by done. takes_all.
Qed.
Lemma public_body_crosses tx : Forall (in_u 128) (Protocol.m_nonces (Protocol.p_pub_message tx)) ->
  crosses public_body_into_ffi public_tx_from_ffi tx (ffi_public_tx tx).
Proof.
  intros Hn m. destruct tx as [[h] msg [sigs pr]]. cbn in Hn.
  destruct (public_message_crosses msg Hn m) as (v & part & Hg & Ht).
  destruct (vec_crosses (signature_into_ffi <$> sigs) (part ∪ m)) as (v' & part' & Hg' & Ht').
  eexists _, ((∅ ∪ part') ∪ part). split; [unfold public_body_into_ffi; cbn; gives_all|].
  unfold public_tx_from_ffi, ffi_public_tx. cbn [f_pub_hash f_pub_message f_pub_witness_set Protocol.pub_hash_ Protocol.p_pub_message
    Protocol.p_pub_witness_set Protocol.signatures_and_public_keys].
  rewrite <- (ffi_signatures_back sigs) at 1. takes_all.
Qed.
Lemma privacy_message_crosses msg : Forall (in_u 128) (Protocol.p_nonces msg) -> Forall state_crossable (Protocol.p_public_post_states msg) ->
  crosses privacy_message_into_ffi privacy_message_from_ffi msg (ffi_privacy_message msg).
Proof.
  intros Hn Hs m. destruct msg as [ids nonces states encs comms nulls bw tw]. cbn in Hn, Hs.
  destruct (vec_crosses (Protocol.id_value <$> ids) m) as (v1 & p1 & Hg1 & Ht1).
  destruct (vec_crosses (u128_to_ffi <$> nonces) (p1 ∪ m)) as (v2 & p2 & Hg2 & Ht2).
  assert (Hst : crosses (list_into_ffi post_state_into_ffi) (list_from_ffi account_from_ffi) states states).
  { apply list_crosses. induction Hs; constructor; [by apply state_into_crosses|done]. }
  destruct (Hst (p2 ∪ (p1 ∪ m))) as (v3 & p3 & Hg3 & Ht3).
  assert (Hen : crosses (list_into_ffi encrypted_into_ffi) (list_from_ffi encrypted_from_ffi) encs encs).
  { apply list_crosses. induction encs; constructor; [apply encrypted_crosses|done]. }
  destruct (Hen (p3 ∪ (p2 ∪ (p1 ∪ m)))) as (v4 & p4 & Hg4 & Ht4).
  destruct (vec_crosses (Protocol.commitment_value <$> comms) (p4 ∪ (p3 ∪ (p2 ∪ (p1 ∪ m))))) as (v5 & p5 & Hg5 & Ht5).
  destruct (vec_crosses (nullifier_into_ffi <$> nulls) (p5 ∪ (p4 ∪ (p3 ∪ (p2 ∪ (p1 ∪ m)))))) as (v6 & p6 & Hg6 & Ht6).
  eexists _, ((((((∅ ∪ p6) ∪ p5) ∪ p4) ∪ p3) ∪ p2) ∪ p1). split; [unfold privacy_message_into_ffi; cbn; gives_all|].
  unfold privacy_message_from_ffi, ffi_privacy_message. cbn [f_public_account_ids f_priv_nonces f_public_post_states
    f_encrypted_private_post_states f_new_commitments f_new_nullifiers f_block_validity_window f_timestamp_validity_window
    Protocol.p_public_account_ids Protocol.p_nonces Protocol.p_public_post_states Protocol.p_encrypted_private_post_states
    Protocol.p_new_commitments Protocol.p_new_nullifiers Protocol.p_block_validity_window Protocol.p_timestamp_validity_window].
  rewrite <- (ids_back ids), <- (u128s_back nonces), <- (commitments_back comms), <- (nullifiers_back nulls) by done. takes_all.
Qed.
Lemma gives_lift {A B} (a : A) (k : A -> Ffi B) m b part : gives (k a) m b part -> gives (lift_heap (Ok a) ≫= k) m b part.
Proof. done. Qed.
Lemma private_body_crosses tx : tx_crossable (Protocol.PrivacyPreserving tx) ->
  crosses private_body_into_ffi private_tx_from_ffi tx
    (Protocol.mk_PPrivacyTx (Protocol.priv_hash_ tx) (ffi_privacy_message (Protocol.p_priv_message tx)) (Protocol.p_priv_witness_set tx)).
Proof.
  intros (Hn & Hs & [[pr] Hp]) m. destruct tx as [[h] msg [sigs opr]]. cbn in Hn, Hs, Hp. subst opr.
  destruct (privacy_message_crosses msg Hn Hs m) as (v & part & Hg & Ht).
  destruct (vec_crosses (signature_into_ffi <$> sigs) (part ∪ m)) as (v' & part' & Hg' & Ht').
  destruct (vec_crosses pr (part' ∪ (part ∪ m))) as (v'' & part'' & Hg'' & Ht'').
  eexists _, (((∅ ∪ part'') ∪ part') ∪ part). split.
  - unfold private_body_into_ffi. cbn. do 2 (eapply gives_bind; [eassumption|]). apply gives_lift. gives_all.
  - unfold private_tx_from_ffi. cbn [f_priv_hash f_priv_message f_priv_witness_set f_proof Protocol.priv_hash_ Protocol.p_priv_message
      Protocol.p_priv_witness_set].
    rewrite <- (ffi_signatures_back sigs) at 1. takes_all.
Qed.
Lemma deployment_body_crosses tx : crosses deployment_body_into_ffi deployment_tx_from_ffi tx tx.
Proof.
  intros m. destruct tx as [[h] [code]]. destruct (vec_crosses code m) as (v & part & Hg & Ht).
  eexists _, (∅ ∪ part). split; [unfold deployment_body_into_ffi; cbn; gives_all|].
  unfold deployment_tx_from_ffi. cbn [f_dep_hash f_dep_message]. takes_all.
Qed.

(** What a client of the interface reads. *)
Definition read_tx (f : FfiTransaction) : Ffi Protocol.Transaction :=
  match f_kind f with
  | KindPublic => body ← box_from_raw (public_body (f_body f)); tx ← public_tx_from_ffi body; mret (Protocol.Public tx)
  | KindPrivate => body ← box_from_raw (private_body (f_body f)); tx ← private_tx_from_ffi body; mret (Protocol.PrivacyPreserving tx)
  | KindProgramDeploy =>
      body ← box_from_raw (program_deployment_body (f_body f)); tx ← deployment_tx_from_ffi body;
      mret (Protocol.ProgramDeployment tx)
  end.
Definition read_block (f : FfiBlock) : Ffi Protocol.Block :=
  txs ← list_from_ffi read_tx (f_block_body f);
  let h := f_header f in
  mret (Protocol.mk_PBlock
    (Protocol.mk_PHeader (f_block_id h) (Protocol.mk_Hash (f_prev_block_hash h)) (Protocol.mk_Hash (f_hash h)) (f_timestamp h)
       (Protocol.mk_Sig (f_header_signature h)))
    (Protocol.mk_PBody txs) (status_from_ffi (f_bedrock_status f)) (Protocol.mk_MsgId (f_bedrock_parent_id f))).
Definition ffi_block (b : Protocol.Block) : Protocol.Block :=
  Protocol.mk_PBlock (Protocol.p_header b) (Protocol.mk_PBody (ffi_tx <$> Protocol.transactions (Protocol.p_body b)))
    (Protocol.p_bedrock_status b) (Protocol.p_bedrock_parent_id b).

(** A body in a box. *)
Lemma boxed_crosses {A B C F} `{StorableLaws F} (into : A -> Ffi F) (from : F -> Ffi B) (wrap : option positive -> FfiTransaction)
    (back : B -> C) a b :
  crosses into from a b ->
  forall m, exists p part,
    gives (body ← into a; p ← box_into_raw body; mret (wrap p)) m (wrap p) part /\
    takes (body ← box_from_raw p; tx ← from body; mret (back tx)) part (back b) /\
    takes (body ← box_from_raw p; from body ;; mret ()) part ().
Proof.
  intros Hc m. destruct (Hc m) as (f & part & Hg & Ht). destruct (box_crosses f (part ∪ m)) as (p & part' & Hg' & Ht').
  pose proof (gives_apart _ _ _ _ _ _ _ Hg Hg') as Hap.
  assert (Hrest : forall D (d : D), takes (from f ≫= fun _ => mret d) (∅ ∪ part) d).
  { intros D d. eapply takes_bind; [exact Ht|apply takes_ret|apply map_disjoint_empty_l]. }
  exists p, ((∅ ∪ part') ∪ part). rewrite (left_id ∅ (∪)). split.
  { rewrite <- (left_id ∅ (∪) part'). gives_all. }
  split; apply takes_comm; try (by symmetry).
  - eapply takes_bind; [exact Ht'| |by symmetry]. rewrite <- (left_id ∅ (∪) part). takes_all.
  - eapply takes_bind; [exact Ht'| |by symmetry]. rewrite <- (left_id ∅ (∪) part). apply Hrest.
Qed.
Lemma tx_crosses tx : tx_crossable tx -> forall m, exists f part,
  gives (tx_into_ffi tx) m f part /\ takes (read_tx f) part (ffi_tx tx) /\ takes (free_ffi_transaction f) part ().
Proof.
  intros Hx m. destruct tx as [tx|tx|tx]; cbn [tx_into_ffi].
  - destruct (boxed_crosses public_body_into_ffi public_tx_from_ffi (fun p => mk_FfiTx (mk_FfiTxBody p None None) KindPublic)
      Protocol.Public tx (ffi_public_tx tx) (public_body_crosses tx Hx) m) as (p & part & H3). eexists _, part. exact H3.
  - destruct (boxed_crosses private_body_into_ffi private_tx_from_ffi (fun p => mk_FfiTx (mk_FfiTxBody None p None) KindPrivate)
      Protocol.PrivacyPreserving tx _ (private_body_crosses tx Hx) m) as (p & part & H3). eexists _, part. exact H3.
  - destruct (boxed_crosses deployment_body_into_ffi deployment_tx_from_ffi (fun p => mk_FfiTx (mk_FfiTxBody None None p) KindProgramDeploy)
      Protocol.ProgramDeployment tx _ (deployment_body_crosses tx) m) as (p & part & H3). eexists _, part. exact H3.
Qed.

(** ** Queries *)
Lemma gives_functional {A} (c : Ffi A) m a b part part' : gives c m a part -> gives c m b part' -> a = b /\ part = part'.
Proof.
  intros [Hc Hd] [Hc' Hd']. rewrite Hc in Hc'. injection Hc' as -> Hm. split; [done|]. by apply (map_union_cancel_r _ _ m).
Qed.
(** [handed into read free a b]: what [into a] hands out reads as [b], and [free]
    frees it. *)
Definition handed {A B F} (into : A -> Ffi F) (read : F -> Ffi B) (free : F -> Ffi ()) (a : A) (b : B) : Prop :=
  forall m, exists f part, gives (into a) m f part /\ takes (read f) part b /\ takes (free f) part ().
Lemma handed_iff {A B F} (into : A -> Ffi F) (read : F -> Ffi B) free a b :
  handed into read free a b <-> crosses into read a b /\ crosses into free a ().
Proof.
  split.
  - intros Hh. split; intros m; destruct (Hh m) as (f & part & Hg & Hr & Hf); by exists f, part.
  - intros [Hr Hf] m. destruct (Hr m) as (f & part & Hg & Ht). destruct (Hf m) as (f' & part' & Hg' & Ht').
    destruct (gives_functional _ _ _ _ _ _ Hg Hg') as [<- <-]. by exists f, part.
Qed.
Lemma handed_list {A B F} `{StorableLaws F} (into : A -> Ffi F) (read : F -> Ffi B) free l k :
  Forall2 (handed into read free) l k ->
  handed (list_into_ffi into) (list_from_ffi read) (fun v => list_from_ffi free v ;; mret ()) l k.
Proof.
  intros Hl. apply handed_iff. split.
  - apply list_crosses. eapply Forall2_impl; [exact Hl|]. intros a b Hh. by apply handed_iff in Hh as [? _].
  - assert (crosses (list_into_ffi into) (list_from_ffi free) l (replicate (length l) ())) as Hc.
    { apply list_crosses. clear -Hl. induction Hl as [|a b l k Hh _ IH]; cbn; constructor; [|done]. by apply handed_iff in Hh as [_ ?]. }
    intros m. destruct (Hc m) as (f & part & Hg & Ht). exists f, part. split; [done|]. by eapply takes_ignore.
Qed.
Lemma handed_then {A B F C} (into : A -> Ffi F) (read : F -> Ffi B) free (back : B -> C) a b :
  handed into read free a b -> handed into (fun f => x ← read f; mret (back x)) free a (back b).
Proof.
  intros Hh m. destruct (Hh m) as (f & part & Hg & Ht & Hf). exists f, part. split; [done|]. split; [|done].
  rewrite <- (left_id ∅ (∪) part). takes_all.
Qed.
(** An option: the value is in a box. *)
Definition option_from_ffi {B T} `{Storable T} (read : T -> Ffi B) (o : FfiOption T) : Ffi (option B) :=
  if is_some o then value ← box_from_raw (opt_value o); b ← read value; mret (Some b) else mret None.
Definition free_option {T} `{Storable T} (free : T -> Ffi ()) (o : FfiOption T) : Ffi () :=
  if is_some o then value ← box_from_raw (opt_value o); free value else mret ().
Lemma handed_option {A B F} `{StorableLaws F} (into : A -> Ffi F) (read : F -> Ffi B) free (back : A -> B) o :
  (forall a, o = Some a -> handed into read free a (back a)) ->
  handed (option_into_ffi into) (option_from_ffi read) (free_option free) o (back <$> o).
Proof.
  intros Hh m. destruct o as [a|]; [|exists option_from_none, ∅; split; [apply gives_ret|split; apply takes_ret]].
  destruct (Hh a eq_refl m) as (f & part & Hg & Ht & Hf). destruct (box_crosses f (part ∪ m)) as (p & part' & Hg' & Ht').
  pose proof (gives_apart _ _ _ _ _ _ _ Hg Hg') as Hap.
  exists (mk_FfiOption p true), ((∅ ∪ part') ∪ part). cbn [option_into_ffi]. split.
  { eapply gives_bind; [exact Hg|]. unfold option_from_value. gives_all. }
  rewrite (left_id ∅ (∪)). unfold option_from_ffi, free_option. cbn [is_some opt_value]. split; apply takes_comm; try (by symmetry).
  - rewrite <- (left_id ∅ (∪) part). takes_all.
  - eapply takes_bind; [exact Ht'|exact Hf|by symmetry].
Qed.

Lemma handed_tx tx : tx_crossable tx -> handed tx_into_ffi read_tx free_ffi_transaction tx (ffi_tx tx).
Proof. intros Hx. exact (tx_crosses tx Hx). Qed.
Definition block_crossable (b : Protocol.Block) : Prop := Forall tx_crossable (Protocol.transactions (Protocol.p_body b)).
Lemma handed_block b : block_crossable b -> handed block_into_ffi read_block free_ffi_block b (ffi_block b).
Proof.
  intros Hx m.
  assert (Hl : handed (list_into_ffi tx_into_ffi) (list_from_ffi read_tx) (fun v => list_from_ffi free_ffi_transaction v ;; mret ())
                 (Protocol.transactions (Protocol.p_body b)) (ffi_tx <$> Protocol.transactions (Protocol.p_body b))).
  { apply handed_list, Forall2_fmap_r, Forall_Forall2_diag. eapply Forall_impl; [exact Hx|]. apply handed_tx. }
  destruct (Hl m) as (v & part & Hg & Ht & Hf). eexists _, (∅ ∪ part). split; [unfold block_into_ffi; gives_all|].
  split; [|by rewrite (left_id ∅ (∪))]. unfold read_block. cbn [f_block_body f_header f_bedrock_status f_bedrock_parent_id].
  unfold ffi_block. destruct b as [[i [ph] [h] t [sg]] [txs] st [pid]]. cbn -[list_from_ffi] in *.
  destruct st; takes_all.
Qed.
Lemma handed_state a : Account_wf a ->
  handed post_state_into_ffi account_from_ffi free_ffi_account (of_account a) (of_account a).
Proof.
  intros Ha m. destruct (state_into_crosses (of_account a) ltac:(by exists a) m) as (f & part & Hg & Ht).
  exists f, part. split; [done|]. split; [done|]. by eapply takes_ignore.
Qed.
#[export] Instance block_opt_laws : StorableLaws (FfiOption FfiBlock). Proof. done. Qed.
#[export] Instance transaction_opt_laws : StorableLaws (FfiOption FfiTransaction). Proof. done. Qed.
#[export] Instance block_vec_laws : StorableLaws (FfiVec FfiBlock). Proof. done. Qed.
#[export] Instance transaction_vec_laws : StorableLaws (FfiVec FfiTransaction). Proof. done. Qed.
#[export] Instance last_block_laws : StorableLaws (option BlockId). Proof. done. Qed.

Section Answers.
Context {E : Type} `{!IndexerClient E}.

(** The queries, with the type of the answer and of the struct for C. *)
Inductive Query : Type -> Type -> Type :=
  | LastBlock : Query (option BlockId) (option BlockId)
  | BlockById (block_id : BlockId) : Query (option Protocol.Block) (FfiOption FfiBlock)
  | BlockByHash (hash : list byte) : Query (option Protocol.Block) (FfiOption FfiBlock)
  | AccountById (account_id : list byte) : Query Protocol.Account FfiAccount
  | TransactionByHash (hash : list byte) : Query (option Protocol.Transaction) (FfiOption FfiTransaction)
  | Blocks (before : FfiOption BlockId) (limit : Z) : Query (list Protocol.Block) (FfiVec FfiBlock)
  | TransactionsOf (account_id : list byte) (offset limit : Z) : Query (list Protocol.Transaction) (FfiVec FfiTransaction).
Definition run_query {A F} (q : Query A F) (runtime : option Runtime) (indexer : option IndexerServiceFFI) : Ffi (PointerResult F) :=
  match q with
  | LastBlock => query_last_block runtime indexer
  | BlockById id => query_block runtime indexer id
  | BlockByHash h => query_block_by_hash runtime indexer h
  | AccountById id => query_account runtime indexer id
  | TransactionByHash h => query_transaction runtime indexer h
  | Blocks before limit => query_block_vec runtime indexer before limit
  | TransactionsOf id offset limit => query_transactions_by_account runtime indexer id offset limit
  end.
(** What the client answers; the arguments of one query are in memory. *)
Definition client_answer {A F} (q : Query A F) (m : gmap positive Cell) : outcome E A :=
  match q with
  | LastBlock => cl_get_last_finalized_block_id
  | BlockById id => cl_get_block_by_id id
  | BlockByHash h => cl_get_block_by_hash (Protocol.mk_Hash h)
  | AccountById id => cl_get_account (Protocol.mk_AccountId id)
  | TransactionByHash h => cl_get_transaction (Protocol.mk_Hash h)
  | Blocks before limit =>
      match read_option before m with
      | Ok (before_std, _) => cl_get_blocks before_std limit
      | Err e => match e with end
      | Panic msg => Panic msg
      end
  | TransactionsOf id offset limit => cl_get_transactions_by_account (Protocol.mk_AccountId id) offset limit
  end.
(** The function that frees the struct, what a client reads in it, and when. *)
Definition free_answer {A F} (q : Query A F) : F -> Ffi () :=
  match q with
  | LastBlock => fun _ => mret ()
  | BlockById _ | BlockByHash _ => free_ffi_block_opt
  | AccountById _ => free_ffi_account
  | TransactionByHash _ => free_ffi_transaction_opt
  | Blocks _ _ => free_ffi_block_vec
  | TransactionsOf _ _ _ => free_ffi_transaction_vec
  end.
Definition read_answer {A F} (q : Query A F) : F -> Ffi A :=
  match q with
  | LastBlock => mret
  | BlockById _ | BlockByHash _ => option_from_ffi read_block
  | AccountById _ => account_from_ffi
  | TransactionByHash _ => option_from_ffi read_tx
  | Blocks _ _ => list_from_ffi read_block
  | TransactionsOf _ _ _ => list_from_ffi read_tx
  end.
Definition seen_answer {A F} (q : Query A F) : A -> A :=
  match q with
  | LastBlock => fun n => n
  | BlockById _ | BlockByHash _ => fun o : option Protocol.Block => ffi_block <$> o
  | AccountById _ => fun a => a
  | TransactionByHash _ => fun o : option Protocol.Transaction => ffi_tx <$> o
  | Blocks _ _ => fun l : list Protocol.Block => ffi_block <$> l
  | TransactionsOf _ _ _ => fun l : list Protocol.Transaction => ffi_tx <$> l
  end.
Definition answer_crossable {A F} (q : Query A F) : A -> Prop :=
  match q with
  | LastBlock => fun _ => True
  | BlockById _ | BlockByHash _ => fun o => forall b, o = Some b -> block_crossable b
  | AccountById _ => state_crossable
  | TransactionByHash _ => fun o => forall tx, o = Some tx -> tx_crossable tx
  | Blocks _ _ => Forall block_crossable
  | TransactionsOf _ _ _ => Forall tx_crossable
  end.
(** The box of the result. *)
Definition result_cell {A F} (q : Query A F) : F -> Cell :=
  match q with
  | LastBlock => fun f => to_cell [f]
  | BlockById _ | BlockByHash _ => fun f => to_cell [f]
  | AccountById _ => fun f => to_cell [f]
  | TransactionByHash _ => fun f => to_cell [f]
  | Blocks _ _ => fun f => to_cell [f]
  | TransactionsOf _ _ _ => fun f => to_cell [f]
  end.
Definition running (service : IndexerServiceFFI) (m : gmap positive Cell) : Prop :=
  exists p c, indexer_client service = Some p /\ m !! p = Some (to_cell [c : WsClient]).

Lemma read_option_keeps {T} `{Storable T} (o : FfiOption T) m x m' : read_option o m = Ok (x, m') -> m' = m.
Proof.
  unfold read_option. destruct (is_some o); [|by intros [= <- <-]].
  intros (p & _ & (c & _ & (l & _ & (y & _ & [= <- <-])%bind_ok)%bind_ok)%bind_ok)%bind_ok. done.
Qed.
Lemma service_client_running service m : running service m -> exists c, service_client service m = Ok (c, m).
Proof.
  intros (p & c & Hp & Hm). exists c. unfold service_client. rewrite Hp. cbn [expect mbind outcome_bind]. rewrite Hm. cbn.
  by rewrite bool_decide_true.
Qed.
(** Of a service that runs, with a runtime: the arguments are read, then the client
    is asked. *)
Lemma query_running {A B T} `{Storable T} service runtime r m (prepare : Ffi B) call (convert : A -> Ffi T) :
  running service m -> runtime_as_ref runtime = Ok r -> (forall b m', prepare m = Ok (b, m') -> m' = m) ->
  query (E := E) (Some runtime) (Some service) prepare call convert m =
  match prepare m with
  | Ok (b, _) =>
      match call b with
      | Ok a => (value ← convert a; result_from_value value) m
      | Err _ => Ok (result_from_error ClientError, m)
      | Panic msg => Panic msg
      end
  | Err e => match e with end
  | Panic msg => Panic msg
  end.
Proof.
  intros [c Hc]%service_client_running Hr Hprep. unfold query, mbind, heap_bind, lift_heap. rewrite Hc. cbn.
  destruct (prepare m) as [[b m']|[]|msg] eqn:Hpm; [|done]. rewrite (Hprep _ _ eq_refl). cbn. rewrite Hr. cbn. by destruct (call b).
Qed.
(** Without a runtime. *)
Lemma query_no_runtime {A B T} `{Storable T} service m (prepare : Ffi B) call (convert : A -> Ffi T) :
  running service m -> exists msg, query (E := E) None (Some service) prepare call convert m = Panic msg.
Proof.
  intros [c Hc]%service_client_running. unfold query, mbind, heap_bind, lift_heap. rewrite Hc. cbn. by eexists.
Qed.
(** One query: the answer, its struct, and the box of the result that stays. *)
Definition answered {A T} (result : guest (PointerResult T * gmap positive Cell)) (m : gmap positive Cell)
    (cell : T -> Cell) (read : T -> Ffi A) (free : T -> Ffi ()) (b : A) : Prop :=
  exists p f part, let box := {[p := cell f]} in
    result = Ok (mk_PointerResult (Some p) StatusOk, box ∪ (part ∪ m)) /\ part ##ₘ m /\ box ##ₘ part ∪ m /\
    takes (read f) part b /\ free f (box ∪ (part ∪ m)) = Ok ((), box ∪ m).
Lemma value_answered {A B T} `{StorableLaws T} (convert : A -> Ffi T) (read : T -> Ffi B) free a b m :
  handed convert read free a b -> answered ((value ← convert a; result_from_value value) m) m (fun f => to_cell [f]) read free b.
Proof.
  intros Hh. destruct (Hh m) as (f & part & [Hg Hd] & Ht & Hf).
  destruct (gives_into_raw (to_cell [f]) (part ∪ m)) as (p & [Hp Hbox]). injection Hp as Hp Hm.
  exists p, f, part. cbv zeta. split_and!; [|done|done|done|].
  - unfold mbind, heap_bind. rewrite Hg. unfold result_from_value, box_into_raw, mbind, heap_bind. rewrite <- Hm, <- Hp. done.
  - rewrite (assoc (∪)), (map_union_comm _ part), <- (assoc (∪)) by solve_map_disjoint. apply Hf. solve_map_disjoint.
Qed.
Lemma handed_blocks l : Forall block_crossable l -> handed (list_into_ffi block_into_ffi) (list_from_ffi read_block) free_ffi_block_vec l (ffi_block <$> l).
Proof. intros Hl. apply handed_list, Forall2_fmap_r, Forall_Forall2_diag. eapply Forall_impl; [exact Hl|]. apply handed_block. Qed.
Lemma handed_txs l : Forall tx_crossable l -> handed (list_into_ffi tx_into_ffi) (list_from_ffi read_tx) free_ffi_transaction_vec l (ffi_tx <$> l).
Proof. intros Hl. apply handed_list, Forall2_fmap_r, Forall_Forall2_diag. eapply Forall_impl; [exact Hl|]. apply handed_tx. Qed.

(** C22. Through the C interface of the indexer: a null pointer to the service is
    reported, whatever the runtime, and changes nothing; a null pointer to the
    runtime is not checked: with a service that runs it is undefined behaviour in
    every query, as is a pointer to a block id that is not valid.  With both, an
    error of the client is reported and changes nothing.  An answer within the
    types of the interface ([answer_crossable]) is handed out: read at its address
    it is what [seen_answer] says of the answer of the indexer: the answer, in which
    an end of a validity window at 0 or at the largest number reads as open and a
    public transaction has no proof; the function that frees its struct takes back
    every allocation behind the struct, and nothing else; what stays is one
    allocation for a query, the box of the result itself, which no function of the
    interface takes. *)
Theorem indexer_ffi_answers {A F} (q : Query A F) service runtime r m :
  running service m -> runtime_as_ref runtime = Ok r ->
  (forall any, run_query q any None m = Ok (result_from_error NullPointer, m)) /\
  (exists msg, run_query q None (Some service) m = Panic msg) /\
  match client_answer q m with
  | Ok a => answer_crossable q a ->
      answered (run_query q (Some runtime) (Some service) m) m (result_cell q) (read_answer q) (free_answer q) (seen_answer q a)
  | Err _ => run_query q (Some runtime) (Some service) m = Ok (result_from_error ClientError, m)
  | Panic msg => run_query q (Some runtime) (Some service) m = Panic msg
  end.
Proof.
  intros Hrun Hr. split; [by destruct q|]. split; [by destruct q; apply query_no_runtime|].
  destruct q; cbn [client_answer run_query answer_crossable result_cell read_answer free_answer seen_answer];
    unfold query_last_block, query_block, query_block_by_hash, query_account, query_transaction, query_block_vec,
      query_transactions_by_account; rewrite (query_running _ _ r) by (done || (intros b m'; first [by apply read_option_keeps|by intros [= _ <-]]));
    cbn [mret heap_ret];
    (try match goal with |- context [read_option ?o m] => destruct (read_option o m) as [[before_std m']|[]|msg]; [|done] end);
    (match goal with |- match ?x with _ => _ end => destruct x as [a|e|msg] end; [intros Ha; apply value_answered|done|done]).
  - intros m'. exists a, ∅. split; [apply gives_ret|split; apply takes_ret].
  - apply (handed_option block_into_ffi read_block free_ffi_block ffi_block). intros b ->. by apply handed_block, Ha.
  - apply (handed_option block_into_ffi read_block free_ffi_block ffi_block). intros b ->. by apply handed_block, Ha.
  - destruct Ha as (acc & Hwf & ->). by apply handed_state.
  - apply (handed_option tx_into_ffi read_tx free_ffi_transaction ffi_tx). intros tx ->. by apply handed_tx, Ha.
  - by apply handed_blocks.
  - by apply handed_txs.
Qed.
End Answers.

(** ** Further facts *)
#[export] Instance service_laws : StorableLaws IndexerServiceFFI. Proof. done. Qed.
#[export] Instance handle_laws : StorableLaws IndexerHandle. Proof. done. Qed.
#[export] Instance client_laws : StorableLaws WsClient. Proof. done. Qed.

(** Stopping an indexer takes back everything that starting it allocated. *)
Lemma stop_undoes_start {Config} (from_path : string -> option Config) run_server addr_to_url connect runtime path port handle client m :
  setup_indexer from_path run_server addr_to_url connect runtime path port = Ok (handle, client) ->
  exists p part, gives (start_indexer from_path run_server addr_to_url connect runtime path port) m
    (mk_PointerResult (Some p) StatusOk) part /\
    takes (stop_indexer (Some p)) part StatusOk.
Proof.
  intros Hs. unfold start_indexer. rewrite Hs.
  destruct (box_crosses handle m) as ([h|] & p1 & Hg1 & Ht1); [|discriminate (proj1 Hg1)].
  destruct (box_crosses client (p1 ∪ m)) as ([c|] & p2 & Hg2 & Ht2); [|discriminate (proj1 Hg2)].
  pose (service := mk_ServiceFFI (Some h) (Some c)).
  assert (Hg12 : gives (service_new handle client) m service ((∅ ∪ p2) ∪ p1)) by (unfold service_new; gives_all).
  destruct (box_crosses service (((∅ ∪ p2) ∪ p1) ∪ m)) as ([s|] & p3 & Hg3 & Ht3); [|discriminate (proj1 Hg3)].
  pose proof (gives_apart _ _ _ _ _ _ _ Hg12 Hg3) as Hap. pose proof (gives_apart _ _ _ _ _ _ _ Hg1 Hg2) as Hap12.
  exists s, ((∅ ∪ p3) ∪ ((∅ ∪ p2) ∪ p1)). split.
  { eapply gives_bind; [exact Hg12|]. unfold result_from_value. gives_all. }
  rewrite !(left_id ∅ (∪)) in *. apply takes_comm; [by symmetry|].
  unfold stop_indexer. eapply takes_bind; [exact Ht3| |by symmetry].
  rewrite <- (left_id ∅ (∪) (p2 ∪ p1)). eapply takes_bind; [|apply takes_ret|apply map_disjoint_empty_l].
  unfold service_drop. cbn [indexer_handle indexer_client service]. eapply takes_bind; [by eapply takes_ignore| |done].
  by eapply takes_ignore.
Qed.
(** The conversion from a borrowed account takes its data: freeing the account after
    it frees the data twice. *)
Lemma borrowed_account_frees_twice a m : data_bytes (data a) <> [] -> exists f m' msg,
  account_into_ffi a m = Ok (f, m') /\ (account_from_ffi f ;; free_ffi_account f) m' = Panic msg.
Proof.
  intros Hd. unfold account_into_ffi, vec_into_ffi, mbind, heap_bind. destruct (data_bytes (data a)) as [|b l] eqn:Hl; [done|].
  destruct (into_raw _ m) as [p m'] eqn:Hr. apply into_raw_spec in Hr as [Hp ->]. eexists _, _, _. split; [reflexivity|].
  unfold free_ffi_account, account_from_ffi, vec_from_ffi, mbind, heap_bind.
  cbn [f_data f_data_len f_data_cap capacity entries len]. rewrite !decide_False by (cbn; lia).
  cbn [expect outcome_bind mbind]. rewrite from_inserted by done. cbn [outcome_bind mbind].
  unfold vec_from_cell. cbn [of_cell to_cell byte_storable expect mbind outcome_bind]. rewrite bool_decide_true by done.
  cbn. unfold from_raw. rewrite Hp. reflexivity.
Qed.

(** ** An indexer with one block *)
Module FfiSample.
Definition key : Protocol.PublicKey := Protocol.mk_Pk (replicate 32 Byte.x02).
Definition hash (b : byte) : Protocol.HashType := Protocol.mk_Hash (replicate 32 b).
Definition owner : Account := mk_Account (replicate 8 1) 500 (mk_Data [Byte.x07; Byte.x08]) 3.
Definition public_tx : Protocol.Transaction :=
  Protocol.Public (Protocol.mk_PPublicTx (hash Byte.x01)
    (Protocol.mk_PPublicMessage (Protocol.mk_ProgramId (replicate 8 1)) [Protocol.mk_AccountId (replicate 32 Byte.x05)] [4] [0; 9])
    (Protocol.mk_PWitnessSet [(Protocol.mk_Sig (replicate 64 Byte.x03), key)] None)).
Definition private_tx : Protocol.Transaction :=
  Protocol.PrivacyPreserving (Protocol.mk_PPrivacyTx (hash Byte.x04)
    (Protocol.mk_PPrivacyMessage [] [5] [of_account owner]
      [Protocol.mk_PEncrypted (Protocol.mk_PCiphertext [Byte.x09; Byte.x0a]) (Protocol.mk_PEpk (replicate 33 Byte.x02)) Byte.x06]
      [Protocol.mk_PCommitment (replicate 32 Byte.x0b)] [] (Protocol.mk_PWindow (Some 3, None)) (Protocol.mk_PWindow (None, None)))
    (Protocol.mk_PWitnessSet [] (Some (Protocol.mk_PProof [Byte.x0c])))).
Definition block : Protocol.Block :=
  Protocol.mk_PBlock (Protocol.mk_PHeader 1 (hash Byte.x00) (hash Byte.x0d) 77 (Protocol.mk_Sig (replicate 64 Byte.x0e)))
    (Protocol.mk_PBody [public_tx; private_tx]) Protocol.Finalized (Protocol.mk_MsgId (replicate 32 Byte.x0f)).
#[local] Instance one_block : IndexerClient string := {|
  cl_get_last_finalized_block_id := Ok (Some 1);
  cl_get_block_by_id n := Ok (if decide (n = 1) then Some block else None);
  cl_get_block_by_hash _ := Ok None;
  cl_get_account _ := Ok (of_account owner);
  cl_get_transaction _ := Err "closed"%string;
  cl_get_blocks _ _ := Ok [block];
  cl_get_transactions_by_account _ _ _ := Ok [public_tx; private_tx];
|}.
Definition service : IndexerServiceFFI := mk_ServiceFFI (Some 1%positive) (Some 2%positive).
Definition memory : gmap positive Cell :=
  {[1%positive := CHandles [mk_Handle "0.0.0.0:1"]; 2%positive := CClients [mk_WsClient "ws://127.0.0.1:1"]]}.
Definition runtime : Runtime := mk_Runtime (Owned (Some 3%positive)).
Lemma owner_wf : Account_wf owner.
Proof. apply (bool_decide_unpack _). vm_compute. exact I. Qed.
Lemma block_fits : block_crossable block.
Proof.
  constructor; [|constructor; [|constructor]]; cbn.
  - constructor; [unfold in_u; lia|constructor].
  - split; [constructor; [unfold in_u; lia|constructor]|]. split; [|by eexists]. constructor; [|constructor]. exists owner. split; [exact owner_wf|reflexivity].
Qed.
(** The block reads as it is; it took sixteen allocations; the box of the result stays. *)
Lemma indexer_ffi_answers_witness :
  ffi_block block = block /\
  exists p f part, size part = 16%nat /\
    run_query (BlockById 1) (Some runtime) (Some service) memory =
      Ok (mk_PointerResult (Some p) StatusOk, {[p := CBlockOptions [f]]} ∪ (part ∪ memory)) /\
    takes (option_from_ffi read_block f) part (Some block) /\
    free_ffi_block_opt f ({[p := CBlockOptions [f]]} ∪ (part ∪ memory)) = Ok ((), {[p := CBlockOptions [f]]} ∪ memory).
Proof.
  split; [reflexivity|].
  destruct (indexer_ffi_answers (E := string) (BlockById 1) service runtime 3%positive memory) as (_ & _ & Hanswer).
  - exists 2%positive, (mk_WsClient "ws://127.0.0.1:1"). split; reflexivity.
  - reflexivity.
  - destruct Hanswer as (p & f & part & Hrun & Hd & Hbox & Hread & Hfree).
    { intros b [= <-]. exact block_fits. }
    exists p, f, part. split; [|split; [exact Hrun|split; [exact Hread|exact Hfree]]].
    change (result_cell (BlockById 1) f) with (CBlockOptions [f]) in Hrun, Hbox.
    assert (Hsize : size ({[p := CBlockOptions [f]]} ∪ (part ∪ memory)) = 19%nat).
    { change (size _) with ((fun r : guest (PointerResult (FfiOption FfiBlock) * gmap positive Cell) =>
        match r with Ok (_, m) => size m | _ => O end) (Ok (mk_PointerResult (Some p) StatusOk, {[p := CBlockOptions [f]]} ∪ (part ∪ memory)))).
      cbv beta. cbv zeta in Hrun. rewrite <- Hrun. vm_compute. reflexivity. }
    rewrite map_size_disj_union, map_size_singleton, map_size_disj_union in Hsize by done.
    change (size memory) with 2%nat in Hsize. lia.
Defined.
End FfiSample.
