(* ===== verification/SequencerService.v ===== *)
(** The sequencer as a service: the publisher of blocks
    ([sequencer/core/src/block_publisher.rs] with its callbacks in
    [sequencer/core/src/lib.rs]), the checkpoint in the database, and the RPC
    handlers of [sequencer/service/src/service.rs].

    Blocks are handed to the zone SDK, a third-party client of the settlement
    layer, which accepts or refuses them ([accepted]) and reports events.  The
    lock that the handlers take makes them read one state. *)

From S2P Require Import Prelude Bytes Crypto Account Ids ProgramCore Borsh MerkleTree Host State Transactions StateDiffs NativePrograms Chain SequencerStore Sequencer.

Open Scope Z_scope.

(** ** The zone SDK *)
(** Checkpoints with [serde_json]; [to_vec] may fail. *)
Class CheckpointJson (Checkpoint : Type) := {
  checkpoint_to_json : Checkpoint -> option (list byte);
  checkpoint_from_json : list byte -> option Checkpoint;
}.
(** Events, as far as the driver looks at them. *)
Inductive Event {Checkpoint : Type} :=
  | Published (checkpoint : Checkpoint)
  | TxsFinalized (inscriptions : list (list byte))
  | FinalizedInscriptions (inscriptions : list (list byte))
  | ChannelUpdate
  | Ready.
Arguments Event : clear implicits.

(** ** The checkpoint in the database *)
Inductive CheckpointError := CheckpointNotDeserialized | CheckpointNotSerialized.
Section Checkpoints.
Context {Checkpoint : Type} `{!CheckpointJson Checkpoint}.

Definition get_zone_checkpoint (s : SequencerStore) : outcome CheckpointError (option Checkpoint) :=
  match SeqDb.zone_sdk_checkpoint (dbio s) with
  | None => Ok None
  | Some bytes => checkpoint ← ok_or (checkpoint_from_json bytes) CheckpointNotDeserialized; Ok (Some checkpoint)
  end.
Definition set_zone_checkpoint (checkpoint : Checkpoint) (s : SequencerStore) : outcome CheckpointError SequencerStore :=
  bytes ← ok_or (checkpoint_to_json checkpoint) CheckpointNotSerialized;
  Ok (mk_SequencerStore (SeqDb.put_zone_sdk_checkpoint_bytes bytes (dbio s)) (tx_hash_to_block_map s) (genesis_id s)).
End Checkpoints.

(** ** The publisher *)
Section Publisher.
Context {Checkpoint : Type} `{!CheckpointJson Checkpoint, Borsh Block}.

(** [max_block_id_from_inscriptions] *)
Definition max_block_id_from_inscriptions (inscriptions : list (list byte)) : option BlockId :=
  match omap (fun payload => (fun b : Block => header_block_id (header b)) <$> borsh_try_from_slice payload) inscriptions with
  | [] => None
  | id :: ids => Some (foldr Z.max id ids)
  end.

(** [on_checkpoint] and [on_finalized_block]; failures are logged. *)
Definition on_checkpoint (checkpoint : Checkpoint) (d : SeqDb.RocksDBIO) : SeqDb.RocksDBIO :=
  match checkpoint_to_json checkpoint with
  | Some bytes => SeqDb.put_zone_sdk_checkpoint_bytes bytes d
  | None => d
  end.
Definition on_finalized_block (block_id : BlockId) (d : SeqDb.RocksDBIO) : SeqDb.RocksDBIO :=
  match SeqDb.clean_pending_blocks_up_to block_id d with
  | Ok d => d
  | _ => d
  end.
(** One turn of the drive task. *)
Definition on_event (e : Event Checkpoint) (d : SeqDb.RocksDBIO) : SeqDb.RocksDBIO :=
  match e with
  | Published checkpoint => on_checkpoint checkpoint d
  | TxsFinalized inscriptions | FinalizedInscriptions inscriptions =>
      match max_block_id_from_inscriptions inscriptions with
      | Some max_block_id => on_finalized_block max_block_id d
      | None => d
      end
  | ChannelUpdate | Ready => d
  end.

(** [publish_block]: the messages that the zone SDK has accepted, oldest first. *)
Definition publish_block (accepted : bool) (b : Block) (channel : list (list byte)) : list (list byte) :=
  if accepted then channel ++ [borsh_to_vec b] else channel.
End Publisher.

(** ** The node: a sequencer and what it has published *)
Record SequencerNode := mk_Node {
  node_core : SequencerCore;
  published : list (list byte);
}.

Section Node.
Context `{Validation, TransactionEncodings, BlockEncodings, Serde Faucet.Instruction, Borsh Block}.
Context {Checkpoint : Type} `{!CheckpointJson Checkpoint}.

(** [start_from_config]: the genesis block is published when no checkpoint is
    stored; it is the block in the store, also when it was just created. *)
Definition node_start (cfg : SequencerConfig) (db : option SeqDb.RocksDBIO) (initial : V03State)
    (sign : HashType -> Signature) (accepted : bool) (channel : list (list byte)) :
    outcome SequencerError SequencerNode :=
  s ← start_from_config cfg db initial sign;
  initial_checkpoint ← match get_zone_checkpoint (Checkpoint := Checkpoint) (store s) with
                       | Ok c => Ok c
                       | _ => Panic "Failed to load zone-sdk checkpoint"
                       end;
  genesis_block ← expect (get_block_at_id (store s) (genesis_id (store s))) "Genesis block not found in store";
  let is_fresh_start := match initial_checkpoint with None => true | Some _ => false end in
  Ok (mk_Node s (if is_fresh_start then publish_block accepted genesis_block channel else channel)).

(** [produce_new_block]: the block is published, then stored.  When it cannot be
    stored the main loop ends. *)
Definition node_produce (accepted : bool) (now : Timestamp) (sign : HashType -> Signature) (n : SequencerNode) :
    outcome SequencerError (SequencerNode * Z) :=
  '(s, block) ← build_block_from_mempool (node_core n) now sign;
  let channel := publish_block accepted block (published n) in
  store ← map_err StoreError (store_update (store s) block (zeros 32) (state s));
  Ok (mk_Node (mk_Sequencer (state s) store (mempool s) (sequencer_config s) (chain_height s)) channel, chain_height s).

Definition node_event (e : Event Checkpoint) (n : SequencerNode) : SequencerNode :=
  let s := node_core n in
  mk_Node (mk_Sequencer (state s)
             (mk_SequencerStore (on_event e (dbio (store s))) (tx_hash_to_block_map (store s)) (genesis_id (store s)))
             (mempool s) (sequencer_config s) (chain_height s)) (published n).
End Node.

(** ** The RPC handlers *)
Module SeqRpc.
Inductive RpcError :=
  | BlockNotFound (block_id : BlockId)
  | InternalError (e : DbError)
  | InvalidParams (e : TransactionMalformationError).

Section Handlers.
Context `{Validation, TransactionEncodings, BlockEncodings}.
Implicit Types s : SequencerCore.

Definition get_block s (block_id : BlockId) : option Block := get_block_at_id (store s) block_id.
(** The ids of [start..=end], until one is not found. *)
Fixpoint blocks_from s (start : BlockId) (n : nat) : outcome RpcError (list Block) :=
  match n with
  | O => Ok []
  | S n =>
      b ← ok_or (get_block s start) (BlockNotFound start);
      bs ← blocks_from s (start + 1) n;
      Ok (b :: bs)
  end.
Definition get_block_range s (start_block_id end_block_id : BlockId) : outcome RpcError (list Block) :=
  blocks_from s start_block_id (Z.to_nat (end_block_id - start_block_id + 1)).
Definition get_last_block_id s : BlockId := chain_height s.
Definition get_account_balance s (account_id : AccountId) : Z := balance (get_account_by_id (state s) account_id).
Definition get_transaction s (hash : HashType) : outcome RpcError (option NSSATransaction) :=
  map_err InternalError (get_transaction_by_hash (store s) hash).
Definition get_accounts_nonces s (account_ids : list AccountId) : list Nonce :=
  (fun account_id => nonce (get_account_by_id (state s) account_id)) <$> account_ids.
Definition get_proof_for_commitment s (commitment : Commitment) : outcome NssaError (option (nat * list (list byte))) :=
  State.get_proof_for_commitment (state s) commitment.
Definition get_account s (account_id : AccountId) : Account := get_account_by_id (state s) account_id.
Definition get_program_ids (circuit_id : ProgramId) : gmap string ProgramId :=
  {["authenticated_transfer" := program_id authenticated_transfer_program; "token" := program_id token_program;
    "pinata" := program_id pinata_program; "amm" := program_id amm_program; "privacy_preserving_circuit" := circuit_id]}.
End Handlers.
End SeqRpc.
