(* ===== verification/NodeTheorems.v ===== *)
(** What a node guarantees: a sequencer with its publisher, between the wallets
    that send and read, and the indexers that follow what it publishes. *)

From S2P Require Import Prelude Bytes Crypto Account Ids ProgramCore Borsh MerkleTree Host State Encryption CircuitIo Circuit Transactions Prover StateDiffs NativePrograms Approval Token Amm TokenClients TokenFacts Chain SequencerStore Sequencer IndexerStore SequencerInvariant IndexerInvariant ChainIndex KeyDerivation GroupKeys KeyTree UserKeyChain WalletSync KeyTreeFacts KeyTreeTheorems StorageFacts WalletFacts SyncFacts WalletTheorems WalletTx WalletTxTheorems WalletFacades TransferTheorems IndexerService IndexerTheorems SequencerService.

Open Scope Z_scope.

(** ** The steps of a node *)
Section Steps.
Context `{Validation, !Sha256Laws, TransactionEncodings, BlockEncodings, Serde Faucet.Instruction, Borsh Block}.
Context {Checkpoint : Type} `{!CheckpointJson Checkpoint}.

(** A node is [healthy] while the zone SDK accepts every block and a restart finds
    a checkpoint. *)
Inductive node_step (healthy : bool) : SequencerNode -> SequencerNode -> Prop :=
  | node_step_send n tx h m :
      send_transaction (max_block_size (sequencer_config (node_core n))) tx (mempool (node_core n)) = Ok (h, Some m) ->
      node_step healthy n (mk_Node (with_mempool m (node_core n)) (published n))
  | node_step_produce n accepted now sign n' h :
      (healthy = true -> accepted = true) -> node_produce accepted now sign n = Ok (n', h) -> node_step healthy n n'
  | node_step_event n (e : Event Checkpoint) : node_step healthy n (node_event e n)
  | node_step_restart n cfg initial sign accepted n' :
      (healthy = true -> is_Some (SeqDb.zone_sdk_checkpoint (dbio (store (node_core n))))) ->
      node_start (Checkpoint := Checkpoint) cfg (Some (dbio (store (node_core n)))) initial sign accepted (published n) = Ok n' ->
      node_step healthy n n'.
Definition node_reachable (healthy : bool) (initial : V03State) (n : SequencerNode) : Prop :=
  exists cfg sign accepted n0, (healthy = true -> accepted = true) /\
    node_start (Checkpoint := Checkpoint) cfg None initial sign accepted [] = Ok n0 /\ rtc (node_step healthy) n0 n.

(** The node has the chain [bs], as finalized blocks, and a healthy node has
    published it. *)
Definition as_published (b : Block) : list byte := borsh_to_vec (SeqDb.set_status Pending b).
Definition node_inv (healthy : bool) (initial : V03State) (bs : list Block) (n : SequencerNode) : Prop :=
  seq_inv initial bs (node_core n) /\ (healthy = true -> published n = as_published <$> bs).

Lemma produced_block n accepted now sign n' h :
  node_produce accepted now sign n = Ok (n', h) ->
  exists b, produce_new_block (node_core n) now sign = Ok (node_core n', h) /\ bedrock_status b = Pending /\
    published n' = publish_block accepted b (published n) /\
    get_block_at_id (store (node_core n')) h = Some b.
Proof.
  unfold node_produce, produce_new_block. intros ([s b] & Hb & Hp)%bind_ok. rewrite Hb. cbn [mbind outcome_bind].
  apply bind_ok in Hp as (store' & Hu & [= <- <-]). rewrite Hu. exists b. cbn [mbind outcome_bind node_core published].
  apply build_block_ok in Hb as (meta & popped & taken & st & _ & _ & _ & _ & _ & _ & _ & -> & Hst & _ & Hh).
  split_and!; [done|done|done|]. cbn [store]. apply map_err_ok in Hu. unfold store_update in Hu.
  apply bind_ok in Hu as (d & Hu & [= <-]). unfold get_block_at_id. cbn [dbio].
  unfold SeqDb.atomic_update in Hu. apply bind_ok in Hu as (d1 & Hput & [= <-]).
  unfold SeqDb.put_block in Hput. apply bind_ok in Hput as (d2 & _ & [= <-]).
  cbn. rewrite Hh. apply lookup_insert_eq.
Qed.

Lemma published_pending b : bedrock_status b = Pending -> as_published (SeqDb.set_status Finalized b) = borsh_to_vec b.
Proof. intros Hb. unfold as_published. f_equal. destruct b. cbn in *. by subst. Qed.

Lemma node_produce_inv healthy initial bs n accepted now sign n' h :
  node_inv healthy initial bs n -> (healthy = true -> accepted = true) -> node_produce accepted now sign n = Ok (n', h) ->
  exists b, node_inv healthy initial (bs ++ [b]) n'.
Proof.
  intros [Hseq Hpub] Hacc Hp. destruct (produced_block _ _ _ _ _ _ Hp) as (b & Hprod & Hpend & Hch & Hget).
  destruct (produce_inv _ _ _ _ _ _ _ Hseq Hprod) as (b' & Hseq' & Hh & _). exists b'. split; [exact Hseq'|].
  intros Hok. rewrite Hch, (Hacc Hok), (Hpub Hok). cbn [publish_block]. rewrite fmap_app. f_equal. cbn. f_equal.
  destruct Hseq' as ((Hm & _) & _). specialize (Hm (length bs)). unfold stored in Hm. rewrite lookup_fmap in Hm.
  rewrite length_app in Hh. cbn [length] in Hh. replace (Z.of_nat (length bs) + 1) with h in Hm by lia.
  unfold get_block_at_id, SeqDb.get_block in Hget. rewrite Hget, list_lookup_middle in Hm by done.
  injection Hm as <-. symmetry. by apply published_pending.
Qed.

(** Events change the status of blocks and the checkpoint. *)
Lemma event_inv initial bs st d (e : Event Checkpoint) : db_inv initial bs st d -> db_inv initial bs st (on_event e d).
Proof.
  intros Hdb. assert (Hfin : forall id, db_inv initial bs st (on_finalized_block id d)).
  { intros id. unfold on_finalized_block. destruct (SeqDb.clean_pending_blocks_up_to id d) as [d'| |] eqn:Hc; [|done..].
    by eapply mark_all_finalized_inv. }
  destruct e as [c|l|l| |]; cbn [on_event]; [|by case_match..|done|done].
  unfold on_checkpoint. by destruct (checkpoint_to_json c).
Qed.

Lemma genesis_pending cfg initial sign s :
  start_from_config cfg None initial sign = Ok s ->
  SeqDb.zone_sdk_checkpoint (dbio (store s)) = None /\
  forall g, get_block_at_id (store s) (genesis_id (store s)) = Some g -> bedrock_status g = Pending.
Proof.
  unfold start_from_config. intros ([store0 st] & Ho & Hs)%bind_ok.
  apply bind_ok in Hs as (meta & _ & Hs). apply bind_ok in Hs as (m & _ & [= <-]).
  apply bind_ok in Ho as ([gst gtxs] & _ & Ho). apply bind_ok in Ho as (store1 & Hst%map_err_ok & [= -> _]).
  unfold create_db_with_genesis in Hst. apply bind_ok in Hst as (d & [= <-] & Hst).
  apply bind_ok in Hst as (id & [= <-] & [= <-]). split; [done|]. cbn. intros g Hg.
  rewrite lookup_insert_eq in Hg. by injection Hg as <-.
Qed.

Lemma node_started healthy cfg initial sign accepted n :
  (healthy = true -> accepted = true) ->
  node_start (Checkpoint := Checkpoint) cfg None initial sign accepted [] = Ok n -> exists b, node_inv healthy initial [b] n.
Proof.
  intros Hacc Hn. unfold node_start in Hn. apply bind_ok in Hn as (s & Hs & Hn). apply bind_ok in Hn as (c & Hc & Hn).
  apply bind_ok in Hn as (g & Hg%expect_ok & [= <-]). destruct (genesis_inv _ _ _ _ Hs) as (b & Hseq). exists b.
  split; [exact Hseq|]. intros Hok. cbn [published node_core]. rewrite (Hacc Hok).
  destruct (genesis_pending _ _ _ _ Hs) as [Hnone Hpend]. specialize (Hpend g Hg).
  unfold get_zone_checkpoint in Hc. rewrite Hnone in Hc. injection Hc as <-.
  destruct Hseq as ((Hm & _) & _ & Hgid & _). cbn [node_core] in Hm, Hgid. rewrite Hgid in Hg.
  specialize (Hm 0%nat). unfold stored in Hm. rewrite lookup_fmap in Hm. unfold get_block_at_id, SeqDb.get_block in Hg.
  change (Z.of_nat 0 + 1) with 1 in Hm. rewrite Hg in Hm. injection Hm as <-. cbn. f_equal.
  symmetry. by apply published_pending.
Qed.

Lemma node_restarted healthy initial bs n cfg initial' sign accepted n' :
  (healthy = true -> is_Some (SeqDb.zone_sdk_checkpoint (dbio (store (node_core n))))) ->
  node_inv healthy initial bs n ->
  node_start (Checkpoint := Checkpoint) cfg (Some (dbio (store (node_core n)))) initial' sign accepted (published n) = Ok n' ->
  node_inv healthy initial bs n'.
Proof.
  intros Hcp [Hseq Hpub] Hn. unfold node_start in Hn. apply bind_ok in Hn as (s & Hs & Hn). apply bind_ok in Hn as (c & Hc & Hn).
  apply bind_ok in Hn as (g & _ & [= <-]). pose proof Hseq as (Hdb & _). destruct (restart_inv _ _ _ _ _ _ _ Hseq Hs) as [Hseq' _].
  split; [exact Hseq'|]. intros Hok. cbn [published]. rewrite <- (Hpub Hok).
  assert (Hd : dbio (store s) = dbio (store (node_core n))).
  { unfold start_from_config in Hs. apply bind_ok in Hs as ([store0 st] & Ho & Hs).
    apply bind_ok in Hs as (meta & _ & Hs). apply bind_ok in Hs as (m & _ & [= <-]).
    apply bind_ok in Ho as (store1 & Ho%map_err_ok & Hr). apply bind_ok in Hr as (st1 & _ & Hr).
    apply bind_ok in Hr as (g' & _ & [= -> _]). cbn [store]. by destruct (open_db_inv _ _ _ _ _ Hdb Ho). }
  unfold get_zone_checkpoint in Hc. rewrite Hd in Hc. destruct (Hcp Hok) as [bytes Hbytes]. rewrite Hbytes in Hc.
  destruct (checkpoint_from_json bytes) as [cp|]; [|done]. by injection Hc as <-.
Qed.

Lemma node_step_inv healthy initial bs n n' :
  node_inv healthy initial bs n -> node_step healthy n n' ->
  exists bs', bs `prefix_of` bs' /\ node_inv healthy initial bs' n'.
Proof.
  intros Hinv Hs. destruct Hs as [n tx h m Hsend|n accepted now sign n' h Hacc Hp|n e|n cfg ini sign accepted n' Hcp Hn].
  - exists bs. split; [done|]. destruct Hinv as [Hseq Hpub]. by split.
  - destruct (node_produce_inv _ _ _ _ _ _ _ _ _ Hinv Hacc Hp) as (b & Hinv'). exists (bs ++ [b]). split; [by eexists|done].
  - exists bs. split; [done|]. destruct Hinv as [(Hdb & Hrest) Hpub]. split; [|done]. split; [|exact Hrest]. by apply event_inv.
  - exists bs. split; [done|]. by eapply node_restarted.
Qed.
Lemma node_reachable_inv healthy initial n : node_reachable healthy initial n -> exists bs, node_inv healthy initial bs n.
Proof.
  intros (cfg & sign & accepted & n0 & Hacc & Hn & Hsteps). destruct (node_started _ _ _ _ _ _ Hacc Hn) as (b & Hinv).
  assert (Hgen : forall bs, node_inv healthy initial bs n0 -> exists bs, node_inv healthy initial bs n).
  { clear Hinv b Hn. induction Hsteps as [n|n n1 n2 Hs _ IH]; intros bs Hinv; [by exists bs|].
    destruct (node_step_inv _ _ _ _ _ Hinv Hs) as (bs' & _ & Hinv'). by eapply IH. }
  by eapply Hgen.
Qed.

(** ** Answers *)
Lemma chain_finalized m bs n : holds_chain (stored m) bs -> SeqDb.set_status Finalized <$> take n bs = take n bs.
Proof.
  intros Hm. apply list_eq. intros i. rewrite list_lookup_fmap. destruct (take n bs !! i) as [b|] eqn:Hb; [|done].
  apply lookup_take_Some in Hb as [Hb _]. destruct (chain_lookup _ _ _ _ Hm Hb) as (x & Hx & _).
  specialize (Hm i). unfold stored in Hm. rewrite lookup_fmap, Hx, Hb in Hm. by injection Hm as <-.
Qed.
Lemma get_block_answer initial bs s (i : nat) : seq_inv initial bs s ->
  SeqDb.set_status Finalized <$> SeqRpc.get_block s (Z.of_nat i + 1) = bs !! i.
Proof.
  intros ((Hm & _) & _). specialize (Hm i). unfold stored in Hm. by rewrite lookup_fmap in Hm.
Qed.
Lemma blocks_from_answer initial bs s n : seq_inv initial bs s -> forall i : nat, (i + n <= length bs)%nat ->
  exists blocks, SeqRpc.blocks_from s (Z.of_nat i + 1) n = Ok blocks /\
    SeqDb.set_status Finalized <$> blocks = take n (drop i bs).
Proof.
  intros Hs. induction n as [|n IH]; intros i Hi; [by exists []|]. cbn [SeqRpc.blocks_from].
  destruct (lookup_lt_is_Some_2 bs i ltac:(lia)) as [x Hx]. pose proof (get_block_answer _ _ _ i Hs) as Hb. rewrite Hx in Hb.
  apply fmap_Some in Hb as (b & Hb & ->). rewrite Hb. cbn [ok_or mbind outcome_bind].
  destruct (IH (S i)) as (blocks & Hblocks & Hfin); [lia|].
  replace (Z.of_nat i + 1 + 1) with (Z.of_nat (S i) + 1) by lia. rewrite Hblocks. exists (b :: blocks). split; [done|].
  by rewrite (drop_S _ _ _ Hx), fmap_cons, Hfin.
Qed.
Lemma blocks_from_missing initial bs s n : seq_inv initial bs s -> forall i : nat, (i <= length bs)%nat -> (length bs < i + n)%nat ->
  SeqRpc.blocks_from s (Z.of_nat i + 1) n = Err (SeqRpc.BlockNotFound (Z.of_nat (length bs) + 1)).
Proof.
  intros Hs. induction n as [|n IH]; intros i Hi Hn; [lia|]. cbn [SeqRpc.blocks_from].
  pose proof (get_block_answer _ _ _ i Hs) as Hb. destruct (decide (i = length bs)) as [->|Hne].
  - rewrite lookup_ge_None_2 in Hb by lia. apply fmap_None in Hb. by rewrite Hb.
  - destruct (lookup_lt_is_Some_2 bs i ltac:(lia)) as [x Hx]. rewrite Hx in Hb.
    apply fmap_Some in Hb as (b & Hb & _). rewrite Hb. cbn [ok_or mbind outcome_bind].
    replace (Z.of_nat i + 1 + 1) with (Z.of_nat (S i) + 1) by lia. by rewrite IH by lia.
Qed.
Lemma get_transaction_answer initial bs s h : seq_inv initial bs s ->
  match SeqRpc.get_transaction s h with
  | Ok (Some tx) => tx ∈ chain_txs bs /\ tx_hash tx = h
  | Ok None => forall tx, tx ∈ chain_txs bs -> tx_hash tx <> h
  | _ => False
  end.
Proof.
  intros Hs. pose proof Hs as (_ & [Hsound Hcompl] & _). unfold SeqRpc.get_transaction, get_transaction_by_hash.
  destruct (tx_hash_to_block_map (store s) !! h) as [id|] eqn:Hid.
  - destruct (Hsound _ _ Hid) as (i & x & -> & Hx & Hh). pose proof (get_block_answer _ _ _ i Hs) as Hb. rewrite Hx in Hb.
    apply fmap_Some in Hb as (b & Hb & ->). unfold SeqRpc.get_block in Hb. rewrite Hb. cbn [expect mbind outcome_bind].
    apply find_hash_some in Hh as (t & Hf & Ht & Hh). cbn [SeqDb.set_status body] in Hf. rewrite Hf. split; [|exact Hh].
    apply chain_txs_elem. exists (SeqDb.set_status Finalized b). split; [by eapply list_elem_of_lookup_2|done].
  - cbn. intros tx (b & Hb & Htx)%chain_txs_elem <-. destruct (Hcompl _ _ Hb Htx) as [id Hid']. by rewrite Hid in Hid'.
Qed.

(** C25. A node answers from one chain: whatever was sent, produced, reported by the
    settlement layer or restarted, there is a hash-linked chain without gaps that
    replays from the initial state, and every query for a block, a range of blocks or
    a transaction is answered from this chain, every query for an account, a balance,
    nonces or the proof of a commitment from the state to which it replays; a range
    that leaves the chain is refused with the first missing id, and no query for
    blocks or transactions panics.  When the node is healthy (no publication was
    refused, and it was restarted only after a checkpoint) what it has published is
    this chain, every block once and in order. *)
Theorem node_answers healthy initial n :
  node_reachable healthy initial n ->
  let s := node_core n in
  exists (bs : list Block) st, linked bs /\ fold_o replay_ok initial bs = Ok st /\
    SeqRpc.get_last_block_id s = Z.of_nat (length bs) /\
    (forall i : nat, SeqDb.set_status Finalized <$> SeqRpc.get_block s (Z.of_nat i + 1) = bs !! i) /\
    (forall first last : nat, (first <= last < length bs)%nat -> exists blocks,
      SeqRpc.get_block_range s (Z.of_nat first + 1) (Z.of_nat last + 1) = Ok blocks /\
      SeqDb.set_status Finalized <$> blocks = take (last - first + 1) (drop first bs)) /\
    (forall first last : nat, (first <= length bs <= last)%nat ->
      SeqRpc.get_block_range s (Z.of_nat first + 1) (Z.of_nat last + 1) =
        Err (SeqRpc.BlockNotFound (SeqRpc.get_last_block_id s + 1))) /\
    (forall h, match SeqRpc.get_transaction s h with
               | Ok (Some tx) => tx ∈ chain_txs bs /\ tx_hash tx = h
               | Ok None => forall tx, tx ∈ chain_txs bs -> tx_hash tx <> h
               | _ => False
               end) /\
    (forall id, SeqRpc.get_account s id = get_account_by_id st id /\
      SeqRpc.get_account_balance s id = balance (get_account_by_id st id)) /\
    (forall ids, SeqRpc.get_accounts_nonces s ids = (fun id => nonce (get_account_by_id st id)) <$> ids) /\
    (forall c, SeqRpc.get_proof_for_commitment s c = State.get_proof_for_commitment st c) /\
    (healthy = true -> published n = as_published <$> bs).
Proof.
  intros (bs & Hs & Hpub)%node_reachable_inv s. fold s in Hs. exists bs, (state s). pose proof Hs as ((_ & Hl & Hr & _) & _ & _ & Hh). split_and!.
  - done.
  - done.
  - done.
  - intros i. by eapply get_block_answer.
  - intros first last Hlt. unfold SeqRpc.get_block_range.
    replace (Z.to_nat _) with (last - first + 1)%nat by lia. eapply blocks_from_answer; [exact Hs|lia].
  - intros first last Hlt. unfold SeqRpc.get_block_range, SeqRpc.get_last_block_id. rewrite Hh.
    apply (blocks_from_missing initial bs); [done|lia|lia].
  - intros h. by eapply get_transaction_answer.
  - done.
  - done.
  - done.
  - exact Hpub.
Qed.
End Steps.

(** ** A wallet that synchronises with a node *)
Section Reading.
Context `{Validation, !Sha256Laws, TransactionEncodings, BlockEncodings, Serde Faucet.Instruction, Borsh Block}.
Context {Checkpoint : Type} `{!CheckpointJson Checkpoint}.
Context `{HmacSha512, K256, ChaCha20}.

(** The status of a block does not matter, and the transactions are processed in the
    order of the chain. *)
Lemma sync_chain blocks bs : SeqDb.set_status Finalized <$> blocks = bs -> forall s,
  fold_o sync_block s blocks =
    (k ← fold_o sync_private_accounts_with_tx (key_chain s) (chain_txs bs);
     Ok (mk_Storage k (labels s) (default (last_synced_block s) ((fun b => header_block_id (header b)) <$> last bs)))).
Proof.
  intros <-. induction blocks as [|b blocks IH]; intros s; [by destruct s|]. cbn [fold_o].
  change (chain_txs (SeqDb.set_status Finalized <$> b :: blocks)) with (body b ++ chain_txs (SeqDb.set_status Finalized <$> blocks)).
  rewrite fold_o_app. change (sync_block s b) with
    (k ← fold_o sync_private_accounts_with_tx (key_chain s) (body b); Ok (mk_Storage k (labels s) (header_block_id (header b)))).
  destruct (fold_o sync_private_accounts_with_tx (key_chain s) (body b)) as [k| |]; [|done..].
  cbn [mbind outcome_bind]. rewrite IH. cbn [key_chain labels last_synced_block]. rewrite fmap_cons, last_cons.
  destruct (fold_o _ k _) as [k1| |]; [|done..]. cbn [mbind outcome_bind]. destruct (last (SeqDb.set_status Finalized <$> blocks)); done.
Qed.

(** The node serves the ranges of its chain. *)
Lemma node_serves initial bs s dummy : seq_inv initial bs s ->
  serves (SeqRpc.get_block_range s) (fun i => default dummy (SeqRpc.get_block s i)) (Z.of_nat (length bs)).
Proof.
  intros Hs a b Ha Hab Hb. unfold SeqRpc.get_block_range.
  replace (Z.to_nat (b - a + 1)) with (S (Z.to_nat (b - a))) by lia. replace (b - a + 1) with (Z.of_nat (S (Z.to_nat (b - a)))) by lia.
  assert (Hgen : forall n i, (i + n <= length bs)%nat -> SeqRpc.blocks_from s (Z.of_nat i + 1) n =
    Ok ((fun i => default dummy (SeqRpc.get_block s i)) <$> seqZ (Z.of_nat i + 1) (Z.of_nat n))).
  { induction n as [|n IH]; intros i Hi; [done|]. cbn [SeqRpc.blocks_from]. rewrite seqZ_cons by lia. rewrite fmap_cons.
    destruct (lookup_lt_is_Some_2 bs i ltac:(lia)) as [x Hx]. pose proof (get_block_answer _ _ _ i Hs) as Hget. rewrite Hx in Hget.
    apply fmap_Some in Hget as (blk & Hblk & _). rewrite Hblk. cbn [ok_or mbind outcome_bind default].
    replace (Z.of_nat i + 1 + 1) with (Z.of_nat (S i) + 1) by lia. rewrite IH by lia.
    replace (Z.succ (Z.of_nat i + 1)) with (Z.of_nat (S i) + 1) by lia. by replace (Z.pred (Z.of_nat (S n))) with (Z.of_nat n) by lia. }
  replace a with (Z.of_nat (Z.to_nat (a - 1)) + 1) by lia. apply Hgen. lia.
Qed.
Lemma served_blocks initial bs s dummy (i n : nat) : seq_inv initial bs s -> (i + n <= length bs)%nat ->
  SeqDb.set_status Finalized <$> ((fun i => default dummy (SeqRpc.get_block s i)) <$> seqZ (Z.of_nat i + 1) (Z.of_nat n)) =
    take n (drop i bs).
Proof.
  intros Hs. revert i. induction n as [|n IH]; intros i Hi; [done|]. rewrite seqZ_cons, !fmap_cons by lia.
  destruct (lookup_lt_is_Some_2 bs i ltac:(lia)) as [x Hx]. pose proof (get_block_answer _ _ _ i Hs) as Hget. rewrite Hx in Hget.
  rewrite (drop_S _ _ _ Hx). cbn [take]. f_equal.
  - apply fmap_Some in Hget as (blk & Hblk & ->). by rewrite Hblk.
  - replace (Z.succ (Z.of_nat i + 1)) with (Z.of_nat (S i) + 1) by lia. replace (Z.pred (Z.of_nat (S n))) with (Z.of_nat n) by lia.
    apply IH. lia.
Qed.

(** What a wallet that synchronises reads, when the node has the chain [bs]. *)
Lemma wallet_reads_chain initial bs core chunk s :
  seq_inv initial bs core -> 1 <= chunk -> 0 <= last_synced_block s <= Z.of_nat (length bs) -> Z.of_nat (length bs) < u64_max ->
  sync_to_latest_block (SeqRpc.get_block_range core) (Ok (SeqRpc.get_last_block_id core)) chunk s =
    (k ← fold_o sync_private_accounts_with_tx (key_chain s) (chain_txs (drop (Z.to_nat (last_synced_block s)) bs));
     Ok (mk_Storage k (labels s) (Z.of_nat (length bs)), Ok (Z.of_nat (length bs)))).
Proof.
  intros Hs Hchunk Hlast Hmax. pose proof Hs as ((_ & Hl & Hr & _) & _ & _ & Hh).
  unfold SeqRpc.get_last_block_id. rewrite Hh.
  unfold sync_to_latest_block. destruct (decide (last_synced_block s = Z.of_nat (length bs))) as [Heq|Hne].
  { unfold sync_to_block. rewrite decide_True by lia. rewrite drop_ge by lia. cbn. rewrite <- Heq. by destruct s. }
  set (k := Z.to_nat (last_synced_block s)). destruct (lookup_lt_is_Some_2 bs 0 ltac:(lia)) as [dummy _].
  rewrite (sync_reads_every_block _ (fun i => default dummy (SeqRpc.get_block core i))) by (lia || by eapply node_serves).
  replace (last_synced_block s + 1) with (Z.of_nat k + 1) by lia.
  replace (Z.of_nat (length bs) - last_synced_block s) with (Z.of_nat (length bs - k)) by lia.
  rewrite (sync_chain _ (drop k bs)).
  2:{ rewrite (served_blocks initial bs) by (done || lia). apply take_ge. rewrite length_drop. lia. }
  assert (Hid : (fun b => header_block_id (header b)) <$> last (drop k bs) = Some (Z.of_nat (length bs))).
  { rewrite last_lookup, length_drop, lookup_drop. replace (k + pred (length bs - k))%nat with (pred (length bs)) by lia.
    destruct (lookup_lt_is_Some_2 bs (pred (length bs)) ltac:(lia)) as [x Hx].
    rewrite Hx. cbn. destruct (Hl _ _ Hx) as (-> & _). f_equal. lia. }
  rewrite Hid. by destruct (fold_o sync_private_accounts_with_tx _ _).
Qed.

(** C26. A wallet that synchronises with a node decodes exactly the transactions of
    the blocks that it has not seen, each one once and in the order of the chain,
    for every chunk size; afterwards it has seen the whole chain. *)
Theorem wallet_reads_node healthy initial n chunk s :
  node_reachable healthy initial n -> 1 <= chunk ->
  0 <= last_synced_block s <= SeqRpc.get_last_block_id (node_core n) -> SeqRpc.get_last_block_id (node_core n) < u64_max ->
  exists bs : list Block, linked bs /\ fold_o replay_ok initial bs = Ok (state (node_core n)) /\
    Z.of_nat (length bs) = SeqRpc.get_last_block_id (node_core n) /\
    sync_to_latest_block (SeqRpc.get_block_range (node_core n)) (Ok (SeqRpc.get_last_block_id (node_core n))) chunk s =
      (k ← fold_o sync_private_accounts_with_tx (key_chain s) (chain_txs (drop (Z.to_nat (last_synced_block s)) bs));
       Ok (mk_Storage k (labels s) (Z.of_nat (length bs)), Ok (Z.of_nat (length bs)))).
Proof.
  intros (bs & Hs & _)%node_reachable_inv Hchunk Hlast Hmax. exists bs. pose proof Hs as ((_ & Hl & Hr & _) & _ & _ & Hh).
  unfold SeqRpc.get_last_block_id in Hlast, Hmax |- *. rewrite Hh in *. split_and!; [done|done|done|].
  pose proof (wallet_reads_chain initial bs (node_core n) chunk s) as Hw. unfold SeqRpc.get_last_block_id in Hw.
  rewrite Hh in Hw. by apply Hw.
Qed.
End Reading.

(** ** An indexer behind a node *)
Definition payloads (channel : list (ZoneMessage * Slot)) : list (list byte) :=
  omap (fun m => match m.1 with ZoneBlock _ data => Some data | _ => None end) channel.

Section Settlement.
Context `{Validation, !Sha256Laws, TransactionEncodings, BlockEncodings, Serde Faucet.Instruction, Borsh Block}.
Context {wf : Block -> Prop} `{!BorshLaws Block wf, CursorJson, !CursorJsonLaws}.
Context {Checkpoint : Type} `{!CheckpointJson Checkpoint}.
Variable channel : list (ZoneMessage * Slot).
Context `{ZoneIndexer, !ZoneIndexerLaws channel}.

Lemma channel_decoded blocks : payloads channel = as_published <$> blocks ->
  (forall b, b ∈ blocks -> wf (SeqDb.set_status Pending b)) ->
  channel_blocks channel = SeqDb.set_status Pending <$> blocks.
Proof.
  intros Hp Hwf. assert (Hd : channel_blocks channel = omap borsh_try_from_slice (payloads channel)).
  { unfold channel_blocks, payloads. clear. induction channel as [|[[id data| |] slot] l IH]; [done| |exact IH..].
    cbn in *. destruct (borsh_try_from_slice data); by rewrite IH. }
  rewrite Hd, Hp. clear Hd Hp. induction blocks as [|b blocks IH]; [done|]. cbn. unfold as_published at 1.
  rewrite borsh_roundtrip by (apply Hwf; by left). f_equal. apply IH. intros b' Hb'. apply Hwf. by right.
Qed.

(** The channel of a healthy node is a chain, of the first blocks of the node. *)
Lemma node_channel initial bs n : node_inv true initial bs n ->
  payloads channel `prefix_of` published n -> NoDup (channel_cursors channel) ->
  (forall b, b ∈ bs -> wf (SeqDb.set_status Pending b)) ->
  chain_channel initial channel /\ (SeqDb.set_status Finalized <$> channel_blocks channel) `prefix_of` bs.
Proof.
  intros [((Hm & Hl & Hr & Hlen & _) & _) Hpub] Hpre Hnd Hwf. rewrite (Hpub eq_refl) in Hpre.
  assert (Htake : payloads channel = as_published <$> take (length (payloads channel)) bs).
  { destruct Hpre as [rest Hrest]. rewrite fmap_take, Hrest. by rewrite take_app_length. }
  set (m := length (payloads channel)) in *.
  assert (Hblocks : channel_blocks channel = SeqDb.set_status Pending <$> take m bs).
  { apply channel_decoded; [exact Htake|]. intros b (i & Hi & _)%elem_of_take. apply Hwf. by eapply list_elem_of_lookup_2. }
  assert (Hfin : SeqDb.set_status Finalized <$> channel_blocks channel = SeqDb.set_status Finalized <$> take m bs).
  { rewrite Hblocks, <- list_fmap_compose. by apply list_fmap_ext. }
  assert (Hbs : SeqDb.set_status Finalized <$> channel_blocks channel = take m bs).
  { by rewrite Hfin, (chain_finalized _ _ _ Hm). }
  split; [|rewrite Hbs; apply prefix_take].
  split; [exact Hnd| | |].
  - intros i b Hb. rewrite Hblocks, list_lookup_fmap in Hb. apply fmap_Some in Hb as (x & Hx & ->).
    apply lookup_take_Some in Hx as [Hx _]. by destruct (Hl _ _ Hx).
  - rewrite <- (take_drop m bs), fold_o_app in Hr. apply bind_ok in Hr as (st & Hst & _). exists st.
    by rewrite <- fold_finalized, Hbs.
  - rewrite Hblocks, length_fmap, length_take. lia.
Qed.

(** C24. The indexer agrees with the sequencer: when an indexer follows the channel to
    which a healthy node has published (other messages between, and only a part of
    it settled), and both start from the same state, then its polls never fail, it
    never has more blocks than the node, every block it answers reads back as the
    block the node answers for the same id (finalized), every transaction it
    answers for a hash is one the node answers for this hash, unless two
    transactions have the hash, and when it has ingested the whole chain its
    accounts are those of the node. *)
Theorem indexer_agrees_with_sequencer initial n s ys :
  node_reachable (Checkpoint := Checkpoint) true initial n ->
  payloads channel `prefix_of` published n -> NoDup (channel_cursors channel) ->
  (forall id b, SeqRpc.get_block (node_core n) id = Some b -> wf (SeqDb.set_status Pending b) /\ Forall tx_typed (body b)) ->
  indexing initial s ys ->
  let core := node_core n in
  let ix := stream_store s in
  (forall k, exists s' bs, poll k s = Ok (s', bs)) /\
  Z.of_nat (length ys) <= SeqRpc.get_last_block_id core /\
  (forall i : nat, (i < length ys)%nat -> exists b pb,
    SeqRpc.get_block core (Z.of_nat i + 1) = Some b /\ Rpc.get_block_by_id ix (Z.of_nat i + 1) = Some pb /\
    to_block pb = Ok (SeqDb.set_status Finalized b)) /\
  (forall h ptx, Rpc.get_transaction ix (of_hash h) = Some ptx -> exists tx tx',
    to_tx ptx = Ok tx /\ SeqRpc.get_transaction core h = Ok (Some tx') /\ tx_hash tx = h /\ tx_hash tx' = h) /\
  (Z.of_nat (length ys) = SeqRpc.get_last_block_id core -> forall id,
    Rpc.get_account ix (of_account_id id) = of_account (SeqRpc.get_account core id)).
Proof.
  intros (bs & Hn)%node_reachable_inv Hpre Hnd Hgood Hs core ix. pose proof Hn as [Hseq _].
  assert (Hgood' : forall b, b ∈ bs -> wf (SeqDb.set_status Pending b) /\ Forall tx_typed (body b)).
  { intros b (i & Hb)%list_elem_of_lookup. pose proof (get_block_answer _ _ _ i Hseq) as Hget. rewrite Hb in Hget.
    apply fmap_Some in Hget as (x & Hx & ->). exact (Hgood _ _ Hx). }
  destruct (node_channel _ _ _ Hn Hpre Hnd (fun b Hb => proj1 (Hgood' b Hb))) as [Hcc Hfirst].
  destruct (indexing_at_place _ _ s ys Hcc Hs) as (k & Hat).
  pose proof Hat as (_ & Hys & _ & _ & (B & o & _ & Hcur & _) & Hix). fold ix in Hix, Hcur.
  assert (Hyb : SeqDb.set_status Finalized <$> ys = take (length ys) bs).
  { assert (Hyp : (SeqDb.set_status Finalized <$> ys) `prefix_of` bs).
    { etrans; [|exact Hfirst]. rewrite Hys. exists (SeqDb.set_status Finalized <$> channel_blocks (drop k channel)).
      rewrite <- fmap_app. unfold channel_blocks. by rewrite <- omap_app, take_drop. }
    destruct Hyp as [rest ->]. rewrite <- (length_fmap (SeqDb.set_status Finalized)). by rewrite take_app_length. }
  assert (Hlen : (length ys <= length bs)%nat).
  { apply (f_equal length) in Hyb. rewrite length_fmap, length_take in Hyb. lia. }
  pose proof Hseq as ((_ & _ & Hr & _) & _ & _ & Hh). fold core in Hr, Hh, Hseq. rewrite Hyb in Hix, Hcur. split_and!.
  - intros j. destruct (poll_handled _ _ k s ys _ Hcc Hat (next_messages_follow _ j)) as (i & s' & _ & _ & _ & Hp & _). by eexists _, _.
  - unfold SeqRpc.get_last_block_id. rewrite Hh. lia.
  - intros i Hi. destruct (lookup_lt_is_Some_2 bs i ltac:(lia)) as [x Hx]. pose proof (get_block_answer _ _ _ i Hseq) as Hget.
    rewrite Hx in Hget. apply fmap_Some in Hget as (b & Hb & ->). exists b, (of_block (SeqDb.set_status Finalized b)).
    split; [exact Hb|]. split; [by rewrite (block_answer _ _ _ Hix), lookup_take_lt, Hx by done|].
    apply block_back. eapply (chain_readable bs); [exact Hr|by eapply list_elem_of_lookup_2|].
    apply (Hgood' (SeqDb.set_status Finalized b)). by eapply list_elem_of_lookup_2.
  - intros h ptx Hptx. pose proof (transaction_answer _ _ h Hix) as Ht. rewrite Hptx in Ht. destruct Ht as (tx & Htx & Hhash & ->).
    apply chain_txs_elem in Htx as (b & (i & Hb & _)%elem_of_take & Htx). apply list_elem_of_lookup_2 in Hb.
    pose proof (get_transaction_answer _ _ _ h Hseq) as Hget.
    destruct (SeqRpc.get_transaction core h) as [[tx'|]| |]; [|by destruct (Hget tx); [apply chain_txs_elem; exists b|]|done..].
    exists tx, tx'. split_and!; [|done|done|by destruct Hget]. apply tx_back.
    assert (Hread : Forall tx_readable (body b)) by (eapply (chain_readable bs); [exact Hr|done|by apply Hgood']).
    exact (proj1 (Forall_forall _ _) Hread tx Htx).
  - intros Heq id. unfold SeqRpc.get_last_block_id in Heq. rewrite Hh in Heq. rewrite take_ge in Hcur by lia.
    rewrite Hr in Hcur. injection Hcur as Hcur. unfold Rpc.get_account, account_current_state, SeqRpc.get_account.
    rewrite <- Hcur. by destruct id.
Qed.
End Settlement.

(** ** A wallet that sends to a node *)
Section Sending.
Context `{Validation, TransactionEncodings, BlockEncodings}.

(** The RPC client of a wallet, on the handlers of the node. *)
Definition node_client (s : SequencerCore) : SequencerClient SeqRpc.RpcError := {|
  rpc_get_account id := Ok (SeqRpc.get_account s id);
  rpc_get_account_balance id := Ok (SeqRpc.get_account_balance s id);
  rpc_get_accounts_nonces ids := Ok (SeqRpc.get_accounts_nonces s ids);
  rpc_get_proof_for_commitment c :=
    match SeqRpc.get_proof_for_commitment s c with
    | Ok p => Ok ((fun p => (Z.of_nat p.1, p.2)) <$> p)
    | Err _ => Panic "proof"
    | Panic msg => Panic msg
    end;
  rpc_send_transaction tx :=
    '(h, _) ← map_err SeqRpc.InvalidParams (send_transaction (max_block_size (sequencer_config s)) tx (mempool s));
    Ok h;
  rpc_get_transaction _ h := SeqRpc.get_transaction s h;
|}.
Lemma node_client_at s : node_at (E := SeqRpc.RpcError) (SequencerClient0 := node_client s) (state s).
Proof. by split. Qed.

(** A valid transaction that is alone in the mempool and fits makes, with the clock,
    the next block. *)
Lemma alone_in_block s m now sign tx meta diff st :
  mempool_items m = [tx] -> (1 < max_num_tx_in_block (sequencer_config s))%nat -> chain_height s + 1 < 2 ^ 64 -> 0 <= chain_height s ->
  SeqDb.latest_block_meta_cell (dbio (store s)) = Some meta ->
  validate_on_state tx (state s) (chain_height s + 1) now = Ok diff -> apply_state_diff (state s) diff = Ok st ->
  block_size (chain_height s + 1) (meta_hash meta) now [tx; Public (clock_invocation now)] <= max_block_size (sequencer_config s) ->
  build_block_from_mempool (with_mempool m s) now sign =
    (st' ← map_err ClockTransactionFailed (transition_from_public_transaction st (clock_invocation now) (chain_height s + 1) now);
     Ok (mk_Sequencer st' (store s) (mk_MemPool [] [] (max_size m)) (sequencer_config s) (chain_height s + 1),
         into_pending_block (mk_Hashable (chain_height s + 1) (meta_hash meta) now [tx; Public (clock_invocation now)])
           sign (zeros 32))).
Proof.
  intros Hitems Hmany Hh Hh0 Hmeta Hv Ha Hsize. unfold build_block_from_mempool, next_block_id, collect_fuel.
  cbn [with_mempool chain_height store mempool sequencer_config state].
  rewrite (proj2 (checked_add_Some 64 _ _ (chain_height s + 1))) by lia.
  unfold SeqDb.latest_block_meta, SeqDb.get_cell. rewrite Hmeta, Hitems. cbn [expect ok_or map_err mbind outcome_bind length].
  assert (Hpop : exists m', mempool_pop m = Some (tx, m') /\ m' = mk_MemPool [] [] (max_size m)).
  { destruct m as [r f ms]. unfold mempool_items in Hitems. cbn in Hitems. unfold mempool_pop. cbn.
    destruct f as [|y f]; cbn in Hitems; [subst r; by eexists|]. injection Hitems as -> Hn. apply app_eq_nil in Hn as [-> ->]. by eexists. }
  destruct Hpop as (m' & Hpop & ->). cbn [collect_loop pr_mempool valid_transactions pr_state app]. rewrite Hpop.
  rewrite decide_False by lia. rewrite Hv, Ha. cbn [length]. rewrite decide_False by lia.
  by cbn [mempool_pop front_buffer receiver mbind outcome_bind pr_state valid_transactions pr_mempool app].
Qed.

Context `{HmacSha512, K256, !DefaultsChain, ChainIndex.Itertools, !ChainIndex.ItertoolsLaws, OverflowChecks,
  Serde ProgramOutput, CircuitProver, SchnorrSign, !SchnorrSignLaws, Serde AuthTransfer.Instruction,
  !SerdeLaws AuthTransfer.Instruction}.

(** A public transaction that the state accepts, of another program than the faucet
    and without effect on the clock accounts, is valid. *)
Lemma accepted_validates st tx id ts st' :
  transition_from_public_transaction st tx id ts = Ok st' ->
  pub_program_id (pub_message tx) <> program_id faucet_program ->
  (forall c, c ∈ CLOCK_PROGRAM_ACCOUNT_IDS -> (c ∉ pub_signer_account_ids tx) /\ get_account_by_id st' c = get_account_by_id st c) ->
  exists diff, validate_on_state (Public tx) st id ts = Ok diff /\ apply_state_diff st diff = Ok st'.
Proof.
  intros (diff & Hd & Ha)%bind_ok Hfaucet Hclock. exists diff. split; [|exact Ha]. unfold validate_on_state.
  rewrite bool_decide_false by done. cbn [negb ensure mbind outcome_bind]. rewrite Hd. cbn [mbind outcome_bind].
  assert (Hsig : signer_account_ids diff = pub_signer_account_ids tx).
  { unfold from_public_transaction in Hd. apply bind_ok in Hd as (u & _ & Hd). apply bind_ok in Hd as (d & _ & Hd).
    apply bind_ok in Hd as (u' & _ & [= <-]). done. }
  assert (Hno : touches_clock st (public_diff diff) = false).
  { unfold touches_clock. apply not_true_is_false. intros (c & Hc%list_elem_of_In & Hpost)%existsb_exists.
    destruct (Hclock c Hc) as [Hns Heq]. destruct (public_diff diff !! c) as [a|] eqn:Hl; [|done].
    apply bool_decide_eq_true in Hpost. apply Hpost. apply apply_state_diff_ok in Ha as (Hacc & _). specialize (Hacc c).
    apply nonce_bumped_eq in Hacc. rewrite Hl, Hsig in Hacc. cbn [default from_option] in Hacc.
    assert (Hocc : occurrences c (pub_signer_account_ids tx) = 0%nat).
    { unfold occurrences. clear -Hns. induction (pub_signer_account_ids tx) as [|i l IH]; [done|].
      apply not_elem_of_cons in Hns as [Hi Hns]. rewrite filter_cons, decide_False by congruence. by apply IH. }
    rewrite Hocc, Z.add_0_r, Heq in Hacc. rewrite Hacc. by destruct a. }
  by rewrite Hno.
Qed.

(** C27. From the wallet into a block: a public transfer of a wallet to a node whose
    mempool is empty is admitted by the service, and the node builds its next block
    from exactly this transaction and the clock: on the state in which the amount has
    moved and the nonces have advanced, the clock runs, and its result is the state
    of the node.  The transaction fits the limits on sizes, and neither account is a
    clock account. *)
Theorem transfer_is_included k s vs from to n now sign meta :
  let signers := transfer_signers k from to in
  let max := max_block_size (sequencer_config s) in
  let h := chain_height s + 1 in
  wallet k -> state_inv (state s) vs -> Z.of_nat (length vs) <= 2 ^ 31 -> vm_runs_transfer ->
  transferable (state s) from to n -> is_Some (pub_account_signing_key k from) ->
  nonce (get_account_by_id (state s) from) < u128_max -> nonce (get_account_by_id (state s) to) < u128_max ->
  can_receive (state s) signers to ->
  program_id authenticated_transfer_program <> program_id faucet_program ->
  from ∉ CLOCK_PROGRAM_ACCOUNT_IDS -> to ∉ CLOCK_PROGRAM_ACCOUNT_IDS ->
  mempool_items (mempool s) = [] -> (0 < max_size (mempool s))%nat ->
  (1 < max_num_tx_in_block (sequencer_config s))%nat -> 0 <= chain_height s -> h < 2 ^ 64 ->
  SeqDb.latest_block_meta_cell (dbio (store s)) = Some meta ->
  (forall w, length (pub_signatures w) = length signers ->
     let tx := Public (mk_PublicTx (transfer_message (state s) from to n signers) w) in
     encoded_length tx <= max - BLOCK_HEADER_OVERHEAD /\
     block_size h (meta_hash meta) now [tx; Public (clock_invocation now)] <= max) ->
  exists tx m st,
    NativeFacade.send_public_transfer (SequencerClient0 := node_client s) k from to n = Ok (tx_hash (Public tx)) /\
    send_transaction max (Public tx) (mempool s) = Ok (tx_hash (Public tx), Some m) /\
    transferred (state s) from to n signers st /\
    build_block_from_mempool (with_mempool m s) now sign =
      (st' ← map_err ClockTransactionFailed (transition_from_public_transaction st (clock_invocation now) h now);
       Ok (mk_Sequencer st' (store s) (mempool s) (sequencer_config s) h,
           into_pending_block (mk_Hashable h (meta_hash meta) now [Public tx; Public (clock_invocation now)]) sign (zeros 32))).
Proof.
  intros signers max h Hw Hinv Hroom Hvm Htf Hkey Hnf Hnt Hcan Hfaucet Hcf Hct Hempty Hmax Hmany Hh0 Hh Hmeta Hfits.
  destruct (send_transfer_signed (SequencerClient0 := node_client s) k (state s) from to n Hw (node_client_at s)
    (proj2 (tf_amount _ _ _ _ Htf)) Hkey) as (w & Hsend & Hids & Hvalid). fold signers in Hsend, Hids, Hvalid.
  set (tx := mk_PublicTx (transfer_message (state s) from to n signers) w) in *.
  destruct (Hfits w) as [Hsize Hblock]; [rewrite <- Hids; unfold signer_ids; by rewrite length_fmap|]. fold tx in Hsize, Hblock.
  apply app_eq_nil in Hempty as [Hfront Hrecv].
  assert (Hpush : send_transaction max (Public tx) (mempool s) =
    Ok (tx_hash (Public tx), Some (mk_MemPool [Public tx] [] (max_size (mempool s))))).
  { unfold send_transaction. rewrite bool_decide_true by lia. cbn [ensure mbind outcome_bind transaction_stateless_check].
    cbn [tx pub_message pub_witness_set] in *. rewrite Hvalid. cbn [mbind outcome_bind].
    unfold mempool_push. by rewrite Hrecv, Hfront, decide_True by done. }
  destruct (transfer_signers_facts k (state s) from to n Htf Hnf Hnt) as (Hfrom & Hnd & Hnonce).
  destruct (transfer_accepted (state s) vs h now from to n signers) with (w := w) as (st & Hst & Htr); try done.
  destruct (accepted_validates (state s) tx h now st Hst Hfaucet) as (diff & Hval & Happ).
  { intros c Hc. unfold pub_signer_account_ids. cbn [tx pub_witness_set]. rewrite Hids.
    assert (Hns : c ∉ signers).
    { unfold signers, transfer_signers. intros [->|Hin]%elem_of_cons; [done|].
      destruct (pub_account_signing_key k to); [by apply list_elem_of_singleton in Hin as ->|by apply not_elem_of_nil in Hin]. }
    split; [exact Hns|]. rewrite (tr_accounts _ _ _ _ _ _ Htr c). cbv zeta. rewrite !decide_False by (done || by intros ->). done. }
  exists tx, (mk_MemPool [Public tx] [] (max_size (mempool s))), st.
  split; [rewrite Hsend; cbn [rpc_send_transaction node_client]; by fold max; rewrite Hpush|]. split; [exact Hpush|].
  split; [exact Htr|]. rewrite (alone_in_block s _ now sign (Public tx) meta diff st); try done.
  cbn [max_size]. destruct (mempool s) as [r f ms]. cbn in Hfront, Hrecv |- *. by subst.
Qed.
End Sending.

(** ** A private payment, from wallet to wallet *)
Section PrivatePayment.
Context `{Validation, !Sha256Laws, !DefaultsChain, TransactionEncodings, BlockEncodings, Serde Faucet.Instruction, Borsh Block}.
Context {Checkpoint : Type} `{!CheckpointJson Checkpoint}.
Context `{HmacSha512, K256, !K256Laws, ChaCha20, Serde ProgramOutput, CircuitProver, !ProverRuns, SchnorrSign,
  ChainIndex.Itertools, !ChainIndex.ItertoolsLaws}.

(** The commitments of a transaction and of a block. *)
Definition tx_commitments (tx : NSSATransaction) : list Commitment :=
  match tx with PrivacyPreserving t => priv_new_commitments (priv_message t) | _ => [] end.
Definition block_commitments (b : Block) : list Commitment := concat (tx_commitments <$> body b).
Definition not_private (tx : NSSATransaction) : Prop := match tx with PrivacyPreserving _ => False | _ => True end.

Lemma validated_commitments tx st id ts diff :
  validate_on_state tx st id ts = Ok diff -> new_commitments diff = tx_commitments tx.
Proof.
  unfold validate_on_state. intros Hv. inv_ok. destruct tx as [t|t|t]; cbn [tx_commitments].
  - unfold from_public_transaction in Hs0. by inv_ok.
  - unfold from_privacy_preserving_transaction in Hs0. by inv_ok.
  - unfold from_program_deployment_transaction in Hs0. inv_ok. by case_decide; inv_ok.
Qed.
Lemma public_transition_inv tx st id ts st' vs :
  transition_from_public_transaction st tx id ts = Ok st' -> state_inv st vs -> Z.of_nat (length vs) <= 2 ^ 31 -> state_inv st' vs.
Proof.
  unfold transition_from_public_transaction, from_public_transaction. intros Ht Hinv Hroom. inv_ok.
  apply (apply_inv st vs _ st' Hinv) in Ht as [Hinv' _]; [by rewrite app_nil_r in Hinv'|cbn; lia].
Qed.
Lemma replay_tx_inv id ts st tx st' vs :
  replay_tx id ts st tx = Ok st' -> state_inv st vs -> Z.of_nat (length (vs ++ tx_commitments tx)) <= 2 ^ 31 ->
  state_inv st' (vs ++ tx_commitments tx).
Proof.
  unfold replay_tx. intros Hr Hinv Hroom. case_decide.
  - destruct tx as [t|t|t]; inv_ok. cbn [tx_commitments] in *. rewrite app_nil_r in *. by eapply public_transition_inv.
  - apply bind_ok in Hr as (tx' & Htx & Hr). apply map_err_ok in Htx.
    assert (tx' = tx) as ->. { destruct tx; cbn in Htx; try case_match; by inv_ok. }
    unfold execute_check_on_state in Hr. inv_ok. rewrite <- (validated_commitments _ _ _ _ _ Hs) in *.
    eapply apply_inv; [done| |done]. rewrite length_app in Hroom. lia.
Qed.
Lemma replay_txs_inv id ts : forall txs st st' vs,
  replay_txs id ts st txs = (st', Ok ()) -> state_inv st vs ->
  Z.of_nat (length (vs ++ concat (tx_commitments <$> txs))) <= 2 ^ 31 -> state_inv st' (vs ++ concat (tx_commitments <$> txs)).
Proof.
  induction txs as [|tx txs IH]; intros st st' vs Hr Hinv Hroom; cbn in Hr |- *.
  - injection Hr as <-. by rewrite app_nil_r.
  - cbn in Hroom. rewrite app_assoc in Hroom |- *. destruct (replay_tx id ts st tx) as [st1| |] eqn:Htx; [|discriminate Hr..].
    eapply IH; [exact Hr| |exact Hroom]. eapply replay_tx_inv; [exact Htx|exact Hinv|]. rewrite length_app in Hroom. lia.
Qed.

(** A block appends its commitments to the set, in order. *)
Lemma replay_ok_inv st b st' vs :
  replay_ok st b = Ok st' -> state_inv st vs -> Z.of_nat (length (vs ++ block_commitments b)) <= 2 ^ 31 ->
  state_inv st' (vs ++ block_commitments b).
Proof.
  intros Hr%replay_ok_spec Hinv Hroom. unfold replay_block in Hr. destruct (last (body b)) as [c|] eqn:Hlast; [|done].
  case_decide as Hc; [|done].
  assert (Hbody : body b = take (pred (length (body b))) (body b) ++ [c]).
  { apply last_Some in Hlast as [l Hl]. rewrite Hl, length_app. cbn [length]. rewrite Nat.add_1_r. cbn [Nat.pred]. by rewrite take_app_length. }
  set (txs := take _ _) in *. destruct (replay_txs _ _ st txs) as [st1 [[]| |]] eqn:Htxs; [|done..].
  assert (Hcms : block_commitments b = concat (tx_commitments <$> txs)).
  { unfold block_commitments. rewrite Hbody, fmap_app, concat_app, Hc. cbn. by rewrite app_nil_r. }
  rewrite Hcms in *. destruct (transition_from_public_transaction st1 _ _ _) as [st2| |] eqn:Ht; [|done..].
  injection Hr as <-. eapply public_transition_inv; [exact Ht| |done]. by eapply replay_txs_inv.
Qed.

(** Only private transactions change a wallet that synchronises. *)
Lemma sync_not_private k txs : Forall not_private txs -> fold_o sync_private_accounts_with_tx k txs = Ok k.
Proof. induction 1 as [|tx txs Htx _ IH]; [done|]. by destruct tx. Qed.

Lemma no_commitments txs : Forall not_private txs -> concat (tx_commitments <$> txs) = [].
Proof. induction 1 as [|tx txs Htx _ IH]; [done|]. cbn. rewrite IH. by destruct tx. Qed.

(** When a wallet with the key chain [r] reads the output for the account [idf] of
    the keys of its node [node] at [c]: the keys are usable, the outputs of the
    transaction that carry its view tags can be decoded, and no other account of the
    wallet has the id. *)
Record receives (r : UserKeyChain) (c : list Z) (node : ChildKeysPrivate) (idf : Identifier) (esk : list byte)
    (m : PrivacyMessage) : Prop := {
  rc_inv : keys_inv r;
  rc_tree : tree_only r;
  rc_node : key_map (private_key_tree r) !! c = Some node;
  rc_identifier : in_u 128 idf;
  rc_ephemeral : is_Some (secret_key_from_bytes esk);
  rc_viewing : is_Some (secret_key_from_bytes
    (generate_viewing_secret_key (secret_spending_key (priv_value node).1) (ChainIndex.index c)));
  rc_readable d n : key_map (private_key_tree r) !! d = Some n -> readable (priv_value n).1 (Some d) m;
  rc_clash_free : clash_free r (kinds_in_use r m);
  rc_agree d n j kind b d' n' j' kind' b' :
    key_map (private_key_tree r) !! d = Some n -> decoded (priv_value n).1 (Some d) m j kind b ->
    key_map (private_key_tree r) !! d' = Some n' -> decoded (priv_value n').1 (Some d') m j' kind' b' ->
    for_private_account (nullifier_public_key (priv_value n).1) kind = for_regular_private_account (nullifier_public_key (priv_value node).1) idf ->
    for_private_account (nullifier_public_key (priv_value n').1) kind' = for_regular_private_account (nullifier_public_key (priv_value node).1) idf ->
    b = b';
}.

(** C28. A private payment, from the wallet of the sender through a node to the wallet
    of the recipient: when the node produces a block with the transaction, among
    transactions that are not private, then a recipient that had read the chain so
    far and synchronises holds, under the id of the account that was paid, a state
    whose commitment is one of the transaction; and the node gives, for the
    commitment that the wallet then asks for, a path to a digest that the state
    recognises, so that the account can be spent. *)
Theorem private_payment_settles {E} (get_account : AccountId -> outcome E Account)
    (get_proof : Commitment -> outcome E (option MembershipProof))
    k accounts instr program pre_check randomness tx secrets i idf c node s
    healthy initial n accepted now sign n' h b before after vs chunk :
  let keys := (priv_value node).1 in
  let id := for_regular_private_account (nullifier_public_key keys) idf in
  build_privacy_preserving_tx get_account get_proof k accounts instr program pre_check randomness = Ok (tx, secrets) ->
  accounts !! i = Some (PrivateForeign (nullifier_public_key keys) (viewing_public_key keys) idf) ->
  node_reachable (Checkpoint := Checkpoint) healthy initial n -> (healthy = true -> accepted = true) ->
  node_produce accepted now sign n = Ok (n', h) ->
  SeqRpc.get_block (node_core n') h = Some b -> body b = before ++ PrivacyPreserving tx :: after ->
  Forall not_private before -> Forall not_private after ->
  state_inv (state (node_core n)) vs -> Z.of_nat (length (vs ++ priv_new_commitments (priv_message tx))) <= 2 ^ 31 ->
  receives (key_chain s) c node idf (ephemeral_secret (nullifier_public_key keys) (randomness i)) (priv_message tx) ->
  last_synced_block s = SeqRpc.get_last_block_id (node_core n) -> 1 <= chunk -> h < u64_max ->
  exists a s' path,
    sync_to_latest_block (SeqRpc.get_block_range (node_core n')) (Ok (SeqRpc.get_last_block_id (node_core n'))) chunk s =
      Ok (s', Ok h) /\
    get_account_private (key_chain s') id = Some a /\ keys_inv (key_chain s') /\
    Commitment_new id a ∈ priv_new_commitments (priv_message tx) /\
    get_private_account_commitment (key_chain s') id = Some (Commitment_new id a) /\
    SeqRpc.get_proof_for_commitment (node_core n') (Commitment_new id a) = Ok (Some path) /\
    compute_digest_for_path (Commitment_new id a) (Z.of_nat path.1, path.2) ∈ root_history (private_state (state (node_core n'))).1.
Proof.
  intros keys id Hb Hi Hreach Hacc Hprod Hget Hbody Hbefore Hafter Hinv Hroom Hrc Hlast Hchunk Hmax.
  destruct (node_reachable_inv _ _ _ Hreach) as (bs & Hn). pose proof Hn as [((_ & _ & Hst & _) & _ & _ & Hh) _].
  destruct (node_produce_inv _ _ _ _ _ _ _ _ _ Hn Hacc Hprod) as (b' & Hn'). pose proof Hn' as [Hseq' _].
  pose proof Hseq' as ((_ & _ & Hst' & _) & _ & _ & Hh').
  assert (Hheight : chain_height (node_core n') = h).
  { unfold node_produce in Hprod. apply bind_ok in Hprod as ([s1 b1] & _ & Hprod). cbv beta iota zeta in Hprod.
    by apply bind_ok in Hprod as (store' & _ & [= <- <-]). }
  rewrite Hheight, length_app in Hh'. cbn [length] in Hh'.
  assert (Hb' : b' = SeqDb.set_status Finalized b).
  { pose proof (get_block_answer _ _ _ (length bs) Hseq') as Ha. rewrite list_lookup_middle in Ha by done.
    replace (Z.of_nat (length bs) + 1) with h in Ha by lia. rewrite Hget in Ha. by injection Ha. }
  destruct Hrc as [Hki Htree Hnode Hidf Hesk Hvsk Hread Hclash Hagree].
  destruct (payment_received get_account get_proof k (key_chain s) accounts instr program pre_check randomness tx secrets i
    (PrivateForeign (nullifier_public_key keys) (viewing_public_key keys) idf) idf c node Hb Hi eq_refl Hidf Hesk Hki Htree
    Hnode Hvsk Hread Hclash Hagree) as (committed & a & r' & Hcm & Hr' & Hacct & Hki' & Hid).
  rewrite (Hid ltac:(by eexists)) in Hcm. fold keys id in Hcm, Hacct. apply list_elem_of_lookup_2 in Hcm.
  assert (Hinv' : state_inv (state (node_core n')) (vs ++ priv_new_commitments (priv_message tx))).
  { assert (Hcms : block_commitments b' = priv_new_commitments (priv_message tx)).
    { rewrite Hb'. unfold block_commitments. cbn [SeqDb.set_status body]. rewrite Hbody, fmap_app, fmap_cons, concat_app. cbn [concat].
      by rewrite !no_commitments, app_nil_r by done. }
    rewrite <- Hcms in *. rewrite fold_o_app, Hst in Hst'. cbn in Hst'. apply bind_ok in Hst' as (st' & Hst' & [= <-]).
    by eapply replay_ok_inv. }
  destruct (membership_proofs_verify _ _ (Commitment_new id a) Hinv') as (root & _ & Hroot & Hproof & _).
  destruct (Hproof ltac:(set_solver)) as (ix & path & Hpath & _ & Hdigest).
  exists a, (mk_Storage r' (labels s) h), (ix, path). split_and!.
  - rewrite (wallet_reads_chain initial (bs ++ [b'])); [|done|done|..].
    2,3: unfold SeqRpc.get_last_block_id in Hlast; rewrite ?length_app; cbn [length]; lia.
    unfold SeqRpc.get_last_block_id in Hlast. rewrite Hlast, Hh, Nat2Z.id, drop_app_length.
    assert (Htxs : chain_txs [b'] = before ++ PrivacyPreserving tx :: after).
    { unfold chain_txs. cbn. by rewrite app_nil_r, Hb'. }
    rewrite Htxs, fold_o_app, sync_not_private by done. cbn [mbind outcome_bind fold_o]. rewrite Hr'. cbn [mbind outcome_bind].
    rewrite sync_not_private by done. cbn [mbind outcome_bind]. rewrite length_app. cbn [length]. by repeat f_equal; lia.
  - exact Hacct.
  - exact Hki'.
  - exact Hcm.
  - unfold get_private_account_commitment. cbn [key_chain]. unfold get_account_private in Hacct.
    apply fmap_Some in Hacct as (f & -> & ->). done.
  - exact Hpath.
  - cbn [fst snd]. by rewrite Hdigest.
Qed.
End PrivatePayment.
