(* ===== verification/TransferSamples.v ===== *)
(** A concrete public transfer: Zoe pays forty units from the root account of her key
    tree, first against a state, then into the block of a node.  The witnesses of the
    theorems about transfers. *)

From S2P Require Import Prelude Bytes Crypto Account Ids ProgramCore Borsh MerkleTree Host State Encryption CircuitIo Circuit Transactions Prover StateDiffs NativePrograms Approval Token Amm TokenClients TokenFacts Instances StateTheorems PrivacyTheorems Chain SequencerStore Sequencer IndexerStore ChainSamples ChainIndex KeyDerivation GroupKeys KeyTree UserKeyChain WalletSync KeyTreeFacts KeyTreeTheorems KeySamples StorageFacts WalletFacts WalletTheorems WalletTx WalletTxSamples WalletFacades TransferTheorems IndexerService SequencerService NodeTheorems.
Import KeySamples.

Module TransferSamples.
#[local] Existing Instance sha256_instance.
#[local] Existing Instance auth_serde.
#[local] Existing Instance sample_builtins.
#[global] Instance release : OverflowChecks := false.
#[global] Instance zoe_output_serde : Serde ProgramOutput := {|
  serde_to_vec o := instruction_data o;
  serde_from_words _ := None;
|}.
#[global] Instance auth_serde_laws : SerdeLaws AuthTransfer.Instruction.
Proof. constructor. by intros []. Qed.

(** A signature is the public key with the message. *)
#[global] Instance echo_sign : SchnorrSign := fun key message =>
  match new_from_private_key (mk_PrivateKey key) with Ok pk => Some (public_key_value pk ++ message) | _ => None end.
#[global] Instance echo_verify : Schnorr := {|
  schnorr_key_valid _ := true;
  schnorr_signature_valid _ := true;
  schnorr_verify_raw pk message s := bool_decide (s = pk ++ message);
|}.
#[global] Instance echo_laws : SchnorrSignLaws.
Proof.
  intros [key] pk message Hpk. exists (public_key_value pk ++ message). unfold schnorr_sign, echo_sign.
  cbn [private_key_value]. rewrite Hpk. split; [done|]. cbn. by rewrite bool_decide_true.
Qed.

(** The machine runs the transfer program. *)
#[global] Instance transfer_vm : ZkVm := fun elf self caller pre words =>
  match AuthTransfer.main (mk_Env self caller pre words) with
  | Ok (Some o) => inr o
  | _ => inl "no output"%string
  end.

Definition zoe : UserKeyChain :=
  match storage_trees alice_seed with
  | Ok k => k
  | _ => mk_UserKeyChain ∅ ∅ (mk_KeyTree ∅ ∅) (mk_KeyTree ∅ ∅) ∅ ∅ None
  end.
Lemma zoe_wallet : wallet zoe.
Proof.
  apply (wallet_new alice_seed). unfold zoe.
  destruct (run_ok (storage_trees alice_seed) (fun _ => true)) as (k & -> & _); [vm_compute; reflexivity|done].
Qed.
Definition zoe_root : AccountId :=
  match key_map (public_key_tree zoe) !! [] with Some node => public_account_id node | None => AccountId_new [] end.
Lemma zoe_root_key : is_Some (pub_account_signing_key zoe zoe_root).
Proof. decide_run. Qed.

(** The state that the node answers from. *)
Definition market : V03State :=
  mk_State (<[zoe_root := funds 100]> {[bob_id := funds 5]}) (private_state sample_state) (programs sample_state).
Lemma market_inv : state_inv market [DUMMY_COMMITMENT].
Proof. destruct sample_inv as [Hcs Hd Hh]. by constructor. Qed.
#[global] Instance market_node : SequencerClient string := {|
  rpc_get_account id := Ok (get_account_by_id market id);
  rpc_get_account_balance id := Ok (balance (get_account_by_id market id));
  rpc_get_accounts_nonces ids := Ok ((fun id => nonce (get_account_by_id market id)) <$> ids);
  rpc_get_proof_for_commitment _ := Ok None;
  rpc_send_transaction _ := Ok (zeros 32);
  rpc_get_transaction _ _ := Ok None;
|}.
Lemma market_transferable : transferable market zoe_root bob_id 40.
Proof.
  assert (Hz : get_account_by_id market zoe_root = funds 100) by decide_run.
  assert (Hb : get_account_by_id market bob_id = funds 5) by decide_run.
  constructor; rewrite ?Hz, ?Hb; unfold in_u; cbn [funds balance program_owner]; try lia; try reflexivity; decide_run.
Qed.

Lemma public_transfer_arrives_witness : exists tx st',
  NativeFacade.send_public_transfer zoe zoe_root bob_id 40 = Ok (zeros 32) /\
  transition_from_public_transaction market tx 1 1 = Ok st' /\
  balance (get_account_by_id st' zoe_root) = 60 /\ nonce (get_account_by_id st' zoe_root) = 1 /\
  balance (get_account_by_id st' bob_id) = 45.
Proof.
  destruct (public_transfer_arrives zoe market [DUMMY_COMMITMENT] zoe_root bob_id 40 1 1) as (tx & Hsend & Hok & _).
  - exact zoe_wallet.
  - exact market_inv.
  - discriminate.
  - constructor; reflexivity.
  - intros self caller pre words o Hmain. unfold vm_execute, transfer_vm. rewrite Hmain. reflexivity.
  - exact market_transferable.
  - exact zoe_root_key.
  - reflexivity.
  - reflexivity.
  - destruct Hok as (st' & Hrun & [Hacc _ _]).
    { left. decide_run. }
    exists tx, st'. split; [exact Hsend|]. split; [exact Hrun|]. rewrite !Hacc. split; [|split]; vm_compute; reflexivity.
Defined.
End TransferSamples.

(** ** A transfer from the wallet into a block *)
Module NodeTransfer.
Import TransferSamples.
#[local] Existing Instance sha256_instance.
#[local] Existing Instance auth_serde.
#[local] Existing Instance sample_builtins.
(** The machine runs the transfer program as above, and the other programs as the
    interpreter does. *)
#[local] Instance node_vm : ZkVm := fun elf self caller pre words =>
  if decide (elf = Host.elf authenticated_transfer_program) then transfer_vm elf self caller pre words
  else interpreter elf self caller pre words.
#[local] Instance node_validation : Validation := {|
  validation_sha256 := sha256_instance;
  validation_zkvm := node_vm;
  validation_schnorr := echo_verify;
  validation_pub_borsh := sample_pub_borsh;
  validation_priv_borsh := sample_priv_borsh;
  validation_receipts := sample_receipts;
  validation_serde := sample_circuit_serde;
  validation_risc0 := no_image_ids;
  validation_programs := sample_builtins;
  validation_clock := timestamp_serde;
|}.

(** A sequencer that starts from a state in which Zoe has funds. *)
Definition zoe_initial : V03State :=
  match new_with_genesis_accounts [(zoe_root, 100); (bob_id, 5)] [] 0 with
  | Ok st => mk_State (public_state st) (private_state sample_state) (programs st)
  | _ => sample_state
  end.
Definition zoe_node : outcome Sequencer.SequencerError SequencerCore :=
  start_from_config sample_config None zoe_initial sample_sign.
Definition zoe_core : SequencerCore := Eval vm_compute in
  match zoe_node with Ok s => s | _ => mk_Sequencer sample_state (mk_SequencerStore SeqDb.empty ∅ 0) (mk_MemPool [] [] 0) sample_config 0 end.
Lemma zoe_core_inv : state_inv (state zoe_core) [DUMMY_COMMITMENT].
Proof.
  assert (Hp : private_state (state zoe_core) = private_state sample_state) by (vm_compute; reflexivity).
  destruct sample_inv as [Hcs Hd Hh]. constructor; rewrite Hp; assumption.
Qed.
Lemma zoe_transferable : transferable (state zoe_core) zoe_root bob_id 40.
Proof.
  assert (Hz : get_account_by_id (state zoe_core) zoe_root = funds 100) by decide_run.
  assert (Hb : get_account_by_id (state zoe_core) bob_id = funds 5) by decide_run.
  constructor; rewrite ?Hz, ?Hb; unfold in_u; cbn [funds balance program_owner]; try lia; try reflexivity; decide_run.
Qed.

(** What Zoe signs: alone, and with her first nonce. *)
Definition zoe_message : PublicMessage := Eval vm_compute in
  mk_PublicMessage auth_id [zoe_root; bob_id] [0] (serde_to_vec (AuthTransfer.Transfer 40)).
Lemma zoe_signs : transfer_signers zoe zoe_root bob_id = [zoe_root].
Proof. decide_run. Qed.
Lemma zoe_sends : transfer_message (state zoe_core) zoe_root bob_id 40 [zoe_root] = zoe_message.
Proof. vm_compute. reflexivity. Qed.
Definition zoe_meta : BlockMeta := Eval vm_compute in
  match SeqDb.latest_block_meta_cell (dbio (store zoe_core)) with Some meta => meta | None => mk_BlockMeta 0 [] [] end.
Lemma zoe_fits s : let tx := Public (mk_PublicTx zoe_message (mk_PublicWitnessSet [s])) in
  encoded_length tx <= 1000 - BLOCK_HEADER_OVERHEAD /\
  block_size 2 (meta_hash zoe_meta) 5 [tx; Public (clock_invocation 5)] <= 1000.
Proof. split; vm_compute; discriminate. Qed.

Lemma transfer_is_included_witness : exists tx m st,
  NativeFacade.send_public_transfer (SequencerClient0 := node_client zoe_core) zoe zoe_root bob_id 40 = Ok (tx_hash (Public tx)) /\
  send_transaction 1000 (Public tx) (mempool zoe_core) = Ok (tx_hash (Public tx), Some m) /\
  balance (get_account_by_id st zoe_root) = 60 /\ balance (get_account_by_id st bob_id) = 45.
Proof.
  destruct (transfer_is_included zoe zoe_core [DUMMY_COMMITMENT] zoe_root bob_id 40 5 sample_sign zoe_meta)
    as (tx & m & st & Hsend & Hpush & [Hacc _ _] & _).
  - exact zoe_wallet.
  - exact zoe_core_inv.
  - discriminate.
  - intros self caller pre words o Hmain. cbn [validation_zkvm node_validation]. unfold vm_execute, node_vm. rewrite decide_True by done. unfold transfer_vm. rewrite Hmain. reflexivity.
  - exact zoe_transferable.
  - exact zoe_root_key.
  - reflexivity.
  - reflexivity.
  - left. decide_run.
  - decide_run.
  - decide_run.
  - decide_run.
  - reflexivity.
  - apply Nat.ltb_lt. reflexivity.
  - apply Nat.ltb_lt. reflexivity.
  - discriminate.
  - reflexivity.
  - reflexivity.
  - rewrite zoe_signs. cbn [validation_programs node_validation]. rewrite zoe_sends. intros [[|sig [|]]] Hlen; [discriminate Hlen|exact (zoe_fits sig)|discriminate Hlen].
  - exists tx, m, st. split; [exact Hsend|]. split; [exact Hpush|].
    rewrite !Hacc. split; vm_compute; reflexivity.
Defined.
End NodeTransfer.
