(* ===== verification/PaymentSamples.v ===== *)
(** A private payment from a wallet through a node to another wallet, on concrete
    keys: the first wallet pays five units from a public account, a node includes the
    transaction, and the second wallet synchronises.  The witness of the theorem
    about private payments. *)

From S2P Require Import Prelude Bytes Crypto Account Ids ProgramCore Borsh MerkleTree Host State Encryption CircuitIo Circuit Transactions Prover StateDiffs CircuitFacts NativePrograms Instances StateTheorems PrivacyTheorems Chain SequencerStore Sequencer IndexerStore SequencerInvariant IndexerInvariant ChainSamples ChainIndex KeyDerivation GroupKeys KeyTree UserKeyChain WalletSync KeyTreeFacts KeyTreeTheorems KeySamples StorageFacts WalletFacts SyncFacts WalletTheorems WalletTx WalletTxTheorems WalletTxSamples SequencerService NodeTheorems.
Import KeySamples HonestProver.

Open Scope Z_scope.

Module PaymentSamples.
(** ** The third-party code: SHA-256, and the toy curve and codecs of the samples *)
#[local] Existing Instance sha256_instance.
#[local] Existing Instance sample_builtins.
#[local] Instance zero_stream : ChaCha20 := fun _ _ => Byte.x00.
#[local] Instance constant_output : Serde ProgramOutput := {|
  serde_to_vec o := instruction_data o;
  serde_from_words _ := None;
|}.
#[local] Instance constant_signature : SchnorrSign := fun _ _ => Some (zeros 64).
#[local] Instance all_receipts : Receipts := {|
  inner_receipt := ();
  inner_receipt_from_slice _ := Some ();
  receipt_verify _ _ := true;
|}.
#[local] Instance first_checkpoint : CheckpointJson () := {|
  checkpoint_to_json _ := Some [];
  checkpoint_from_json _ := Some ();
|}.
#[local] Instance opaque_blocks : Borsh Block := {|
  borsh_to_vec b := le_bytes 1 (header_block_id (header b));
  borsh_try_from_slice _ := None;
|}.

(** A program that moves five units from its first account to its second one. *)
Definition credit_id : ProgramId := replicate 8 9.
Definition credit : Program := mk_Program credit_id [Byte.x09].
Definition moved (a b : Account) : list AccountPostState :=
  [PostState_new (mk_Account (program_owner a) (balance a - 5) (data a) (nonce a));
   new_claimed (mk_Account (program_owner b) (balance b + 5) (data b) (nonce b)) Authorized].
#[local] Instance credit_vm : ZkVm := fun elf self caller pre instr =>
  if decide (elf = Host.elf credit) then
    match pre with
    | [a; b] => inr (ProgramOutput_new self caller instr pre (moved (account a) (account b)))
    | _ => inl "two accounts"
    end
  else interpreter elf self caller pre instr.
#[local] Instance payment_validation : Validation := {|
  validation_sha256 := sha256_instance;
  validation_zkvm := credit_vm;
  validation_schnorr := sample_schnorr;
  validation_pub_borsh := sample_pub_borsh;
  validation_priv_borsh := sample_priv_borsh;
  validation_receipts := all_receipts;
  validation_serde := sample_circuit_serde;
  validation_risc0 := no_image_ids;
  validation_programs := sample_builtins;
  validation_clock := timestamp_serde;
|}.

(** ** The wallets *)
Definition bob_seed : SeedHolder := mk_SeedHolder (replicate 64 Byte.x2b).
Definition no_keys : UserKeyChain := new_with_accounts no_tree no_tree.
Definition payer : UserKeyChain := Eval vm_compute in run no_keys (storage_trees alice_seed).
Definition bob : UserKeyChain := Eval vm_compute in run no_keys (storage_trees bob_seed).
Lemma paid_bob_wallet : @wallet _ _ sha256_instance _ _ bob.
Proof. apply (wallet_new bob_seed). decide_run. Qed.
Lemma paid_bob_inv : keys_inv bob.
Proof. apply wallet_keys_inv, paid_bob_wallet. Qed.
Definition bob_root : ChildKeysPrivate := Eval vm_compute in
  match key_map (private_key_tree bob) !! [] with Some n => n | None => priv_root end.
Lemma paid_bob_node c node : key_map (private_key_tree bob) !! c = Some node -> c = [] /\ node = bob_root.
Proof.
  assert (Hmap : key_map (private_key_tree bob) = {[ [] := bob_root ]}) by decide_run.
  rewrite Hmap. intros [Hc Hn]%lookup_singleton_Some. exact (conj (eq_sym Hc) (eq_sym Hn)).
Qed.
Definition bob_keys : KeyChain := (priv_value bob_root).1.
Definition bob_identifier : Identifier := 5.
Definition to_bob : PrivacyPreservingAccount :=
  PrivateForeign (nullifier_public_key bob_keys) (viewing_public_key bob_keys) bob_identifier.
Definition bob_storage : Storage := mk_Storage bob ∅ 1.

(** ** The transaction *)
Definition bank_id : AccountId := Eval vm_compute in
  match key_map (public_key_tree payer) !! [] with Some n => public_account_id n | None => AccountId_new [] end.
Definition bank : Account := mk_Account credit_id 100 (mk_Data []) 3.
Definition bank_account (_ : AccountId) : outcome string Account := Ok bank.
Definition no_proof (_ : Commitment) : outcome string (option MembershipProof) := Ok None.
Definition randomness (i : nat) : list byte := le_bytes 32 (Z.of_nat i + 1).
Definition request : list PrivacyPreservingAccount := [AccPublic bank_id; to_bob].
Definition no_check (_ : list Account) : outcome (ExecutionFailureKind string) () := Ok ().
Definition built : outcome (ExecutionFailureKind string) (PrivacyPreservingTransaction * list SharedSecretKey) :=
  build_privacy_preserving_tx bank_account no_proof payer request [] (mk_WithDeps credit ∅) no_check randomness.
Definition no_tx : PrivacyPreservingTransaction := private_payment.
Definition payment : PrivacyPreservingTransaction := Eval vm_compute in match built with Ok r => r.1 | _ => no_tx end.
Definition secrets : list SharedSecretKey := Eval vm_compute in match built with Ok r => r.2 | _ => [] end.
Lemma payment_built : built = Ok (payment, secrets).
Proof. vm_compute. reflexivity. Qed.

(** ** The node *)
Definition payment_initial : V03State :=
  match new_with_genesis_accounts [(bob_id, 5)] [] 0 with
  | Ok st => mk_State (<[bank_id := bank]> (public_state st)) (private_state sample_state) (programs st)
  | _ => sample_state
  end.
Definition started : outcome Sequencer.SequencerError SequencerNode :=
  node_start (Checkpoint := ()) sample_config None payment_initial sample_sign true [].
Definition submitted : outcome Sequencer.SequencerError SequencerNode :=
  n ← started;
  '(_, m) ← map_err (fun _ => StateError InvalidPrivateKey) (send_transaction 1000 (PrivacyPreserving payment) (mempool (node_core n)));
  m ← expect m "full";
  Ok (mk_Node (with_mempool m (node_core n)) (published n)).
Lemma submitted_reachable n : submitted = Ok n -> node_reachable (Checkpoint := ()) true payment_initial n.
Proof.
  unfold submitted. intros (n0 & Hn0 & Hr)%bind_ok.
  apply bind_ok in Hr as ([h m] & Hsend%map_err_ok & Hr). apply bind_ok in Hr as (m' & Hm%expect_ok & Hr).
  subst m. apply (proj1 (ok_inj _ _)) in Hr. subst n.
  exists sample_config, sample_sign, true, n0. split; [done|]. split; [exact Hn0|].
  apply rtc_once. refine (node_step_send _ _ (PrivacyPreserving payment) h m' _).
  assert (Hcfg : sequencer_config (node_core n0) = sample_config).
  { unfold started, node_start in Hn0. apply bind_ok in Hn0 as (s & Hs & Hn0). apply bind_ok in Hn0 as (c & _ & Hn0).
    apply bind_ok in Hn0 as (g & _ & Hn0). apply (proj1 (ok_inj _ _)) in Hn0. subst n0.
    unfold start_from_config in Hs. apply bind_ok in Hs as ([st0 st] & _ & Hs).
    apply bind_ok in Hs as (meta & _ & Hs). apply bind_ok in Hs as (mp & _ & Hs). apply (proj1 (ok_inj _ _)) in Hs. by subst s. }
  by rewrite Hcfg.
Qed.

(** The node has the commitments of the sample state, and its next block is the second. *)
#[local] Instance tree_eq_dec : EqDecision MerkleTree.
Proof. solve_decision. Defined.
#[local] Instance commitments_eq_dec : EqDecision CommitmentSet.
Proof. solve_decision. Defined.
Definition block_two (r : SequencerNode * Z) : bool :=
  bool_decide (r.2 = 2) && match SeqRpc.get_block (node_core r.1) 2 with
    | Some b => bool_decide (body b = [PrivacyPreserving payment; Public (clock_invocation 5)])
    | None => false
    end.
Definition ready (n : SequencerNode) : bool :=
  bool_decide (private_state (state (node_core n)) = private_state sample_state) &&
  bool_decide (SeqRpc.get_last_block_id (node_core n) = 1) &&
  match node_produce true 5 sample_sign n with Ok r => block_two r | _ => false end.
Lemma submitted_ready : exists n, submitted = Ok n /\ ready n = true.
Proof. apply run_ok. vm_compute. reflexivity. Qed.
Lemma paid_ready_facts n : ready n = true ->
  state_inv (state (node_core n)) [DUMMY_COMMITMENT] /\ SeqRpc.get_last_block_id (node_core n) = 1 /\
  exists n' b, node_produce true 5 sample_sign n = Ok (n', 2) /\ SeqRpc.get_block (node_core n') 2 = Some b /\
    body b = [] ++ PrivacyPreserving payment :: [Public (clock_invocation 5)].
Proof.
  unfold ready. rewrite !andb_true_iff, !bool_decide_eq_true. intros [[Hp Hlast] Hprod]. split; [|split; [exact Hlast|]].
  - destruct sample_inv as [Hcs Hd Hh]. constructor; rewrite Hp; assumption.
  - destruct (node_produce true 5 sample_sign n) as [[n' h]| |]; [|discriminate Hprod..].
    apply andb_true_iff in Hprod as [Hh%bool_decide_eq_true_1 Hb]. cbn [fst snd] in Hh, Hb. subst h.
    destruct (SeqRpc.get_block (node_core n') 2) as [b|] eqn:Hget; [|discriminate Hb].
    exists n', b. split; [reflexivity|]. split; [exact Hget|]. exact (bool_decide_eq_true_1 _ Hb).
Qed.

(** ** What Bob reads *)
Definition to_bob_id : AccountId := Eval vm_compute in for_private_account (nullifier_public_key bob_keys) (Regular bob_identifier).
Definition received : Account := Eval vm_compute in
  match affected_accounts bob (priv_message payment) with Ok [(_, _, a)] => a | _ => Account_default end.
Lemma paid_bob_affected : affected_accounts bob (priv_message payment) = Ok [(to_bob_id, Regular bob_identifier, received)].
Proof. decide_run. Qed.
Lemma paid_bob_decodes d n i kind b :
  key_map (private_key_tree bob) !! d = Some n ->
  decoded (priv_value n).1 (Some d) (priv_message payment) i kind b -> kind = Regular bob_identifier /\ b = received.
Proof. apply (only_decoded bob payment to_bob_id); [apply paid_bob_inv|apply paid_bob_affected]. Qed.
Lemma bob_receives : receives bob [] bob_root bob_identifier
  (ephemeral_secret (nullifier_public_key bob_keys) (randomness 1)) (priv_message payment).
Proof.
  constructor.
  - apply paid_bob_inv.
  - split; decide_run.
  - decide_run.
  - decide_run.
  - decide_run.
  - decide_run.
  - intros d n Hd. destruct (node_chain bob d n paid_bob_inv Hd) as [id Hin]. apply (affected_readable _ _ _ paid_bob_affected _ Hin).
  - apply (root_clash_free bob bob_root payment (Regular bob_identifier)).
    + apply paid_bob_node.
    + decide_run.
    + intros d n i kind b Hd Hdec. by apply (paid_bob_decodes d n i kind b).
    + decide_run.
  - intros d n j kind b d' n' j' kind' b' Hd Hb Hd' Hb' _ _.
    apply paid_bob_decodes in Hb as [_ ->]; [|exact Hd]. by apply paid_bob_decodes in Hb' as [_ ->].
Qed.

(** ** The witness *)
Lemma private_payment_settles_witness : exists n n' a s' path,
  submitted = Ok n /\ node_produce true 5 sample_sign n = Ok (n', 2) /\
  sync_to_latest_block (SeqRpc.get_block_range (node_core n')) (Ok (SeqRpc.get_last_block_id (node_core n'))) 10 bob_storage =
    Ok (s', Ok 2) /\
  get_account_private (key_chain s') to_bob_id = Some a /\
  SeqRpc.get_proof_for_commitment (node_core n') (Commitment_new to_bob_id a) = Ok (Some path).
Proof.
  destruct submitted_ready as (n & Hn & (Hinv & Hlast & n' & b & Hp & Hb & Hbody)%paid_ready_facts). exists n, n'.
  destruct (private_payment_settles bank_account no_proof payer request [] (mk_WithDeps credit ∅) no_check randomness
    payment secrets 1 bob_identifier [] bob_root bob_storage true payment_initial n true 5 sample_sign n' 2 b
    [] [Public (clock_invocation 5)] [DUMMY_COMMITMENT] 10) as (a & s' & path & Hsync & Hget & _ & _ & _ & Hproof & _).
  - exact payment_built.
  - reflexivity.
  - exact (submitted_reachable n Hn).
  - reflexivity.
  - exact Hp.
  - exact Hb.
  - exact Hbody.
  - constructor.
  - repeat constructor.
  - exact Hinv.
  - vm_compute. discriminate.
  - exact bob_receives.
  - rewrite Hlast. reflexivity.
  - discriminate.
  - reflexivity.
  - exists a, s', path. exact (conj Hn (conj Hp (conj Hsync (conj Hget Hproof)))).
Defined.
End PaymentSamples.
