(* ===== verification/IndexerSamples.v ===== *)
(** A concrete channel: a deposit, an inscription that is no block, and two
    blocks; the indexer is stopped between them.  Behind them a node that
    starts, produces a block and starts again.  Witnesses of the properties of
    the indexer and of the node. *)

From S2P Require Import Prelude Bytes Crypto Account Ids ProgramCore Borsh MerkleTree Host State Encryption CircuitIo Transactions StateDiffs NativePrograms Instances PrivacyTheorems Chain SequencerStore Sequencer IndexerStore SequencerInvariant IndexerInvariant ChainSamples ChainIndex KeyDerivation GroupKeys KeyTree UserKeyChain WalletSync WalletTheorems IndexerService IndexerTheorems SequencerService NodeTheorems.

Open Scope Z_scope.

Module IndexerSamples.

(** ** Instances *)
Fixpoint bits_of (p : positive) : list byte :=
  match p with
  | xH => []
  | xO p => Byte.x00 :: bits_of p
  | xI p => Byte.x01 :: bits_of p
  end.
Fixpoint of_bits (l : list byte) : positive :=
  match l with
  | [] => xH
  | Byte.x00 :: l => xO (of_bits l)
  | _ :: l => xI (of_bits l)
  end.
Lemma of_bits_of p : of_bits (bits_of p) = p.
Proof. induction p as [p IH|p IH|]; cbn; by rewrite ?IH. Qed.
#[export] Instance sample_cursor_json : CursorJson := {|
  cursor_to_json c := bits_of (encode c);
  cursor_from_json l := decode (of_bits l);
|}.
#[export] Instance sample_cursor_laws : CursorJsonLaws.
Proof. intros c. cbn. rewrite of_bits_of. apply countable.decode_encode. Qed.

(** The first block has its clock transaction only, the second one a payment. *)
Definition first_block : Block := clock_block 0.
Definition second_block : Block :=
  mk_Block (mk_BlockHeader 2 [] [Byte.x02] 1 (mk_Signature [])) [alice_payment; Public (clock_invocation 1)] Pending [].
#[export] Instance sample_block_borsh : Borsh Block := {|
  borsh_to_vec b := le_bytes 1 (header_block_id (header b));
  borsh_try_from_slice data :=
    if decide (data = [Byte.x01]) then Some first_block else if decide (data = [Byte.x02]) then Some second_block else None;
|}.
Definition channel : list (ZoneMessage * Slot) :=
  [(Deposit, 0); (ZoneBlock [Byte.x0a] [Byte.xff], 1); (ZoneBlock [Byte.x0b] [Byte.x01], 2); (Withdraw, 3);
   (ZoneBlock [Byte.x0c] [Byte.x02], 4)].
#[export] Instance sample_zone : ZoneIndexer := fun c n => take n (after c channel).
#[export] Instance sample_zone_laws : ZoneIndexerLaws channel.
Proof. intros c n. exists (drop n (after c channel)). symmetry. apply take_drop. Qed.

(** Poll the first block, stop, start again, poll the rest. *)
Definition run : outcome DbError (BlockStream * list Block) :=
  let stop {A} (r : guest A) : outcome DbError A := map_err (fun _ => DbInteractionError "") r in
  store ← ix_open_db IxDb.empty sample_initial;
  s ← stop (start_stream store);
  '(s, first) ← stop (poll 3 s);
  store ← ix_open_db (ix_dbio (stream_store s)) sample_initial;
  s ← stop (start_stream store);
  '(s, rest) ← stop (poll 5 s);
  Ok (s, ([] ++ first) ++ rest).

Lemma run_indexing s ys : run = Ok (s, ys) -> indexing sample_initial s ys.
Proof.
  unfold run. intros (store & Hopen & Hr)%bind_ok. apply bind_ok in Hr as (s0 & Hstart%map_err_ok & Hr).
  apply bind_ok in Hr as ([s1 a] & Hpoll%map_err_ok & Hr). apply bind_ok in Hr as (store' & Hopen' & Hr).
  apply bind_ok in Hr as (s2 & Hstart'%map_err_ok & Hr). apply bind_ok in Hr as ([s3 b] & Hpoll'%map_err_ok & Heq).
  injection Heq as <- <-. eapply indexing_poll; [|exact Hpoll']. eapply indexing_reopen; [|exact Hopen'|exact Hstart'].
  eapply (indexing_poll _ _ []); [|exact Hpoll]. exact (indexing_open _ _ _ Hopen Hstart).
Qed.
Lemma run_both : exists s ys, indexing sample_initial s ys /\ length ys = 2%nat.
Proof.
  destruct (run_ok run (fun r => Nat.eqb (length r.2) 2)) as ([s ys] & Hr & Hlen); [vm_compute; reflexivity|].
  exists s, ys. split; [by apply run_indexing|]. by apply Nat.eqb_eq in Hlen.
Qed.

Lemma sample_channel : chain_channel sample_initial channel.
Proof.
  split.
  - (apply (bool_decide_unpack _); vm_compute; exact I).
  - intros i b. destruct i as [|[|i]]; cbn; [by intros [= <-]..|done].
  - destruct (run_ok (fold_o replay_ok sample_initial (channel_blocks channel)) (fun _ => true)) as (st & Hst & _);
      [vm_compute; reflexivity|]. by exists st.
  - done.
Qed.

(** The three transactions have three hashes. *)
Lemma sample_hashes : hashes_identify [first_block; second_block].
Proof. apply distinct_hashes_identify. (apply (bool_decide_unpack _); vm_compute; exact I). Qed.
Lemma run_chain s ys : indexing sample_initial s ys -> length ys = 2%nat -> ys = [first_block; second_block].
Proof.
  intros Hs Hlen. destruct (indexing_at_place sample_initial channel s ys sample_channel Hs) as (k & _ & Hys & _).
  subst ys.
  destruct k as [|[|[|[|[|k]]]]]; try (exfalso; revert Hlen; vm_compute; discriminate).
  destruct k; vm_compute; reflexivity.
Qed.

Lemma indexer_ingests_channel_witness :
  exists s, indexing sample_initial s [first_block; second_block] /\
    fold_o replay_ok sample_initial [first_block; second_block] = Ok (current_state (stream_store s)).
Proof.
  destruct run_both as (s & ys & Hs & Hlen). pose proof (run_chain s ys Hs Hlen) as Hys. subst ys.
  exists s. split; [exact Hs|].
  exact (proj1 (proj2 (indexer_ingests_channel sample_initial channel s _ sample_channel Hs))).
Defined.

Lemma indexer_answers_witness :
  exists s, indexing sample_initial s [first_block; second_block] /\
    default 0 (Rpc.get_last_finalized_block_id (stream_store s)) = 2.
Proof.
  destruct run_both as (s & ys & Hs & Hlen). pose proof (run_chain s ys Hs Hlen) as Hys. subst ys.
  exists s. split; [exact Hs|].
  exact (proj1 (indexer_answers sample_initial channel s _ sample_channel Hs sample_hashes)).
Defined.

Lemma sample_typed b : b ∈ [first_block; second_block] -> Forall tx_typed (body b).
Proof. intros Hb. rewrite !elem_of_cons in Hb. destruct Hb as [->|[->|Hb]]; [by repeat constructor..|by apply elem_of_nil in Hb]. Qed.
Lemma indexer_answers_read_back_witness :
  exists s, indexing sample_initial s [first_block; second_block] /\
    exists ptx, Rpc.get_transaction (stream_store s) (of_hash (tx_hash alice_payment)) = Some ptx /\
      to_tx ptx = Ok alice_payment.
Proof.
  destruct run_both as (s & ys & Hs & Hlen). pose proof (run_chain s ys Hs Hlen) as Hys. subst ys.
  exists s. split; [exact Hs|].
  refine (proj1 (proj2 (indexer_answers_read_back sample_initial channel s _ sample_channel Hs sample_typed))
    sample_hashes alice_payment _).
  right. left.
Defined.

(** *** A stop between the block and its cursor

    The block and the cursor are written one after the other.  An indexer that
    stops between them reads the block again when it starts: an empty block runs
    a second time, its transaction is counted twice in the history of the clock
    account, and the clock of the state is ahead of the chain. *)
Definition stopped_between : outcome DbError (IndexerStore * IndexerStore) :=
  store ← ix_open_db IxDb.empty sample_initial;
  let store := (ix_put_block first_block placeholder_l1_header store).1 in
  store ← ix_open_db (ix_dbio store) sample_initial;
  s ← map_err (fun _ => DbInteractionError "") (start_stream store);
  '(s, _) ← map_err (fun _ => DbInteractionError "") (poll 3 s);
  Ok (store, stream_store s).
Lemma interrupted_block_runs_twice :
  exists before after, stopped_between = Ok (before, after) /\
    IxDb.last_block (ix_dbio before) = 1 /\ IxDb.last_block (ix_dbio after) = 1 /\
    default 0 (IxDb.cf_acc_meta (ix_dbio before) !! CLOCK_01_PROGRAM_ACCOUNT_ID) = 1 /\
    default 0 (IxDb.cf_acc_meta (ix_dbio after) !! CLOCK_01_PROGRAM_ACCOUNT_ID) = 2 /\
    data (account_current_state before CLOCK_01_PROGRAM_ACCOUNT_ID) <> data (account_current_state after CLOCK_01_PROGRAM_ACCOUNT_ID).
Proof.
  destruct (run_ok stopped_between (fun r => bool_decide (
    IxDb.last_block (ix_dbio r.1) = 1 /\ IxDb.last_block (ix_dbio r.2) = 1 /\
    default 0 (IxDb.cf_acc_meta (ix_dbio r.1) !! CLOCK_01_PROGRAM_ACCOUNT_ID) = 1 /\
    default 0 (IxDb.cf_acc_meta (ix_dbio r.2) !! CLOCK_01_PROGRAM_ACCOUNT_ID) = 2 /\
    data (account_current_state r.1 CLOCK_01_PROGRAM_ACCOUNT_ID) <> data (account_current_state r.2 CLOCK_01_PROGRAM_ACCOUNT_ID))))
    as ([before after] & Hr & Hc); [vm_compute; reflexivity|].
  apply bool_decide_eq_true_1 in Hc. exists before, after. exact (conj Hr Hc).
Qed.
End IndexerSamples.

(** ** A node and an indexer behind it *)
Module NodeSamples.
#[local] Instance header_eq_dec : EqDecision BlockHeader.
Proof. solve_decision. Defined.
#[local] Instance status_eq_dec : EqDecision BedrockStatus.
Proof. solve_decision. Defined.
#[local] Instance block_eq_dec : EqDecision Block.
Proof. solve_decision. Defined.
#[local] Existing Instance IndexerSamples.sample_cursor_json.
#[local] Existing Instance IndexerSamples.sample_cursor_laws.

(** The blocks of the sample chain are named by their ids. *)
Definition core_blocks : list Block := Eval vm_compute in
  match sample_run alice_payment true with
  | Ok s => option_list (get_block_at_id (store s) 1) ++ option_list (get_block_at_id (store s) 2)
  | _ => []
  end.
#[export] Instance named_blocks : Borsh Block := {|
  borsh_to_vec b := le_bytes 1 (header_block_id (header b));
  borsh_try_from_slice data :=
    if decide (data = [Byte.x01]) then core_blocks !! 0%nat else if decide (data = [Byte.x02]) then core_blocks !! 1%nat else None;
|}.
Definition named (b : Block) : Prop := borsh_try_from_slice (borsh_to_vec b) = Some b.
#[export] Instance named_laws : BorshLaws Block named.
Proof.
  split; [done|]. intros l b Hl. unfold borsh_try_from_slice, named_blocks in Hl.
  destruct (decide (l = [Byte.x01])) as [_|_]; [injection Hl as <-; vm_compute; reflexivity|].
  destruct (decide (l = [Byte.x02])) as [_|_]; [injection Hl as <-; vm_compute; reflexivity|discriminate].
Qed.
#[export] Instance plain_checkpoint : CheckpointJson (list byte) := {|
  checkpoint_to_json c := Some c;
  checkpoint_from_json c := Some c;
|}.

(** Start, store a checkpoint, accept a payment, produce a block, learn that the
    first one is final, and start again. *)
Definition node_run : outcome SequencerError SequencerNode :=
  n ← node_start (Checkpoint := list byte) sample_config None sample_initial sample_sign true [];
  let n := node_event (Published [Byte.x07]) n in
  '(_, m) ← map_err (fun _ => StateError InvalidPrivateKey) (send_transaction 1000 alice_payment (mempool (node_core n)));
  m ← expect m "full";
  '(n, _) ← node_produce true 5 sample_sign (mk_Node (with_mempool m (node_core n)) (published n));
  let n := node_event (Checkpoint := list byte) (FinalizedInscriptions [[Byte.x01]; [Byte.xff]]) n in
  _ ← expect (SeqDb.zone_sdk_checkpoint (dbio (store (node_core n)))) "no checkpoint";
  node_start (Checkpoint := list byte) sample_config (Some (dbio (store (node_core n)))) sample_initial sample_sign true (published n).

Lemma node_run_reachable n : node_run = Ok n -> node_reachable (Checkpoint := list byte) true sample_initial n.
Proof.
  unfold node_run. intros (n0 & Hn0 & Hr)%bind_ok. cbv zeta in Hr.
  apply bind_ok in Hr as ([h m] & Hsend%map_err_ok & Hr). apply bind_ok in Hr as (m' & Hm%expect_ok & Hr). subst m.
  apply bind_ok in Hr as ([n1 h1] & Hp & Hr). cbv zeta in Hr.
  assert (Hcfg : sequencer_config (node_core n0) = sample_config).
  { unfold node_start in Hn0. apply bind_ok in Hn0 as (s & Hs & Hn0). apply bind_ok in Hn0 as (c & _ & Hn0).
    apply bind_ok in Hn0 as (g & _ & [= <-]). unfold start_from_config in Hs. apply bind_ok in Hs as ([st0 st] & _ & Hs).
    apply bind_ok in Hs as (meta & _ & Hs). apply bind_ok in Hs as (mp & _ & Hs). by injection Hs as <-. }
  exists sample_config, sample_sign, true, n0. split; [done|]. split; [exact Hn0|].
  eapply rtc_l; [exact (node_step_event _ _ (Published [Byte.x07]))|].
  eapply rtc_l; [refine (node_step_send _ _ alice_payment h m' _); cbn [node_event node_core sequencer_config]; by rewrite Hcfg|].
  eapply rtc_l; [by eapply node_step_produce; [|exact Hp]|].
  eapply rtc_l; [exact (node_step_event _ _ (FinalizedInscriptions [[Byte.x01]; [Byte.xff]]))|].
  apply bind_ok in Hr as (cp & Hcp%expect_ok & Hr).
  apply rtc_once. eapply node_step_restart; [|exact Hr]. intros _. by exists cp.
Qed.

(** What the node has after the run. *)
Definition node_ready (n : SequencerNode) : bool :=
  bool_decide (published n = [[Byte.x01]; [Byte.x02]]) && bool_decide (chain_height (node_core n) = 2) &&
  bool_decide (map_Forall (fun _ b => named (SeqDb.set_status Pending b)) (SeqDb.cf_block (dbio (store (node_core n))))) &&
  bool_decide (map_Forall (fun _ b => forallb (fun tx => match tx with PrivacyPreserving _ => false | _ => true end) (body b) = true)
    (SeqDb.cf_block (dbio (store (node_core n))))).
Lemma node_run_ready : exists n, node_run = Ok n /\ node_ready n = true.
Proof. apply run_ok. vm_compute. reflexivity. Qed.

Lemma ready_facts n : node_ready n = true ->
  published n = [[Byte.x01]; [Byte.x02]] /\ SeqRpc.get_last_block_id (node_core n) = 2 /\
  forall id b, SeqRpc.get_block (node_core n) id = Some b -> named (SeqDb.set_status Pending b) /\ Forall tx_typed (body b).
Proof.
  unfold node_ready. rewrite !andb_true_iff, !bool_decide_eq_true. intros [[[Hp Hh] Hn] Ht]. split; [exact Hp|]. split; [exact Hh|].
  intros id b Hb. split; [exact (Hn id b Hb)|]. specialize (Ht id b Hb). cbv beta in Ht.
  apply Forall_forall. intros tx Htx%list_elem_of_In. rewrite forallb_forall in Ht. specialize (Ht tx Htx). by destruct tx.
Qed.

Definition channel : list (ZoneMessage * Slot) :=
  [(Deposit, 0); (ZoneBlock [Byte.x0a] [Byte.x01], 1); (Withdraw, 2); (ZoneBlock [Byte.x0b] [Byte.x02], 3)].
#[export] Instance node_zone : ZoneIndexer := fun c n => take n (after c channel).
#[export] Instance node_zone_laws : ZoneIndexerLaws channel.
Proof. intros c n. exists (drop n (after c channel)). symmetry. apply take_drop. Qed.

Definition ix_run : outcome DbError (BlockStream * list Block) :=
  store ← ix_open_db IxDb.empty sample_initial;
  s ← map_err (fun _ => DbInteractionError "") (start_stream store);
  map_err (fun _ => DbInteractionError "") (poll 9 s).
Lemma ix_run_indexing s ys : ix_run = Ok (s, ys) -> indexing sample_initial s ys.
Proof.
  unfold ix_run. intros (store & Hopen & Hr)%bind_ok. apply bind_ok in Hr as (s0 & Hstart%map_err_ok & Hpoll%map_err_ok).
  eapply (indexing_poll _ _ []); [|exact Hpoll]. exact (indexing_open _ _ _ Hopen Hstart).
Qed.
Lemma ix_run_both : exists s ys, indexing sample_initial s ys /\ length ys = 2%nat.
Proof.
  destruct (run_ok ix_run (fun r => Nat.eqb (length r.2) 2)) as ([s ys] & Hr & Hlen); [vm_compute; reflexivity|].
  exists s, ys. split; [by apply ix_run_indexing|]. by apply Nat.eqb_eq in Hlen.
Qed.

Lemma indexer_agrees_with_sequencer_witness :
  exists n s ys, published n = [[Byte.x01]; [Byte.x02]] /\ indexing sample_initial s ys /\
    forall id, Rpc.get_account (stream_store s) (of_account_id id) = of_account (SeqRpc.get_account (node_core n) id).
Proof.
  destruct node_run_ready as (n & Hrun & Hready). destruct (ready_facts n Hready) as (Hpub & Hlast & Hgood).
  destruct ix_run_both as (s & ys & Hs & Hlen). exists n, s, ys. split; [exact Hpub|]. split; [exact Hs|].
  refine (proj2 (proj2 (proj2 (proj2 (indexer_agrees_with_sequencer channel sample_initial n s ys
    (node_run_reachable n Hrun) _ _ Hgood Hs)))) _).
  - rewrite Hpub. exists []. reflexivity.
  - apply (bool_decide_unpack _). vm_compute. exact I.
  - rewrite Hlen, Hlast. reflexivity.
Defined.

Lemma node_answers_witness :
  exists n bs, node_reachable (Checkpoint := list byte) true sample_initial n /\ linked bs /\ length bs = 2%nat /\
    published n = as_published <$> bs.
Proof.
  destruct node_run_ready as (n & Hrun & Hready). destruct (ready_facts n Hready) as (_ & Hlast & _).
  destruct (node_answers true sample_initial n (node_run_reachable n Hrun))
    as (bs & st & Hl & _ & Hid & _ & _ & _ & _ & _ & _ & _ & Hpub).
  exists n, bs. split; [exact (node_run_reachable n Hrun)|]. split; [exact Hl|].
  split; [rewrite Hlast in Hid; lia|exact (Hpub eq_refl)].
Defined.

(** A wallet without keys reads the chain. *)
#[local] Instance unit_hmac : HmacSha512 := fun _ _ => zeros 64.
#[local] Instance unit_k256 : K256 := {|
  k_scalar := (); scalar_from_repr _ := Some (); scalar_to_bytes _ := zeros 32; scalar_add _ _ := (); scalar_mul _ _ := ();
  secret_key_from_bytes _ := Some (); k_point := (); generator := (); point_mul _ _ := (); encode_point _ := zeros 33;
  point_x _ := Some (zeros 32); decode_point _ := Some ();
|}.
#[local] Instance zero_chacha : ChaCha20 := fun _ _ => Byte.x00.
Definition no_keys : Storage :=
  mk_Storage (mk_UserKeyChain ∅ ∅ (mk_KeyTree ∅ ∅) (mk_KeyTree ∅ ∅) ∅ ∅ None) ∅ 0.
Lemma wallet_reads_node_witness :
  exists n bs, length bs = 2%nat /\
    sync_to_latest_block (SeqRpc.get_block_range (node_core n)) (Ok (SeqRpc.get_last_block_id (node_core n))) 1 no_keys =
      (k ← fold_o sync_private_accounts_with_tx (key_chain no_keys) (chain_txs (drop (Z.to_nat 0) bs));
       Ok (mk_Storage k ∅ (Z.of_nat (length bs)), Ok (Z.of_nat (length bs)))).
Proof.
  destruct node_run_ready as (n & Hrun & Hready). destruct (ready_facts n Hready) as (_ & Hlast & _).
  destruct (wallet_reads_node true sample_initial n 1 no_keys (node_run_reachable n Hrun)) as (bs & _ & _ & Hlen & Hsync).
  - discriminate.
  - rewrite Hlast. split; discriminate.
  - rewrite Hlast. reflexivity.
  - exists n, bs. split; [rewrite Hlast in Hlen; lia|exact Hsync].
Defined.

(** *** Nodes that are not healthy

    A node that is stopped before a checkpoint is stored publishes its genesis
    block again; a block that is refused stays in the database and is never
    published, while the blocks after it are. *)
Definition restarted_early : outcome SequencerError SequencerNode :=
  n ← node_start (Checkpoint := list byte) sample_config None sample_initial sample_sign true [];
  node_start (Checkpoint := list byte) sample_config (Some (dbio (store (node_core n)))) sample_initial sample_sign true (published n).
Lemma genesis_published_twice : exists n, restarted_early = Ok n /\ published n = [[Byte.x01]; [Byte.x01]].
Proof.
  destruct (run_ok restarted_early (fun n => bool_decide (published n = [[Byte.x01]; [Byte.x01]]))) as (n & Hn & Hp);
    [vm_compute; reflexivity|].
  exists n. split; [exact Hn|]. by apply bool_decide_eq_true_1 in Hp.
Qed.
Definition refused_once : outcome SequencerError SequencerNode :=
  n ← node_start (Checkpoint := list byte) sample_config None sample_initial sample_sign true [];
  '(n, _) ← node_produce false 5 sample_sign n;
  '(n, _) ← node_produce true 6 sample_sign n;
  Ok n.
Lemma refused_block_is_lost : exists n, refused_once = Ok n /\ published n = [[Byte.x01]; [Byte.x03]] /\
  SeqRpc.get_last_block_id (node_core n) = 3.
Proof.
  destruct (run_ok refused_once (fun n => bool_decide (published n = [[Byte.x01]; [Byte.x03]] /\
    SeqRpc.get_last_block_id (node_core n) = 3))) as (n & Hn & Hp); [vm_compute; reflexivity|].
  exists n. split; [exact Hn|]. by apply bool_decide_eq_true_1 in Hp.
Qed.
End NodeSamples.
